(* ===== verification/_CoqProject ===== *)
-Q . S2P
Prelude.v
Permission.v
Percent.v
Steps.v
Aat.v
Snmp.v
SnmpTheorems.v
Radius.v
Ip.v
Json.v
Workflow.v
Protocol.v
Validators.v
ValidatorTheorems.v
InputTheorems.v
Guard.v
Agent.v
OpText.v
Registry.v
RegistryTheorems.v
ElevationTracker.v
Grimoire.v
TextLemmas.v
GuardTheorems.v
GrimoireRoundTrip.v
CronRoundTrip.v
ManagedHost.v
AgentFixture.v
Quarantine.v
GrimoireTheorems.v
Subnet.v
AuditLog.v
RoleStore.v
RoleTree.v
Web.v
Delegation.v
Executor.v
RoleRoutes.v
RoleSpec.v
RoleSafety.v
Auth.v
Users.v
Login.v
Enrollment.v
HostRoutes.v
FleetSystem.v
FleetInvariant.v
EnrollmentTheorems.v
HostLife.v
Nac.v
NacPolicy.v
NacLogic.v
NacPolicyTheorems.v
NacLife.v
NacGuarantees.v
RadiusServer.v
RadiusServerTheorems.v
RadiusSessions.v
UserSafety.v
System.v
Fixture.v
ExecutorTheorems.v
AdminTheorems.v
RoleTheorems.v
UserTheorems.v
LoginTheorems.v
ResetTheorems.v
AccountTheorems.v
LoginFixture.v
FleetFixture.v
NacFixture.v
RadiusFixture.v
Gaps.v
AuditPages.v
AuditSyslog.v
Posture.v
PostureCatalog.v
PostureAgent.v
PostureRun.v
Pagination.v
