(* ===== verification/Prelude.v ===== *)
(** * Abyssal Arsenal: a verification of its control plane and agent

    Abyssal Arsenal is a self-hosted control plane for a fleet of servers.  A web
    server ([crates/web]) authenticates users ([crates/auth]), authorizes them
    through a hierarchy of roles ([crates/rbac], [crates/database]), runs
    operations on itself or on enrolled hosts ([crates/execution]), and sends
    the latter over a live connection ([crates/hosts]) in a closed vocabulary of
    operations ([crates/agent-protocol]) to an agent ([crates/agent]) that
    carries them out.  Every change is recorded in an audit log
    ([crates/audit]).  This library models the parts that decide who may do what
    and what happens to the state, translated function by function from the
    Rust sources, and proves what makes them correct.

    ** Files

    Foundations
    - [Prelude]: results, Unicode strings and the [core::str] functions the code
      uses, decimal numbers, UTF-8, IPv4, shared tactics and lemmas.
    - [Percent], [Json], [TextLemmas]: percent-encoding, the JSON data model,
      lemmas on trimming and splitting.
    - [Steps]: programs as trees of atomic actions on the state, run alone or
      interleaved with others.
    - [Permission]: [crates/core/src/permission.rs].
    - [Ip]: IPv4 and IPv6 addresses, the printer and the parser of the standard
      library, and that they are inverse; [Subnet]: [crates/core/src/subnet.rs]
      and what it means to be in a block.

    Roles and users
    - [AuditLog] ([crates/audit]), [RoleStore] ([repo/roles.rs],
      [repo/role_module_visibility.rs] over one record of tables [Db]),
      [RoleTree] (the hierarchy: ancestors, depth, cycles).
    - [Web] (errors, responses, CSRF, the monad [App] of a handler),
      [Delegation] ([rbac], the extractor of [extract.rs], the delegation rules
      of [common.rs]), [RoleRoutes] ([routes/roles.rs]), [Users]
      ([routes/users.rs], [repo/users.rs]).
    - [RoleSpec], [RoleSafety], [UserSafety], [System]: the
      contract of a change to roles or users, the refinement of every handler to
      it, and the handlers composed into one system that serves requests.
    - [RoleTheorems], [UserTheorems], [AdminTheorems]: nobody gains a permission
      through the administration surface, delegated administrators are confined
      to their subtree, the tables stay well-formed, every change is audited.
      [Gaps]: where the code falls short of that, and by which inputs.

    Getting in
    - [Auth] ([crates/auth]: password policy, generator, lockout, provider,
      sessions) and what they guarantee.
    - [Login] ([routes/login.rs], [setup.rs], [register.rs],
      [password_reset.rs], the password change of [account.rs],
      [repo/password_resets.rs]); its state [Site] adds the limiter, the
      settings and the mail that is sent to [Db].  A login is the three stretches
      it runs without waiting ([login_check], [login_look], [login_settle]);
      [LoginTheorems] interleaves them ([login_step]).  [LoginTheorems],
      [ResetTheorems], [AccountTheorems], [LoginFixture]: the life of a session,
      the bound on guessing, single use of a reset code, a form that reveals
      nothing, strangers confined.

    Hosts
    - [Protocol] (the operations, their minimum versions), [OpText] (their debug
      text and labels), [Validators] with [ValidatorTheorems] and
      [InputTheorems] (exactly which validators keep a leading dash and control
      characters out).
    - [Guard], [GuardTheorems]: [control_plane_guard.rs], which refuses what
      would take the control plane's own server down; what it lets through on disks,
      volumes and mounts, over block devices and the texts that spell their names,
      and the names under which it can be passed.
    - [Registry], [RegistryTheorems]: [registry.rs] with what [handle_socket]
      does to it.  A dispatch is a task that takes one critical section at a
      time ([step]); connections, answers, disconnects and timeouts interleave
      freely.  Invariants are by induction over [reachable].
    - [ElevationTracker]: [elevation_tracker.rs] and its refinement.
    - [Executor], [ExecutorTheorems]: [crates/execution]; an audit record that
      cannot be written is a case of its own.
    - [Workflow]: [crates/workflows].

    Enrolling hosts
    - [Aat]: install tokens and the proof of the CA
      ([agent-protocol/src/aat.rs], [web/src/aat.rs]).
    - [Enrollment] ([routes/agent.rs], [install_tokens.rs], the [AgentAuth]
      extractor and their repositories), [HostRoutes] ([routes/hosts.rs]): every
      handler is a program of [Steps], over the state [Fleet] of the tables, the
      registry and the clock.  [FleetSystem] interleaves them with each other and
      with failures of the database, and has a small program logic for one request
      under failures; [FleetInvariant] is what each statement keeps.
    - [EnrollmentTheorems], [HostLife], [FleetFixture]: tokens are used once, an
      install token displaces nobody, the keys of the tables stay unique, and
      what a credential is good for over its life.

    Network access control
    - [Snmp], [SnmpTheorems]: what [panopticon_snmp.rs] does to read and write a
      switch, over the interface [SnmpLink] with the laws [SnmpSpec].
    - [Nac] ([panopticon_enforcement.rs]) and [NacPolicy] ([panopticon_policy.rs])
      with their repositories and handlers: programs of [Steps] over the state
      [Nac], which says for every statement to come whether it fails.
    - [NacLogic], [NacPolicyTheorems], [NacLife],
      [NacGuarantees], [NacFixture]: a switch is written to only through the
      gates, releasing gives back what enforcing took, the revert sweep forgets
      nothing, rules are reordered by swapping neighbours.
    - [Radius]: the codec of [radius.rs] over lists of bytes,
      where an index out of range is a panic; what it accepts, and that its
      answers are genuine.
    - [RadiusServer] ([panopticon_radius.rs], its repository and handlers) over
      the same state [Nac]; [RadiusServerTheorems] (who is let in, on which VLAN,
      also when statements fail), [RadiusSessions] (accounting), [RadiusFixture].

    Reading the audit log
    - [AuditPages] ([repo/audit.rs], [routes/audit.rs]): the keyset pages and the
      CSV export over a log that grows while it is read; browsing is browsing by
      offset, and the exported file reads back as the rows.
    - [AuditSyslog] ([audit_export.rs]): the sweep that tails the log, each of
      its statements failing or not; [exports] is what can happen to it.  With a
      log for the witnesses, and the rows the sweep never sends.

    Pages
    - [Pagination] ([pagination.rs], the dashboards of [routes/inquest.rs] and
      [routes/postmortem.rs]): numbered pages and their links; browsing by them
      shows every connected host once.

    Posture checks
    - [Posture], [PostureCatalog] ([crates/posture]): the helpers and rules, the
      58 checks of Linux and the 47 of Windows with their texts, evaluation and
      score; that every verdict rests on facts the host reported.
    - [PostureAgent] ([agent/src/posture.rs], the detections of [cadavault.rs] and
      [apothecary.rs]): the parsers and the collection on Linux over [Os] and
      [HostFs], and the checks of file permissions from the host to the verdict.
    - [PostureRun] ([posture_ops.rs], [repo/posture.rs]): storing a run and
      trimming the history, each statement failing or not, the lines for the SIEM
      and that they read back, and a tick of the daily schedule.

    The agent
    - [Agent] ([process.rs], [elevation.rs]) over an operating system given as
      the interface [Os]; [Grimoire] ([grimoire.rs], managed configuration
      files) with [GrimoireRoundTrip], [CronRoundTrip], [ManagedHost],
      [GrimoireTheorems]; [Quarantine] ([inquest.rs], [shred.rs]).
    - [Fixture], [AgentFixture], [LoginFixture]: concrete deployments the
      theorems are evaluated on.

    ** How the code is translated

    A [Result] is [result], an early return is [if_return] or a bind, a [&str] is
    a list of Unicode scalar values with [len] counting bytes, a [HashMap] is a
    [gmap], a table is a map by its primary key with the constraints of the
    migrations checked by each statement.  A handler threads the state
    explicitly; a failure keeps the writes made before it, as no handler opens a
    transaction, except for the rows of a posture run, which are stored in one.
    The handlers of roles, users and logins are atomic with respect to each other,
    except that the bound on guessing is proved over logins that are interleaved
    wherever they wait; those of hosts and switches are programs of single statements
    that interleave, and in the registry each lock is a step.  Identifiers,
    tokens, the clock, proposed passwords, hashing, regular expressions and the
    operating system are arguments or interfaces, with what the code relies on
    as class fields or hypotheses.  [HashSet] order is never relied on.

    ** Bounds

    [MAX_ANCESTOR_WALK] (20) bounds every walk up the role hierarchy; theorems
    about inheritance assume the chain is shorter ([shallow]), which role
    creation maintains and [Gaps.deep_chain_escapes_ceiling] shows re-parenting
    does not.  [fmt_N] has fuel for every digit of its argument; the loops of
    the text functions recurse on the text itself, [render_loop] on its length.
    Connection epochs are 64-bit; steps assume they have not been exhausted.
    [walk_table] has fuel for [MAX_WALK_ENTRIES] answers, after which the code
    stops as well; the loops of the RADIUS codec for the length of the packet,
    which [parse_exact] shows to be enough; [for_each_batch] for one batch more than
    the log has rows; [read_pairs] for the nine fields of a line; [fmt_octal] and
    [trim_end_text] for every digit and character.  A host's history is trimmed by at
    most a thousand runs at a time, so the bound of sixty assumes fewer than 1060.
    Fewer than 2^32 pages of hosts are connected. The use counters of tokens do not overflow.

    ** Not modelled

    Markup of pages and templates; SMTP, syslog and webhook delivery; TLS and
    certificate generation; the shell-outs of the agent whose logic is the
    output of another program (package managers, firewall tools, journalctl),
    its transport loop and self-update; Windows and directory operations, the
    PowerShell script that collects the posture of Windows among them; the
    pages of the arsenals, which forward validated forms to the executor; the
    other background services of [crates/web] (network inventory, SNMP polling,
    DHCP, backups).  The settings and timezone of an account, saved macros,
    and the columns no modelled code reads (timestamps of users and roles) are
    left out of the records; so are the widths of text columns.  A dispatch whose
    caller goes away, which leaves its pending entry behind, is not modelled; the
    theorems on the guarded registry assume that the host is flagged from the start
    and stays so.  What a notification provider does with a message is left out, so
    the export of the audit log ends at the dispatcher.

    ** What is left

    The remaining state-changing host routes over [Executor] would follow the
    pattern of what is here; they add no state of their own. *)

From Stdlib Require Import NArith ZArith Lia.
From Stdlib Require Export Ascii.
From stdpp Require Export base decidable option numbers list gmap sets fin_maps strings.

Set Default Proof Using "Type".
#[export] Set Default Goal Selector "!".

(** * Results

    Rust's [Result<T, E>].  The error type comes first so that [result E] is a
    type constructor and stdpp's monad notation applies to it. *)

Inductive result (E T : Type) : Type :=
| Ok (x : T)
| Err (e : E).
Arguments Ok {E T} x.
Arguments Err {E T} e.

#[export] Instance result_ret {E} : MRet (result E) := λ T x, Ok x.
#[export] Instance result_bind {E} : MBind (result E) :=
  λ T U f r, match r with Ok x => f x | Err e => Err e end.
#[export] Instance result_fmap {E} : FMap (result E) :=
  λ T U f r, match r with Ok x => Ok (f x) | Err e => Err e end.

(** Rust's [opt.ok_or(e)]. *)
Definition ok_or {E T} (o : option T) (e : E) : result E T :=
  match o with Some x => Ok x | None => Err e end.

Definition is_ok {E T} (r : result E T) : bool :=
  match r with Ok _ => true | Err _ => false end.
Definition is_err {E T} (r : result E T) : bool := negb (is_ok r).

(** An early return: [guard_else b e k] is [if !b { return Err(e) } k]. *)
Definition guard_else {E T} (b : bool) (e : E) (k : result E T) : result E T :=
  if b then k else Err e.

Lemma guard_else_ok {E T} b (e : E) (k : result E T) x :
  guard_else b e k = Ok x ↔ b = true ∧ k = Ok x.
Proof. unfold guard_else. destruct b; naive_solver. Qed.

Lemma result_bind_ok {E T U} (r : result E T) (f : T → result E U) y :
  (r ≫= f) = Ok y ↔ ∃ x, r = Ok x ∧ f x = Ok y.
Proof. destruct r; cbn; naive_solver. Qed.

Lemma ok_or_ok {E T} (o : option T) (e : E) x : ok_or o e = Ok x ↔ o = Some x.
Proof. destruct o; cbn; naive_solver. Qed.

(** * Unicode strings

    A Rust [&str] is a sequence of Unicode scalar values; [char] is a scalar
    value.  [len] is the length in UTF-8 bytes, as [str::len] is; [length] is
    the number of characters, as [chars().count()] is. *)

Abbreviation char := N (only parsing).
Abbreviation rstr := (list N) (only parsing).

Definition lit (s : string) : rstr := N_of_ascii <$> String.list_ascii_of_string s.
Definition ch (s : string) : char :=
  match s with String.String a _ => N_of_ascii a | String.EmptyString => 0%N end.

Declare Scope rust_scope.
Delimit Scope rust_scope with rust.
Notation "# s" := (lit s%string) (at level 1, s at level 0, format "# s") : rust_scope.
Notation "$ s" := (ch s%string) (at level 1, s at level 0, format "$ s") : rust_scope.
Open Scope rust_scope.
(** A method call on a value, for chains of builder methods. *)
Notation "x |> f" := (f x) (at level 40, left associativity, only parsing) : rust_scope.
#[global] Arguments lit : simpl never.
#[global] Arguments ch : simpl never.

Definition utf8_len (c : char) : nat :=
  if (c <? 128)%N then 1 else if (c <? 2048)%N then 2
  else if (c <? 65536)%N then 3 else 4.

Fixpoint len (s : rstr) : nat :=
  match s with [] => 0 | c :: s' => utf8_len c + len s' end.

Definition is_empty (s : rstr) : bool := match s with [] => true | _ => false end.

(** ** Character classes of [core::char] *)

Definition in_range (lo hi c : char) : bool := (lo <=? c)%N && (c <=? hi)%N.

Definition is_ascii_digit (c : char) : bool := in_range 48 57 c.
Definition is_ascii_lowercase (c : char) : bool := in_range 97 122 c.
Definition is_ascii_uppercase (c : char) : bool := in_range 65 90 c.
Definition is_ascii_alphabetic (c : char) : bool :=
  is_ascii_lowercase c || is_ascii_uppercase c.
Definition is_ascii_alphanumeric (c : char) : bool :=
  is_ascii_alphabetic c || is_ascii_digit c.
Definition is_ascii_hexdigit (c : char) : bool :=
  is_ascii_digit c || in_range 97 102 c || in_range 65 70 c.
Definition is_ascii_punctuation (c : char) : bool :=
  in_range 33 47 c || in_range 58 64 c || in_range 91 96 c || in_range 123 126 c.

(** General category Cc. *)
Definition is_control (c : char) : bool := (c <? 32)%N || in_range 127 159 c.

(** The White_Space property. *)
Definition is_whitespace (c : char) : bool :=
  in_range 9 13 c || (c =? 32)%N || (c =? 133)%N || (c =? 160)%N || (c =? 5760)%N
  || in_range 8192 8202 c || in_range 8232 8233 c || (c =? 8239)%N
  || (c =? 8287)%N || (c =? 12288)%N.

Definition to_ascii_lower (c : char) : char := if is_ascii_uppercase c then (c + 32)%N else c.
Definition to_ascii_upper (c : char) : char := if is_ascii_lowercase c then (c - 32)%N else c.
Definition to_ascii_lowercase (s : rstr) : rstr := to_ascii_lower <$> s.
Definition to_ascii_uppercase (s : rstr) : rstr := to_ascii_upper <$> s.

(** Equality of strings and membership in an array of strings, as booleans. *)
Definition str_eqb (s t : rstr) : bool := bool_decide (s = t).
Definition str_mem (s : rstr) (l : list rstr) : bool := existsb (str_eqb s) l.
Definition char_mem (c : char) (l : list char) : bool := existsb (N.eqb c) l.
Definition eq_ignore_ascii_case (s t : rstr) : bool :=
  str_eqb (to_ascii_lowercase s) (to_ascii_lowercase t).

#[global] Arguments str_eqb : simpl never.
#[global] Arguments str_mem : simpl never.
#[global] Arguments char_mem : simpl never.

(** ** Searching and slicing, as in [core::str] *)

Fixpoint strip_prefix (s p : rstr) {struct p} : option rstr :=
  match p, s with
  | [], _ => Some s
  | _ :: _, [] => None
  | a :: p', b :: s' => if (a =? b)%N then strip_prefix s' p' else None
  end.

Definition starts_with (s p : rstr) : bool := bool_decide (is_Some (strip_prefix s p)).
Definition strip_suffix (s p : rstr) : option rstr :=
  reverse <$> strip_prefix (reverse s) (reverse p).
Definition ends_with (s p : rstr) : bool := bool_decide (is_Some (strip_suffix s p)).

Fixpoint contains (s p : rstr) : bool :=
  starts_with s p || match s with [] => false | _ :: s' => contains s' p end.
Definition contains_char (s : rstr) (c : char) : bool := existsb (N.eqb c) s.

Fixpoint drop_while (f : char → bool) (s : rstr) : rstr :=
  match s with [] => [] | c :: s' => if f c then drop_while f s' else s end.
Definition trim_start_matches (f : char → bool) (s : rstr) : rstr := drop_while f s.
Definition trim_end_matches (f : char → bool) (s : rstr) : rstr :=
  reverse (drop_while f (reverse s)).
Definition trim_matches (f : char → bool) (s : rstr) : rstr :=
  trim_end_matches f (trim_start_matches f s).
Definition trim (s : rstr) : rstr := trim_matches is_whitespace s.

(** [str::split] with a character predicate. *)
Fixpoint split_on (f : char → bool) (s : rstr) : list rstr :=
  match s with
  | [] => [[]]
  | c :: s' =>
      if f c then [] :: split_on f s'
      else match split_on f s' with
           | [] => [[c]]
           | w :: ws => (c :: w) :: ws
           end
  end.
Definition split_char (c : char) (s : rstr) : list rstr := split_on (N.eqb c) s.

Fixpoint split_once (c : char) (s : rstr) : option (rstr * rstr) :=
  match s with
  | [] => None
  | a :: s' =>
      if (a =? c)%N then Some ([], s')
      else match split_once c s' with
           | Some (l, r) => Some (a :: l, r)
           | None => None
           end
  end.
Definition rsplit_once (c : char) (s : rstr) : option (rstr * rstr) :=
  match split_once c (reverse s) with
  | Some (r, l) => Some (reverse l, reverse r)
  | None => None
  end.

Definition split_whitespace (s : rstr) : list rstr :=
  List.filter (λ w, negb (is_empty w)) (split_on is_whitespace s).

(** [str::lines]: a line ends at a newline, optionally preceded by a carriage
    return; a final empty line is not yielded. *)
Definition strip_cr (l : rstr) : rstr := default l (strip_suffix l [13%N]).
Fixpoint lines_of (segs : list rstr) : list rstr :=
  match segs with
  | [] => []
  | [l] => if is_empty l then [] else [l]
  | l :: rest => strip_cr l :: lines_of rest
  end.
Definition lines (s : rstr) : list rstr := lines_of (split_on (N.eqb 10) s).

(** [s.matches(p).count()] for a non-empty [p]: non-overlapping occurrences. *)
Fixpoint count_matches (p s : rstr) (skip : nat) : nat :=
  match s with
  | [] => 0
  | _ :: s' =>
      match skip with
      | S k => count_matches p s' k
      | 0 => if starts_with s p then S (count_matches p s' (length p - 1))
             else count_matches p s' 0
      end
  end.

Fixpoint join (sep : rstr) (l : list rstr) : rstr :=
  match l with
  | [] => []
  | [w] => w
  | w :: ws => w ++ sep ++ join sep ws
  end.

(** ** Decimal numbers *)

Fixpoint dec_digits (fuel : nat) (n : N) (acc : rstr) : rstr :=
  match fuel with
  | 0 => acc
  | S k =>
      let acc' := (48 + n mod 10)%N :: acc in
      if (n / 10 =? 0)%N then acc' else dec_digits k (n / 10) acc'
  end.
(** [u*::to_string]: the fuel is the bit length, which is at least the number
    of decimal digits. *)
Definition fmt_N (n : N) : rstr := dec_digits (S (N.to_nat (N.size n))) n [].

(** [from_str_radix(_, 10)] without a sign and without a bound. *)
Fixpoint parse_digits (s : rstr) (acc : N) : option N :=
  match s with
  | [] => Some acc
  | c :: s' => if is_ascii_digit c then parse_digits s' (acc * 10 + (c - 48))%N else None
  end.

(** [u8::from_str] and the like: an optional [+], at least one digit, and a
    value that fits. *)
Definition parse_unsigned (max : N) (s : rstr) : option N :=
  let body := default s (strip_prefix s #"+") in
  if is_empty body then None
  else match parse_digits body 0 with
       | Some n => if (n <=? max)%N then Some n else None
       | None => None
       end.
Definition parse_u8 : rstr → option N := parse_unsigned 255.

(** [Ipv4Addr::from_str]: four dot-separated octets of one to three digits,
    none above 255 and none with a leading zero. *)
Definition parse_octet (s : rstr) : option N :=
  if is_empty s || (3 <? length s) then None
  else if (1 <? length s) && starts_with s #"0" then None
  else match parse_digits s 0 with
       | Some n => if (n <=? 255)%N then Some n else None
       | None => None
       end.
Definition parse_ipv4 (s : rstr) : option (N * N * N * N) :=
  match split_char $"." s with
  | [a; b; c; d] =>
      match parse_octet a, parse_octet b, parse_octet c, parse_octet d with
      | Some a, Some b, Some c, Some d => Some (a, b, c, d)
      | _, _, _, _ => None
      end
  | _ => None
  end.

(** ** UTF-8 and hexadecimal *)

(** The UTF-8 encoding of a scalar value, and of a string ([str::bytes]). *)
Definition utf8 (c : char) : list N :=
  if (c <? 128)%N then [c]
  else if (c <? 2048)%N then [192 + c / 64; 128 + c mod 64]%N
  else if (c <? 65536)%N then [224 + c / 4096; 128 + c / 64 mod 64; 128 + c mod 64]%N
  else [240 + c / 262144; 128 + c / 4096 mod 64; 128 + c / 64 mod 64; 128 + c mod 64]%N.
Fixpoint bytes (s : rstr) : list N :=
  match s with [] => [] | c :: s' => utf8 c ++ bytes s' end.

Definition hex_upper (d : N) : char := if (d <? 10)%N then (48 + d)%N else (55 + d)%N.
Definition hex_lower (d : N) : char := if (d <? 10)%N then (48 + d)%N else (87 + d)%N.

(** * Shared lemmas and automation *)

Create HintDb rust.

(** Turns boolean connectives in the context and the goal into propositions. *)
Ltac bool_prop :=
  repeat match goal with
  | H : _ && _ = true |- _ => apply andb_true_iff in H as [? ?]
  | H : _ || _ = false |- _ => apply orb_false_iff in H as [? ?]
  | H : negb _ = true |- _ => apply negb_true_iff in H
  | H : negb _ = false |- _ => apply negb_false_iff in H
  | H : bool_decide _ = true |- _ => apply bool_decide_eq_true in H
  | H : bool_decide _ = false |- _ => apply bool_decide_eq_false in H
  | H : (_ <=? _)%N = true |- _ => apply N.leb_le in H
  | H : (_ <=? _)%N = false |- _ => apply N.leb_gt in H
  | H : (_ <? _)%N = true |- _ => apply N.ltb_lt in H
  | H : (_ <? _)%N = false |- _ => apply N.ltb_ge in H
  | H : (_ =? _)%N = true |- _ => apply N.eqb_eq in H
  | H : (_ =? _)%N = false |- _ => apply N.eqb_neq in H
  | |- _ && _ = true => apply andb_true_iff; split
  | |- negb _ = true => apply negb_true_iff
  | |- bool_decide _ = true => apply bool_decide_eq_true
  | |- bool_decide _ = false => apply bool_decide_eq_false
  end.

(** Case analysis on every [match] and [if] left, closing absurd branches. *)
Ltac branches := repeat (case_match; simplify_eq/=); try done.

(** Unwinds the early returns of a handler that returned [Ok]. *)
Ltac unwind :=
  repeat match goal with
  | H : guard_else _ _ _ = Ok _ |- _ => apply guard_else_ok in H as [? H]
  | H : (_ ≫= _) = Ok _ |- _ => apply result_bind_ok in H as (? & ? & H)
  | H : ok_or _ _ = Ok _ |- _ => apply ok_or_ok in H
  | H : Ok _ = Ok _ |- _ => injection H as H
  | H : Err _ = Ok _ |- _ => discriminate H
  end.

Section string_lemmas.
Implicit Types s t p w : rstr.

Lemma str_eqb_eq s t : str_eqb s t = true ↔ s = t.
Proof. apply bool_decide_eq_true. Qed.

Lemma str_mem_elem s l : str_mem s l = true ↔ s ∈ l.
Proof.
  unfold str_mem. rewrite existsb_exists. split.
  - intros (x & Hx & ->%str_eqb_eq). by apply list_elem_of_In.
  - intros Hs. exists s. split; [by apply list_elem_of_In|by apply str_eqb_eq].
Qed.

Lemma char_mem_elem c l : char_mem c l = true ↔ c ∈ l.
Proof.
  unfold char_mem. rewrite existsb_exists. split.
  - intros (x & Hx & ->%N.eqb_eq). by apply list_elem_of_In.
  - intros Hs. exists c. split; [by apply list_elem_of_In|by apply N.eqb_eq].
Qed.

Lemma strip_prefix_Some s p r : strip_prefix s p = Some r ↔ s = p ++ r.
Proof.
  revert s. induction p as [|a p IH]; intros s; cbn.
  { split; [by intros [= ->]|by intros ->]. }
  destruct s as [|b s]; [done|]. destruct (N.eqb_spec a b) as [->|Hab].
  - rewrite IH. split; [by intros ->|by intros [= ->]].
  - split; [done|by intros [= ->]].
Qed.

Lemma starts_with_true s p : starts_with s p = true ↔ ∃ r, s = p ++ r.
Proof.
  unfold starts_with, is_Some. rewrite bool_decide_eq_true.
  split; intros [r Hr]; exists r; by apply strip_prefix_Some.
Qed.

Lemma starts_with_app p r : starts_with (p ++ r) p = true.
Proof. apply starts_with_true. by exists r. Qed.

Lemma strip_suffix_Some s p r : strip_suffix s p = Some r ↔ s = r ++ p.
Proof.
  unfold strip_suffix. rewrite fmap_Some. split.
  - intros (x & Hx%strip_prefix_Some & ->).
    rewrite <- (reverse_involutive s), Hx, reverse_app. by rewrite reverse_involutive.
  - intros ->. exists (reverse r). rewrite strip_prefix_Some, reverse_app.
    by rewrite reverse_involutive.
Qed.

Lemma ends_with_true s p : ends_with s p = true ↔ ∃ r, s = r ++ p.
Proof.
  unfold ends_with, is_Some. rewrite bool_decide_eq_true.
  split; intros [r Hr]; exists r; by apply strip_suffix_Some.
Qed.

Lemma contains_true s p : contains s p = true ↔ ∃ l r, s = l ++ p ++ r.
Proof.
  induction s as [|c s IH]; cbn; rewrite orb_true_iff, starts_with_true.
  - split.
    + intros [[r Hr]|?]; [by exists [], r|done].
    + intros (l & r & Hr). left. exists r. destruct l; [done|discriminate].
  - rewrite IH. split.
    + intros [[r Hr]|(l & r & ->)]; [by exists [], r|by exists (c :: l), r].
    + intros ([|x l] & r & Hr); [left; by exists r|right].
      injection Hr as -> ->. by exists l, r.
Qed.

Lemma contains_char_elem s c : contains_char s c = true ↔ c ∈ s.
Proof. apply char_mem_elem. Qed.

Lemma forallb_elem (f : char → bool) s : forallb f s = true ↔ ∀ c, c ∈ s → f c = true.
Proof. rewrite forallb_forall. by setoid_rewrite <- list_elem_of_In. Qed.

(** A substring contains only characters of the string. *)
Lemma contains_incl s p c : contains s p = true → c ∈ p → c ∈ s.
Proof. rewrite contains_true. intros (l & r & ->) ?. set_solver. Qed.

Lemma drop_while_suffix f s : ∃ l, s = l ++ drop_while f s.
Proof.
  induction s as [|c s [l IH]]; cbn; [by exists []|].
  destruct (f c); [|by exists []]. exists (c :: l). cbn. by f_equal.
Qed.

Lemma drop_while_head f s c r : drop_while f s = c :: r → f c = false.
Proof. induction s as [|a s IH]; cbn; [done|]. destruct (f a) eqn:?; naive_solver. Qed.

Lemma drop_while_id f s : head (drop_while f s) = head s → drop_while f s = s.
Proof.
  destruct s as [|c s]; cbn; [done|]. destruct (f c) eqn:Hc; [|done].
  intros H. destruct (drop_while f s) as [|x r] eqn:Hd; [done|].
  cbn in H. injection H as ->. by rewrite (drop_while_head _ _ _ _ Hd) in Hc.
Qed.

Lemma trim_end_prefix f s : ∃ r, s = trim_end_matches f s ++ r.
Proof.
  unfold trim_end_matches. destruct (drop_while_suffix f (reverse s)) as [l Hl].
  exists (reverse l). by rewrite <- reverse_app, <- Hl, reverse_involutive.
Qed.

(** A trimmed string is a piece of the original one. *)
Lemma trim_matches_infix f s : ∃ l r, s = l ++ trim_matches f s ++ r.
Proof.
  unfold trim_matches, trim_start_matches.
  destruct (drop_while_suffix f s) as [l Hl], (trim_end_prefix f (drop_while f s)) as [r Hr].
  exists l, r. by rewrite <- Hr.
Qed.

Lemma len_app s t : len (s ++ t) = len s + len t.
Proof. induction s as [|c s IH]; cbn; [done|]. rewrite IH. lia. Qed.

Lemma utf8_len_pos c : 1 ≤ utf8_len c.
Proof. unfold utf8_len. repeat case_match; lia. Qed.

(** [str::len] counts the bytes of the encoding. *)
Lemma length_bytes s : length (bytes s) = len s.
Proof.
  induction s as [|c s IH]; cbn; [done|]. rewrite length_app, IH. f_equal.
  unfold utf8, utf8_len. by repeat case_match.
Qed.

Lemma length_le_len s : length s ≤ len s.
Proof. induction s as [|c s IH]; cbn; [done|]. pose proof (utf8_len_pos c). lia. Qed.

Lemma split_on_nonnil f s : split_on f s ≠ [].
Proof. destruct s; cbn; [done|]. by repeat case_match. Qed.

(** The pieces of a split contain no separator, and only characters of the
    string. *)
Lemma split_on_elem f s w c : w ∈ split_on f s → c ∈ w → c ∈ s ∧ f c = false.
Proof.
  revert w. induction s as [|a s IH]; cbn; intros w Hw Hc.
  - apply list_elem_of_singleton in Hw as ->. by apply elem_of_nil in Hc.
  - destruct (f a) eqn:Ha.
    + apply elem_of_cons in Hw as [->|Hw]; [by apply elem_of_nil in Hc|].
      destruct (IH w Hw Hc). set_solver.
    + destruct (split_on f s) as [|v vs] eqn:Hs.
      { by destruct (split_on_nonnil f s). }
      apply elem_of_cons in Hw as [->|Hw].
      * apply elem_of_cons in Hc as [->|Hc]; [set_solver|].
        destruct (IH v ltac:(set_solver) Hc). set_solver.
      * destruct (IH w ltac:(set_solver) Hc). set_solver.
Qed.

Lemma split_once_Some c s l r :
  split_once c s = Some (l, r) → s = l ++ c :: r ∧ c ∉ l.
Proof.
  revert l r. induction s as [|a s IH]; cbn; intros l r Hs; [done|].
  destruct (N.eqb_spec a c) as [->|Hne].
  - injection Hs as <- <-. split; [done|set_solver].
  - destruct (split_once c s) as [[l' r']|] eqn:Hs'; [|done].
    injection Hs as <- <-. destruct (IH l' r' eq_refl) as [-> ?].
    split; [done|set_solver].
Qed.

Lemma is_empty_false s : is_empty s = false ↔ s ≠ [].
Proof. destruct s; naive_solver. Qed.
End string_lemmas.

#[export] Hint Resolve starts_with_app utf8_len_pos split_on_nonnil : rust.
