(* ===== verification/Permission.v ===== *)
(** * Permissions ([crates/core/src/permission.rs])

    The closed catalogue of permissions, the stable keys they are stored under,
    and the lookup from a stored key.  [Permission] is countable, so a Rust
    [HashSet<Permission>] is a [gset Permission]. *)

From S2P Require Import Prelude.

Inductive Permission : Set :=
| UsersView | UsersCreate | UsersModify | UsersDelete | SystemsView
| SystemsManage | HostUsersView | HostUsersManage | NetworkView
| NetworkManage | NetworkScan | NetworkNac | SecurityView | SecurityManage
| ContainersView | ContainersManage | StorageView | StorageManage
| BackupsView | BackupsCreate | BackupsRestore | IncidentsView
| IncidentsRespond | AuditView | AuditExport | AuditManage | RolesManage
| ModulesManage | SettingsManage | NotificationsManage | HostsView
| HostsEnroll | HostsManage | HostsElevate | MacrosManageAll
| StorageConnectionsView | StorageConnectionsManage | ScourgeView
| ScourgeManage | DirectoryView | DirectoryHelpdesk | DirectoryManage
| DirectoryDelete | DirectoryPrivileged | DirectoryConfigure.

(** [Permission::as_key]. *)
Definition as_key (p : Permission) : rstr :=
  match p with
  | UsersView => #"users.view"
  | UsersCreate => #"users.create"
  | UsersModify => #"users.modify"
  | UsersDelete => #"users.delete"
  | SystemsView => #"systems.view"
  | SystemsManage => #"systems.manage"
  | HostUsersView => #"host_users.view"
  | HostUsersManage => #"host_users.manage"
  | NetworkView => #"network.view"
  | NetworkManage => #"network.manage"
  | NetworkScan => #"network.scan"
  | NetworkNac => #"network.nac"
  | SecurityView => #"security.view"
  | SecurityManage => #"security.manage"
  | ContainersView => #"containers.view"
  | ContainersManage => #"containers.manage"
  | StorageView => #"storage.view"
  | StorageManage => #"storage.manage"
  | BackupsView => #"backups.view"
  | BackupsCreate => #"backups.create"
  | BackupsRestore => #"backups.restore"
  | IncidentsView => #"incidents.view"
  | IncidentsRespond => #"incidents.respond"
  | AuditView => #"audit.view"
  | AuditExport => #"audit.export"
  | AuditManage => #"audit.manage"
  | RolesManage => #"roles.manage"
  | ModulesManage => #"modules.manage"
  | SettingsManage => #"settings.manage"
  | NotificationsManage => #"notifications.manage"
  | HostsView => #"hosts.view"
  | HostsEnroll => #"hosts.enroll"
  | HostsManage => #"hosts.manage"
  | HostsElevate => #"hosts.elevate"
  | MacrosManageAll => #"macros.manage_all"
  | StorageConnectionsView => #"storage_connections.view"
  | StorageConnectionsManage => #"storage_connections.manage"
  | ScourgeView => #"scourge.view"
  | ScourgeManage => #"scourge.manage"
  | DirectoryView => #"directory.view"
  | DirectoryHelpdesk => #"directory.helpdesk"
  | DirectoryManage => #"directory.manage"
  | DirectoryDelete => #"directory.delete"
  | DirectoryPrivileged => #"directory.privileged"
  | DirectoryConfigure => #"directory.configure"
  end.

(** [Permission::ALL]. *)
Definition ALL : list Permission :=
  [
    UsersView; UsersCreate; UsersModify; UsersDelete; SystemsView;
    SystemsManage; HostUsersView; HostUsersManage; NetworkView;
    NetworkManage; NetworkScan; NetworkNac; SecurityView; SecurityManage;
    ContainersView; ContainersManage; StorageView; StorageManage;
    BackupsView; BackupsCreate; BackupsRestore; IncidentsView;
    IncidentsRespond; AuditView; AuditExport; AuditManage; RolesManage;
    ModulesManage; SettingsManage; NotificationsManage; HostsView;
    HostsEnroll; HostsManage; HostsElevate; MacrosManageAll;
    StorageConnectionsView; StorageConnectionsManage; ScourgeView;
    ScourgeManage; DirectoryView; DirectoryHelpdesk; DirectoryManage;
    DirectoryDelete; DirectoryPrivileged; DirectoryConfigure
  ].

(** [Permission::from_key]: the first listed permission with that key. *)
Definition from_key (key : rstr) : option Permission :=
  List.find (λ p, str_eqb (as_key p) key) ALL.

(** The derived discriminant, used for equality and hashing. *)
Definition discriminant (p : Permission) : nat :=
  match p with
  | UsersView => 0
  | UsersCreate => 1
  | UsersModify => 2
  | UsersDelete => 3
  | SystemsView => 4
  | SystemsManage => 5
  | HostUsersView => 6
  | HostUsersManage => 7
  | NetworkView => 8
  | NetworkManage => 9
  | NetworkScan => 10
  | NetworkNac => 11
  | SecurityView => 12
  | SecurityManage => 13
  | ContainersView => 14
  | ContainersManage => 15
  | StorageView => 16
  | StorageManage => 17
  | BackupsView => 18
  | BackupsCreate => 19
  | BackupsRestore => 20
  | IncidentsView => 21
  | IncidentsRespond => 22
  | AuditView => 23
  | AuditExport => 24
  | AuditManage => 25
  | RolesManage => 26
  | ModulesManage => 27
  | SettingsManage => 28
  | NotificationsManage => 29
  | HostsView => 30
  | HostsEnroll => 31
  | HostsManage => 32
  | HostsElevate => 33
  | MacrosManageAll => 34
  | StorageConnectionsView => 35
  | StorageConnectionsManage => 36
  | ScourgeView => 37
  | ScourgeManage => 38
  | DirectoryView => 39
  | DirectoryHelpdesk => 40
  | DirectoryManage => 41
  | DirectoryDelete => 42
  | DirectoryPrivileged => 43
  | DirectoryConfigure => 44
  end.

Lemma ALL_discriminant p : ALL !! discriminant p = Some p.
Proof. by destruct p. Qed.

#[export] Instance Permission_eq_dec : EqDecision Permission.
Proof.
  refine (λ p q, cast_if (decide (discriminant p = discriminant q))); [|congruence].
  abstract (apply (inj Some); rewrite <- !ALL_discriminant; by f_equal).
Defined.

#[export] Instance Permission_countable : Countable Permission.
Proof. refine (inj_countable discriminant (λ n, ALL !! n) ALL_discriminant). Defined.

Lemma elem_of_ALL p : p ∈ ALL.
Proof. eapply list_elem_of_lookup_2, ALL_discriminant. Qed.

Lemma ALL_NoDup : NoDup ALL.
Proof. by apply (bool_decide_unpack _). Qed.

#[export] Hint Resolve elem_of_ALL : rust.

Lemma from_key_sound key p : from_key key = Some p → as_key p = key.
Proof. intros [_ H]%find_some. by apply str_eqb_eq in H. Qed.

Lemma from_key_as_key p : from_key (as_key p) = Some p.
Proof. by destruct p. Qed.

#[export] Instance as_key_inj : Inj (=) (=) as_key.
Proof.
  intros p q H. apply (inj Some). by rewrite <- !from_key_as_key, H.
Qed.

(** The whole catalogue as a set. *)
Definition ALL_set : gset Permission := list_to_set ALL.

Lemma elem_of_ALL_set p : p ∈ ALL_set.
Proof. unfold ALL_set. rewrite elem_of_list_to_set. apply elem_of_ALL. Qed.
#[export] Hint Resolve elem_of_ALL_set : rust.
