(* ===== verification/Percent.v ===== *)
(** * Percent-encoding

    [web::common::urlencoding_encode] and the agent's [percent_encode] and
    [percent_decode], with UTF-8 decoding as [String::from_utf8] does it. *)

From S2P Require Import Prelude.

Definition unreserved (byte : N) : bool :=
  is_ascii_alphanumeric byte || char_mem byte [ $"-"; $"_"; $"."; $"~" ].
Definition encode_byte (byte : N) : rstr :=
  if unreserved byte then [byte]
  else [ $"%"; hex_upper (byte / 16); hex_upper (byte mod 16)].
Fixpoint encode_bytes (bs : list N) : rstr :=
  match bs with [] => [] | b :: bs' => encode_byte b ++ encode_bytes bs' end.

Definition urlencoding_encode (input : rstr) : rstr := encode_bytes (bytes input).
Definition percent_encode (input : rstr) : rstr := encode_bytes (bytes input).

(** ** UTF-8 *)

Definition scalar (c : char) : Prop := (c < 55296 ∨ 57344 ≤ c < 1114112)%N.
Definition scalar_b (c : char) : bool := (c <? 55296)%N || in_range 57344 1114111 c.
Definition continuation (b : N) : bool := in_range 128 191 b.

(** Strict decoding: no overlong forms, no surrogates, nothing above the last
    scalar value. *)
Fixpoint from_utf8 (bs : list N) : option rstr :=
  match bs with
  | [] => Some []
  | b0 :: r0 =>
      if (b0 <? 128)%N then cons b0 <$> from_utf8 r0
      else match r0 with
      | [] => None
      | b1 :: r1 =>
          if in_range 192 223 b0 then
            let c := ((b0 - 192) * 64 + (b1 - 128))%N in
            if continuation b1 && (128 <=? c)%N then cons c <$> from_utf8 r1 else None
          else match r1 with
          | [] => None
          | b2 :: r2 =>
              if in_range 224 239 b0 then
                let c := ((b0 - 224) * 4096 + (b1 - 128) * 64 + (b2 - 128))%N in
                if continuation b1 && continuation b2 && (2048 <=? c)%N && scalar_b c
                then cons c <$> from_utf8 r2 else None
              else match r2 with
              | [] => None
              | b3 :: r3 =>
                  let c := ((b0 - 240) * 262144 + (b1 - 128) * 4096 + (b2 - 128) * 64 + (b3 - 128))%N in
                  if in_range 240 247 b0 && continuation b1 && continuation b2 && continuation b3
                     && (65536 <=? c)%N && scalar_b c
                  then cons c <$> from_utf8 r3 else None
              end
          end
      end
  end.

(** ** Decoding *)

Definition hex_value (c : N) : option N :=
  if is_ascii_digit c then Some (c - 48)%N
  else if in_range 65 70 c then Some (c - 55)%N
  else if in_range 97 102 c then Some (c - 87)%N
  else None.

(** [u8::from_str_radix(_, 16)] on two bytes; a leading [+] is a sign. *)
Definition hex_byte (h l : N) : option N :=
  if (h =? $"+")%N then hex_value l
  else match hex_value h, hex_value l with
       | Some a, Some b => Some (16 * a + b)%N
       | _, _ => None
       end.

Definition MALFORMED : rstr := #"malformed percent-encoding in quarantine filename".

Fixpoint decode_bytes (bs : list N) : result rstr (list N) :=
  match bs with
  | [] => Ok []
  | b :: r =>
      if (b =? $"%")%N then
        match r with
        | h :: l :: r' =>
            match hex_byte h l with
            | Some v => out ← decode_bytes r'; Ok (v :: out)
            | None => Err MALFORMED
            end
        | _ => Err MALFORMED
        end
      else out ← decode_bytes r; Ok (b :: out)
  end.

Definition percent_decode (input : rstr) : result rstr rstr :=
  out ← decode_bytes (bytes input);
  ok_or (from_utf8 out) (MALFORMED ++ #" (invalid utf-8)").

(** ** Round trips *)

Lemma from_utf8_char c r : scalar c → from_utf8 (utf8 c ++ r) = cons c <$> from_utf8 r.
Proof.
  intros Hc. unfold utf8.
  pose proof (N.div_mod c 64 ltac:(done)) as H1. pose proof (N.mod_lt c 64 ltac:(done)) as L1.
  pose proof (N.div_mod (c / 64) 64 ltac:(done)) as H2. pose proof (N.mod_lt (c / 64) 64 ltac:(done)) as L2.
  pose proof (N.div_mod (c / 64 / 64) 64 ltac:(done)) as H3.
  pose proof (N.mod_lt (c / 64 / 64) 64 ltac:(done)) as L3.
  replace (c / 4096)%N with (c / 64 / 64)%N by (by rewrite N.Div0.div_div).
  replace (c / 262144)%N with (c / 64 / 64 / 64)%N by (by rewrite !N.Div0.div_div).
  set (q1 := (c / 64)%N) in *. set (q2 := (q1 / 64)%N) in *. set (q3 := (q2 / 64)%N) in *.
  set (m1 := (c mod 64)%N) in *. set (m2 := (q1 mod 64)%N) in *. set (m3 := (q2 mod 64)%N) in *.
  clearbody q1 q2 q3 m1 m2 m3. unfold scalar in Hc.
  destruct (N.ltb_spec c 128) as [|]; [|destruct (N.ltb_spec c 2048) as [|];
    [|destruct (N.ltb_spec c 65536) as [|]]]; cbn [app from_utf8]; unfold continuation, scalar_b, in_range.
  - by rewrite (proj2 (N.ltb_lt c 128)).
  - rewrite (proj2 (N.ltb_ge _ _)) by lia. rewrite !(proj2 (N.leb_le _ _)) by lia. cbn [andb].
    do 2 f_equal. lia.
  - rewrite (proj2 (N.ltb_ge _ _)) by lia.
    rewrite (proj2 (N.leb_gt (224 + q2) 223)), andb_false_r by lia.
    assert ((224 + q2 - 224) * 4096 + (128 + m2 - 128) * 64 + (128 + m1 - 128) = c)%N as -> by lia.
    rewrite !(proj2 (N.leb_le _ _)) by lia. cbn [andb].
    destruct (N.ltb_spec c 55296); [done|]. by rewrite !(proj2 (N.leb_le _ _)) by lia.
  - rewrite (proj2 (N.ltb_ge _ _)) by lia.
    rewrite (proj2 (N.leb_gt (240 + q3) 223)), andb_false_r by lia.
    rewrite (proj2 (N.leb_gt (240 + q3) 239)), andb_false_r by lia.
    assert ((240 + q3 - 240) * 262144 + (128 + m3 - 128) * 4096 + (128 + m2 - 128) * 64
            + (128 + m1 - 128) = c)%N as -> by lia.
    rewrite !(proj2 (N.leb_le _ _)) by lia. cbn [andb]. by rewrite orb_true_r.
Qed.

Lemma from_utf8_bytes s : Forall scalar s → from_utf8 (bytes s) = Some s.
Proof.
  induction 1 as [|c s Hc _ IH]; [done|]. cbn [bytes]. by rewrite from_utf8_char, IH.
Qed.

Lemma utf8_byte c b : scalar c → b ∈ utf8 c → (b < 256)%N.
Proof.
  intros Hc. unfold utf8, scalar in *.
  pose proof (N.mod_lt c 64 ltac:(done)). pose proof (N.mod_lt (c / 64) 64 ltac:(done)).
  pose proof (N.mod_lt (c / 4096) 64 ltac:(done)).
  assert (c < 2048 → c / 64 < 32)%N by (intros; apply N.Div0.div_lt_upper_bound; lia).
  assert (c < 65536 → c / 4096 < 16)%N by (intros; apply N.Div0.div_lt_upper_bound; lia).
  assert (c / 262144 < 5)%N by (apply N.Div0.div_lt_upper_bound; lia).
  repeat case_match; bool_prop; rewrite !elem_of_cons, elem_of_nil; intuition lia.
Qed.

Lemma bytes_byte s : Forall scalar s → Forall (λ b, b < 256)%N (bytes s).
Proof.
  induction 1 as [|c s Hc _ IH]; cbn [bytes]; [done|]. apply Forall_app. split; [|exact IH].
  apply Forall_forall. intros b. by apply utf8_byte.
Qed.

Lemma hex_upper_value d : (d < 16)%N → hex_value (hex_upper d) = Some d ∧ hex_upper d ≠ $"+".
Proof.
  intros Hd. unfold hex_value, hex_upper, is_ascii_digit, in_range.
  destruct (N.ltb_spec d 10).
  - rewrite !(proj2 (N.leb_le _ _)) by lia. cbn [andb]. split; [f_equal; lia|]. change ($"+") with 43%N. lia.
  - rewrite (proj2 (N.leb_gt _ 57)), andb_false_r by lia. rewrite !(proj2 (N.leb_le _ _)) by lia.
    split; [cbn [andb]; f_equal; lia|]. change ($"+") with 43%N. lia.
Qed.

(** Encoded text is ASCII, without a separator or a control character. *)
Lemma encode_byte_class b c :
  (b < 256)%N → c ∈ encode_byte b → unreserved c = true ∨ c = $"%".
Proof.
  intros Hb. unfold encode_byte. destruct (unreserved b) eqn:Hu.
  - intros Hc%(proj1 (list_elem_of_singleton _ _)). subst. by left.
  - rewrite !elem_of_cons, elem_of_nil.
    assert (∀ d, (d < 16)%N → unreserved (hex_upper d) = true) as Hhex.
    { intros d Hd. unfold unreserved, is_ascii_alphanumeric, is_ascii_alphabetic, is_ascii_lowercase,
        is_ascii_uppercase, is_ascii_digit, hex_upper, in_range.
      destruct (N.ltb_spec d 10); apply orb_true_iff; left; rewrite !orb_true_iff, !andb_true_iff, !N.leb_le; lia. }
    intros [->|[->|[->|[]]]]; [by right|left..]; apply Hhex.
    + apply N.Div0.div_lt_upper_bound. lia.
    + by apply N.mod_lt.
Qed.

Lemma encode_bytes_class bs c :
  Forall (λ b, b < 256)%N bs → c ∈ encode_bytes bs → unreserved c = true ∨ c = $"%".
Proof.
  induction 1 as [|b bs Hb _ IH]; cbn [encode_bytes]; [by intros ?%elem_of_nil|].
  intros [Hc|Hc]%elem_of_app; [by eapply encode_byte_class|by apply IH].
Qed.

Lemma unreserved_ascii c : unreserved c = true → (c < 128)%N ∧ c ≠ $"%".
Proof.
  unfold unreserved. intros [Hc|Hc%char_mem_elem]%orb_true_iff.
  - unfold is_ascii_alphanumeric, is_ascii_alphabetic, is_ascii_lowercase, is_ascii_uppercase,
      is_ascii_digit, in_range in Hc. rewrite !orb_true_iff, !andb_true_iff, !N.leb_le in Hc.
    change ($"%") with 37%N. lia.
  - rewrite !elem_of_cons, elem_of_nil in Hc. by destruct Hc as [->|[->|[->|[->|[]]]]].
Qed.

Lemma bytes_ascii s : (∀ c, c ∈ s → (c < 128)%N) → bytes s = s.
Proof.
  induction s as [|c s IH]; intros Hs; [done|]. cbn [bytes]. unfold utf8.
  rewrite (proj2 (N.ltb_lt c 128)) by (apply Hs, list_elem_of_here). cbn. f_equal.
  apply IH. intros x Hx. by apply Hs, list_elem_of_further.
Qed.

Lemma decode_encode bs : Forall (λ b, b < 256)%N bs → decode_bytes (encode_bytes bs) = Ok bs.
Proof.
  induction 1 as [|b bs Hb _ IH]; [done|]. cbn [encode_bytes]. unfold encode_byte.
  destruct (unreserved b) eqn:Hu; cbn [app decode_bytes].
  - destruct (unreserved_ascii b Hu) as [_ Hn]. apply N.eqb_neq in Hn. by rewrite Hn, IH.
  - rewrite N.eqb_refl. destruct (hex_upper_value (b / 16)) as [Hh Hp].
    { apply N.Div0.div_lt_upper_bound. lia. }
    destruct (hex_upper_value (b mod 16)) as [Hl _]; [by apply N.mod_lt|].
    unfold hex_byte. apply N.eqb_neq in Hp. rewrite Hp, Hh, Hl, IH. cbn. do 2 f_equal.
    symmetry. by apply N.div_mod.
Qed.

Lemma percent_round_trip s : Forall scalar s → percent_decode (percent_encode s) = Ok s.
Proof.
  intros Hs. unfold percent_decode, percent_encode. pose proof (bytes_byte s Hs) as Hb.
  rewrite bytes_ascii.
  - rewrite decode_encode by done. cbn. by rewrite from_utf8_bytes.
  - intros c Hc. destruct (encode_bytes_class _ _ Hb Hc) as [?%unreserved_ascii| ->]; [tauto|done].
Qed.
