(* ===== verification/Steps.v ===== *)
(** * Programs that act one statement at a time

    A handler of the server runs beside others: between two of its statements
    anything may happen to the state.  A program is a tree of atomic actions on
    the state; [run] performs it alone, [advance] performs one action of one
    program of a pool. *)

From S2P Require Import Prelude.

Inductive Prog (S A : Type) : Type :=
| Ret (a : A)
| Do (X : Type) (act : S → X * S) (k : X → Prog S A).
Arguments Ret {S A} a.
Arguments Do {S A X} act k.

#[export] Instance Prog_ret {S} : MRet (Prog S) := @Ret S.
#[export] Instance Prog_bind {S} : MBind (Prog S) := λ A B f,
  fix bind p := match p with
                | Ret a => f a
                | Do act k => Do act (λ x, bind (k x))
                end.

(** One action. *)
Definition act {S A} (f : S → A * S) : Prog S A := Do f Ret.

(** The [?] of a program that may fail. *)
Definition try_bind {S E A B} (m : Prog S (result E A)) (f : A → Prog S (result E B)) : Prog S (result E B) :=
  r ← m; match r with Ok x => f x | Err e => Ret (Err e) end.
Notation "x '←?' m ; k" := (try_bind m (λ x, k))
  (at level 20, m at level 100, k at level 200, only parsing) : rust_scope.
Notation "'?' m ; k" := (try_bind m (λ _, k))
  (at level 20, m at level 100, k at level 200, only parsing) : rust_scope.

Section prog.
Context {S : Type}.
Implicit Types (s : S).

(** ** Alone *)

Fixpoint run {A} (p : Prog S A) s : A * S :=
  match p with
  | Ret a => (a, s)
  | Do f k => let '(x, s') := f s in run (k x) s'
  end.

Lemma run_bind {A B} (p : Prog S A) (f : A → Prog S B) s :
  run (p ≫= f) s = let '(a, s') := run p s in run (f a) s'.
Proof.
  revert s. induction p as [a|X g k IH]; intros s; [done|]. cbn.
  destruct (g s) as [x s']. apply IH.
Qed.

Lemma run_try {E A B} (p : Prog S (result E A)) (f : A → Prog S (result E B)) s :
  run (try_bind p f) s =
  match run p s with (Ok a, s') => run (f a) s' | (Err e, s') => (Err e, s') end.
Proof. unfold try_bind. rewrite run_bind. by destruct (run p s) as [[]?]. Qed.

(** ** Beside others *)

Definition next {A} (p : Prog S A) s : option (Prog S A * S) :=
  match p with
  | Ret _ => None
  | Do f k => let '(x, s') := f s in Some (k x, s')
  end.

Inductive advance {A} : gmap N (Prog S A) * S → gmap N (Prog S A) * S → Prop :=
| advance_at q p p' ts s s' :
    ts !! q = Some p → next p s = Some (p', s') → advance (ts, s) (<[q := p']> ts, s').

(** Running alone is one of the ways to run beside others. *)
Lemma run_advances {A} (p : Prog S A) q ts s :
  rtc advance (<[q := p]> ts, s) (<[q := Ret (run p s).1]> ts, (run p s).2).
Proof.
  revert s. induction p as [a|X g k IH]; intros s; [done|]. cbn.
  destruct (g s) as [x s'] eqn:Hg. eapply rtc_l; [|apply IH].
  replace (<[q := k x]> ts) with (<[q := k x]> (<[q := Do g k]> ts)) by apply insert_insert_eq.
  apply (advance_at q (Do g k) (k x)); [apply lookup_insert_eq|]. cbn. by rewrite Hg.
Qed.

(** ** What every action does

    [always P Q p]: whatever the state is when an action of [p] runs, the action
    takes it to a [P]-related one, and [p] returns only results in [Q]. *)
Fixpoint always {A} (P : S → S → Prop) (Q : A → Prop) (p : Prog S A) : Prop :=
  match p with
  | Ret a => Q a
  | Do f k => ∀ s, P s (f s).2 ∧ always P Q (k (f s).1)
  end.

Section always.
Context {A : Type} (P : S → S → Prop) (Q : A → Prop).
Implicit Types (p : Prog S A).

Lemma always_next p p' s s' : always P Q p → next p s = Some (p', s') → P s s' ∧ always P Q p'.
Proof.
  destruct p as [a|X g k]; [done|]. cbn. intros Hp. specialize (Hp s).
  destruct (g s) as [x s1]. intros [= <- <-]. apply Hp.
Qed.

Lemma always_act (f : S → A * S) : (∀ s, P s (f s).2 ∧ Q (f s).1) → always P Q (act f).
Proof. done. Qed.

Lemma always_bind {B} (R : B → Prop) (m : Prog S B) (k : B → Prog S A) :
  always P R m → (∀ b, R b → always P Q (k b)) → always P Q (m ≫= k).
Proof.
  intros Hm Hk. induction m as [b|X g j IH]; cbn in *; [by apply Hk|].
  intros s. destruct (Hm s) as [H1 H2]. split; [done|]. by apply IH.
Qed.

Lemma always_run `{!Reflexive P, !Transitive P} p s :
  always P Q p → P s (run p s).2 ∧ Q (run p s).1.
Proof.
  revert s. induction p as [a|X g k IH]; intros s Hp; cbn in *; [done|].
  destruct (Hp s) as [H1 H2]. destruct (g s) as [x s']. cbn in *.
  destruct (IH x s' H2) as [? ?]. split; [by etrans|done].
Qed.
End always.

Lemma always_mono {A} (P P' : S → S → Prop) (Q Q' : A → Prop) p :
  (∀ s s', P s s' → P' s s') → (∀ a, Q a → Q' a) → always P Q p → always P' Q' p.
Proof.
  intros HP HQ. induction p as [a|X g k IH]; cbn; [apply HQ|].
  intros Hp s. destruct (Hp s). split; [by apply HP|by apply IH].
Qed.

Lemma always_try {E A B} (P : S → S → Prop) (Q : result E B → Prop) (R : A → Prop)
    (m : Prog S (result E A)) (k : A → Prog S (result E B)) :
  always P (λ r, match r with Ok a => R a | Err e => Q (Err e) end) m →
  (∀ a, R a → always P Q (k a)) → always P Q (try_bind m k).
Proof.
  intros Hm Hk. unfold try_bind. eapply always_bind; [apply Hm|]. intros [a|e] HR; [by apply Hk|done].
Qed.
End prog.

(** Every action of [p] is [P]-related, whatever it returns. *)
Definition keeps {S A} (P : S → S → Prop) (p : Prog S A) : Prop := always P (λ _, True) p.

Section keeps.
Context {S : Type} (P : S → S → Prop).

Lemma keeps_ret {A} (a : A) : keeps P (Ret a).
Proof. done. Qed.
Lemma keeps_act {A} (f : S → A * S) : (∀ s, P s (f s).2) → keeps P (act f).
Proof. intros H s. by split. Qed.
Lemma keeps_bind {A B} (m : Prog S A) (k : A → Prog S B) :
  keeps P m → (∀ a, keeps P (k a)) → keeps P (m ≫= k).
Proof. intros Hm Hk. eapply always_bind; [apply Hm|]. intros a _. apply Hk. Qed.
Lemma keeps_try {E A B} (m : Prog S (result E A)) (k : A → Prog S (result E B)) :
  keeps P m → (∀ a, keeps P (k a)) → keeps P (try_bind m k).
Proof. intros Hm Hk. apply keeps_bind; [done|]. intros [a|e]; [apply Hk|done]. Qed.
Lemma keeps_next {A} (p p' : Prog S A) s s' : keeps P p → next p s = Some (p', s') → P s s' ∧ keeps P p'.
Proof. apply always_next. Qed.
Lemma keeps_run `{!Reflexive P, !Transitive P} {A} (p : Prog S A) s : keeps P p → P s (run p s).2.
Proof. intros Hp. by destruct (always_run P (λ _, True) p s Hp). Qed.
End keeps.

Create HintDb keeps.
#[export] Hint Resolve keeps_ret : keeps.

(** Splits a program into its statements and leaves them to the database [keeps]. *)
Ltac walk :=
  repeat first
    [ progress intros
    | match goal with
      | |- keeps _ (_ ≫= _) => apply keeps_bind
      | |- keeps _ (try_bind _ _) => apply keeps_try
      | |- keeps _ (Ret _) => apply keeps_ret
      | |- keeps _ (match ?x with _ => _ end) => destruct x
      end
    | solve [eauto with keeps] ].
