(* ===== verification/Aat.v ===== *)
(** * Install tokens ([crates/agent-protocol/src/aat.rs], [crates/web/src/aat.rs])

    The token that enrols many machines also authenticates the control plane's
    CA to them.  SHA-256, HMAC and AES-GCM are arguments; what is around them,
    the formats and the comparison, is the code's own. *)

From S2P Require Import Prelude Percent.

Definition AAT_PREFIX : rstr := #"AAT1-".
Definition CA_PROOF_CONTEXT : list N := #"abyssal-arsenal/aat-ca-proof/v1".
Definition KEY_ID_CONTEXT : list N := #"abyssal-arsenal/aat-key-id/v1".

Definition is_aat (token : rstr) : bool :=
  match strip_prefix token AAT_PREFIX with
  | Some secret => negb (is_empty secret)
  | None => false
  end.

(** [format!("{b:02x}")] of every byte. *)
Definition hex_bytes (bs : list N) : rstr := bs ≫= λ b, [hex_lower (b / 16); hex_lower (b mod 16)]%N.

Definition key_id (sha256 : list N → list N) (aat : rstr) : rstr :=
  hex_bytes (take 8 (sha256 (KEY_ID_CONTEXT ++ bytes aat))).

(** [secret::hash_token]. *)
Definition sha256_hex (sha256 : list N → list N) (token : rstr) : rstr := hex_bytes (sha256 (bytes token)).

(** [(part.len() as u64).to_be_bytes()]. *)
Fixpoint be_bytes (width : nat) (n : N) : list N :=
  match width with
  | 0 => []
  | S w => be_bytes w (n / 256) ++ [n mod 256]%N
  end.
Definition framed (part : list N) : list N := be_bytes 8 (N.of_nat (length part) mod 2 ^ 64) ++ part.

Definition proof_input (nonce : rstr) (ca_pem : option rstr) : list N :=
  framed CA_PROOF_CONTEXT ++ framed (bytes nonce) ++ framed (bytes (default [] ca_pem)).

Section proof.
Context (hmac_sha256 : list N → list N → list N).

Definition ca_proof (aat nonce : rstr) (ca_pem : option rstr) : rstr :=
  hex_bytes (hmac_sha256 (bytes aat) (proof_input nonce ca_pem)).

(** The fold over the zipped bytes: every byte is looked at. *)
Definition xor_fold (a b : list N) : N :=
  foldl (λ acc p, N.lor acc (N.lxor p.1 p.2)) 0%N (zip a b).

Definition verify_ca_proof (aat nonce : rstr) (ca_pem : option rstr) (proof : rstr) : bool :=
  let expected := bytes (ca_proof aat nonce ca_pem) in
  (length expected =? length (bytes proof)) && (xor_fold expected (bytes proof) =? 0)%N.
End proof.

(** ** At rest *)

(** [EncryptionKey]: [encrypt] with the nonce it draws, and [decrypt]; an error
    is its text. *)
Record Cipher := mkCipher {
  encrypt : N → rstr → result rstr rstr;
  decrypt : rstr → result rstr rstr }.

Definition ENCRYPTED_PREFIX : rstr := #"enc:v1:".

Definition new_aat (token : rstr) : rstr := AAT_PREFIX ++ token.

Definition seal (key : option Cipher) (nonce : N) (aat : rstr) : result rstr rstr :=
  match key with
  | Some key =>
      match encrypt key nonce aat with
      | Ok c => Ok (ENCRYPTED_PREFIX ++ c)
      | Err e => Err (#"failed to encrypt the agent install token: " ++ e)
      end
  | None => Ok aat
  end.

Definition unseal (key : option Cipher) (stored : rstr) : result rstr (option rstr) :=
  aat ← match strip_prefix stored ENCRYPTED_PREFIX with
        | Some ciphertext =>
            match key with
            | None => Err #"the agent install token is stored encrypted but ENCRYPTION_KEY isn't set"
            | Some key =>
                match decrypt key ciphertext with
                | Ok aat => Ok aat
                | Err e => Err (#"the agent install token can't be decrypted (" ++ e
                    ++ #") -- was ENCRYPTION_KEY changed? Rotate the token on /admin/hosts to replace it")
                end
            end
        | None => Ok stored
        end;
  Ok (if is_aat aat then Some aat else None).

(** ** What the CA proof and the sealed token guarantee *)


(** ** Bytes and digits *)

Lemma bytes_inj s t : Forall scalar s → Forall scalar t → bytes s = bytes t → s = t.
Proof.
  intros Hs Ht He. apply (inj Some).
  by rewrite <- (from_utf8_bytes s), <- (from_utf8_bytes t), He.
Qed.

Lemma hex_lower_inj a b : (a < 16)%N → (b < 16)%N → hex_lower a = hex_lower b → a = b.
Proof. unfold hex_lower. intros ??. repeat case_match; bool_prop; lia. Qed.

Lemma hex_bytes_inj a b :
  Forall (λ x, x < 256)%N a → Forall (λ x, x < 256)%N b → hex_bytes a = hex_bytes b → a = b.
Proof.
  revert b. induction a as [|x a IH]; intros [|y b] Ha Hb; try done.
  inversion_clear Ha as [|?? Hx Ha']. inversion_clear Hb as [|?? Hy Hb'].
  unfold hex_bytes. cbn. intros [= H1%hex_lower_inj H2%hex_lower_inj H3].
  - f_equal; [|by apply IH]. rewrite (N.div_mod x 16), (N.div_mod y 16) by lia. congruence.
  - apply N.mod_lt. lia.
  - apply N.mod_lt. lia.
  - apply N.Div0.div_lt_upper_bound. lia.
  - apply N.Div0.div_lt_upper_bound. lia.
Qed.

Lemma hex_bytes_scalar a : Forall (λ x, x < 256)%N a → Forall scalar (hex_bytes a).
Proof.
  induction 1 as [|x a Hx _ IH]; [by constructor|]. unfold hex_bytes. cbn. constructor; [|constructor; [|apply IH]].
  - left. unfold hex_lower. assert (x / 16 < 16)%N by (apply N.Div0.div_lt_upper_bound; lia). case_match; lia.
  - left. unfold hex_lower. pose proof (N.mod_lt x 16). case_match; lia.
Qed.

Lemma length_be_bytes w n : length (be_bytes w n) = w.
Proof. revert n. induction w as [|w IH]; intros n; cbn; [done|]. rewrite length_app, IH. cbn. lia. Qed.

Lemma be_bytes_inj w n m :
  (n < 256 ^ N.of_nat w)%N → (m < 256 ^ N.of_nat w)%N → be_bytes w n = be_bytes w m → n = m.
Proof.
  revert n m. induction w as [|w IH]; intros n m Hn Hm; cbn.
  { rewrite N.pow_0_r in *. lia. }
  rewrite Nat2N.inj_succ, N.pow_succ_r' in Hn, Hm.
  intros [H1%IH H2]%app_inj_tail; try by apply N.Div0.div_lt_upper_bound.
  rewrite (N.div_mod n 256), (N.div_mod m 256) by lia. congruence.
Qed.

(** A frame can be split off the front of a message in one way only. *)
Lemma framed_app_inj a b x y :
  (N.of_nat (length a) < 2 ^ 64)%N → (N.of_nat (length b) < 2 ^ 64)%N →
  framed a ++ x = framed b ++ y → a = b ∧ x = y.
Proof.
  intros Ha Hb. unfold framed. rewrite !N.mod_small, <- !app_assoc by done.
  intros [H1%be_bytes_inj H2]%app_inj_1; [|done|done|by rewrite !length_be_bytes].
  apply app_inj_1; [lia|done].
Qed.

(** What a Rust string is: scalar values, and at most [isize::MAX] bytes. *)
Definition rust_str (s : rstr) : Prop := Forall scalar s ∧ (N.of_nat (len s) < 2 ^ 63)%N.

Lemma rust_str_bound s : rust_str s → (N.of_nat (length (bytes s)) < 2 ^ 64)%N.
Proof. intros [_ H]. rewrite length_bytes. etrans; [apply H|]. by apply N.pow_lt_mono_r. Qed.

Lemma proof_input_inj n p n' p' :
  rust_str n → rust_str n' → rust_str (default [] p) → rust_str (default [] p') →
  proof_input n p = proof_input n' p' → n = n' ∧ default [] p = default [] p'.
Proof.
  intros Hn Hn' Hp Hp'. unfold proof_input.
  intros [_ H]%framed_app_inj; [|done|done].
  apply framed_app_inj in H as [H1 H2]; [|by apply rust_str_bound..].
  rewrite <- (app_nil_r (framed (bytes (default [] p)))), <- (app_nil_r (framed (bytes (default [] p')))) in H2.
  apply framed_app_inj in H2 as [H2 _]; [|by apply rust_str_bound..].
  destruct Hn, Hn', Hp, Hp'. split; by apply bytes_inj.
Qed.

(** ** The comparison *)

Lemma xor_fold_zero a b : length a = length b → xor_fold a b = 0%N ↔ a = b.
Proof.
  unfold xor_fold. intros Hl.
  assert (∀ acc, foldl (λ acc p, N.lor acc (N.lxor p.1 p.2)) acc (zip a b) = 0%N ↔ acc = 0%N ∧ a = b) as H.
  { revert b Hl. induction a as [|x a IH]; intros [|y b] Hl acc; try done; cbn; [naive_solver|].
    rewrite IH by (cbn in Hl; lia). rewrite N.lor_eq_0_iff, N.lxor_eq_0_iff. naive_solver. }
  rewrite H. naive_solver.
Qed.

Lemma verify_ca_proof_iff hmac aat nonce pem proof :
  (∀ k m, Forall (λ x, x < 256)%N (hmac k m)) → Forall scalar proof →
  verify_ca_proof hmac aat nonce pem proof = true ↔ proof = ca_proof hmac aat nonce pem.
Proof.
  intros Hh Hs. unfold verify_ca_proof. cbv zeta. rewrite andb_true_iff, Nat.eqb_eq, N.eqb_eq. split.
  - intros [Hl Hx]. apply xor_fold_zero in Hx; [|done]. symmetry. apply bytes_inj; [|done|done].
    by apply hex_bytes_scalar.
  - intros ->. split; [done|]. by apply xor_fold_zero.
Qed.

Section proof.
Context (hmac : list N → list N → list N).
Hypothesis hmac_bytes : ∀ k m, Forall (λ x, x < 256)%N (hmac k m).

(** C11: The CA proof binds the nonce and the CA bundle.  The constant-time
    comparison accepts exactly the proof the control plane computes, a proof made
    for one nonce and bundle is accepted for another only if HMAC-SHA256 gives
    the same code for both inputs, and those inputs are different byte strings
    whenever the nonces or the bundles differ: a genuine collision of HMAC would
    be needed. *)
Theorem ca_proof_binds aat nonce pem nonce' pem' :
  rust_str nonce → rust_str nonce' → rust_str (default [] pem) → rust_str (default [] pem') →
  (∀ proof, Forall scalar proof →
     verify_ca_proof hmac aat nonce pem proof = true ↔ proof = ca_proof hmac aat nonce pem) ∧
  (verify_ca_proof hmac aat nonce' pem' (ca_proof hmac aat nonce pem) = true ↔
     hmac (bytes aat) (proof_input nonce pem) = hmac (bytes aat) (proof_input nonce' pem')) ∧
  (proof_input nonce pem = proof_input nonce' pem' ↔ nonce = nonce' ∧ default [] pem = default [] pem').
Proof.
  intros Hn Hn' Hp Hp'. split; [|split].
  - intros proof Hs. by apply verify_ca_proof_iff.
  - rewrite verify_ca_proof_iff; [|done|by apply hex_bytes_scalar].
    unfold ca_proof. split; [by intros ?%hex_bytes_inj|by intros ->].
  - split; [by apply proof_input_inj|]. unfold proof_input. by intros [-> ->].
Qed.
End proof.

(** A stand-in for the MAC: it returns the first 32 bytes of what it is given. *)
Definition first_bytes (k m : list N) : list N := (λ b, b mod 256)%N <$> take 32 (m ++ k).

(** [ca_proof_binds] on the proof of one nonce offered for another. *)
Lemma ca_proof_binds_witness :
  verify_ca_proof first_bytes #"AAT1-s" #"ab" (Some #"c") (ca_proof first_bytes #"AAT1-s" #"ab" (Some #"c")) = true
  ∧ proof_input #"ab" (Some #"c") ≠ proof_input #"a" (Some #"bc").
Proof.
  assert (∀ k m, Forall (λ x, x < 256)%N (first_bytes k m)) as Hb.
  { intros k m. apply Forall_fmap, Forall_forall. intros x _. by apply N.mod_lt. }
  assert (∀ s, forallb (λ c, c <? 128)%N s && (N.of_nat (len s) <? 2 ^ 63)%N = true → rust_str s) as Hr.
  { intros s [H1 H2%N.ltb_lt]%andb_true_iff. split; [|done]. apply Forall_forall. intros c Hc.
    rewrite forallb_elem in H1. apply H1, N.ltb_lt in Hc. left. lia. }
  destruct (ca_proof_binds first_bytes Hb #"AAT1-s" #"ab" (Some #"c") #"a" (Some #"bc")) as (H1 & _ & H3);
    [by apply Hr..|].
  split.
  - apply H1; [|done]. by apply hex_bytes_scalar.
  - intros He. by apply H3 in He as [? _].
Defined.

(** ** At rest *)

Lemma is_aat_prefix t : is_aat t = true → ∃ r, t = AAT_PREFIX ++ r.
Proof.
  unfold is_aat. destruct (strip_prefix t AAT_PREFIX) as [r|] eqn:H; [|done].
  apply strip_prefix_Some in H. by exists r.
Qed.

(** The token that comes out is the token that went in, with or without a key. *)
Lemma unseal_seal key nonce aat stored :
  (∀ c n p e, key = Some c → encrypt c n p = Ok e → decrypt c e = Ok p) →
  is_aat aat = true → seal key nonce aat = Ok stored → unseal key stored = Ok (Some aat).
Proof.
  intros Hk Ha. unfold seal, unseal. destruct key as [c|].
  - destruct (encrypt c nonce aat) as [e|] eqn:He; intros Hs; [|done].
    assert (stored = ENCRYPTED_PREFIX ++ e) as -> by congruence.
    assert (strip_prefix (ENCRYPTED_PREFIX ++ e) ENCRYPTED_PREFIX = Some e) as -> by by apply strip_prefix_Some.
    rewrite (Hk c nonce aat e) by done. cbn. by rewrite Ha.
  - intros [= <-]. destruct (strip_prefix aat ENCRYPTED_PREFIX) as [e|] eqn:He.
    + apply strip_prefix_Some in He. destruct (is_aat_prefix _ Ha) as [r Hr]. by rewrite Hr in He.
    + cbn. by rewrite Ha.
Qed.
