(* ===== verification/Snmp.v ===== *)
(** * Writing to a switch ([web/src/panopticon_snmp.rs])

    The half of the SNMP module that enforcement uses: opening a session with
    the stored credentials, reading and writing single variables, walking a
    table, and taking a port out of service and back.  The switches and the
    [snmp2] crate are a parameter ([SnmpLink]); what RFC 3416 says of them is
    [SnmpSpec].  Every exchange is one action, so that requests interleave
    between them. *)

From S2P Require Import Prelude Steps Aat.

(** ** Switches ([core/src/network_device.rs]) *)

Inductive SnmpVersion : Set := V1 | V2c | V3.
Inductive SnmpSecurityLevel : Set := NoAuthNoPriv | AuthNoPriv | AuthPriv.
Inductive SnmpAuthProtocol : Set := Md5 | Sha1 | Sha224 | Sha256 | Sha384 | Sha512.
Inductive SnmpPrivProtocol : Set := Des | Aes128 | Aes192 | Aes256.

Record PanopticonSwitch := mkSwitch {
  sw_id : N; sw_name : rstr; sw_ip_address : rstr; sw_snmp_port : N; sw_snmp_version : SnmpVersion;
  sw_community_encrypted : option rstr; sw_v3_username : option rstr;
  sw_v3_security_level : option SnmpSecurityLevel; sw_v3_auth_protocol : option SnmpAuthProtocol;
  sw_v3_auth_password_encrypted : option rstr; sw_v3_priv_protocol : option SnmpPrivProtocol;
  sw_v3_priv_password_encrypted : option rstr; sw_enforcement_enabled : bool }.

(** ** Object identifiers *)

Abbreviation oid := (list N).
Definition MAX_WALK_ENTRIES : N := 20000.
Definition DOT1D_BASE_PORT_IF_INDEX : oid := [1; 3; 6; 1; 2; 1; 17; 1; 4; 1; 2]%N.
Definition IF_ADMIN_STATUS : oid := [1; 3; 6; 1; 2; 1; 2; 2; 1; 7]%N.
Definition DOT1Q_PVID : oid := [1; 3; 6; 1; 2; 1; 17; 7; 1; 4; 5; 1; 1]%N.
Definition DOT1Q_VLAN_STATIC_EGRESS_PORTS : oid := [1; 3; 6; 1; 2; 1; 17; 7; 1; 4; 3; 1; 2]%N.
Definition DOT1Q_VLAN_STATIC_UNTAGGED_PORTS : oid := [1; 3; 6; 1; 2; 1; 17; 7; 1; 4; 3; 1; 4]%N.
Definition IF_ADMIN_UP : Z := 1.
Definition IF_ADMIN_DOWN : Z := 2.

Definition instance_oid (base inst : oid) : oid := base ++ inst.

(** [{:?}] of a slice of numbers. *)
Definition fmt_oid (o : oid) : rstr := #"[" ++ join #", " (fmt_N <$> o) ++ #"]".

(** ** Values and errors *)

Inductive OwnedValue : Set :=
| Integer (n : Z)
| OctetString (b : list N)
| Counter (n : N).

Inductive SnmpPollError : Set :=
| SnmpDecrypt (e : rstr)
| SnmpTimeout (addr : rstr)
| SnmpProtocol (e : rstr)
| SnmpIo (e : rstr)
| SnmpConfig (what detail : rstr).

Definition snmp_error_text (e : SnmpPollError) : rstr :=
  match e with
  | SnmpDecrypt e => #"could not decrypt this switch's stored SNMP credentials: " ++ e
  | SnmpTimeout a => #"SNMP request to " ++ a ++ #" timed out"
  | SnmpProtocol e => #"SNMP error: " ++ e
  | SnmpIo e => #"SNMP I/O error: " ++ e
  | SnmpConfig w d => #"switch is misconfigured for " ++ w ++ #": " ++ d
  end.

Inductive SnmpCredentials : Set :=
| CredV1 (community : rstr)
| CredV2c (community : rstr)
| CredV3 (username : rstr) (level : SnmpSecurityLevel) (auth_protocol : SnmpAuthProtocol)
    (auth_password : option rstr) (priv_protocol : SnmpPrivProtocol) (priv_password : option rstr).

(** [snmp2::v3::Security] and its [Auth]. *)
Inductive V3Auth : Set :=
| AuthNone
| AuthOnly
| AuthWithPriv (cipher : SnmpPrivProtocol) (privacy_password : list N).
Record Security := mkSecurity {
  sec_username : list N; sec_auth_password : list N; sec_auth : V3Auth; sec_auth_protocol : SnmpAuthProtocol }.

Definition v3_security (username : rstr) (level : SnmpSecurityLevel) (auth_protocol : SnmpAuthProtocol)
    (auth_password : option rstr) (priv_protocol : SnmpPrivProtocol) (priv_password : option rstr)
    : result SnmpPollError Security :=
  auth ← match level with
         | NoAuthNoPriv => Ok AuthNone
         | AuthNoPriv => Ok AuthOnly
         | AuthPriv =>
             match priv_password with
             | None => Err (SnmpConfig #"v3 authPriv" #"missing privacy password")
             | Some p => Ok (AuthWithPriv priv_protocol (bytes p))
             end
         end;
  password ← match level with
             | NoAuthNoPriv => Ok []
             | _ => match auth_password with
                    | None => Err (SnmpConfig #"v3 auth" #"missing authentication password")
                    | Some p => Ok p
                    end
             end;
  Ok (mkSecurity (bytes username) (bytes password) auth auth_protocol).

Definition decrypted (key : Cipher) (stored : rstr) : result SnmpPollError rstr :=
  match decrypt key stored with Ok p => Ok p | Err e => Err (SnmpDecrypt e) end.
(** [.map(decrypt).transpose()?]. *)
Definition decrypted_opt (key : Cipher) (stored : option rstr) : result SnmpPollError (option rstr) :=
  match stored with None => Ok None | Some c => Some <$> decrypted key c end.

Definition decrypt_credentials (sw : PanopticonSwitch) (key : Cipher) : result SnmpPollError SnmpCredentials :=
  match sw_snmp_version sw with
  | V1 | V2c =>
      match sw_community_encrypted sw with
      | None => Err (SnmpConfig #"v1/v2c" #"missing community string")
      | Some c =>
          community ← decrypted key c;
          Ok (match sw_snmp_version sw with V1 => CredV1 community | _ => CredV2c community end)
      end
  | V3 =>
      match sw_v3_username sw with
      | None => Err (SnmpConfig #"v3" #"missing username")
      | Some username =>
          auth_password ← decrypted_opt key (sw_v3_auth_password_encrypted sw);
          priv_password ← decrypted_opt key (sw_v3_priv_password_encrypted sw);
          Ok (CredV3 username (default AuthNoPriv (sw_v3_security_level sw))
                (default Md5 (sw_v3_auth_protocol sw)) auth_password
                (default Des (sw_v3_priv_protocol sw)) priv_password)
      end
  end.

(** ** The network *)

Inductive Wire : Set :=
| WInteger (n : Z)
| WOctetString (b : list N)
| WCounter32 (n : N)
| WUnsigned32 (n : N)
| WCounter64 (n : N)
| WNoSuchObject
| WNoSuchInstance
| WEndOfMibView
| WOther (debug : rstr).

Record Pdu := mkPdu { error_status : N; error_index : N; varbinds : list (oid * Wire) }.

(** How a request ends: it times out, the crate reports an error, or an answer
    arrives. *)
Inductive Exchange : Type :=
| NoAnswer
| Failed (e : rstr)
| Answered (p : Pdu).

Inductive SessionLogin : Set :=
| LoginV1 (community : list N)
| LoginV2c (community : list N)
| LoginV3 (security : Security).

(** The switches as the crate reaches them. *)
Class SnmpLink := {
  Net : Type;
  Session : Type;
  open_session : rstr → SessionLogin → Net → option (result rstr Session) * Net;
  get_request : Session → oid → Net → Exchange * Net;
  getnext_request : Session → oid → Net → Exchange * Net;
  set_request : Session → list (oid * Wire) → Net → Exchange * Net }.

Section session.
Context `{!SnmpLink}.

(** A request under [tokio::time::timeout]. *)
Definition exchange (addr : rstr) (f : Net → Exchange * Net) : Prog Net (result SnmpPollError Pdu) :=
  r ← act f;
  Ret (match r with
       | NoAnswer => Err (SnmpTimeout addr)
       | Failed e => Err (SnmpProtocol e)
       | Answered p => Ok p
       end).

Definition session_login (c : SnmpCredentials) : result SnmpPollError SessionLogin :=
  match c with
  | CredV1 community => Ok (LoginV1 (bytes community))
  | CredV2c community => Ok (LoginV2c (bytes community))
  | CredV3 u level ap apw pp ppw => LoginV3 <$> v3_security u level ap apw pp ppw
  end.
Definition connect_session (addr : rstr) (c : SnmpCredentials) : Prog Net (result SnmpPollError Session) :=
  match session_login c with
  | Err e => Ret (Err (SnmpIo (snmp_error_text e)))
  | Ok l =>
      r ← act (open_session addr l);
      Ret (match r with
           | None => Err (SnmpTimeout addr)
           | Some (Err e) => Err (SnmpIo e)
           | Some (Ok sess) => Ok sess
           end)
  end.

Definition owned (v : Wire) : option OwnedValue :=
  match v with
  | WInteger n => Some (Integer n)
  | WOctetString b => Some (OctetString b)
  | WCounter32 n | WUnsigned32 n | WCounter64 n => Some (Counter n)
  | _ => None
  end.

Definition oid_suffix (full base : oid) : option oid :=
  if length full <=? length base then None else Some (drop (length base) full).

(** One turn of the loop over the varbinds of an answer: the rows so far, the
    identifier to go on from, and whether it moved. *)
Definition walk_varbind (base : oid) (st : list (oid * OwnedValue) * oid * bool) (vb : oid * Wire)
    : list (oid * OwnedValue) * oid * bool :=
  let '(results, current, advanced) := st in
  if bool_decide (base `prefix_of` vb.1) then
    match oid_suffix vb.1 base, owned vb.2 with
    | Some suffix, Some v => (results ++ [(suffix, v)], vb.1, true)
    | _, _ => st
    end
  else st.

(** The fuel is the bound on the rows: every turn but the last adds one. *)
Fixpoint walk_loop (fuel : nat) (sess : Session) (base : oid) (addr : rstr) (results : list (oid * OwnedValue))
    (current : oid) : Prog Net (result SnmpPollError (list (oid * OwnedValue))) :=
  match fuel with
  | 0 => Ret (Ok results)
  | S fuel =>
      pdu ←? exchange addr (getnext_request sess current);
      let '(results, current, advanced) := foldl (walk_varbind base) (results, current, false) (varbinds pdu) in
      if negb advanced || (MAX_WALK_ENTRIES <=? N.of_nat (length results))%N then Ret (Ok results)
      else walk_loop fuel sess base addr results current
  end.
Definition walk_table (sess : Session) (base : oid) (addr : rstr)
    : Prog Net (result SnmpPollError (list (oid * OwnedValue))) :=
  walk_loop (N.to_nat MAX_WALK_ENTRIES) sess base addr [] base.

(** [Oid::from] accepts every identifier that is built here. *)
Definition snmp_get (sess : Session) (o : oid) (addr : rstr) : Prog Net (result SnmpPollError OwnedValue) :=
  pdu ←? exchange addr (get_request sess o);
  Ret (if negb (error_status pdu =? 0)%N then
         Err (SnmpProtocol (#"GET " ++ fmt_oid o ++ #" returned error-status " ++ fmt_N (error_status pdu)))
       else
         match varbinds pdu with
         | [] => Err (SnmpProtocol (#"GET " ++ fmt_oid o ++ #" returned an empty response"))
         | (_, WInteger n) :: _ => Ok (Integer n)
         | (_, WOctetString b) :: _ => Ok (OctetString b)
         | (_, (WCounter32 n | WUnsigned32 n | WCounter64 n)) :: _ => Ok (Counter n)
         | (_, (WNoSuchObject | WNoSuchInstance | WEndOfMibView)) :: _ =>
             Err (SnmpProtocol (fmt_oid o ++ #" has no such instance on this switch"))
         | (_, WOther debug) :: _ =>
             Err (SnmpProtocol (fmt_oid o ++ #" returned an unexpected type: " ++ debug))
         end).

Definition snmp_get_int (sess : Session) (o : oid) (addr : rstr) : Prog Net (result SnmpPollError Z) :=
  v ←? snmp_get sess o addr;
  Ret (match v with
       | Integer n => Ok n
       | _ => Err (SnmpProtocol (fmt_oid o ++ #" was expected to be an integer but wasn't"))
       end).

Definition snmp_set (sess : Session) (vbs : list (oid * Wire)) (addr what : rstr)
    : Prog Net (result SnmpPollError ()) :=
  pdu ←? exchange addr (set_request sess vbs);
  Ret (if negb (error_status pdu =? 0)%N then
         Err (SnmpProtocol (#"switch rejected SET of " ++ what ++ #" (SNMP error-status "
           ++ fmt_N (error_status pdu) ++ #", index " ++ fmt_N (error_index pdu)
           ++ #") -- the stored SNMP credentials likely lack write access"))
       else Ok ()).

(** The row whose value is the [ifIndex]; [as u32] keeps the low 32 bits. *)
Definition maps_to (if_index : N) (row : oid * OwnedValue) : option N :=
  match row with
  | (port :: _, Integer idx) => if bool_decide (idx = Z.of_N if_index) then Some (port mod 2 ^ 32)%N else None
  | _ => None
  end.
Fixpoint find_port (if_index : N) (rows : list (oid * OwnedValue)) : option N :=
  match rows with
  | [] => None
  | row :: rows => match maps_to if_index row with Some p => Some p | None => find_port if_index rows end
  end.
Definition bridge_port_for_ifindex (sess : Session) (addr : rstr) (if_index : N)
    : Prog Net (result SnmpPollError N) :=
  rows ←? walk_table sess DOT1D_BASE_PORT_IF_INDEX addr;
  Ret (match find_port if_index rows with
       | Some p => Ok p
       | None => Err (SnmpProtocol (#"no bridge port maps to ifIndex " ++ fmt_N if_index
                   ++ #" on this switch -- cannot locate it for VLAN ops"))
       end).
End session.

(** ** Port lists (RFC 2674): port [n] is bit [n - 1], from the most significant
    bit of the first octet *)

Definition portlist_byte (port : N) : nat := N.to_nat ((port - 1) / 8).
Definition portlist_mask (port : N) : N := N.shiftr 128 ((port - 1) mod 8).

(** Whether the list changed, and the list. *)
Definition portlist_set (bs : list N) (port : N) (on : bool) : bool * list N :=
  if (port =? 0)%N then (false, bs)
  else
    let i := portlist_byte port in
    let mask := portlist_mask port in
    if on then
      let bs := if length bs <=? i then bs ++ replicate (i + 1 - length bs) 0%N else bs in
      let before := bs !!! i in
      let after := N.lor before mask in
      (negb (after =? before)%N, <[i := after]> bs)
    else if length bs <=? i then (false, bs)
    else
      let before := bs !!! i in
      let after := N.land before (N.lxor mask 255) in
      (negb (after =? before)%N, <[i := after]> bs).

(** ** The entry points *)

Section enforce.
Context `{!SnmpLink}.

Definition edit_vlan_portlist (sess : Session) (addr : rstr) (base : oid) (vlan port : N) (on : bool) (what : rstr)
    : Prog Net (result SnmpPollError ()) :=
  let o := instance_oid base [vlan] in
  v ←? snmp_get sess o addr;
  match v with
  | OctetString b =>
      let '(changed, b) := portlist_set b port on in
      if changed : bool then snmp_set sess [(o, WOctetString b)] addr what else Ret (Ok ())
  | _ => Ret (Err (SnmpProtocol (what ++ #" for VLAN " ++ fmt_N vlan ++ #" was not a PortList octet string")))
  end.

Definition switch_addr (sw : PanopticonSwitch) : rstr := sw_ip_address sw ++ #":" ++ fmt_N (sw_snmp_port sw).

Definition connect_for (sw : PanopticonSwitch) (key : Cipher) : Prog Net (result SnmpPollError (Session * rstr)) :=
  credentials ←? Ret (decrypt_credentials sw key);
  sess ←? connect_session (switch_addr sw) credentials;
  Ret (Ok (sess, switch_addr sw)).

Definition enforce_disable_port (sw : PanopticonSwitch) (key : Cipher) (if_index : N)
    : Prog Net (result SnmpPollError Z) :=
  c ←? connect_for sw key;
  let '(sess, addr) := c in
  let admin_oid := instance_oid IF_ADMIN_STATUS [if_index] in
  original ←? snmp_get_int sess admin_oid addr;
  ? snmp_set sess [(admin_oid, WInteger IF_ADMIN_DOWN)] addr #"ifAdminStatus = down";
  Ret (Ok original).

(** The status a revert restores: [up] for a port that was down or in no known state. *)
Definition restored_status (restore_to : option Z) : Z :=
  let target := match restore_to with
                | Some s => if ((s =? IF_ADMIN_UP) || (s =? IF_ADMIN_DOWN) || (s =? 3))%Z then s else IF_ADMIN_UP
                | None => IF_ADMIN_UP
                end in
  if (target =? IF_ADMIN_DOWN)%Z then IF_ADMIN_UP else target.

Definition revert_disable_port (sw : PanopticonSwitch) (key : Cipher) (if_index : N) (restore_to : option Z)
    : Prog Net (result SnmpPollError ()) :=
  c ←? connect_for sw key;
  let '(sess, addr) := c in
  snmp_set sess [(instance_oid IF_ADMIN_STATUS [if_index], WInteger (restored_status restore_to))] addr
    #"ifAdminStatus (revert)".

Definition enforce_quarantine_port (sw : PanopticonSwitch) (key : Cipher) (if_index vlan : N)
    : Prog Net (result SnmpPollError Z) :=
  c ←? connect_for sw key;
  let '(sess, addr) := c in
  port ←? bridge_port_for_ifindex sess addr if_index;
  let pvid_oid := instance_oid DOT1Q_PVID [port] in
  original_pvid ←? snmp_get_int sess pvid_oid addr;
  ? edit_vlan_portlist sess addr DOT1Q_VLAN_STATIC_EGRESS_PORTS vlan port true #"quarantine VLAN egress ports";
  ? edit_vlan_portlist sess addr DOT1Q_VLAN_STATIC_UNTAGGED_PORTS vlan port true #"quarantine VLAN untagged ports";
  ? snmp_set sess [(pvid_oid, WInteger (Z.of_N vlan))] addr #"dot1qPvid = quarantine VLAN";
  Ret (Ok original_pvid).

Definition restore_pvid (sess : Session) (addr : rstr) (port : N) (pvid : option Z) : Prog Net (result SnmpPollError ()) :=
  match pvid with
  | Some pvid =>
      if (0 <? pvid)%Z
      then snmp_set sess [(instance_oid DOT1Q_PVID [port], WInteger pvid)] addr #"dot1qPvid (revert)"
      else Ret (Ok ())
  | None => Ret (Ok ())
  end.
Definition revert_quarantine_port (sw : PanopticonSwitch) (key : Cipher) (if_index : N) (pvid : option Z) (vlan : N)
    : Prog Net (result SnmpPollError ()) :=
  c ←? connect_for sw key;
  let '(sess, addr) := c in
  port ←? bridge_port_for_ifindex sess addr if_index;
  ? restore_pvid sess addr port pvid;
  ? edit_vlan_portlist sess addr DOT1Q_VLAN_STATIC_UNTAGGED_PORTS vlan port false
      #"quarantine VLAN untagged ports (revert)";
  edit_vlan_portlist sess addr DOT1Q_VLAN_STATIC_EGRESS_PORTS vlan port false
    #"quarantine VLAN egress ports (revert)".
End enforce.
