(* ===== verification/SnmpTheorems.v ===== *)
(** * What the SNMP entry points do to a switch

    [SnmpSpec] states RFC 3416 of the switches: a variable reads back as it was
    last written, a walk visits the variables in order, and only an accepted
    write (or one whose answer was lost) changes anything.  From it follows what
    each entry point of [Snmp] leaves on the switch. *)

From S2P Require Import Prelude Steps Aat Snmp.

(** ** Port lists *)

Definition portlist_has (bs : list N) (port : N) : bool :=
  N.testbit (default 0%N (bs !! portlist_byte port)) (7 - (port - 1) mod 8).

Lemma portlist_mask_pow port : portlist_mask port = (2 ^ (7 - (port - 1) mod 8))%N.
Proof.
  unfold portlist_mask. assert ((port - 1) mod 8 < 8)%N as Hm by (apply N.mod_lt; lia).
  generalize dependent ((port - 1) mod 8)%N. intros k Hk.
  assert (k = 0 ∨ k = 1 ∨ k = 2 ∨ k = 3 ∨ k = 4 ∨ k = 5 ∨ k = 6 ∨ k = 7)%N by lia.
  naive_solver.
Qed.

Lemma sub7_lt x : (7 - x < 8)%N.
Proof. lia. Qed.

Lemma portlist_bit_inj p p' :
  (1 ≤ p → 1 ≤ p' → (p - 1) / 8 = (p' - 1) / 8 → 7 - (p - 1) mod 8 = 7 - (p' - 1) mod 8 → p = p')%N.
Proof.
  intros. pose proof (N.div_mod (p - 1) 8). pose proof (N.div_mod (p' - 1) 8).
  pose proof (N.mod_lt (p - 1) 8). pose proof (N.mod_lt (p' - 1) 8). lia.
Qed.

Lemma portlist_pad bs i j :
  default 0%N ((if length bs <=? i then bs ++ replicate (i + 1 - length bs) 0%N else bs) !! j) = default 0%N (bs !! j).
Proof.
  destruct (Nat.leb_spec (length bs) i) as [H|H]; [|done].
  destruct (decide (j < length bs)); [by rewrite lookup_app_l|].
  rewrite lookup_app_r by lia. rewrite (lookup_ge_None_2 bs j) by lia.
  destruct (replicate _ _ !! _) eqn:E; [|done]. apply lookup_replicate in E as [-> _]. done.
Qed.

Lemma portlist_padded bs i :
  i < length (if length bs <=? i then bs ++ replicate (i + 1 - length bs) 0%N else bs).
Proof.
  destruct (Nat.leb_spec (length bs) i); [|lia]. rewrite length_app, length_replicate. lia.
Qed.

(** A list updated at one octet, seen port by port. *)
Lemma portlist_has_insert bs bs' p p' v (on : bool) :
  (1 ≤ p)%N → (1 ≤ p')%N → portlist_byte p < length bs' →
  (∀ j, default 0%N (bs' !! j) = default 0%N (bs !! j)) →
  (∀ k, (k < 8)%N → N.testbit v k = if (k =? 7 - (p - 1) mod 8)%N then on
                                     else N.testbit (default 0%N (bs !! portlist_byte p)) k) →
  portlist_has (<[portlist_byte p := v]> bs') p' = if bool_decide (p' = p) then on else portlist_has bs p'.
Proof.
  intros Hp Hp' Hlen Hbs Hv. unfold portlist_has.
  destruct (decide (portlist_byte p' = portlist_byte p)) as [E|E].
  - rewrite E, list_lookup_insert_eq by done. cbn [default from_option].
    rewrite Hv by apply sub7_lt.
    case_bool_decide as Heq; [subst; by rewrite N.eqb_refl|].
    destruct (N.eqb_spec (7 - (p' - 1) mod 8) (7 - (p - 1) mod 8)) as [E'|]; [|done].
    destruct Heq. apply portlist_bit_inj; [done..| |done]. unfold portlist_byte in E. lia.
  - rewrite list_lookup_insert_ne by done. rewrite Hbs.
    case_bool_decide; [subst; done|done].
Qed.

Lemma portlist_set_has bs p on p' : (1 ≤ p)%N → (1 ≤ p')%N →
  portlist_has (portlist_set bs p on).2 p' = if bool_decide (p' = p) then on else portlist_has bs p'.
Proof.
  intros Hp Hp'. unfold portlist_set. destruct (N.eqb_spec p 0); [lia|].
  rewrite portlist_mask_pow.
  destruct on; cbn [snd].
  - apply portlist_has_insert; [done..|apply portlist_padded|intros; apply portlist_pad|].
    intros k _. rewrite N.lor_spec, N.pow2_bits_eqb.
    rewrite list_lookup_total_alt, <- (portlist_pad bs (portlist_byte p)).
    destruct (lookup_lt_is_Some_2 _ _ (portlist_padded bs (portlist_byte p))) as [x ->]. cbn.
    rewrite (N.eqb_sym (7 - _)). destruct (k =? _)%N; [apply orb_true_r|apply orb_false_r].
  - destruct (Nat.leb_spec (length bs) (portlist_byte p)) as [H|H]; cbn [snd].
    { case_bool_decide; [|done]. subst. unfold portlist_has. by rewrite (lookup_ge_None_2 bs) by done. }
    apply portlist_has_insert; [done..|]. intros k Hk8.
    rewrite N.land_spec, N.lxor_spec, N.pow2_bits_eqb.
    rewrite list_lookup_total_alt. destruct (lookup_lt_is_Some_2 _ _ H) as [x ->]. cbn [default from_option].
    assert (N.testbit 255 k = true) as ->.
    { assert (k = 0 ∨ k = 1 ∨ k = 2 ∨ k = 3 ∨ k = 4 ∨ k = 5 ∨ k = 6 ∨ k = 7)%N by lia. naive_solver. }
    rewrite (N.eqb_sym (7 - _)). destruct (k =? _)%N; [apply andb_false_r|apply andb_true_r].
Qed.

(** A write that is skipped would have changed nothing. *)
Lemma portlist_unchanged bs p on bs' : portlist_set bs p on = (false, bs') → bs' = bs.
Proof.
  unfold portlist_set. destruct (N.eqb_spec p 0); [congruence|]. destruct on.
  - intros [= Hsame <-]. apply negb_false_iff, N.eqb_eq in Hsame.
    destruct (Nat.leb_spec (length bs) (portlist_byte p)) as [H|H].
    + exfalso. revert Hsame. rewrite list_lookup_total_alt, lookup_app_r, lookup_replicate_2 by lia. cbn.
      rewrite portlist_mask_pow. intros E. by apply N.pow_nonzero in E.
    + rewrite Hsame. apply list_insert_id. by apply list_lookup_lookup_total_lt.
  - destruct (Nat.leb_spec (length bs) (portlist_byte p)) as [H|H]; [congruence|].
    intros [= Hsame <-]. apply negb_false_iff, N.eqb_eq in Hsame. rewrite Hsame.
    apply list_insert_id. by apply list_lookup_lookup_total_lt.
Qed.

(** ** Switches that follow RFC 3416 *)

Fixpoint oid_ltb (a b : oid) : bool :=
  match a, b with
  | _, [] => false
  | [], _ :: _ => true
  | x :: a, y :: b => (x <? y)%N || ((x =? y)%N && oid_ltb a b)
  end.
(** The least identifier of [d] after [o]. *)
Definition next_oid (d : gset oid) (o : oid) : option oid :=
  foldr (λ k best, if oid_ltb o k then
                     match best with Some j => if oid_ltb k j then Some k else best | None => Some k end
                   else best) None (elements d).
Definition successor (m : gmap oid Wire) (o : oid) : oid * Wire :=
  match next_oid (dom m) o with
  | Some k => (k, default WNoSuchInstance (m !! k))
  | None => (o, WEndOfMibView)
  end.

Class SnmpSpec `{!SnmpLink} := {
  peer : Session → rstr;
  (** The variables of the switch at an address. *)
  mib : Net → rstr → gmap oid Wire;
  open_peer net net' addr l sess : open_session addr l net = (Some (Ok sess), net') → peer sess = addr;
  open_keeps net addr l a : mib (open_session addr l net).2 a = mib net a;
  get_keeps net sess o a : mib (get_request sess o net).2 a = mib net a;
  getnext_keeps net sess o a : mib (getnext_request sess o net).2 a = mib net a;
  get_answer net net' sess o p : get_request sess o net = (Answered p, net') → error_status p = 0%N →
    varbinds p = [(o, default WNoSuchInstance (mib net (peer sess) !! o))];
  getnext_answer net net' sess o p : getnext_request sess o net = (Answered p, net') → error_status p = 0%N →
    varbinds p = [successor (mib net (peer sess)) o];
  (** A refused request is answered with the name it had and no value. *)
  getnext_refused net net' sess o p : getnext_request sess o net = (Answered p, net') → error_status p ≠ 0%N →
    ∃ w, varbinds p = [(o, w)] ∧ owned w = None;
  set_accepted net net' sess o v p a : set_request sess [(o, v)] net = (Answered p, net') → error_status p = 0%N →
    mib net' a = if bool_decide (a = peer sess) then <[o := v]> (mib net a) else mib net a;
  (** A request that is not answered may have been carried out. *)
  set_other net net' sess o v r :
    set_request sess [(o, v)] net = (r, net') →
    (∀ a, mib net' a = mib net a) ∨
    (∀ a, mib net' a = if bool_decide (a = peer sess) then <[o := v]> (mib net a) else mib net a);
  set_refused net net' sess o v p a : set_request sess [(o, v)] net = (Answered p, net') → error_status p ≠ 0%N →
    mib net' a = mib net a }.

Section spec.
Context `{Hlink : !SnmpLink, Hspec : !SnmpSpec}.
Implicit Types (net : Net) (sess : Session) (o base : oid) (m : gmap oid Wire) (addr what : rstr).

Definition same_mib net net' : Prop := ∀ a, mib net' a = mib net a.
(** [net'] is [net] after the switch at [addr] has become [f] of what it was. *)
Definition changed net addr (f : gmap oid Wire → gmap oid Wire) net' : Prop :=
  ∀ a, mib net' a = if bool_decide (a = addr) then f (mib net a) else mib net a.

#[export] Instance same_mib_refl : Reflexive same_mib.
Proof. done. Qed.
#[export] Instance same_mib_trans : Transitive same_mib.
Proof. intros x y z H1 H2 a. by rewrite H2, H1. Qed.

Lemma changed_at net addr f net' : changed net addr f net' → mib net' addr = f (mib net addr).
Proof. intros H. rewrite H. by rewrite bool_decide_eq_true_2. Qed.
Lemma changed_same_l net0 net addr f net' : same_mib net0 net → changed net addr f net' → changed net0 addr f net'.
Proof. intros H1 H2 a. rewrite H2. by rewrite !H1. Qed.
Lemma changed_same_r net addr f net' net'' : changed net addr f net' → same_mib net' net'' → changed net addr f net''.
Proof. intros H1 H2 a. by rewrite H2, H1. Qed.
Lemma changed_id net addr f net' : same_mib net net' → f (mib net addr) = mib net addr → changed net addr f net'.
Proof. intros H Hf a. rewrite H. case_bool_decide; [by subst|done]. Qed.
Lemma changed_trans net addr f g net' net'' :
  changed net addr f net' → changed net' addr g net'' → changed net addr (g ∘ f) net''.
Proof. intros H1 H2 a. rewrite H2, !H1. by case_bool_decide. Qed.
Lemma changed_ext net addr f g net' :
  changed net addr f net' → f (mib net addr) = g (mib net addr) → changed net addr g net'.
Proof. intros H E a. rewrite H. case_bool_decide; [by subst|done]. Qed.

(** *** Single requests *)

Lemma exchange_run addr f net r net' :
  run (exchange addr f) net = (r, net') → ∃ e, f net = (e, net') ∧
  match e with NoAnswer => r = Err (SnmpTimeout addr) | Failed x => r = Err (SnmpProtocol x) | Answered p => r = Ok p end.
Proof. cbn. destruct (f net) as [e ?]. intros [= <- <-]. exists e. by destruct e. Qed.

Lemma snmp_get_spec sess o addr net r net' :
  run (snmp_get sess o addr) net = (r, net') →
  same_mib net net' ∧ ∀ v, r = Ok v → ∃ w, mib net (peer sess) !! o = Some w ∧ owned w = Some v.
Proof.
  unfold snmp_get. rewrite run_try. destruct (run _ net) as [r1 n1] eqn:E.
  apply exchange_run in E as (e & E & Hr). pose proof (get_keeps net sess o) as K. rewrite E in K. cbn in K.
  destruct r1 as [p|err]; cbn; intros [= <- <-]; (split; [done|]); [|congruence].
  intros v Hv. assert (e = Answered p) as -> by (destruct e; congruence).
  destruct (N.eqb_spec (error_status p) 0) as [H0|]; [|done]. cbn [negb] in Hv.
  rewrite (get_answer _ _ _ _ _ E H0) in Hv.
  destruct (mib net (peer sess) !! o) as [w|]; [|done]. exists w. split; [done|]. by destruct w; simplify_eq/=.
Qed.

Lemma snmp_get_int_spec sess o addr net r net' :
  run (snmp_get_int sess o addr) net = (r, net') →
  same_mib net net' ∧ ∀ n, r = Ok n → mib net (peer sess) !! o = Some (WInteger n).
Proof.
  unfold snmp_get_int. rewrite run_try. destruct (run _ net) as [r1 n1] eqn:E.
  apply snmp_get_spec in E as [Hs Hv]. destruct r1 as [v|]; cbn; intros [= <- <-]; (split; [done|]); [|congruence].
  intros n Hn. destruct (Hv _ eq_refl) as (w & Hw & Ho). rewrite Hw. destruct w, v; cbn in *; congruence.
Qed.

(** What a write leaves, by what it returned. *)
Definition set_outcome {A} net addr f (r : result SnmpPollError A) net' : Prop :=
  match r with Ok _ => changed net addr f net' | Err _ => same_mib net net' ∨ changed net addr f net' end.

Lemma snmp_set_spec sess o v addr what net r net' :
  run (snmp_set sess [(o, v)] addr what) net = (r, net') → set_outcome net (peer sess) <[o := v]> r net'.
Proof.
  unfold snmp_set. rewrite run_try. destruct (run _ net) as [r1 n1] eqn:E.
  apply exchange_run in E as (e & E & Hr).
  destruct r1 as [p|err]; cbn; intros [= <- <-]; [|by apply (set_other _ _ _ _ _ _ E)].
  assert (e = Answered p) as -> by (destruct e; congruence).
  destruct (N.eqb_spec (error_status p) 0) as [H0|H0]; cbn.
  - intros a. apply (set_accepted _ _ _ _ _ _ a E H0).
  - left. intros a. apply (set_refused _ _ _ _ _ _ a E H0).
Qed.

Lemma connect_for_spec sw key net r net' :
  run (connect_for sw key) net = (r, net') →
  same_mib net net' ∧ ∀ sess addr, r = Ok (sess, addr) → addr = switch_addr sw ∧ peer sess = addr.
Proof.
  unfold connect_for, connect_session. rewrite run_try. cbn [run].
  destruct (decrypt_credentials sw key) as [c|e]; [|intros [= <- <-]; split; [done|congruence]].
  rewrite run_try. destruct (session_login c) as [l|e]; [|cbn; intros [= <- <-]; split; [done|congruence]].
  cbn. destruct (open_session _ _ _) as [o n1] eqn:E. pose proof (open_keeps net (switch_addr sw) l) as K.
  rewrite E in K. cbn in K.
  destruct o as [[sess|e]|]; cbn; intros [= <- <-]; (split; [done|]); try congruence.
  intros s' a' [= <- <-]. split; [done|]. by apply (open_peer _ _ _ _ _ E).
Qed.

Lemma edit_vlan_portlist_spec sess addr base vlan port on what net r net' :
  run (edit_vlan_portlist sess addr base vlan port on what) net = (r, net') →
  (is_err r ∧ same_mib net net') ∨
  ∃ b, mib net (peer sess) !! (base ++ [vlan]) = Some (WOctetString b) ∧
    set_outcome net (peer sess) <[base ++ [vlan] := WOctetString (portlist_set b port on).2]> r net'.
Proof.
  unfold edit_vlan_portlist. rewrite run_try. destruct (run _ net) as [r1 n1] eqn:E.
  apply snmp_get_spec in E as [Hs Hv].
  destruct r1 as [v|]; cbn; [|intros [= <- <-]; by left].
  destruct (Hv _ eq_refl) as (w & Hw & Ho).
  destruct v as [|b|]; [intros [= <- <-]; by left| |intros [= <- <-]; by left].
  assert (w = WOctetString b) as -> by (destruct w; cbn in Ho; congruence).
  destruct (portlist_set b port on) as [ch b'] eqn:Eb. intros E. right. exists b. split; [done|].
  rewrite Eb. cbn [snd]. destruct ch.
  - apply snmp_set_spec in E. unfold set_outcome in *. destruct r.
    + by eapply changed_same_l.
    + destruct E; [left; by etrans|right; by eapply changed_same_l].
  - cbn in E. injection E as <- <-. cbn. apply changed_id; [done|].
    apply portlist_unchanged in Eb as ->. by apply insert_id.
Qed.

(** *** Walks *)

(** What [walk_loop] collects from a switch that holds [m]. *)
Fixpoint walk_from (fuel : nat) m base (results : list (oid * OwnedValue)) (current : oid) : list (oid * OwnedValue) :=
  match fuel with
  | 0 => results
  | S fuel =>
      let '(results, current, advanced) := walk_varbind base (results, current, false) (successor m current) in
      if negb advanced || (MAX_WALK_ENTRIES <=? N.of_nat (length results))%N then results
      else walk_from fuel m base results current
  end.

Lemma walk_varbind_grows base rs c b vb rs' c' b' :
  walk_varbind base (rs, c, b) vb = (rs', c', b') →
  (rs' = rs ∧ c' = c ∧ b' = b) ∨ (∃ x, rs' = rs ++ [x] ∧ b' = true).
Proof.
  unfold walk_varbind. case_bool_decide; [|intros [= <- <- <-]; by left].
  destruct (oid_suffix _ _); [|intros [= <- <- <-]; by left].
  destruct (owned _); intros [= <- <- <-]; [right; eauto|by left].
Qed.

Lemma walk_from_prefix fuel m base rs c : rs `prefix_of` walk_from fuel m base rs c.
Proof.
  revert rs c. induction fuel as [|fuel IH]; intros rs c; [done|]. cbn [walk_from].
  destruct (walk_varbind _ _ _) as [[rs' c'] b] eqn:E.
  assert (rs `prefix_of` rs') as Hp.
  { apply walk_varbind_grows in E as [(-> & _)|(x & -> & _)]; [done|by apply prefix_app_r]. }
  destruct (_ || _); [done|]. etrans; [done|apply IH].
Qed.

Lemma walk_loop_spec fuel sess base addr rs c net r net' :
  run (walk_loop fuel sess base addr rs c) net = (r, net') →
  same_mib net net' ∧ ∀ rows, r = Ok rows → rows `prefix_of` walk_from fuel (mib net (peer sess)) base rs c.
Proof.
  revert rs c net. induction fuel as [|fuel IH]; intros rs c net.
  { cbn. intros [= <- <-]. split; [done|]. by intros ? [= <-]. }
  cbn [walk_loop]. rewrite run_try. destruct (run (exchange _ _) net) as [r1 n1] eqn:E.
  apply exchange_run in E as (e & E & Hr). pose proof (getnext_keeps net sess c) as K. rewrite E in K. cbn in K.
  destruct r1 as [p|err]; [|intros [= <- <-]; split; [done|congruence]].
  assert (e = Answered p) as -> by (destruct e; congruence).
  destruct (decide (error_status p = 0%N)) as [H0|H0].
  - rewrite (getnext_answer _ _ _ _ _ E H0). cbn [foldl]. cbn [walk_from].
    destruct (walk_varbind base (rs, c, false) _) as [[rs' c'] b] eqn:Ew.
    destruct (_ || _); [cbn; intros [= <- <-]; split; [done|]; by intros ? [= <-]|].
    intros Hrun. apply IH in Hrun as [Hs Hp]. split; [by etrans|]. intros rows Hrows.
    rewrite <- (K (peer sess)). by apply Hp.
  - destruct (getnext_refused _ _ _ _ _ E H0) as (w & -> & Hw). cbn [foldl]. unfold walk_varbind at 1. cbn [fst snd].
    rewrite Hw. assert (∀ o1 : option oid, match o1 with Some _ | _ => (rs, c, false) end = (rs, c, false)) as Hm by by intros [].
    rewrite Hm. destruct (bool_decide _); cbn [negb orb run]; intros [= <- <-]; (split; [done|]); intros ? [= <-]; apply walk_from_prefix.
Qed.

(** The bound on the rows makes the fuel enough: more of it changes nothing. *)
Lemma walk_fuel_enough fuel extra sess base addr rs c net :
  (MAX_WALK_ENTRIES <= N.of_nat (fuel + length rs))%N → 0 < fuel →
  (∀ o net, match (getnext_request sess o net).1 with Answered p => length (varbinds p) ≤ 1 | _ => True end) →
  run (walk_loop (fuel + extra) sess base addr rs c) net = run (walk_loop fuel sess base addr rs c) net.
Proof.
  intros HM Hf Hone. revert rs c net HM Hf. induction fuel as [|fuel IH]; intros rs c net HM Hf; [lia|].
  cbn [Nat.add walk_loop]. rewrite !run_try. destruct (run (exchange _ _) net) as [r1 n1] eqn:E.
  apply exchange_run in E as (e & E & Hr). specialize (Hone c net). rewrite E in Hone. cbn in Hone.
  destruct r1 as [p|err]; [|done]. assert (e = Answered p) as -> by (destruct e; congruence).
  destruct (varbinds p) as [|vb [|]]; [done| |cbn in Hone; lia]. cbn [foldl].
  destruct (walk_varbind base (rs, c, false) vb) as [[rs' c'] b] eqn:Ew.
  destruct b; [|done]. cbn [negb orb]. apply walk_varbind_grows in Ew as [(_ & _ & ?)|(x & -> & _)]; [done|].
  destruct (N.leb_spec MAX_WALK_ENTRIES (N.of_nat (length (rs ++ [x])))) as [|Hlt]; [done|].
  rewrite length_app in *. cbn in *. apply IH; rewrite ?length_app; cbn; lia.
Qed.

Lemma find_port_prefix i l l' p : l `prefix_of` l' → find_port i l = Some p → find_port i l' = Some p.
Proof.
  intros [k ->]. induction l as [|row l IH]; cbn; [done|]. destruct (maps_to i row); [done|]. apply IH.
Qed.

(** The bridge port of an [ifIndex]. *)
Definition bridge_port_of m (if_index : N) : option N :=
  find_port if_index (walk_from (N.to_nat MAX_WALK_ENTRIES) m DOT1D_BASE_PORT_IF_INDEX [] DOT1D_BASE_PORT_IF_INDEX).

Lemma bridge_port_spec sess addr i net r net' :
  run (bridge_port_for_ifindex sess addr i) net = (r, net') →
  same_mib net net' ∧ ∀ p, r = Ok p → bridge_port_of (mib net (peer sess)) i = Some p.
Proof.
  unfold bridge_port_for_ifindex, walk_table. rewrite run_try. destruct (run _ net) as [r1 n1] eqn:E.
  apply walk_loop_spec in E as [Hs Hp]. destruct r1 as [rows|]; cbn; [|intros [= <- <-]; split; [done|congruence]].
  destruct (find_port i rows) as [p|] eqn:Ef; intros [= <- <-]; (split; [done|]); [|congruence].
  intros p' [= <-]. eapply find_port_prefix; [|done]. by apply Hp.
Qed.

(** Writing a variable outside the table leaves the walk as it was. *)
Lemma walk_from_insert fuel m base o v rs c :
  is_Some (m !! o) → ~ base `prefix_of` o → walk_from fuel (<[o := v]> m) base rs c = walk_from fuel m base rs c.
Proof.
  intros Ho Hb. revert rs c. induction fuel as [|fuel IH]; intros rs c; [done|]. cbn [walk_from].
  assert (walk_varbind base (rs, c, false) (successor (<[o:=v]> m) c) =
          walk_varbind base (rs, c, false) (successor m c)) as ->.
  { unfold successor. rewrite dom_insert_lookup_L by done. destruct (next_oid _ _) as [k|]; [|done].
    destruct (decide (k = o)) as [->|]; [|by rewrite lookup_insert_ne].
    unfold walk_varbind. cbn [fst]. by rewrite !bool_decide_eq_false_2. }
  destruct (walk_varbind _ _ _) as [[rs' c'] b]. destruct (_ || _); [done|]. apply IH.
Qed.
Lemma bridge_port_insert m o v i :
  is_Some (m !! o) → ~ DOT1D_BASE_PORT_IF_INDEX `prefix_of` o →
  bridge_port_of (<[o := v]> m) i = bridge_port_of m i.
Proof. intros. unfold bridge_port_of. by rewrite walk_from_insert. Qed.

(** *** The entry points *)

Definition admin_oid (i : N) : oid := IF_ADMIN_STATUS ++ [i].
Definition pvid_oid (port : N) : oid := DOT1Q_PVID ++ [port].
Definition egress_oid (vlan : N) : oid := DOT1Q_VLAN_STATIC_EGRESS_PORTS ++ [vlan].
Definition untagged_oid (vlan : N) : oid := DOT1Q_VLAN_STATIC_UNTAGGED_PORTS ++ [vlan].

Lemma oids_distinct port vlan :
  pvid_oid port ≠ egress_oid vlan ∧ pvid_oid port ≠ untagged_oid vlan ∧ egress_oid vlan ≠ untagged_oid vlan.
Proof. done. Qed.
Lemma oids_outside_table port vlan o :
  o = pvid_oid port ∨ o = egress_oid vlan ∨ o = untagged_oid vlan → ~ DOT1D_BASE_PORT_IF_INDEX `prefix_of` o.
Proof. intros [-> | [-> | ->]] [k Hk]; discriminate Hk. Qed.

(** Takes the first request of the program in [H]. *)
Tactic Notation "request" hyp(H) "by" uconstr(L) "as" ident(x) ident(n) ident(Hs) ident(Hv) :=
  rewrite run_try in H;
  let r := fresh "r" in let E := fresh "E" in
  match type of H with context [run ?p ?s] => destruct (run p s) as [r n] eqn:E end;
  apply L in E as [Hs Hv]; destruct r as [x|?].

Lemma enforce_disable_spec sw key i net r net' :
  run (enforce_disable_port sw key i) net = (r, net') →
  set_outcome net (switch_addr sw) <[admin_oid i := WInteger IF_ADMIN_DOWN]> r net' ∧
  ∀ original, r = Ok original → mib net (switch_addr sw) !! admin_oid i = Some (WInteger original).
Proof.
  unfold enforce_disable_port. intros H.
  request H by connect_for_spec as c n Hs Hc; [|injection H as <- <-; split; [by left|congruence]].
  destruct c as [sess addr]. destruct (Hc _ _ eq_refl) as [-> Hpeer].
  request H by snmp_get_int_spec as v n0 Hs' Hg; [|injection H as <- <-; split; [left; by etrans|congruence]].
  rewrite run_try in H. destruct (run _ n0) as [r1 n1] eqn:E. apply snmp_set_spec in E. rewrite Hpeer in E.
  assert (same_mib net n0) as Hs0 by by etrans.
  destruct r1; cbn in H, E; injection H as <- <-.
  - split; [by eapply changed_same_l|]. intros o [= <-]. rewrite <- (Hs (switch_addr sw)), <- Hpeer. by apply Hg.
  - split; [|congruence]. destruct E as [E|E]; [left; by etrans|right; by eapply changed_same_l].
Qed.

Lemma revert_disable_spec sw key i to net r net' :
  run (revert_disable_port sw key i to) net = (r, net') →
  set_outcome net (switch_addr sw) <[admin_oid i := WInteger (restored_status to)]> r net'.
Proof.
  unfold revert_disable_port. intros H.
  request H by connect_for_spec as c n Hs Hc; [|injection H as <- <-; by left].
  destruct c as [sess addr]. destruct (Hc _ _ eq_refl) as [-> Hpeer].
  apply snmp_set_spec in H. rewrite Hpeer in H. unfold set_outcome in *.
  destruct r; [by eapply changed_same_l|]. destruct H as [H|H]; [left; by etrans|right; by eapply changed_same_l].
Qed.

(** A switch on which port [p] was put in VLAN [vlan], and one it was taken out of. *)
Definition quarantined (vlan p : N) (be bu : list N) m : gmap oid Wire :=
  <[pvid_oid p := WInteger (Z.of_N vlan)]>
  (<[untagged_oid vlan := WOctetString (portlist_set bu p true).2]>
  (<[egress_oid vlan := WOctetString (portlist_set be p true).2]> m)).
Definition pvid_restored (p : N) (pvid : option Z) m : gmap oid Wire :=
  match pvid with Some x => if (0 <? x)%Z then <[pvid_oid p := WInteger x]> m else m | None => m end.
Definition unquarantined (vlan p : N) (pvid : option Z) (be bu : list N) m : gmap oid Wire :=
  <[egress_oid vlan := WOctetString (portlist_set be p false).2]>
  (<[untagged_oid vlan := WOctetString (portlist_set bu p false).2]> (pvid_restored p pvid m)).

(** Takes a write to a port list that succeeded. *)
Lemma edit_vlan_portlist_ok sess addr base vlan port on what net net' :
  run (edit_vlan_portlist sess addr base vlan port on what) net = (Ok (), net') →
  ∃ b, mib net (peer sess) !! (base ++ [vlan]) = Some (WOctetString b) ∧
    changed net (peer sess) <[base ++ [vlan] := WOctetString (portlist_set b port on).2]> net'.
Proof. intros H. apply edit_vlan_portlist_spec in H as [[[] _]|(b & Hb & Hc)]. by exists b. Qed.

Lemma enforce_quarantine_ok sw key i vlan net original net' :
  run (enforce_quarantine_port sw key i vlan) net = (Ok original, net') →
  let m := mib net (switch_addr sw) in
  ∃ p be bu, bridge_port_of m i = Some p ∧ m !! pvid_oid p = Some (WInteger original) ∧
    m !! egress_oid vlan = Some (WOctetString be) ∧ m !! untagged_oid vlan = Some (WOctetString bu) ∧
    changed net (switch_addr sw) (quarantined vlan p be bu) net'.
Proof.
  unfold enforce_quarantine_port. intros H.
  request H by connect_for_spec as c n Hs Hc; [|done].
  destruct c as [sess addr]. destruct (Hc _ _ eq_refl) as [-> Hpeer].
  request H by bridge_port_spec as p n0 Hs1 Hp; [|done]. request H by snmp_get_int_spec as v n1 Hs2 Hg; [|done].
  specialize (Hp _ eq_refl). specialize (Hg _ eq_refl). rewrite Hpeer in *.
  rewrite run_try in H. destruct (run _ n1) as [[[]|] n2] eqn:E1; [|done].
  rewrite run_try in H. destruct (run _ n2) as [[[]|] n3] eqn:E2; [|done].
  rewrite run_try in H. destruct (run _ n3) as [[[]|] n4] eqn:E3; [|done]. cbn in H. injection H as <- <-.
  apply edit_vlan_portlist_ok in E1 as (be & Hbe & Hc1). apply edit_vlan_portlist_ok in E2 as (bu & Hbu & Hc2).
  apply snmp_set_spec in E3. cbn in E3. rewrite Hpeer in *.
  pose proof (changed_at _ _ _ _ Hc1) as Hm2. rewrite Hm2, lookup_insert_ne in Hbu by done.
  rewrite (Hs2 (switch_addr sw)), (Hs1 (switch_addr sw)), (Hs (switch_addr sw)) in *.
  exists p, be, bu. repeat (split; [done|]).
  eapply changed_same_l; [etrans; [exact Hs|etrans; [exact Hs1|exact Hs2]]|].
  exact (changed_trans _ _ _ _ _ _ (changed_trans _ _ _ _ _ _ Hc1 Hc2) E3).
Qed.

Lemma revert_quarantine_ok sw key i pvid vlan net net' :
  run (revert_quarantine_port sw key i pvid vlan) net = (Ok (), net') →
  let m := mib net (switch_addr sw) in
  ∃ p be bu, bridge_port_of m i = Some p ∧
    m !! egress_oid vlan = Some (WOctetString be) ∧ m !! untagged_oid vlan = Some (WOctetString bu) ∧
    changed net (switch_addr sw) (unquarantined vlan p pvid be bu) net'.
Proof.
  unfold revert_quarantine_port. intros H.
  request H by connect_for_spec as c n Hs Hc; [|done].
  destruct c as [sess addr]. destruct (Hc _ _ eq_refl) as [-> Hpeer].
  request H by bridge_port_spec as p n0 Hs1 Hp; [|done]. specialize (Hp _ eq_refl). rewrite Hpeer in *.
  rewrite run_try in H. destruct (run _ n0) as [[[]|] n1] eqn:E1; [|done].
  rewrite run_try in H. destruct (run _ n1) as [[[]|] n2] eqn:E2; [|done].
  assert (changed n0 (switch_addr sw) (pvid_restored p pvid) n1) as Hc0.
  { unfold restore_pvid in E1. unfold pvid_restored. destruct pvid as [x|]; [destruct (0 <? x)%Z|].
    - apply snmp_set_spec in E1. by rewrite Hpeer in E1.
    - cbn in E1. injection E1 as <-. by apply changed_id.
    - cbn in E1. injection E1 as <-. by apply changed_id. }
  apply edit_vlan_portlist_ok in E2 as (bu & Hbu & Hc2). apply edit_vlan_portlist_ok in H as (be & Hbe & Hc3).
  rewrite Hpeer in *. rewrite (changed_at _ _ _ _ Hc2), lookup_insert_ne in Hbe by done.
  assert (∀ o, o ≠ pvid_oid p → mib n1 (switch_addr sw) !! o = mib n0 (switch_addr sw) !! o) as Hne.
  { intros o Ho. rewrite (changed_at _ _ _ _ Hc0). unfold pvid_restored.
    destruct pvid as [x|]; [destruct (0 <? x)%Z|]; [|done..]. by rewrite lookup_insert_ne. }
  rewrite Hne in Hbe, Hbu by done.
  rewrite (Hs1 (switch_addr sw)), (Hs (switch_addr sw)) in *. exists p, be, bu. repeat (split; [done|]).
  eapply changed_same_l; [etrans; [exact Hs|exact Hs1]|].
  exact (changed_trans _ _ _ _ _ _ (changed_trans _ _ _ _ _ _ Hc0 Hc2) Hc3).
Qed.
End spec.
