(* ===== verification/Radius.v ===== *)
(** * The RADIUS wire codec ([web/src/radius.rs])

    Parsing and building packets of RFC 2865 and 2866 with the authenticators of
    RFC 3579.  MD5 and HMAC-MD5 are arguments of the definitions.  Indexing out
    of range panics in the source: such an operation returns [None] here, the
    malformed packet of the source is [Some None]. *)

From Stdlib Require Import NArith Lia.
From stdpp Require Import base list numbers.
From S2P Require Import Prelude Aat.

Definition CODE_ACCESS_REQUEST : N := 1.
Definition CODE_ACCESS_ACCEPT : N := 2.
Definition CODE_ACCESS_REJECT : N := 3.
Definition CODE_ACCOUNTING_REQUEST : N := 4.
Definition CODE_ACCOUNTING_RESPONSE : N := 5.

Definition ATTR_USER_NAME : N := 1.
Definition ATTR_USER_PASSWORD : N := 2.
Definition ATTR_CHAP_PASSWORD : N := 3.
Definition ATTR_NAS_IP_ADDRESS : N := 4.
Definition ATTR_FRAMED_IP_ADDRESS : N := 8.
Definition ATTR_CALLED_STATION_ID : N := 30.
Definition ATTR_CALLING_STATION_ID : N := 31.
Definition ATTR_ACCT_STATUS_TYPE : N := 40.
Definition ATTR_ACCT_SESSION_ID : N := 44.
Definition ATTR_ACCT_TERMINATE_CAUSE : N := 49.
Definition ATTR_TUNNEL_TYPE : N := 64.
Definition ATTR_TUNNEL_MEDIUM_TYPE : N := 65.
Definition ATTR_EAP_MESSAGE : N := 79.
Definition ATTR_MESSAGE_AUTHENTICATOR : N := 80.
Definition ATTR_TUNNEL_PRIVATE_GROUP_ID : N := 81.
Definition ATTR_NAS_PORT_ID : N := 87.
Definition ACCT_STATUS_STOP : N := 2.
Definition HEADER_LEN : nat := 20.

Abbreviation Attr := (N * list N)%type (only parsing).

Record Packet := mkPacket {
  pk_code : N; pk_id : N; pk_authenticator : list N; pk_attributes : list Attr; pk_raw : list N }.

(** [&buf[a..b]], and [buf[a..].copy_from_slice(new)] over [new]'s length. *)
Definition slice (buf : list N) (a b : nat) : option (list N) :=
  if (a <=? b) && (b <=? length buf) then Some (take (b - a) (drop a buf)) else None.
Definition copy_at (buf : list N) (a : nat) (new : list N) : option (list N) :=
  if a + length new <=? length buf then Some (take a buf ++ new ++ drop (a + length new) buf) else None.

(** [u16::from_be_bytes] and [to_be_bytes], [u32::from_be_bytes]. *)
Definition u16_from_be (hi lo : N) : nat := N.to_nat (hi * 256 + lo).
Definition u16_to_be (n : N) : list N := [n / 256; n mod 256]%N.
Definition u32_from_be (a b c d : N) : N := ((a * 256 + b) * 256 + c) * 256 + d.

Definition constant_time_eq (a b : list N) : bool :=
  if negb (length a =? length b) then false else (xor_fold a b =? 0)%N.

(** [String::from_utf8_lossy]: every maximal ill-formed part becomes U+FFFD. *)
Definition is_cont (b : N) : bool := in_range 128 191 b.
Definition second_of_3 (b c : N) : bool :=
  ((b =? 224) && in_range 160 191 c || in_range 225 236 b && is_cont c
   || (b =? 237) && in_range 128 159 c || in_range 238 239 b && is_cont c)%N.
Definition second_of_4 (b c : N) : bool :=
  ((b =? 240) && in_range 144 191 c || in_range 241 243 b && is_cont c || (b =? 244) && in_range 128 143 c)%N.
Definition REPLACEMENT : N := 65533.
Fixpoint from_utf8_lossy (l : list N) : rstr :=
  match l with
  | [] => []
  | b :: r =>
      if (b <? 128)%N then b :: from_utf8_lossy r
      else
        match r with
        | [] => [REPLACEMENT]
        | c :: r1 =>
            if in_range 194 223 b then
              if is_cont c then ((b - 192) * 64 + (c - 128))%N :: from_utf8_lossy r1
              else REPLACEMENT :: from_utf8_lossy r
            else if second_of_3 b c then
              match r1 with
              | [] => [REPLACEMENT]
              | d :: r2 =>
                  if is_cont d then (((b - 224) * 64 + (c - 128)) * 64 + (d - 128))%N :: from_utf8_lossy r2
                  else REPLACEMENT :: from_utf8_lossy r1
              end
            else if second_of_4 b c then
              match r1 with
              | [] => [REPLACEMENT]
              | d :: r2 =>
                  if is_cont d then
                    match r2 with
                    | [] => [REPLACEMENT]
                    | e :: r3 =>
                        if is_cont e then
                          ((((b - 240) * 64 + (c - 128)) * 64 + (d - 128)) * 64 + (e - 128))%N :: from_utf8_lossy r3
                        else REPLACEMENT :: from_utf8_lossy r2
                    end
                  else REPLACEMENT :: from_utf8_lossy r1
              end
            else REPLACEMENT :: from_utf8_lossy r
        end
  end.

(** The loop of [parse] over the attributes: the ones read and where it ended. *)
Fixpoint attr_loop (fuel : nat) (buf : list N) (len i : nat) (acc : list Attr) : option (option (list Attr * nat)) :=
  if i + 2 <=? len then
    match fuel with
    | O => None
    | S fuel =>
        attr_type ← buf !! i;
        attr_len ← N.to_nat <$> buf !! (i + 1);
        if (attr_len <? 2) || (len <? i + attr_len) then Some None
        else
          value ← slice buf (i + 2) (i + attr_len);
          attr_loop fuel buf len (i + attr_len) (acc ++ [(attr_type, value)])
    end
  else Some (Some (acc, i)).

Fixpoint locate_loop (fuel : nat) (buf : list N) (attr_type : N) (i : nat) : option (option (nat * list N)) :=
  if i + 2 <=? length buf then
    match fuel with
    | O => None
    | S fuel =>
        t ← buf !! i;
        len ← N.to_nat <$> buf !! (i + 1);
        if (len <? 2) || (length buf <? i + len) then Some None
        else if (t =? attr_type)%N then
          value ← slice buf (i + 2) (i + len);
          Some (Some (i + 2, value))
        else locate_loop fuel buf attr_type (i + len)
    end
  else Some None.
Definition locate_attr_value (buf : list N) (attr_type : N) : option (option (nat * list N)) :=
  locate_loop (length buf) buf attr_type HEADER_LEN.

Module Packet.
Definition parse (buf : list N) : option (option Packet) :=
  if length buf <? HEADER_LEN then Some None
  else
    hi ← buf !! 2;
    lo ← buf !! 3;
    let len := u16_from_be hi lo in
    if (len <? HEADER_LEN) || (length buf <? len) then Some None
    else
      auth ← slice buf 4 20;
      read ← attr_loop len buf len HEADER_LEN [];
      match read with
      | None => Some None
      | Some (attrs, i) =>
          if negb (i =? len) then Some None
          else
            c ← buf !! 0;
            id ← buf !! 1;
            whole ← slice buf 0 len;
            Some (Some (mkPacket c id auth attrs whole))
      end.

(** The first value of a type, and its typed variants. *)
Definition get (p : Packet) (attr_type : N) : option (list N) :=
  snd <$> List.find (λ a, (a.1 =? attr_type)%N) (pk_attributes p).
Definition has (p : Packet) (attr_type : N) : bool := existsb (λ a, (a.1 =? attr_type)%N) (pk_attributes p).
Definition get_u32 (p : Packet) (attr_type : N) : option N :=
  v ← get p attr_type;
  match v with [a; b; c; d] => Some (u32_from_be a b c d) | _ => None end.
Definition get_string (p : Packet) (attr_type : N) : option rstr := from_utf8_lossy <$> get p attr_type.
Definition get_ipv4 (p : Packet) (attr_type : N) : option rstr :=
  v ← get p attr_type;
  match v with
  | [a; b; c; d] => Some (fmt_N a ++ #"." ++ fmt_N b ++ #"." ++ fmt_N c ++ #"." ++ fmt_N d)
  | _ => None
  end.

Section hashes.
Context (md5 : list N → list N) (hmac_md5 : list N → list N → list N).

(** [None] is a panic, as for [parse]. *)
Definition verify_message_authenticator (p : Packet) (secret : list N) : option bool :=
  found ← locate_attr_value (pk_raw p) ATTR_MESSAGE_AUTHENTICATOR;
  match found with
  | None => Some true
  | Some (value_offset, received) =>
      if negb (length received =? 16) then Some false
      else
        buf ← copy_at (pk_raw p) value_offset (replicate 16 0%N);
        Some (constant_time_eq (hmac_md5 secret buf) received)
  end.
Definition verify_accounting_authenticator (p : Packet) (secret : list N) : option bool :=
  buf ← copy_at (pk_raw p) 4 (replicate 16 0%N);
  Some (constant_time_eq (md5 (buf ++ secret)) (pk_authenticator p)).
End hashes.
End Packet.

(** ** Building *)

Definition push_attr (out : list N) (attr_type : N) (value : list N) : list N :=
  let v := if 253 <? length value then take 253 value else value in
  out ++ [attr_type; N.of_nat (length v + 2) `mod` 256]%N ++ v.

Definition vlan_attributes (vlan : N) : list Attr :=
  [(ATTR_TUNNEL_TYPE, [1; 0; 0; 13]%N); (ATTR_TUNNEL_MEDIUM_TYPE, [1; 0; 0; 6]%N);
   (ATTR_TUNNEL_PRIVATE_GROUP_ID, 1%N :: bytes (fmt_N vlan))].

Section build.
Context (md5 : list N → list N) (hmac_md5 : list N → list N → list N).

Definition build_response (code id : N) (request_authenticator : list N) (attrs : list Attr) (secret : list N)
    (include_msg_auth : bool) : option (list N) :=
  let out := [code; id] ++ [0; 0]%N ++ request_authenticator in
  let out := foldl (λ out a, push_attr out a.1 a.2) out attrs in
  let msg_auth_offset := if include_msg_auth then Some (length out + 2) else None in
  let out := if include_msg_auth then push_attr out ATTR_MESSAGE_AUTHENTICATOR (replicate 16 0%N) else out in
  out ← copy_at out 2 (u16_to_be (N.of_nat (length out) mod 65536));
  out ← match msg_auth_offset with
        | Some off => copy_at out off (hmac_md5 secret out)
        | None => Some out
        end;
  copy_at out 4 (md5 (out ++ secret)).
End build.

(** ** What the RADIUS codec guarantees

    [parse] never panics and accepts exactly the well-formed packets; a response
    parses back to what it was built from, and carries the authenticators the
    client recomputes. *)

Import Packet (parse).

(** ** The wire form, declaratively *)

Definition is_byte (b : N) : Prop := (b < 256)%N.
Definition encode_attr (a : N * list N) : list N := [a.1; N.of_nat (length a.2 + 2)] ++ a.2.
Definition body (attrs : list (N * list N)) : list N := concat (encode_attr <$> attrs).
Definition wire (code id : N) (auth : list N) (attrs : list (N * list N)) : list N :=
  [code; id] ++ u16_to_be (N.of_nat (HEADER_LEN + length (body attrs))) ++ auth ++ body attrs.

Definition attr_ok (a : N * list N) : Prop := is_byte a.1 ∧ Forall is_byte a.2 ∧ length a.2 ≤ 253.
Record packet_ok (p : Packet) : Prop := {
  ok_code : is_byte (pk_code p);
  ok_id : is_byte (pk_id p);
  ok_auth : Forall is_byte (pk_authenticator p) ∧ length (pk_authenticator p) = 16;
  ok_attrs : Forall attr_ok (pk_attributes p);
  ok_size : (N.of_nat (HEADER_LEN + length (body (pk_attributes p))) < 65536)%N;
  ok_raw : pk_raw p = wire (pk_code p) (pk_id p) (pk_authenticator p) (pk_attributes p) }.

Lemma body_cons a attrs : body (a :: attrs) = encode_attr a ++ body attrs.
Proof. done. Qed.
Lemma body_app l k : body (l ++ k) = body l ++ body k.
Proof. unfold body. by rewrite fmap_app, concat_app. Qed.
Lemma body_snoc out attrs a : (out ++ body attrs) ++ encode_attr a = out ++ body (attrs ++ [a]).
Proof. unfold body. rewrite fmap_app, concat_app. cbn. by rewrite app_nil_r, app_assoc. Qed.
Lemma length_encode a : length (encode_attr a) = length a.2 + 2.
Proof. unfold encode_attr. rewrite length_app. cbn. lia. Qed.
Lemma body_bytes attrs : Forall attr_ok attrs → Forall is_byte (body attrs).
Proof.
  induction 1 as [|[t v] attrs (Ht & Hv & Hl) _ IH]; [done|]. rewrite body_cons. apply Forall_app. split; [|done].
  repeat constructor; [done| |done]. unfold is_byte. cbn in *. lia.
Qed.

(** ** Reading the attributes off a list of bytes *)

Fixpoint read_attrs (fuel : nat) (l : list N) : option (list (N * list N)) :=
  match fuel, l with
  | _, [] => Some []
  | S fuel, t :: n :: r =>
      if (n <? 2)%N || (length r + 2 <? N.to_nat n) then None
      else rest ← read_attrs fuel (drop (N.to_nat n - 2) r); Some ((t, take (N.to_nat n - 2) r) :: rest)
  | _, _ => None
  end.

Lemma read_body fuel attrs : Forall attr_ok attrs → length (body attrs) ≤ fuel → read_attrs fuel (body attrs) = Some attrs.
Proof.
  intros Ha. revert fuel. induction Ha as [|[t v] attrs (Ht & Hv & Hl) _ IH]; intros fuel Hf; [by destruct fuel|].
  rewrite body_cons in *. rewrite length_app, length_encode in Hf. cbn in Hf, Hl. destruct fuel as [|fuel]; [lia|].
  change (encode_attr (t, v) ++ body attrs) with (t :: N.of_nat (length v + 2) :: v ++ body attrs).
  cbn [read_attrs]. rewrite Nat2N.id, length_app.
  rewrite (proj2 (N.ltb_ge _ _)) by lia. rewrite (proj2 (Nat.ltb_ge _ _)) by lia. cbn.
  replace (length v + 2 - 2) with (length v) by lia. rewrite drop_app_length, take_app_length, IH by lia. done.
Qed.

Lemma read_sound fuel l attrs :
  Forall is_byte l → read_attrs fuel l = Some attrs → l = body attrs ∧ Forall attr_ok attrs.
Proof.
  revert l attrs. induction fuel as [|fuel IH]; intros [|t [|n r]] attrs Hb; cbn; try by intros [= <-].
  destruct (_ || _) eqn:Hn; [done|]. apply orb_false_iff in Hn as [H1%N.ltb_ge H2%Nat.ltb_ge].
  inversion Hb as [|? ? Ht Hb1]; subst. inversion Hb1 as [|? ? Hn Hr]; subst.
  destruct (read_attrs _ _) as [rest|] eqn:E; [|done]. intros [= <-].
  apply IH in E as [E Hok]; [|by apply Forall_drop]. unfold is_byte in Hn.
  assert (length (take (N.to_nat n - 2) r) = N.to_nat n - 2) as Hlen by (rewrite length_take; lia).
  split.
  - rewrite body_cons. unfold encode_attr. cbn. rewrite Hlen, <- E, take_drop.
    by replace (N.of_nat (N.to_nat n - 2 + 2)) with n by lia.
  - constructor; [|done]. split_and!; [done|by apply Forall_take|]. cbn. lia.
Qed.

(** The bytes [parse] looks at from [i] on. *)
Definition window (buf : list N) (len i : nat) : list N := take (len - i) (drop i buf).

Lemma window_cons buf len i x : i < len → buf !! i = Some x → window buf len i = x :: window buf len (S i).
Proof.
  intros Hi Hx. unfold window. rewrite (drop_S buf x i) by done. by replace (len - i) with (S (len - S i)) by lia.
Qed.
Lemma window_drop buf len i n : i + n ≤ len → drop n (window buf len i) = window buf len (i + n).
Proof. intros Hn. unfold window. rewrite skipn_firstn_comm, drop_drop. f_equal. lia. Qed.
Lemma length_window buf len i : len ≤ length buf → length (window buf len i) = len - i.
Proof. intros Hl. unfold window. rewrite length_take, length_drop. lia. Qed.
Lemma slice_window buf len i j : i ≤ j → j ≤ len → len ≤ length buf → slice buf i j = Some (take (j - i) (window buf len i)).
Proof.
  intros Hij Hj Hl. unfold slice, window.
  rewrite (proj2 (Nat.leb_le _ _)), (proj2 (Nat.leb_le _ _)) by lia. cbn. rewrite take_take. do 2 f_equal. lia.
Qed.

(** One turn of either loop: the type and the length byte, or the end. *)
Inductive at_attr (buf : list N) (len i : nat) : Prop :=
| at_end : (i + 2 <=? len) = false → length (window buf len i) < 2 → at_attr buf len i
| at_head t n : (i + 2 <=? len) = true → buf !! i = Some t → buf !! (i + 1) = Some n →
    window buf len i = t :: n :: window buf len (i + 2) → at_attr buf len i.
Lemma at_attr_spec buf len i : len ≤ length buf → i ≤ len → at_attr buf len i.
Proof.
  intros Hl Hi. destruct (i + 2 <=? len) eqn:E.
  - pose proof E as E'. apply Nat.leb_le in E'.
    destruct (lookup_lt_is_Some_2 buf i) as [t Ht]; [lia|].
    destruct (lookup_lt_is_Some_2 buf (i + 1)) as [n Hn]; [lia|].
    apply (at_head _ _ _ t n); [done..|]. rewrite (window_cons _ _ _ t), (window_cons _ _ _ n) by (done || lia || by rewrite Nat.add_1_r in Hn).
    do 3 f_equal. lia.
  - apply at_end; [done|]. rewrite length_window by done. apply Nat.leb_gt in E. lia.
Qed.

Lemma loop_reads buf len fuel i acc :
  len ≤ length buf → i ≤ len → len - i ≤ fuel →
  ∃ res, attr_loop fuel buf len i acc = Some res ∧
    match read_attrs fuel (window buf len i) with
    | Some attrs => res = Some (acc ++ attrs, len)
    | None => ∀ attrs, res ≠ Some (attrs, len)
    end.
Proof.
  intros Hl. revert i acc. induction fuel as [|fuel IH]; intros i acc Hi Hf.
  - assert (i = len) as -> by lia. cbn. rewrite (proj2 (Nat.leb_gt _ _)) by lia. eexists. split; [done|].
    assert (window buf len len = []) as -> by (apply length_zero_iff_nil; rewrite length_window; lia). by rewrite app_nil_r.
  - destruct (at_attr_spec buf len i Hl Hi) as [He Hw|t n He Ht Hn Hw]; cbn [attr_loop]; rewrite He.
    + eexists. split; [done|]. pose proof (length_window buf len i Hl) as Hlen.
      destruct (window buf len i) as [|x [|y r]]; cbn in Hw, Hlen |- *; [|intros attrs [= ? ?]; lia|lia].
      rewrite app_nil_r. do 2 f_equal. lia.
    + rewrite Ht. cbn [mbind option_bind]. rewrite Hn. cbn [fmap option_fmap option_map mbind option_bind].
      rewrite Hw. cbn [read_attrs]. apply Nat.leb_le in He. rewrite length_window by done.
      replace ((n <? 2)%N || (len - (i + 2) + 2 <? N.to_nat n)) with ((N.to_nat n <? 2) || (len <? i + N.to_nat n)).
      2: { f_equal; apply eq_true_iff_eq; rewrite ?N.ltb_lt, ?Nat.ltb_lt; lia. }
      destruct (_ || _) eqn:Hc; [by eexists|]. apply orb_false_iff in Hc as [H1%Nat.ltb_ge H2%Nat.ltb_ge].
      rewrite (slice_window _ len) by lia. cbn [mbind option_bind].
      replace (i + N.to_nat n - (i + 2)) with (N.to_nat n - 2) by lia.
      rewrite window_drop by lia. replace (i + 2 + (N.to_nat n - 2)) with (i + N.to_nat n) by lia.
      destruct (IH (i + N.to_nat n) (acc ++ [(t, take (N.to_nat n - 2) (window buf len (i + 2)))])) as (res & -> & Hres); [lia..|].
      exists res. split; [done|]. destruct (read_attrs fuel _) as [attrs|]; cbn; [|done]. by rewrite Hres, <- app_assoc.
Qed.

(** ** Parsing *)

Lemma header_split (buf : list N) :
  HEADER_LEN ≤ length buf → ∃ c id hi lo auth tail, buf = c :: id :: hi :: lo :: auth ++ tail ∧ length auth = 16.
Proof.
  unfold HEADER_LEN. intros H. destruct buf as [|c [|id [|hi [|lo r]]]]; cbn in H; [lia..|].
  exists c, id, hi, lo, (take 16 r), (drop 16 r). rewrite take_drop, length_take. split; [done|lia].
Qed.

Section header.
Context (c id hi lo : N) (auth tail : list N) (Hauth : length auth = 16).
Let buf := c :: id :: hi :: lo :: auth ++ tail.

Lemma header_length : length buf = HEADER_LEN + length tail.
Proof. cbn. rewrite length_app, Hauth. done. Qed.
Lemma header_auth : slice buf 4 20 = Some auth.
Proof.
  unfold slice. rewrite header_length, (proj2 (Nat.leb_le 4 _)), (proj2 (Nat.leb_le 20 _)) by (unfold HEADER_LEN; lia).
  change (Some (take 16 (auth ++ tail)) = Some auth). by rewrite <- Hauth, take_app_length.
Qed.
Lemma header_window len : window buf len HEADER_LEN = take (len - HEADER_LEN) tail.
Proof. change (take (len - HEADER_LEN) (drop 16 (auth ++ tail)) = take (len - HEADER_LEN) tail). by rewrite <- Hauth, drop_app_length. Qed.
Lemma header_whole len : HEADER_LEN ≤ len → len ≤ length buf →
  slice buf 0 len = Some (c :: id :: hi :: lo :: auth ++ take (len - HEADER_LEN) tail).
Proof.
  intros H1 H2. unfold slice. rewrite (proj2 (Nat.leb_le _ _) H2). cbn [Nat.leb andb]. rewrite Nat.sub_0_r, drop_0.
  unfold HEADER_LEN in *. do 4 (destruct len as [|len]; [lia|]). cbn [firstn buf]. do 5 f_equal.
  rewrite firstn_app, Hauth, take_ge by lia. done.
Qed.
End header.

Lemma u16_round_trip n : (N.of_nat n < 65536)%N → u16_to_be (N.of_nat n) = [N.of_nat n / 256; N.of_nat n mod 256]%N ∧
  u16_from_be (N.of_nat n / 256) (N.of_nat n mod 256) = n.
Proof. intros Hn. split; [done|]. unfold u16_from_be. rewrite (N.mul_comm _ 256), <- N.div_mod'. lia. Qed.
Lemma u16_from_to hi lo : is_byte hi → is_byte lo → u16_to_be (N.of_nat (u16_from_be hi lo)) = [hi; lo].
Proof.
  unfold is_byte, u16_to_be, u16_from_be. intros Hh Hl. rewrite N2Nat.id, N.div_add_l, N.div_small, N.add_0_r by lia.
  rewrite (N.add_comm (hi * 256)), N.Div0.mod_add, N.mod_small by lia. done.
Qed.

Lemma parse_ok_packet p rest : packet_ok p → parse (pk_raw p ++ rest) = Some (Some p).
Proof.
  intros [Hc Hi [Hab Hal] Ha Hs Hr]. destruct p as [c id auth attrs whole].
  cbn [pk_code pk_id pk_authenticator pk_attributes pk_raw] in *. subst whole.
  destruct (u16_round_trip _ Hs) as [Hto Hfrom]. unfold wire. rewrite Hto. cbn [app]. rewrite <- app_assoc.
  set (len := HEADER_LEN + length (body attrs)) in *. unfold parse.
  rewrite (header_length _ _ _ _ _ _ Hal), length_app.
  rewrite (proj2 (Nat.ltb_ge _ _)) by lia. cbn [lookup list_lookup mbind option_bind]. rewrite Hfrom.
  rewrite (proj2 (Nat.ltb_ge _ _)), (proj2 (Nat.ltb_ge _ _)) by lia. cbn [orb].
  rewrite (header_auth _ _ _ _ _ _ Hal). cbn [mbind option_bind].
  destruct (loop_reads (c :: id :: (N.of_nat len / 256)%N :: (N.of_nat len mod 256)%N :: auth ++ body attrs ++ rest) len len
    HEADER_LEN []) as (res & -> & Hres).
  1-3: rewrite ?(header_length _ _ _ _ _ _ Hal), ?length_app; lia.
  rewrite (header_window _ _ _ _ _ _ Hal) in Hres. replace (len - HEADER_LEN) with (length (body attrs)) in Hres by lia.
  rewrite take_app_length, read_body in Hres by (done || lia). subst res. cbn [mbind option_bind app].
  rewrite Nat.eqb_refl. cbn [negb]. rewrite (header_whole _ _ _ _ _ _ Hal).
  - cbn [lookup list_lookup mbind option_bind].
    replace (len - HEADER_LEN) with (length (body attrs)) by lia. by rewrite take_app_length.
  - lia.
  - rewrite (header_length _ _ _ _ _ _ Hal), length_app. lia.
Qed.

Lemma parse_sound buf :
  Forall is_byte buf → ∃ r, parse buf = Some r ∧ ∀ p, r = Some p → packet_ok p ∧ ∃ rest, buf = pk_raw p ++ rest.
Proof.
  intros Hb. unfold parse. destruct (length buf <? HEADER_LEN) eqn:Hlen; [by eexists|]. apply Nat.ltb_ge in Hlen.
  destruct (header_split buf Hlen) as (c & id & hi & lo & auth & tail & -> & Hal). clear Hlen.
  inversion Hb as [|? ? Hc Hb1]; subst. inversion Hb1 as [|? ? Hid Hb2]; subst.
  inversion Hb2 as [|? ? Hhi Hb3]; subst. inversion Hb3 as [|? ? Hlo Hb4]; subst. clear Hb1 Hb2 Hb3.
  apply Forall_app in Hb4 as [Ha Ht]. cbn [lookup list_lookup mbind option_bind].
  set (len := u16_from_be hi lo). destruct (_ || _) eqn:Hn; [by eexists|].
  apply orb_false_iff in Hn as [H1%Nat.ltb_ge H2%Nat.ltb_ge]. rewrite (header_auth _ _ _ _ _ _ Hal). cbn [mbind option_bind].
  destruct (loop_reads (c :: id :: hi :: lo :: auth ++ tail) len len HEADER_LEN []) as (res & -> & Hres); [done|lia..|].
  rewrite (header_window _ _ _ _ _ _ Hal) in Hres. rewrite (header_length _ _ _ _ _ _ Hal) in H2.
  destruct res as [[attrs i]|]; [|by eexists]. cbn [mbind option_bind].
  destruct (Nat.eqb_spec i len) as [-> |]; [|by eexists]. cbn [negb].
  rewrite (header_whole _ _ _ _ _ _ Hal) by (done || rewrite (header_length _ _ _ _ _ _ Hal); lia).
  eexists. split; [done|]. intros p [= <-]. destruct (read_attrs _ _) as [attrs'|] eqn:E; [|by destruct (Hres attrs)].
  injection Hres as ->. apply read_sound in E as [E Hok]; [|by apply Forall_take].
  assert (HEADER_LEN + length (body attrs') = len) as El.
  { rewrite <- E, length_take. lia. }
  split.
  - constructor; cbn [pk_code pk_id pk_authenticator pk_attributes pk_raw]; [done..| |]; rewrite ?El.
    + subst len. unfold u16_from_be, is_byte in *. lia.
    + unfold wire. rewrite El. change (N.of_nat len) with (N.of_nat (u16_from_be hi lo)). rewrite u16_from_to by done. cbn [app]. by rewrite E.
  - exists (drop (len - HEADER_LEN) tail). cbn. by rewrite <- app_assoc, take_drop.
Qed.

(** C17: the parser never panics, and accepts a datagram exactly when it starts
    with a well-formed packet: a header whose length field is the size of the
    packet, then whole attributes up to that length; it returns that packet. *)
Theorem parse_exact buf :
  Forall is_byte buf →
  ∃ r, parse buf = Some r ∧ ∀ p, r = Some p ↔ packet_ok p ∧ ∃ rest, buf = pk_raw p ++ rest.
Proof.
  intros Hb. destruct (parse_sound buf Hb) as (r & Hr & Hs). exists r. split; [done|].
  intros p. split; [apply Hs|]. intros [Hp [rest ->]]. rewrite (parse_ok_packet p rest Hp) in Hr. by injection Hr.
Qed.

(** ** Finding an attribute in the raw bytes *)

(** The first attribute of type [t], with what comes before and after it. *)
Inductive first_attr (t : N) (attrs : list (N * list N)) : option (list (N * list N) * list N * list (N * list N)) → Prop :=
| no_attr : Forall (λ a, a.1 ≠ t) attrs → first_attr t attrs None
| some_attr l v k : attrs = l ++ (t, v) :: k → Forall (λ a, a.1 ≠ t) l → first_attr t attrs (Some (l, v, k)).

Lemma first_attr_cons t a attrs r :
  a.1 ≠ t → first_attr t attrs r →
  first_attr t (a :: attrs) (match r with Some (l, v, k) => Some (a :: l, v, k) | None => None end).
Proof. intros Ha [Hn|l v k -> Hl]; constructor; by try constructor. Qed.
Lemma first_attr_exists t attrs : ∃ r, first_attr t attrs r.
Proof.
  induction attrs as [|[t' v] attrs [r IH]]; [by exists None; constructor|].
  destruct (decide (t' = t)) as [-> |Hne].
  - exists (Some ([], v, attrs)). by apply some_attr.
  - eexists. by apply first_attr_cons.
Qed.
Lemma has_first p t r : first_attr t (pk_attributes p) r → Packet.has p t = bool_decide (is_Some r).
Proof.
  unfold Packet.has. intros [Hn|l v k -> Hl].
  - rewrite bool_decide_eq_false_2 by (by intros [? ?]). induction Hn as [|a attrs Ha _ IH]; cbn; [done|].
    by rewrite (proj2 (N.eqb_neq _ _) Ha), IH.
  - rewrite bool_decide_eq_true_2 by done. rewrite existsb_app. cbn. by rewrite N.eqb_refl, orb_true_r.
Qed.

Lemma locate_loop_spec buf t attrs fuel i :
  Forall attr_ok attrs → window buf (length buf) i = body attrs → i ≤ length buf → length buf - i ≤ fuel →
  ∃ r, first_attr t attrs r ∧
    locate_loop fuel buf t i = Some (match r with Some (l, v, _) => Some (i + length (body l) + 2, v) | None => None end).
Proof.
  intros Ha. revert fuel i. induction Ha as [|[t' v] attrs (Ht & Hv & Hl) Ha IH]; intros fuel i Hw Hi Hf.
  - exists None. split; [by constructor|]. assert (i = length buf) as ->.
    { pose proof (length_window buf (length buf) i) as H. rewrite Hw in H. cbn in H. lia. }
    destruct fuel; cbn; by rewrite (proj2 (Nat.leb_gt _ _)) by lia.
  - pose proof (length_window buf (length buf) i ltac:(done)) as Hlen. rewrite Hw, body_cons, length_app, length_encode in Hlen.
    cbn [snd] in Hl, Hlen. destruct fuel as [|fuel]; [lia|].
    destruct (at_attr_spec buf (length buf) i) as [He Hend|t0 n He Ht0 Hn Hw']; [done|done| |].
    { apply Nat.leb_gt in He. lia. }
    rewrite Hw, body_cons in Hw'.
    change (encode_attr (t', v) ++ body attrs) with (t' :: N.of_nat (length v + 2) :: v ++ body attrs) in Hw'.
    injection Hw' as <- <- Hrest. cbn [locate_loop]. rewrite He, Ht0. cbn [mbind option_bind]. rewrite Hn.
    cbn [fmap option_fmap option_map mbind option_bind]. rewrite Nat2N.id.
    rewrite (proj2 (Nat.ltb_ge _ _)), (proj2 (Nat.ltb_ge _ _)) by lia. cbn [orb].
    destruct (N.eqb_spec t' t) as [-> |Hne].
    + rewrite (slice_window _ (length buf)) by lia. cbn [mbind option_bind]. rewrite <- Hrest.
      replace (i + (length v + 2) - (i + 2)) with (length v) by lia. rewrite take_app_length.
      exists (Some ([], v, attrs)). split; [by apply some_attr|]. do 3 f_equal. cbn. lia.
    + destruct (IH fuel (i + (length v + 2))) as (r & Hr & ->); [|lia..|].
      { replace (i + (length v + 2)) with (i + 2 + length v) by lia. rewrite <- window_drop by lia.
        by rewrite <- Hrest, drop_app_length. }
      eexists. split; [by apply first_attr_cons|]. destruct r as [[[l w] k]|]; [|done].
      rewrite body_cons, length_app, length_encode. cbn [snd]. do 3 f_equal. lia.
Qed.

Lemma length_wire c id auth attrs : length auth = 16 → length (wire c id auth attrs) = HEADER_LEN + length (body attrs).
Proof. intros Ha. unfold wire. rewrite !length_app, Ha. done. Qed.

Lemma locate_packet p t :
  packet_ok p →
  ∃ r, first_attr t (pk_attributes p) r ∧
    locate_attr_value (pk_raw p) t =
      Some (match r with Some (l, v, _) => Some (HEADER_LEN + length (body l) + 2, v) | None => None end).
Proof.
  intros [_ _ [_ Hal] Ha _ Hr]. unfold locate_attr_value. rewrite Hr.
  pose proof (length_wire (pk_code p) (pk_id p) _ (pk_attributes p) Hal) as Hlen.
  apply locate_loop_spec; [done| |lia..]. rewrite Hlen. unfold wire. cbn [app].
  pose proof (header_window (pk_code p) (pk_id p)) as Hw.
  unfold u16_to_be. cbn [app]. rewrite Hw by done. replace (_ + _ - _) with (length (body (pk_attributes p))) by lia.
  by rewrite firstn_all.
Qed.

(** ** Authenticators *)

Lemma copy_at_app a old new b : length old = length new → copy_at (a ++ old ++ b) (length a) new = Some (a ++ new ++ b).
Proof.
  intros Hl. unfold copy_at. rewrite !length_app, (proj2 (Nat.leb_le _ _)) by lia.
  rewrite take_app_length. do 2 f_equal. by rewrite <- Hl, <- drop_drop, !drop_app_length.
Qed.
Lemma constant_time_eq_spec a b : constant_time_eq a b = bool_decide (a = b).
Proof.
  unfold constant_time_eq. destruct (Nat.eqb_spec (length a) (length b)) as [Hl|Hl]; cbn [negb].
  - apply eq_true_iff_eq. by rewrite N.eqb_eq, bool_decide_eq_true, xor_fold_zero.
  - symmetry. apply bool_decide_eq_false_2. by intros ->.
Qed.

(** The packet with the value of one attribute put in place of another of the
    same length, and with another authenticator. *)
Lemma wire_patch c id auth l t v w k :
  length auth = 16 → length v = length w →
  copy_at (wire c id auth (l ++ (t, v) :: k)) (HEADER_LEN + length (body l) + 2) w = Some (wire c id auth (l ++ (t, w) :: k)).
Proof.
  intros Ha Hl.
  assert (∀ x, wire c id auth (l ++ (t, x) :: k) =
    ([c; id] ++ u16_to_be (N.of_nat (HEADER_LEN + length (body l) + (length x + 2 + length (body k)))) ++ auth
      ++ body l ++ [t; N.of_nat (length x + 2)]) ++ x ++ body k) as Hx.
  { intros x. unfold wire. rewrite body_app, body_cons, !length_app, length_encode. unfold encode_attr. cbn [fst snd].
    rewrite <- !app_assoc. by do 3 f_equal. }
  rewrite !Hx, Hl. replace (HEADER_LEN + length (body l) + 2) with (length ([c; id] ++
    u16_to_be (N.of_nat (HEADER_LEN + length (body l) + (length w + 2 + length (body k)))) ++ auth
      ++ body l ++ [t; N.of_nat (length w + 2)])).
  - by apply copy_at_app.
  - rewrite !length_app, Ha. unfold HEADER_LEN. cbn. lia.
Qed.
Lemma wire_auth c id auth auth' attrs :
  length auth = 16 → length auth' = 16 → copy_at (wire c id auth attrs) 4 auth' = Some (wire c id auth' attrs).
Proof. intros H1 H2. apply (copy_at_app (c :: id :: u16_to_be _) auth auth'). congruence. Qed.

Section hashes.
Context (md5 : list N → list N) (hmac_md5 : list N → list N → list N).

(** What RFC 3579 asks of the Message-Authenticator of a packet whose
    authenticator field is [auth]: the first one is the HMAC of the packet with
    that value zeroed. *)
Definition message_authentic (secret auth : list N) (p : Packet) : Prop :=
  ∀ l v k, first_attr ATTR_MESSAGE_AUTHENTICATOR (pk_attributes p) (Some (l, v, k)) →
    length v = 16 ∧
    v = hmac_md5 secret (wire (pk_code p) (pk_id p) auth (l ++ (ATTR_MESSAGE_AUTHENTICATOR, replicate 16 0%N) :: k)).

Lemma first_attr_unique t attrs r r' : first_attr t attrs r → first_attr t attrs r' → r = r'.
Proof.
  assert (∀ l v k l' v' k', l ++ (t, v) :: k = l' ++ (t, v') :: k' →
    Forall (λ a : N * list N, a.1 ≠ t) l → Forall (λ a, a.1 ≠ t) l' → l = l' ∧ v = v' ∧ k = k') as Huniq.
  { induction l as [|a l IH]; intros v k [|a' l'] v' k' E Hl Hl'; cbn in E; injection E as E1 E2.
    - by subst.
    - subst a'. by apply Forall_cons in Hl' as [? _].
    - subst a. by apply Forall_cons in Hl as [? _].
    - subst a'. apply Forall_cons in Hl as [_ Hl], Hl' as [_ Hl'].
      destruct (IH _ _ _ _ _ E2 Hl Hl') as (-> & -> & ->). done. }
  intros [Hn|l v k -> Hl] H'; inversion H' as [Hn'|l' v' k' E Hl']; subst; [done| | |].
  - apply Forall_app in Hn as [_ [Hn _]%Forall_cons]. done.
  - apply Forall_app in Hn' as [_ [Hn _]%Forall_cons]. done.
  - by destruct (Huniq _ _ _ _ _ _ E Hl Hl') as (-> & -> & ->).
Qed.

Lemma verify_message_authenticator_spec p secret :
  packet_ok p →
  ∃ b, Packet.verify_message_authenticator hmac_md5 p secret = Some b ∧
    (b = true ↔ message_authentic secret (pk_authenticator p) p).
Proof.
  intros Hp. unfold Packet.verify_message_authenticator, message_authentic.
  destruct (locate_packet p ATTR_MESSAGE_AUTHENTICATOR Hp) as (r & Hr & ->). cbn [mbind option_bind].
  destruct r as [[[l v] k]|].
  - destruct (Nat.eqb_spec (length v) 16) as [Hv|Hv]; cbn [negb].
    + destruct Hp as [_ _ [_ Hal] _ _ Hraw]. rewrite Hraw. inversion Hr as [|? ? ? Ha Hl]; subst. rewrite Ha.
      rewrite wire_patch by (done || by rewrite length_replicate). cbn [mbind option_bind]. eexists. split; [done|].
      rewrite constant_time_eq_spec, bool_decide_eq_true. rewrite Ha in Hr. split.
      * intros <- l' v' k' H'. by injection (first_attr_unique _ _ _ _ Hr H') as <- <- <-.
      * intros H. symmetry. by apply (H l v k).
    + eexists. split; [done|]. split; [done|]. intros H. destruct (H l v k Hr). congruence.
  - eexists. split; [done|]. split; [|done]. intros _ l v k H'. by pose proof (first_attr_unique _ _ _ _ Hr H').
Qed.

Lemma verify_accounting_authenticator_spec p secret :
  packet_ok p →
  Packet.verify_accounting_authenticator md5 p secret =
    Some (bool_decide (pk_authenticator p =
      md5 (wire (pk_code p) (pk_id p) (replicate 16 0%N) (pk_attributes p) ++ secret))).
Proof.
  intros [_ _ [_ Hal] _ _ Hraw]. unfold Packet.verify_accounting_authenticator. rewrite Hraw, wire_auth by done.
  cbn [mbind option_bind]. f_equal. rewrite constant_time_eq_spec. apply bool_decide_ext. split; congruence.
Qed.

(** What a client checks of a response (RFC 2865, section 3, and RFC 3579). *)
Definition response_authentic (secret request_auth : list N) (p : Packet) : Prop :=
  pk_authenticator p = md5 (wire (pk_code p) (pk_id p) request_auth (pk_attributes p) ++ secret) ∧
  message_authentic secret request_auth p.

Context (Hmd5 : ∀ l, length (md5 l) = 16 ∧ Forall is_byte (md5 l)).
Context (Hhmac : ∀ k l, length (hmac_md5 k l) = 16 ∧ Forall is_byte (hmac_md5 k l)).

Lemma push_attr_spec out a : attr_ok a → push_attr out a.1 a.2 = out ++ encode_attr a.
Proof.
  intros (_ & _ & Hl). unfold push_attr. rewrite (proj2 (Nat.ltb_ge _ _)) by done.
  unfold encode_attr. by rewrite N.mod_small by lia.
Qed.
Lemma push_all_spec attrs out : Forall attr_ok attrs → foldl (λ out a, push_attr out a.1 a.2) out attrs = out ++ body attrs.
Proof.
  intros Ha. revert out. induction Ha as [|a attrs Ha _ IH]; intros out; cbn [foldl]; [by rewrite app_nil_r|].
  by rewrite push_attr_spec, IH, body_cons, app_assoc.
Qed.
Lemma attr_ok_zeros : attr_ok (ATTR_MESSAGE_AUTHENTICATOR, replicate 16 0%N).
Proof. split_and!; [done|by apply Forall_replicate|cbn; lia]. Qed.

(** The packet before the hashes are filled in. *)
Lemma draft_spec c id auth attrs :
  length auth = 16 → (N.of_nat (HEADER_LEN + length (body attrs)) < 65536)%N →
  let out := ([c; id] ++ [0; 0]%N ++ auth) ++ body attrs in
  copy_at out 2 (u16_to_be (N.of_nat (length out) mod 65536)) = Some (wire c id auth attrs).
Proof.
  intros Ha Hs out. assert (length out = HEADER_LEN + length (body attrs)) as Hl.
  { subst out. rewrite !length_app, Ha. done. }
  rewrite Hl, N.mod_small by done. subst out. cbn [app].
  change (c :: id :: 0%N :: 0%N :: auth ++ body attrs) with ([c; id] ++ [0; 0]%N ++ (auth ++ body attrs)).
  change 2 with (length [c; id]). by rewrite copy_at_app.
Qed.

Definition with_tag (attrs : list (N * list N)) (include : bool) (tag : list N) : list (N * list N) :=
  attrs ++ (if include then [(ATTR_MESSAGE_AUTHENTICATOR, tag)] else []).

Lemma build_response_spec c id auth attrs secret include :
  length auth = 16 → Forall attr_ok attrs →
  (N.of_nat (HEADER_LEN + length (body (with_tag attrs include (replicate 16 0%N)))) < 65536)%N →
  let tag := hmac_md5 secret (wire c id auth (with_tag attrs include (replicate 16 0%N))) in
  build_response md5 hmac_md5 c id auth attrs secret include =
    Some (wire c id (md5 (wire c id auth (with_tag attrs include tag) ++ secret)) (with_tag attrs include tag)).
Proof.
  intros Ha Hok Hs tag. unfold build_response. rewrite push_all_spec by done. unfold with_tag in *.
  destruct include.
  - rewrite (push_attr_spec _ (ATTR_MESSAGE_AUTHENTICATOR, replicate 16 0%N)) by apply attr_ok_zeros.
    rewrite body_snoc, draft_spec by done. cbn [mbind option_bind].
    replace (length (([c; id] ++ [0; 0]%N ++ auth) ++ body attrs) + 2) with (HEADER_LEN + length (body attrs) + 2)
      by (rewrite !length_app, Ha; done).
    rewrite wire_patch by (done || rewrite length_replicate; symmetry; apply Hhmac). cbn [mbind option_bind].
    apply wire_auth; [done|apply Hmd5].
  - rewrite app_nil_r in *. rewrite draft_spec by done. cbn [mbind option_bind]. apply wire_auth; [done|apply Hmd5].
Qed.

(** A response parses back to the code, the identifier and the attributes it
    was built from, with a Message-Authenticator exactly when asked for, and a
    client that checks both authenticators against its request accepts it. *)
Theorem response_round_trip c id auth attrs secret include :
  is_byte c → is_byte id → length auth = 16 → Forall attr_ok attrs →
  Forall (λ a, a.1 ≠ ATTR_MESSAGE_AUTHENTICATOR) attrs →
  (N.of_nat (HEADER_LEN + length (body (with_tag attrs include (replicate 16 0%N)))) < 65536)%N →
  ∃ resp p, build_response md5 hmac_md5 c id auth attrs secret include = Some resp ∧
    parse resp = Some (Some p) ∧ pk_code p = c ∧ pk_id p = id ∧
    (∃ tag, length tag = 16 ∧ pk_attributes p = with_tag attrs include tag) ∧
    response_authentic secret auth p.
Proof.
  intros Hc Hid Ha Hok Hno Hs. rewrite build_response_spec by done.
  set (tag := hmac_md5 _ _). set (auth' := md5 _).
  assert (length (body (with_tag attrs include tag)) = length (body (with_tag attrs include (replicate 16 0%N)))) as Hl.
  { unfold with_tag. destruct include; [|done]. rewrite !body_app, !length_app. cbn.
    rewrite app_nil_r. unfold tag. by rewrite (proj1 (Hhmac _ _)). }
  set (p := mkPacket c id auth' (with_tag attrs include tag) (wire c id auth' (with_tag attrs include tag))).
  assert (packet_ok p) as Hp.
  { constructor; cbn [p pk_code pk_id pk_authenticator pk_attributes pk_raw]; [done..|split; apply Hmd5| |by rewrite Hl|done].
    unfold with_tag. apply Forall_app. split; [done|]. destruct include; [|done]. constructor; [|done].
    split_and!; [done|apply Hhmac|]. unfold tag. cbn [snd]. rewrite (proj1 (Hhmac _ _)). lia. }
  exists (pk_raw p), p. split; [done|]. split; [|split_and!].
  - rewrite <- (app_nil_r (pk_raw p)). by apply parse_ok_packet.
  - done.
  - done.
  - exists tag. split; [apply Hhmac|done].
  - split; [done|]. intros l v k Hf. cbn [p pk_attributes] in Hf. unfold with_tag in Hf. destruct include.
    + assert (first_attr ATTR_MESSAGE_AUTHENTICATOR (attrs ++ [(ATTR_MESSAGE_AUTHENTICATOR, tag)]) (Some (attrs, tag, []))) as Hf'
        by by apply some_attr.
      injection (first_attr_unique _ _ _ _ Hf Hf') as -> -> ->. split; [apply Hhmac|done].
    + rewrite app_nil_r in Hf. pose proof (first_attr_unique _ _ _ _ Hf (no_attr _ _ Hno)). done.
Qed.
End hashes.
