(* ===== verification/Ip.v ===== *)
(** * IP addresses and their text ([core::net])

    [IpAddr] as the bits of the address, its [Display] and its [FromStr].  The
    parser is the recursive descent of the standard library: an attempt that
    fails gives back what it read. *)

From Stdlib Require Import NArith Lia.
From stdpp Require Import base list numbers.
From S2P Require Import Prelude.

Inductive IpAddr : Set :=
| IpV4 (bits : N)
| IpV6 (bits : N).
#[export] Instance IpAddr_eq_dec : EqDecision IpAddr.
Proof. solve_decision. Defined.

(** ** Digits of a number in some base, most significant first *)

Fixpoint to_digits (base : N) (n : nat) (a : N) : list N :=
  match n with
  | O => []
  | S n => to_digits base n (a / base) ++ [a mod base]%N
  end.
Definition of_digits (base : N) (l : list N) : N := foldl (λ acc d, acc * base + d)%N 0%N l.

Definition octets (bits : N) : list N := to_digits 256 4 bits.
Definition segments (bits : N) : list N := to_digits 65536 8 bits.

(** ** [Display] *)

Definition fmt_ipv4 (bits : N) : rstr := join #"." (fmt_N <$> octets bits).

(** [{:x}] of a 16-bit number. *)
Fixpoint skip_zeros (l : list N) : list N :=
  match l with
  | 0%N :: ((_ :: _) as r) => skip_zeros r
  | _ => l
  end.
Definition fmt_hex (g : N) : rstr := hex_lower <$> skip_zeros (to_digits 16 4 g).
Definition fmt_subslice (gs : list N) : rstr := join #":" (fmt_hex <$> gs).

(** The first longest run of zero segments: its start and its length. *)
Record Span := mkSpan { sp_start : nat; sp_len : nat }.
Definition zero_step (st : nat * Span * Span) (segment : N) : nat * Span * Span :=
  let '(i, longest, current) := st in
  if (segment =? 0)%N then
    let current := mkSpan (if sp_len current =? 0 then i else sp_start current) (S (sp_len current)) in
    (S i, if sp_len longest <? sp_len current then current else longest, current)
  else (S i, longest, mkSpan 0 0).
Definition longest_zeros (gs : list N) : Span := (foldl zero_step (0, mkSpan 0 0, mkSpan 0 0) gs).1.2.

Definition fmt_ipv6 (bits : N) : rstr :=
  let gs := segments bits in
  match gs with
  | [0; 0; 0; 0; 0; 65535; hi; lo]%N => #"::ffff:" ++ fmt_ipv4 (hi * 65536 + lo)
  | _ =>
      let zeroes := longest_zeros gs in
      if 1 <? sp_len zeroes then
        fmt_subslice (take (sp_start zeroes) gs) ++ #"::" ++ fmt_subslice (drop (sp_start zeroes + sp_len zeroes) gs)
      else fmt_subslice gs
  end.
Definition fmt_ip (a : IpAddr) : rstr :=
  match a with IpV4 bits => fmt_ipv4 bits | IpV6 bits => fmt_ipv6 bits end.

(** ** [FromStr] *)

Definition to_digit (radix : N) (c : char) : option N :=
  let d := if is_ascii_digit c then Some (c - 48)%N
           else if is_ascii_lowercase c then Some (c - 87)%N
           else if is_ascii_uppercase c then Some (c - 55)%N
           else None in
  match d with Some d => if (d <? radix)%N then Some d else None | None => None end.
Fixpoint span_digits (radix : N) (s : rstr) : list N * rstr :=
  match s with
  | [] => ([], [])
  | c :: s' =>
      match to_digit radix c with
      | Some d => let '(ds, rest) := span_digits radix s' in (d :: ds, rest)
      | None => ([], s)
      end
  end.
Definition read_number (radix : N) (max_digits : nat) (allow_zero_prefix : bool) (max : N) (s : rstr) : option (N * rstr) :=
  let '(ds, rest) := span_digits radix s in
  if (length ds =? 0) || (max_digits <? length ds) then None
  else if negb allow_zero_prefix && bool_decide (head ds = Some 0%N) && (1 <? length ds) then None
  else if (of_digits radix ds <=? max)%N then Some (of_digits radix ds, rest) else None.
Definition read_given_char (c : char) (s : rstr) : option rstr :=
  match s with x :: s' => if (x =? c)%N then Some s' else None | [] => None end.
(** The separator comes before every item but the first. *)
Definition read_separator {A} (sep : char) (first : bool) (f : rstr → option (A * rstr)) (s : rstr) : option (A * rstr) :=
  if first then f s else s ← read_given_char sep s; f s.

Definition read_octet (first : bool) : rstr → option (N * rstr) :=
  read_separator $"." first (read_number 10 3 false 255).
Definition read_ipv4_addr (s : rstr) : option (N * rstr) :=
  '(a, s) ← read_octet true s;
  '(b, s) ← read_octet false s;
  '(c, s) ← read_octet false s;
  '(d, s) ← read_octet false s;
  Some (of_digits 256 [a; b; c; d], s).

(** Up to [n] groups: those read, whether the last two were an embedded IPv4
    address, and the rest. *)
Fixpoint read_groups (n : nat) (first : bool) (s : rstr) : list N * bool * rstr :=
  match n with
  | O => ([], false, s)
  | S n =>
      match if 1 <=? n then read_separator $":" first read_ipv4_addr s else None with
      | Some (v4, rest) => ([v4 / 65536; v4 mod 65536]%N, true, rest)
      | None =>
          match read_separator $":" first (read_number 16 4 true 65535) s with
          | Some (g, rest) => let '(gs, ipv4, rest) := read_groups n false rest in (g :: gs, ipv4, rest)
          | None => ([], false, s)
          end
      end
  end.
Definition read_ipv6_addr (s : rstr) : option (N * rstr) :=
  let '(head, head_ipv4, s) := read_groups 8 true s in
  if length head =? 8 then Some (of_digits 65536 head, s)
  else if head_ipv4 then None
  else
    s ← read_given_char $":" s;
    s ← read_given_char $":" s;
    let '(tail, _, s) := read_groups (8 - (length head + 1)) true s in
    Some (of_digits 65536 (head ++ replicate (8 - length head - length tail) 0%N ++ tail), s).
Definition read_ip_addr (s : rstr) : option (IpAddr * rstr) :=
  match read_ipv4_addr s with
  | Some (a, s) => Some (IpV4 a, s)
  | None => '(a, s) ← read_ipv6_addr s; Some (IpV6 a, s)
  end.
Definition parse_ip (s : rstr) : option IpAddr :=
  match read_ip_addr s with Some (a, []) => Some a | _ => None end.

(** ** The text of an address parses back to it *)


(** ** Digits *)

Lemma of_digits_snoc base l d : of_digits base (l ++ [d]) = (of_digits base l * base + d)%N.
Proof. unfold of_digits. by rewrite foldl_app. Qed.
Lemma length_to_digits base n a : length (to_digits base n a) = n.
Proof. revert a. induction n as [|n IH]; intros a; cbn; [done|]. rewrite length_app, IH. cbn. lia. Qed.
Lemma to_digits_below base n a : base ≠ 0%N → Forall (λ d, (d < base)%N) (to_digits base n a).
Proof.
  intros Hb. revert a. induction n as [|n IH]; intros a; cbn; [done|]. apply Forall_app. split; [apply IH|].
  constructor; [|done]. by apply N.mod_lt.
Qed.
Lemma of_to_digits base n a : base ≠ 0%N → (a < base ^ N.of_nat n)%N → of_digits base (to_digits base n a) = a.
Proof.
  intros Hb. revert a. induction n as [|n IH]; intros a Ha; [cbn in *; lia|].
  cbn [to_digits]. rewrite Nat2N.inj_succ, N.pow_succ_r' in Ha. rewrite of_digits_snoc, IH by (by apply N.Div0.div_lt_upper_bound).
  rewrite (N.mul_comm _ base). symmetry. apply N.div_mod'.
Qed.
Lemma of_digits_shift base l acc :
  foldl (λ a d, a * base + d)%N acc l = (acc * base ^ N.of_nat (length l) + of_digits base l)%N.
Proof.
  unfold of_digits. revert acc. induction l as [|d l IH]; intros acc; cbn [foldl length]; [cbn; lia|].
  rewrite IH, (IH (0 * base + d)%N), Nat2N.inj_succ, N.pow_succ_r'. lia.
Qed.
Lemma of_digits_cons base d l : of_digits base (d :: l) = (d * base ^ N.of_nat (length l) + of_digits base l)%N.
Proof. unfold of_digits at 1. cbn [foldl]. rewrite of_digits_shift. f_equal. Qed.
Lemma to_of_digits base l : base ≠ 0%N → Forall (λ d, (d < base)%N) l → to_digits base (length l) (of_digits base l) = l.
Proof.
  intros Hb. induction l as [|d l IH] using rev_ind; [done|]. intros [Hl [Hd _]%Forall_cons]%Forall_app.
  rewrite length_app, Nat.add_1_r, of_digits_snoc. cbn [to_digits].
  rewrite N.div_add_l, N.div_small, N.add_0_r, IH by done. by rewrite N.add_comm, N.Div0.mod_add, N.mod_small.
Qed.
Lemma of_digits_below base l :
  base ≠ 0%N → Forall (λ d, (d < base)%N) l → (of_digits base l < base ^ N.of_nat (length l))%N.
Proof.
  intros Hb. induction l as [|d l IH] using rev_ind; [cbn; lia|]. intros [Hl%IH [Hd _]%Forall_cons]%Forall_app.
  rewrite length_app, Nat.add_1_r, of_digits_snoc, Nat2N.inj_succ, N.pow_succ_r'.
  assert (of_digits base l + 1 <= base ^ N.of_nat (length l))%N as H by lia.
  apply (N.mul_le_mono_r _ _ base) in H. lia.
Qed.

(** ** Reading printed numbers *)

Definition no_digit (radix : N) (s : rstr) : Prop := match s with c :: _ => to_digit radix c = None | [] => True end.

Lemma span_app radix s ds rest : span_digits radix s = (ds, []) → no_digit radix rest → span_digits radix (s ++ rest) = (ds, rest).
Proof.
  revert ds. induction s as [|c s IH]; intros ds; cbn [span_digits app].
  - intros [= <-] Hr. destruct rest as [|c rest]; cbn in *; [done|]. by rewrite Hr.
  - destruct (to_digit radix c); [|done]. destruct (span_digits radix s) as [ds' r] eqn:E. intros [= <- ->] Hr. by rewrite (IH ds').
Qed.
Lemma read_number_app radix n z max s ds rest :
  span_digits radix s = (ds, []) → no_digit radix rest →
  read_number radix n z max (s ++ rest) = (λ v, (v.1, rest)) <$> read_number radix n z max s.
Proof.
  intros Hs Hr. unfold read_number. rewrite (span_app _ _ _ _ Hs Hr), Hs.
  destruct (_ || _); [done|]. destruct (_ && _); [done|]. by destruct (_ <=? _)%N.
Qed.

Definition octet_text_ok (b : N) : bool :=
  bool_decide (read_number 10 3 false 255 (fmt_N b) = Some (b, [])) && bool_decide ((span_digits 10 (fmt_N b)).2 = []).
Lemma octet_texts_ok : forallb octet_text_ok (N.of_nat <$> seq 0 256) = true.
Proof. vm_compute. reflexivity. Qed.
Lemma octet_text b : (b < 256)%N → octet_text_ok b = true.
Proof.
  intros Hb. eapply (proj1 (forallb_forall _ _)); [exact octet_texts_ok|]. apply list_elem_of_In, list_elem_of_fmap.
  exists (N.to_nat b). split; [lia|]. apply elem_of_seq. lia.
Qed.
Lemma read_octet_text b rest :
  (b < 256)%N → no_digit 10 rest → read_number 10 3 false 255 (fmt_N b ++ rest) = Some (b, rest).
Proof.
  intros Hb Hr. pose proof (octet_text b Hb) as H. apply andb_true_iff in H as [H1%bool_decide_eq_true H2%bool_decide_eq_true].
  destruct (span_digits 10 (fmt_N b)) as [ds r] eqn:E. cbn in H2. subst r. by rewrite (read_number_app _ _ _ _ _ _ _ E Hr), H1.
Qed.

Lemma span_hex ds : Forall (λ d, (d < 16)%N) ds → span_digits 16 (hex_lower <$> ds) = (ds, []).
Proof.
  induction 1 as [|d ds Hd _ IH]; [done|]. cbn [fmap list_fmap span_digits].
  assert (to_digit 16 (hex_lower d) = Some d) as ->.
  { assert (d ∈ N.of_nat <$> seq 0 16) as Hin
      by (apply list_elem_of_fmap; exists (N.to_nat d); split; [lia|apply elem_of_seq; lia]).
    cbn in Hin. repeat (apply elem_of_cons in Hin as [-> |Hin]; [reflexivity|]). by apply not_elem_of_nil in Hin. }
  by rewrite IH.
Qed.
Lemma skip_zeros_spec l :
  l ≠ [] → ∃ k, l = replicate k 0%N ++ skip_zeros l ∧ skip_zeros l ≠ [].
Proof.
  induction l as [|d l IH]; [done|]. intros _. destruct d as [|d]; [|by exists 0].
  destruct l as [|e l]; [by exists 0|]. destruct IH as (k & E & Hk); [done|]. exists (S k). split; [|done].
  cbn [replicate app]. f_equal. exact E.
Qed.
Lemma of_digits_zeros base k l : of_digits base (replicate k 0%N ++ l) = of_digits base l.
Proof. induction k as [|k IH]; [done|]. cbn [replicate app]. rewrite of_digits_cons, IH. lia. Qed.

Lemma read_group_text g rest :
  (g < 65536)%N → no_digit 16 rest → read_number 16 4 true 65535 (fmt_hex g ++ rest) = Some (g, rest).
Proof.
  intros Hg Hr. unfold fmt_hex. pose proof (length_to_digits 16 4 g) as Hlen.
  pose proof (to_digits_below 16 4 g ltac:(done)) as Hb. pose proof (of_to_digits 16 4 g ltac:(done) Hg) as Hv.
  destruct (skip_zeros_spec (to_digits 16 4 g)) as (k & E & Hne); [by destruct (to_digits 16 4 g)|].
  rewrite E in Hlen, Hb, Hv. apply Forall_app in Hb as [_ Hb]. rewrite of_digits_zeros in Hv. rewrite length_app in Hlen.
  rewrite (read_number_app _ _ _ _ _ _ _ (span_hex _ Hb) Hr). unfold read_number. rewrite (span_hex _ Hb), Hv.
  rewrite (proj2 (Nat.eqb_neq _ _)) by (by destruct (skip_zeros _)).
  rewrite (proj2 (Nat.ltb_ge _ _)) by lia. cbn [orb negb andb]. rewrite (proj2 (N.leb_le _ _)) by lia. done.
Qed.

(** ** IPv4 *)

Lemma octets_of bits : (bits < 2 ^ 32)%N → ∃ a b c d, octets bits = [a; b; c; d] ∧ of_digits 256 [a; b; c; d] = bits ∧
  Forall (λ x, (x < 256)%N) [a; b; c; d].
Proof.
  intros Hb. pose proof (length_to_digits 256 4 bits) as Hl. pose proof (of_to_digits 256 4 bits ltac:(done) Hb) as Ho.
  pose proof (to_digits_below 256 4 bits ltac:(done)) as Hd. fold (octets bits) in *.
  destruct (octets bits) as [|a [|b [|c [|d [|]]]]]; try done. by exists a, b, c, d.
Qed.

Lemma read_next_octet b rest :
  (b < 256)%N → no_digit 10 rest → read_octet false (#"." ++ fmt_N b ++ rest) = Some (b, rest).
Proof. apply read_octet_text. Qed.

Lemma read_ipv4_text bits rest :
  (bits < 2 ^ 32)%N → no_digit 10 rest → read_ipv4_addr (fmt_ipv4 bits ++ rest) = Some (bits, rest).
Proof.
  intros Hb Hr. destruct (octets_of bits Hb) as (a & b & c & d & E & <- & Hd). unfold fmt_ipv4. rewrite E.
  repeat (apply Forall_cons in Hd as [? Hd]). cbn [fmap list_fmap join]. rewrite <- !app_assoc.
  unfold read_ipv4_addr. assert (read_octet true = read_number 10 3 false 255) as -> by done.
  rewrite read_octet_text by done. cbn [mbind option_bind].
  do 3 (rewrite read_next_octet by done; cbn [mbind option_bind]). done.
Qed.

Lemma read_number_suffix radix n z max s v rest : read_number radix n z max s = Some (v, rest) → rest `suffix_of` s.
Proof.
  unfold read_number. destruct (span_digits radix s) as [ds r] eqn:E. destruct (_ || _); [done|]. destruct (_ && _); [done|].
  destruct (_ <=? _)%N; [|done]. intros [= _ ->]. revert ds E. induction s as [|c s IH]; intros ds; cbn.
  - by intros [= _ <-].
  - destruct (to_digit radix c); [|by intros [= _ <-]]. destruct (span_digits radix s) as [ds' r'] eqn:E'.
    intros [= _ ->]. by eapply suffix_cons_r, IH.
Qed.
Lemma read_ipv4_needs_dot s : $"." ∉ s → read_ipv4_addr s = None.
Proof.
  intros Hs. unfold read_ipv4_addr. destruct (read_octet true s) as [[a r]|] eqn:E; [|done]. cbn [mbind option_bind].
  unfold read_octet, read_separator in E |- *. apply read_number_suffix in E as [k ->].
  destruct r as [|x r]; [done|]. cbn. destruct (N.eqb_spec x $".") as [-> |]; [|done].
  destruct Hs. apply elem_of_app. right. apply list_elem_of_here.
Qed.

(** ** IPv6 *)

(** Groups the way [Display] writes them, with or without a separator first. *)
Definition grouped (first : bool) (gs : list N) : rstr :=
  if first then fmt_subslice gs else concat ((λ g, #":" ++ fmt_hex g) <$> gs).

Lemma grouped_cons first g gs : grouped first (g :: gs) = (if first then [] else #":") ++ fmt_hex g ++ grouped false gs.
Proof.
  unfold grouped, fmt_subslice. destruct first; cbn [fmap list_fmap concat app]; [|by rewrite app_assoc].
  revert g. induction gs as [|g' gs IH]; intros g; [cbn; by rewrite app_nil_r|].
  cbn [fmap list_fmap concat]. rewrite <- app_assoc, <- IH. done.
Qed.

Lemma hex_not_sep g c : (g < 65536)%N → c ∈ fmt_hex g → is_Some (to_digit 16 c).
Proof.
  intros Hg Hc. unfold fmt_hex in Hc. apply list_elem_of_fmap in Hc as (d & -> & Hd).
  assert (d < 16)%N as Hlt.
  { destruct (skip_zeros_spec (to_digits 16 4 g)) as (k & E & _); [by destruct (to_digits 16 4 g) eqn:E; [pose proof (length_to_digits 16 4 g); rewrite E in *|]|].
    pose proof (to_digits_below 16 4 g ltac:(done)) as Hb. rewrite E in Hb. apply Forall_app in Hb as [_ Hb].
    rewrite Forall_forall in Hb. by apply Hb. }
  pose proof (span_hex [d] ltac:(by constructor)) as H. cbn in H. by destruct (to_digit 16 (hex_lower d)).
Qed.
Lemma grouped_no_dot first gs : Forall (λ g, (g < 65536)%N) gs → $"." ∉ grouped first gs.
Proof.
  intros Hg. revert first. induction Hg as [|g gs Hg _ IH]; intros first; [by destruct first; apply not_elem_of_nil|].
  rewrite grouped_cons. rewrite !not_elem_of_app. split_and!; [| |apply IH].
  - destruct first; [apply not_elem_of_nil|]. intros H%list_elem_of_singleton. done.
  - intros H. by destruct (hex_not_sep g _ Hg H).
Qed.

(** Where the groups end: at the end of the text or at a double colon. *)
Definition groups_end (rest : rstr) : Prop := rest = [] ∨ ∃ r, rest = $":" :: $":" :: r.

Lemma read_groups_text n first gs rest :
  Forall (λ g, (g < 65536)%N) gs → length gs ≤ n → groups_end rest → $"." ∉ rest →
  read_groups n first (grouped first gs ++ rest) = (gs, false, rest).
Proof.
  intros Hg. revert n first. induction Hg as [|g gs Hg Hgs IH]; intros n first Hn He Hd.
  - assert (grouped first [] = []) as -> by by destruct first. cbn [app]. destruct n as [|n]; [done|]. cbn [read_groups].
    assert (read_separator $":" first read_ipv4_addr rest = None) as ->.
    { unfold read_separator. destruct first; [by apply read_ipv4_needs_dot|]. destruct He as [-> |[r ->]]; [done|].
      apply read_ipv4_needs_dot. intros H. apply Hd. by apply list_elem_of_further. }
    destruct (1 <=? n); (destruct He as [-> |[r ->]]; [by destruct first|by destruct first]).
  - destruct n as [|n]; [cbn in Hn; lia|]. cbn [read_groups].
    assert ($"." ∉ grouped first (g :: gs) ++ rest) as Hdot.
    { apply not_elem_of_app. split; [|done]. apply grouped_no_dot. by constructor. }
    assert (read_separator $":" first read_ipv4_addr (grouped first (g :: gs) ++ rest) = None) as ->.
    { unfold read_separator. destruct first; [by apply read_ipv4_needs_dot|]. rewrite grouped_cons in *.
      change (#":") with [$":"] in *. cbn [app] in *. cbn. apply read_ipv4_needs_dot. intros H. apply Hdot.
      by apply list_elem_of_further. }
    assert (read_separator $":" first (read_number 16 4 true 65535) (grouped first (g :: gs) ++ rest)
      = Some (g, grouped false gs ++ rest)) as ->.
    { rewrite grouped_cons, <- !app_assoc. unfold read_separator.
      assert (no_digit 16 (grouped false gs ++ rest)) as Hno.
      { destruct gs as [|g' gs]; [|by rewrite grouped_cons]. cbn. by destruct He as [-> |[r ->]]. }
      destruct first; [by apply read_group_text|]. change (#":") with [$":"]. cbn. by apply read_group_text. }
    rewrite IH by (done || cbn in Hn; lia). by destruct (1 <=? n).
Qed.

Definition zero_run (gs : list N) (sp : Span) : Prop :=
  ∃ pre post, gs = pre ++ replicate (sp_len sp) 0%N ++ post ∧ (sp_len sp ≠ 0 → length pre = sp_start sp).
Lemma zero_run_empty gs k : zero_run gs (mkSpan k 0).
Proof. by exists gs, []; rewrite app_nil_r. Qed.
Lemma zero_run_snoc gs sp x : zero_run gs sp → zero_run (gs ++ [x]) sp.
Proof. intros (pre & post & -> & H). exists pre, (post ++ [x]). by rewrite <- !app_assoc. Qed.

(** The current run ends where the loop is. *)
Definition current_run (gs : list N) (sp : Span) : Prop :=
  sp_len sp ≠ 0 → ∃ pre, gs = pre ++ replicate (sp_len sp) 0%N ∧ length pre = sp_start sp.

Lemma zero_step_runs gs :
  ∃ longest current, foldl zero_step (0, mkSpan 0 0, mkSpan 0 0) gs = (length gs, longest, current) ∧
    zero_run gs longest ∧ current_run gs current.
Proof.
  induction gs as [|x gs (longest & current & E & Hl & Hc)] using rev_ind.
  { exists (mkSpan 0 0), (mkSpan 0 0). split_and!; [done|apply zero_run_empty|by intros []]. }
  rewrite foldl_app, E. cbn [foldl zero_step]. rewrite length_app, Nat.add_1_r. destruct (N.eqb_spec x 0) as [-> |].
  - set (cur := mkSpan _ _).
    assert (current_run (gs ++ [0%N]) cur) as Hcur.
    { intros _. subst cur. cbn [sp_start sp_len]. destruct (Nat.eqb_spec (sp_len current) 0) as [E0|E0].
      - exists gs. by rewrite E0.
      - destruct (Hc E0) as (pre & -> & <-). exists pre. by rewrite <- app_assoc, replicate_S_end. }
    eexists _, cur. split; [done|]. split; [|done]. destruct (_ <? _); [|by apply zero_run_snoc].
    destruct Hcur as (pre & -> & H); [done|]. exists pre, []. by rewrite app_nil_r.
  - eexists _, _. split_and!; [done|by apply zero_run_snoc|by intros []].
Qed.
Lemma longest_zeros_run gs : zero_run gs (longest_zeros gs).
Proof. unfold longest_zeros. destruct (zero_step_runs gs) as (l & c & -> & H & _). exact H. Qed.

Lemma read_char_same c s : read_given_char c (c :: s) = Some s.
Proof. cbn. by rewrite N.eqb_refl. Qed.

Lemma read_ipv6_pair head n tail :
  Forall (λ g, (g < 65536)%N) head → Forall (λ g, (g < 65536)%N) tail → length head + S n + length tail = 8 →
  read_ipv6_addr (fmt_subslice head ++ #"::" ++ fmt_subslice tail) =
    Some (of_digits 65536 (head ++ replicate (S n) 0%N ++ tail), []).
Proof.
  intros Hh Ht Hn. unfold read_ipv6_addr. change (fmt_subslice head) with (grouped true head).
  rewrite (read_groups_text 8 true head (#"::" ++ fmt_subslice tail)); [|done|lia|right; by eexists|].
  2: { apply not_elem_of_app. split; [|by apply (grouped_no_dot true)]. by vm_compute; intros H; repeat (apply elem_of_cons in H as [H|H]; [done|]); apply not_elem_of_nil in H. }
  rewrite (proj2 (Nat.eqb_neq _ _)) by lia. change (#"::") with [$":"; $":"]. cbn [app].
  rewrite !read_char_same. cbn [mbind option_bind]. rewrite read_char_same. cbn [mbind option_bind].
  rewrite <- (app_nil_r (fmt_subslice tail)). change (fmt_subslice tail) with (grouped true tail).
  rewrite (read_groups_text _ true tail []); [|done|lia|by left|by apply not_elem_of_nil].
  by replace (8 - length head - length tail) with (S n) by lia.
Qed.
Lemma read_ipv6_full gs : Forall (λ g, (g < 65536)%N) gs → length gs = 8 → read_ipv6_addr (fmt_subslice gs) = Some (of_digits 65536 gs, []).
Proof.
  intros Hg Hl. unfold read_ipv6_addr. rewrite <- (app_nil_r (fmt_subslice gs)). change (fmt_subslice gs) with (grouped true gs).
  rewrite (read_groups_text 8 true gs []); [|done|lia|by left|by apply not_elem_of_nil]. by rewrite Hl.
Qed.

Lemma read_ipv6_mapped v : (v < 2 ^ 32)%N →
  read_ipv6_addr (#"::ffff:" ++ fmt_ipv4 v) = Some (of_digits 65536 [0; 0; 0; 0; 0; 65535; v / 65536; v mod 65536]%N, []).
Proof.
  intros Hv. unfold read_ipv6_addr.
  assert (read_groups 8 true (#"::ffff:" ++ fmt_ipv4 v) = ([], false, #"::ffff:" ++ fmt_ipv4 v)) as -> by done.
  assert (read_groups 7 true (#"ffff:" ++ fmt_ipv4 v) = ([65535; v / 65536; v mod 65536]%N, true, [])) as Ht.
  2: { change (#"::ffff:" ++ fmt_ipv4 v) with ($":" :: $":" :: #"ffff:" ++ fmt_ipv4 v).
       cbn [length Nat.eqb]. rewrite !read_char_same. cbn [mbind option_bind]. rewrite read_char_same. cbn [mbind option_bind].
       change (8 - (0 + 1)) with 7. by rewrite Ht. }
  change (read_groups 7 true (#"ffff:" ++ fmt_ipv4 v)) with
    (let '(gs, ipv4, rest) := read_groups 6 false (#":" ++ fmt_ipv4 v) in (65535%N :: gs, ipv4, rest)).
  assert (read_separator $":" false read_ipv4_addr (#":" ++ fmt_ipv4 v) = Some (v, [])) as E.
  { change (read_ipv4_addr (fmt_ipv4 v) = Some (v, [])). rewrite <- (app_nil_r (fmt_ipv4 v)). by apply read_ipv4_text. }
  cbn [read_groups]. change (1 <=? 5) with true. by rewrite E.
Qed.

(** ** The round trip *)

Definition ip_width (a : IpAddr) : N := match a with IpV4 _ => 32 | IpV6 _ => 128 end.
Definition ip_bits (a : IpAddr) : N := match a with IpV4 b | IpV6 b => b end.
Definition ip_ok (a : IpAddr) : Prop := (ip_bits a < 2 ^ ip_width a)%N.

Lemma segments_ok bits : (bits < 2 ^ 128)%N →
  length (segments bits) = 8 ∧ Forall (λ g, (g < 65536)%N) (segments bits) ∧ of_digits 65536 (segments bits) = bits.
Proof. intros Hb. split_and!; [apply length_to_digits|by apply to_digits_below|by apply of_to_digits]. Qed.

Lemma read_ipv6_text bits : (bits < 2 ^ 128)%N → read_ipv6_addr (fmt_ipv6 bits) = Some (bits, []).
Proof.
  intros Hb. destruct (segments_ok bits Hb) as (Hl & Hg & Hv).
  assert (fmt_ipv6 bits = (if 1 <? sp_len (longest_zeros (segments bits)) then
      fmt_subslice (take (sp_start (longest_zeros (segments bits))) (segments bits)) ++ #"::" ++
      fmt_subslice (drop (sp_start (longest_zeros (segments bits)) + sp_len (longest_zeros (segments bits))) (segments bits))
      else fmt_subslice (segments bits)) ∨
    ∃ hi lo, segments bits = [0; 0; 0; 0; 0; 65535; hi; lo]%N ∧ fmt_ipv6 bits = #"::ffff:" ++ fmt_ipv4 (hi * 65536 + lo)) as [-> |(hi & lo & E & ->)].
  { unfold fmt_ipv6. repeat case_match; (by left) || (right; by eauto). }
  - destruct (Nat.ltb_spec 1 (sp_len (longest_zeros (segments bits)))) as [Hz|Hz].
    + destruct (longest_zeros_run (segments bits)) as (pre & post & E & Hpre). specialize (Hpre ltac:(lia)).
      set (z := longest_zeros (segments bits)) in *. rewrite <- Hpre, E, take_app_length.
      assert (drop (length pre + sp_len z) (pre ++ replicate (sp_len z) 0%N ++ post) = post) as ->.
      { rewrite <- drop_drop, drop_app_length. replace (sp_len z) with (length (replicate (sp_len z) 0%N)) at 1
          by by rewrite length_replicate. apply drop_app_length. }
      rewrite E in Hg. apply Forall_app in Hg as [H1 [_ H2]%Forall_app].
      rewrite E, !length_app, length_replicate in Hl. rewrite (read_ipv6_pair pre (pred (sp_len z)) post) by (done || lia).
      rewrite Nat.succ_pred by lia. by rewrite <- E, Hv.
    + rewrite read_ipv6_full by done. by rewrite Hv.
  - rewrite E in Hg, Hv. do 6 (apply Forall_cons in Hg as [_ Hg]). apply Forall_cons in Hg as [Hhi [Hlo _]%Forall_cons].
    rewrite read_ipv6_mapped by (change (2 ^ 32)%N with (65536 * 65536)%N; nia).
    rewrite N.div_add_l, (N.div_small lo), N.add_0_r by done. rewrite (N.add_comm (hi * 65536)), N.Div0.mod_add, N.mod_small by done.
    by rewrite Hv.
Qed.

(** A printed IPv6 address is not read as an IPv4 one. *)
Lemma read_ipv4_not_v6 bits : (bits < 2 ^ 128)%N → read_ipv4_addr (fmt_ipv6 bits) = None.
Proof.
  intros Hb. destruct (segments_ok bits Hb) as (Hl & Hg & _). unfold fmt_ipv6. repeat case_match; try done.
  all: apply read_ipv4_needs_dot.
  all: rewrite ?not_elem_of_app; split_and?; try (apply (grouped_no_dot true); by try apply Forall_take; try apply Forall_drop).
  all: by vm_compute; intros HH; repeat (apply elem_of_cons in HH as [HH|HH]; [done|]); apply not_elem_of_nil in HH.
Qed.

Lemma parse_fmt_ip a : ip_ok a → parse_ip (fmt_ip a) = Some a.
Proof.
  intros Ha. unfold parse_ip, read_ip_addr. destruct a as [bits|bits]; cbn [fmt_ip].
  - rewrite <- (app_nil_r (fmt_ipv4 bits)), read_ipv4_text by done. done.
  - rewrite read_ipv4_not_v6 by done. by rewrite read_ipv6_text.
Qed.
Lemma fmt_ip_inj a b : ip_ok a → ip_ok b → fmt_ip a = fmt_ip b → a = b.
Proof. intros Ha Hb E. apply parse_fmt_ip in Ha, Hb. congruence. Qed.

(** ** What the parser accepts *)

Definition ip_char (c : char) : bool := is_ascii_hexdigit c || char_mem c [$"."; $":"].

(** A reader yields an item in [P] and has consumed a piece of the text of an
    address. *)
Definition reads {A} (P : A → Prop) (f : rstr → option (A * rstr)) : Prop :=
  ∀ s x rest, f s = Some (x, rest) → P x ∧ ∃ t, s = t ++ rest ∧ t ≠ [] ∧ forallb ip_char t = true.

Lemma to_digit_char radix c d : (radix <= 16)%N → to_digit radix c = Some d → (d < radix)%N ∧ ip_char c = true.
Proof.
  unfold to_digit. intros Hr H. destruct (is_ascii_digit c) eqn:E1; [|destruct (is_ascii_lowercase c) eqn:E2;
    [|destruct (is_ascii_uppercase c) eqn:E3; [|done]]].
  all: destruct (_ <? _)%N eqn:Hd in H; [|done]; injection H as <-; apply N.ltb_lt in Hd; split; [done|].
  all: unfold ip_char, is_ascii_hexdigit, in_range, is_ascii_lowercase, is_ascii_uppercase, is_ascii_digit, in_range in *.
  all: repeat match goal with H : _ && _ = true |- _ => apply andb_true_iff in H as [?%N.leb_le ?%N.leb_le] end.
  all: apply orb_true_iff; left; rewrite !orb_true_iff, !andb_true_iff, !N.leb_le; lia.
Qed.
Lemma read_number_reads radix n z max : (0 < radix <= 16)%N → reads (λ v, (v <= max)%N) (read_number radix n z max).
Proof.
  intros Hr s v rest. unfold read_number. destruct (span_digits radix s) as [ds r] eqn:E.
  destruct (length ds =? 0) eqn:Hn; [done|]. cbn [orb]. apply Nat.eqb_neq in Hn. destruct (_ <? _); [done|]. destruct (_ && _); [done|].
  destruct (_ <=? _)%N eqn:Hv; [|done]. intros [= <- <-]. apply N.leb_le in Hv. split; [done|].
  assert (∃ t, s = t ++ r ∧ length t = length ds ∧ forallb ip_char t = true) as (t & -> & Hl & Ht).
  { clear Hn Hv. revert ds E. induction s as [|c s IH]; intros ds; cbn; [intros [= <- <-]; by exists []|].
    destruct (to_digit radix c) as [d|] eqn:Ed; [|intros [= <- <-]; by exists []].
    destruct (span_digits radix s) as [ds' r'] eqn:E'. intros [= <- <-]. destruct (IH ds') as (t & -> & Hl & Ht); [done|].
    exists (c :: t). cbn. rewrite Hl, Ht. apply to_digit_char in Ed as [_ ->]; [done|lia]. }
  exists t. split_and!; [done| |done]. intros ->. cbn in Hl. lia.
Qed.
Lemma reads_separator {A} (P : A → Prop) sep first f : ip_char sep = true → reads P f → reads P (read_separator sep first f).
Proof.
  intros Hs Hf s x rest. unfold read_separator. destruct first; [apply Hf|]. destruct s as [|c s]; [done|]. cbn.
  destruct (N.eqb_spec c sep) as [-> |]; [|done]. intros (HP & t & -> & Ht & Hc)%Hf. split; [done|].
  exists (sep :: t). cbn. by rewrite Hs, Hc.
Qed.
Lemma read_ipv4_reads : reads (λ v, (v < 2 ^ 32)%N) read_ipv4_addr.
Proof.
  assert (∀ first, reads (λ v, (v <= 255)%N) (read_octet first)) as Ho
    by (intros first; by apply reads_separator, read_number_reads).
  intros s v rest. unfold read_ipv4_addr.
  destruct (read_octet true s) as [[a s1]|] eqn:E1; [|done]. apply Ho in E1 as (Ha & t1 & -> & Hn & H1). cbn [mbind option_bind].
  destruct (read_octet false s1) as [[b s2]|] eqn:E2; [|done]. apply Ho in E2 as (Hb & t2 & -> & _ & H2). cbn [mbind option_bind].
  destruct (read_octet false s2) as [[c s3]|] eqn:E3; [|done]. apply Ho in E3 as (Hc & t3 & -> & _ & H3). cbn [mbind option_bind].
  destruct (read_octet false s3) as [[d s4]|] eqn:E4; [|done]. apply Ho in E4 as (Hd & t4 & -> & _ & H4). cbn [mbind option_bind].
  intros [= <- <-]. split.
  - apply (of_digits_below 256 [a; b; c; d]); [done|]. repeat constructor; lia.
  - exists (t1 ++ t2 ++ t3 ++ t4). rewrite <- !app_assoc, !forallb_app, H1, H2, H3, H4. split_and!; [done| |done]. by destruct t1.
Qed.
Lemma read_groups_reads n first s gs v4 rest :
  read_groups n first s = (gs, v4, rest) →
  Forall (λ g, (g < 65536)%N) gs ∧ length gs ≤ n ∧ ∃ t, s = t ++ rest ∧ forallb ip_char t = true.
Proof.
  revert first s gs v4. induction n as [|n IH]; intros first s gs v4; cbn [read_groups].
  { intros [= <- <- <-]. split_and!; [done|done|by exists []]. }
  destruct (if 1 <=? n then read_separator $":" first read_ipv4_addr s else None) as [[v r]|] eqn:E.
  - destruct (Nat.leb_spec 1 n) as [Hn|]; [|done].
    apply (reads_separator _ _ _ _ (eq_refl : ip_char $":" = true) read_ipv4_reads) in E as (Hv & t & -> & _ & Ht).
    intros [= <- <- <-]. split_and!; [|cbn; lia|by exists t]. repeat constructor; [|by apply N.mod_lt].
    apply N.Div0.div_lt_upper_bound. exact Hv.
  - clear E. destruct (read_separator $":" first (read_number 16 4 true 65535) s) as [[g r]|] eqn:E.
    + apply (reads_separator _ _ _ _ (eq_refl : ip_char $":" = true) (read_number_reads 16 4 true 65535 ltac:(done)))
        in E as (Hg & t & -> & _ & Ht).
      destruct (read_groups n false r) as [[gs' v] r'] eqn:E'. intros [= <- <- <-].
      destruct (IH _ _ _ _ E') as (H1 & H2 & t' & -> & H3).
      split_and!; [constructor; [lia|done]|cbn; lia|]. exists (t ++ t'). by rewrite <- app_assoc, forallb_app, Ht, H3.
    + intros [= <- <- <-]. split_and!; [done|cbn; lia|by exists []].
Qed.
Lemma read_char_spec c s rest : read_given_char c s = Some rest → s = [c] ++ rest.
Proof. destruct s as [|x s]; cbn; [done|]. destruct (N.eqb_spec x c) as [-> |]; [|done]. by intros [= ->]. Qed.
Lemma read_ipv6_reads s v rest :
  read_ipv6_addr s = Some (v, rest) → (v < 2 ^ 128)%N ∧ ∃ t, s = t ++ rest ∧ forallb ip_char t = true.
Proof.
  unfold read_ipv6_addr. destruct (read_groups 8 true s) as [[head h4] s1] eqn:Eh.
  apply read_groups_reads in Eh as (H1 & Hl1 & t1 & -> & Ht1). destruct (Nat.eqb_spec (length head) 8) as [E8|E8].
  { intros [= <- <-]. split; [|by exists t1]. pose proof (of_digits_below 65536 head ltac:(done) H1) as H. by rewrite E8 in H. }
  destruct h4; [done|]. destruct (read_given_char $":" s1) as [s2|] eqn:E2; [|done]. apply read_char_spec in E2 as ->.
  cbn [mbind option_bind]. destruct (read_given_char $":" s2) as [s3|] eqn:E3; [|done]. apply read_char_spec in E3 as ->.
  cbn [mbind option_bind]. destruct (read_groups _ true s3) as [[tail b] s4] eqn:Et.
  apply read_groups_reads in Et as (H2 & Hl2 & t2 & -> & Ht2). intros [= <- <-]. split.
  - set (l := head ++ _). assert (length l = 8) as Hl.
    { subst l. rewrite !length_app, length_replicate. lia. }
    pose proof (of_digits_below 65536 l ltac:(done)) as H. rewrite Hl in H. apply H. subst l.
    apply Forall_app. split; [done|]. apply Forall_app. split; [by apply Forall_replicate|done].
  - exists (t1 ++ [$":"] ++ [$":"] ++ t2). rewrite <- !app_assoc, !forallb_app, Ht1, Ht2. done.
Qed.
Lemma parse_ip_ok s a : parse_ip s = Some a → ip_ok a ∧ forallb ip_char s = true.
Proof.
  unfold parse_ip, read_ip_addr, ip_ok. destruct (read_ipv4_addr s) as [[v r]|] eqn:E.
  - apply read_ipv4_reads in E as (Hv & t & -> & _ & Ht). destruct r; [|done]. intros [= <-]. by rewrite app_nil_r.
  - destruct (read_ipv6_addr s) as [[v r]|] eqn:E6; [|done]. cbn [mbind option_bind].
    apply read_ipv6_reads in E6 as (Hv & t & -> & Ht). destruct r; [|done]. intros [= <-]. by rewrite app_nil_r.
Qed.
