(* ===== verification/Json.v ===== *)
(** * JSON values

    The part of [serde_json] the program's own data flows through: audit
    metadata ([crates/audit]) and the structured results the workflow registry
    is evaluated against ([crates/workflows]).  [serde_json] is not under
    [src/]; the type is its documented data model: an object is an association
    list in key order (a [BTreeMap]), a number is an unsigned or negative
    integer or a binary64 float. *)

From S2P Require Import Prelude.
From Stdlib Require Import SpecFloat.

Inductive Number : Set :=
| PosInt (n : N)
| NegInt (z : Z)
| Float (f : spec_float).

Inductive Value : Set :=
| Null
| Bool (b : bool)
| Num (n : Number)
| Str (s : rstr)
| Arr (l : list Value)
| Obj (m : list (rstr * Value)).

(** binary64: precision 53, exponent bound 1024. *)
Definition f64_of_Z (z : Z) : spec_float := binary_normalize 53 1024 z 0 false.

Definition f64_eqb (x y : spec_float) : bool :=
  match SFcompare x y with Some Eq => true | _ => false end.
Definition f64_ltb (x y : spec_float) : bool :=
  match SFcompare x y with Some Lt => true | _ => false end.
Definition f64_geb (x y : spec_float) : bool :=
  match SFcompare x y with Some Gt | Some Eq => true | _ => false end.

Definition number_eqb (m n : Number) : bool :=
  match m, n with
  | PosInt a, PosInt b => (a =? b)%N
  | NegInt a, NegInt b => (a =? b)%Z
  | Float a, Float b => f64_eqb a b
  | _, _ => false
  end.

Fixpoint value_eqb (v w : Value) : bool :=
  match v, w with
  | Null, Null => true
  | Bool a, Bool b => Bool.eqb a b
  | Num a, Num b => number_eqb a b
  | Str a, Str b => str_eqb a b
  | Arr a, Arr b =>
      (fix go (a b : list Value) : bool :=
         match a, b with
         | [], [] => true
         | x :: a', y :: b' => value_eqb x y && go a' b'
         | _, _ => false
         end) a b
  | Obj a, Obj b =>
      (fix go (a b : list (rstr * Value)) : bool :=
         match a, b with
         | [], [] => true
         | (k, x) :: a', (l, y) :: b' => str_eqb k l && value_eqb x y && go a' b'
         | _, _ => false
         end) a b
  | _, _ => false
  end.

Fixpoint assoc (key : rstr) (m : list (rstr * Value)) : option Value :=
  match m with
  | [] => None
  | (k, v) :: m' => if str_eqb k key then Some v else assoc key m'
  end.

(** [Value::get] with a string index: [None] on anything but an object. *)
Definition get (v : Value) (key : rstr) : option Value :=
  match v with Obj m => assoc key m | _ => None end.

Definition as_str (v : Value) : option rstr :=
  match v with Str s => Some s | _ => None end.

Definition as_f64 (v : Value) : option spec_float :=
  match v with
  | Num (PosInt n) => Some (f64_of_Z (Z.of_N n))
  | Num (NegInt z) => Some (f64_of_Z z)
  | Num (Float f) => Some f
  | _ => None
  end.

Definition opt_str (o : option rstr) : Value :=
  match o with Some s => Str s | None => Null end.
