(* ===== verification/Workflow.v ===== *)
(** * The workflow evaluator ([crates/workflows/src/evaluator.rs], [types.rs])

    Which follow-up actions a structured result offers: condition trees over the
    fields of a JSON object, failures of the registry collected on the side, and
    button labels with placeholders. *)

From S2P Require Import Prelude Json.
From Stdlib Require Import SpecFloat.
From Equations Require Import Equations.

Inductive Operator : Set :=
| Equals | NotEquals | GreaterThanOrEqual | LessThan
| Contains | StartsWith | EndsWith | Matches | Exists.

Record LeafCondition := mkLeaf { field : rstr; operator : Operator; value : option Value }.

Inductive Condition : Type :=
| All (all : list Condition)
| Any (any : list Condition)
| Leaf (l : LeafCondition).

Record WorkflowEntry := mkEntry {
  source_arsenal : rstr;
  source_action : rstr;
  condition : Condition;
  target_arsenal : rstr;
  target_action : rstr;
  label : rstr;
  context_fields : list rstr;
}.

Record MatchedAction := mkMatched {
  m_target_arsenal : rstr;
  m_target_action : rstr;
  m_label : rstr;
  m_context : list (rstr * rstr);
}.

Record EvaluationFailure := mkFailure {
  f_source_arsenal : rstr;
  f_source_action : rstr;
  f_target_arsenal : rstr;
  f_target_action : rstr;
  f_field : rstr;
  f_message : rstr;
}.

Record EvaluationOutcome := mkOutcome {
  matches : list MatchedAction;
  failures : list EvaluationFailure;
}.

(** What the evaluator takes from the [regex] and [serde_json] crates and from
    [{:?}]: a compiled pattern or the text of its error, the text of a value,
    and the debug form of a string. *)
Class Engine := {
  regex_new : rstr → result rstr (rstr → bool);
  value_display : Value → rstr;
  debug_str : rstr → rstr;
}.

Section evaluator.
Context `{!Engine}.

(** ** Descriptions *)

Definition symbol (o : Operator) : rstr :=
  match o with
  | Equals => #"==" | NotEquals => #"!=" | GreaterThanOrEqual => #">=" | LessThan => #"<"
  | Contains => #"contains" | StartsWith => #"starts with" | EndsWith => #"ends with"
  | Matches => #"matches" | Exists => #"exists"
  end.

Definition describe_leaf (l : LeafCondition) : rstr :=
  match operator l with
  | Exists => field l ++ #" exists"
  | o => field l ++ #" " ++ symbol o ++ #" " ++ default #"?" (value_display <$> value l)
  end.

Fixpoint describe (c : Condition) : rstr :=
  match c with
  | All l => #"all(" ++ join #", " (map describe l) ++ #")"
  | Any l => #"any(" ++ join #", " (map describe l) ++ #")"
  | Leaf l => describe_leaf l
  end.

(** ** Conditions

    A failure is a field and a message; [failures] is threaded through as the
    source threads its [&mut Vec]. *)

Definition numeric_cmp (actual expected : option Value) (cmp : spec_float → spec_float → bool) : bool :=
  match actual ≫= as_f64, expected ≫= as_f64 with
  | Some a, Some b => cmp a b
  | _, _ => false
  end.
Definition string_cmp (actual expected : option Value) (cmp : rstr → rstr → bool) : bool :=
  match actual ≫= as_str, expected ≫= as_str with
  | Some a, Some b => cmp a b
  | _, _ => false
  end.

Definition regex_matches (actual expected : option Value) (fld : rstr) (fs : list (rstr * rstr))
    : bool * list (rstr * rstr) :=
  match actual ≫= as_str, expected ≫= as_str with
  | Some a, Some pattern =>
      match regex_new pattern with
      | Ok is_match => (is_match a, fs)
      | Err e => (false, fs ++ [(fld, #"invalid regex pattern " ++ debug_str pattern ++ #": " ++ e)])
      end
  | _, _ => (false, fs)
  end.

Definition leaf_matches (c : LeafCondition) (r : Value) (fs : list (rstr * rstr)) : bool * list (rstr * rstr) :=
  let actual := get r (field c) in
  let expected := value c in
  match operator c with
  | Exists => (bool_decide (is_Some actual), fs)
  | Equals => (match actual, expected with Some a, Some e => value_eqb a e | _, _ => false end, fs)
  | NotEquals => (match actual, expected with Some a, Some e => negb (value_eqb a e) | _, _ => false end, fs)
  | GreaterThanOrEqual => (numeric_cmp actual expected f64_geb, fs)
  | LessThan => (numeric_cmp actual expected f64_ltb, fs)
  | Contains => (string_cmp actual expected contains, fs)
  | StartsWith => (string_cmp actual expected starts_with, fs)
  | EndsWith => (string_cmp actual expected ends_with, fs)
  | Matches => regex_matches actual expected (field c) fs
  end.

(** The iterator chain of [condition_matches]: every condition is evaluated, in
    order, before the answers are combined. *)
Fixpoint condition_matches (c : Condition) (r : Value) (fs : list (rstr * rstr)) : bool * list (rstr * rstr) :=
  let visit := fix visit (l : list Condition) (fs : list (rstr * rstr)) : list bool * list (rstr * rstr) :=
    match l with
    | [] => ([], fs)
    | c :: l' =>
        let '(b, fs) := condition_matches c r fs in
        let '(bs, fs) := visit l' fs in (b :: bs, fs)
    end in
  match c with
  | All l => let '(bs, fs) := visit l fs in (forallb id bs, fs)
  | Any l => let '(bs, fs) := visit l fs in (existsb id bs, fs)
  | Leaf l => leaf_matches l r fs
  end.

(** ** Labels *)

Definition value_to_string (v : Value) : rstr :=
  match v with Str s => s | other => value_display other end.

(** One round of the loop: the text before the next placeholder, its field, and
    the rest; [None] when there is none, or it is not closed. *)
Definition next_placeholder (rest : rstr) : option (rstr * rstr * rstr) :=
  '(before, after) ← split_once $"{" rest;
  '(fld, rest') ← split_once $"}" after;
  Some (before, fld, rest').

Lemma next_placeholder_Some rest before fld rest' :
  next_placeholder rest = Some (before, fld, rest') →
  rest = before ++ $"{" :: fld ++ $"}" :: rest' ∧ ¬ ($"{" ∈ before) ∧ ¬ ($"}" ∈ fld).
Proof.
  unfold next_placeholder. destruct (split_once $"{" rest) as [[b a]|] eqn:H1; [|done]. cbn.
  destruct (split_once $"}" a) as [[f r']|] eqn:H2; [|done]. intros [= <- <- <-].
  apply split_once_Some in H1 as [-> ?], H2 as [-> ?]. done.
Qed.

(** A value with the equation that says where it comes from. *)
Definition inspect {A} (x : A) : { y : A | x = y } := exist _ x eq_refl.

Equations? render_loop (r : Value) (rest out : rstr) : rstr by wf (length rest) lt :=
  render_loop r rest out with inspect (next_placeholder rest) => {
    | exist _ None _ := out ++ rest;
    | exist _ (Some (before, fld, rest')) _ :=
        render_loop r rest'
          (out ++ before ++ match get r fld with
                            | Some v => value_to_string v
                            | None => $"{" :: fld ++ [ $"}" ]
                            end) }.
Proof.
  match goal with H : next_placeholder _ = _ |- _ => apply next_placeholder_Some in H as (-> & _ & _) end.
  rewrite !length_app. cbn. rewrite length_app. cbn. lia.
Qed.

Definition render_label (template : rstr) (r : Value) : rstr := render_loop r template [].

Definition build_matched_action (e : WorkflowEntry) (r : Value) : MatchedAction :=
  mkMatched (target_arsenal e) (target_action e) (render_label (label e) r)
    (omap (λ f, (λ v, (f, value_to_string v)) <$> get r f) (context_fields e)).

(** ** The registry *)

Definition from_source (arsenal action : rstr) (e : WorkflowEntry) : bool :=
  str_eqb (source_arsenal e) arsenal && str_eqb (source_action e) action.

Definition failure_of (e : WorkflowEntry) (f : rstr * rstr) : EvaluationFailure :=
  mkFailure (source_arsenal e) (source_action e) (target_arsenal e) (target_action e) f.1 f.2.

Definition evaluate_entry (r : Value) (o : EvaluationOutcome) (e : WorkflowEntry) : EvaluationOutcome :=
  let '(matched, raw_failures) := condition_matches (condition e) r [] in
  mkOutcome (if matched then matches o ++ [build_matched_action e r] else matches o)
    (failures o ++ (failure_of e <$> raw_failures)).

Definition evaluate (entries : list WorkflowEntry) (arsenal action : rstr) (r : Value) : EvaluationOutcome :=
  foldl (evaluate_entry r) (mkOutcome [] []) (List.filter (from_source arsenal action) entries).
End evaluator.

(** ** Claims about the workflow evaluator *)


(** Induction over condition trees. *)
Section condition_ind.
Context (P : Condition → Prop)
  (HAll : ∀ l, Forall P l → P (All l)) (HAny : ∀ l, Forall P l → P (Any l)) (HLeaf : ∀ l, P (Leaf l)).

Fixpoint condition_rect' (c : Condition) : P c :=
  let go := fix go (l : list Condition) : Forall P l :=
    match l with [] => Forall_nil_2 P | c :: l' => Forall_cons_2 P c l' (condition_rect' c) (go l') end in
  match c with
  | All l => HAll l (go l)
  | Any l => HAny l (go l)
  | Leaf l => HLeaf l
  end.
End condition_ind.

Section evaluator.
Context `{!Engine}.
Implicit Types (r : Value) (c : Condition) (e : WorkflowEntry).

(** ** The reference

    What a condition means, with the failures on the side left out: a leaf holds
    when both values are there, of the right shape, and related. *)

Definition leaf_holds (l : LeafCondition) r : bool :=
  match operator l, get r (field l), value l with
  | Exists, Some _, _ => true
  | Equals, Some a, Some b => value_eqb a b
  | NotEquals, Some a, Some b => negb (value_eqb a b)
  | GreaterThanOrEqual, Some a, Some b =>
      match as_f64 a, as_f64 b with Some x, Some y => f64_geb x y | _, _ => false end
  | LessThan, Some a, Some b =>
      match as_f64 a, as_f64 b with Some x, Some y => f64_ltb x y | _, _ => false end
  | Contains, Some (Str a), Some (Str b) => contains a b
  | StartsWith, Some (Str a), Some (Str b) => starts_with a b
  | EndsWith, Some (Str a), Some (Str b) => ends_with a b
  | Matches, Some (Str a), Some (Str p) => match regex_new p with Ok m => m a | Err _ => false end
  | _, _, _ => false
  end.

Fixpoint holds c r : bool :=
  match c with
  | All l => forallb (λ c, holds c r) l
  | Any l => existsb (λ c, holds c r) l
  | Leaf l => leaf_holds l r
  end.

(** The leaves, left to right, whose pattern does not compile although the
    result has a string for it. *)
Definition broken_leaf (l : LeafCondition) r : list (rstr * rstr) :=
  match operator l, get r (field l), value l with
  | Matches, Some (Str _), Some (Str p) =>
      match regex_new p with
      | Ok _ => []
      | Err msg => [(field l, #"invalid regex pattern " ++ debug_str p ++ #": " ++ msg)]
      end
  | _, _, _ => []
  end.
Fixpoint leaves c : list LeafCondition :=
  match c with All l | Any l => concat (map leaves l) | Leaf l => [l] end.
Definition broken c r : list (rstr * rstr) := concat ((λ l, broken_leaf l r) <$> leaves c).

Lemma leaf_matches_spec l r fs : leaf_matches l r fs = (leaf_holds l r, fs ++ broken_leaf l r).
Proof.
  destruct l as [f [] v]; unfold leaf_matches, leaf_holds, broken_leaf, numeric_cmp, string_cmp, regex_matches; cbn;
    destruct (get r f) as [[]|]; cbn; rewrite ?app_nil_r; try done;
    destruct v as [[]|]; cbn; rewrite ?app_nil_r; try done.
  - by destruct n.
  - by destruct n.
  - by destruct (regex_new _); cbn; rewrite ?app_nil_r.
Qed.

(** The inner loop of [condition_matches]. *)
Definition visit r : list Condition → list (rstr * rstr) → list bool * list (rstr * rstr) :=
  fix visit l fs :=
    match l with
    | [] => ([], fs)
    | c :: l' =>
        let '(b, fs) := condition_matches c r fs in
        let '(bs, fs) := visit l' fs in (b :: bs, fs)
    end.

Lemma visit_spec r l :
  Forall (λ c, ∀ fs, condition_matches c r fs = (holds c r, fs ++ broken c r)) l →
  ∀ fs, visit r l fs = ((λ c, holds c r) <$> l, fs ++ concat ((λ l, broken_leaf l r) <$> concat (map leaves l))).
Proof.
  induction 1 as [|c l Hc _ IH]; intros fs; cbn; [by rewrite app_nil_r|].
  rewrite Hc, IH. cbn. f_equal. by rewrite fmap_app, concat_app, <- app_assoc.
Qed.

Lemma condition_matches_spec c r fs : condition_matches c r fs = (holds c r, fs ++ broken c r).
Proof.
  revert fs. induction c as [l Hl|l Hl|l] using condition_rect'; intros fs.
  - change (condition_matches (All l) r fs) with (let '(bs, fs) := visit r l fs in (forallb id bs, fs)).
    rewrite (visit_spec r l Hl). cbn [holds]. f_equal. clear. induction l; cbn; [done|]. by rewrite IHl.
  - change (condition_matches (Any l) r fs) with (let '(bs, fs) := visit r l fs in (existsb id bs, fs)).
    rewrite (visit_spec r l Hl). cbn [holds]. f_equal. clear. induction l; cbn; [done|]. by rewrite IHl.
  - cbn. rewrite leaf_matches_spec. unfold broken. cbn. by rewrite app_nil_r.
Qed.

(** The text of a field: a string as it is, anything else as it is displayed. *)
Definition text_of (v : Value) (t : rstr) : Prop :=
  match v with Str s => t = s | _ => t = value_display v end.
(** What an offered action takes from its entry and from the result: the targets, the label, and a context
    entry for each of the listed fields the result has. *)
Definition offers e r (m : MatchedAction) : Prop :=
  m_target_arsenal m = target_arsenal e ∧ m_target_action m = target_action e ∧
  m_label m = render_label (label e) r ∧
  (m_context m).*1 = List.filter (λ f, bool_decide (is_Some (get r f))) (context_fields e) ∧
  ∀ f t, (f, t) ∈ m_context m → ∃ v, get r f = Some v ∧ text_of v t.

Lemma value_to_string_text v : text_of v (value_to_string v).
Proof. by destruct v. Qed.
Lemma build_offers e r : offers e r (build_matched_action e r).
Proof.
  unfold offers, build_matched_action. cbn. split_and!; [done..| |].
  - induction (context_fields e) as [|f l IH]; [done|]. cbn. destruct (get r f) as [v|]; cbn; by rewrite <- IH.
  - intros f t (g & Hg & Hv)%list_elem_of_omap. destruct (get r g) as [v|] eqn:E; [|done]. injection Hv as <- <-.
    exists v. split; [done|]. apply value_to_string_text.
Qed.
Lemma from_source_spec arsenal action e :
  from_source arsenal action e = bool_decide (source_arsenal e = arsenal ∧ source_action e = action).
Proof. unfold from_source, str_eqb. repeat case_bool_decide; naive_solver. Qed.

Lemma evaluate_reference entries arsenal action r :
  evaluate entries arsenal action r =
  mkOutcome ((λ e, build_matched_action e r)
               <$> List.filter (λ e, holds (condition e) r) (List.filter (from_source arsenal action) entries))
            (concat ((λ e, failure_of e <$> broken (condition e) r) <$> List.filter (from_source arsenal action) entries)).
Proof.
  unfold evaluate. set (own := List.filter _ entries).
  assert (∀ ms fs, foldl (evaluate_entry r) (mkOutcome ms fs) own =
    mkOutcome (ms ++ ((λ e, build_matched_action e r) <$> List.filter (λ e, holds (condition e) r) own))
              (fs ++ concat ((λ e, failure_of e <$> broken (condition e) r) <$> own))) as Hgen; [|apply (Hgen [] [])].
  induction own as [|e own IH]; intros ms fs; cbn; [by rewrite !app_nil_r|].
  unfold evaluate_entry at 2. rewrite condition_matches_spec. cbn [app matches failures]. rewrite IH.
  rewrite <- app_assoc. destruct (holds (condition e) r); cbn; [|done]. by rewrite <- app_assoc.
Qed.

(** The entries of one action of one arsenal. *)
Definition entries_of (arsenal action : rstr) (entries : list WorkflowEntry) : list WorkflowEntry :=
  List.filter (λ e, bool_decide (source_arsenal e = arsenal ∧ source_action e = action)) entries.

(** C39: The evaluator does what its conditions mean.  Offered are exactly the entries of this action of this
    arsenal whose condition holds, in registry order, each with its entry's targets, its rendered label and the
    listed fields the result has; reported, with the entry's source and targets, are exactly the patterns of
    those entries that do not compile and whose field holds a string in the result, every leaf being visited
    whether or not the condition was already decided and whatever the other entries did. *)
Theorem evaluate_exact (entries : list WorkflowEntry) (arsenal action : rstr) (r : Value) :
  Forall2 (λ m e, offers e r m) (matches (evaluate entries arsenal action r))
    (List.filter (λ e, holds (condition e) r) (entries_of arsenal action entries)) ∧
  failures (evaluate entries arsenal action r) =
    concat ((λ e, (λ f, mkFailure arsenal action (target_arsenal e) (target_action e) f.1 f.2) <$> broken (condition e) r)
              <$> entries_of arsenal action entries).
Proof.
  rewrite evaluate_reference. cbn [matches failures]. unfold entries_of.
  rewrite (List.filter_ext _ _ (from_source_spec arsenal action)). set (own := List.filter _ entries).
  assert (∀ e, e ∈ own → source_arsenal e = arsenal ∧ source_action e = action) as Hown.
  { intros e [_ He]%list_elem_of_In%filter_In. by apply bool_decide_eq_true in He. }
  split.
  - apply Forall2_fmap_l, Forall_Forall2_diag, Forall_forall. intros e _. apply build_offers.
  - f_equal. apply list_fmap_ext. intros i e He%list_elem_of_lookup_2. apply list_fmap_ext. intros j f _.
    unfold failure_of. by destruct (Hown e He) as [-> ->].
Qed.

(** ** Labels *)

(** A template is a sequence of texts without an opening brace and placeholders
    up to their first closing one, and a tail in which no opening brace is
    followed by a closing one; there is one way to read it so. *)
Inductive segment : Type := Text (t : rstr) | Placeholder (f : rstr).
Definition print_segment (x : segment) : rstr :=
  match x with Text t => t | Placeholder f => $"{" :: f ++ [ $"}" ] end.
Definition fill_segment r (x : segment) : rstr :=
  match x with
  | Text t => t
  | Placeholder f => match get r f with Some (Str t) => t | Some v => value_display v | None => print_segment x end
  end.
Definition segment_ok (x : segment) : Prop :=
  match x with Text t => ¬ ($"{" ∈ t) | Placeholder f => ¬ ($"}" ∈ f) end.

Lemma split_once_None (c : char) (s : rstr) : split_once c s = None → c ∉ s.
Proof.
  induction s as [|x s IH]; cbn; [by intros _ ?%elem_of_nil|]. destruct (N.eqb_spec x c) as [|Hne]; [done|].
  destruct (split_once c s) as [[? ?]|]; [done|]. intros _ [->|Hs]%elem_of_cons; [done|by apply IH].
Qed.
(** The first occurrence comes no later than any other. *)
Lemma first_cut (c : char) (x a y w : rstr) : c ∉ x → a ++ c :: w = x ++ c :: y → ∃ z, y = z ++ w.
Proof.
  revert a. induction x as [|d x IH]; intros [|e a] Hx E; cbn in E.
  - injection E as ->. by exists [].
  - injection E as -> <-. exists (a ++ [c]). by rewrite <- app_assoc.
  - injection E as <- _. destruct Hx. apply list_elem_of_here.
  - injection E as _ E. apply (IH a); [|done]. intros H'. apply Hx. by right.
Qed.
Definition no_placeholder (t : rstr) : Prop := ∀ a f b, t ≠ a ++ $"{" :: f ++ $"}" :: b.
Lemma next_placeholder_None rest : next_placeholder rest = None → no_placeholder rest.
Proof.
  intros Hn a f b ->. unfold next_placeholder in Hn.
  destruct (split_once $"{" _) as [[x y]|] eqn:E1; cbn in Hn.
  - destruct (split_once $"}" y) as [[u v]|] eqn:E2; [done|]. apply split_once_None in E2. apply split_once_Some in E1 as [E Hx].
    destruct (first_cut _ _ _ _ _ Hx E) as [z ->]. apply E2. rewrite !elem_of_app, elem_of_cons. tauto.
  - apply split_once_None in E1. apply E1. rewrite elem_of_app, elem_of_cons. tauto.
Qed.

Lemma render_loop_eq r rest out :
  render_loop r rest out =
  match next_placeholder rest with
  | None => out ++ rest
  | Some (b, f, rest') => render_loop r rest' (out ++ b ++ fill_segment r (Placeholder f))
  end.
Proof. simp render_loop. destruct (inspect (next_placeholder rest)) as [[[[b f] rest']|] Hp]; cbn; rewrite Hp; [|done]. by destruct (get r f) as [[]|]. Qed.

Lemma render_loop_out r rest out : render_loop r rest out = out ++ render_loop r rest [].
Proof.
  remember (length rest) as n eqn:Hn. revert rest out Hn. induction n as [n IH] using lt_wf_ind.
  intros rest out ->. rewrite !(render_loop_eq r rest). destruct (next_placeholder rest) as [[[b f] rest']|] eqn:Hp; [|done].
  apply next_placeholder_Some in Hp as (Heq & _).
  assert (length rest' < length rest) as Hlt.
  { rewrite Heq, length_app. cbn. rewrite length_app. cbn. lia. }
  rewrite (IH _ Hlt rest' (out ++ _) eq_refl), (IH _ Hlt rest' ([] ++ _) eq_refl). by rewrite <- app_assoc.
Qed.

(** C40: Rendering a label terminates on every template and substitutes exactly the placeholders: the
    template splits into texts without an opening brace, placeholders up to their first closing brace and a tail
    in which no opening brace is ever closed; texts and tail are kept, a placeholder becomes the field's value,
    which is not scanned again, or stays as written when the field is missing. *)
Theorem render_label_exact (template : rstr) :
  ∃ (segs : list segment) (tail : rstr),
    template = concat (print_segment <$> segs) ++ tail ∧ Forall segment_ok segs ∧
    (∀ a f b, tail ≠ a ++ $"{" :: f ++ $"}" :: b) ∧
    ∀ r, render_label template r = concat (fill_segment r <$> segs) ++ tail.
Proof.
  unfold render_label. remember (length template) as n eqn:Hn. revert template Hn.
  induction n as [n IH] using lt_wf_ind. intros rest ->.
  destruct (next_placeholder rest) as [[[b f] rest']|] eqn:Hp.
  - pose proof Hp as (Heq & Hb & Hf)%next_placeholder_Some.
    destruct (IH (length rest')) with (template := rest') as (segs & tail & Hr & Hok & Htail & Hall); [|done|].
    { rewrite Heq, length_app. cbn. rewrite length_app. cbn. lia. }
    exists (Text b :: Placeholder f :: segs), tail. split_and!; [|by repeat constructor|done|].
    + rewrite Heq, Hr. cbn. rewrite <- !app_assoc. cbn. by rewrite <- app_assoc.
    + intros r. rewrite render_loop_eq, Hp, render_loop_out, Hall. cbn. by rewrite <- !app_assoc.
  - exists [], rest. split_and!; [done|constructor|by apply next_placeholder_None|]. intros r. by rewrite render_loop_eq, Hp.
Qed.
End evaluator.
