(* ===== verification/Protocol.v ===== *)
(** * The agent protocol

    [crates/agent-protocol]: every operation the control plane can send to a
    managed host's agent, the protocol version each needs ([min_protocol.rs]),
    which may run side by side, and the closed sets of settings an operation can
    carry.  A Rust integer is an [N] or [Z]; its width is stated where an
    operation computes with it. *)

From S2P Require Import Prelude.

Definition PROTOCOL_VERSION : N := 47.

(** ** Closed sets of settings *)

Inductive SepulchreConfigTarget : Set := SshdDropIn | SambaInclude.

Inductive SshHardeningSetting : Set :=
| DisableRootLogin
| DisablePasswordAuth
| DisableEmptyPasswords
| DisableX11Forwarding.

Inductive JournaldSetting : Set :=
| SystemMaxUse
| SystemKeepFree
| MaxRetentionSec
| MaxFileSec.

Module SshHardening.
Definition ALL : list SshHardeningSetting :=
  [DisableRootLogin; DisablePasswordAuth; DisableEmptyPasswords; DisableX11Forwarding].
Definition directive (s : SshHardeningSetting) : rstr * rstr :=
  match s with
  | DisableRootLogin => (#"PermitRootLogin", #"no")
  | DisablePasswordAuth => (#"PasswordAuthentication", #"no")
  | DisableEmptyPasswords => (#"PermitEmptyPasswords", #"no")
  | DisableX11Forwarding => (#"X11Forwarding", #"no")
  end.
Definition as_str (s : SshHardeningSetting) : rstr :=
  match s with
  | DisableRootLogin => #"disable_root_login"
  | DisablePasswordAuth => #"disable_password_auth"
  | DisableEmptyPasswords => #"disable_empty_passwords"
  | DisableX11Forwarding => #"disable_x11_forwarding"
  end.
Definition from_wire (value : rstr) : option SshHardeningSetting :=
  List.find (λ s, str_eqb (as_str s) value) ALL.
Definition label (s : SshHardeningSetting) : rstr :=
  match s with
  | DisableRootLogin => #"Disable root login"
  | DisablePasswordAuth => #"Disable password authentication"
  | DisableEmptyPasswords => #"Disallow empty passwords"
  | DisableX11Forwarding => #"Disable X11 forwarding"
  end.
Definition can_lock_out (s : SshHardeningSetting) : bool :=
  match s with DisableRootLogin | DisablePasswordAuth => true | _ => false end.
End SshHardening.

Module Journald.
Definition ALL : list JournaldSetting := [SystemMaxUse; SystemKeepFree; MaxRetentionSec; MaxFileSec].
Definition key (s : JournaldSetting) : rstr :=
  match s with
  | SystemMaxUse => #"SystemMaxUse"
  | SystemKeepFree => #"SystemKeepFree"
  | MaxRetentionSec => #"MaxRetentionSec"
  | MaxFileSec => #"MaxFileSec"
  end.
Definition as_str (s : JournaldSetting) : rstr :=
  match s with
  | SystemMaxUse => #"system_max_use"
  | SystemKeepFree => #"system_keep_free"
  | MaxRetentionSec => #"max_retention_sec"
  | MaxFileSec => #"max_file_sec"
  end.
Definition from_wire (value : rstr) : option JournaldSetting :=
  List.find (λ s, str_eqb (as_str s) value) ALL.
End Journald.

(** The security baseline of kernel parameters: key, reviewed value, reason. *)
Record SecuritySysctl := mkSysctl {
  sysctl_key : rstr; recommended : rstr; sysctl_description : rstr }.

Definition SECURITY_SYSCTLS : list SecuritySysctl :=
  [ mkSysctl #"net.ipv4.conf.all.rp_filter" #"1"
      #"Reverse-path filtering (drop spoofed source addresses)";
    mkSysctl #"net.ipv4.conf.all.accept_redirects" #"0"
      #"Ignore ICMP redirects (IPv4)";
    mkSysctl #"net.ipv4.conf.all.send_redirects" #"0"
      #"Don't send ICMP redirects (not a router)";
    mkSysctl #"net.ipv4.conf.all.accept_source_route" #"0"
      #"Reject source-routed packets (IPv4)";
    mkSysctl #"net.ipv4.conf.all.log_martians" #"1"
      #"Log packets with impossible source addresses";
    mkSysctl #"net.ipv4.icmp_echo_ignore_broadcasts" #"1"
      #"Ignore broadcast pings (Smurf-attack amplification)";
    mkSysctl #"net.ipv4.tcp_syncookies" #"1"
      #"SYN cookies (SYN-flood resistance)";
    mkSysctl #"net.ipv6.conf.all.accept_redirects" #"0"
      #"Ignore ICMP redirects (IPv6)";
    mkSysctl #"net.ipv6.conf.all.accept_source_route" #"0"
      #"Reject source-routed packets (IPv6)";
    mkSysctl #"kernel.dmesg_restrict" #"1"
      #"Restrict kernel ring buffer to privileged users";
    mkSysctl #"kernel.kptr_restrict" #"1"
      #"Hide kernel pointers from unprivileged users";
    mkSysctl #"kernel.randomize_va_space" #"2"
      #"Full address-space layout randomization (ASLR)";
    mkSysctl #"fs.protected_hardlinks" #"1"
      #"Restrict hardlinks to files the user owns";
    mkSysctl #"fs.protected_symlinks" #"1"
      #"Restrict symlink following in world-writable dirs";
    mkSysctl #"fs.suid_dumpable" #"0"
      #"Never core-dump setuid programs" ].

Definition recommended_sysctl (key : rstr) : option rstr :=
  recommended <$> List.find (λ s, str_eqb s.(sysctl_key) key) SECURITY_SYSCTLS.

(** ** Boxed payloads *)

Record CreateUserRequest := mkCreateUserRequest {
  cu_domain_dns : rstr;
  cu_service_account_upn : rstr;
  cu_service_account_password : rstr;
  cu_target_ou : rstr;
  cu_sam_base : rstr;
  cu_upn_suffix : rstr;
  cu_given_name : rstr;
  cu_surname : rstr;
  cu_display_name : rstr;
  cu_email : rstr;
  cu_password : rstr;
  cu_attributes : list (rstr * rstr);
  cu_groups : list rstr;
  cu_allow_privileged : bool;
}.

Record UndoOffboardRequest := mkUndoOffboardRequest {
  uo_domain_dns : rstr;
  uo_service_account_upn : rstr;
  uo_service_account_password : rstr;
  uo_target_dn : rstr;
  uo_original_ou : rstr;
  uo_groups : list rstr;
  uo_allow_privileged : bool;
}.

Record CreateGroupRequest := mkCreateGroupRequest {
  cg_domain_dns : rstr;
  cg_service_account_upn : rstr;
  cg_service_account_password : rstr;
  cg_name : rstr;
  cg_target_ou : rstr;
  cg_scope : rstr;
  cg_category : rstr;
  cg_description : rstr;
}.

(** ** Operations *)

Module Op.
Inductive AgentOperation : Type :=
| Ping
| SystemInfo
| ResourceUsage
| LoggedInUsers
| SetHostname (hostname : rstr)
| Reboot
| ListeningPorts
| RecentAuthLog
| FirewallStatus
| FirewallAllowPort (port : N) (protocol : rstr)
| FirewallEnable
| FirewallDenyPort (port : N) (protocol : rstr)
| FirewallRemovePort (port : N) (protocol : rstr)
| SshdConfigAudit
| HardenSshd (setting : SshHardeningSetting)
| ClearSshHardening
| SysctlSecurityPosture
| AccountPolicyAudit
| MacStatus
| PostureFacts
| AutomaticUpdatesStatus
| Elevate (password : rstr) (idle_timeout_secs : N)
| Deescalate
| ElevationStatus
| NetworkInterfaces
| NetworkRoutes
| DnsConfig
| ActiveConnections
| ConnectivityCheck (target : rstr)
| InterfaceSetState (interface : rstr) (up : bool)
| NetworkScan (target : rstr) (ports : option rstr)
| BootHistory
| KernelRingBuffer
| SystemJournalErrors
| FailedLoginAttempts
| OomKillEvents
| CoreDumps
| RecentlyModifiedFiles (hours : N)
| JournalDiskUsage
| LogRotationStatus
| ArchivedLogListing
| LogDirectorySizes
| VacuumJournalBySize (size : rstr)
| VacuumJournalByTime (duration : rstr)
| ListBackups
| CreateBackup (source_path : rstr) (name : rstr)
| VerifyBackup (filename : rstr)
| RestoreBackup (filename : rstr) (target_path : rstr)
| LoadAverage
| TopProcessesByCpu
| TopProcessesByMemory
| MemoryDetail
| DiskIoStats
| FailedServices
| CpuUtilization
| NetworkThroughput
| ThermalSensors
| MemoryPressure
| ListServices
| ServiceStatus (unit : rstr)
| ServiceLogs (unit : rstr)
| StartService (unit : rstr)
| StopService (unit : rstr)
| RestartService (unit : rstr)
| EnableService (unit : rstr)
| DisableService (unit : rstr)
| PreviousBootErrors
| SystemRunningState
| ReadOnlyFilesystems
| ReloadSystemdDaemon
| ResetFailedUnits
| ListFailedUnits
| RecoverUnit (unit : rstr)
| DiskSpaceCritical
| FstabCheck
| RemountReadWrite (target : rstr)
| CpuInfo
| PciDevices
| BlockDevices
| MemoryHardware
| DiskHealth (device : rstr)
| ListContainers
| ContainerLogs (container : rstr)
| ContainerInspect (container : rstr)
| ListImages
| RuntimeInfo
| StartContainer (container : rstr)
| StopContainer (container : rstr)
| RestartContainer (container : rstr)
| RemoveContainer (container : rstr)
| ListProcesses
| ProcessDetail (pid : N)
| RenicePriority (pid : N) (priority : Z)
| SendSignal (pid : N) (signal : rstr)
| SignalByName (name : rstr) (signal : rstr) (dry_run : bool)
| SetIoPriority (pid : N) (class : N) (level : N)
| SetOomScoreAdj (pid : N) (adj : Z)
| ProcessOpenFiles (pid : N)
| ProcessLimits (pid : N)
| ZombieReport
| CleanupTargetsSummary
| ForceLogRotation
| ClearTmpFiles (older_than_days : N)
| ClearCoreDumps
| VmStatistics
| InterruptStatistics
| CpuGovernorStatus
| TuningParametersStatus
| SetSwappiness (value : N)
| SetIoScheduler (device : rstr) (scheduler : rstr)
| ListUsers
| ListGroups
| UserDetail (username : rstr)
| CreateUser (username : rstr) (comment : rstr)
| CreateGroup (group : rstr)
| AddUserToGroup (username : rstr) (group : rstr)
| RemoveUserFromGroup (username : rstr) (group : rstr)
| LockUserAccount (username : rstr)
| UnlockUserAccount (username : rstr)
| DeleteUser (username : rstr) (remove_home : bool)
| DeleteGroup (group : rstr)
| DirectoryUsageBreakdown (path : rstr)
| FindLargeFiles (path : rstr) (min_size_mb : N)
| FilesystemCheckDryRun (device : rstr)
| TrimFilesystem (mountpoint : rstr)
| FilesystemRepair (device : rstr)
| ListInstalledPackages
| SearchPackage (query : rstr)
| PackageInfo (package : rstr)
| ListUpgradable
| RefreshPackageIndex
| InstallPackage (package : rstr)
| UpgradePackage (package : rstr)
| RemovePackage (package : rstr)
| PartitionTable (device : rstr)
| LvmSummary
| RaidStatus
| MountFilesystem (device : rstr) (target : rstr)
| ExtendLogicalVolume (lv_path : rstr) (size : rstr)
| UnmountFilesystem (target : rstr)
| CreatePartition (device : rstr) (start : rstr) (end_ : rstr)
| DeletePartition (device : rstr) (partition_number : N)
| CreateRaidArray (array_name : rstr) (level : rstr) (devices : list rstr)
| StopRaidArray (array_name : rstr)
| CreatePhysicalVolume (device : rstr)
| CreateVolumeGroup (name : rstr) (physical_volumes : list rstr)
| CreateLogicalVolume (vg_name : rstr) (lv_name : rstr) (size : rstr)
| RemoveLogicalVolume (lv_path : rstr)
| RemoveVolumeGroup (name : rstr)
| RemovePhysicalVolume (device : rstr)
| CreateFilesystem (device : rstr) (fstype : rstr)
| ViewManagedSysctl
| ViewManagedCronJobs
| SysctlManagedDrift
| SetPersistentSysctl (key : rstr) (value : rstr)
| RemovePersistentSysctlKey (key : rstr)
| ClearManagedSysctl
| SetCronJob (job_name : rstr) (schedule : rstr) (run_as_user : rstr) (command : rstr)
| RemoveCronJob (job_name : rstr)
| ClearManagedCronJobs
| ViewModuleBlacklist
| BlacklistModule (module : rstr)
| RemoveModuleBlacklist (module : rstr)
| ClearModuleBlacklist
| ViewJournaldConfig
| SetJournaldRetention (setting : JournaldSetting) (value : rstr)
| ClearJournaldConfig
| ListBlockedIps
| IsolationStatus
| ListQuarantinedFiles
| BlockRemoteIp (ip : rstr)
| UnblockRemoteIp (ip : rstr)
| QuarantineFile (path : rstr)
| RestoreQuarantinedFile (quarantine_filename : rstr)
| DeleteQuarantinedFile (filename : rstr) (shred_passes : N)
| DeisolateHost
| IsolateHost
| ListSshHostKeys
| ListSshAuthorizedKeys (username : rstr)
| ListTlsCertificates
| CertificateDetail (path : rstr)
| ScanSensitiveFilePermissions
| ViewSensitiveFile (path : rstr)
| GenerateSshKeypair (key_type : rstr) (comment : rstr) (path : rstr)
| FixFilePermissions (path : rstr) (mode : rstr)
| RemoveAuthorizedKey (username : rstr) (fingerprint : rstr)
| DeleteSshKeypair (path : rstr) (shred_passes : N)
| ScanSecurityEvents (extra_fim_paths : list rstr) (channel_offsets : list (rstr * N)) (c2_ports : list N) (fast_only : bool)
| AdDnsReport (domain : rstr)
| AdHealthReport (domain : rstr)
| DirectoryDiscoverForest
| DirectoryTestDelegation (domain_dns : rstr) (service_account_upn : rstr) (password : rstr)
| DirectoryOuTree (domain_dns : rstr)
| DirectorySearch (domain_dns : rstr) (query : rstr)
| DirectoryGetObject (domain_dns : rstr) (dn : rstr)
| DirectoryStaleAccounts (domain_dns : rstr) (days : N)
| DirectoryUnlockAccount (domain_dns : rstr) (service_account_upn : rstr) (service_account_password : rstr) (target_dn : rstr) (allow_privileged : bool)
| DirectorySetEnabled (domain_dns : rstr) (service_account_upn : rstr) (service_account_password : rstr) (target_dn : rstr) (enabled : bool) (allow_privileged : bool)
| DirectoryCreateUser (request : CreateUserRequest)
| DirectorySetPassword (domain_dns : rstr) (service_account_upn : rstr) (service_account_password : rstr) (target_dn : rstr) (new_password : rstr) (allow_privileged : bool)
| ExchangeTestConnection (uri : rstr) (account_upn : rstr) (account_password : rstr)
| ExchangeEnableMailbox (uri : rstr) (account_upn : rstr) (account_password : rstr) (target_identity : rstr) (remote_routing_address : rstr)
| ExchangeSetMailboxOffboard (uri : rstr) (account_upn : rstr) (account_password : rstr) (target_identity : rstr) (convert_to_shared : bool)
| DirectoryCreateGroup (request : CreateGroupRequest)
| DirectoryDeleteGroup (domain_dns : rstr) (service_account_upn : rstr) (service_account_password : rstr) (target_dn : rstr) (allow_privileged : bool)
| DirectoryAddGroupMember (domain_dns : rstr) (service_account_upn : rstr) (service_account_password : rstr) (group_dn : rstr) (member_dn : rstr) (allow_privileged : bool)
| DirectoryRemoveGroupMember (domain_dns : rstr) (service_account_upn : rstr) (service_account_password : rstr) (group_dn : rstr) (member_dn : rstr) (allow_privileged : bool)
| DirectoryMove (domain_dns : rstr) (service_account_upn : rstr) (service_account_password : rstr) (target_dn : rstr) (new_parent_ou : rstr) (allow_privileged : bool)
| DirectoryDeleteObject (domain_dns : rstr) (service_account_upn : rstr) (service_account_password : rstr) (target_dn : rstr) (allow_privileged : bool)
| DirectoryOffboard (domain_dns : rstr) (service_account_upn : rstr) (service_account_password : rstr) (target_dn : rstr) (disabled_ou : rstr) (allow_privileged : bool)
| DirectoryUndoOffboard (request : UndoOffboardRequest)
| DetectPackageBackend
| RenderSepulchreConfig (target : SepulchreConfigTarget) (content : rstr)
| ClearSepulchreConfig (target : SepulchreConfigTarget)
| CheckSepulchreConfigIncludeDirective (target : SepulchreConfigTarget)
| CreateSftpChrootAccount (username : rstr) (chroot_dir : rstr)
| InstallSepulchreAuthorizedKey (username : rstr) (public_key : rstr)
| RemoveSftpChrootAccount (username : rstr)
| CreateSambaServiceUser (username : rstr) (password : rstr)
| RemoveSambaServiceUser (username : rstr)
| RenderMountUnit (unit_name : rstr) (mount_point : rstr) (content : rstr)
| RemoveMountUnit (unit_name : rstr) (mount_point : rstr)
| CheckMountStatus (mount_point : rstr)
| CreateSepulchreShareDirectory (path : rstr) (owner : rstr)
| WriteSepulchreMountCredentials (path : rstr) (contents : rstr)
| SelfUpdate (version : rstr) (from_control_plane : bool) (sha256 : option rstr)
| UninstallAgent (purge : bool)
| ThanatosStream (enabled : bool) (c2_ports : list N)
| DhcpLeases
| NeighborTable
| UpdateTrustedCa (bundle_pem : rstr)
| ScourgeSensorStatus
| ScourgeCollectEvents (eve_offset : N) (eve_inode : N) (max_events : N)
| ScourgeListRules (query : rstr)
| ScourgePcapList
| ScourgeInstall
| ScourgeApplyConfig (interfaces : list rstr) (home_net : rstr) (external_net : rstr) (eve_enabled : bool)
| ScourgeServiceAction (verb : rstr)
| ScourgeUpdateRules
| ScourgeSetSidEnabled (sid : N) (enabled : bool)
| ScourgeSuppressSid (sid : N) (suppress : bool)
| ScourgeRuleTest (pcap_name : rstr)
| ScourgeCaptureStart (bpf : rstr) (max_seconds : N) (max_mb : N) (retention_days : N) (max_total_mb : N)
| ScourgeCaptureStatus (capture_id : rstr)
| ScourgeCaptureCancel (capture_id : rstr)
| ScourgePcapDelete (pcap_name : rstr) (shred_passes : N)
| ScourgeIpsStatus
| ScourgeSetMode (ips : bool)
| ScourgeSetSidAction (sid : N) (action : rstr).
End Op.
Import Op.

(** [min_protocol]: the lowest protocol version of an agent that carries out the
    operation as sent. *)
Definition min_protocol (op : AgentOperation) : N :=
  match op with
  | Ping | SystemInfo => 0
  | ResourceUsage | LoggedInUsers | SetHostname _ | Reboot | ListeningPorts | RecentAuthLog
  | FirewallStatus | FirewallAllowPort _ _ | FirewallEnable | Elevate _ _ | Deescalate
  | ElevationStatus | NetworkInterfaces | NetworkRoutes | DnsConfig | ActiveConnections
  | ConnectivityCheck _ | InterfaceSetState _ _ | NetworkScan _ _ => 1
  | BootHistory | KernelRingBuffer | SystemJournalErrors | FailedLoginAttempts | OomKillEvents
  | CoreDumps | RecentlyModifiedFiles _ => 2
  | JournalDiskUsage | LogRotationStatus | ArchivedLogListing | LogDirectorySizes
  | VacuumJournalBySize _ | VacuumJournalByTime _ => 3
  | ListBackups | CreateBackup _ _ | VerifyBackup _ | RestoreBackup _ _ => 4
  | LoadAverage | TopProcessesByCpu | TopProcessesByMemory | MemoryDetail | DiskIoStats
  | FailedServices => 5
  | ListServices | ServiceStatus _ | ServiceLogs _ | StartService _ | StopService _
  | RestartService _ | EnableService _ | DisableService _ => 6
  | PreviousBootErrors | SystemRunningState | ReadOnlyFilesystems | ReloadSystemdDaemon
  | ResetFailedUnits | RemountReadWrite _ => 7
  | CpuInfo | PciDevices | BlockDevices | MemoryHardware | DiskHealth _ => 8
  | ListContainers | ContainerLogs _ | ContainerInspect _ | ListImages | RuntimeInfo
  | StartContainer _ | StopContainer _ | RestartContainer _ | RemoveContainer _ => 9
  | ListProcesses | ProcessDetail _ | RenicePriority _ _ | SendSignal _ _ => 10
  | CleanupTargetsSummary | ForceLogRotation | ClearTmpFiles _ | ClearCoreDumps => 11
  | VmStatistics | InterruptStatistics | CpuGovernorStatus | TuningParametersStatus
  | SetSwappiness _ | SetIoScheduler _ _ => 12
  | ListUsers | ListGroups | UserDetail _ | CreateUser _ _ | CreateGroup _ | AddUserToGroup _ _
  | RemoveUserFromGroup _ _ | LockUserAccount _ | UnlockUserAccount _ | DeleteUser _ _
  | DeleteGroup _ => 13
  | DirectoryUsageBreakdown _ | FindLargeFiles _ _ | FilesystemCheckDryRun _ | TrimFilesystem _
  | FilesystemRepair _ => 14
  | ListInstalledPackages | SearchPackage _ | PackageInfo _ | ListUpgradable
  | RefreshPackageIndex | InstallPackage _ | UpgradePackage _ | RemovePackage _ => 15
  | PartitionTable _ | LvmSummary | RaidStatus | MountFilesystem _ _ | ExtendLogicalVolume _ _
  | UnmountFilesystem _ | CreatePartition _ _ _ | DeletePartition _ _ | CreateRaidArray _ _ _
  | StopRaidArray _ | CreatePhysicalVolume _ | CreateVolumeGroup _ _
  | CreateLogicalVolume _ _ _ | RemoveLogicalVolume _ | RemoveVolumeGroup _
  | RemovePhysicalVolume _ | CreateFilesystem _ _ => 16
  | ViewManagedSysctl | ViewManagedCronJobs | SetPersistentSysctl _ _
  | RemovePersistentSysctlKey _ | ClearManagedSysctl | SetCronJob _ _ _ _ | RemoveCronJob _
  | ClearManagedCronJobs => 17
  | DeleteQuarantinedFile _ shred_passes => if (1 <=? shred_passes)%N then 39 else 18
  | ListBlockedIps | IsolationStatus | ListQuarantinedFiles | BlockRemoteIp _
  | UnblockRemoteIp _ | QuarantineFile _ | RestoreQuarantinedFile _ | DeisolateHost
  | IsolateHost => 18
  | DeleteSshKeypair _ shred_passes => if (1 <=? shred_passes)%N then 39 else 19
  | ListSshHostKeys | ListSshAuthorizedKeys _ | ListTlsCertificates | CertificateDetail _
  | ScanSensitiveFilePermissions | ViewSensitiveFile _ | GenerateSshKeypair _ _ _
  | FixFilePermissions _ _ | RemoveAuthorizedKey _ _ => 19
  | ScanSecurityEvents _ _ _ _ => 20
  | DetectPackageBackend | RenderSepulchreConfig _ _ | ClearSepulchreConfig _
  | CheckSepulchreConfigIncludeDirective _ | CreateSftpChrootAccount _ _
  | InstallSepulchreAuthorizedKey _ _ | RemoveSftpChrootAccount _ | CreateSambaServiceUser _ _
  | RemoveSambaServiceUser _ | RenderMountUnit _ _ _ | RemoveMountUnit _ _ | CheckMountStatus _
  | CreateSepulchreShareDirectory _ _ | WriteSepulchreMountCredentials _ _ => 22
  | SelfUpdate _ from_control_plane _ => if from_control_plane then 43 else 24
  | FirewallDenyPort _ _ | FirewallRemovePort _ _ | SshdConfigAudit | HardenSshd _
  | ClearSshHardening | SysctlSecurityPosture | AccountPolicyAudit | MacStatus
  | AutomaticUpdatesStatus => 25
  | CpuUtilization | NetworkThroughput | ThermalSensors | MemoryPressure => 26
  | SignalByName _ _ _ | SetIoPriority _ _ _ | SetOomScoreAdj _ _ | ProcessOpenFiles _
  | ProcessLimits _ | ZombieReport => 29
  | SysctlManagedDrift | ViewModuleBlacklist | BlacklistModule _ | RemoveModuleBlacklist _
  | ClearModuleBlacklist | ViewJournaldConfig | SetJournaldRetention _ _ | ClearJournaldConfig => 31
  | ListFailedUnits | RecoverUnit _ | DiskSpaceCritical | FstabCheck => 33
  | AdDnsReport _ | AdHealthReport _ => 35
  | UpdateTrustedCa _ => 36
  | ScourgeSensorStatus | ScourgeCollectEvents _ _ _ | ScourgeListRules _ | ScourgePcapList
  | ScourgeInstall | ScourgeApplyConfig _ _ _ _ | ScourgeServiceAction _ | ScourgeUpdateRules
  | ScourgeSetSidEnabled _ _ | ScourgeSuppressSid _ _ | ScourgeRuleTest _
  | ScourgeCaptureStart _ _ _ _ _ | ScourgeCaptureStatus _ | ScourgeCaptureCancel _
  | ScourgePcapDelete _ _ => 40
  | ScourgeIpsStatus | ScourgeSetMode _ | ScourgeSetSidAction _ _ => 41
  | UninstallAgent _ | NeighborTable => 42
  | ThanatosStream _ _ => 44
  | DhcpLeases => 45
  | PostureFacts => 46
  | DirectoryDiscoverForest | DirectoryTestDelegation _ _ _ | DirectoryOuTree _
  | DirectorySearch _ _ | DirectoryGetObject _ _ | DirectoryUnlockAccount _ _ _ _ _
  | DirectorySetEnabled _ _ _ _ _ _ | DirectorySetPassword _ _ _ _ _ _ | DirectoryCreateUser _
  | ExchangeTestConnection _ _ _ | ExchangeEnableMailbox _ _ _ _ _ | DirectoryCreateGroup _
  | DirectoryDeleteGroup _ _ _ _ _ | DirectoryAddGroupMember _ _ _ _ _ _
  | DirectoryRemoveGroupMember _ _ _ _ _ _ | DirectoryMove _ _ _ _ _ _
  | DirectoryDeleteObject _ _ _ _ _ | DirectoryOffboard _ _ _ _ _ _ | DirectoryUndoOffboard _
  | ExchangeSetMailboxOffboard _ _ _ _ _ | DirectoryStaleAccounts _ _ => 47
  end%N.

Definition RELEASES : list (N * rstr) :=
  [(33%N, #"0.1.6"); (34%N, #"0.1.8"); (38%N, #"0.2.0"); (42%N, #"0.2.2"); (45%N, #"0.2.3"); (46%N, #"0.2.4"); (47%N, #"0.2.5")].

Definition agent_release_for_protocol (protocol : N) : option rstr :=
  snd <$> List.find (λ p, (protocol <=? p.1)%N) RELEASES.

(** [runs_concurrently]: operations that change nothing on the host and keep no
    state between calls. *)
Definition runs_concurrently (op : AgentOperation) : bool :=
  match op with
  | Ping | SystemInfo | ResourceUsage | LoggedInUsers | ListeningPorts | RecentAuthLog
  | FirewallStatus | SshdConfigAudit | SysctlSecurityPosture | AccountPolicyAudit | MacStatus
  | PostureFacts | AutomaticUpdatesStatus | ElevationStatus | NetworkInterfaces | NetworkRoutes
  | DnsConfig | ActiveConnections | ConnectivityCheck _ | NetworkScan _ _ | BootHistory
  | KernelRingBuffer | SystemJournalErrors | FailedLoginAttempts | OomKillEvents | CoreDumps
  | RecentlyModifiedFiles _ | JournalDiskUsage | LogRotationStatus | ArchivedLogListing
  | LogDirectorySizes | ListBackups | LoadAverage | TopProcessesByCpu | TopProcessesByMemory
  | MemoryDetail | DiskIoStats | FailedServices | CpuUtilization | NetworkThroughput
  | ThermalSensors | MemoryPressure | ListServices | ServiceStatus _ | ServiceLogs _
  | PreviousBootErrors | SystemRunningState | ReadOnlyFilesystems | ListFailedUnits
  | DiskSpaceCritical | FstabCheck | CpuInfo | PciDevices | BlockDevices | MemoryHardware
  | DiskHealth _ | ListContainers | ContainerLogs _ | ContainerInspect _ | ListImages
  | RuntimeInfo | ListProcesses | ProcessDetail _ | ProcessOpenFiles _ | ProcessLimits _
  | ZombieReport | CleanupTargetsSummary | VmStatistics | InterruptStatistics
  | CpuGovernorStatus | TuningParametersStatus | ListUsers | ListGroups | UserDetail _
  | DirectoryUsageBreakdown _ | FindLargeFiles _ _ | ListInstalledPackages | SearchPackage _
  | PackageInfo _ | PartitionTable _ | LvmSummary | RaidStatus | ViewManagedSysctl
  | ViewManagedCronJobs | SysctlManagedDrift | ViewModuleBlacklist | ViewJournaldConfig
  | ListBlockedIps | IsolationStatus | ListQuarantinedFiles | ListSshHostKeys
  | ListSshAuthorizedKeys _ | ListTlsCertificates | CertificateDetail _
  | ScanSensitiveFilePermissions | ViewSensitiveFile _ | ScanSecurityEvents _ _ _ _
  | AdDnsReport _ | AdHealthReport _ | DirectoryDiscoverForest | DirectoryTestDelegation _ _ _
  | DirectoryOuTree _ | DirectorySearch _ _ | DirectoryGetObject _ _
  | DirectoryStaleAccounts _ _ | ExchangeTestConnection _ _ _ | DetectPackageBackend
  | CheckSepulchreConfigIncludeDirective _ | CheckMountStatus _ | NeighborTable | DhcpLeases
  | ScourgeSensorStatus | ScourgeCollectEvents _ _ _ | ScourgeListRules _ | ScourgePcapList
  | ScourgeCaptureStatus _ | ScourgeIpsStatus => true
  | _ => false
  end.

(** ** Lemmas *)

Lemma min_protocol_bound op : (min_protocol op ≤ PROTOCOL_VERSION)%N.
Proof. destruct op; cbn; repeat case_match; cbv; discriminate. Qed.

(** The release named in a refusal speaks the version that was asked for, and no
    earlier release does. *)
Lemma agent_release_found protocol rel :
  agent_release_for_protocol protocol = Some rel →
  ∃ v, (v, rel) ∈ RELEASES ∧ (protocol ≤ v)%N.
Proof.
  unfold agent_release_for_protocol. intros ([v r] & Hf & ->)%fmap_Some.
  apply find_some in Hf as [Hin Hle%N.leb_le]. exists v. split; [by apply list_elem_of_In|done].
Qed.
