(* ===== verification/Validators.v ===== *)
(** * The shared validators ([crates/agent-protocol/src/lib.rs])

    Every check the control plane makes before it dispatches a value to an agent
    and the agent repeats before it acts on one.  [len] is the length in bytes,
    as [str::len] is. *)

From S2P Require Import Prelude Ip.

Definition one_of (set : rstr) (c : char) : bool := char_mem c set.
Definition starts_with_char (s : rstr) (c : char) : bool :=
  match s with x :: _ => (x =? c)%N | [] => false end.
Definition ends_with_char (s : rstr) (c : char) : bool :=
  match last s with Some x => (x =? c)%N | None => false end.
Definition no_control (s : rstr) : bool := forallb (λ c, negb (is_control c)) s.
Definition between (lo hi n : N) : bool := (lo <=? n)%N && (n <=? hi)%N.

(** ** Certificates, hostnames and networks *)

Definition MAX_CA_BUNDLE_BYTES : N := 64 * 1024.

Definition is_valid_ca_bundle (pem : rstr) : bool :=
  let begin := #"-----BEGIN CERTIFICATE-----" in
  let end_ := #"-----END CERTIFICATE-----" in
  let count := count_matches begin pem 0 in
  (N.of_nat (len pem) <=? MAX_CA_BUNDLE_BYTES)%N
  && (1 <=? count) && (count <=? 4)
  && (count =? count_matches end_ pem 0)
  && negb (contains pem #"PRIVATE KEY")
  && forallb (λ l, str_eqb l begin || str_eqb l end_)
       (List.filter (λ l, starts_with l #"-----") (lines pem)).

Definition is_valid_label (label : rstr) : bool :=
  negb (is_empty label)
  && (len label <=? 63)
  && forallb (λ c, is_ascii_alphanumeric c || (c =? $"-")%N) label
  && negb (starts_with_char label $"-")
  && negb (ends_with_char label $"-").

Definition is_valid_hostname (name : rstr) : bool :=
  if is_empty name || (253 <? len name) then false
  else forallb is_valid_label (split_char $"." name).

Definition is_valid_port_protocol (port : N) (protocol : rstr) : bool :=
  negb (port =? 0)%N && (str_eqb protocol #"tcp" || str_eqb protocol #"udp").

Definition is_valid_network_target (target : rstr) : bool :=
  if is_empty target || (253 <? len target) || starts_with_char target $"-" then false
  else match split_once $"/" target with
       | Some (addr, prefix) =>
           bool_decide (is_Some (parse_ipv4 addr)) &&
           match parse_u8 prefix with Some p => (p <=? 32)%N | None => false end
       | None => bool_decide (is_Some (parse_ipv4 target)) || is_valid_hostname target
       end.

Definition is_valid_interface_name (name : rstr) : bool :=
  negb (is_empty name) && (len name <=? 15) && negb (starts_with_char name $"-")
  && forallb (λ c, is_ascii_alphanumeric c || one_of #".-_:" c) name.

Definition is_valid_port_spec (spec : rstr) : bool :=
  negb (is_empty spec) && (len spec <=? 256)
  && forallb (λ c, is_ascii_digit c || one_of #",-" c) spec.

Definition is_valid_lookback_hours : N → bool := between 1 720.

(** ** Journals and backups *)

Definition is_digit_led_alphanumeric (value : rstr) (max_len : nat) : bool :=
  negb (is_empty value) && (len value <=? max_len)
  && match value with c :: _ => is_ascii_digit c | [] => false end
  && forallb is_ascii_alphanumeric value.
Definition is_valid_vacuum_size (value : rstr) : bool := is_digit_led_alphanumeric value 16.
Definition is_valid_vacuum_duration (value : rstr) : bool := is_digit_led_alphanumeric value 32.

Definition is_valid_backup_name (name : rstr) : bool :=
  negb (is_empty name) && (len name <=? 100)
  && forallb (λ c, is_ascii_alphanumeric c || one_of #"-_" c) name.

Definition is_valid_backup_filename (filename : rstr) : bool :=
  ends_with filename #".tar.gz"
  && (len filename <=? 120)
  && negb (contains_char filename $"/")
  && negb (contains filename #"..")
  && forallb (λ c, is_ascii_alphanumeric c || one_of #"-_." c) filename.

Definition is_valid_absolute_path (path : rstr) : bool :=
  starts_with_char path $"/" && negb (str_eqb path #"/")
  && (N.of_nat (len path) <=? 4096)%N && no_control path.

Definition is_valid_windows_absolute_path (path : rstr) : bool :=
  match path with
  | drive :: c1 :: c2 :: _ =>
      is_ascii_alphabetic drive && (c1 =? $":")%N && (c2 =? 92)%N
      && (N.of_nat (len path) <=? 4096)%N
      && negb (existsb (λ segment, str_eqb segment #"..")
                 (split_on (λ c, (c =? 92) || (c =? $"/"))%N path))
      && no_control path
  | _ => false
  end.

(** ** Active Directory *)

Definition FORBIDDEN : list char := 34%N :: 92%N :: #"/[]:;|=,+*?<>@".

Definition is_valid_sam_account_name (name : rstr) : bool :=
  if is_empty name || (20 <? length name) then false
  else if starts_with_char name $" " || ends_with_char name $" " || ends_with_char name $"." then false
  else if forallb (λ c, (c =? $".") || (c =? $" "))%N name then false
  else forallb (λ c, negb (is_control c) && negb (char_mem c FORBIDDEN)) name.

Definition is_valid_upn_suffix : rstr → bool := is_valid_hostname.

Definition is_valid_user_principal_name (upn : rstr) : bool :=
  match split_once $"@" upn with
  | None => false
  | Some (local, suffix) =>
      if is_empty local || (64 <? len local) || contains_char local $"@"
         || starts_with_char local $"." || ends_with_char local $"." then false
      else forallb (λ c, is_ascii_alphanumeric c || one_of #"._-+" c) local
           && is_valid_upn_suffix suffix
  end.

(** The scanner of [is_valid_ldap_dn]: splits on commas that no backslash
    escapes; [None] on a dangling escape. *)
Fixpoint split_rdns (dn current : rstr) (escaped : bool) : option (list rstr) :=
  match dn with
  | [] => if escaped then None else Some [current]
  | c :: dn' =>
      if escaped then split_rdns dn' (current ++ [c]) false
      else if (c =? 92)%N then split_rdns dn' (current ++ [c]) true
      else if (c =? $",")%N then
        match split_rdns dn' [] false with
        | Some rdns => Some (current :: rdns)
        | None => None
        end
      else split_rdns dn' (current ++ [c]) false
  end.

Definition is_valid_rdn (rdn : rstr) : bool :=
  match split_once $"=" rdn with
  | None => false
  | Some (attr, value) =>
      let attr := trim attr in
      negb (is_empty attr) && (len attr <=? 32)
      && forallb (λ c, is_ascii_alphanumeric c || (c =? $"-")%N) attr
      && negb (is_empty (trim value))
  end.

Definition is_valid_ldap_dn (dn : rstr) : bool :=
  if is_empty dn || (2048 <? N.of_nat (len dn))%N || existsb is_control dn then false
  else match split_rdns dn [] false with
       | None => false
       | Some rdns => forallb is_valid_rdn rdns
       end.

Definition WRITABLE_AD_USER_ATTRIBUTES : list rstr :=
  [ #"givenName"; #"sn"; #"initials"; #"displayName"; #"description"; #"mail"; #"department";
    #"company"; #"title"; #"manager"; #"physicalDeliveryOfficeName"; #"telephoneNumber";
    #"mobile"; #"streetAddress"; #"l"; #"st"; #"postalCode"; #"co"; #"employeeID";
    #"employeeNumber"].
Definition is_writable_ad_user_attribute (attr : rstr) : bool :=
  existsb (λ a, eq_ignore_ascii_case a attr) WRITABLE_AD_USER_ATTRIBUTES.

(** [&s[i..]]: the rest of the string from byte [i], or a panic ([None]) when [i]
    is past the end or inside a character. *)
Fixpoint slice_from (s : rstr) (i : nat) : option rstr :=
  match i, s with
  | 0, _ => Some s
  | S _, [] => None
  | S _, c :: s' => if utf8_len c <=? i then slice_from s' (i - utf8_len c) else None
  end.

Section names.
(** [str::to_lowercase]. *)
Context (to_lowercase : rstr → rstr).

(** The loop of [replace_ci]; every round consumes at least one byte, so the
    length in bytes is enough fuel.  [None] is a panic. *)
Fixpoint replace_loop (fuel : nat) (haystack lower_h lower_n value : rstr) (needle_len i : nat)
    (out : rstr) : option rstr :=
  match fuel with
  | 0 => Some out
  | S k =>
      if i <? len haystack then
        rest ← slice_from lower_h i;
        if starts_with rest lower_n
        then replace_loop k haystack lower_h lower_n value needle_len (i + needle_len) (out ++ value)
        else
          h ← slice_from haystack i;
          match h with
          | [] => None
          | ch :: _ =>
              replace_loop k haystack lower_h lower_n value needle_len (i + utf8_len ch) (out ++ [ch])
          end
      else Some out
  end.

Definition replace_ci (haystack needle value : rstr) : option rstr :=
  if is_empty needle then Some haystack
  else replace_loop (S (len haystack)) haystack (to_lowercase haystack) (to_lowercase needle)
         value (len needle) 0 [].

Definition expand_name_pattern (pattern first last : rstr) : option rstr :=
  let first := trim first in
  let last := trim last in
  let fi := take 1 first in
  let li := take 1 last in
  out ← replace_ci pattern #"{first}" first;
  out ← replace_ci out #"{last}" last;
  out ← replace_ci out #"{f}" fi;
  replace_ci out #"{l}" li.

(** [while s.len() > 20 { s.pop(); }]: the filtered string is ASCII. *)
Definition sanitize_sam_account_name (raw : rstr) : rstr :=
  let s := List.filter (λ c, is_ascii_alphanumeric c || one_of #"._-" c) (to_lowercase (trim raw)) in
  trim_matches (N.eqb $".") (take 20 s).
End names.

(** ** Units, containers, processes *)

Definition is_valid_unit_name (name : rstr) : bool :=
  negb (is_empty name) && (len name <=? 256) && negb (starts_with_char name $"-")
  && forallb (λ c, is_ascii_alphanumeric c || one_of #"-_.:@" c) name.

Definition is_valid_mount_target (path : rstr) : bool :=
  starts_with_char path $"/" && (N.of_nat (len path) <=? 4096)%N && no_control path.

Definition is_valid_container_ref (name : rstr) : bool :=
  negb (is_empty name) && (len name <=? 255) && negb (starts_with_char name $"-")
  && forallb (λ c, is_ascii_alphanumeric c || one_of #"-_." c) name.

Definition is_valid_pid (pid : N) : bool := (1 <? pid)%N.
Definition is_valid_nice_priority (priority : Z) : bool := (-20 <=? priority)%Z && (priority <=? 19)%Z.
Definition is_valid_ionice_class : N → bool := between 1 3.
Definition is_valid_ionice_level (level : N) : bool := (level <=? 7)%N.
Definition is_valid_oom_score_adj (adj : Z) : bool := (-1000 <=? adj)%Z && (adj <=? 1000)%Z.
Definition is_valid_cleanup_days : N → bool := between 1 3650.
Definition is_valid_swappiness (value : N) : bool := (value <=? 200)%N.

Definition is_valid_block_device_name (name : rstr) : bool :=
  negb (is_empty name) && (len name <=? 32) && negb (starts_with_char name $"-")
  && forallb (λ c, is_ascii_alphanumeric c || (c =? $"-")%N) name.

Definition is_valid_io_scheduler (name : rstr) : bool :=
  str_mem name [ #"mq-deadline"; #"kyber"; #"bfq"; #"none"; #"deadline"; #"noop"].

(** ** Accounts *)

Definition is_valid_account_name (name : rstr) : bool :=
  if is_empty name || (32 <? len name) then false
  else match name with
       | [] => false
       | first :: chars =>
           (is_ascii_lowercase first || (first =? $"_")%N)
           && forallb (λ c, is_ascii_lowercase c || is_ascii_digit c || one_of #"_-" c) chars
       end.

Definition is_valid_windows_account_name (name : rstr) : bool :=
  if is_empty name || (20 <? len name) then false
  else match name with
       | [] => false
       | first :: chars =>
           (is_ascii_alphabetic first || (first =? $"_")%N)
           && forallb (λ c, is_ascii_alphanumeric c || one_of #"_-." c) chars
       end.

Definition is_protected_account_name (name : rstr) : bool := str_eqb name #"root".
Definition is_protected_windows_account_name (name : rstr) : bool :=
  str_mem (to_ascii_lowercase name)
    [ #"administrator"; #"guest"; #"defaultaccount"; #"wdagutilityaccount"].

Definition is_valid_gecos_comment (comment : rstr) : bool :=
  negb (starts_with_char comment $"-") && (len comment <=? 200) && no_control comment.

(** ** Packages, partitions, kernel settings *)

Definition is_valid_size_mb : N → bool := between 1 1000000.

Definition is_valid_package_name (name : rstr) : bool :=
  negb (is_empty name) && (len name <=? 200) && negb (starts_with_char name $"-")
  && forallb (λ c, is_ascii_alphanumeric c || one_of #"-_.+:@/" c) name.

Definition is_valid_search_query (query : rstr) : bool :=
  negb (is_empty query) && (len query <=? 200) && negb (starts_with_char query $"-")
  && no_control query.

Definition is_valid_partition_position (value : rstr) : bool :=
  negb (is_empty value) && (len value <=? 16) && negb (starts_with_char value $"-")
  && forallb (λ c, is_ascii_alphanumeric c || one_of #".%" c) value.

Definition is_valid_partition_number : N → bool := between 1 128.
Definition is_valid_raid_level (level : rstr) : bool :=
  str_mem level [ #"linear"; #"0"; #"1"; #"4"; #"5"; #"6"; #"10"].
Definition is_valid_fstype (fstype : rstr) : bool :=
  str_mem fstype [ #"ext2"; #"ext3"; #"ext4"; #"xfs"; #"btrfs"; #"vfat"; #"f2fs"].

Definition is_valid_sysctl_key (key : rstr) : bool :=
  negb (is_empty key) && (len key <=? 200) && negb (starts_with_char key $"-")
  && forallb (λ c, is_ascii_alphanumeric c || one_of #"./_-" c) key.

Definition is_valid_sysctl_value (value : rstr) : bool :=
  negb (is_empty value) && (len value <=? 200) && no_control value.

Definition is_valid_kernel_module_name (name : rstr) : bool :=
  negb (is_empty name) && (len name <=? 64) && negb (starts_with_char name $"-")
  && forallb (λ c, is_ascii_alphanumeric c || one_of #"_-." c) name.

Definition is_valid_journald_value (value : rstr) : bool :=
  negb (is_empty value) && (len value <=? 32)
  && forallb (λ c, is_ascii_alphanumeric c || one_of #".%" c) value.

Definition is_valid_cron_schedule (schedule : rstr) : bool :=
  if is_empty schedule || (100 <? len schedule) then false
  else match strip_prefix schedule #"@" with
       | Some rest =>
           str_mem rest [ #"reboot"; #"yearly"; #"annually"; #"monthly"; #"weekly"; #"daily"; #"hourly"]
       | None => forallb (λ c, is_ascii_alphanumeric c || one_of #"*/,- " c) schedule
       end.

Definition is_valid_cron_command (command : rstr) : bool :=
  negb (is_empty command) && (len command <=? 500) && no_control command.

Definition is_valid_process_name (name : rstr) : bool :=
  negb (is_empty name) && (len name <=? 128) && negb (starts_with_char name $"-")
  && forallb (λ c, negb (is_whitespace c) && negb (is_control c)) name.

Definition is_valid_signal_name (signal : rstr) : bool :=
  let normalized := to_ascii_uppercase signal in
  let normalized := default normalized (strip_prefix normalized #"SIG") in
  str_mem normalized
    [ #"TERM"; #"KILL"; #"HUP"; #"INT"; #"QUIT"; #"USR1"; #"USR2"; #"STOP"; #"CONT"].

Definition is_valid_ip_address (ip : rstr) : bool := bool_decide (is_Some (parse_ip ip)).

(** ** Quarantine, keys and permissions *)

Definition MAX_SHRED_PASSES : N := 35.

Definition shred_verb (passes : N) : rstr :=
  if (passes =? 0)%N then #"Deleted"
  else if (passes =? 1)%N then #"Shredded (1 pass)"
  else #"Shredded (" ++ fmt_N passes ++ #" passes)".

Definition is_valid_quarantine_filename (filename : rstr) : bool :=
  negb (is_empty filename) && (N.of_nat (len filename) <=? 4096)%N
  && negb (contains_char filename $"/")
  && negb (contains_char filename 92%N)
  && negb (contains filename #"..")
  && no_control filename.

Definition is_valid_ssh_key_type (key_type : rstr) : bool :=
  str_mem key_type [ #"rsa"; #"ed25519"; #"ecdsa"].

Definition is_valid_ssh_fingerprint (fingerprint : rstr) : bool :=
  negb (is_empty fingerprint) && (len fingerprint <=? 100)
  && forallb (λ c, is_ascii_alphanumeric c || one_of #":+/=" c) fingerprint.

Definition is_valid_tightened_permission_mode (mode : rstr) : bool :=
  str_mem mode [ #"600"; #"400"; #"640"; #"700"].
