(* ===== verification/ValidatorTheorems.v ===== *)
(** * What an accepted value can and cannot contain

    The reasons the validators exist: an accepted value is never read as a flag,
    never leaves the directory it is joined to, and never adds a line to the
    file it is written into. *)

From S2P Require Import Prelude Ip Validators.

(** ** Classes of characters *)

Lemma alphanumeric_not_control c : is_ascii_alphanumeric c = true → is_control c = false.
Proof.
  unfold is_ascii_alphanumeric, is_ascii_alphabetic, is_ascii_lowercase, is_ascii_uppercase,
    is_ascii_digit, is_control, in_range. intros Hc. apply orb_false_iff.
  rewrite N.ltb_ge, andb_false_iff, !N.leb_gt.
  rewrite !orb_true_iff, !andb_true_iff, !N.leb_le in Hc. lia.
Qed.

Lemma alphanumeric_range c :
  is_ascii_alphanumeric c = true → (48 ≤ c ≤ 57 ∨ 65 ≤ c ≤ 90 ∨ 97 ≤ c ≤ 122)%N.
Proof.
  unfold is_ascii_alphanumeric, is_ascii_alphabetic, is_ascii_lowercase, is_ascii_uppercase,
    is_ascii_digit, in_range. rewrite !orb_true_iff, !andb_true_iff, !N.leb_le. lia.
Qed.

(** Printable and harmless as the first character of an argument. *)
Definition plain (c : char) : bool := negb (is_control c) && negb (c =? $"-")%N.

(** A value that no program reads as an option and no line-based file splits. *)
Definition argument_safe (s : rstr) : Prop :=
  starts_with_char s $"-" = false ∧ ∀ c, c ∈ s → is_control c = false.

(** A set of punctuation without control characters. *)
Definition printable_set (set : rstr) : bool := forallb (λ c, negb (is_control c)) set.

Lemma one_of_not_control set c : printable_set set = true → one_of set c = true → is_control c = false.
Proof.
  intros Hs Hc%char_mem_elem. unfold printable_set in Hs. rewrite forallb_elem in Hs.
  by apply negb_true_iff, Hs.
Qed.

Lemma chars_not_control f s :
  forallb f s = true → (∀ c, f c = true → is_control c = false) → ∀ c, c ∈ s → is_control c = false.
Proof. intros Hs Hf c Hc. rewrite forallb_elem in Hs. by apply Hf, Hs. Qed.

Lemma no_control_spec s : no_control s = true → ∀ c, c ∈ s → is_control c = false.
Proof. intros Hs. apply (chars_not_control _ _ Hs). intros c. by apply negb_true_iff. Qed.

Lemma alnum_or set c :
  printable_set set = true → is_ascii_alphanumeric c || one_of set c = true → is_control c = false.
Proof.
  intros Hs [Hc|Hc]%orb_true_iff; [by apply alphanumeric_not_control|by apply (one_of_not_control set)].
Qed.

Lemma forallb_at (f : char → bool) s c : forallb f s = true → c ∈ s → f c = true.
Proof. rewrite forallb_elem. auto. Qed.

(** Splits the conjunctions of an accepted value and solves both halves of
    [argument_safe]. *)
Ltac accepted :=
  repeat match goal with
  | H : (if ?b then false else _) = true |- _ => destruct b eqn:?; [discriminate H|]
  | H : _ && _ = true |- _ => apply andb_true_iff in H as [? ?]
  | H : _ || _ = false |- _ => apply orb_false_iff in H as [? ?]
  | H : negb _ = true |- _ => apply negb_true_iff in H
  end.

(** ** Hostnames and targets *)

Lemma label_char label c :
  is_valid_label label = true → c ∈ label → is_ascii_alphanumeric c || (c =? $"-")%N = true.
Proof.
  unfold is_valid_label. intros Hl Hc. accepted.
  exact (forallb_at _ _ _ H2 Hc).
Qed.

(** A string is its pieces and separators. *)
Lemma split_on_cover f s c : c ∈ s → f c = true ∨ ∃ w, w ∈ split_on f s ∧ c ∈ w.
Proof.
  induction s as [|a s IH]; cbn; [by intros ?%elem_of_nil|].
  intros [->|Hc]%elem_of_cons.
  - destruct (f a) eqn:Ha; [by left|right].
    destruct (split_on f s) as [|w ws]; eexists; (split; [apply list_elem_of_here|apply list_elem_of_here]).
  - destruct (IH Hc) as [?|(w & Hw & Hcw)]; [by left|right]. destruct (f a).
    + exists w. split; [by apply list_elem_of_further|done].
    + destruct (split_on f s) as [|v vs]; [by apply elem_of_nil in Hw|].
      apply elem_of_cons in Hw as [->|Hw].
      * eexists. split; [apply list_elem_of_here|by apply list_elem_of_further].
      * exists w. split; [by apply list_elem_of_further|done].
Qed.

Lemma split_on_head f s :
  match s with
  | c :: _ => f c = false → ∃ w ws, split_on f s = (c :: w) :: ws
  | [] => True
  end.
Proof. destruct s as [|c s]; [done|]. intros Hc. cbn. rewrite Hc. destruct (split_on f s); by do 2 eexists. Qed.

Lemma hostname_safe name : is_valid_hostname name = true → argument_safe name.
Proof.
  unfold is_valid_hostname. intros Hn. accepted. rewrite forallb_forall in Hn.
  assert (∀ w, w ∈ split_char $"." name → is_valid_label w = true) as Hl.
  { intros w Hw. by apply Hn, list_elem_of_In. }
  split.
  - destruct name as [|c s]; [done|]. cbn [starts_with_char].
    destruct (c =? $"-")%N eqn:Hc; [|done]. apply N.eqb_eq in Hc. subst c.
    destruct (split_on_head (N.eqb $".") ($"-" :: s)) as (w & ws & Hw); [done|].
    specialize (Hl ($"-" :: w)). unfold split_char in Hl. rewrite Hw in Hl.
    specialize (Hl (list_elem_of_here _ _)). unfold is_valid_label in Hl. by accepted.
  - intros c Hc. destruct (split_on_cover (N.eqb $".") name c Hc) as [Hd|(w & Hw & Hcw)].
    + apply N.eqb_eq in Hd. by subst c.
    + pose proof (label_char w c (Hl w Hw) Hcw) as [Ha|Ha]%orb_true_iff;
        [by apply alphanumeric_not_control|]. apply N.eqb_eq in Ha. by subst c.
Qed.

Lemma digit_not_control c : is_ascii_digit c = true → is_control c = false.
Proof.
  intros Hd. apply alphanumeric_not_control. unfold is_ascii_alphanumeric. rewrite Hd. apply orb_true_r.
Qed.

Lemma parse_digits_chars s acc n c : parse_digits s acc = Some n → c ∈ s → is_ascii_digit c = true.
Proof.
  revert acc. induction s as [|a s IH]; cbn; intros acc Hp; [by intros ?%elem_of_nil|].
  destruct (is_ascii_digit a) eqn:Ha; [|done]. intros [->|Hc]%elem_of_cons; [done|eapply IH; eassumption].
Qed.

Lemma parse_octet_chars s n c : parse_octet s = Some n → c ∈ s → is_ascii_digit c = true.
Proof.
  unfold parse_octet. intros Hp Hc. destruct (_ || _); [done|]. destruct (_ && _); [done|].
  destruct (parse_digits s 0) eqn:Hd; [|done]. eapply parse_digits_chars; eassumption.
Qed.

Lemma parse_ipv4_chars s a c : parse_ipv4 s = Some a → c ∈ s → is_control c = false.
Proof.
  unfold parse_ipv4. intros Hp Hc. destruct (split_on_cover (N.eqb $".") s c Hc) as [Hd|(w & Hw & Hcw)].
  { apply N.eqb_eq in Hd. by subst c. }
  unfold split_char in Hp. destruct (split_on (N.eqb $".") s) as [|w1 [|w2 [|w3 [|w4 [|w5 ws]]]]]; try done.
  destruct (parse_octet w1) eqn:H1, (parse_octet w2) eqn:H2, (parse_octet w3) eqn:H3,
    (parse_octet w4) eqn:H4; try done.
  apply digit_not_control. rewrite !elem_of_cons, elem_of_nil in Hw.
  destruct Hw as [->|[->|[->|[->|[]]]]]; (eapply parse_octet_chars; [|exact Hcw]; eassumption).
Qed.

Lemma parse_u8_chars s n c : parse_u8 s = Some n → c ∈ s → is_control c = false.
Proof.
  unfold parse_u8, parse_unsigned. intros Hp Hc. destruct (strip_prefix s #"+") as [r|] eqn:Hs; cbn [default from_option id] in Hp; unfold id in Hp.
  - apply strip_prefix_Some in Hs. subst s. apply elem_of_app in Hc as [Hc|Hc].
    { apply (proj1 (list_elem_of_singleton _ _)) in Hc. by subst c. }
    destruct (is_empty r); [done|]. destruct (parse_digits r 0) eqn:Hd; [|done].
    eapply digit_not_control, parse_digits_chars; [|exact Hc]; eassumption.
  - destruct (is_empty s); [done|]. destruct (parse_digits s 0) eqn:Hd; [|done].
    eapply digit_not_control, parse_digits_chars; [|exact Hc]; eassumption.
Qed.

Lemma network_target_safe target : is_valid_network_target target = true → argument_safe target.
Proof.
  unfold is_valid_network_target. intros Ht. accepted. split; [assumption|]. intros c Hc.
  destruct (split_once $"/" target) as [[addr prefix]|] eqn:Hs.
  - apply split_once_Some in Hs as [-> _]. apply andb_true_iff in Ht as [Ha%bool_decide_eq_true Hp].
    destruct Ha as [a Ha], (parse_u8 prefix) as [p|] eqn:Hu; [|done].
    rewrite elem_of_app, elem_of_cons in Hc. destruct Hc as [Hc|[->|Hc]].
    + by apply (parse_ipv4_chars _ _ _ Ha).
    + done.
    + by apply (parse_u8_chars _ _ _ Hu).
  - apply orb_true_iff in Ht as [[a Ha]%bool_decide_eq_true|Ht]; [|by apply (proj2 (hostname_safe _ Ht))].
    by apply (parse_ipv4_chars _ _ _ Ha).
Qed.

(** ** Values built from a fixed set of characters *)

Lemma guarded_safe f s :
  starts_with_char s $"-" = false → forallb f s = true → (∀ c, f c = true → is_control c = false) →
  argument_safe s.
Proof. intros Hd Hf Hc. split; [done|]. by apply (chars_not_control f). Qed.

(** A value led by a character that is not a dash. *)
Lemma led_safe f g c s :
  f c = true → forallb g s = true → f $"-" = false → (∀ c, f c || g c = true → is_control c = false) →
  argument_safe (c :: s).
Proof.
  intros Hc Hs Hd Hfg. split.
  - cbn. apply N.eqb_neq. intros ->. congruence.
  - intros x [->|Hx]%elem_of_cons; apply Hfg, orb_true_iff; [by left|right].
    by apply (forallb_at g s).
Qed.

Lemma lowercase_not_control c : is_ascii_lowercase c = true → is_control c = false.
Proof.
  intros Hc. apply alphanumeric_not_control.
  unfold is_ascii_alphanumeric, is_ascii_alphabetic. by rewrite Hc.
Qed.

Lemma alphabetic_not_control c : is_ascii_alphabetic c = true → is_control c = false.
Proof. intros Hc. apply alphanumeric_not_control. unfold is_ascii_alphanumeric. by rewrite Hc. Qed.

Create HintDb printable.
#[export] Hint Resolve alphanumeric_not_control digit_not_control lowercase_not_control
  alphabetic_not_control : printable.

(** Solves [f c = true → is_control c = false] for the classes the validators use. *)
Ltac printable_class :=
  let x := fresh "x" in let Hprintable := fresh "Hx" in
  intros x Hprintable; cbn beta in Hprintable;
  repeat match type of Hprintable with
  | _ || _ = true => apply orb_true_iff in Hprintable as [Hprintable|Hprintable]
  end;
  first
    [ solve [auto with printable]
    | solve [eapply one_of_not_control; [|exact Hprintable]; reflexivity]
    | apply N.eqb_eq in Hprintable; by rewrite Hprintable ].

Lemma named_safe set s :
  printable_set set = true → starts_with_char s $"-" = false →
  forallb (λ c, is_ascii_alphanumeric c || one_of set c) s = true → argument_safe s.
Proof. intros Hset Hd Hs. apply (guarded_safe _ _ Hd Hs). intros c. by apply alnum_or. Qed.

Lemma control_free_safe s : starts_with_char s $"-" = false → no_control s = true → argument_safe s.
Proof. intros Hd Hs. split; [done|]. by apply no_control_spec. Qed.

Lemma absolute_not_dash s : starts_with_char s $"/" = true → starts_with_char s $"-" = false.
Proof. destruct s as [|c s]; [done|]. cbn. by intros ->%N.eqb_eq. Qed.

Lemma digit_led_safe s n : is_digit_led_alphanumeric s n = true → argument_safe s.
Proof.
  unfold is_digit_led_alphanumeric. destruct s as [|c s]; [done|]. intros H. accepted.
  apply (guarded_safe is_ascii_alphanumeric); [|assumption|apply alphanumeric_not_control].
  cbn. apply N.eqb_neq. by intros ->.
Qed.

Lemma account_name_safe s : is_valid_account_name s = true → argument_safe s.
Proof.
  unfold is_valid_account_name. intros H. accepted. destruct s as [|c s]; [done|]. accepted.
  apply (led_safe (λ c, is_ascii_lowercase c || (c =? $"_")%N)
           (λ c, is_ascii_lowercase c || is_ascii_digit c || one_of #"_-" c)); [done..|].
  printable_class.
Qed.

Lemma windows_account_name_safe s : is_valid_windows_account_name s = true → argument_safe s.
Proof.
  unfold is_valid_windows_account_name. intros H. accepted. destruct s as [|c s]; [done|]. accepted.
  apply (led_safe (λ c, is_ascii_alphabetic c || (c =? $"_")%N)
           (λ c, is_ascii_alphanumeric c || one_of #"_-." c)); [done..|].
  printable_class.
Qed.

Lemma ip_address_safe s : is_valid_ip_address s = true → argument_safe s.
Proof.
  intros [a Ha]%bool_decide_eq_true. apply parse_ip_ok in Ha as [_ Hs]. apply (guarded_safe ip_char); [|done|].
  - destruct s as [|c s]; [done|]. cbn in Hs |- *. apply andb_true_iff in Hs as [Hc _]. apply N.eqb_neq. by intros ->.
  - intros c [Hc|Hc]%orb_true_iff; [|by apply (one_of_not_control [$"."; $":"])].
    destruct (is_control c) eqn:E; [|done]. revert Hc E.
    unfold is_ascii_hexdigit, is_ascii_digit, is_control, in_range.
    rewrite !orb_true_iff, !andb_true_iff, !N.ltb_lt, !N.leb_le. lia.
Qed.

(** A value of a fixed list, if every value of the list is safe. *)
Lemma listed_safe s l : str_mem s l = true → forallb (λ t, negb (starts_with_char t $"-") && no_control t) l = true → argument_safe s.
Proof.
  intros Hs Hl. apply str_mem_elem in Hs. rewrite forallb_forall in Hl. apply list_elem_of_In, Hl in Hs.
  apply andb_true_iff in Hs as [Hd%negb_true_iff Hc]. by apply control_free_safe.
Qed.
