(* ===== verification/InputTheorems.v ===== *)
(** * Claims about the validators of untrusted input

    What the agent may rely on once a validator has accepted a value: it is not
    an option, it stays inside the directory it is joined to, and a generated
    account name is one the directory accepts. *)

From S2P Require Import Prelude Ip Validators ValidatorTheorems.

(** ** Lexical resolution of a path *)

(** What a path names once empty and [.] components are skipped and each [..]
    takes its parent away. *)
Definition resolve_step (acc : list rstr) (component : rstr) : list rstr :=
  if is_empty component || str_eqb component #"." then acc
  else if str_eqb component #".." then removelast acc
  else acc ++ [component].
Definition resolve (path : rstr) : list rstr := foldl resolve_step [] (split_char $"/" path).

Lemma split_on_none f s : existsb f s = false → split_on f s = [s].
Proof.
  induction s as [|c s IH]; cbn; [done|]. intros [Hc Hs]%orb_false_iff.
  by rewrite Hc, (IH Hs).
Qed.

Lemma split_char_join c s t :
  split_char c (s ++ c :: t) = split_char c s ++ split_char c t.
Proof.
  unfold split_char. induction s as [|a s IH]; cbn; [by rewrite N.eqb_refl|].
  destruct (c =? a)%N; [by rewrite IH|]. rewrite IH.
  destruct (split_on (N.eqb c) s) eqn:Hs; [by apply split_on_nonnil in Hs|done].
Qed.

(** A file name joined to a directory resolves to an entry of that directory. *)
Lemma resolve_join dir f :
  contains_char f $"/" = false → f ≠ [] → f ≠ #"." → f ≠ #".." →
  resolve (dir ++ #"/" ++ f) = resolve dir ++ [f].
Proof.
  intros Hs He Hd Hdd. unfold resolve.
  change (dir ++ #"/" ++ f) with (dir ++ $"/" :: f).
  rewrite split_char_join, foldl_app. unfold split_char at 2.
  rewrite (split_on_none _ f) by exact Hs. cbn. unfold resolve_step at 1.
  rewrite (proj2 (is_empty_false f) He).
  destruct (str_eqb f #".") eqn:H1; [by apply str_eqb_eq in H1|].
  destruct (str_eqb f #"..") eqn:H2; [by apply str_eqb_eq in H2|done].
Qed.

(** An accepted backup file name stays in the backup directory: joined to any directory it
    resolves to an entry of that directory and is not an option. *)
Theorem backup_filename_contained (dir f : rstr) :
  is_valid_backup_filename f = true →
  resolve (dir ++ #"/" ++ f) = resolve dir ++ [f] ∧
  ∀ c, c ∈ f → is_control c = false.
Proof.
  unfold is_valid_backup_filename. intros H. accepted. bool_prop.
  match goal with H : ends_with _ _ = true |- _ => apply ends_with_true in H as [r ->] end.
  split; [|by eapply chars_not_control; [eassumption|printable_class]].
  assert (∀ t, length t < 7 → r ++ #".tar.gz" ≠ t) as Hlong.
  { intros t Ht <-. rewrite length_app in Ht. change (length #".tar.gz") with 7 in Ht. lia. }
  apply resolve_join; [done|..]; apply Hlong; apply Nat.ltb_lt; reflexivity.
Qed.

Lemma backup_filename_contained_witness :
  is_valid_backup_filename #"etc-nightly_2024.tar.gz" = true ∧
  resolve (#"/var/backups/./x/../abyssal" ++ #"/" ++ #"etc-nightly_2024.tar.gz")
  = resolve #"/var/backups/./x/../abyssal" ++ [ #"etc-nightly_2024.tar.gz"].
Proof.
  split; [reflexivity|].
  apply (backup_filename_contained #"/var/backups/./x/../abyssal" #"etc-nightly_2024.tar.gz").
  reflexivity.
Defined.

(** ** Values in a command line or a line of a file *)

(** Every validator of a text in [agent-protocol] ([port] is the number that comes
    with a protocol name), whether what it accepts never starts with a dash, and
    whether it never has a control character. *)
Definition text_validators (port : N) : list ((rstr → bool) * bool * bool) :=
  [ (is_valid_ca_bundle, false, false); (is_valid_hostname, true, true); (is_valid_port_protocol port, true, true);
    (is_valid_network_target, true, true); (is_valid_interface_name, true, true); (is_valid_port_spec, false, true);
    (is_valid_vacuum_size, true, true); (is_valid_vacuum_duration, true, true); (is_valid_backup_name, false, true);
    (is_valid_backup_filename, false, true); (is_valid_absolute_path, true, true); (is_valid_windows_absolute_path, true, true);
    (is_valid_sam_account_name, false, true); (is_valid_upn_suffix, true, true); (is_valid_user_principal_name, false, true);
    (is_valid_ldap_dn, false, true); (is_writable_ad_user_attribute, true, true); (is_valid_unit_name, true, true);
    (is_valid_mount_target, true, true); (is_valid_container_ref, true, true); (is_valid_block_device_name, true, true);
    (is_valid_io_scheduler, true, true); (is_valid_account_name, true, true); (is_valid_windows_account_name, true, true);
    (is_valid_gecos_comment, true, true); (is_valid_package_name, true, true); (is_valid_search_query, true, true);
    (is_valid_partition_position, true, true); (is_valid_raid_level, true, true); (is_valid_fstype, true, true);
    (is_valid_sysctl_key, true, true); (is_valid_sysctl_value, false, true); (is_valid_kernel_module_name, true, true);
    (is_valid_journald_value, true, true); (is_valid_cron_schedule, false, true); (is_valid_cron_command, false, true);
    (is_valid_process_name, true, true); (is_valid_signal_name, true, true); (is_valid_ip_address, true, true);
    (is_valid_quarantine_filename, false, true); (is_valid_ssh_key_type, true, true); (is_valid_ssh_fingerprint, true, true);
    (is_valid_tightened_permission_mode, true, true)].

(** The two columns say exactly what holds. *)
Definition exact_row (row : (rstr → bool) * bool * bool) : Prop :=
  let '(v, no_dash, no_ctrl) := row in
  (no_dash = true ↔ ∀ s r, v s = true → s ≠ $"-" :: r) ∧ (no_ctrl = true ↔ ∀ s c, v s = true → c ∈ s → is_control c = false).

Lemma safe_row v : (∀ s, v s = true → argument_safe s) → exact_row (v, true, true).
Proof.
  intros Hv. split; (split; [|done]); intros _ s x Hs.
  - intros ->. by destruct (Hv _ Hs).
  - by apply (Hv s Hs).
Qed.
Lemma dash_row v s : (∀ s, v s = true → ∀ c, c ∈ s → is_control c = false) → v ($"-" :: s) = true → exact_row (v, false, true).
Proof.
  intros Hv Hs. split.
  - split; [done|]. intros H. by destruct (H _ s Hs).
  - split; [|done]. intros _ t c Ht. by apply (Hv t Ht).
Qed.
Lemma open_row v s t : v ($"-" :: s) = true → v (10%N :: t) = true → exact_row (v, false, false).
Proof.
  intros Hs Ht. split; (split; [done|]); intros H.
  - by destruct (H _ s Hs).
  - by discriminate (H _ 10%N Ht (list_elem_of_here _ _)).
Qed.

(** Characters of a class that has neither the dash nor a control character. *)
Lemma class_safe f s :
  forallb f s = true → f $"-" = false → (∀ c, f c = true → is_control c = false) → argument_safe s.
Proof.
  intros Hs Hd Hc. apply (guarded_safe f); [|done..]. destruct s as [|c s]; [done|]. cbn in Hs |- *.
  apply andb_true_iff in Hs as [Hf _]. apply N.eqb_neq. intros ->. congruence.
Qed.
(** Changing case keeps dashes and control characters. *)
Lemma mapped_safe f s :
  f $"-" = $"-" → (∀ c, is_control c = true → is_control (f c) = true) → argument_safe (f <$> s) → argument_safe s.
Proof.
  intros Hd Hc [H1 H2]. split.
  - destruct s as [|c s]; [done|]. cbn in H1 |- *. apply N.eqb_neq in H1. apply N.eqb_neq. by intros ->.
  - intros c Hin. destruct (is_control c) eqn:E; [|done]. apply Hc in E. rewrite H2 in E; [done|]. by apply list_elem_of_fmap_2.
Qed.
Lemma lower_control c : is_control c = true → is_control (to_ascii_lower c) = true.
Proof.
  intros H. unfold to_ascii_lower. destruct (is_ascii_uppercase c) eqn:E; [|done]. exfalso. revert H E.
  unfold is_control, is_ascii_uppercase, in_range. rewrite orb_true_iff, !andb_true_iff, N.ltb_lt, !N.leb_le. lia.
Qed.
Lemma upper_control c : is_control c = true → is_control (to_ascii_upper c) = true.
Proof.
  intros H. unfold to_ascii_upper. destruct (is_ascii_lowercase c) eqn:E; [|done]. exfalso. revert H E.
  unfold is_control, is_ascii_lowercase, in_range. rewrite orb_true_iff, !andb_true_iff, N.ltb_lt, !N.leb_le. lia.
Qed.

Lemma ad_attribute_safe s : is_writable_ad_user_attribute s = true → argument_safe s.
Proof.
  unfold is_writable_ad_user_attribute. intros (a & Ha & E%str_eqb_eq)%existsb_exists.
  apply (mapped_safe to_ascii_lower); [done|apply lower_control|]. fold (to_ascii_lowercase s). rewrite <- E.
  apply (listed_safe _ (to_ascii_lowercase <$> WRITABLE_AD_USER_ATTRIBUTES)); [|reflexivity].
  apply str_mem_elem, list_elem_of_fmap_2. by apply list_elem_of_In.
Qed.
Definition SIGNALS : list rstr := [ #"TERM"; #"KILL"; #"HUP"; #"INT"; #"QUIT"; #"USR1"; #"USR2"; #"STOP"; #"CONT"].
Lemma signal_name_safe s : is_valid_signal_name s = true → argument_safe s.
Proof.
  unfold is_valid_signal_name. cbv zeta. fold SIGNALS. intros H. apply (mapped_safe to_ascii_upper); [done|apply upper_control|].
  fold (to_ascii_uppercase s). apply (listed_safe _ (SIGNALS ++ (app #"SIG" <$> SIGNALS))); [|reflexivity].
  apply str_mem_elem in H. apply str_mem_elem, elem_of_app.
  destruct (strip_prefix (to_ascii_uppercase s) #"SIG") as [r|] eqn:E; cbn in H; [right|by left].
  apply strip_prefix_Some in E. rewrite E. by apply (list_elem_of_fmap_2 (app #"SIG")).
Qed.
Lemma windows_path_safe s : is_valid_windows_absolute_path s = true → argument_safe s.
Proof.
  unfold is_valid_windows_absolute_path. destruct s as [|d [|c1 [|c2 s]]]; [done..|]. intros H. accepted.
  apply control_free_safe; [|done]. cbn. apply N.eqb_neq. by intros ->.
Qed.
Lemma cron_schedule_printable s : is_valid_cron_schedule s = true → ∀ c, c ∈ s → is_control c = false.
Proof.
  unfold is_valid_cron_schedule. intros H. accepted. destruct (strip_prefix s #"@") as [r|] eqn:E.
  - apply strip_prefix_Some in E as ->. apply listed_safe in H as [_ H]; [|reflexivity]. change #"@" with [64%N].
    intros c [->%list_elem_of_singleton|Hc]%elem_of_app; [done|by apply H].
  - eapply chars_not_control; [exact H|]. printable_class.
Qed.
Lemma principal_name_chars s : is_valid_user_principal_name s = true → ∀ c, c ∈ s → is_control c = false.
Proof.
  unfold is_valid_user_principal_name. destruct (split_once $"@" s) as [[local suffix]|] eqn:E; [|done].
  apply split_once_Some in E as [-> _]. intros H. accepted. intros c. rewrite elem_of_app, elem_of_cons. intros [Hc|[->|Hc]].
  - revert c Hc. eapply chars_not_control; [eassumption|]. printable_class.
  - done.
  - eapply hostname_safe; [|exact Hc]. eassumption.
Qed.
Lemma sam_name_chars s : is_valid_sam_account_name s = true → ∀ c, c ∈ s → is_control c = false.
Proof.
  unfold is_valid_sam_account_name. intros H. accepted. eapply chars_not_control; [exact H|].
  intros c. rewrite andb_true_iff, !negb_true_iff. tauto.
Qed.
Lemma ldap_dn_chars s : is_valid_ldap_dn s = true → ∀ c, c ∈ s → is_control c = false.
Proof.
  unfold is_valid_ldap_dn. intros H. accepted. intros c Hc. destruct (is_control c) eqn:E; [|done].
  match goal with Hn : existsb is_control s = false |- _ => apply not_true_iff_false in Hn; destruct Hn end.
  apply existsb_exists. exists c. split; [by apply list_elem_of_In|done].
Qed.
Lemma port_protocol_safe port s : is_valid_port_protocol port s = true → argument_safe s.
Proof.
  unfold is_valid_port_protocol. intros [_ [->%str_eqb_eq| ->%str_eqb_eq]%orb_true_iff]%andb_true_iff;
    by apply control_free_safe.
Qed.

(** One row: the lemma for its validator, or its class of characters. *)
Ltac safe_entry :=
  apply safe_row; let t := fresh "t" in let Hs := fresh "Hs" in intros t Hs;
  first
    [ by apply hostname_safe | by apply network_target_safe | by apply account_name_safe | by apply windows_account_name_safe
    | by eapply digit_led_safe | by apply ip_address_safe | by apply ad_attribute_safe | by apply signal_name_safe
    | by apply windows_path_safe | by eapply port_protocol_safe
    | by eapply listed_safe; [exact Hs|reflexivity]
    | match type of Hs with ?v _ = true => unfold v in Hs end; accepted;
      first
        [ by apply control_free_safe
        | by apply control_free_safe; [apply absolute_not_dash|]
        | by eapply named_safe; [|eassumption..]
        | eapply guarded_safe; [eassumption..|printable_class]
        | eapply guarded_safe; [eassumption..|intros ?; rewrite andb_true_iff, !negb_true_iff; tauto]
        | eapply class_safe; [eassumption|reflexivity|printable_class] ] ].
Ltac dash_entry example :=
  apply (dash_row _ example); [|reflexivity]; let t := fresh "t" in let Hs := fresh "Hs" in intros t Hs;
  first
    [ by apply sam_name_chars | by apply principal_name_chars | by apply ldap_dn_chars | by apply cron_schedule_printable
    | match type of Hs with ?v _ = true => unfold v in Hs end; accepted;
      first [ by apply no_control_spec | eapply chars_not_control; [eassumption|printable_class] ] ].

Definition A_BUNDLE : rstr := #"-----BEGIN CERTIFICATE-----" ++ [10%N] ++ #"-----END CERTIFICATE-----".
Lemma text_validators_exact port : Forall exact_row (text_validators port).
Proof.
  unfold text_validators. repeat apply List.Forall_cons; try apply List.Forall_nil.
  1: apply (open_row _ (tail A_BUNDLE) A_BUNDLE); reflexivity.
  all: try safe_entry.
  all: first [dash_entry #"1" | dash_entry #"1.tar.gz" | dash_entry #"a@b" | dash_entry #"=x"].
Qed.


Lemma unit_name_listed : (is_valid_unit_name, true, true) ∈ text_validators 22.
Proof. apply list_elem_of_In. cbn. tauto. Qed.

(** ** Generated account names *)

Lemma trim_end_matches_last f s c : last (trim_end_matches f s) = Some c → f c = false.
Proof.
  unfold trim_end_matches. destruct (drop_while f (reverse s)) as [|x r] eqn:Hd; [done|].
  rewrite last_reverse. cbn. intros [= ->]. by eapply drop_while_head.
Qed.

Lemma trim_matches_head f s c r : trim_matches f s = c :: r → f c = false.
Proof.
  unfold trim_matches, trim_start_matches. intros Ht.
  destruct (trim_end_prefix f (drop_while f s)) as [t Hp]. rewrite Ht in Hp.
  by eapply drop_while_head.
Qed.

Lemma trim_matches_elem f s c : c ∈ trim_matches f s → c ∈ s.
Proof. intros Hc. destruct (trim_matches_infix f s) as (l & r & ->). set_solver. Qed.

Lemma trim_matches_length f s : length (trim_matches f s) ≤ length s.
Proof.
  destruct (trim_matches_infix f s) as (l & r & Hs).
  rewrite Hs at 2. rewrite !length_app. lia.
Qed.

Definition sam_char (c : char) : bool := is_ascii_alphanumeric c || one_of #"._-" c.

Lemma sam_char_ok c :
  sam_char c = true → negb (is_control c) && negb (char_mem c FORBIDDEN) && negb (c =? $" ")%N = true.
Proof.
  unfold sam_char. intros [Hc|Hc]%orb_true_iff.
  - rewrite (alphanumeric_not_control c Hc). apply alphanumeric_range in Hc.
    destruct (char_mem c FORBIDDEN) eqn:Hf.
    + exfalso. apply char_mem_elem in Hf.
      assert (forallb (λ x, negb (is_ascii_alphanumeric x)) FORBIDDEN = true) as Hall by reflexivity.
      rewrite forallb_elem in Hall. specialize (Hall c Hf). apply negb_true_iff in Hall.
      unfold is_ascii_alphanumeric, is_ascii_alphabetic, is_ascii_lowercase, is_ascii_uppercase,
        is_ascii_digit, in_range in Hall. rewrite !orb_false_iff, !andb_false_iff, !N.leb_gt in Hall. lia.
    + cbn. apply negb_true_iff, N.eqb_neq. change ($" ") with 32%N. lia.
  - apply char_mem_elem in Hc.
    assert (forallb (λ c, negb (is_control c) && negb (char_mem c FORBIDDEN) && negb (c =? $" ")%N)
              #"._-" = true) as Hall by reflexivity.
    rewrite forallb_elem in Hall. by apply Hall.
Qed.

(** A non-empty string of such characters that neither starts nor ends with a dot. *)
Lemma sam_valid s :
  s ≠ [] → length s ≤ 20 → forallb sam_char s = true →
  starts_with_char s $"." = false → ends_with_char s $"." = false → is_valid_sam_account_name s = true.
Proof.
  intros He Hlen Hall Hs Hend. unfold is_valid_sam_account_name.
  rewrite (proj2 (is_empty_false s) He), (proj2 (Nat.ltb_ge _ _) Hlen). cbn [orb].
  rewrite forallb_elem in Hall.
  assert (∀ c, c ∈ s → is_control c = false ∧ char_mem c FORBIDDEN = false ∧ (c =? $" ")%N = false) as Hc.
  { intros c Hc. pose proof (sam_char_ok c (Hall c Hc)) as Hok.
    rewrite !andb_true_iff, !negb_true_iff in Hok. tauto. }
  destruct s as [|a s]; [done|]. cbn in Hs. cbn [starts_with_char].
  destruct (Hc a (list_elem_of_here _ _)) as (_ & _ & ->). cbn [orb]. rewrite Hend, orb_false_r.
  unfold ends_with_char. destruct (last (a :: s)) as [l|] eqn:Hl; [|by apply last_None in Hl].
  apply last_Some_elem_of in Hl. destruct (Hc l Hl) as (_ & _ & ->). cbn [forallb].
  rewrite Hs. destruct (Hc a (list_elem_of_here _ _)) as (Ha & Hf & ->). cbn [orb andb].
  rewrite Ha, Hf. cbn. apply forallb_elem. intros c Hin.
  by destruct (Hc c (list_elem_of_further _ _ _ Hin)) as (-> & -> & _).
Qed.

(** A generated account name is empty or one Active Directory accepts, whatever was typed and
    whatever lower-casing does to it. *)
Theorem sanitized_sam_name_valid (to_lowercase : rstr → rstr) (raw : rstr) :
  sanitize_sam_account_name to_lowercase raw = [] ∨
  is_valid_sam_account_name (sanitize_sam_account_name to_lowercase raw) = true.
Proof.
  unfold sanitize_sam_account_name. set (s := List.filter _ _).
  destruct (decide (trim_matches (N.eqb $".") (take 20 s) = [])) as [|Hne]; [by left|right].
  apply sam_valid; [done|..].
  - etrans; [apply trim_matches_length|]. rewrite length_take. lia.
  - apply forallb_elem. intros c Hc%trim_matches_elem.
    assert (c ∈ s) as Hin by (rewrite <- (take_drop 20 s); set_solver).
    unfold s in Hin. rewrite list_elem_of_In, filter_In in Hin. apply Hin.
  - destruct (trim_matches _ _) as [|c r] eqn:Ht; [done|]. apply trim_matches_head in Ht.
    cbn. by rewrite N.eqb_sym.
  - unfold ends_with_char. destruct (last _) as [c|] eqn:Hl; [|done].
    unfold trim_matches in Hl. apply trim_end_matches_last in Hl. by rewrite N.eqb_sym.
Qed.

(** ** Name patterns *)

Definition ascii (s : rstr) : Prop := ∀ c, c ∈ s → (c < 128)%N.
Definition ascii_b (s : rstr) : bool := forallb (λ c, c <? 128)%N s.

Lemma ascii_b_true s : ascii_b s = true → ascii s.
Proof. unfold ascii_b. rewrite forallb_elem. intros Hs c Hc. by apply N.ltb_lt, Hs. Qed.

(** What [str::to_lowercase] does to text without non-ASCII characters. *)
Definition lowercases_ascii (to_lowercase : rstr → rstr) : Prop :=
  ∀ s, ascii s → to_lowercase s = to_ascii_lowercase s.

(** The replacement the pattern language promises: leftmost, non-overlapping,
    case-insensitive.  [skip] counts the characters of a match still to drop. *)
Fixpoint subst_ci (needle value s : rstr) (skip : nat) : rstr :=
  match s with
  | [] => []
  | c :: s' =>
      match skip with
      | S k => subst_ci needle value s' k
      | 0 =>
          if starts_with (to_ascii_lowercase s) (to_ascii_lowercase needle)
          then value ++ subst_ci needle value s' (length needle - 1)
          else c :: subst_ci needle value s' 0
      end
  end.

Lemma subst_ci_skip n v s k : subst_ci n v s k = subst_ci n v (drop k s) 0.
Proof. revert k. induction s as [|c s IH]; intros [|k]; cbn; auto. Qed.

Lemma ascii_len s : ascii s → len s = length s.
Proof.
  induction s as [|c s IH]; intros Hs; [done|]. cbn. rewrite IH.
  - unfold utf8_len. by rewrite (proj2 (N.ltb_lt c 128)) by (apply Hs, list_elem_of_here).
  - intros x Hx. by apply Hs, list_elem_of_further.
Qed.

Lemma ascii_app s t : ascii (s ++ t) ↔ ascii s ∧ ascii t.
Proof. unfold ascii. setoid_rewrite elem_of_app. naive_solver. Qed.

Lemma ascii_drop i s : ascii s → ascii (drop i s).
Proof. intros Hs. rewrite <- (take_drop i s), ascii_app in Hs. tauto. Qed.

Lemma ascii_lower s : ascii s → ascii (to_ascii_lowercase s).
Proof.
  intros Hs c Hc. apply list_elem_of_fmap in Hc as (x & -> & Hx). specialize (Hs x Hx).
  unfold to_ascii_lower, is_ascii_uppercase, in_range. case_match; [|done].
  rewrite andb_true_iff, !N.leb_le in *. lia.
Qed.

Lemma ascii_slice s i : ascii s → i ≤ length s → slice_from s i = Some (drop i s).
Proof.
  revert i. induction s as [|c s IH]; intros [|i] Hs Hi; cbn in *; try done; [lia|].
  assert (utf8_len c = 1) as ->.
  { unfold utf8_len. by rewrite (proj2 (N.ltb_lt c 128)) by (apply Hs, list_elem_of_here). }
  cbn. rewrite Nat.sub_0_r. apply IH; [|lia]. intros x Hx. by apply Hs, list_elem_of_further.
Qed.

Lemma ascii_subst n v s k : ascii v → ascii s → ascii (subst_ci n v s k).
Proof.
  intros Hv. revert k. induction s as [|c s IH]; intros k Hs; [done|].
  change (c :: s) with ([c] ++ s) in Hs. apply ascii_app in Hs as [Hc Hs].
  cbn. destruct k; [|auto]. case_match; [apply ascii_app; auto|].
  change (ascii ([c] ++ subst_ci n v s 0)). apply ascii_app; auto.
Qed.

Section ascii_patterns.
Context (to_lowercase : rstr → rstr) (Hlower : lowercases_ascii to_lowercase).

(** One pass of the loop from byte [i] on. *)
Lemma replace_loop_ascii h n v fuel i out :
  ascii h → n ≠ [] → i ≤ length h → length h - i < fuel →
  replace_loop fuel h (to_ascii_lowercase h) (to_ascii_lowercase n) v (length n) i out
  = Some (out ++ subst_ci n v (drop i h) 0).
Proof.
  intros Hh Hn. revert i out. induction fuel as [|k IH]; intros i out Hi Hf; [lia|].
  cbn [replace_loop]. rewrite (ascii_len h Hh). destruct (Nat.ltb_spec i (length h)) as [Hlt|Hge].
  2:{ rewrite drop_ge by lia. cbn. by rewrite app_nil_r. }
  rewrite (ascii_slice (to_ascii_lowercase h));
    [|by apply ascii_lower|unfold to_ascii_lowercase; rewrite length_fmap; lia].
  cbn [mbind option_bind].
  assert (drop i (to_ascii_lowercase h) = to_ascii_lowercase (drop i h)) as ->.
  { unfold to_ascii_lowercase. by rewrite fmap_drop. }
  rewrite (ascii_slice h) by (done || lia). destruct (lookup_lt_is_Some_2 h i Hlt) as [c Hc].
  rewrite (drop_S h c i Hc). cbn [subst_ci mbind option_bind].
  destruct (starts_with (to_ascii_lowercase (c :: _)) _) eqn:Hs.
  - assert (length n ≤ length (drop i h)) as Hl.
    { rewrite (drop_S h c i Hc). apply starts_with_true in Hs as [r Hr].
      apply (f_equal length) in Hr. unfold to_ascii_lowercase in Hr.
      rewrite length_app, !length_fmap in Hr. lia. }
    rewrite length_drop in Hl. destruct n as [|a n]; [done|]. cbn [length] in *.
    rewrite IH by lia. rewrite (subst_ci_skip _ _ (drop (S i) h)), drop_drop.
    replace (S i + (S (length n) - 1)) with (i + S (length n)) by lia. by rewrite <- app_assoc.
  - assert (utf8_len c = 1) as ->.
    { unfold utf8_len. rewrite (proj2 (N.ltb_lt c 128)); [done|].
      apply Hh. by apply (list_elem_of_lookup_2 _ i). }
    rewrite Nat.add_1_r, IH by lia. by rewrite <- app_assoc.
Qed.

Lemma replace_ci_ascii h n v :
  ascii h → ascii n → n ≠ [] → replace_ci to_lowercase h n v = Some (subst_ci n v h 0).
Proof.
  intros Hh Hn Hne. unfold replace_ci. rewrite (proj2 (is_empty_false n) Hne), !Hlower, !ascii_len by done.
  rewrite replace_loop_ascii by (done || lia). done.
Qed.

Lemma trim_ascii s : ascii s → ascii (trim s).
Proof. intros Hs c Hc. by apply Hs, (trim_matches_elem is_whitespace). Qed.

Lemma take_ascii k s : ascii s → ascii (take k s).
Proof. intros Hs. rewrite <- (take_drop k s), ascii_app in Hs. tauto. Qed.

(** On ASCII names a pattern always expands (the byte indexing of the replacement loop never
    leaves a character boundary), and the expansion is the four case-insensitive, leftmost,
    non-overlapping substitutions in order. *)
Theorem expand_name_pattern_ascii (pattern first last : rstr) :
  ascii pattern → ascii first → ascii last →
  expand_name_pattern to_lowercase pattern first last
  = Some (subst_ci #"{l}" (take 1 (trim last))
            (subst_ci #"{f}" (take 1 (trim first))
               (subst_ci #"{last}" (trim last)
                  (subst_ci #"{first}" (trim first) pattern 0) 0) 0) 0).
Proof.
  intros Hp Hf Hl. unfold expand_name_pattern.
  assert (∀ v s k n, ascii v → ascii s → ascii (subst_ci n v s k)) by (intros; by apply ascii_subst).
  pose proof (trim_ascii _ Hf). pose proof (trim_ascii _ Hl).
  pose proof (take_ascii 1 _ (trim_ascii _ Hf)).
  rewrite replace_ci_ascii by (done || by apply ascii_b_true). cbn [mbind option_bind].
  rewrite replace_ci_ascii by (auto || by apply ascii_b_true). cbn [mbind option_bind].
  rewrite replace_ci_ascii by (auto || by apply ascii_b_true). cbn [mbind option_bind].
  rewrite replace_ci_ascii by (auto || by apply ascii_b_true). done.
Qed.
End ascii_patterns.

Lemma expand_name_pattern_ascii_witness :
  expand_name_pattern to_ascii_lowercase #"{F}.{last}{l}" #" Ada " #"Lovelace"
  = Some #"A.LovelaceL".
Proof.
  rewrite expand_name_pattern_ascii; [reflexivity|intros s _; reflexivity|apply ascii_b_true; reflexivity..].
Defined.
