(* ===== verification/Guard.v ===== *)
(** * Guardrails of the control plane's own server

    [crates/hosts/src/control_plane_guard.rs]: which operations are refused on the
    host the control plane runs on. *)

From S2P Require Import Prelude Protocol Validators.
Import Op.

(** A [BTreeSet<u16>] is the ascending list of its elements. *)
Fixpoint btree_insert (x : N) (l : list N) : list N :=
  match l with
  | [] => [x]
  | y :: l' =>
      if (x <? y)%N then x :: l else if (x =? y)%N then l else y :: btree_insert x l'
  end.
Definition btree_collect (l : list N) : list N := foldr btree_insert [] l.
Definition port_mem (p : N) (l : list N) : bool := existsb (N.eqb p) l.

Record ControlPlaneProtection := mkProtection { ports : list N; docker_device : option rstr }.

Definition PREFIX : rstr := #"Refused on the control plane's own server".
Definition PROTECTED_UNITS : list rstr := [ #"docker"; #"containerd"; #"abyssal-agent"].
Definition PROTECTED_PROCESSES : list rstr :=
  [ #"dockerd"; #"containerd"; #"containerd-shim"; #"containerd-shim-runc-v2"; #"docker-proxy";
    #"abyssal-arsenal"; #"abyssal-agent"; #"mariadbd"; #"mysqld"; #"caddy"].
Definition PROTECTED_MOUNTS : list rstr := [ #"/"; #"/var"; #"/var/lib"; #"/var/lib/docker"].
Definition PROTECTED_PATH_PREFIXES : list rstr :=
  [ #"/var/lib/docker"; #"/var/lib/containerd"; #"/usr/bin/docker"; #"/usr/bin/dockerd";
    #"/usr/bin/containerd"; #"/usr/bin/runc"; #"/usr/local/bin/abyssal-agent";
    #"/etc/abyssal-agent"; #"/var/lib/abyssal-agent"].

Definition refused (text : rstr) : result rstr () := Err (PREFIX ++ #": " ++ text).

(** [split] with several separators: the text before the first of them. *)
Definition before_any (seps s : rstr) : rstr := default [] (head (split_on (λ c, char_mem c seps) s)).

(** ** Names *)

Definition port_list (ports : list N) : rstr :=
  if is_empty ports then #"its own ports" else #"ports " ++ join #", " (fmt_N <$> ports).

Definition is_protected_unit (unit : rstr) : bool :=
  let unit := to_ascii_lowercase (trim unit) in
  let base := match strip_suffix unit #".service" with
              | Some b => b
              | None => default unit (strip_suffix unit #".socket")
              end in
  str_mem base PROTECTED_UNITS.

Definition check_container (container : rstr) : result rstr () :=
  let name := to_ascii_lowercase (trim_start_matches (N.eqb $"/") (trim container)) in
  if starts_with name #"abyssal" then
    refused (container ++ #" is one of the control plane's own containers. Stopping, restarting or removing it takes the web UI down; use `docker compose` in the deployment directory instead.")
  else if (6 <=? len name) && forallb is_ascii_hexdigit name then
    refused (container ++ #" looks like a container ID, which might be one of the control plane's own containers. Refer to the container by name instead.")
  else Ok ().

Definition REGEX_CHARS : rstr := #".*+?[]()|^$" ++ [92%N] ++ #"{}".
Definition dquoted (s : rstr) : rstr := 34%N :: s ++ [34%N].

Definition check_process_pattern (name : rstr) : result rstr () :=
  let pattern := to_ascii_lowercase (trim name) in
  let is_regex := existsb (λ c, char_mem c REGEX_CHARS) pattern in
  match List.find (λ p, contains p pattern || contains pattern p) PROTECTED_PROCESSES with
  | Some hit =>
      refused (dquoted name ++ #" matches " ++ hit ++ #", part of the running control plane. Signalling it would take the web UI down.")
  | None =>
      if is_regex then
        refused (dquoted name ++ #" is a pattern, and could match the control plane's own processes (Docker, MariaDB, Caddy, the agent). Use an exact process name, or a dry run to see what it matches and then signal by PID.")
      else Ok ()
  end.

Definition is_container_runtime_package (package : rstr) : bool :=
  let package := before_any #":=@" (to_ascii_lowercase (trim package)) in
  starts_with package #"docker" || starts_with package #"containerd" || starts_with package #"moby"
  || str_eqb package #"runc" || str_eqb package #"crun".

(** ** Paths and devices *)

(** Empty and [.] components are dropped; [..] is kept as it is. *)
Definition path_parts (path : rstr) : list rstr :=
  List.filter (λ p, negb (is_empty p) && negb (str_eqb p #".")) (split_char $"/" (trim path)).
Definition normalize_path (path : rstr) : rstr :=
  let out := mjoin ((λ p, #"/" ++ p) <$> path_parts path) in
  if is_empty out then #"/" else out.

Definition is_protected_path (path : rstr) : bool :=
  let path := normalize_path path in
  existsb (λ prefix, str_eqb path prefix || starts_with path (prefix ++ #"/")
                     || starts_with path (prefix ++ #"-")) PROTECTED_PATH_PREFIXES.

Definition all_digits (s : rstr) : bool := negb (is_empty s) && forallb is_ascii_digit s.

Definition parent_disk (device : rstr) : option rstr :=
  name ← strip_prefix device #"/dev/";
  if contains_char name $"/" || starts_with name #"dm-" || starts_with name #"md" then None
  else if starts_with name #"nvme" || starts_with name #"mmcblk" then
    '(disk, part) ← rsplit_once $"p" name;
    let disk_ok := match last disk with Some c => is_ascii_digit c | None => false end in
    if disk_ok && all_digits part then Some (#"/dev/" ++ disk) else None
  else
    let disk := trim_end_matches is_ascii_digit name in
    if (len disk <? len name) && negb (is_empty disk) then Some (#"/dev/" ++ disk) else None.

Definition is_whole_disk (device : rstr) : bool :=
  match strip_prefix device #"/dev/" with
  | None => false
  | Some name =>
      let letters_after prefix :=
        match strip_prefix name prefix with
        | Some rest => negb (is_empty rest) && forallb is_ascii_lowercase rest
        | None => false
        end in
      let nvme :=
        match strip_prefix name #"nvme" ≫= split_once $"n" with
        | Some (ctrl, ns) => all_digits ctrl && all_digits ns
        | None => false
        end in
      let mmc :=
        match strip_prefix name #"mmcblk" with Some rest => all_digits rest | None => false end in
      letters_after #"sd" || letters_after #"vd" || letters_after #"xvd" || letters_after #"hd"
      || nvme || mmc
  end.

Definition related_devices (device : rstr) : list rstr :=
  let device := normalize_path device in
  device :: match parent_disk device with Some d => [d] | None => [] end.

Definition is_protected_mount (target : rstr) (protection : ControlPlaneProtection) : bool :=
  let target := normalize_path target in
  str_mem target PROTECTED_MOUNTS
  || match docker_device protection with
     | Some dev => str_mem target (related_devices dev)
     | None => false
     end.

Inductive Layer : Set := Lvm | Raid.
#[export] Instance Layer_eq_dec : EqDecision Layer.
Proof. solve_decision. Defined.

Definition layer_of (device : rstr) : option Layer :=
  if starts_with device #"/dev/mapper/" || starts_with device #"/dev/dm-" then Some Lvm
  else if starts_with device #"/dev/md" then Some Raid
  else None.

(** [capitalize], on the action phrases, which start with an ASCII letter. *)
Definition capitalize (s : rstr) : rstr := match s with c :: s' => to_ascii_upper c :: s' | [] => [] end.

Fixpoint check_devices (docker_device : rstr) (related devices : list rstr) (action : rstr) : result rstr () :=
  match devices with
  | [] => Ok ()
  | device :: rest =>
      let device := normalize_path device in
      if str_mem device related || bool_decide (parent_disk device = Some docker_device) then
        refused (device ++ #" holds Docker's data (" ++ docker_device
          ++ #"), including the control plane's database. " ++ capitalize action
          ++ #" it would destroy the control plane.")
      else check_devices docker_device related rest action
  end.

Definition check_disk (protection : ControlPlaneProtection) (devices : list rstr) (action : rstr) : result rstr () :=
  match docker_device protection with
  | None =>
      refused (action ++ #" disks is refused until the agent has reported which device holds Docker's data (/var/lib/docker), so the control plane's own disk can't be touched by mistake. Reconnect the agent, or do this from a shell on the server.")
  | Some docker_device =>
      let docker_device := normalize_path docker_device in
      let plain := bool_decide (is_Some (parent_disk docker_device)) || is_whole_disk docker_device in
      if negb plain then
        refused (#"Docker's data is on " ++ docker_device ++ #", whose physical disks aren't known here, so "
          ++ action ++ #" any disk is refused on this server. Do it from a shell on the server.")
      else check_devices docker_device (related_devices docker_device) devices action
  end.

Definition check_layered (protection : ControlPlaneProtection) (layer : Layer) (action : rstr) : result rstr () :=
  match normalize_path <$> docker_device protection with
  | Some dev =>
      if bool_decide (layer_of dev ≠ Some layer) then Ok ()
      else refused (#"Docker's data is on " ++ dev ++ #", so " ++ action
             ++ #" is refused on this server. Do it from a shell on the server.")
  | None =>
      refused (action ++ #" is refused until the agent has reported which device holds Docker's data (/var/lib/docker).")
  end.

(** ** The check *)

Definition check (operation : AgentOperation) (protection : ControlPlaneProtection) : result rstr () :=
  match operation with
  | IsolateHost =>
      refused #"isolating this host would cut every agent and every browser off from the control plane, and the web UI is how isolation is lifted."
  | ScourgeSetMode true =>
      refused #"inline IPS mode sends every packet through Suricata first, so a bad rule or a stopped Suricata would cut off the control plane. IDS mode (alerts only) and packet captures are fine here; for inline protection, put a sensor in front of this server instead."
  | FirewallEnable =>
      refused (#"turning the firewall on can default to denying everything incoming, including "
        ++ port_list (ports protection)
        ++ #". Allow those ports first, then enable it from a shell on the server.")
  | FirewallDenyPort port _ | FirewallRemovePort port _ =>
      if port_mem port (ports protection) then
        refused (#"port " ++ fmt_N port ++ #" is one the control plane needs (" ++ port_list (ports protection)
          ++ #"). Closing it would cut off the web UI or the agents.")
      else Ok ()
  | InterfaceSetState interface false =>
      refused (#"bringing " ++ (if is_empty (trim interface) then #"an interface" else interface)
        ++ #" down could take the control plane off the network, and the web UI is how it would be brought back up.")
  | StopService unit | RestartService unit | DisableService unit =>
      if is_protected_unit unit then
        refused (unit ++ #" runs the control plane itself (Docker and its containers, or this server's agent). Stopping, restarting or disabling it would take the web UI down. Do it from a shell on the server.")
      else Ok ()
  | StopContainer container | RestartContainer container | RemoveContainer container =>
      check_container container
  | SignalByName name _ false => check_process_pattern name
  | SendSignal pid _ =>
      if (pid =? 1)%N then
        refused #"PID 1 is the init system; signalling it can take the whole server down."
      else Ok ()
  | UpgradePackage package | RemovePackage package =>
      if is_container_runtime_package package then
        refused (package ++ #" is part of the container runtime the control plane runs on. Upgrading or removing it stops every container, including this one. Do it from a shell on the server, during a maintenance window.")
      else Ok ()
  | QuarantineFile path =>
      if is_protected_path path then
        refused (path ++ #" belongs to Docker or this server's agent, which the control plane runs on.")
      else Ok ()
  | UnmountFilesystem target =>
      if is_protected_mount target protection then
        refused (target ++ #" holds Docker's data, including the control plane's database. Unmounting it would stop the control plane.")
      else Ok ()
  | MountFilesystem _ target =>
      if is_protected_mount target protection then
        refused (#"mounting over " ++ target ++ #" would hide Docker's data, including the control plane's database.")
      else Ok ()
  | RemoveMountUnit _ mount_point =>
      if is_protected_mount mount_point protection then
        refused (mount_point ++ #" holds Docker's data, including the control plane's database.")
      else Ok ()
  | CreatePartition device _ _ | DeletePartition device _ => check_disk protection [device] #"repartitioning"
  | CreateFilesystem device _ => check_disk protection [device] #"formatting"
  | FilesystemRepair device => check_disk protection [device] #"repairing a mounted filesystem on"
  | CreatePhysicalVolume device | RemovePhysicalVolume device =>
      check_disk protection [device] #"changing LVM physical volumes on"
  | CreateRaidArray _ _ devices => check_disk protection devices #"building a RAID array from"
  | CreateVolumeGroup _ physical_volumes => check_disk protection physical_volumes #"building a volume group from"
  | RemoveLogicalVolume _ | RemoveVolumeGroup _ => check_layered protection Lvm #"removing LVM volumes"
  | StopRaidArray _ => check_layered protection Raid #"stopping RAID arrays"
  | _ => Ok ()
  end.

(** A signal by PID, once the process behind it is known. *)
Definition check_process_name (pid : N) (name : rstr) : result rstr () :=
  let lower := to_ascii_lowercase name in
  if str_mem lower PROTECTED_PROCESSES || starts_with lower #"abyssal" || starts_with lower #"containerd-shim" then
    refused (#"PID " ++ fmt_N pid ++ #" is " ++ name ++ #", part of the running control plane. Signalling it would take the web UI down.")
  else Ok ().

Definition process_name_from_ps (output : rstr) : option rstr :=
  line ← List.find (λ l, negb (is_empty (trim l))) (drop 1 (lines output));
  command ← split_whitespace line !! 12;
  base ← last (split_char $"/" command);
  let name := trim_end_matches (N.eqb $":") base in
  if is_empty name then None else Some name.

Definition summary (protection : ControlPlaneProtection) : rstr :=
  let disk := match docker_device protection with
              | Some device => #"the disk holding Docker's data (" ++ device ++ #")"
              | None => #"any disk, until this agent reports which one holds Docker's data"
              end in
  #"isolating it; inline IPS; closing " ++ port_list (ports protection)
  ++ #"; turning the firewall on; taking an interface down; stopping, restarting or disabling "
  ++ join #", " PROTECTED_UNITS
  ++ #"; stopping or removing the abyssal containers; signalling "
  ++ #"dockerd, containerd, MariaDB, Caddy or the abyssal processes"
  ++ #"; upgrading or removing the container runtime; quarantining Docker's files; and partitioning, formatting or unmounting "
  ++ disk.

(** [docker_device_from_df]: the device of the longest mount point that covers
    [/var/lib/docker]. *)
Definition DOCKER_DIR : rstr := #"/var/lib/docker".
Definition df_row (line : rstr) : option (rstr * rstr) :=
  let fields := split_whitespace line in
  device ← head fields;
  mount ← last fields;
  if negb (starts_with mount #"/") || (length fields <? 6) then None else Some (device, mount).
Definition covers_docker (mount : rstr) : bool :=
  str_eqb mount #"/" || str_eqb DOCKER_DIR mount || starts_with DOCKER_DIR (mount ++ #"/").
Definition df_step (best : option (nat * rstr)) (line : rstr) : option (nat * rstr) :=
  match df_row line with
  | None => best
  | Some (device, mount) =>
      if covers_docker mount && match best with None => true | Some (l, _) => l <? len mount end
      then Some (len mount, device)
      else best
  end.
Definition docker_device_from_df (df : rstr) : option rstr := snd <$> foldl df_step None (lines df).

(** ** Lemmas *)

Lemma port_mem_collect p l : port_mem p (btree_collect l) = port_mem p l.
Proof.
  induction l as [|x l IH]; [done|]. cbn [port_mem existsb btree_collect foldr].
  change (existsb (N.eqb p) l) with (port_mem p l). rewrite <- IH.
  fold (btree_collect l). generalize (btree_collect l) as m. clear.
  induction m as [|y m IH]; cbn; [done|].
  destruct (N.ltb_spec x y); [done|]. destruct (N.eqb_spec x y) as [->|Hne]; cbn.
  - by destruct (p =? y)%N.
  - unfold port_mem in IH. rewrite IH. by destruct (p =? x)%N, (p =? y)%N.
Qed.
