(* ===== verification/Agent.v ===== *)
(** * Running commands on a managed host

    [crates/agent/src/process.rs] and [crates/agent/src/elevation.rs]: how the
    agent runs a program with an argument vector, when it goes through [sudo],
    and how a failed exit becomes an error.  The operating system is a
    parameter: [execute] is one process run to completion. *)

From S2P Require Import Prelude.

(** What a finished process left; [code] is [None] when a signal ended it.  The
    text is the output after [String::from_utf8_lossy]. *)
Record ProcessOutput := mkProcess { out_text : rstr; err_text : rstr; code : option Z }.

Record OperationOutput := mkOutput { stdout : rstr; stderr : rstr; exit_code : option Z }.

(** [Err] is the text of an [io::Error] of spawning, piping or waiting. *)
Class Os (World : Type) := {
  execute : rstr → list rstr → option rstr → World → result rstr ProcessOutput * World;
  (** [Instant::now], in nanoseconds. *)
  now : World → N;
  (** [SystemTime::now], in seconds since the epoch; [0] before it. *)
  unix_time : World → N }.

Record AgentState (World : Type) := mkAgent {
  world : World;
  (** [ElevationState]: the last use and the idle timeout. *)
  elevation : option (N * N) }.
Arguments mkAgent {World} _ _.
Arguments world {World} _.
Arguments elevation {World} _.

(** ** The agent's operations

    An operation returns a [CommandOutcome]: an output or an error text.  What
    it did to the host stays done in both cases. *)

Definition agent (World A : Type) : Type := AgentState World → result rstr A * AgentState World.

#[export] Instance agent_ret {World} : MRet (agent World) := λ A x st, (Ok x, st).
#[export] Instance agent_bind {World} : MBind (agent World) := λ A B f m st,
  match m st with
  | (Ok x, st') => f x st'
  | (Err e, st') => (Err e, st')
  end.

Definition refuse {World A} (e : rstr) : agent World A := λ st, (Err e, st).
(** [if !b { return CommandOutcome::Err(e) }] *)
Definition check_or {World} (b : bool) (e : rstr) : agent World () := if b then mret () else refuse e.
(** [.map_err(f)] on the outcome. *)
Definition map_err {World A} (f : rstr → rstr) (m : agent World A) : agent World A := λ st,
  match m st with
  | (Err e, st') => (Err (f e), st')
  | r => r
  end.
Definition gets {World A} (f : AgentState World → A) : agent World A := λ st, (Ok (f st), st).

Lemma agent_bind_ok {World A B} (m : agent World A) (f : A → agent World B) st y st' :
  (m ≫= f) st = (Ok y, st') → ∃ x st1, m st = (Ok x, st1) ∧ f x st1 = (Ok y, st').
Proof. unfold mbind, agent_bind. destruct (m st) as [[x|e] st1]; [by eauto|done]. Qed.

Lemma check_or_ok {World} b e (st st' : AgentState World) u :
  check_or b e st = (Ok u, st') → b = true ∧ st' = st.
Proof. unfold check_or. destruct b; cbn; [by intros [= _ ->]|done]. Qed.

Section os.
Context {World : Type} `{!Os World}.

Definition fmt_Z (z : Z) : rstr := if (z <? 0)%Z then #"-" ++ fmt_N (Z.abs_N z) else fmt_N (Z.abs_N z).

Definition exec_process (program : rstr) (args : list rstr) (stdin : option rstr) :
    agent World ProcessOutput := λ st,
  let (r, w) := execute program args stdin (world st) in (r, mkAgent w (elevation st)).

Definition success (o : ProcessOutput) : bool := bool_decide (code o = Some 0%Z).

Definition finish (program : rstr) (o : ProcessOutput) : agent World OperationOutput :=
  if negb (success o) then
    let detail :=
      if negb (is_empty (trim (err_text o))) then trim (err_text o)
      else if negb (is_empty (trim (out_text o))) then trim (out_text o)
      else #"(no output)" in
    let status := default #"unknown" (fmt_Z <$> code o) in
    refuse (program ++ #" exited with status " ++ status ++ #": " ++ detail)
  else mret (mkOutput (out_text o) (err_text o) (code o)).

Definition failed_to_run (program e : rstr) : rstr := #"failed to run " ++ program ++ #": " ++ e.

Definition run_command (program : rstr) (args : list rstr) : agent World OperationOutput :=
  o ← map_err (failed_to_run program) (exec_process program args None);
  finish program o.

(** The three ways feeding a child can fail carry different texts in the code;
    [execute] reports one text for them. *)
Definition run_command_with_stdin (program : rstr) (args : list rstr) (data : rstr) :
    agent World OperationOutput :=
  o ← map_err (failed_to_run program) (exec_process program args (Some data));
  finish program o.

Definition run_command_allow_failure (program : rstr) (args : list rstr) :
    agent World OperationOutput :=
  o ← map_err (failed_to_run program) (exec_process program args None);
  mret (mkOutput (out_text o) (err_text o) (code o)).

(** [present]: a message in place of an empty output. *)
Definition present (output : OperationOutput) (empty_message : rstr) : OperationOutput :=
  if is_empty (trim (stdout output)) then
    let text := if negb (is_empty (trim (stderr output))) then trim (stderr output) else empty_message in
    mkOutput text (stderr output) (exit_code output)
  else output.

(** [truncate_lines]: the first [n] lines and a note of how many were dropped. *)
Definition truncate_lines (output : OperationOutput) (n : nat) : OperationOutput :=
  let all := lines (stdout output) in
  let total := length all in
  if total <=? n then output
  else mkOutput (join [10%N] (take n all) ++ [10%N] ++ #"... and " ++ fmt_N (N.of_nat (total - n)) ++ #" more")
         (stderr output) (exit_code output).

(** ** Elevation *)

Definition is_elevated : agent World bool := λ st,
  match elevation st with
  | Some (last_used, idle_timeout) =>
      if (now (world st) - last_used <? idle_timeout)%N
      then (Ok true, mkAgent (world st) (Some (now (world st), idle_timeout)))
      else (Ok false, mkAgent (world st) None)
  | None => (Ok false, st)
  end.

Definition sudo_args (program : rstr) (args : list rstr) : list rstr := #"-n" :: program :: args.

Definition run (program : rstr) (args : list rstr) : agent World OperationOutput :=
  b ← is_elevated;
  if b : bool then run_command #"sudo" (sudo_args program args) else run_command program args.

Definition run_allow_failure (program : rstr) (args : list rstr) : agent World OperationOutput :=
  b ← is_elevated;
  if b : bool then run_command_allow_failure #"sudo" (sudo_args program args)
  else run_command_allow_failure program args.

Definition run_with_stdin (program : rstr) (args : list rstr) (data : rstr) :
    agent World OperationOutput :=
  b ← is_elevated;
  if b : bool then run_command_with_stdin #"sudo" (sudo_args program args) data
  else run_command_with_stdin program args data.

Definition run_sudo_validate (password : rstr) : agent World () :=
  o ← map_err (failed_to_run #"sudo") (exec_process #"sudo" [ #"-S"; #"-v"] (Some (password ++ [10%N])));
  if negb (success o) then
    let detail := if negb (is_empty (trim (err_text o))) then trim (err_text o) else #"authentication failed" in
    refuse (#"sudo: " ++ detail)
  else mret ().

Definition start_window (idle_timeout : N) : agent World () := λ st,
  (Ok (), mkAgent (world st) (Some (now (world st), idle_timeout))).

Definition elevate (password : rstr) (idle_timeout : N) : agent World () :=
  _ ← run_sudo_validate password;
  start_window idle_timeout.

Definition deescalate : agent World () := λ st,
  (Ok (), mkAgent (snd (execute #"sudo" [ #"-k"] None (world st))) None).
End os.
