(* ===== verification/OpText.v ===== *)
(** * How an operation is shown ([crates/agent-protocol/src/lib.rs])

    The hand-written [Debug] of an operation, which logs and the refusal messages
    use, and the [label] the audit trail records. *)

From S2P Require Import Prelude Protocol Validators Agent.
Import Op.

(** What [{:?}] prints, before it is text. *)
Inductive DebugValue : Type :=
| DStr (s : rstr)
| DNum (n : N)
| DInt (z : Z)
| DBool (b : bool)
| DUnit (name : rstr)
| DOption (o : option DebugValue)
| DList (l : list DebugValue)
| DTuple (l : list DebugValue).

(** The names the derived [Debug] of the settings prints. *)
Definition target_name (t : SepulchreConfigTarget) : rstr :=
  match t with SshdDropIn => #"SshdDropIn" | SambaInclude => #"SambaInclude" end.
Definition hardening_name (s : SshHardeningSetting) : rstr :=
  match s with
  | DisableRootLogin => #"DisableRootLogin"
  | DisablePasswordAuth => #"DisablePasswordAuth"
  | DisableEmptyPasswords => #"DisableEmptyPasswords"
  | DisableX11Forwarding => #"DisableX11Forwarding"
  end.
Definition journald_name (s : JournaldSetting) : rstr :=
  match s with
  | SystemMaxUse => #"SystemMaxUse"
  | SystemKeepFree => #"SystemKeepFree"
  | MaxRetentionSec => #"MaxRetentionSec"
  | MaxFileSec => #"MaxFileSec"
  end.

Definition redacted : DebugValue := DStr #"[REDACTED]".

(** [impl Debug for AgentOperation]: the name, and the fields it prints. *)
Definition debug_fields (op : AgentOperation) : rstr * list (rstr * DebugValue) :=
  match op with
  | Ping => (#"Ping", [])
  | SystemInfo => (#"SystemInfo", [])
  | ResourceUsage => (#"ResourceUsage", [])
  | LoggedInUsers => (#"LoggedInUsers", [])
  | SetHostname hostname => (#"SetHostname", [(#"hostname", DStr hostname)])
  | Reboot => (#"Reboot", [])
  | ListeningPorts => (#"ListeningPorts", [])
  | RecentAuthLog => (#"RecentAuthLog", [])
  | FirewallStatus => (#"FirewallStatus", [])
  | FirewallAllowPort port protocol => (#"FirewallAllowPort",
      [(#"port", DNum port);
       (#"protocol", DStr protocol)])
  | FirewallEnable => (#"FirewallEnable", [])
  | FirewallDenyPort port protocol => (#"FirewallDenyPort",
      [(#"port", DNum port);
       (#"protocol", DStr protocol)])
  | FirewallRemovePort port protocol => (#"FirewallRemovePort",
      [(#"port", DNum port);
       (#"protocol", DStr protocol)])
  | SshdConfigAudit => (#"SshdConfigAudit", [])
  | HardenSshd setting => (#"HardenSshd", [(#"setting", DUnit (hardening_name setting))])
  | ClearSshHardening => (#"ClearSshHardening", [])
  | SysctlSecurityPosture => (#"SysctlSecurityPosture", [])
  | PostureFacts => (#"PostureFacts", [])
  | AccountPolicyAudit => (#"AccountPolicyAudit", [])
  | MacStatus => (#"MacStatus", [])
  | AutomaticUpdatesStatus => (#"AutomaticUpdatesStatus", [])
  | Elevate _ idle_timeout_secs => (#"Elevate",
      [(#"password", redacted);
       (#"idle_timeout_secs", DNum idle_timeout_secs)])
  | Deescalate => (#"Deescalate", [])
  | ElevationStatus => (#"ElevationStatus", [])
  | NetworkInterfaces => (#"NetworkInterfaces", [])
  | NetworkRoutes => (#"NetworkRoutes", [])
  | DnsConfig => (#"DnsConfig", [])
  | ActiveConnections => (#"ActiveConnections", [])
  | ConnectivityCheck target => (#"ConnectivityCheck", [(#"target", DStr target)])
  | InterfaceSetState interface up => (#"InterfaceSetState",
      [(#"interface", DStr interface);
       (#"up", DBool up)])
  | NetworkScan target ports => (#"NetworkScan",
      [(#"target", DStr target);
       (#"ports", DOption (DStr <$> ports))])
  | BootHistory => (#"BootHistory", [])
  | KernelRingBuffer => (#"KernelRingBuffer", [])
  | SystemJournalErrors => (#"SystemJournalErrors", [])
  | FailedLoginAttempts => (#"FailedLoginAttempts", [])
  | OomKillEvents => (#"OomKillEvents", [])
  | CoreDumps => (#"CoreDumps", [])
  | RecentlyModifiedFiles hours => (#"RecentlyModifiedFiles", [(#"hours", DNum hours)])
  | JournalDiskUsage => (#"JournalDiskUsage", [])
  | LogRotationStatus => (#"LogRotationStatus", [])
  | ArchivedLogListing => (#"ArchivedLogListing", [])
  | LogDirectorySizes => (#"LogDirectorySizes", [])
  | VacuumJournalBySize size => (#"VacuumJournalBySize", [(#"size", DStr size)])
  | VacuumJournalByTime duration => (#"VacuumJournalByTime", [(#"duration", DStr duration)])
  | ListBackups => (#"ListBackups", [])
  | CreateBackup source_path name => (#"CreateBackup",
      [(#"source_path", DStr source_path);
       (#"name", DStr name)])
  | VerifyBackup filename => (#"VerifyBackup", [(#"filename", DStr filename)])
  | RestoreBackup filename target_path => (#"RestoreBackup",
      [(#"filename", DStr filename);
       (#"target_path", DStr target_path)])
  | LoadAverage => (#"LoadAverage", [])
  | TopProcessesByCpu => (#"TopProcessesByCpu", [])
  | TopProcessesByMemory => (#"TopProcessesByMemory", [])
  | MemoryDetail => (#"MemoryDetail", [])
  | DiskIoStats => (#"DiskIoStats", [])
  | FailedServices => (#"FailedServices", [])
  | CpuUtilization => (#"CpuUtilization", [])
  | NetworkThroughput => (#"NetworkThroughput", [])
  | ThermalSensors => (#"ThermalSensors", [])
  | MemoryPressure => (#"MemoryPressure", [])
  | ListServices => (#"ListServices", [])
  | ServiceStatus unit => (#"ServiceStatus", [(#"unit", DStr unit)])
  | ServiceLogs unit => (#"ServiceLogs", [(#"unit", DStr unit)])
  | StartService unit => (#"StartService", [(#"unit", DStr unit)])
  | StopService unit => (#"StopService", [(#"unit", DStr unit)])
  | RestartService unit => (#"RestartService", [(#"unit", DStr unit)])
  | EnableService unit => (#"EnableService", [(#"unit", DStr unit)])
  | DisableService unit => (#"DisableService", [(#"unit", DStr unit)])
  | PreviousBootErrors => (#"PreviousBootErrors", [])
  | SystemRunningState => (#"SystemRunningState", [])
  | ReadOnlyFilesystems => (#"ReadOnlyFilesystems", [])
  | ReloadSystemdDaemon => (#"ReloadSystemdDaemon", [])
  | ResetFailedUnits => (#"ResetFailedUnits", [])
  | ListFailedUnits => (#"ListFailedUnits", [])
  | RecoverUnit unit => (#"RecoverUnit", [(#"unit", DStr unit)])
  | DiskSpaceCritical => (#"DiskSpaceCritical", [])
  | FstabCheck => (#"FstabCheck", [])
  | RemountReadWrite target => (#"RemountReadWrite", [(#"target", DStr target)])
  | CpuInfo => (#"CpuInfo", [])
  | PciDevices => (#"PciDevices", [])
  | BlockDevices => (#"BlockDevices", [])
  | MemoryHardware => (#"MemoryHardware", [])
  | DiskHealth device => (#"DiskHealth", [(#"device", DStr device)])
  | ListContainers => (#"ListContainers", [])
  | ContainerLogs container => (#"ContainerLogs", [(#"container", DStr container)])
  | ContainerInspect container => (#"ContainerInspect", [(#"container", DStr container)])
  | ListImages => (#"ListImages", [])
  | RuntimeInfo => (#"RuntimeInfo", [])
  | StartContainer container => (#"StartContainer", [(#"container", DStr container)])
  | StopContainer container => (#"StopContainer", [(#"container", DStr container)])
  | RestartContainer container => (#"RestartContainer", [(#"container", DStr container)])
  | RemoveContainer container => (#"RemoveContainer", [(#"container", DStr container)])
  | ListProcesses => (#"ListProcesses", [])
  | ProcessDetail pid => (#"ProcessDetail", [(#"pid", DNum pid)])
  | RenicePriority pid priority => (#"RenicePriority",
      [(#"pid", DNum pid);
       (#"priority", DInt priority)])
  | SendSignal pid signal => (#"SendSignal",
      [(#"pid", DNum pid);
       (#"signal", DStr signal)])
  | SignalByName name signal dry_run => (#"SignalByName",
      [(#"name", DStr name);
       (#"signal", DStr signal);
       (#"dry_run", DBool dry_run)])
  | SetIoPriority pid class level => (#"SetIoPriority",
      [(#"pid", DNum pid);
       (#"class", DNum class);
       (#"level", DNum level)])
  | SetOomScoreAdj pid adj => (#"SetOomScoreAdj",
      [(#"pid", DNum pid);
       (#"adj", DInt adj)])
  | ProcessOpenFiles pid => (#"ProcessOpenFiles", [(#"pid", DNum pid)])
  | ProcessLimits pid => (#"ProcessLimits", [(#"pid", DNum pid)])
  | ZombieReport => (#"ZombieReport", [])
  | CleanupTargetsSummary => (#"CleanupTargetsSummary", [])
  | ForceLogRotation => (#"ForceLogRotation", [])
  | ClearTmpFiles older_than_days => (#"ClearTmpFiles", [(#"older_than_days", DNum older_than_days)])
  | ClearCoreDumps => (#"ClearCoreDumps", [])
  | VmStatistics => (#"VmStatistics", [])
  | InterruptStatistics => (#"InterruptStatistics", [])
  | CpuGovernorStatus => (#"CpuGovernorStatus", [])
  | TuningParametersStatus => (#"TuningParametersStatus", [])
  | SetSwappiness value => (#"SetSwappiness", [(#"value", DNum value)])
  | SetIoScheduler device scheduler => (#"SetIoScheduler",
      [(#"device", DStr device);
       (#"scheduler", DStr scheduler)])
  | ListUsers => (#"ListUsers", [])
  | ListGroups => (#"ListGroups", [])
  | UserDetail username => (#"UserDetail", [(#"username", DStr username)])
  | CreateUser username comment => (#"CreateUser",
      [(#"username", DStr username);
       (#"comment", DStr comment)])
  | CreateGroup group => (#"CreateGroup", [(#"group", DStr group)])
  | AddUserToGroup username group => (#"AddUserToGroup",
      [(#"username", DStr username);
       (#"group", DStr group)])
  | RemoveUserFromGroup username group => (#"RemoveUserFromGroup",
      [(#"username", DStr username);
       (#"group", DStr group)])
  | LockUserAccount username => (#"LockUserAccount", [(#"username", DStr username)])
  | UnlockUserAccount username => (#"UnlockUserAccount", [(#"username", DStr username)])
  | DeleteUser username remove_home => (#"DeleteUser",
      [(#"username", DStr username);
       (#"remove_home", DBool remove_home)])
  | DeleteGroup group => (#"DeleteGroup", [(#"group", DStr group)])
  | DirectoryUsageBreakdown path => (#"DirectoryUsageBreakdown", [(#"path", DStr path)])
  | FindLargeFiles path min_size_mb => (#"FindLargeFiles",
      [(#"path", DStr path);
       (#"min_size_mb", DNum min_size_mb)])
  | FilesystemCheckDryRun device => (#"FilesystemCheckDryRun", [(#"device", DStr device)])
  | TrimFilesystem mountpoint => (#"TrimFilesystem", [(#"mountpoint", DStr mountpoint)])
  | FilesystemRepair device => (#"FilesystemRepair", [(#"device", DStr device)])
  | ListInstalledPackages => (#"ListInstalledPackages", [])
  | SearchPackage query => (#"SearchPackage", [(#"query", DStr query)])
  | PackageInfo package => (#"PackageInfo", [(#"package", DStr package)])
  | ListUpgradable => (#"ListUpgradable", [])
  | RefreshPackageIndex => (#"RefreshPackageIndex", [])
  | InstallPackage package => (#"InstallPackage", [(#"package", DStr package)])
  | UpgradePackage package => (#"UpgradePackage", [(#"package", DStr package)])
  | RemovePackage package => (#"RemovePackage", [(#"package", DStr package)])
  | PartitionTable device => (#"PartitionTable", [(#"device", DStr device)])
  | LvmSummary => (#"LvmSummary", [])
  | RaidStatus => (#"RaidStatus", [])
  | MountFilesystem device target => (#"MountFilesystem",
      [(#"device", DStr device);
       (#"target", DStr target)])
  | ExtendLogicalVolume lv_path size => (#"ExtendLogicalVolume",
      [(#"lv_path", DStr lv_path);
       (#"size", DStr size)])
  | UnmountFilesystem target => (#"UnmountFilesystem", [(#"target", DStr target)])
  | CreatePartition device start end_ => (#"CreatePartition",
      [(#"device", DStr device);
       (#"start", DStr start);
       (#"end", DStr end_)])
  | DeletePartition device partition_number => (#"DeletePartition",
      [(#"device", DStr device);
       (#"partition_number", DNum partition_number)])
  | CreateRaidArray array_name level devices => (#"CreateRaidArray",
      [(#"array_name", DStr array_name);
       (#"level", DStr level);
       (#"devices", DList (DStr <$> devices))])
  | StopRaidArray array_name => (#"StopRaidArray", [(#"array_name", DStr array_name)])
  | CreatePhysicalVolume device => (#"CreatePhysicalVolume", [(#"device", DStr device)])
  | CreateVolumeGroup name physical_volumes => (#"CreateVolumeGroup",
      [(#"name", DStr name);
       (#"physical_volumes", DList (DStr <$> physical_volumes))])
  | CreateLogicalVolume vg_name lv_name size => (#"CreateLogicalVolume",
      [(#"vg_name", DStr vg_name);
       (#"lv_name", DStr lv_name);
       (#"size", DStr size)])
  | RemoveLogicalVolume lv_path => (#"RemoveLogicalVolume", [(#"lv_path", DStr lv_path)])
  | RemoveVolumeGroup name => (#"RemoveVolumeGroup", [(#"name", DStr name)])
  | RemovePhysicalVolume device => (#"RemovePhysicalVolume", [(#"device", DStr device)])
  | CreateFilesystem device fstype => (#"CreateFilesystem",
      [(#"device", DStr device);
       (#"fstype", DStr fstype)])
  | ViewManagedSysctl => (#"ViewManagedSysctl", [])
  | SysctlManagedDrift => (#"SysctlManagedDrift", [])
  | ViewManagedCronJobs => (#"ViewManagedCronJobs", [])
  | SetPersistentSysctl key value => (#"SetPersistentSysctl",
      [(#"key", DStr key);
       (#"value", DStr value)])
  | RemovePersistentSysctlKey key => (#"RemovePersistentSysctlKey", [(#"key", DStr key)])
  | ClearManagedSysctl => (#"ClearManagedSysctl", [])
  | SetCronJob job_name schedule run_as_user command => (#"SetCronJob",
      [(#"job_name", DStr job_name);
       (#"schedule", DStr schedule);
       (#"run_as_user", DStr run_as_user);
       (#"command", DStr command)])
  | RemoveCronJob job_name => (#"RemoveCronJob", [(#"job_name", DStr job_name)])
  | ClearManagedCronJobs => (#"ClearManagedCronJobs", [])
  | ViewModuleBlacklist => (#"ViewModuleBlacklist", [])
  | BlacklistModule module => (#"BlacklistModule", [(#"module", DStr module)])
  | RemoveModuleBlacklist module => (#"RemoveModuleBlacklist", [(#"module", DStr module)])
  | ClearModuleBlacklist => (#"ClearModuleBlacklist", [])
  | ViewJournaldConfig => (#"ViewJournaldConfig", [])
  | SetJournaldRetention setting value => (#"SetJournaldRetention",
      [(#"setting", DUnit (journald_name setting));
       (#"value", DStr value)])
  | ClearJournaldConfig => (#"ClearJournaldConfig", [])
  | ListBlockedIps => (#"ListBlockedIps", [])
  | IsolationStatus => (#"IsolationStatus", [])
  | ListQuarantinedFiles => (#"ListQuarantinedFiles", [])
  | BlockRemoteIp ip => (#"BlockRemoteIp", [(#"ip", DStr ip)])
  | UnblockRemoteIp ip => (#"UnblockRemoteIp", [(#"ip", DStr ip)])
  | QuarantineFile path => (#"QuarantineFile", [(#"path", DStr path)])
  | RestoreQuarantinedFile quarantine_filename => (#"RestoreQuarantinedFile", [(#"quarantine_filename", DStr quarantine_filename)])
  | DeleteQuarantinedFile filename shred_passes => (#"DeleteQuarantinedFile",
      [(#"filename", DStr filename);
       (#"shred_passes", DNum shred_passes)])
  | DeisolateHost => (#"DeisolateHost", [])
  | IsolateHost => (#"IsolateHost", [])
  | ListSshHostKeys => (#"ListSshHostKeys", [])
  | ListSshAuthorizedKeys username => (#"ListSshAuthorizedKeys", [(#"username", DStr username)])
  | ListTlsCertificates => (#"ListTlsCertificates", [])
  | CertificateDetail path => (#"CertificateDetail", [(#"path", DStr path)])
  | ScanSensitiveFilePermissions => (#"ScanSensitiveFilePermissions", [])
  | ViewSensitiveFile path => (#"ViewSensitiveFile", [(#"path", DStr path)])
  | GenerateSshKeypair key_type comment path => (#"GenerateSshKeypair",
      [(#"key_type", DStr key_type);
       (#"comment", DStr comment);
       (#"path", DStr path)])
  | FixFilePermissions path mode => (#"FixFilePermissions",
      [(#"path", DStr path);
       (#"mode", DStr mode)])
  | RemoveAuthorizedKey username fingerprint => (#"RemoveAuthorizedKey",
      [(#"username", DStr username);
       (#"fingerprint", DStr fingerprint)])
  | DeleteSshKeypair path shred_passes => (#"DeleteSshKeypair",
      [(#"path", DStr path);
       (#"shred_passes", DNum shred_passes)])
  | ScanSecurityEvents _ _ _ _ => (#"ScanSecurityEvents", [])
  | AdDnsReport _ => (#"AdDnsReport", [])
  | AdHealthReport _ => (#"AdHealthReport", [])
  | DirectoryDiscoverForest => (#"DirectoryDiscoverForest", [])
  | DirectoryTestDelegation domain_dns service_account_upn _ => (#"DirectoryTestDelegation",
      [(#"domain_dns", DStr domain_dns);
       (#"service_account_upn", DStr service_account_upn);
       (#"password", redacted)])
  | DirectoryOuTree domain_dns => (#"DirectoryOuTree", [(#"domain_dns", DStr domain_dns)])
  | DirectorySearch domain_dns query => (#"DirectorySearch",
      [(#"domain_dns", DStr domain_dns);
       (#"query", DStr query)])
  | DirectoryGetObject domain_dns dn => (#"DirectoryGetObject",
      [(#"domain_dns", DStr domain_dns);
       (#"dn", DStr dn)])
  | DirectoryStaleAccounts domain_dns days => (#"DirectoryStaleAccounts",
      [(#"domain_dns", DStr domain_dns);
       (#"days", DNum days)])
  | DirectoryUnlockAccount domain_dns service_account_upn _ target_dn allow_privileged => (#"DirectoryUnlockAccount",
      [(#"domain_dns", DStr domain_dns);
       (#"service_account_upn", DStr service_account_upn);
       (#"service_account_password", redacted);
       (#"target_dn", DStr target_dn);
       (#"allow_privileged", DBool allow_privileged)])
  | DirectorySetEnabled domain_dns service_account_upn _ target_dn enabled allow_privileged => (#"DirectorySetEnabled",
      [(#"domain_dns", DStr domain_dns);
       (#"service_account_upn", DStr service_account_upn);
       (#"service_account_password", redacted);
       (#"target_dn", DStr target_dn);
       (#"enabled", DBool enabled);
       (#"allow_privileged", DBool allow_privileged)])
  | DirectoryCreateUser r => (#"DirectoryCreateUser",
      [(#"domain_dns", DStr r.(cu_domain_dns));
       (#"service_account_upn", DStr r.(cu_service_account_upn));
       (#"service_account_password", redacted);
       (#"target_ou", DStr r.(cu_target_ou));
       (#"sam_base", DStr r.(cu_sam_base));
       (#"upn_suffix", DStr r.(cu_upn_suffix));
       (#"password", redacted);
       (#"allow_privileged", DBool r.(cu_allow_privileged))])
  | DirectorySetPassword domain_dns service_account_upn _ target_dn _ allow_privileged => (#"DirectorySetPassword",
      [(#"domain_dns", DStr domain_dns);
       (#"service_account_upn", DStr service_account_upn);
       (#"service_account_password", redacted);
       (#"target_dn", DStr target_dn);
       (#"new_password", redacted);
       (#"allow_privileged", DBool allow_privileged)])
  | ExchangeTestConnection uri account_upn _ => (#"ExchangeTestConnection",
      [(#"uri", DStr uri);
       (#"account_upn", DStr account_upn);
       (#"account_password", redacted)])
  | ExchangeEnableMailbox uri account_upn _ target_identity remote_routing_address => (#"ExchangeEnableMailbox",
      [(#"uri", DStr uri);
       (#"account_upn", DStr account_upn);
       (#"account_password", redacted);
       (#"target_identity", DStr target_identity);
       (#"remote_routing_address", DStr remote_routing_address)])
  | DirectoryCreateGroup r => (#"DirectoryCreateGroup",
      [(#"domain_dns", DStr r.(cg_domain_dns));
       (#"service_account_upn", DStr r.(cg_service_account_upn));
       (#"service_account_password", redacted);
       (#"name", DStr r.(cg_name));
       (#"target_ou", DStr r.(cg_target_ou));
       (#"scope", DStr r.(cg_scope));
       (#"category", DStr r.(cg_category))])
  | DirectoryDeleteGroup domain_dns service_account_upn _ target_dn allow_privileged => (#"DirectoryDeleteGroup",
      [(#"domain_dns", DStr domain_dns);
       (#"service_account_upn", DStr service_account_upn);
       (#"service_account_password", redacted);
       (#"target_dn", DStr target_dn);
       (#"allow_privileged", DBool allow_privileged)])
  | DirectoryAddGroupMember domain_dns service_account_upn _ group_dn member_dn allow_privileged => (#"DirectoryAddGroupMember",
      [(#"domain_dns", DStr domain_dns);
       (#"service_account_upn", DStr service_account_upn);
       (#"service_account_password", redacted);
       (#"group_dn", DStr group_dn);
       (#"member_dn", DStr member_dn);
       (#"allow_privileged", DBool allow_privileged)])
  | DirectoryRemoveGroupMember domain_dns service_account_upn _ group_dn member_dn allow_privileged => (#"DirectoryRemoveGroupMember",
      [(#"domain_dns", DStr domain_dns);
       (#"service_account_upn", DStr service_account_upn);
       (#"service_account_password", redacted);
       (#"group_dn", DStr group_dn);
       (#"member_dn", DStr member_dn);
       (#"allow_privileged", DBool allow_privileged)])
  | DirectoryMove domain_dns service_account_upn _ target_dn new_parent_ou allow_privileged => (#"DirectoryMove",
      [(#"domain_dns", DStr domain_dns);
       (#"service_account_upn", DStr service_account_upn);
       (#"service_account_password", redacted);
       (#"target_dn", DStr target_dn);
       (#"new_parent_ou", DStr new_parent_ou);
       (#"allow_privileged", DBool allow_privileged)])
  | DirectoryDeleteObject domain_dns service_account_upn _ target_dn allow_privileged => (#"DirectoryDeleteObject",
      [(#"domain_dns", DStr domain_dns);
       (#"service_account_upn", DStr service_account_upn);
       (#"service_account_password", redacted);
       (#"target_dn", DStr target_dn);
       (#"allow_privileged", DBool allow_privileged)])
  | DirectoryOffboard domain_dns service_account_upn _ target_dn disabled_ou allow_privileged => (#"DirectoryOffboard",
      [(#"domain_dns", DStr domain_dns);
       (#"service_account_upn", DStr service_account_upn);
       (#"service_account_password", redacted);
       (#"target_dn", DStr target_dn);
       (#"disabled_ou", DStr disabled_ou);
       (#"allow_privileged", DBool allow_privileged)])
  | DirectoryUndoOffboard r => (#"DirectoryUndoOffboard",
      [(#"domain_dns", DStr r.(uo_domain_dns));
       (#"service_account_upn", DStr r.(uo_service_account_upn));
       (#"service_account_password", redacted);
       (#"target_dn", DStr r.(uo_target_dn));
       (#"original_ou", DStr r.(uo_original_ou));
       (#"groups", DNum (N.of_nat (length (r.(uo_groups)))));
       (#"allow_privileged", DBool r.(uo_allow_privileged))])
  | ExchangeSetMailboxOffboard uri account_upn _ target_identity convert_to_shared => (#"ExchangeSetMailboxOffboard",
      [(#"uri", DStr uri);
       (#"account_upn", DStr account_upn);
       (#"account_password", redacted);
       (#"target_identity", DStr target_identity);
       (#"convert_to_shared", DBool convert_to_shared)])
  | DetectPackageBackend => (#"DetectPackageBackend", [])
  | RenderSepulchreConfig target content => (#"RenderSepulchreConfig",
      [(#"target", DUnit (target_name target));
       (#"content_len", DNum (N.of_nat (len content)))])
  | ClearSepulchreConfig target => (#"ClearSepulchreConfig", [(#"target", DUnit (target_name target))])
  | CheckSepulchreConfigIncludeDirective target => (#"CheckSepulchreConfigIncludeDirective", [(#"target", DUnit (target_name target))])
  | CreateSftpChrootAccount username chroot_dir => (#"CreateSftpChrootAccount",
      [(#"username", DStr username);
       (#"chroot_dir", DStr chroot_dir)])
  | InstallSepulchreAuthorizedKey username public_key => (#"InstallSepulchreAuthorizedKey",
      [(#"username", DStr username);
       (#"public_key", DStr public_key)])
  | RemoveSftpChrootAccount username => (#"RemoveSftpChrootAccount", [(#"username", DStr username)])
  | CreateSambaServiceUser username _ => (#"CreateSambaServiceUser",
      [(#"username", DStr username);
       (#"password", redacted)])
  | RemoveSambaServiceUser username => (#"RemoveSambaServiceUser", [(#"username", DStr username)])
  | RenderMountUnit unit_name mount_point content => (#"RenderMountUnit",
      [(#"unit_name", DStr unit_name);
       (#"mount_point", DStr mount_point);
       (#"content_len", DNum (N.of_nat (len content)))])
  | RemoveMountUnit unit_name mount_point => (#"RemoveMountUnit",
      [(#"unit_name", DStr unit_name);
       (#"mount_point", DStr mount_point)])
  | CheckMountStatus mount_point => (#"CheckMountStatus", [(#"mount_point", DStr mount_point)])
  | WriteSepulchreMountCredentials path _ => (#"WriteSepulchreMountCredentials",
      [(#"path", DStr path);
       (#"contents", redacted)])
  | CreateSepulchreShareDirectory path owner => (#"CreateSepulchreShareDirectory",
      [(#"path", DStr path);
       (#"owner", DStr owner)])
  | SelfUpdate version from_control_plane sha256 => (#"SelfUpdate",
      [(#"version", DStr version);
       (#"from_control_plane", DBool from_control_plane);
       (#"sha256", DOption (DStr <$> sha256))])
  | UninstallAgent purge => (#"UninstallAgent", [(#"purge", DBool purge)])
  | NeighborTable => (#"NeighborTable", [])
  | DhcpLeases => (#"DhcpLeases", [])
  | ThanatosStream enabled c2_ports => (#"ThanatosStream",
      [(#"enabled", DBool enabled);
       (#"c2_ports", DList (DNum <$> c2_ports))])
  | UpdateTrustedCa bundle_pem => (#"UpdateTrustedCa", [(#"certificates", DNum (N.of_nat (count_matches #"BEGIN CERTIFICATE" bundle_pem 0)))])
  | ScourgeSensorStatus => (#"ScourgeSensorStatus", [])
  | ScourgeCollectEvents eve_offset eve_inode max_events => (#"ScourgeCollectEvents",
      [(#"eve_offset", DNum eve_offset);
       (#"eve_inode", DNum eve_inode);
       (#"max_events", DNum max_events)])
  | ScourgeListRules query => (#"ScourgeListRules", [(#"query", DStr query)])
  | ScourgePcapList => (#"ScourgePcapList", [])
  | ScourgeInstall => (#"ScourgeInstall", [])
  | ScourgeApplyConfig interfaces home_net external_net eve_enabled => (#"ScourgeApplyConfig",
      [(#"interfaces", DList (DStr <$> interfaces));
       (#"home_net", DStr home_net);
       (#"external_net", DStr external_net);
       (#"eve_enabled", DBool eve_enabled)])
  | ScourgeServiceAction verb => (#"ScourgeServiceAction", [(#"verb", DStr verb)])
  | ScourgeUpdateRules => (#"ScourgeUpdateRules", [])
  | ScourgeSetSidEnabled sid enabled => (#"ScourgeSetSidEnabled",
      [(#"sid", DNum sid);
       (#"enabled", DBool enabled)])
  | ScourgeSuppressSid sid suppress => (#"ScourgeSuppressSid",
      [(#"sid", DNum sid);
       (#"suppress", DBool suppress)])
  | ScourgeRuleTest pcap_name => (#"ScourgeRuleTest", [(#"pcap_name", DStr pcap_name)])
  | ScourgeCaptureStart bpf max_seconds max_mb retention_days max_total_mb => (#"ScourgeCaptureStart",
      [(#"bpf", DStr bpf);
       (#"max_seconds", DNum max_seconds);
       (#"max_mb", DNum max_mb);
       (#"retention_days", DNum retention_days);
       (#"max_total_mb", DNum max_total_mb)])
  | ScourgeCaptureStatus capture_id => (#"ScourgeCaptureStatus", [(#"capture_id", DStr capture_id)])
  | ScourgeCaptureCancel capture_id => (#"ScourgeCaptureCancel", [(#"capture_id", DStr capture_id)])
  | ScourgePcapDelete pcap_name shred_passes => (#"ScourgePcapDelete",
      [(#"pcap_name", DStr pcap_name);
       (#"shred_passes", DNum shred_passes)])
  | ScourgeIpsStatus => (#"ScourgeIpsStatus", [])
  | ScourgeSetMode ips => (#"ScourgeSetMode", [(#"ips", DBool ips)])
  | ScourgeSetSidAction sid action => (#"ScourgeSetSidAction",
      [(#"sid", DNum sid);
       (#"action", DStr action)])
  end.

Section text.
(** The debug form of a string, with its quotes and escapes. *)
Context (debug_str : rstr → rstr).

Fixpoint debug_value (v : DebugValue) : rstr :=
  match v with
  | DStr s => debug_str s
  | DNum n => fmt_N n
  | DInt z => fmt_Z z
  | DBool b => if b then #"true" else #"false"
  | DUnit n => n
  | DOption None => #"None"
  | DOption (Some v) => #"Some(" ++ debug_value v ++ #")"
  | DList l => #"[" ++ join #", " (map debug_value l) ++ #"]"
  | DTuple l => #"(" ++ join #", " (map debug_value l) ++ #")"
  end.

(** [debug_struct] with its fields; a name alone is written as it is. *)
Definition debug_text (d : rstr * list (rstr * DebugValue)) : rstr :=
  match d.2 with
  | [] => d.1
  | fs => d.1 ++ #" { " ++ join #", " ((λ f, f.1 ++ #": " ++ debug_value f.2) <$> fs) ++ #" }"
  end.
Definition fmt_debug (op : AgentOperation) : rstr := debug_text (debug_fields op).

(** The bare variant name, up to the first brace or blank. *)
Definition variant_debug_name (op : AgentOperation) : rstr :=
  default (fmt_debug op) (head (split_on (λ c, (c =? $"{")%N || (c =? $" ")%N) (fmt_debug op))).

(** The same in [crates/hosts/src/registry.rs], which also stops at a parenthesis. *)
Definition operation_name (op : AgentOperation) : rstr :=
  default [] (head (split_on (λ c, (c =? $" ")%N || (c =? $"{")%N || (c =? $"(")%N) (fmt_debug op))).

(** A blank before every capital that follows a small letter or a digit.  Variant
    names are ASCII, so the ASCII classes decide. *)
Fixpoint humanize_loop (prev : bool) (name : rstr) : rstr :=
  match name with
  | [] => []
  | c :: name' =>
      (if is_ascii_uppercase c && prev then [ $" "; c ] else [c])
      ++ humanize_loop (is_ascii_lowercase c || is_ascii_digit c) name'
  end.
Definition humanize_variant_name (name : rstr) : rstr := humanize_loop false name.

(** [AgentOperation::label]. *)
Definition label (op : AgentOperation) : rstr :=
  match op with
  | SetHostname hostname => #"Set hostname to " ++ hostname
  | Reboot => #"Rebooted"
  | FirewallAllowPort port protocol => #"Allowed port " ++ fmt_N port ++ #"/" ++ protocol
  | FirewallEnable => #"Enabled firewall"
  | FirewallDenyPort port protocol => #"Denied port " ++ fmt_N port ++ #"/" ++ protocol
  | FirewallRemovePort port protocol => #"Removed firewall rule for port " ++ fmt_N port ++ #"/" ++ protocol
  | HardenSshd setting => #"Applied SSH hardening: " ++ SshHardening.label setting
  | ClearSshHardening => #"Cleared SSH hardening"
  | Elevate _ _ => #"Elevated privileges"
  | Deescalate => #"De-escalated privileges"
  | InterfaceSetState interface up => #"Set interface " ++ interface ++ #" " ++ (if up then #"up" else #"down")
  | NetworkScan target _ => #"Ran network scan against " ++ target
  | VacuumJournalBySize size => #"Vacuumed journal to " ++ size
  | VacuumJournalByTime duration => #"Vacuumed journal older than " ++ duration
  | CreateBackup _ name => #"Created backup: " ++ name
  | RestoreBackup filename _ => #"Restored backup " ++ filename
  | StartService unit => #"Started service " ++ unit
  | StopService unit => #"Stopped service " ++ unit
  | RestartService unit => #"Restarted service " ++ unit
  | EnableService unit => #"Enabled service " ++ unit
  | DisableService unit => #"Disabled service " ++ unit
  | ReloadSystemdDaemon => #"Reloaded systemd daemon"
  | ResetFailedUnits => #"Reset failed systemd units"
  | RecoverUnit unit => #"Recovered unit " ++ unit
  | RemountReadWrite target => #"Remounted " ++ target ++ #" read-write"
  | StartContainer container => #"Started container " ++ container
  | StopContainer container => #"Stopped container " ++ container
  | RestartContainer container => #"Restarted container " ++ container
  | RemoveContainer container => #"Removed container " ++ container
  | RenicePriority pid priority => #"Reniced PID " ++ fmt_N pid ++ #" to priority " ++ fmt_Z priority
  | SendSignal pid signal => #"Sent " ++ signal ++ #" to PID " ++ fmt_N pid
  | SignalByName name signal _ => #"Sent " ++ signal ++ #" to processes named " ++ name
  | SetIoPriority pid class level => #"Set I/O priority (class " ++ fmt_N class ++ #", level " ++ fmt_N level ++ #") for PID " ++ fmt_N pid
  | SetOomScoreAdj pid adj => #"Set OOM score adjustment " ++ fmt_Z adj ++ #" for PID " ++ fmt_N pid
  | ForceLogRotation => #"Forced log rotation"
  | ClearTmpFiles older_than_days => #"Cleared temp files older than " ++ fmt_N older_than_days ++ #"d"
  | ClearCoreDumps => #"Cleared core dumps"
  | SetSwappiness value => #"Set swappiness to " ++ fmt_N value
  | SetIoScheduler device scheduler => #"Set I/O scheduler on " ++ device ++ #" to " ++ scheduler
  | CreateUser username _ => #"Created user " ++ username
  | CreateGroup group => #"Created group " ++ group
  | AddUserToGroup username group => #"Added " ++ username ++ #" to group " ++ group
  | RemoveUserFromGroup username group => #"Removed " ++ username ++ #" from group " ++ group
  | LockUserAccount username => #"Locked user " ++ username
  | UnlockUserAccount username => #"Unlocked user " ++ username
  | DeleteUser username _ => #"Deleted user " ++ username
  | DeleteGroup group => #"Deleted group " ++ group
  | TrimFilesystem mountpoint => #"Trimmed filesystem at " ++ mountpoint
  | FilesystemRepair device => #"Repaired filesystem on " ++ device
  | InstallPackage package => #"Installed package " ++ package
  | UpgradePackage package => #"Upgraded package " ++ package
  | RemovePackage package => #"Removed package " ++ package
  | RefreshPackageIndex => #"Refreshed package index"
  | MountFilesystem device target => #"Mounted " ++ device ++ #" at " ++ target
  | UnmountFilesystem target => #"Unmounted " ++ target
  | ExtendLogicalVolume lv_path size => #"Extended logical volume " ++ lv_path ++ #" by " ++ size
  | CreatePartition device _ _ => #"Created partition on " ++ device
  | DeletePartition device partition_number => #"Deleted partition " ++ fmt_N partition_number ++ #" on " ++ device
  | CreateRaidArray array_name _ _ => #"Created RAID array " ++ array_name
  | StopRaidArray array_name => #"Stopped RAID array " ++ array_name
  | CreatePhysicalVolume device => #"Created physical volume " ++ device
  | CreateVolumeGroup name _ => #"Created volume group " ++ name
  | CreateLogicalVolume vg_name lv_name _ => #"Created logical volume " ++ lv_name ++ #" in " ++ vg_name
  | RemoveLogicalVolume lv_path => #"Removed logical volume " ++ lv_path
  | RemoveVolumeGroup name => #"Removed volume group " ++ name
  | RemovePhysicalVolume device => #"Removed physical volume " ++ device
  | CreateFilesystem device fstype => #"Created " ++ fstype ++ #" filesystem on " ++ device
  | SetPersistentSysctl key value => #"Set sysctl " ++ key ++ #" = " ++ value
  | RemovePersistentSysctlKey key => #"Removed sysctl key " ++ key
  | ClearManagedSysctl => #"Cleared all managed sysctl overrides"
  | SetCronJob job_name _ _ _ => #"Set cron job " ++ job_name
  | RemoveCronJob job_name => #"Removed cron job " ++ job_name
  | ClearManagedCronJobs => #"Cleared all managed cron jobs"
  | BlacklistModule module => #"Blacklisted kernel module " ++ module
  | RemoveModuleBlacklist module => #"Removed kernel module " ++ module ++ #" from the blacklist"
  | ClearModuleBlacklist => #"Cleared the managed module blacklist"
  | SetJournaldRetention setting value => #"Set journald " ++ Journald.key setting ++ #"=" ++ value
  | ClearJournaldConfig => #"Cleared managed journald config"
  | BlockRemoteIp ip => #"Blocked IP " ++ ip
  | UnblockRemoteIp ip => #"Unblocked IP " ++ ip
  | QuarantineFile path => #"Quarantined file " ++ path
  | RestoreQuarantinedFile quarantine_filename => #"Restored quarantined file " ++ quarantine_filename
  | DeleteQuarantinedFile filename shred_passes => shred_verb shred_passes ++ #" quarantined file " ++ filename
  | DeisolateHost => #"Removed host isolation"
  | IsolateHost => #"Isolated host"
  | GenerateSshKeypair key_type _ path => #"Generated " ++ key_type ++ #" SSH keypair at " ++ path
  | FixFilePermissions path mode => #"Fixed permissions on " ++ path ++ #" (" ++ mode ++ #")"
  | RemoveAuthorizedKey username _ => #"Removed authorized key for " ++ username
  | DeleteSshKeypair path shred_passes => shred_verb shred_passes ++ #" SSH keypair " ++ path
  | RenderSepulchreConfig target _ => #"Updated Sepulchre " ++ target_name target ++ #" configuration"
  | ClearSepulchreConfig target => #"Cleared Sepulchre " ++ target_name target ++ #" configuration"
  | CreateSftpChrootAccount username _ => #"Created SFTP chroot account " ++ username
  | InstallSepulchreAuthorizedKey username _ => #"Installed an authorized key for " ++ username
  | RemoveSftpChrootAccount username => #"Removed SFTP chroot account " ++ username
  | CreateSambaServiceUser username _ => #"Created Samba service user " ++ username
  | RemoveSambaServiceUser username => #"Removed Samba service user " ++ username
  | RenderMountUnit _ mount_point _ => #"Mounted " ++ mount_point
  | RemoveMountUnit _ mount_point => #"Unmounted " ++ mount_point
  | WriteSepulchreMountCredentials path _ => #"Wrote mount credentials file " ++ path
  | CreateSepulchreShareDirectory path _ => #"Created share directory " ++ path
  | SelfUpdate version _ _ => #"Updated agent to v" ++ version
  | UninstallAgent true => #"Uninstalled the agent and removed its enrollment"
  | UninstallAgent false => #"Uninstalled the agent"
  | ThanatosStream true _ => #"Started real-time security event streaming"
  | ThanatosStream false _ => #"Stopped real-time security event streaming"
  | UpdateTrustedCa _ => #"Updated the agent's trusted control-plane CA"
  | _ => humanize_variant_name (variant_debug_name op)
  end.
End text.

(** ** What must not be shown *)

(** The operation without the secrets it carries: passwords and the contents of a
    credentials file. *)
Definition redact (op : AgentOperation) : AgentOperation :=
  match op with
  | Elevate _ idle_timeout_secs => Elevate [] idle_timeout_secs
  | DirectoryTestDelegation domain_dns service_account_upn _ => DirectoryTestDelegation domain_dns service_account_upn []
  | DirectoryUnlockAccount domain_dns service_account_upn _ target_dn allow_privileged => DirectoryUnlockAccount domain_dns service_account_upn [] target_dn allow_privileged
  | DirectorySetEnabled domain_dns service_account_upn _ target_dn enabled allow_privileged => DirectorySetEnabled domain_dns service_account_upn [] target_dn enabled allow_privileged
  | DirectoryCreateUser r => DirectoryCreateUser (mkCreateUserRequest r.(cu_domain_dns) r.(cu_service_account_upn) [] r.(cu_target_ou) r.(cu_sam_base) r.(cu_upn_suffix) r.(cu_given_name) r.(cu_surname) r.(cu_display_name) r.(cu_email) [] r.(cu_attributes) r.(cu_groups) r.(cu_allow_privileged))
  | DirectorySetPassword domain_dns service_account_upn _ target_dn _ allow_privileged => DirectorySetPassword domain_dns service_account_upn [] target_dn [] allow_privileged
  | ExchangeTestConnection uri account_upn _ => ExchangeTestConnection uri account_upn []
  | ExchangeEnableMailbox uri account_upn _ target_identity remote_routing_address => ExchangeEnableMailbox uri account_upn [] target_identity remote_routing_address
  | ExchangeSetMailboxOffboard uri account_upn _ target_identity convert_to_shared => ExchangeSetMailboxOffboard uri account_upn [] target_identity convert_to_shared
  | DirectoryCreateGroup r => DirectoryCreateGroup (mkCreateGroupRequest r.(cg_domain_dns) r.(cg_service_account_upn) [] r.(cg_name) r.(cg_target_ou) r.(cg_scope) r.(cg_category) r.(cg_description))
  | DirectoryDeleteGroup domain_dns service_account_upn _ target_dn allow_privileged => DirectoryDeleteGroup domain_dns service_account_upn [] target_dn allow_privileged
  | DirectoryAddGroupMember domain_dns service_account_upn _ group_dn member_dn allow_privileged => DirectoryAddGroupMember domain_dns service_account_upn [] group_dn member_dn allow_privileged
  | DirectoryRemoveGroupMember domain_dns service_account_upn _ group_dn member_dn allow_privileged => DirectoryRemoveGroupMember domain_dns service_account_upn [] group_dn member_dn allow_privileged
  | DirectoryMove domain_dns service_account_upn _ target_dn new_parent_ou allow_privileged => DirectoryMove domain_dns service_account_upn [] target_dn new_parent_ou allow_privileged
  | DirectoryDeleteObject domain_dns service_account_upn _ target_dn allow_privileged => DirectoryDeleteObject domain_dns service_account_upn [] target_dn allow_privileged
  | DirectoryOffboard domain_dns service_account_upn _ target_dn disabled_ou allow_privileged => DirectoryOffboard domain_dns service_account_upn [] target_dn disabled_ou allow_privileged
  | DirectoryUndoOffboard r => DirectoryUndoOffboard (mkUndoOffboardRequest r.(uo_domain_dns) r.(uo_service_account_upn) [] r.(uo_target_dn) r.(uo_original_ou) r.(uo_groups) r.(uo_allow_privileged))
  | CreateSambaServiceUser username _ => CreateSambaServiceUser username []
  | WriteSepulchreMountCredentials path _ => WriteSepulchreMountCredentials path []
  | _ => op
  end.

(** ** Names *)

Lemma head_split_on f n rest :
  forallb (λ c, negb (f c)) n = true →
  head (split_on f (n ++ rest)) = (λ w, n ++ w) <$> head (split_on f rest).
Proof.
  induction n as [|c n IH]; cbn; [by destruct (head _)|]. destruct (f c) eqn:Hc; cbn; [done|]. intros Hn.
  specialize (IH Hn). destruct (split_on f (n ++ rest)) as [|w ws] eqn:Hs; [by apply split_on_nonnil in Hs|].
  cbn in IH |- *. destruct (head (split_on f rest)); [|done]. cbn in *. by injection IH as ->.
Qed.

(** Variant names are letters and digits. *)
Lemma debug_name_chars op : forallb is_ascii_alphanumeric (debug_fields op).1 = true.
Proof. by destruct op. Qed.

Lemma head_debug_text debug_str f d :
  forallb (λ c, negb (f c)) d.1 = true → f $" " = true →
  head (split_on f (debug_text debug_str d)) = Some d.1.
Proof.
  destruct d as [n [|x fs]]; cbn [fst snd]; unfold debug_text; intros Hn Hf; cbn [snd fst].
  - rewrite <- (app_nil_r n) at 1. rewrite head_split_on by done. cbn. by rewrite app_nil_r.
  - rewrite head_split_on by done. change #" { " with [ $" "; $"{"; $" "]. cbn [app split_on]. rewrite Hf. cbn.
    by rewrite app_nil_r.
Qed.

Lemma forallb_impl {A} (f g : A → bool) l :
  (∀ x, f x = true → g x = true) → forallb f l = true → forallb g l = true.
Proof. rewrite !forallb_forall. auto. Qed.

(** The name both callers cut out of the debug text is the variant's. *)
Lemma operation_name_eq debug_str op : operation_name debug_str op = (debug_fields op).1.
Proof.
  unfold operation_name, fmt_debug. rewrite head_debug_text; [done| |done].
  eapply forallb_impl; [|apply debug_name_chars]. intros c. unfold is_ascii_alphanumeric, is_ascii_alphabetic,
    is_ascii_lowercase, is_ascii_uppercase, is_ascii_digit, in_range.
  change $" " with 32%N; change $"{" with 123%N; change $"(" with 40%N.
  destruct (N.eqb_spec c 32) as [->|]; [discriminate|]. destruct (N.eqb_spec c 123) as [->|]; [discriminate|].
  destruct (N.eqb_spec c 40) as [->|]; [discriminate|reflexivity].
Qed.
Lemma variant_debug_name_eq debug_str op : variant_debug_name debug_str op = (debug_fields op).1.
Proof.
  unfold variant_debug_name, fmt_debug. rewrite head_debug_text; [done| |done].
  eapply forallb_impl; [|apply debug_name_chars]. intros c. unfold is_ascii_alphanumeric, is_ascii_alphabetic,
    is_ascii_lowercase, is_ascii_uppercase, is_ascii_digit, in_range.
  change $" " with 32%N; change $"{" with 123%N.
  destruct (N.eqb_spec c 123) as [->|]; [discriminate|].
  destruct (N.eqb_spec c 32) as [->|]; [discriminate|reflexivity].
Qed.

Lemma debug_fields_redact op : debug_fields (redact op) = debug_fields op.
Proof. by destruct op. Qed.
Lemma label_redact debug_str op : label debug_str (redact op) = label debug_str op.
Proof.
  assert (variant_debug_name debug_str (redact op) = variant_debug_name debug_str op) as Hv.
  { by rewrite !variant_debug_name_eq, debug_fields_redact. }
  destruct op; try reflexivity; cbn [redact label]; f_equal; exact Hv.
Qed.
