(* ===== verification/Registry.v ===== *)
(** * Connections and dispatch ([crates/hosts/src/registry.rs])

    Which hosts have a live agent connection, which commands wait for an answer,
    and how a dispatch runs: the registry's own operations first, then the steps
    a dispatch takes between its locks, interleaved with connections coming and
    going, answers arriving and timeouts firing. *)

From S2P Require Import Prelude Protocol Agent OpText Guard.
Import Op.

Abbreviation Uuid := N (only parsing).
(** [CommandOutcome]. *)
Definition CommandOutcome : Type := result rstr OperationOutput.

Inductive DispatchError : Type :=
| NotConnected
| Timeout
| ConnectionClosed
| Refused (reason : rstr)
| AgentTooOld (operation : rstr) (needed : N) (has : option N).

(** A connection; its epoch identifies the sending half of its channel. *)
Record Connection := mkConnection { protocol_version : option N; epoch : N }.

Inductive AgentProtocolStatus : Set :=
| Disconnected
| Unknown
| Version (v : N).

(** [HostConnectionRegistry].  [pending] maps a request to the host it went to;
    the sending half of its oneshot channel lives in the entry. *)
Record Registry := mkRegistry {
  connections : gmap Uuid Connection;
  pending : gmap Uuid Uuid;
  control_plane : gset Uuid;
  next_epoch : N;
  protection : ControlPlaneProtection }.

Definition empty_registry : Registry := mkRegistry ∅ ∅ ∅ 0 (mkProtection [] None).

Definition U64 : N := 2 ^ 64.

Definition register (host : Uuid) (version : option N) (r : Registry) : Registry :=
  let e := ((next_epoch r + 1) mod U64)%N in
  mkRegistry (<[host := mkConnection version e]> (connections r)) (pending r) (control_plane r) e (protection r).

Definition connection_epoch (host : Uuid) (r : Registry) : option N := epoch <$> connections r !! host.

Definition unregister (host : Uuid) (r : Registry) : Registry :=
  mkRegistry (delete host (connections r)) (filter (λ p, p.2 ≠ host) (pending r))
    (control_plane r) (next_epoch r) (protection r).

Definition is_connected (host : Uuid) (r : Registry) : bool := bool_decide (is_Some (connections r !! host)).

Definition agent_protocol_status (host : Uuid) (r : Registry) : AgentProtocolStatus :=
  match connections r !! host with
  | None => Disconnected
  | Some c => match protocol_version c with None => Unknown | Some v => Version v end
  end.

Definition agent_supports (host : Uuid) (min : N) (r : Registry) : bool :=
  match agent_protocol_status host r with Version v => (min <=? v)%N | _ => false end.
Definition supports (host : Uuid) (op : AgentOperation) (r : Registry) : bool :=
  agent_supports host (min_protocol op) r.
Definition agent_protocol_mismatch (host : Uuid) (r : Registry) : bool :=
  match agent_protocol_status host r with
  | Disconnected => false
  | Unknown => true
  | Version v => negb (v =? PROTOCOL_VERSION)%N
  end.

(** [resolve] on the registry: the entry is taken out. *)
Definition take_pending (request : Uuid) (r : Registry) : Registry :=
  mkRegistry (connections r) (delete request (pending r)) (control_plane r) (next_epoch r) (protection r).
Definition insert_pending (request host : Uuid) (r : Registry) : Registry :=
  mkRegistry (connections r) (<[request := host]> (pending r)) (control_plane r) (next_epoch r) (protection r).

Definition set_control_plane (host : Uuid) (flag : bool) (r : Registry) : Registry :=
  mkRegistry (connections r) (pending r)
    (if flag then {[host]} ∪ control_plane r else control_plane r ∖ {[host]}) (next_epoch r) (protection r).
Definition is_control_plane (host : Uuid) (r : Registry) : bool := bool_decide (host ∈ control_plane r).
Definition set_protected_ports (l : list N) (r : Registry) : Registry :=
  mkRegistry (connections r) (pending r) (control_plane r) (next_epoch r)
    (mkProtection (btree_collect l) (docker_device (protection r))).
Definition set_docker_device (d : option rstr) (r : Registry) : Registry :=
  mkRegistry (connections r) (pending r) (control_plane r) (next_epoch r)
    (mkProtection (ports (protection r)) d).

Definition guard (host : Uuid) (op : AgentOperation) (r : Registry) : result rstr () :=
  if negb (is_control_plane host r) then Ok () else check op (protection r).

(** The second part of [dispatch], under the lock on the connections: the lookup
    of the sender, then the version check.  The name in the error is what
    [operation_name] cuts out of the debug text ([operation_name_eq]). *)
Definition dispatch_lookup (host : Uuid) (op : AgentOperation) (r : Registry) : result DispatchError N :=
  c ← ok_or (connections r !! host) NotConnected;
  let needed := min_protocol op in
  if (default 0 (protocol_version c) <? needed)%N then Err (AgentTooOld (debug_fields op).1 needed (protocol_version c))
  else Ok (epoch c).

(** ** Dispatches in flight *)

(** The receiving half of a oneshot channel. *)
Inductive oneshot : Type :=
| Empty
| Sent (o : CommandOutcome)
| Dropped.

(** Where a dispatch is.  [Guarded]: the guard let it pass; [Looked]: it holds a clone of the sender of the
    connection [e] but has not queued anything; [Sending]: its request is
    pending and the message is not yet in the channel; [Awaiting]: it waits on
    the oneshot under the timeout. *)
Inductive Task : Type :=
| Guarded (host : Uuid) (op : AgentOperation)
| Looked (host : Uuid) (op : AgentOperation) (e : N)
| Sending (host : Uuid) (op : AgentOperation) (e : N) (slot : oneshot)
| Awaiting (host : Uuid) (slot : oneshot)
| Finished (r : result DispatchError CommandOutcome).

(** A command as it reached a channel. *)
Record Delivery := mkDelivery { to_host : Uuid; to_epoch : N; request_id : Uuid; operation : AgentOperation }.

(** The registry with everything around it.  [opened] remembers for every epoch
    the host and version it was registered with; [closed] holds the epochs whose
    receiving half is gone; [delivered] and [answered] are histories. *)
Record State := mkState {
  reg : Registry;
  tasks : gmap Uuid Task;
  opened : gmap N (Uuid * option N);
  closed : gset N;
  delivered : list Delivery;
  answered : list (Uuid * CommandOutcome) }.

Definition with_reg (f : Registry → Registry) (s : State) : State :=
  mkState (f (reg s)) (tasks s) (opened s) (closed s) (delivered s) (answered s).
Definition with_task (q : Uuid) (t : Task) (s : State) : State :=
  mkState (reg s) (<[q := t]> (tasks s)) (opened s) (closed s) (delivered s) (answered s).

(** Dropping the sending halves of the requests of a host, or filling one. *)
Definition drop_slot (host : Uuid) (t : Task) : Task :=
  match t with
  | Sending h op e Empty => if (h =? host)%N then Sending h op e Dropped else t
  | Awaiting h Empty => if (h =? host)%N then Awaiting h Dropped else t
  | _ => t
  end.
Definition fill_slot (o : CommandOutcome) (t : Task) : Task :=
  match t with
  | Sending h op e _ => Sending h op e (Sent o)
  | Awaiting h _ => Awaiting h (Sent o)
  | _ => t
  end.

(** What the handler of a connection, [handle_socket] of [routes/agent.rs], does to
    the registry: [connect] once the host is flagged, on the way out the two
    halves of [unregister], each under its own lock, and then the receiving half
    of the channel goes away. *)
Definition connect (host : Uuid) (version : option N) (s : State) : State :=
  let r := register host version (reg s) in
  mkState r (tasks s) (<[next_epoch r := (host, version)]> (opened s)) (closed s) (delivered s) (answered s).
Definition drop_connection (host : Uuid) (r : Registry) : Registry :=
  mkRegistry (delete host (connections r)) (pending r) (control_plane r) (next_epoch r) (protection r).
Definition purge (host : Uuid) (s : State) : State :=
  mkState (mkRegistry (connections (reg s)) (filter (λ p, p.2 ≠ host) (pending (reg s)))
             (control_plane (reg s)) (next_epoch (reg s)) (protection (reg s)))
    (drop_slot host <$> tasks s) (opened s) (closed s) (delivered s) (answered s).
Definition close (e : N) (s : State) : State :=
  mkState (reg s) (tasks s) (opened s) ({[e]} ∪ closed s) (delivered s) (answered s).

(** [resolve]: an answer with no waiter is dropped. *)
Definition resolve (q : Uuid) (o : CommandOutcome) (s : State) : State :=
  match pending (reg s) !! q with
  | Some _ =>
      mkState (take_pending q (reg s)) (alter (fill_slot o) q (tasks s)) (opened s) (closed s)
        (delivered s) ((q, o) :: answered s)
  | None => s
  end.

(** What can happen next, one critical section at a time.  A request id is drawn
    fresh for every dispatch, epochs stay below their width, and a timeout may
    fire while an answer is arriving. *)
Inductive step : State → State → Prop :=
| step_flag host flag s : step s (with_reg (set_control_plane host flag) s)
| step_connect host version s :
    (next_epoch (reg s) + 1 < U64)%N → step s (connect host version s)
| step_drop_connection host s : step s (with_reg (drop_connection host) s)
| step_purge host s : step s (purge host s)
| step_close e s : step s (close e s)
| step_ports l s : step s (with_reg (set_protected_ports l) s)
| step_device d s : step s (with_reg (set_docker_device d) s)
| step_refuse q host op reason s :
    tasks s !! q = None → guard host op (reg s) = Err reason →
    step s (with_task q (Finished (Err (Refused reason))) s)
| step_guard q host op s :
    tasks s !! q = None → guard host op (reg s) = Ok () → step s (with_task q (Guarded host op) s)
| step_reject q host op e s :
    tasks s !! q = Some (Guarded host op) → dispatch_lookup host op (reg s) = Err e →
    step s (with_task q (Finished (Err e)) s)
| step_look q host op e s :
    tasks s !! q = Some (Guarded host op) → dispatch_lookup host op (reg s) = Ok e →
    step s (with_task q (Looked host op e) s)
| step_queue q host op e s :
    tasks s !! q = Some (Looked host op e) →
    step s (with_task q (Sending host op e Empty) (with_reg (insert_pending q host) s))
| step_send q host op e slot s :
    tasks s !! q = Some (Sending host op e slot) → e ∉ closed s →
    step s (mkState (reg s) (<[q := Awaiting host slot]> (tasks s)) (opened s) (closed s)
              (mkDelivery host e q op :: delivered s) (answered s))
| step_send_failed q host op e slot s :
    tasks s !! q = Some (Sending host op e slot) → e ∈ closed s →
    step s (with_task q (Finished (Err ConnectionClosed)) (with_reg (take_pending q) s))
| step_resolve q o s : step s (resolve q o s)
| step_answer q host o s :
    tasks s !! q = Some (Awaiting host (Sent o)) → step s (with_task q (Finished (Ok o)) s)
| step_dropped q host s :
    tasks s !! q = Some (Awaiting host Dropped) → step s (with_task q (Finished (Err ConnectionClosed)) s)
| step_timeout q host slot s :
    tasks s !! q = Some (Awaiting host slot) →
    step s (with_task q (Finished (Err Timeout)) (with_reg (take_pending q) s)).

Definition initial : State := mkState empty_registry ∅ ∅ ∅ [] [].
Definition reachable (s : State) : Prop := rtc step initial s.
