(* ===== verification/RegistryTheorems.v ===== *)
(** * Claims about connections and dispatch *)

From S2P Require Import Prelude Protocol Agent Guard Registry.
Import Op.

(** ** Invariants of every reachable state *)

(** The host a dispatch still waits on, if its oneshot is empty. *)
Definition waits_on (t : Task) : option Uuid :=
  match t with
  | Sending h _ _ Empty | Awaiting h Empty => Some h
  | _ => None
  end.
Definition slot_of (t : Task) : option oneshot :=
  match t with Sending _ _ _ slot | Awaiting _ slot => Some slot | _ => None end.

(** A command for an agent that speaks it. *)
Definition spoken (s : State) (host : Uuid) (op : AgentOperation) (e : N) : Prop :=
  ∃ v, opened s !! e = Some (host, v) ∧ (min_protocol op ≤ default 0 v)%N.

Record inv (s : State) : Prop := {
  (** Exactly the requests whose oneshot is empty are pending. *)
  inv_pending : ∀ q h, pending (reg s) !! q = Some h ↔ (tasks s !! q ≫= waits_on) = Some h;
  inv_connections : ∀ h c, connections (reg s) !! h = Some c → opened s !! epoch c = Some (h, protocol_version c);
  inv_epochs : ∀ e x, opened s !! e = Some x → (e ≤ next_epoch (reg s))%N;
  inv_width : (next_epoch (reg s) < U64)%N;
  inv_looked : ∀ q h op e, tasks s !! q = Some (Looked h op e) → spoken s h op e;
  inv_sending : ∀ q h op e slot, tasks s !! q = Some (Sending h op e slot) → spoken s h op e;
  inv_delivered : ∀ d, d ∈ delivered s → spoken s (to_host d) (operation d) (to_epoch d);
  (** Every command reached a channel at most once, and only for a dispatch
      that got past sending. *)
  inv_once : NoDup (request_id <$> delivered s);
  inv_sent : ∀ d, d ∈ delivered s →
    ∃ t, tasks s !! request_id d = Some t ∧
      match t with Guarded _ _ | Looked _ _ _ | Sending _ _ _ _ => False | _ => True end;
  (** An outcome a dispatch holds is the answer to its own request. *)
  inv_slots : ∀ q t o, tasks s !! q = Some t → slot_of t = Some (Sent o) → (q, o) ∈ answered s;
  inv_results : ∀ q o, tasks s !! q = Some (Finished (Ok o)) → (q, o) ∈ answered s;
}.

Lemma inv_initial : inv initial.
Proof.
  split; cbn; try done; try (by intros ? ?%elem_of_nil).
  constructor.
Qed.

Lemma spoken_frame s s' h op e :
  opened s ⊆ opened s' → spoken s h op e → spoken s' h op e.
Proof. intros Hsub (v & Hv & Hle). exists v. split; [by eapply lookup_weaken|done]. Qed.

(** A dispatch that got past its checks talks to an agent new enough. *)
Lemma dispatch_lookup_ok s h op e :
  inv s → dispatch_lookup h op (reg s) = Ok e → spoken s h op e.
Proof.
  intros Hinv (c & Hc%ok_or_ok & Hv)%result_bind_ok. cbv zeta in Hv.
  destruct (N.ltb_spec (default 0%N (protocol_version c)) (min_protocol op)); [done|].
  injection Hv as <-. exists (protocol_version c). split; [|done]. by apply (inv_connections _ Hinv).
Qed.

Lemma waits_drop host t :
  waits_on (drop_slot host t) = (if bool_decide (waits_on t = Some host) then None else waits_on t).
Proof.
  destruct t as [h op|h op e|h op e [|o|]|h [|o|]|r]; cbn; try done.
  - destruct (N.eqb_spec h host) as [->|Hne]; cbn; [by rewrite bool_decide_true|].
    rewrite bool_decide_false by congruence. done.
  - destruct (N.eqb_spec h host) as [->|Hne]; cbn; [by rewrite bool_decide_true|].
    rewrite bool_decide_false by congruence. done.
Qed.

(** ** Steps preserve them *)

(** The registry with other pending requests. *)
Definition with_pending (p : gmap Uuid Uuid) (r : Registry) : Registry :=
  mkRegistry (connections r) p (control_plane r) (next_epoch r) (protection r).

(** A state a task may enter. *)
Definition may_enter (s : State) (q : Uuid) (t : Task) : Prop :=
  match t with
  | Guarded _ _ => q ∉ request_id <$> delivered s
  | Looked h op e | Sending h op e _ => spoken s h op e ∧ q ∉ request_id <$> delivered s
  | Awaiting _ _ => True
  | Finished r => match r with Ok o => (q, o) ∈ answered s | Err _ => True end
  end ∧
  match slot_of t with Some (Sent o) => (q, o) ∈ answered s | _ => True end.

Lemma inv_task s q t p :
  inv s → may_enter s q t →
  (∀ q' h, p !! q' = Some h ↔ (<[q := t]> (tasks s) !! q' ≫= waits_on) = Some h) →
  inv (mkState (with_pending p (reg s)) (<[q := t]> (tasks s)) (opened s) (closed s) (delivered s) (answered s)).
Proof.
  intros Hinv [Hmay Hslot] Hp. destruct Hinv. split; cbn [reg tasks opened closed delivered answered with_pending
    connections pending control_plane next_epoch protection]; try done.
  - intros q' h op e. rewrite lookup_insert_Some. intros [[<- ->]|[_ Hl]]; [by destruct Hmay|by eapply inv_looked0].
  - intros q' h op e slot. rewrite lookup_insert_Some.
    intros [[<- ->]|[_ Hl]]; [by destruct Hmay|by eapply inv_sending0].
  - intros d Hd. destruct (inv_sent0 d Hd) as (t' & Ht' & Hok). destruct (decide (request_id d = q)) as [Heq|Hne].
    + exists t. rewrite Heq, lookup_insert_eq. split; [done|].
      assert (q ∈ request_id <$> delivered s) by (rewrite <- Heq; by apply list_elem_of_fmap_2).
      by destruct t; try destruct Hmay.
    + exists t'. by rewrite lookup_insert_ne.
  - intros q' t' o. rewrite lookup_insert_Some. intros [[<- <-]|[_ Hl]] Hs; [by rewrite Hs in Hslot|by eapply inv_slots0].
  - intros q' o. rewrite lookup_insert_Some. intros [[<- ->]|[_ Hl]]; [done|by eapply inv_results0].
Qed.

(** Pending is unchanged when the task waits as before. *)
Lemma pending_same s q t :
  inv s → (tasks s !! q ≫= waits_on) = waits_on t →
  ∀ q' h, pending (reg s) !! q' = Some h ↔ (<[q := t]> (tasks s) !! q' ≫= waits_on) = Some h.
Proof.
  intros Hinv Ht q' h. rewrite (inv_pending _ Hinv). destruct (decide (q' = q)) as [->|Hne].
  - by rewrite lookup_insert_eq, Ht.
  - by rewrite lookup_insert_ne.
Qed.

Lemma inv_task_same s q t :
  inv s → may_enter s q t → (tasks s !! q ≫= waits_on) = waits_on t → inv (with_task q t s).
Proof.
  intros Hinv Hmay Ht. unfold with_task.
  assert (with_pending (pending (reg s)) (reg s) = reg s) as Hid by (by destruct (reg s)).
  rewrite <- Hid at 1. apply inv_task; [done..|]. by apply pending_same.
Qed.

Lemma pending_taken s q t :
  inv s → waits_on t = None →
  ∀ q' h, delete q (pending (reg s)) !! q' = Some h ↔ (<[q := t]> (tasks s) !! q' ≫= waits_on) = Some h.
Proof.
  intros Hinv Ht q' h. destruct (decide (q' = q)) as [->|Hne].
  - rewrite lookup_delete_eq, lookup_insert_eq. cbn. by rewrite Ht.
  - rewrite lookup_delete_ne, lookup_insert_ne by done. apply (inv_pending _ Hinv).
Qed.

Lemma undelivered s q :
  inv s → (∀ t, tasks s !! q = Some t → match t with Guarded _ _ | Looked _ _ _ | Sending _ _ _ _ => True | _ => False end) →
  q ∉ request_id <$> delivered s.
Proof.
  intros Hinv Hq (d & -> & Hd)%list_elem_of_fmap. destruct (inv_sent _ Hinv d Hd) as (t & Ht & Hok).
  specialize (Hq t Ht). by destruct t.
Qed.

Lemma inv_purge s host : inv s → inv (purge host s).
Proof.
  intros Hinv. pose proof (inv_pending _ Hinv) as Hp. destruct Hinv.
  assert (∀ q t', (drop_slot host <$> tasks s) !! q = Some t' → ∃ t, tasks s !! q = Some t ∧ t' = drop_slot host t) as Hl.
  { intros q t'. rewrite lookup_fmap. intros (t & ? & ->)%fmap_Some. by exists t. }
  split; cbn [reg tasks opened closed delivered answered connections pending next_epoch purge]; try done.
  - intros q h. rewrite map_lookup_filter_Some, Hp, lookup_fmap. cbn.
    destruct (tasks s !! q) as [t|]; cbn; [|naive_solver]. rewrite waits_drop. case_bool_decide; naive_solver.
  - intros q h op e' (t & Ht & Heq)%Hl. destruct t as [| |? ? ? []|? []|]; cbn in Heq; repeat case_match; try done.
    injection Heq as -> -> ->. by eapply inv_looked0.
  - intros q h op e' slot (t & Ht & Heq)%Hl.
    destruct t as [| |? ? ? []|? []|]; cbn in Heq; repeat case_match; try done;
      injection Heq as -> -> -> ->; by eapply inv_sending0.
  - intros d Hd. destruct (inv_sent0 d Hd) as (t & Ht & Hok). exists (drop_slot host t).
    rewrite lookup_fmap, Ht. split; [done|]. destruct t as [| |? ? ? []|? []|]; cbn; repeat case_match; done.
  - intros q t' o (t & Ht & ->)%Hl Hs. apply (inv_slots0 q t o Ht).
    destruct t as [| |? ? ? []|? []|]; cbn in Hs |- *; repeat case_match; done.
  - intros q o (t & Ht & Heq)%Hl. apply inv_results0.
    destruct t as [| |? ? ? []|? []|]; cbn in Heq; repeat case_match; try done. by rewrite Heq.
Qed.

Lemma inv_connect host version s :
  inv s → (next_epoch (reg s) + 1 < U64)%N → inv (connect host version s).
Proof.
  intros Hinv Hw. destruct Hinv. unfold connect, register.
  cbn [next_epoch connections pending control_plane protection].
  rewrite N.mod_small by done. set (e := (next_epoch (reg s) + 1)%N).
  assert (opened s !! e = None) as Hfresh.
  { destruct (opened s !! e) as [x|] eqn:Hx; [|done]. apply inv_epochs0 in Hx. lia. }
  assert (opened s ⊆ <[e := (host, version)]> (opened s)) as Hsub by (by apply insert_subseteq).
  split; cbn [reg tasks opened closed delivered answered connections pending next_epoch]; try done.
  - intros h c. rewrite lookup_insert_Some. intros [[<- <-]|[_ Hc]]; cbn; [apply lookup_insert_eq|].
    eapply lookup_weaken; [by apply inv_connections0|done].
  - intros e' x. rewrite lookup_insert_Some. intros [[<- _]|[_ Hx]]; [done|]. apply inv_epochs0 in Hx. lia.
  - intros q h op e' Hq. eapply spoken_frame; [|by eapply inv_looked0]. done.
  - intros q h op e' slot Hq. eapply spoken_frame; [|by eapply inv_sending0]. done.
  - intros d Hd. eapply spoken_frame; [|by apply inv_delivered0]. done.
Qed.

Lemma inv_send q host op e slot s :
  inv s → tasks s !! q = Some (Sending host op e slot) →
  inv (mkState (reg s) (<[q := Awaiting host slot]> (tasks s)) (opened s) (closed s)
         (mkDelivery host e q op :: delivered s) (answered s)).
Proof.
  intros Hinv Hq. assert (q ∉ request_id <$> delivered s) as Hnew.
  { apply undelivered; [done|]. intros t Ht. rewrite Hq in Ht. by injection Ht as <-. }
  assert (inv (mkState (with_pending (pending (reg s)) (reg s)) (<[q := Awaiting host slot]> (tasks s))
            (opened s) (closed s) (delivered s) (answered s))) as Hi.
  { apply inv_task; [done| |].
    - split; [done|]. cbn. destruct slot; try done. by eapply (inv_slots _ Hinv); [exact Hq|].
    - apply pending_same; [done|]. rewrite Hq. by destruct slot. }
  pose proof (inv_sending _ Hinv _ _ _ _ _ Hq) as Hsp. destruct Hi.
  cbn [reg tasks opened closed delivered answered with_pending connections pending next_epoch] in *.
  split; cbn [reg tasks opened closed delivered answered]; try done.
  - intros d [->|Hd]%elem_of_cons; [exact Hsp|]. by apply inv_delivered0.
  - cbn. constructor; [exact Hnew|done].
  - intros d [->|Hd]%elem_of_cons; [|by apply inv_sent0]. cbn. exists (Awaiting host slot).
    by rewrite lookup_insert_eq.
Qed.

Lemma inv_resolve q o s : inv s → inv (resolve q o s).
Proof.
  intros Hinv. unfold resolve. destruct (pending (reg s) !! q) as [h|] eqn:Hp; [|done].
  apply (inv_pending _ Hinv) in Hp. destruct (tasks s !! q) as [t|] eqn:Hq; [|done]. cbn in Hp.
  assert (inv (mkState (reg s) (tasks s) (opened s) (closed s) (delivered s) ((q, o) :: answered s))) as Hi.
  { destruct Hinv. split; cbn [reg tasks opened closed delivered answered]; try done.
    - intros q' t' o' Ht Hs. apply list_elem_of_further. by eapply inv_slots0.
    - intros q' o' Ht. apply list_elem_of_further. by eapply inv_results0. }
  assert (alter (fill_slot o) q (tasks s) = <[q := fill_slot o t]> (tasks s)) as ->.
  { apply map_eq. intros i. destruct (decide (i = q)) as [->|Hne].
    - by rewrite lookup_alter_eq, lookup_insert_eq, Hq.
    - by rewrite lookup_alter_ne, lookup_insert_ne. }
  apply (inv_task (mkState (reg s) (tasks s) (opened s) (closed s) (delivered s) ((q, o) :: answered s))); [done| |].
  - destruct t as [| |h' op e slot|h' slot|]; cbn in Hp; try done; split; cbn; try apply list_elem_of_here; [|done].
    split; [by eapply (inv_sending _ Hinv)|]. apply undelivered; [done|]. intros t Ht. rewrite Hq in Ht. by injection Ht as <-.
  - apply (pending_taken (mkState (reg s) (tasks s) (opened s) (closed s) (delivered s) ((q, o) :: answered s))); [done|].
    by destruct t.
Qed.

Lemma inv_step s s' : inv s → step s s' → inv s'.
Proof.
  intros Hinv Hstep. destruct Hstep.
  - destruct Hinv. by split.
  - by apply inv_connect.
  - destruct Hinv. split; try done. intros h c. cbn. intros [_ Hc]%lookup_delete_Some. by apply inv_connections0.
  - by apply inv_purge.
  - destruct Hinv. by split.
  - destruct Hinv. by split.
  - destruct Hinv. by split.
  - apply inv_task_same; [done|done|]. by rewrite H.
  - apply inv_task_same; [done| |by rewrite H]. split; [|done].
    apply undelivered; [done|]. intros t Ht. congruence.
  - apply inv_task_same; [done|done|]. by rewrite H.
  - apply inv_task_same; [done| |by rewrite H]. split; [|done]. split; [by apply dispatch_lookup_ok|].
    apply undelivered; [done|]. intros t Ht. rewrite H in Ht. by injection Ht as <-.
  - apply (inv_task s q (Sending host op e Empty) (<[q := host]> (pending (reg s)))); [done| |].
    + split; [|done]. split; [by eapply (inv_looked _ Hinv)|]. apply undelivered; [done|].
      intros t Ht. rewrite H in Ht. by injection Ht as <-.
    + intros q' h. destruct (decide (q' = q)) as [->|Hne]; [by rewrite !lookup_insert_eq|].
      rewrite !lookup_insert_ne by done. apply (inv_pending _ Hinv).
  - by apply (inv_send q host op e slot).
  - apply (inv_task s q _ (delete q (pending (reg s)))); [done|done|]. by apply pending_taken.
  - by apply inv_resolve.
  - apply inv_task_same; [done| |by rewrite H]. split; [|done]. cbn. by eapply (inv_slots _ Hinv); [exact H|].
  - apply inv_task_same; [done|done|]. by rewrite H.
  - apply (inv_task s q _ (delete q (pending (reg s)))); [done|done|]. by apply pending_taken.
Qed.

Lemma reachable_inv s : reachable s → inv s.
Proof.
  unfold reachable. intros Hr. assert (inv initial) as Hi by apply inv_initial.
  induction Hr as [|s1 s2 s3 Hs _ IH]; [done|]. by apply IH, (inv_step s1).
Qed.

(** The pending table is exact in every reachable state: a request is in it if and only if its
    dispatch still waits for an answer, so nothing leaks once every dispatch has returned, and after a
    connection's requests are purged no dispatch is left waiting for that host. *)
Theorem pending_exact (s : State) :
  reachable s →
  (∀ q h, pending (reg s) !! q = Some h ↔ (tasks s !! q ≫= waits_on) = Some h) ∧
  ((∀ q t, tasks s !! q = Some t → ∃ r, t = Finished r) → pending (reg s) = ∅) ∧
  (∀ h q, (tasks (purge h s) !! q ≫= waits_on) ≠ Some h).
Proof.
  intros Hr. pose proof (reachable_inv s Hr) as Hinv. split_and!.
  - apply (inv_pending _ Hinv).
  - intros Hall. apply map_empty. intros q. destruct (pending (reg s) !! q) as [h|] eqn:Hp; [|done].
    apply (inv_pending _ Hinv) in Hp. destruct (tasks s !! q) as [t|] eqn:Ht; [|done].
    destruct (Hall q t Ht) as [r ->]. done.
  - intros h q. cbn. rewrite lookup_fmap. destruct (tasks s !! q) as [t|]; cbn; [|done].
    rewrite waits_drop. by case_bool_decide.
Qed.

(** C33: Commands and answers are never crossed.  In every reachable state each command in a channel was put
    there for the host that channel belongs to, whose agent reported a protocol version the command needs or
    a later one (or needs none, for an agent that reported no version); no request was delivered twice; and a
    dispatch that returned an outcome returned the answer given to its own request, since an answer without a
    waiting dispatch is dropped. *)
Theorem dispatch_sound (s : State) :
  reachable s →
  NoDup (request_id <$> delivered s) ∧
  (∀ d, d ∈ delivered s → ∃ v,
     opened s !! to_epoch d = Some (to_host d, v) ∧ (min_protocol (operation d) ≤ default 0 v)%N) ∧
  (∀ q o, tasks s !! q = Some (Finished (Ok o)) → (q, o) ∈ answered s) ∧
  (∀ q o, pending (reg s) !! q = None → resolve q o s = s).
Proof.
  intros Hr. pose proof (reachable_inv s Hr) as Hinv. split_and!.
  - apply (inv_once _ Hinv).
  - intros d Hd. by apply (inv_delivered _ Hinv).
  - apply (inv_results _ Hinv).
  - intros q o Hp. unfold resolve. by rewrite Hp.
Qed.

(** ** The control plane's own server *)

(** An operation the guard refuses whatever is known about the server. *)
Definition always_refused (op : AgentOperation) : Prop := ∀ p, is_ok (check op p) = false.

(** The host is and stays flagged as the control plane's own server: [load] of
    [control_plane.rs] flags it before any agent connects, and enrolling flags it
    before its agent can. *)
Definition flagged (h : Uuid) (s : State) : Prop := h ∈ control_plane (reg s).
Definition guarded_step (h : Uuid) (s s' : State) : Prop := step s s' ∧ flagged h s'.
Definition loaded (h : Uuid) : State := with_reg (set_control_plane h true) initial.

(** No dispatch to the host carries such an operation. *)
Definition harmless (h : Uuid) (s : State) : Prop :=
  flagged h s ∧
  (∀ q t, tasks s !! q = Some t →
    match t with
    | Guarded h' op | Looked h' op _ | Sending h' op _ _ => h' = h → ¬ always_refused op
    | _ => True
    end) ∧
  (∀ d, d ∈ delivered s → to_host d = h → ¬ always_refused (operation d)).

Lemma guard_not_refused h op s : flagged h s → guard h op (reg s) = Ok () → ¬ always_refused op.
Proof.
  intros Hflag Hb Hop. unfold guard, is_control_plane in Hb. rewrite bool_decide_true in Hb by done.
  cbn [negb] in Hb. specialize (Hop (protection (reg s))). by rewrite Hb in Hop.
Qed.

(** A step that changes one task to a state that carries no new operation. *)
Lemma harmless_task h s s' q t :
  harmless h s → flagged h s' → tasks s' = <[q := t]> (tasks s) → delivered s' = delivered s →
  match t with
  | Guarded h' op | Looked h' op _ | Sending h' op _ _ => h' = h → ¬ always_refused op
  | _ => True
  end → harmless h s'.
Proof.
  intros (_ & Hl & Hd) Hf Ht Hdel Hop. split_and!; [done| |by rewrite Hdel]. rewrite Ht.
  intros q' t'. rewrite lookup_insert_Some. intros [[<- <-]|[_ Hq]]; [done|by apply (Hl q')].
Qed.

Lemma harmless_step h s s' : harmless h s → guarded_step h s s' → harmless h s'.
Proof.
  intros Hh [Hstep Hf]. pose proof Hh as (Hk & Hl & Hd). destruct Hstep;
    try (by split_and!);
    try (eapply harmless_task; [exact Hh|exact Hf|reflexivity|done|]; first [done|exact (Hl q _ H)]).
  - split_and!; [done| |done]. cbn [tasks purge]. intros q t. rewrite lookup_fmap.
    intros (t' & Ht & ->)%fmap_Some. specialize (Hl q t' Ht).
    destruct t' as [| |h' ? ? []|h' []|]; cbn in Hl |- *; try exact Hl; by destruct (N.eqb h' host).
  - eapply harmless_task; [done|done|reflexivity|done|]. intros ->. by apply (guard_not_refused h op s).
  - pose proof (harmless_task h s (with_task q (Awaiting host slot) s) q (Awaiting host slot) Hh) as Ht.
    destruct Ht as (_ & Hl' & _); [done..|]. split_and!; [done|done|].
    intros d [->|Hin]%elem_of_cons; [|by apply Hd]. apply (Hl q _ H).
  - unfold resolve in *. destruct (pending (reg s) !! q); [|done]. split_and!; [done| |done]. cbn [tasks].
    intros q' t. rewrite lookup_alter_Some. intros [(<- & t' & Ht & ->)|[_ Hq]]; [|by apply (Hl q')].
    specialize (Hl q t' Ht). by destruct t'.
Qed.

(** C34: An operation that would take the control plane down, such as isolating the host, never reaches
    the agent of the control plane's own server, however dispatches, reconnects and answers interleave. *)
Theorem control_plane_never_isolated (h : Uuid) (s : State) (d : Delivery) :
  rtc (guarded_step h) (loaded h) s → d ∈ delivered s → to_host d = h →
  operation d ≠ IsolateHost ∧ operation d ≠ ScourgeSetMode true ∧ operation d ≠ FirewallEnable.
Proof.
  intros Hr Hd Hh. assert (harmless h (loaded h)) as Hi.
  { split_and!; cbn; [|done|by intros ? ?%elem_of_nil]. unfold flagged. cbn. set_solver. }
  assert (harmless h s) as (_ & _ & Hall).
  { clear Hd. induction Hr as [|s1 s2 s3 Hs _ IH]; [done|]. by apply IH, (harmless_step h s1). }
  specialize (Hall d Hd Hh). split_and!; intros Heq; apply Hall; rewrite Heq; by intros p.
Qed.

(** ** Every dispatch finishes *)

(** How many of its own steps a dispatch may still take. *)
Definition rank (t : Task) : nat :=
  match t with Guarded _ _ => 4 | Looked _ _ _ => 3 | Sending _ _ _ _ => 2 | Awaiting _ _ => 1 | Finished _ => 0 end.

(** A dispatch [t] may have become [t']. *)
Definition evolves (t t' : Task) : Prop := rank t' ≤ rank t ∧ (rank t = 0 → t' = t).

#[local] Instance evolves_refl : Reflexive evolves.
Proof. by intros t. Qed.

Lemma evolves_trans t t' t'' : evolves t t' → evolves t' t'' → evolves t t''.
Proof. intros [H1 H2] [H3 H4]. split; [lia|]. intros Hz. rewrite <- (H2 Hz). apply H4. lia. Qed.

Lemma evolves_drop host t : evolves t (drop_slot host t).
Proof. destruct t as [| |h ? ? []|h []|]; cbn; try done; by destruct (N.eqb h host). Qed.

Lemma evolves_fill o t : evolves t (fill_slot o t).
Proof. by destruct t. Qed.

Lemma task_insert (m : gmap Uuid Task) q0 q t0 t :
  m !! q = Some t → (∀ u, m !! q0 = Some u → evolves u t0) →
  ∃ t', <[q0 := t0]> m !! q = Some t' ∧ evolves t t'.
Proof.
  intros Hq H0. destruct (decide (q0 = q)) as [->|Hne].
  - exists t0. rewrite lookup_insert_eq. split; [done|]. by apply H0.
  - exists t. by rewrite lookup_insert_ne.
Qed.

Lemma step_evolves s s' q t :
  step s s' → tasks s !! q = Some t → ∃ t', tasks s' !! q = Some t' ∧ evolves t t'.
Proof.
  intros Hstep Hq. destruct Hstep; cbn [tasks with_task with_reg connect close];
    try (by exists t);
    try (apply task_insert; [done|]; intros u Hu; rewrite Hu in H; try done;
         injection H as ->; split; cbn; (lia || done)).
  - exists (drop_slot host t). cbn. rewrite lookup_fmap, Hq. split; [done|]. apply evolves_drop.
  - unfold resolve. destruct (pending (reg s) !! q0); [|by exists t]. cbn [tasks].
    destruct (decide (q0 = q)) as [->|Hne].
    + exists (fill_slot o t). rewrite lookup_alter_eq, Hq. split; [done|]. apply evolves_fill.
    + exists t. by rewrite lookup_alter_ne.
Qed.

(** A dispatch that has not returned can always go on by itself. *)
Lemma task_progress s q t :
  tasks s !! q = Some t → rank t ≠ 0 →
  ∃ s' t', step s s' ∧ tasks s' !! q = Some t' ∧ rank t' < rank t.
Proof.
  intros Hq Ht. destruct t as [h op|h op e|h op e slot|h slot|r]; [..|done].
  - destruct (dispatch_lookup h op (reg s)) as [e|err] eqn:Hl; eexists _, _.
    + split; [by eapply step_look|]. cbn. rewrite lookup_insert_eq. split; [done|]. cbn. lia.
    + split; [by eapply step_reject|]. cbn. rewrite lookup_insert_eq. split; [done|]. cbn. lia.
  - eexists _, _. split; [by eapply step_queue|]. cbn. rewrite lookup_insert_eq. split; [done|]. cbn. lia.
  - destruct (decide (e ∈ closed s)) as [He|He]; eexists _, _.
    + split; [by eapply step_send_failed|]. cbn. rewrite lookup_insert_eq. split; [done|]. cbn. lia.
    + split; [by eapply step_send|]. cbn. rewrite lookup_insert_eq. split; [done|]. cbn. lia.
  - eexists _, _. split; [by eapply step_timeout|]. cbn. rewrite lookup_insert_eq. split; [done|]. cbn. lia.
Qed.

(** Every dispatch finishes: from any state it can return within four steps of its own, whatever the
    agent does; and whatever else happens meanwhile, it never moves away from returning and, once it has
    returned, keeps its result. *)
Theorem dispatch_finishes (s : State) (q : Uuid) (t : Task) :
  tasks s !! q = Some t →
  (∃ n s' r, n ≤ rank t ≤ 4 ∧ nsteps step n s s' ∧ tasks s' !! q = Some (Finished r)) ∧
  (∀ s', rtc step s s' → ∃ t', tasks s' !! q = Some t' ∧ rank t' ≤ rank t ∧
     ∀ r, t = Finished r → t' = Finished r).
Proof.
  intros Hq. split.
  - remember (rank t) as m eqn:Hm. revert s t Hm Hq. induction m as [m IH] using lt_wf_ind. intros s t -> Hq.
    destruct (decide (rank t = 0)) as [Hz|Hz].
    + destruct t as [| | | |r]; try done. exists 0, s, r. split; [cbn; lia|]. split; [constructor|done].
    + destruct (task_progress s q t Hq Hz) as (s1 & t1 & Hs & Hq1 & Hlt).
      destruct (IH (rank t1) Hlt s1 t1 eq_refl Hq1) as (n & s' & r & Hn & Hns & Hr).
      exists (S n), s', r. split; [|split; [by econstructor|done]]. destruct t; cbn in *; lia.
  - intros s' Hr. assert (∃ t', tasks s' !! q = Some t' ∧ evolves t t') as (t' & Ht' & Hle & Hfin).
    { revert t Hq. induction Hr as [s|s1 s2 s3 Hs _ IH]; intros t Hq; [by exists t|].
      destruct (step_evolves s1 s2 q t Hs Hq) as (t2 & Hq2 & H2).
      destruct (IH t2 Hq2) as (t3 & Hq3 & H3). exists t3. split; [done|]. by eapply evolves_trans. }
    exists t'. split_and!; [done|done|]. intros r ->. by apply Hfin.
Qed.

(** ** A reconnecting agent *)

(** No sender of the connection is left, so its handler finds the channel closed
    and leaves its loop. *)
Definition sender_gone (e : N) (s : State) : Prop :=
  (∀ h c, connections (reg s) !! h = Some c → epoch c ≠ e) ∧
  (∀ q h op, tasks s !! q ≠ Some (Looked h op e)) ∧
  (∀ q h op slot, tasks s !! q ≠ Some (Sending h op e slot)).

Lemma inv_fresh_epoch s h op e : inv s → spoken s h op e → (e ≤ next_epoch (reg s))%N.
Proof. intros Hinv (v & Hv & _). by apply (inv_epochs _ Hinv) in Hv. Qed.

(** An agent that reconnects before its old connection is torn down loses the new one as well: the
    second registration drops the last sender of the first connection, whose handler then leaves its loop
    and unregisters the host by its id, which removes the second connection although its handler still
    runs. *)
Theorem reconnect_cuts_new_connection (h : Uuid) (v1 v2 : option N) (s : State) :
  reachable s → (next_epoch (reg s) + 2 < U64)%N →
  let e1 := (next_epoch (reg s) + 1)%N in
  let s2 := connect h v2 (connect h v1 s) in
  let s3 := with_reg (drop_connection h) s2 in
  connection_epoch h (reg s2) = Some (e1 + 1)%N ∧ sender_gone e1 s2 ∧
  is_connected h (reg s3) = false ∧ sender_gone (e1 + 1) s3 ∧
  ∀ op, dispatch_lookup h op (reg s3) = Err NotConnected.
Proof.
  intros Hr Hw e1 s2 s3. pose proof (reachable_inv s Hr) as Hinv.
  assert (next_epoch (register h v1 (reg s)) = e1) as He1.
  { cbn. apply N.mod_small. lia. }
  assert (((next_epoch (register h v1 (reg s)) + 1) mod U64)%N = (e1 + 1)%N) as He2.
  { rewrite He1. apply N.mod_small. unfold e1. lia. }
  assert (∀ e, (e1 ≤ e)%N → (∀ q h' op, tasks s !! q ≠ Some (Looked h' op e)) ∧
            (∀ q h' op slot, tasks s !! q ≠ Some (Sending h' op e slot))) as Hfresh.
  { intros e He. split.
    - intros q h' op Hq%(inv_looked _ Hinv)%inv_fresh_epoch; [|done]. lia.
    - intros q h' op slot Hq%(inv_sending _ Hinv)%inv_fresh_epoch; [|done]. lia. }
  assert (∀ h' c, connections (reg s) !! h' = Some c → (epoch c < e1)%N) as Hold.
  { intros h' c Hc. apply (inv_connections _ Hinv), (inv_epochs _ Hinv) in Hc. lia. }
  assert (connections (reg s2) = <[h := mkConnection v2 (e1 + 1)]> (connections (reg s))) as Hc2.
  { unfold s2, connect. cbn [reg]. unfold register at 1. cbn [connections]. rewrite He2. cbn. by rewrite insert_insert_eq. }
  assert (connections (reg s3) = delete h (connections (reg s))) as Hc3.
  { unfold s3, with_reg. cbn [reg]. unfold drop_connection. cbn [connections]. rewrite Hc2. apply delete_insert_eq. }
  split_and!.
  - unfold connection_epoch. rewrite Hc2. by rewrite lookup_insert_eq.
  - split; [|by apply Hfresh]. intros h' c. rewrite Hc2, lookup_insert_Some.
    intros [[_ <-]|[_ Hc%Hold]]; cbn; lia.
  - unfold is_connected. rewrite Hc3, lookup_delete_eq. by apply bool_decide_false.
  - split; [|apply Hfresh; lia]. intros h' c. rewrite Hc3. intros [_ Hc%Hold]%lookup_delete_Some. lia.
  - intros op. unfold dispatch_lookup. by rewrite Hc3, lookup_delete_eq.
Qed.

(** ** One dispatch, start to end *)

Definition demo_output : CommandOutcome := Ok (mkOutput #"pong" [] (Some 0%Z)).

(** The host 7, flagged as the control plane's server, connects; request 1 pings
    it and is answered. *)
Definition demo_connected : State := connect 7 (Some PROTOCOL_VERSION) (loaded 7).
Definition demo_sent : State :=
  let s := with_task 1 (Looked 7 Ping 1) (with_task 1 (Guarded 7 Ping) demo_connected) in
  let s := with_task 1 (Sending 7 Ping 1 Empty) (with_reg (insert_pending 1 7) s) in
  mkState (reg s) (<[1%N := Awaiting 7 Empty]> (tasks s)) (opened s) (closed s)
    (mkDelivery 7 1 1 Ping :: delivered s) (answered s).
Definition demo : State := with_task 1 (Finished (Ok demo_output)) (resolve 1 demo_output demo_sent).

Lemma demo_sent_guarded : rtc (guarded_step 7) (loaded 7) demo_sent.
Proof.
  assert (∀ s, control_plane (reg s) = control_plane (reg (loaded 7)) → flagged 7 s) as Hf.
  { intros s Hs. unfold flagged. rewrite Hs. cbn. set_solver. }
  apply rtc_l with demo_connected; [split; [by apply step_connect|by apply Hf]|].
  eapply rtc_l; [split; [apply (step_guard 1 7 Ping); vm_compute; reflexivity|by apply Hf]|].
  eapply rtc_l; [split; [apply (step_look 1 7 Ping 1); vm_compute; reflexivity|by apply Hf]|].
  eapply rtc_l; [split; [apply (step_queue 1 7 Ping 1); vm_compute; reflexivity|by apply Hf]|].
  apply rtc_once. split; [|by apply Hf].
  apply (step_send 1 7 Ping 1 Empty); [vm_compute; reflexivity|]. cbn. set_solver.
Qed.

Lemma guarded_reachable h s : rtc (guarded_step h) (loaded h) s → reachable s.
Proof.
  intros Hr. eapply rtc_l; [apply (step_flag h true)|]. change (rtc step (loaded h) s).
  induction Hr as [|s1 s2 s3 [Hs _] _ IH]; [done|]. by eapply rtc_l.
Qed.

Lemma demo_reachable : reachable demo.
Proof.
  eapply rtc_r; [eapply rtc_r; [apply (guarded_reachable 7), demo_sent_guarded|apply (step_resolve 1 demo_output)]|].
  apply (step_answer 1 7 demo_output). vm_compute. reflexivity.
Qed.

Lemma pending_exact_witness :
  pending (reg demo_sent) = {[1%N := 7%N]} ∧ tasks demo_sent !! 1%N = Some (Awaiting 7 Empty) ∧
  (pending (reg demo_sent) !! 1%N = Some 7%N ↔ (tasks demo_sent !! 1%N ≫= waits_on) = Some 7%N).
Proof.
  split; [reflexivity|]. split; [reflexivity|].
  apply (pending_exact demo_sent (guarded_reachable 7 _ demo_sent_guarded)).
Defined.

Lemma dispatch_sound_witness :
  delivered demo = [mkDelivery 7 1 1 Ping] ∧ NoDup (request_id <$> delivered demo) ∧
  tasks demo !! 1%N = Some (Finished (Ok demo_output)) ∧ (1%N, demo_output) ∈ answered demo.
Proof.
  destruct (dispatch_sound demo demo_reachable) as (H1 & _ & H2 & _).
  split; [reflexivity|]. split; [exact H1|]. split; [reflexivity|]. exact (H2 1%N demo_output eq_refl).
Defined.

Lemma control_plane_never_isolated_witness :
  mkDelivery 7 1 1 Ping ∈ delivered demo_sent ∧ Ping ≠ IsolateHost ∧ Ping ≠ ScourgeSetMode true ∧ Ping ≠ FirewallEnable.
Proof.
  split; [apply list_elem_of_here|].
  apply (control_plane_never_isolated 7 demo_sent (mkDelivery 7 1 1 Ping) demo_sent_guarded); [apply list_elem_of_here|reflexivity].
Defined.

Lemma dispatch_finishes_witness :
  tasks demo_sent !! 1%N = Some (Awaiting 7 Empty) ∧
  ∃ n s' r, n ≤ 1 ≤ 4 ∧ nsteps step n demo_sent s' ∧ tasks s' !! 1%N = Some (Finished r).
Proof. split; [reflexivity|]. apply (dispatch_finishes demo_sent 1 (Awaiting 7 Empty) eq_refl). Defined.

Lemma reconnect_cuts_new_connection_witness :
  connection_epoch 7 (reg (connect 7 None (connect 7 None demo))) = Some 3%N ∧
  is_connected 7 (reg (with_reg (drop_connection 7) (connect 7 None (connect 7 None demo)))) = false.
Proof.
  destruct (reconnect_cuts_new_connection 7 None None demo demo_reachable ltac:(by vm_compute)) as (H1 & _ & H2 & _).
  split; [exact H1|exact H2].
Defined.
