(* ===== verification/ElevationTracker.v ===== *)
(** * The control plane's view of elevated hosts ([crates/hosts/src/elevation_tracker.rs])

    A mirror of which hosts are elevated, for the pages.  Looking at it evicts
    what has lapsed.  The contract is a table that is never evicted from; the
    tracker refines it. *)

From S2P Require Import Prelude.
From Stdlib Require Import Sorted.

Abbreviation Uuid := N (only parsing).

(** An entry: the host's name, when it was elevated, and for how long. *)
Record Elevated := mkElevated { host_name : rstr; since : N; window : N }.
Abbreviation Tracker := (gmap N Elevated).

(** [since.elapsed() < window]. *)
Definition holds_at (now : N) (e : Elevated) : bool := (now - since e <? window e)%N.
Definition remaining (now : N) (e : Elevated) : N := (window e - (now - since e))%N.

Definition mark_elevated (host : Uuid) (name : rstr) (win now : N) (t : Tracker) : Tracker :=
  <[host := mkElevated name now win]> t.
Definition mark_deescalated (host : Uuid) (t : Tracker) : Tracker := delete host t.

Definition is_elevated (host : Uuid) (now : N) (t : Tracker) : bool * Tracker :=
  match t !! host with
  | Some e => if holds_at now e then (true, t) else (false, delete host t)
  | None => (false, t)
  end.

Definition remaining_for (host : Uuid) (now : N) (t : Tracker) : option N * Tracker :=
  match t !! host with
  | Some e => if holds_at now e then (Some (remaining now e), t) else (None, delete host t)
  | None => (None, t)
  end.

(** The order of the rows is the hash map's, so the answer is a map. *)
Definition snapshot (now : N) (t : Tracker) : gmap Uuid (rstr * N) * Tracker :=
  let t' := filter (λ p, holds_at now p.2 = true) t in
  ((λ e, (host_name e, remaining now e)) <$> t', t').

Definition sweep_expired (now : N) (t : Tracker) : gmap Uuid rstr * Tracker :=
  (host_name <$> filter (λ p, holds_at now p.2 = false) t, filter (λ p, holds_at now p.2 = true) t).

(** ** Runs *)

Inductive Call : Type :=
| Mark (host : Uuid) (name : rstr) (win : N)
| Unmark (host : Uuid)
| IsElevated (host : Uuid)
| RemainingFor (host : Uuid)
| Snapshot
| Sweep.

(** What a caller sees; what a sweep returns goes to the audit trail. *)
Inductive Seen : Type :=
| Nothing
| SeenBool (b : bool)
| SeenRemaining (o : option N)
| SeenHosts (m : gmap Uuid (rstr * N)).

Definition call (now : N) (c : Call) (t : Tracker) : Seen * Tracker :=
  match c with
  | Mark h n w => (Nothing, mark_elevated h n w now t)
  | Unmark h => (Nothing, mark_deescalated h t)
  | IsElevated h => let '(b, t') := is_elevated h now t in (SeenBool b, t')
  | RemainingFor h => let '(o, t') := remaining_for h now t in (SeenRemaining o, t')
  | Snapshot => let '(m, t') := snapshot now t in (SeenHosts m, t')
  | Sweep => (Nothing, (sweep_expired now t).2)
  end.

Fixpoint calls (cs : list (N * Call)) (t : Tracker) : list Seen * Tracker :=
  match cs with
  | [] => ([], t)
  | (now, c) :: cs' =>
      let '(o, t) := call now c t in
      let '(os, t) := calls cs' t in (o :: os, t)
  end.

(** ** The contract: a table nothing is evicted from *)

Definition valid_at (now : N) (e : option Elevated) : option Elevated :=
  e ≫= λ e, if holds_at now e then Some e else None.

Definition spec_call (now : N) (c : Call) (a : Tracker) : Seen * Tracker :=
  match c with
  | Mark h n w => (Nothing, <[h := mkElevated n now w]> a)
  | Unmark h => (Nothing, delete h a)
  | IsElevated h => (SeenBool (bool_decide (is_Some (valid_at now (a !! h)))), a)
  | RemainingFor h => (SeenRemaining (remaining now <$> valid_at now (a !! h)), a)
  | Snapshot => (SeenHosts (omap (λ e, (λ e, (host_name e, remaining now e)) <$> valid_at now (Some e)) a), a)
  | Sweep => (Nothing, a)
  end.

Fixpoint spec_calls (cs : list (N * Call)) (a : Tracker) : list Seen * Tracker :=
  match cs with
  | [] => ([], a)
  | (now, c) :: cs' =>
      let '(o, a) := spec_call now c a in
      let '(os, a) := spec_calls cs' a in (o :: os, a)
  end.

(** ** The refinement *)

(** What holds now held at every earlier time since it was marked; the tracker
    agrees with the table on everything that still holds. *)
Definition agrees (now : N) (t a : Tracker) : Prop :=
  ∀ now' h, (now ≤ now')%N → valid_at now' (t !! h) = valid_at now' (a !! h).

Lemma holds_mono now now' e : (now ≤ now')%N → holds_at now' e = true → holds_at now e = true.
Proof. unfold holds_at. rewrite !N.ltb_lt. lia. Qed.

Lemma valid_evicted now now' e : (now ≤ now')%N → holds_at now e = false → valid_at now' (Some e) = None.
Proof.
  intros Hle He. cbn. destruct (holds_at now' e) eqn:Hn; [|done]. by rewrite (holds_mono now now' e Hle Hn) in He.
Qed.

Lemma agrees_later now now' t a : (now ≤ now')%N → agrees now t a → agrees now' t a.
Proof. intros Hle H n h Hn. apply H. lia. Qed.

(** Evicting what has lapsed changes nothing that can still be seen. *)
Lemma agrees_delete now t a h e :
  agrees now t a → t !! h = Some e → holds_at now e = false → agrees now (delete h t) a.
Proof.
  intros H Hh He n h' Hn. rewrite <- (H n h' Hn). destruct (decide (h' = h)) as [->|Hne].
  - rewrite lookup_delete_eq, Hh. by rewrite (valid_evicted now).
  - by rewrite lookup_delete_ne.
Qed.

Lemma agrees_filter now t a : agrees now t a → agrees now (filter (λ p, holds_at now p.2 = true) t) a.
Proof.
  intros H n h Hn. rewrite <- (H n h Hn). rewrite map_lookup_filter.
  destruct (t !! h) as [e|]; cbn; [|done]. case_guard as Hg; cbn in *; [done|].
  apply not_true_iff_false in Hg. symmetry. by apply (valid_evicted now).
Qed.

(** One call: the same answer, and still in agreement. *)
Lemma call_refines now c t a :
  agrees now t a →
  (call now c t).1 = (spec_call now c a).1 ∧ agrees now (call now c t).2 (spec_call now c a).2.
Proof.
  intros H. pose proof (λ h, H now h (N.le_refl now)) as Hnow. destruct c as [h n w|h|h|h| |]; cbn.
  - split; [done|]. intros n' h' Hn. unfold mark_elevated. destruct (decide (h' = h)) as [->|Hne].
    + by rewrite !lookup_insert_eq.
    + rewrite !lookup_insert_ne by done. by apply H.
  - split; [done|]. intros n' h' Hn. unfold mark_deescalated. destruct (decide (h' = h)) as [->|Hne].
    + by rewrite !lookup_delete_eq.
    + rewrite !lookup_delete_ne by done. by apply H.
  - rewrite <- Hnow. unfold is_elevated. destruct (t !! h) as [e|] eqn:Hh; cbn; [|done].
    destruct (holds_at now e) eqn:He; cbn; (split; [done|]); [done|]. by eapply agrees_delete.
  - rewrite <- Hnow. unfold remaining_for. destruct (t !! h) as [e|] eqn:Hh; cbn; [|done].
    destruct (holds_at now e) eqn:He; cbn; (split; [done|]); [done|]. by eapply agrees_delete.
  - split; [|by apply agrees_filter]. f_equal. apply map_eq. intros h.
    rewrite lookup_fmap, map_lookup_filter, lookup_omap. specialize (Hnow h).
    assert (∀ o : option Elevated, ((λ e, (host_name e, remaining now e)) <$>
              (x ← o; (guard (holds_at now (h, x).2 = true);; Some x)))
            = ((λ e, (host_name e, remaining now e)) <$> valid_at now o)) as Hl.
    { intros [e|]; cbn; [|done]. case_guard as Hg; cbn in Hg; [by rewrite Hg|].
      apply not_true_iff_false in Hg. by rewrite Hg. }
    rewrite Hl, Hnow. by destruct (a !! h).
  - split; [done|]. by apply agrees_filter.
Qed.

(** Eviction is invisible.  The tracker refines the table that nothing is evicted from: whatever is
    called in whatever order, as long as the clock does not run backwards, every answer about elevation is
    the one the table gives, so a host counts as elevated exactly from its last marking until its window
    ends or it is marked de-escalated. *)
Theorem tracker_refines (cs : list (N * Call)) :
  StronglySorted N.le cs.*1 → (calls cs ∅).1 = (spec_calls cs ∅).1.
Proof.
  assert (∀ t a now, agrees now t a → StronglySorted N.le cs.*1 → Forall (N.le now) cs.*1 →
            (calls cs t).1 = (spec_calls cs a).1) as Hgen; [|intros Hs; apply (Hgen ∅ ∅ 0%N); [done|done|]].
  - induction cs as [|[n c] cs IH]; intros t a now H Hs Hf; [done|]. cbn in *.
    apply Forall_cons in Hf as [Hn _]. inversion Hs as [|? ? Hs' Hle]; subst.
    destruct (call_refines n c t a (agrees_later _ _ _ _ Hn H)) as [Ho Ha].
    destruct (call n c t) as [o t'], (spec_call n c a) as [o' a']. cbn in Ho, Ha. subst o'.
    specialize (IH t' a' n Ha Hs' Hle). destruct (calls cs t'), (spec_calls cs a'). cbn in *. by rewrite IH.
  - apply Forall_forall. intros. lia.
Qed.

Definition demo_calls : list (N * Call) :=
  [(0, Mark 7 #"web" 10); (5, IsElevated 7); (20, IsElevated 7); (20, Snapshot)]%N.

Lemma tracker_refines_witness :
  StronglySorted N.le demo_calls.*1 ∧
  (calls demo_calls ∅).1
  = [Nothing; SeenBool true; SeenBool false; SeenHosts ∅].
Proof.
  assert (StronglySorted N.le demo_calls.*1) as Hs.
  { unfold demo_calls. cbn. repeat first [apply SSorted_nil|apply SSorted_cons|apply Forall_cons; split|apply Forall_nil; exact I]; lia. }
  split; [exact Hs|].
  rewrite (tracker_refines demo_calls Hs).
  vm_compute. reflexivity.
Defined.

(** A lapse that something looked at is never audited.  The sweep records the elevations it finds
    lapsed, but a lookup in between has already evicted the entry, so the sweep finds nothing; without the
    lookup it finds the host. *)
Theorem lookup_hides_expiry (host : Uuid) (name : rstr) (win t0 t1 t2 : N) (t : Tracker) :
  (t0 + win ≤ t1)%N → (t1 ≤ t2)%N →
  let marked := mark_elevated host name win t0 t in
  (sweep_expired t2 marked).1 !! host = Some name ∧
  (sweep_expired t2 (is_elevated host t1 marked).2).1 !! host = None ∧
  (sweep_expired t2 (snapshot t1 marked).2).1 !! host = None.
Proof.
  intros H1 H2 marked. assert (∀ n, (t1 ≤ n)%N → holds_at n (mkElevated name t0 win) = false) as Hout.
  { intros n Hn. unfold holds_at. cbn. apply N.ltb_ge. lia. }
  unfold marked, mark_elevated, sweep_expired, is_elevated, snapshot. split_and!; cbn [fst snd].
  - rewrite lookup_fmap, map_lookup_filter, lookup_insert_eq. cbn. rewrite (Hout t2) by done. done.
  - rewrite lookup_insert_eq, (Hout t1) by done. cbn [snd fst]. by rewrite lookup_fmap, map_lookup_filter, lookup_delete_eq.
  - rewrite lookup_fmap, !map_lookup_filter, lookup_insert_eq. cbn. by rewrite (Hout t1).
Qed.

Lemma lookup_hides_expiry_witness :
  (sweep_expired 60 (mark_elevated 7 #"web" 20 0 ∅)).1 !! 7%N = Some #"web" ∧
  (sweep_expired 60 (is_elevated 7 30 (mark_elevated 7 #"web" 20 0 ∅)).2).1 !! 7%N = None.
Proof.
  destruct (lookup_hides_expiry 7 #"web" 20 0 30 60 ∅ ltac:(lia) ltac:(lia)) as (H1 & H2 & _).
  split; [exact H1|exact H2].
Defined.
