(* ===== verification/Grimoire.v ===== *)
(** * Managed configuration files ([crates/agent/src/grimoire.rs])

    The agent owns four drop-in files: kernel parameters, scheduled tasks, the
    module blacklist and journald's retention.  Every write parses the current
    file, changes the entries and renders the whole file again. *)

From S2P Require Import Prelude Protocol Validators Agent.

Definition newline : rstr := [10%N].
(** [format!("{l}\n")] for every line, concatenated. *)
Definition unlines (ls : list rstr) : rstr := mjoin ((λ l, l ++ newline) <$> ls).

Definition SYSCTL_FILE : rstr := #"/etc/sysctl.d/99-abyssal-arsenal.conf".
Definition CRON_FILE : rstr := #"/etc/cron.d/abyssal-arsenal".
Definition MODPROBE_FILE : rstr := #"/etc/modprobe.d/99-abyssal-arsenal.conf".
Definition JOURNALD_DIR : rstr := #"/etc/systemd/journald.conf.d".
Definition JOURNALD_FILE : rstr := #"/etc/systemd/journald.conf.d/99-abyssal-arsenal.conf".
Definition HEADER_LINE : rstr := #"# Managed by Abyssal Arsenal (Grimoire) -- do not edit manually".
Definition SYSCTL_HEADER : rstr := HEADER_LINE ++ newline.
Definition CRON_HEADER : rstr := HEADER_LINE ++ newline ++ #"SHELL=/bin/sh" ++ newline ++ newline.
Definition MODPROBE_HEADER : rstr := HEADER_LINE ++ newline.
Definition JOURNALD_HEADER : rstr := HEADER_LINE ++ newline.
Definition CRON_JOB_MARKER : rstr := #"# abyssal-arsenal-job: ".

(** ** Parsers and renderers *)

(** [line.split_once('=')?] with both sides trimmed. *)
Definition key_value (line : rstr) : option (rstr * rstr) :=
  '(k, v) ← split_once $"=" line; Some (trim k, trim v).

Definition parse_sysctl_line (line : rstr) : option (rstr * rstr) :=
  let line := trim line in
  if is_empty line || starts_with_char line $"#" then None else key_value line.
Definition parse_sysctl (content : rstr) : list (rstr * rstr) := omap parse_sysctl_line (lines content).

Definition render_sysctl_line (e : rstr * rstr) : rstr := e.1 ++ #" = " ++ e.2.
Definition render_sysctl (entries : list (rstr * rstr)) : rstr :=
  SYSCTL_HEADER ++ unlines (render_sysctl_line <$> entries).

Record CronJob := mkJob { name : rstr; schedule : rstr; user : rstr; command : rstr }.

(** The two cases of a line that is neither a marker, a comment nor empty. *)
Definition parse_cron_entry (name line : rstr) : option CronJob :=
  let tokens := split_whitespace line in
  match tokens with
  | [] => None
  | first :: _ =>
      let field_count := if starts_with_char first $"@" then 1 else 5 in
      if length tokens <? field_count + 2 then None
      else user ← tokens !! field_count;
           Some (mkJob name (join #" " (take field_count tokens)) user
                   (join #" " (drop (field_count + 1) tokens)))
  end.

Fixpoint parse_cron_lines (ls : list rstr) (pending_name : option rstr) : list CronJob :=
  match ls with
  | [] => []
  | line :: rest =>
      let line := trim line in
      match strip_prefix line CRON_JOB_MARKER with
      | Some name => parse_cron_lines rest (Some (trim name))
      | None =>
          if is_empty line || starts_with_char line $"#" then parse_cron_lines rest pending_name
          else match pending_name with
               | None => parse_cron_lines rest None
               | Some name =>
                   match parse_cron_entry name line with
                   | Some job => job :: parse_cron_lines rest None
                   | None => parse_cron_lines rest None
                   end
               end
      end
  end.
Definition parse_cron (content : rstr) : list CronJob := parse_cron_lines (lines content) None.

Definition render_cron_job (job : CronJob) : list rstr :=
  [CRON_JOB_MARKER ++ name job; schedule job ++ #" " ++ user job ++ #" " ++ command job; []].
Definition render_cron (jobs : list CronJob) : rstr := CRON_HEADER ++ unlines (jobs ≫= render_cron_job).

Definition parse_blacklist_line (line : rstr) : option rstr :=
  m ← strip_prefix (trim line) #"blacklist ";
  let m := trim m in if is_empty m then None else Some m.
Definition parse_blacklist (content : rstr) : list rstr := omap parse_blacklist_line (lines content).
Definition render_blacklist (modules : list rstr) : rstr :=
  MODPROBE_HEADER ++ unlines ((λ m, #"blacklist " ++ m) <$> modules).

Definition parse_journald_line (line : rstr) : option (rstr * rstr) :=
  let line := trim line in
  if is_empty line || starts_with_char line $"#" || starts_with_char line $"[" then None else key_value line.
Definition parse_journald (content : rstr) : list (rstr * rstr) := omap parse_journald_line (lines content).
Definition render_journald (entries : list (rstr * rstr)) : rstr :=
  JOURNALD_HEADER ++ #"[Journal]" ++ newline ++ unlines ((λ e, e.1 ++ #"=" ++ e.2) <$> entries).

(** [iter_mut().find(..)] and assign, or push at the end. *)
Fixpoint upsert {A} (is_key : A → bool) (update : A → A) (new : A) (l : list A) : list A :=
  match l with
  | [] => [new]
  | x :: l' => if is_key x then update x :: l' else x :: upsert is_key update new l'
  end.
Definition set_entry (key value : rstr) : list (rstr * rstr) → list (rstr * rstr) :=
  upsert (λ e, str_eqb e.1 key) (λ e, (e.1, value)) (key, value).
Definition set_job (job : CronJob) : list CronJob → list CronJob :=
  upsert (λ j, str_eqb (name j) (name job)) (λ _, job) job.

Section handlers.
Context {World : Type} `{!Os World}.
Implicit Types st : AgentState World.

(** A failed [cat] reads as an empty file. *)
Definition read_managed_file (path : rstr) : agent World rstr :=
  output ← run_allow_failure #"cat" [path];
  mret (if bool_decide (exit_code output = Some 0%Z) then stdout output else []).

Definition write_managed_file (path content : rstr) : agent World OperationOutput :=
  run_with_stdin #"tee" [path] content.

(** [OperationOutput { stdout: format!("{text}\n{}", output.stdout), ..output }] *)
Definition report (text : rstr) (output : OperationOutput) : OperationOutput :=
  mkOutput (text ++ newline ++ stdout output) (stderr output) (exit_code output).

Definition view_file (path empty_message : rstr) : agent World OperationOutput :=
  content ← read_managed_file path;
  mret (present (mkOutput content [] (Some 0%Z)) empty_message).

(** *** Kernel parameters *)

Definition view_managed_sysctl : agent World OperationOutput :=
  view_file SYSCTL_FILE #"No managed sysctl overrides set yet.".

Definition validate_sysctl_key (key : rstr) : agent World () :=
  check_or (is_valid_sysctl_key key) (#"refusing invalid sysctl key: " ++ key).

Definition set_persistent_sysctl (key value : rstr) : agent World OperationOutput :=
  _ ← validate_sysctl_key key;
  _ ← check_or (is_valid_sysctl_value value) (#"refusing invalid sysctl value: " ++ value);
  current ← read_managed_file SYSCTL_FILE;
  let rendered := render_sysctl (set_entry key value (parse_sysctl current)) in
  _ ← write_managed_file SYSCTL_FILE rendered;
  output ← run #"sysctl" [ #"-p"; SYSCTL_FILE];
  mret (report (#"Set " ++ key ++ #" = " ++ value ++ #" and applied it.") output).

Definition remove_persistent_sysctl_key (key : rstr) : agent World OperationOutput :=
  _ ← validate_sysctl_key key;
  current ← read_managed_file SYSCTL_FILE;
  let entries := List.filter (λ e, negb (str_eqb e.1 key)) (parse_sysctl current) in
  output ← write_managed_file SYSCTL_FILE (render_sysctl entries);
  mret (report (#"Removed " ++ key ++ #" from the managed sysctl file.") output).

Definition clear_managed_sysctl : agent World OperationOutput :=
  output ← write_managed_file SYSCTL_FILE SYSCTL_HEADER;
  mret (report #"Cleared the managed sysctl file." output).

(** *** Scheduled tasks *)

Definition validate_job_name (name : rstr) : agent World () :=
  check_or (is_valid_account_name name) (#"refusing invalid job name: " ++ name).

Definition view_managed_cron_jobs : agent World OperationOutput :=
  view_file CRON_FILE #"No managed scheduled tasks set yet.".

Definition quoted (s : rstr) : rstr := 34%N :: s ++ [34%N].

Definition set_cron_job (job_name schedule run_as_user command : rstr) : agent World OperationOutput :=
  _ ← validate_job_name job_name;
  _ ← check_or (is_valid_cron_schedule schedule) (#"refusing invalid cron schedule: " ++ schedule);
  _ ← check_or (is_valid_account_name run_as_user) (#"refusing invalid user: " ++ run_as_user);
  _ ← check_or (is_valid_cron_command command) #"refusing invalid cron command";
  current ← read_managed_file CRON_FILE;
  let jobs := set_job (mkJob job_name schedule run_as_user command) (parse_cron current) in
  output ← write_managed_file CRON_FILE (render_cron jobs);
  mret (report (#"Set scheduled task " ++ quoted job_name ++ #".") output).

Definition remove_cron_job (job_name : rstr) : agent World OperationOutput :=
  _ ← validate_job_name job_name;
  current ← read_managed_file CRON_FILE;
  let jobs := List.filter (λ j, negb (str_eqb (name j) job_name)) (parse_cron current) in
  output ← write_managed_file CRON_FILE (render_cron jobs);
  mret (report (#"Removed scheduled task " ++ quoted job_name ++ #".") output).

Definition clear_managed_cron_jobs : agent World OperationOutput :=
  output ← write_managed_file CRON_FILE CRON_HEADER;
  mret (report #"Cleared the managed scheduled tasks file." output).

(** *** Module blacklist *)

Definition view_module_blacklist : agent World OperationOutput :=
  view_file MODPROBE_FILE #"No kernel modules are blacklisted by this tool yet.".

Definition blacklist_module (module : rstr) : agent World OperationOutput :=
  _ ← check_or (is_valid_kernel_module_name module) (#"refusing invalid module name: " ++ module);
  current ← read_managed_file MODPROBE_FILE;
  let modules := parse_blacklist current in
  let modules := if str_mem module modules then modules else modules ++ [module] in
  output ← write_managed_file MODPROBE_FILE (render_blacklist modules);
  mret (report (#"Blacklisted " ++ module ++
    #". Takes effect on the next module load or boot; an already-loaded module is unaffected.") output).

Definition remove_module_blacklist (module : rstr) : agent World OperationOutput :=
  _ ← check_or (is_valid_kernel_module_name module) (#"refusing invalid module name: " ++ module);
  current ← read_managed_file MODPROBE_FILE;
  let modules := List.filter (λ m, negb (str_eqb m module)) (parse_blacklist current) in
  output ← write_managed_file MODPROBE_FILE (render_blacklist modules);
  mret (report (#"Removed " ++ module ++ #" from the managed blacklist.") output).

Definition clear_module_blacklist : agent World OperationOutput :=
  output ← write_managed_file MODPROBE_FILE MODPROBE_HEADER;
  mret (report #"Cleared the managed module blacklist." output).

(** *** Journald retention *)

Definition write_journald (content : rstr) : agent World OperationOutput :=
  _ ← run #"mkdir" [ #"-p"; JOURNALD_DIR];
  written ← write_managed_file JOURNALD_FILE content;
  _ ← run #"systemctl" [ #"restart"; #"systemd-journald"];
  mret written.

Definition view_journald_config : agent World OperationOutput :=
  view_file JOURNALD_FILE #"No managed journald retention settings yet.".

Definition set_journald_retention (setting : JournaldSetting) (value : rstr) : agent World OperationOutput :=
  _ ← check_or (is_valid_journald_value value) (#"refusing invalid journald value: " ++ value);
  let key := Journald.key setting in
  current ← read_managed_file JOURNALD_FILE;
  let entries := set_entry key value (parse_journald current) in
  _ ← write_journald (render_journald entries);
  mret (mkOutput (#"Set journald " ++ key ++ #"=" ++ value ++ #" and restarted systemd-journald.")
          [] (Some 0%Z)).

Definition clear_journald_config : agent World OperationOutput :=
  _ ← write_journald (JOURNALD_HEADER ++ #"[Journal]" ++ newline);
  mret (mkOutput #"Cleared managed journald config and restarted systemd-journald." [] (Some 0%Z)).
End handlers.
