(* ===== verification/TextLemmas.v ===== *)
(** * Lines and trimming

    How [str::lines], [str::trim] and [split_whitespace] act on text that was
    rendered line by line. *)

From S2P Require Import Prelude Validators ValidatorTheorems InputTheorems Grimoire.

Section trim.
Context (f : char → bool).

Lemma drop_while_all a s : forallb f a = true → drop_while f (a ++ s) = drop_while f s.
Proof. induction a as [|c a IH]; cbn; [done|]. intros [-> Ha]%andb_true_iff. auto. Qed.

Lemma drop_while_stop a c s : f c = false → drop_while f (a ++ c :: s) = drop_while f a ++ c :: s.
Proof. intros Hc. induction a as [|x a IH]; cbn; [by rewrite Hc|]. by destruct (f x). Qed.

Lemma forallb_reverse a : forallb f (reverse a) = forallb f a.
Proof.
  apply Bool.eq_iff_eq_true. rewrite !forallb_elem. by setoid_rewrite elem_of_reverse.
Qed.

Lemma trim_end_all s b : forallb f b = true → trim_end_matches f (s ++ b) = trim_end_matches f s.
Proof.
  intros Hb. unfold trim_end_matches. by rewrite reverse_app, drop_while_all by (by rewrite forallb_reverse).
Qed.

Lemma trim_end_stop s c r :
  f c = false → trim_end_matches f (s ++ c :: r) = s ++ c :: trim_end_matches f r.
Proof.
  intros Hc. unfold trim_end_matches. rewrite reverse_app, reverse_cons, <- app_assoc. cbn.
  rewrite drop_while_stop, reverse_app, reverse_cons, reverse_involutive by done. by rewrite <- app_assoc.
Qed.

(** A character that is kept splits the trimming of its two sides. *)
Lemma trim_cut l c r :
  f c = false →
  trim_matches f (l ++ c :: r) = trim_start_matches f l ++ c :: trim_end_matches f r.
Proof.
  intros Hc. unfold trim_matches, trim_start_matches. rewrite drop_while_stop by done.
  by rewrite trim_end_stop.
Qed.

Lemma drop_while_cases s : forallb f s = true ∧ drop_while f s = [] ∨
  ∃ a c r, s = a ++ c :: r ∧ forallb f a = true ∧ f c = false.
Proof.
  induction s as [|x s IH]; [by left|]. destruct (f x) eqn:Hx.
  - destruct IH as [[Hs Hd]|(a & c & r & -> & Ha & Hc)].
    + left. cbn. by rewrite Hx.
    + right. exists (x :: a), c, r. cbn. by rewrite Hx.
  - right. by exists [], x, s.
Qed.

Lemma trim_all s : forallb f s = true → trim_matches f s = [].
Proof.
  intros Hs. unfold trim_matches, trim_start_matches. rewrite <- (app_nil_r s), drop_while_all by done. done.
Qed.

Lemma trim_matches_end s b : forallb f b = true → trim_matches f (s ++ b) = trim_matches f s.
Proof.
  intros Hb. destruct (drop_while_cases s) as [[Hs Hd]|(a & c & r & -> & Ha & Hc)].
  - rewrite !trim_all; [done|done|]. rewrite forallb_app. by rewrite Hs.
  - rewrite <- app_assoc, <- app_comm_cons, !trim_cut by done. by rewrite trim_end_all.
Qed.

Lemma trim_matches_start a s : forallb f a = true → trim_matches f (a ++ s) = trim_matches f s.
Proof. intros Ha. unfold trim_matches, trim_start_matches. by rewrite drop_while_all. Qed.

Lemma drop_while_dropped s : ∃ a, s = a ++ drop_while f s ∧ forallb f a = true.
Proof.
  induction s as [|c s (a & Ha & Hf)]; cbn; [by exists []|].
  destruct (f c) eqn:Hc; [|by exists []]. exists (c :: a). cbn. rewrite Hc. split; [by f_equal|done].
Qed.

Lemma trim_end_dropped s : ∃ b, s = trim_end_matches f s ++ b ∧ forallb f b = true.
Proof.
  unfold trim_end_matches. destruct (drop_while_dropped (reverse s)) as (a & Ha & Hf).
  exists (reverse a). rewrite forallb_reverse. split; [|done].
  by rewrite <- reverse_app, <- Ha, reverse_involutive.
Qed.

Lemma trim_start_trim s : trim_matches f (trim_start_matches f s) = trim_matches f s.
Proof.
  destruct (drop_while_dropped s) as (a & Hs & Ha). unfold trim_start_matches.
  rewrite Hs at 2. by rewrite trim_matches_start.
Qed.

Lemma trim_end_trim s : trim_matches f (trim_end_matches f s) = trim_matches f s.
Proof.
  destruct (trim_end_dropped s) as (b & Hs & Hb). rewrite Hs at 2. by rewrite trim_matches_end.
Qed.

Lemma trim_idem s : trim_matches f (trim_matches f s) = trim_matches f s.
Proof. unfold trim_matches at 2. by rewrite trim_end_trim, trim_start_trim. Qed.

(** A non-empty trimmed string keeps its first character in front of anything. *)
Lemma trimmed_head c s : trim_matches f (c :: s) = c :: s → f c = false.
Proof. apply trim_matches_head. Qed.

Lemma trimmed_snoc s c : trim_matches f (s ++ [c]) = s ++ [c] → f c = false.
Proof.
  intros Ht. apply (trim_end_matches_last f (trim_start_matches f (s ++ [c]))).
  change (trim_end_matches f (trim_start_matches f (s ++ [c]))) with (trim_matches f (s ++ [c])).
  by rewrite Ht, last_snoc.
Qed.

(** Non-empty trimmed strings glued together stay trimmed. *)
Lemma trim_glue s m t :
  trim_matches f s = s → trim_matches f t = t → s ≠ [] → t ≠ [] →
  trim_matches f (s ++ m ++ t) = s ++ m ++ t.
Proof.
  intros Hs Ht Hsn Htn. destruct s as [|a s]; [done|]. apply trimmed_head in Hs.
  destruct (last t) as [b|] eqn:Hb; [|by apply last_None in Hb].
  apply last_Some in Hb as [t' ->]. apply trimmed_snoc in Ht.
  change ((a :: s) ++ m ++ t' ++ [b]) with ([] ++ a :: (s ++ m ++ t' ++ [b])).
  rewrite trim_cut by done. cbn. f_equal. rewrite !app_assoc, trim_end_stop by done. done.
Qed.
End trim.

(** ** Lines *)

Definition one_line (s : rstr) : Prop := 10%N ∉ s.

Lemma one_line_split s : one_line s → split_on (N.eqb 10) s = [s].
Proof.
  intros Hs. apply split_on_none, not_true_iff_false. rewrite existsb_exists. intros (c & Hc & Heq).
  apply N.eqb_eq in Heq. subst. by apply Hs, list_elem_of_In.
Qed.

Lemma unlines_cons l ls : unlines (l :: ls) = l ++ 10%N :: unlines ls.
Proof. unfold unlines. cbn. unfold newline. by rewrite <- app_assoc. Qed.

Lemma split_unlines ls : Forall one_line ls → split_on (N.eqb 10) (unlines ls) = ls ++ [[]].
Proof.
  induction 1 as [|l ls Hl Hls IH]; [done|]. rewrite unlines_cons.
  pose proof (split_char_join 10 l) as Hj. unfold split_char in Hj.
  by rewrite Hj, one_line_split, IH.
Qed.

Lemma lines_unlines ls : Forall one_line ls → lines (unlines ls) = strip_cr <$> ls.
Proof.
  intros Hls. unfold lines. rewrite split_unlines by done. clear Hls.
  induction ls as [|l ls IH]; [done|]. cbn [app lines_of fmap list_fmap].
  destruct (ls ++ [[]]) as [|x xs] eqn:Hx; [by destruct ls|]. by rewrite IH.
Qed.

Lemma unlines_app a b : unlines (a ++ b) = unlines a ++ unlines b.
Proof.
  induction a as [|x a IH]; cbn [app]; [done|]. rewrite !unlines_cons, IH. by rewrite <- app_assoc.
Qed.

Lemma strip_cr_cases w : strip_cr w = w ∨ w = strip_cr w ++ [13%N].
Proof.
  unfold strip_cr. destruct (strip_suffix w [13%N]) as [r|] eqn:Hs; [right|by left].
  by apply strip_suffix_Some in Hs.
Qed.

Lemma lines_one_line s l : l ∈ lines s → one_line l.
Proof.
  assert (∀ segs l, l ∈ lines_of segs → ∃ w, w ∈ segs ∧ l `prefix_of` w) as Hseg.
  { clear. induction segs as [|w segs IH]; cbn [lines_of]; intros l Hl; [by apply elem_of_nil in Hl|].
    destruct segs as [|v segs'].
    - destruct (is_empty w); [by apply elem_of_nil in Hl|].
      apply (proj1 (list_elem_of_singleton _ _)) in Hl. subst. exists w.
      split; [apply list_elem_of_here|reflexivity].
    - apply elem_of_cons in Hl as [->|Hl].
      + exists w. split; [apply list_elem_of_here|].
        destruct (strip_cr_cases w) as [->|Hw]; [reflexivity|]. rewrite Hw at 2. by eexists.
      + destruct (IH l Hl) as (x & Hx & ?). exists x. split; [by apply list_elem_of_further|done]. }
  intros Hl. destruct (Hseg _ _ Hl) as (w & Hw & [r ->]). intros Hc.
  destruct (split_on_elem _ _ _ 10%N Hw) as [_ H]; [set_solver|done].
Qed.

Lemma trim_strip_cr l : trim (strip_cr l) = trim l.
Proof.
  destruct (strip_cr_cases l) as [->|Hl]; [done|]. rewrite Hl at 2. unfold trim. by rewrite trim_matches_end.
Qed.

Lemma trim_one_line s : one_line s → one_line (trim s).
Proof. intros Hs Hc. by apply Hs, (trim_matches_elem is_whitespace). Qed.

Lemma one_line_app s t : one_line (s ++ t) ↔ one_line s ∧ one_line t.
Proof. unfold one_line. rewrite elem_of_app. tauto. Qed.

Lemma one_line_lit s : char_mem 10%N s = false → one_line s.
Proof. intros Hs Hc%char_mem_elem. congruence. Qed.

Lemma trim_trim s : trim (trim s) = trim s.
Proof. apply trim_idem. Qed.

Lemma split_once_intro c l r : c ∉ l → split_once c (l ++ c :: r) = Some (l, r).
Proof.
  induction l as [|a l IH]; cbn; intros Hl; [by rewrite N.eqb_refl|].
  apply not_elem_of_cons in Hl as [Ha Hl]. apply not_eq_sym, N.eqb_neq in Ha. by rewrite Ha, IH.
Qed.

(** ** Decimal numbers read back *)

Lemma is_ascii_digit_48 d : (d < 10)%N → is_ascii_digit (48 + d) = true.
Proof. intros Hd. unfold is_ascii_digit. apply andb_true_iff. split; apply N.leb_le; lia. Qed.

Lemma dec_digits_app fuel n acc : dec_digits fuel n acc = dec_digits fuel n [] ++ acc.
Proof.
  revert n acc. induction fuel as [|k IH]; intros n acc; [done|]. cbn [dec_digits].
  destruct (n / 10 =? 0)%N; [done|]. rewrite IH, (IH _ [_]), <- app_assoc. done.
Qed.

Lemma parse_digits_app s t acc : parse_digits (s ++ t) acc = parse_digits s acc ≫= parse_digits t.
Proof. revert acc. induction s as [|c s IH]; intros acc; cbn; [done|]. by destruct (is_ascii_digit c). Qed.

Lemma parse_dec_digits fuel n : (n < 2 ^ N.of_nat fuel)%N → parse_digits (dec_digits (S fuel) n []) 0 = Some n.
Proof.
  revert n. induction fuel as [|k IH]; intros n Hn; cbn [dec_digits].
  - assert (n = 0)%N as -> by lia. done.
  - pose proof (N.mod_lt n 10 ltac:(lia)) as Hm. pose proof (N.div_mod n 10 ltac:(lia)) as Hdm.
    destruct (N.eqb_spec (n / 10) 0) as [Hz|Hz].
    + cbn [parse_digits]. rewrite is_ascii_digit_48 by done. f_equal. lia.
    + change (parse_digits (dec_digits (S k) (n / 10) [(48 + n mod 10)%N]) 0 = Some n).
      rewrite dec_digits_app, parse_digits_app, IH.
      * cbn [mbind option_bind parse_digits]. rewrite is_ascii_digit_48 by done. f_equal. generalize dependent (n / 10)%N. generalize dependent (n mod 10)%N. lia.
      * apply N.Div0.div_lt_upper_bound. rewrite Nat2N.inj_succ, N.pow_succ_r' in Hn. lia.
Qed.

Lemma parse_fmt_N n : parse_digits (fmt_N n) 0 = Some n.
Proof.
  apply parse_dec_digits. rewrite N2Nat.id. destruct n as [|p]; [done|]. apply N.size_gt.
Qed.

Lemma fmt_N_cons n : ∃ c s, fmt_N n = c :: s ∧ is_ascii_digit c = true.
Proof.
  pose proof (parse_fmt_N n) as Hp. unfold fmt_N in *. cbn [dec_digits] in *.
  destruct (_ =? 0)%N.
  - eexists _, _. split; [done|]. apply is_ascii_digit_48, N.mod_lt. lia.
  - destruct (dec_digits _ _ _) as [|c s] eqn:E.
    + rewrite dec_digits_app in E. by destruct (dec_digits _ _ []).
    + cbn in Hp. destruct (is_ascii_digit c) eqn:Hc; [eauto|done].
Qed.

Lemma parse_unsigned_fmt_N max n : (n ≤ max)%N → parse_unsigned max (fmt_N n) = Some n.
Proof.
  intros Hn. unfold parse_unsigned. destruct (fmt_N_cons n) as (c & s & E & Hc).
  assert (strip_prefix (fmt_N n) #"+" = None) as ->.
  { rewrite E. change #"+" with [43%N]. cbn [strip_prefix]. by destruct (N.eqb_spec 43 c) as [<-|]. }
  cbn [default]. rewrite parse_fmt_N, E. cbn. apply N.leb_le in Hn. by rewrite Hn.
Qed.

Lemma underscore_free_fmt_N n : $"_" ∉ fmt_N n.
Proof.
  assert (∀ s acc, is_Some (parse_digits s acc) → ∀ c, c ∈ s → is_ascii_digit c = true) as Hd.
  { induction s as [|d s IH]; intros acc Hs c; cbn in Hs; [by intros ?%elem_of_nil|].
    destruct (is_ascii_digit d) eqn:E; [|by destruct Hs]. intros [->|Hc]%elem_of_cons; [done|eauto]. }
  intros H. by specialize (Hd (fmt_N n) 0%N ltac:(by rewrite parse_fmt_N) _ H).
Qed.

Lemma dec_digits_digit fuel n acc c :
  c ∈ dec_digits fuel n acc → is_ascii_digit c = true ∨ c ∈ acc.
Proof.
  revert n acc. induction fuel as [|k IH]; intros n acc; [by right|]. cbn [dec_digits].
  assert (is_ascii_digit (48 + n mod 10) = true) as Hd.
  { pose proof (N.mod_lt n 10 ltac:(done)) as Hm. unfold is_ascii_digit, in_range.
    apply andb_true_iff. rewrite !N.leb_le. set (m := (n mod 10)%N) in *. clearbody m. lia. }
  case_match; [|intros [?|Hc]%IH; [by left|]; revert Hc]; intros [->|?]%elem_of_cons; eauto.
Qed.

Lemma fmt_N_digit n c : c ∈ fmt_N n → is_ascii_digit c = true.
Proof. intros [?|Hc]%dec_digits_digit; [done|by apply elem_of_nil in Hc]. Qed.

Lemma fmt_N_inj m n : fmt_N m = fmt_N n → m = n.
Proof. intros H. pose proof (parse_fmt_N m) as Hm. rewrite H, parse_fmt_N in Hm. congruence. Qed.
