(* ===== verification/GuardTheorems.v ===== *)
(** * Claims about the control plane's guardrails

    What is let through on disks, volumes and mounts, stated over block devices,
    the names the kernel gives them and the texts that spell a path, and where a
    name gets past the guard. *)

From S2P Require Import Prelude Protocol Validators ValidatorTheorems InputTheorems Guard.
From S2P Require Import TextLemmas.
Import Op.

(** ** Normalized paths *)

Definition plain_part (p : rstr) : Prop := p ≠ [] ∧ p ≠ #"." ∧ ¬ ($"/" ∈ p) ∧ existsb is_whitespace p = false.
Definition slashed (parts : list rstr) : rstr := mjoin ((λ p, #"/" ++ p) <$> parts).

Lemma slashed_cons p ps : slashed (p :: ps) = $"/" :: (p ++ slashed ps).
Proof. reflexivity. Qed.

Lemma no_slash_split p : ¬ ($"/" ∈ p) → split_char $"/" p = [p].
Proof.
  intros Hp. apply split_on_none, not_true_iff_false. intros Hc. by apply Hp, contains_char_elem.
Qed.

Definition part_kept (p : rstr) : bool := negb (is_empty p) && negb (str_eqb p #".").

Lemma trim_no_whitespace s : existsb is_whitespace s = false → trim s = s.
Proof.
  intros Hs. assert (∀ t, existsb is_whitespace t = false → drop_while is_whitespace t = t) as Hd.
  { intros [|c t]; [done|]. cbn. by intros [-> _]%orb_false_iff. }
  unfold trim, trim_matches, trim_start_matches, trim_end_matches. rewrite (Hd s Hs), Hd.
  - apply reverse_involutive.
  - apply not_true_iff_false. rewrite existsb_exists. intros (x & Hx & Hw).
    rewrite <- list_elem_of_In, elem_of_reverse, list_elem_of_In in Hx.
    apply not_true_iff_false in Hs. apply Hs, existsb_exists. by exists x.
Qed.

(** ** Spellings of a path *)

(** [spells parts text]: [text] is an absolute path of the components [parts],
    written with any number of slashes and [.] components in between and behind. *)
Inductive spells : list rstr → rstr → Prop :=
| spells_end : spells [] []
| spells_slash ps s : spells ps s → spells ps ($"/" :: s)
| spells_dot ps s : spells ps s → spells ps ($"/" :: $"." :: s)
| spells_part p ps s : plain_part p → spells ps s → spells (p :: ps) ($"/" :: (p ++ s)).

Lemma spells_split p ps s :
  spells ps s → ¬ ($"/" ∈ p) →
  ∃ rest, split_char $"/" (p ++ s) = p :: rest ∧ List.filter part_kept (split_char $"/" s) = List.filter part_kept rest.
Proof.
  intros Hs Hp. assert (s = [] ∨ ∃ t, s = $"/" :: t) as [->|[t ->]] by (destruct Hs; eauto).
  - exists []. rewrite app_nil_r. split; [by apply no_slash_split|done].
  - exists (split_char $"/" t). rewrite split_char_join, (no_slash_split p) by done. done.
Qed.

Lemma spells_kept ps s : spells ps s → List.filter part_kept (split_char $"/" s) = ps.
Proof.
  assert (∀ t, split_char $"/" ($"/" :: t) = [] :: split_char $"/" t) as Hcons by done.
  induction 1 as [|ps s Hs IH|ps s Hs IH|p ps s Hp Hs IH]; [done|by rewrite Hcons| |]; rewrite Hcons; cbn [List.filter part_kept is_empty negb andb].
  - destruct (spells_split #"." ps s Hs) as (rest & Hr & He); [by intros ?%list_elem_of_singleton|].
    change ($"." :: s) with (#"." ++ s). rewrite Hr. cbn [List.filter]. by rewrite <- He, IH.
  - destruct Hp as (Hn & Hd & Hsl & Hw). destruct (spells_split p ps s Hs Hsl) as (rest & Hr & He). rewrite Hr.
    assert (part_kept p = true) as Hk.
    { apply andb_true_iff. rewrite !negb_true_iff. split; [by apply is_empty_false|].
      apply not_true_iff_false. by rewrite str_eqb_eq. }
    cbn [List.filter]. by rewrite Hk, <- He, IH.
Qed.

Lemma spells_no_whitespace ps s : spells ps s → existsb is_whitespace s = false.
Proof.
  induction 1 as [|? ? _ IH|? ? _ IH|p ps s (_ & _ & _ & Hp) _ IH]; [done|done|done|].
  cbn [existsb]. by rewrite existsb_app, Hp, IH.
Qed.

Lemma spells_parts ps s : spells ps s → path_parts s = ps.
Proof.
  intros Hs. unfold path_parts. rewrite trim_no_whitespace by (by eapply spells_no_whitespace).
  by apply spells_kept.
Qed.

Definition written (parts : list rstr) : rstr := match parts with [] => #"/" | _ => slashed parts end.

Lemma spells_normalize ps s : spells ps s → normalize_path s = written ps.
Proof.
  intros Hs. unfold normalize_path. rewrite (spells_parts ps s Hs). fold (slashed ps). by destruct ps.
Qed.

Lemma spells_plain ps s : spells ps s → Forall plain_part ps.
Proof. induction 1; auto. Qed.

Lemma spells_slashed ps : Forall plain_part ps → spells ps (slashed ps).
Proof. induction 1; [constructor|]. rewrite slashed_cons. by constructor. Qed.

Lemma written_inj ps qs : Forall plain_part ps → Forall plain_part qs → written ps = written qs → ps = qs.
Proof.
  intros Hp Hq E. assert (∀ xs, Forall plain_part xs → path_parts (written xs) = xs) as Hparts.
  { intros [|x xs] Hx; [done|]. apply spells_parts. by apply (spells_slashed (x :: xs)). }
  by rewrite <- (Hparts ps), E, Hparts.
Qed.

(** ** Block devices and their names *)

Inductive bus : Set := Sd | Vd | Xvd | Hd.
Inductive disk : Set := Lettered (b : bus) (letters : rstr) | Nvme (controller namespace : N) | Mmc (slot : N).
Inductive device : Set := Whole (d : disk) | Part (d : disk) (number : N).

Definition bus_name (b : bus) : rstr :=
  match b with Sd => #"sd" | Vd => #"vd" | Xvd => #"xvd" | Hd => #"hd" end.
Definition disk_name (d : disk) : rstr :=
  match d with
  | Lettered b letters => bus_name b ++ letters
  | Nvme controller namespace => #"nvme" ++ fmt_N controller ++ #"n" ++ fmt_N namespace
  | Mmc slot => #"mmcblk" ++ fmt_N slot
  end.
(** A disk whose name ends in a digit has a [p] before the partition's number. *)
Definition device_name (d : device) : rstr :=
  match d with
  | Whole d => disk_name d
  | Part (Lettered _ _ as d) number => disk_name d ++ fmt_N number
  | Part d number => disk_name d ++ #"p" ++ fmt_N number
  end.
Definition disk_of (d : device) : disk := match d with Whole d | Part d _ => d end.
Definition disk_ok (d : disk) : Prop :=
  match d with Lettered _ letters => letters ≠ [] ∧ forallb is_ascii_lowercase letters = true | _ => True end.

(** [text] names the device [d] under [/dev]. *)
Definition names (d : device) (text : rstr) : Prop :=
  disk_ok (disk_of d) ∧ spells [ #"dev"; device_name d] text.

(** Two devices share storage: they are the same, or one is the disk the other
    is a partition of. *)
Definition overlaps (x y : device) : Prop := x = y ∨ x = Whole (disk_of y) ∨ y = Whole (disk_of x).

(** What the names are made of. *)
Definition name_char (c : char) : bool := is_ascii_lowercase c || is_ascii_digit c.

Lemma digits_forallb n : forallb is_ascii_digit (fmt_N n) = true.
Proof. apply forallb_elem, fmt_N_digit. Qed.

Lemma forallb_weaken (f g : char → bool) s : (∀ c, f c = true → g c = true) → forallb f s = true → forallb g s = true.
Proof. rewrite !forallb_elem. auto. Qed.

Lemma digits_name_chars n : forallb name_char (fmt_N n) = true.
Proof. eapply forallb_weaken, digits_forallb. intros c Hc. unfold name_char. by rewrite Hc, orb_true_r. Qed.

Lemma disk_name_chars d : disk_ok d → forallb name_char (disk_name d) = true.
Proof.
  destruct d as [b l|c n|s]; cbn [disk_name disk_ok].
  - intros [_ Hl]. rewrite forallb_app. apply andb_true_iff. split; [by destruct b|].
    eapply forallb_weaken, Hl. intros c Hc. unfold name_char. by rewrite Hc.
  - intros _. by rewrite !forallb_app, !digits_name_chars.
  - intros _. by rewrite !forallb_app, !digits_name_chars.
Qed.

Lemma device_name_chars d : disk_ok (disk_of d) → forallb name_char (device_name d) = true.
Proof.
  destruct d as [d|d n]; cbn [disk_of device_name]; intros Hd; [by apply disk_name_chars|].
  pose proof (disk_name_chars d Hd). pose proof (digits_name_chars n).
  destruct d; rewrite !forallb_app; repeat (apply andb_true_iff; split); done.
Qed.

Lemma name_char_plain c : name_char c = true → is_whitespace c = false ∧ c ≠ $"/" ∧ c ≠ $".".
Proof.
  unfold name_char, is_ascii_lowercase, is_ascii_digit, in_range. intros Hc. apply orb_true_iff in Hc. rewrite !andb_true_iff, !N.leb_le in Hc.
  split_and!; [|intros ->; vm_compute in Hc; intuition congruence..].
  apply not_true_iff_false. unfold is_whitespace, in_range.
  rewrite !orb_true_iff, !andb_true_iff, !N.leb_le, !N.eqb_eq. lia.
Qed.

Lemma name_plain d : disk_ok (disk_of d) → plain_part (device_name d).
Proof.
  intros Hd. pose proof (device_name_chars d Hd) as Hc. rewrite forallb_elem in Hc.
  assert (∀ c, c ∈ device_name d → is_whitespace c = false ∧ c ≠ $"/" ∧ c ≠ $".") as Hp by (intros c ?; by apply name_char_plain, Hc).
  split_and!.
  - destruct d as [[[]|?|?]|[[]|?|?] ?]; by cbn [device_name disk_name bus_name].
  - intros E. destruct (Hp $".") as (_ & _ & ?); [|done]. rewrite E. apply list_elem_of_here.
  - intros Hs. by destruct (Hp _ Hs) as (_ & ? & _).
  - apply not_true_iff_false. rewrite existsb_exists. intros (c & Hin%list_elem_of_In & Hw).
    destruct (Hp c Hin) as (? & _). congruence.
Qed.

Lemma names_parts d : disk_ok (disk_of d) → Forall plain_part [ #"dev"; device_name d].
Proof.
  intros Hd. apply Forall_cons. split; [|by apply Forall_singleton, name_plain].
  unfold plain_part. apply (bool_decide_unpack _). by vm_compute.
Qed.

(** ** The disk of a device, as the guard reads it off the name *)

Lemma digits_no_char n c : is_ascii_digit c = false → c ∉ fmt_N n.
Proof. intros Hc Hin%fmt_N_digit. congruence. Qed.

Lemma rsplit_once_intro c l r : c ∉ r → rsplit_once c (l ++ c :: r) = Some (l, r).
Proof.
  intros Hr. unfold rsplit_once. rewrite reverse_app, reverse_cons, <- app_assoc. cbn [app].
  rewrite split_once_intro by (by rewrite elem_of_reverse). by rewrite !reverse_involutive.
Qed.

Lemma rsplit_once_absent c s : c ∉ s → rsplit_once c s = None.
Proof.
  intros Hs. unfold rsplit_once. destruct (split_once c (reverse s)) as [[r l]|] eqn:E; [|done].
  apply split_once_Some in E as [E _]. exfalso. apply Hs. rewrite <- elem_of_reverse, E. set_solver.
Qed.

Lemma trim_end_stop_last f s c : f c = false → trim_end_matches f (s ++ [c]) = s ++ [c].
Proof. intros Hc. by rewrite trim_end_stop. Qed.

(** The part of [parent_disk] behind [/dev/]. *)
Lemma parent_disk_dev name :
  parent_disk (#"/dev/" ++ name) =
  if contains_char name $"/" || starts_with name #"dm-" || starts_with name #"md" then None
  else if starts_with name #"nvme" || starts_with name #"mmcblk" then
    '(disk, part) ← rsplit_once $"p" name;
    if match last disk with Some c => is_ascii_digit c | None => false end && all_digits part
    then Some (#"/dev/" ++ disk) else None
  else if (len (trim_end_matches is_ascii_digit name) <? len name) && negb (is_empty (trim_end_matches is_ascii_digit name))
    then Some (#"/dev/" ++ trim_end_matches is_ascii_digit name) else None.
Proof.
  unfold parent_disk. assert (strip_prefix (#"/dev/" ++ name) #"/dev/" = Some name) as -> by (by apply strip_prefix_Some).
  reflexivity.
Qed.

Lemma name_no_slash d : disk_ok (disk_of d) → contains_char (device_name d) $"/" = false.
Proof.
  intros Hd. apply not_true_iff_false. rewrite contains_char_elem. by apply name_plain.
Qed.

Lemma all_digits_fmt n : all_digits (fmt_N n) = true.
Proof. unfold all_digits. rewrite digits_forallb. by destruct (fmt_N_cons n) as (? & ? & -> & _). Qed.

Lemma last_digit s n : ∃ c, last (s ++ fmt_N n) = Some c ∧ is_ascii_digit c = true.
Proof.
  destruct (last (fmt_N n)) as [c|] eqn:E.
  - exists c. rewrite last_app, E. split; [done|]. apply last_Some in E as [l E]. apply (fmt_N_digit n). rewrite E. set_solver.
  - apply last_None in E. destruct (fmt_N_cons n) as (? & ? & E' & _). congruence.
Qed.

(** Disks whose name ends in a digit. *)
Lemma numbered_starts d : match d with Lettered _ _ => False | _ => True end → ∀ rest,
  starts_with (disk_name d ++ rest) #"dm-" = false ∧ starts_with (disk_name d ++ rest) #"md" = false ∧
  starts_with (disk_name d ++ rest) #"nvme" || starts_with (disk_name d ++ rest) #"mmcblk" = true.
Proof. destruct d; [done|..]; intros _ rest; cbn [disk_name]; rewrite <- !app_assoc; split_and!; done. Qed.

Lemma numbered_name d : match d with Lettered _ _ => False | _ => True end →
  ($"p" ∉ disk_name d) ∧ ∃ c, last (disk_name d) = Some c ∧ is_ascii_digit c = true.
Proof.
  destruct d as [|c n|s]; [done|..]; intros _; cbn [disk_name].
  - split; [|rewrite !app_assoc; apply last_digit]. rewrite !elem_of_app.
    intros [H|[H|[H|H]]]; [|by apply digits_no_char in H| |by apply digits_no_char in H]; by vm_compute in H; set_solver.
  - split; [|apply last_digit]. rewrite !elem_of_app.
    intros [H|H]; [|by apply digits_no_char in H]. by vm_compute in H; set_solver.
Qed.

Lemma lettered_starts b letters : letters ≠ [] → forallb is_ascii_lowercase letters = true → ∀ rest,
  let name := (bus_name b ++ letters) ++ rest in
  starts_with name #"dm-" || starts_with name #"md" = false ∧ starts_with name #"nvme" || starts_with name #"mmcblk" = false.
Proof. intros _ _ rest. by destruct b. Qed.

Lemma lettered_stop b letters : letters ≠ [] → forallb is_ascii_lowercase letters = true →
  ∃ s c, bus_name b ++ letters = s ++ [c] ∧ is_ascii_digit c = false.
Proof.
  intros Hn Hl. destruct (exists_last Hn) as (l & c & ->). exists (bus_name b ++ l), c. split; [by rewrite app_assoc|].
  rewrite forallb_app in Hl. apply andb_true_iff in Hl as [_ Hl]. cbn in Hl. rewrite andb_true_r in Hl.
  revert Hl. unfold is_ascii_lowercase, is_ascii_digit, in_range. rewrite andb_true_iff, andb_false_iff, !N.leb_le, !N.leb_gt. lia.
Qed.

Lemma parent_disk_part d n : disk_ok d → parent_disk (#"/dev/" ++ device_name (Part d n)) = Some (#"/dev/" ++ disk_name d).
Proof.
  intros Hd. rewrite parent_disk_dev, name_no_slash by done. cbn [orb].
  destruct d as [b l|c m|s].
  - destruct Hd as [Hn Hl]. cbn [device_name disk_name].
    destruct (lettered_starts b l Hn Hl (fmt_N n)) as [-> ->].
    rewrite trim_end_all by apply digits_forallb.
    destruct (lettered_stop b l Hn Hl) as (s & c & -> & Hc). rewrite trim_end_stop_last by done.
    destruct (fmt_N_cons n) as (x & r & -> & _). rewrite (len_app (s ++ [c])). cbn [len]. pose proof (utf8_len_pos x).
    destruct (Nat.ltb_spec (len (s ++ [c])) (len (s ++ [c]) + (utf8_len x + len r))); [|lia]. by destruct s.
  - change (device_name (Part (Nvme c m) n)) with (disk_name (Nvme c m) ++ #"p" ++ fmt_N n).
    destruct (numbered_starts (Nvme c m) I (#"p" ++ fmt_N n)) as (-> & -> & ->).
    change (#"p" ++ fmt_N n) with ($"p" :: fmt_N n). rewrite rsplit_once_intro by (by apply digits_no_char).
    cbn [mbind option_bind orb]. destruct (numbered_name (Nvme c m) I) as (_ & x & -> & ->). by rewrite all_digits_fmt.
  - change (device_name (Part (Mmc s) n)) with (disk_name (Mmc s) ++ #"p" ++ fmt_N n).
    destruct (numbered_starts (Mmc s) I (#"p" ++ fmt_N n)) as (-> & -> & ->).
    change (#"p" ++ fmt_N n) with ($"p" :: fmt_N n). rewrite rsplit_once_intro by (by apply digits_no_char).
    cbn [mbind option_bind orb]. destruct (numbered_name (Mmc s) I) as (_ & x & -> & ->). by rewrite all_digits_fmt.
Qed.

Lemma parent_disk_whole d : disk_ok d → parent_disk (#"/dev/" ++ disk_name d) = None.
Proof.
  intros Hd. rewrite parent_disk_dev. pose proof (name_no_slash (Whole d) Hd) as Hs. cbn [device_name] in Hs. rewrite Hs.
  cbn [orb]. clear Hs. rewrite <- (app_nil_r (disk_name d)).
  destruct d as [b l|c m|s].
  - destruct Hd as [Hn Hl]. cbn [disk_name]. destruct (lettered_starts b l Hn Hl []) as [-> ->].
    rewrite app_nil_r. destruct (lettered_stop b l Hn Hl) as (s & c & -> & Hc). rewrite trim_end_stop_last by done.
    by rewrite Nat.ltb_irrefl.
  - destruct (numbered_starts (Nvme c m) I []) as (-> & -> & ->). rewrite app_nil_r.
    by rewrite rsplit_once_absent by (by apply numbered_name).
  - destruct (numbered_starts (Mmc s) I []) as (-> & -> & ->). rewrite app_nil_r.
    by rewrite rsplit_once_absent by (by apply numbered_name).
Qed.

Lemma whole_disk_name d : disk_ok d → is_whole_disk (#"/dev/" ++ disk_name d) = true.
Proof.
  intros Hd. unfold is_whole_disk.
  assert (strip_prefix (#"/dev/" ++ disk_name d) #"/dev/" = Some (disk_name d)) as -> by (by apply strip_prefix_Some).
  destruct d as [b l|c m|s]; cbn [disk_name].
  - destruct Hd as [Hn Hl].
    assert (strip_prefix (bus_name b ++ l) (bus_name b) = Some l) as Hs by (by apply strip_prefix_Some).
    destruct b; cbn [bus_name] in *; rewrite Hs, Hl; (destruct l; [done|]); cbn [is_empty negb andb]; by rewrite ?orb_true_r.
  - assert (strip_prefix (#"nvme" ++ fmt_N c ++ #"n" ++ fmt_N m) #"nvme" = Some (fmt_N c ++ $"n" :: fmt_N m)) as ->
      by (by apply strip_prefix_Some).
    cbn [mbind option_bind]. rewrite split_once_intro by (by apply digits_no_char). rewrite !all_digits_fmt.
    cbn [andb]. by rewrite !orb_true_r.
  - assert (strip_prefix (#"mmcblk" ++ fmt_N s) #"mmcblk" = Some (fmt_N s)) as -> by (by apply strip_prefix_Some).
    rewrite all_digits_fmt. by rewrite orb_true_r.
Qed.

Lemma disk_name_inj d e : disk_ok d → disk_ok e → disk_name d = disk_name e → d = e.
Proof.
  destruct d as [b l|c m|s], e as [b' l'|c' m'|s']; cbn [disk_name disk_ok]; intros _ _.
  - destruct b, b'; cbn [bus_name]; intros E; (discriminate E || injection E as ->); done.
  - destruct b; intros E; discriminate E.
  - destruct b; intros E; discriminate E.
  - destruct b'; intros E; discriminate E.
  - intros E%(inj (app #"nvme")). assert (split_once $"n" (fmt_N c ++ #"n" ++ fmt_N m) = split_once $"n" (fmt_N c' ++ #"n" ++ fmt_N m')) as Hs by (by rewrite E).
    cbn [app] in Hs. change (#"n") with [ $"n"] in Hs. cbn [app] in Hs.
    rewrite !split_once_intro in Hs by (by apply digits_no_char). injection Hs as ->%fmt_N_inj ->%fmt_N_inj. done.
  - intros E; discriminate E.
  - destruct b'; intros E; discriminate E.
  - intros E; discriminate E.
  - intros E%(inj (app #"mmcblk"))%fmt_N_inj. by rewrite E.
Qed.

(** The name of a device determines it, and the guard reads off it the disk of a partition. *)
Lemma parent_disk_device d : disk_ok (disk_of d) →
  parent_disk (#"/dev/" ++ device_name d) = match d with Whole _ => None | Part p _ => Some (#"/dev/" ++ device_name (Whole p)) end.
Proof. destruct d; cbn [disk_of]; intros Hd; [by apply parent_disk_whole|by apply parent_disk_part]. Qed.

Lemma device_name_inj d e :
  disk_ok (disk_of d) → disk_ok (disk_of e) → device_name d = device_name e → d = e.
Proof.
  intros Hd He E. pose proof (parent_disk_device d Hd) as Hp. rewrite E, parent_disk_device in Hp by done.
  destruct d as [d|d n], e as [e|e m]; cbn [disk_of] in *; try discriminate Hp.
  - f_equal. by apply disk_name_inj.
  - assert (d = e) as ->. { apply disk_name_inj; [done..|]. injection Hp. cbn [device_name]. done. }
    f_equal. apply fmt_N_inj. destruct e; cbn [device_name] in E; by simplify_list_eq.
Qed.

(** ** The device under Docker's directory *)

(** The directory Docker keeps its data in, and those above it. *)
Definition docker_dirs : list (list rstr) := [[]; [ #"var"]; [ #"var"; #"lib"]; [ #"var"; #"lib"; #"docker"]].

(** Row [i] of the [df] output lists [device], mounted on or above Docker's directory. *)
Definition df_lists (ls : list rstr) (i : nat) (device mount : rstr) : Prop :=
  ∃ line, ls !! i = Some line ∧ 6 ≤ length (split_whitespace line) ∧
    head (split_whitespace line) = Some device ∧ last (split_whitespace line) = Some mount ∧
    mount ∈ written <$> docker_dirs.

(** The row mounted closest to it, the first of them if there are several. *)
Definition closest (ls : list rstr) (device : rstr) : Prop :=
  ∃ i mount, df_lists ls i device mount ∧
    ∀ j device' mount', df_lists ls j device' mount' → len mount' ≤ len mount ∧ (len mount' = len mount → i ≤ j).

Lemma covers_docker_dirs mount :
  starts_with mount #"/" = true → covers_docker mount = true ↔ mount ∈ written <$> docker_dirs.
Proof.
  intros Hs. unfold covers_docker. rewrite !orb_true_iff, !str_eqb_eq, starts_with_true. split.
  - intros [[->|<-]|[r Hr]]; [by apply list_elem_of_here|set_solver|].
    change DOCKER_DIR with ([47; 118; 97; 114; 47; 108; 105; 98; 47; 100; 111; 99; 107; 101; 114]%N) in Hr.
    do 15 (destruct mount as [|? mount]; [try discriminate Hr; injection Hr; intros; subst; first [discriminate|set_solver]|cbn [app] in Hr; try discriminate Hr; injection Hr as <- Hr]).
    by destruct mount.
  - intros Hm. cbn in Hm. repeat (apply elem_of_cons in Hm as [->|Hm]; [first [by left; left|by left; right|right; by eexists]|]).
    by apply elem_of_nil in Hm.
Qed.

Lemma df_row_lists line device mount :
  df_row line = Some (device, mount) ∧ covers_docker mount = true ↔
  6 ≤ length (split_whitespace line) ∧ head (split_whitespace line) = Some device ∧
  last (split_whitespace line) = Some mount ∧ mount ∈ written <$> docker_dirs.
Proof.
  unfold df_row. destruct (head (split_whitespace line)) as [d|]; [|naive_solver].
  destruct (last (split_whitespace line)) as [m|]; [|naive_solver]. cbn [mbind option_bind].
  assert (∀ m, m ∈ written <$> docker_dirs → starts_with m #"/" = true) as Hd.
  { intros x Hx. cbn in Hx. repeat (apply elem_of_cons in Hx as [->|Hx]; [done|]). by apply elem_of_nil in Hx. }
  destruct (starts_with m #"/") eqn:Hs; cbn [negb orb].
  - destruct (Nat.ltb_spec (length (split_whitespace line)) 6); [split; [by intros []|lia]|].
    split; [intros [[= -> ->] Hc]|intros (_ & [= ->] & [= ->] & Hc)]; by rewrite covers_docker_dirs in *.
  - split; [by intros []|]. intros (_ & _ & [= ->] & Hm%Hd). congruence.
Qed.

Lemma df_lists_snoc ls line i d m :
  df_lists (ls ++ [line]) i d m ↔
  df_lists ls i d m ∨ i = length ls ∧ df_row line = Some (d, m) ∧ covers_docker m = true.
Proof.
  unfold df_lists. rewrite df_row_lists. setoid_rewrite lookup_app_Some. split.
  - intros (x & [Hx|[Hi Hx]] & H); [naive_solver|]. apply list_lookup_singleton_Some in Hx as [Hi' <-].
    right. split; [lia|done].
  - intros [(x & Hx & H)|[-> H]]; [naive_solver|]. exists line. split; [|done]. right. rewrite Nat.sub_diag. done.
Qed.

Lemma df_lists_lt ls i d m : df_lists ls i d m → i < length ls.
Proof. intros (? & ?%lookup_lt_Some & _). done. Qed.

Lemma df_fold_spec ls :
  match foldl df_step None ls with
  | None => ∀ i d m, ¬ df_lists ls i d m
  | Some (l, d) => ∃ i m, len m = l ∧ df_lists ls i d m ∧
      ∀ j d' m', df_lists ls j d' m' → len m' ≤ l ∧ (len m' = l → i ≤ j)
  end.
Proof.
  induction ls as [|line ls IH] using rev_ind; [by intros ? ? ? (? & ? & _)|].
  rewrite foldl_snoc. unfold df_step at 1.
  assert (∀ i d m, df_lists (ls ++ [line]) i d m → df_lists ls i d m ∨
    i = length ls ∧ df_row line = Some (d, m) ∧ covers_docker m = true) as Hinv by (by intros ? ? ? ?%df_lists_snoc).
  assert (∀ i d m, df_lists ls i d m → df_lists (ls ++ [line]) i d m) as Hold by (intros; apply df_lists_snoc; by left).
  destruct (df_row line) as [[dev mnt]|] eqn:Hrow.
  2:{ assert (∀ i d m, df_lists (ls ++ [line]) i d m → df_lists ls i d m) as Hback by (intros ? ? ? [?|(_ & ? & _)]%Hinv; done).
      destruct (foldl df_step None ls) as [[l d]|]; naive_solver. }
  assert (covers_docker mnt = true → df_lists (ls ++ [line]) (length ls) dev mnt) as Hnew
    by (intros; apply df_lists_snoc; by right).
  destruct (covers_docker mnt) eqn:Hc; cbn [andb].
  - specialize (Hnew eq_refl). destruct (foldl df_step None ls) as [[l d]|].
    + destruct IH as (i & m & Hl & Hm & Hmax). destruct (Nat.ltb_spec l (len mnt)).
      * exists (length ls), mnt. split_and!; [done..|]. intros j d' m' [Hj|(-> & [= <- <-] & _)]%Hinv; [|done].
        destruct (Hmax _ _ _ Hj). lia.
      * exists i, m. split_and!; [done|by apply Hold|]. intros j d' m' [Hj|(-> & [= <- <-] & _)]%Hinv; [by eapply Hmax|].
        apply df_lists_lt in Hm. lia.
    + exists (length ls), mnt. split_and!; [done..|]. intros j d' m' [Hj|(-> & [= <- <-] & _)]%Hinv; [|done].
      by apply IH in Hj.
  - assert (∀ i d m, df_lists (ls ++ [line]) i d m → df_lists ls i d m) as Hback
      by (intros ? ? ? [?|(_ & [= <- <-] & ?)]%Hinv; congruence).
    destruct (foldl df_step None ls) as [[l d]|]; naive_solver.
Qed.

Lemma docker_device_exact df device : docker_device_from_df df = Some device ↔ closest (lines df) device.
Proof.
  unfold docker_device_from_df. pose proof (df_fold_spec (lines df)) as Hf.
  destruct (foldl df_step None (lines df)) as [[l d]|]; cbn.
  - destruct Hf as (i & m & <- & Hm & Hmax). split; [intros [= <-]; by exists i, m|].
    intros (j & m' & Hm' & Hmax'). destruct (Hmax _ _ _ Hm') as [? Hij], (Hmax' _ _ _ Hm) as [? Hji].
    assert (i = j) as -> by lia. destruct Hm as (x & Hx & _ & Hd & _), Hm' as (y & Hy & _ & Hd' & _). congruence.
  - split; [done|]. intros (i & m & Hm & _). by apply Hf in Hm.
Qed.

Lemma docker_device_unreported df :
  docker_device_from_df df = None ↔ ∀ i device mount, ¬ df_lists (lines df) i device mount.
Proof.
  unfold docker_device_from_df. pose proof (df_fold_spec (lines df)) as Hf.
  destruct (foldl df_step None (lines df)) as [[l d]|]; cbn; [|done].
  destruct Hf as (i & m & _ & Hm & _). split; [done|]. intros H. by apply H in Hm.
Qed.

(** ** What Docker's data is on, and what an operation would do to it *)

Inductive storage : Set := OnDevice (d : device) | OnLvm | OnRaid | Unreported.

(** What the [df] output says of Docker's storage. *)
Definition reported (df : rstr) (st : storage) : Prop :=
  match st with
  | OnDevice d => ∃ dev, closest (lines df) dev ∧ names d dev
  | OnLvm => ∃ dev, closest (lines df) dev ∧
      ((∃ volume, spells [ #"dev"; #"mapper"; volume] dev) ∨ ∃ n, spells [ #"dev"; #"dm-" ++ fmt_N n] dev)
  | OnRaid => ∃ dev, closest (lines df) dev ∧ ∃ array rest, spells (#"dev" :: (#"md" ++ array) :: rest) dev
  | Unreported => ∀ i dev mount, ¬ df_lists (lines df) i dev mount
  end.

(** The devices an operation partitions, formats, repairs or takes for LVM or RAID. *)
Definition disk_devices (op : AgentOperation) : option (list rstr) :=
  match op with
  | CreatePartition device _ _ | DeletePartition device _ | CreateFilesystem device _
  | FilesystemRepair device | CreatePhysicalVolume device | RemovePhysicalVolume device => Some [device]
  | CreateRaidArray _ _ devices | CreateVolumeGroup _ devices => Some devices
  | _ => None
  end.
Definition removes_volumes (op : AgentOperation) : Prop :=
  (∃ lv_path, op = RemoveLogicalVolume lv_path) ∨ ∃ name, op = RemoveVolumeGroup name.
Definition stops_array (op : AgentOperation) : Prop := ∃ array_name, op = StopRaidArray array_name.
(** What an operation mounts over or unmounts. *)
Definition mount_target (op : AgentOperation) : option rstr :=
  match op with
  | UnmountFilesystem target | MountFilesystem _ target | RemoveMountUnit _ target => Some target
  | _ => None
  end.

Lemma check_disk_devices op ds protection :
  disk_devices op = Some ds → ∃ action, check op protection = check_disk protection ds action.
Proof. destruct op; cbn; intros [= <-]; by eexists. Qed.

Lemma check_mount_target op t protection :
  mount_target op = Some t → (check op protection = Ok () ↔ is_protected_mount t protection = false).
Proof. destruct op; cbn; intros [= <-]; by destruct (is_protected_mount _ _). Qed.

Lemma check_devices_iff docker related devices action :
  check_devices docker related devices action = Ok () ↔
  Forall (λ d, ¬ (normalize_path d ∈ related) ∧ parent_disk (normalize_path d) ≠ Some docker) devices.
Proof.
  induction devices as [|x devices IH]; cbn; [done|]. rewrite Forall_cons, <- IH, <- str_mem_elem.
  destruct (str_mem (normalize_path x) related), (bool_decide_reflect (parent_disk (normalize_path x) = Some docker)); cbn; naive_solver.
Qed.

Lemma names_normalize d text : names d text → normalize_path text = #"/dev/" ++ device_name d.
Proof.
  intros [_ Hs]. rewrite (spells_normalize _ _ Hs). cbn [written slashed fmap list_fmap mjoin list_join].
  by rewrite app_nil_r.
Qed.

Lemma normalize_device d : disk_ok (disk_of d) → normalize_path (#"/dev/" ++ device_name d) = #"/dev/" ++ device_name d.
Proof.
  intros Hd. apply names_normalize. split; [done|].
  replace (#"/dev/" ++ device_name d) with (slashed [ #"dev"; device_name d]); [by apply spells_slashed, names_parts|].
  cbn. by rewrite app_nil_r.
Qed.

(** The guard's comparison of names is the overlap of the devices. *)
Lemma clear_of_iff x b :
  disk_ok (disk_of x) → disk_ok (disk_of b) →
  (¬ (#"/dev/" ++ device_name x ∈ related_devices (#"/dev/" ++ device_name b)) ∧
     parent_disk (#"/dev/" ++ device_name x) ≠ Some (#"/dev/" ++ device_name b)) ↔ ¬ overlaps x b.
Proof.
  intros Hx Hb. unfold related_devices. rewrite normalize_device, !parent_disk_device by done. unfold overlaps.
  assert (∀ y z, disk_ok (disk_of y) → disk_ok (disk_of z) → #"/dev/" ++ device_name y = #"/dev/" ++ device_name z → y = z) as Hinj.
  { intros y z Hy Hz E%(inj (app #"/dev/")). by apply device_name_inj. }
  destruct b as [b|b n]; cbn [disk_of] in *.
  - rewrite list_elem_of_singleton. split.
    + intros [H1 H2] [->|[->|E]]; [done|done|]. destruct x as [x|x m]; cbn [disk_of] in *; congruence.
    + intros H. split; [intros E; apply H; left; by apply Hinj|]. destruct x as [x|x m]; [done|]. intros E%(inj Some).
      apply H. right; right. symmetry. by apply (Hinj (Whole x) (Whole b)).
  - rewrite elem_of_cons, list_elem_of_singleton. split.
    + intros [H1 H2] [->|[->|[=]]]; apply H1; [by left|by right].
    + intros H. split.
      * intros [E|E]; apply H; [left|right; left]; by apply Hinj.
      * destruct x as [x|x m]; [done|]. intros E%(inj Some). by apply (Hinj (Whole x) (Part b n)) in E.
Qed.

Lemma docker_plain b : disk_ok (disk_of b) →
  bool_decide (is_Some (parent_disk (#"/dev/" ++ device_name b))) || is_whole_disk (#"/dev/" ++ device_name b) = true.
Proof.
  intros Hb. rewrite parent_disk_device by done. destruct b as [b|b n]; [|done]. by apply whole_disk_name.
Qed.

Lemma check_disk_device dev b texts bs ports action :
  names b dev → Forall2 names bs texts →
  check_disk (mkProtection ports (Some dev)) texts action = Ok () ↔ ∀ x, x ∈ bs → ¬ overlaps x b.
Proof.
  intros Hb Hbs. unfold check_disk. cbn [docker_device]. rewrite (names_normalize b dev Hb), docker_plain by apply Hb.
  cbn [negb]. rewrite check_devices_iff, <- Forall_forall.
  induction Hbs as [|x t bs texts Hx Hbs IH]; [done|]. rewrite !Forall_cons, IH.
  rewrite (names_normalize x t Hx), clear_of_iff by (apply Hx || apply Hb). done.
Qed.

(** ** Storage the guard cannot see through *)

Lemma spells_dev ps p s : spells (#"dev" :: p :: ps) s → normalize_path s = #"/dev/" ++ p ++ slashed ps.
Proof. intros Hs. by rewrite (spells_normalize _ _ Hs). Qed.

(** Volumes and arrays: neither a disk nor a partition, and of their layer. *)
Lemma layered_opaque st df dev :
  reported df st → docker_device_from_df df = Some dev →
  match st with
  | OnDevice b => names b dev
  | OnLvm | OnRaid =>
      bool_decide (is_Some (parent_disk (normalize_path dev))) || is_whole_disk (normalize_path dev) = false ∧
      layer_of (normalize_path dev) = Some (match st with OnLvm => Lvm | _ => Raid end)
  | Unreported => False
  end.
Proof.
  intros Hst Hdev. destruct st as [b| | |]; cbn [reported] in Hst.
  - destruct Hst as (dev' & Hc%docker_device_exact & Hn). congruence.
  - destruct Hst as (dev' & Hc%docker_device_exact & Hs). assert (dev' = dev) as -> by congruence. clear Hc.
    destruct Hs as [[v Hs]|[n Hs]]; rewrite (spells_dev _ _ _ Hs); clear Hs; cbn [slashed fmap list_fmap mjoin list_join].
    + rewrite parent_disk_dev. assert (contains_char (#"mapper" ++ (#"/" ++ v) ++ []) $"/" = true) as Hs.
      { apply contains_char_elem. set_solver. }
      rewrite Hs. cbn [orb]. by rewrite bool_decide_eq_false_2 by (by intros [? ?]).
    + rewrite app_nil_r, parent_disk_dev, starts_with_app, orb_true_r. cbn [orb].
      by rewrite bool_decide_eq_false_2 by (by intros [? ?]).
  - destruct Hst as (dev' & Hc%docker_device_exact & a & rest & Hs). assert (dev' = dev) as -> by congruence.
    rewrite (spells_dev _ _ _ Hs), <- app_assoc, parent_disk_dev, starts_with_app, orb_true_r.
    by rewrite bool_decide_eq_false_2 by (by intros [? ?]).
  - apply docker_device_unreported in Hst. congruence.
Qed.

Lemma reported_device st df :
  reported df st → docker_device_from_df df = None ↔ st = Unreported.
Proof.
  intros Hst. split; [|by intros ->; apply docker_device_unreported].
  intros Hn. destruct st; [..|done]; destruct Hst as (dev & Hc%docker_device_exact & _); congruence.
Qed.

Lemma device_no_layer b : disk_ok (disk_of b) → layer_of (#"/dev/" ++ device_name b) = None.
Proof.
  destruct b as [[[]|?|?]|[[]|?|?] ?]; intros _; cbn [device_name disk_name bus_name]; rewrite <- ?app_assoc; reflexivity.
Qed.

Lemma layered_reported st df ports layer action :
  reported df st →
  check_layered (mkProtection ports (docker_device_from_df df)) layer action = Ok () ↔
  st ≠ Unreported ∧ st ≠ match layer with Lvm => OnLvm | Raid => OnRaid end.
Proof.
  intros Hst. unfold check_layered. cbn [docker_device].
  destruct (docker_device_from_df df) as [dev|] eqn:Hdev; cbn [fmap option_fmap option_map].
  2:{ apply (reported_device st) in Hdev; [|done]. subst. naive_solver. }
  assert (st ≠ Unreported) as Hu by (intros Hu; apply (reported_device _ _ Hst) in Hu; congruence).
  pose proof (layered_opaque st df dev Hst Hdev) as Hl. clear Hst Hdev. destruct st as [b| | |]; [|destruct Hl as [_ ->]..|done].
  - rewrite (names_normalize b dev Hl), device_no_layer by apply Hl. cbn. split; [|done]. intros _. by destruct layer.
  - destruct layer; cbn; naive_solver.
  - destruct layer; cbn; naive_solver.
Qed.

Lemma disk_reported st df ports op texts bs :
  reported df st → disk_devices op = Some texts → Forall2 names bs texts →
  check op (mkProtection ports (docker_device_from_df df)) = Ok () ↔
  ∃ b, st = OnDevice b ∧ ∀ x, x ∈ bs → ¬ overlaps x b.
Proof.
  intros Hst Hop Hbs. destruct (check_disk_devices op texts (mkProtection ports (docker_device_from_df df)) Hop) as [action ->].
  destruct (docker_device_from_df df) as [dev|] eqn:Hdev.
  2:{ apply (reported_device st) in Hdev; [|done]. subst. cbn. naive_solver. }
  pose proof (layered_opaque st df dev Hst Hdev) as Hl. destruct st as [b| | |]; [|destruct Hl as [Hl _]..|done].
  - rewrite (check_disk_device dev b texts bs) by done. naive_solver.
  - unfold check_disk. cbn [docker_device]. rewrite Hl. cbn. naive_solver.
  - unfold check_disk. cbn [docker_device]. rewrite Hl. cbn. naive_solver.
Qed.

Lemma protected_mounts : PROTECTED_MOUNTS = written <$> docker_dirs.
Proof. reflexivity. Qed.

Lemma docker_dirs_plain : Forall (Forall plain_part) docker_dirs.
Proof. unfold docker_dirs, plain_part. apply (bool_decide_unpack _). by vm_compute. Qed.

Lemma written_docker ps : Forall plain_part ps → written ps ∈ written <$> docker_dirs ↔ ps ∈ docker_dirs.
Proof.
  intros Hp. rewrite list_elem_of_fmap. split; [|naive_solver]. intros (qs & E & Hq).
  assert (ps = qs) as ->; [|done]. apply written_inj; [done| |done]. by apply (proj1 (Forall_forall _ _) docker_dirs_plain).
Qed.

Lemma names_spells b t ps : disk_ok (disk_of b) → spells ps t → (normalize_path t = #"/dev/" ++ device_name b ↔ names b t).
Proof.
  intros Hb Hs. split; [|apply names_normalize]. intros E. split; [done|].
  rewrite (spells_normalize _ _ Hs) in E. assert (ps = [ #"dev"; device_name b]) as <-; [|done].
  apply written_inj; [by eapply spells_plain|by apply names_parts|]. rewrite E. cbn. by rewrite app_nil_r.
Qed.

Lemma mount_dirs protection op t ps :
  mount_target op = Some t → spells ps t → check op protection = Ok () → ps ∉ docker_dirs.
Proof.
  intros Hop Hs Hok. apply (check_mount_target op t) in Hok; [|done]. unfold is_protected_mount in Hok.
  apply orb_false_iff in Hok as [Hm _]. rewrite (spells_normalize _ _ Hs), protected_mounts in Hm.
  intros Hin. apply not_true_iff_false in Hm. apply Hm, str_mem_elem, written_docker; [by eapply spells_plain|done].
Qed.

Lemma mount_device df ports op t ps b :
  reported df (OnDevice b) → mount_target op = Some t → spells ps t →
  check op (mkProtection ports (docker_device_from_df df)) = Ok () ↔
  (ps ∉ docker_dirs) ∧ ¬ names b t ∧ ¬ names (Whole (disk_of b)) t.
Proof.
  intros Hst Hop Hs. rewrite (check_mount_target op t) by done. unfold is_protected_mount.
  destruct (docker_device_from_df df) as [dev|] eqn:Hdev; [|by apply (reported_device (OnDevice b)) in Hdev].
  pose proof (layered_opaque _ df dev Hst Hdev) as Hb. pose proof (proj1 Hb) as Hok. cbn [docker_device].
  rewrite orb_false_iff, <- !not_true_iff_false, !str_mem_elem.
  rewrite (spells_normalize _ _ Hs) at 1. rewrite protected_mounts, written_docker by (by eapply spells_plain).
  rewrite <- (names_spells b t ps), <- (names_spells (Whole (disk_of b)) t ps) by done.
  unfold related_devices. rewrite (names_normalize b dev Hb), parent_disk_device by done.
  destruct b as [d|d n]; cbn [disk_of]; rewrite elem_of_cons, ?list_elem_of_singleton, ?elem_of_nil; tauto.
Qed.


Definition df_example : rstr :=
  mjoin ((λ l, l ++ [10%N]) <$>
    [ #"Filesystem      Size  Used Avail Use% Mounted on"; #"/dev/nvme0n1p3  476G  200G  270G  43% /";
      #"/dev/sdb1       1.8T  1.0T  800G  56% /var/lib"]).
Definition sdb : disk := Lettered Sd #"b".

Lemma sdb_ok : disk_ok sdb.
Proof. by split. Qed.

Lemma named d : disk_ok (disk_of d) → names d (slashed [ #"dev"; device_name d]).
Proof. intros Hd. split; [done|]. by apply spells_slashed, names_parts. Qed.

Lemma df_example_reported : reported df_example (OnDevice (Part sdb 1)).
Proof.
  exists #"/dev/sdb1". split; [apply docker_device_exact; by vm_compute|]. apply (named (Part sdb 1) sdb_ok).
Qed.

(** The disk of Docker's device, written with a doubled slash. *)
Lemma sdb_spelled : names (Whole sdb) #"//dev/./sdb".
Proof.
  split; [exact sdb_ok|]. apply spells_slash. pose proof (names_parts (Whole sdb) sdb_ok) as Hp.
  apply Forall_cons in Hp as [Hd Hp]. apply (spells_part #"dev" _ #"/./sdb" Hd).
  apply (spells_dot _ #"/sdb"). by apply (spells_slashed [ #"sdb"]).
Qed.


(** Names with a [..] in them, and links to a device, are not recognised: formatting Docker's own partition
    is let through under such a name. *)
Theorem guard_misses_device_aliases :
  docker_device_from_df df_example = Some #"/dev/sdb1" ∧
  is_err (check (CreateFilesystem #"/dev/sdb1" #"ext4") (mkProtection [] (docker_device_from_df df_example))) = true ∧
  check (CreateFilesystem #"/dev/../dev/sdb1" #"ext4") (mkProtection [] (docker_device_from_df df_example)) = Ok () ∧
  resolve #"/dev/../dev/sdb1" = resolve #"/dev/sdb1" ∧
  is_valid_mount_target #"/dev/../dev/sdb1" = true ∧
  is_valid_mount_target #"/dev/disk/by-id/ata-disk-part1" = true ∧
  check (CreateFilesystem #"/dev/disk/by-id/ata-disk-part1" #"ext4") (mkProtection [] (docker_device_from_df df_example)) = Ok ().
Proof. vm_compute. repeat split. Qed.

(** Mounting over Docker's directory is refused as a mount, not as a mount unit. *)
Theorem guard_misses_mount_units :
  is_err (check (MountFilesystem #"/dev/sdc1" #"/var/lib/docker") (mkProtection [] None)) = true ∧
  check (RenderMountUnit #"var-lib-docker.mount" #"/var/lib/docker" []) (mkProtection [] None) = Ok ().
Proof. vm_compute. repeat split. Qed.

(** A path that climbs out of a harmless directory is not recognised: quarantining it is let through
    although it resolves to a file of Docker's. *)
Theorem guard_misses_dotdot :
  check (QuarantineFile #"/srv/../var/lib/docker/volumes/db/ibdata1") (mkProtection [] None) = Ok () ∧
  is_valid_absolute_path #"/srv/../var/lib/docker/volumes/db/ibdata1" = true ∧
  resolve #"/srv/../var/lib/docker/volumes/db/ibdata1" = resolve #"/var/lib/docker/volumes/db/ibdata1" ∧
  is_err (check (QuarantineFile #"/var/lib/docker/volumes/db/ibdata1") (mkProtection [] None)) = true.
Proof. vm_compute. repeat split. Qed.
