(* ===== verification/GrimoireRoundTrip.v ===== *)
(** * Rendering a managed file and reading it back *)

From S2P Require Import Prelude Protocol Validators ValidatorTheorems InputTheorems Agent.
From S2P Require Import Grimoire TextLemmas.

(** ** Files of [key = value] lines *)

(** The parser both kinds of file share; [bad] holds the characters that open a
    line to skip. *)
Definition parse_kv_line (bad line : rstr) : option (rstr * rstr) :=
  let line := trim line in
  if is_empty line || match line with c :: _ => char_mem c bad | [] => false end then None
  else key_value line.

Lemma parse_sysctl_kv line : parse_sysctl_line line = parse_kv_line #"#" line.
Proof.
  unfold parse_sysctl_line, parse_kv_line. destruct (trim line) as [|c l]; [done|].
  cbn [is_empty orb starts_with_char]. change #"#" with [$"#"]. unfold char_mem. cbn [existsb].
  by rewrite orb_false_r.
Qed.

Lemma parse_journald_kv line : parse_journald_line line = parse_kv_line #"#[" line.
Proof.
  unfold parse_journald_line, parse_kv_line. destruct (trim line) as [|c l]; [done|].
  cbn [is_empty orb starts_with_char]. change #"#[" with [$"#"; $"["]. unfold char_mem. cbn [existsb].
  by rewrite orb_false_r.
Qed.

Lemma parse_kv_trim bad s t : trim s = trim t → parse_kv_line bad s = parse_kv_line bad t.
Proof. unfold parse_kv_line. by intros ->. Qed.

(** An entry a parsed file can hold. *)
Definition kv_ok (bad : rstr) (e : rstr * rstr) : Prop :=
  trim e.1 = e.1 ∧ trim e.2 = e.2 ∧ ¬ ($"=" ∈ e.1) ∧ one_line e.1 ∧ one_line e.2 ∧
  match e.1 with c :: _ => char_mem c bad = false | [] => True end.

Lemma parse_kv_ok bad line e : one_line line → parse_kv_line bad line = Some e → kv_ok bad e.
Proof.
  unfold parse_kv_line. intros Hl%trim_one_line Hp.
  destruct (is_empty (trim line) || _) eqn:Hb; [done|]. apply orb_false_iff in Hb as [_ Hb].
  unfold key_value in Hp. destruct (split_once $"=" (trim line)) as [[k v]|] eqn:Hs; [|done].
  injection Hp as <-. apply split_once_Some in Hs as [Hs Hk]. rewrite Hs in Hl, Hb.
  apply one_line_app in Hl as [Hlk Hlv]. assert (one_line v) by (unfold one_line in *; set_solver).
  unfold kv_ok. cbn [fst snd]. rewrite !trim_trim. split_and!; try done.
  - intros Hin. by apply Hk, (trim_matches_elem is_whitespace).
  - by apply trim_one_line.
  - by apply trim_one_line.
  - destruct (trim k) as [|c k'] eqn:Ht; [done|]. destruct k as [|x k]; [done|]. cbn in Hb.
    assert (trim (trim line) = x :: k ++ $"=" :: v) as Hx by (by rewrite trim_trim, Hs).
    apply trim_matches_head in Hx. pose proof (trim_cut is_whitespace [] x k Hx) as Hcut.
    unfold trim in Ht. cbn [app] in Hcut. rewrite Hcut in Ht. by injection Ht as -> _.
Qed.

(** The line of an entry reads back as the entry, with its value trimmed. *)
Lemma parse_kv_render bad k v sp1 sp2 :
  char_mem $"=" bad = false → forallb is_whitespace sp1 = true → forallb is_whitespace sp2 = true →
  kv_ok bad (k, trim v) →
  parse_kv_line bad (k ++ sp1 ++ #"=" ++ sp2 ++ v) = Some (k, trim v).
Proof.
  intros Hbad H1 H2 (Hk & _ & Heq & _ & _ & Hhead). unfold parse_kv_line.
  cbn [fst snd] in *.
  assert (trim (k ++ sp1 ++ #"=" ++ sp2 ++ v)
    = trim_start_matches is_whitespace (k ++ sp1) ++ $"=" :: trim_end_matches is_whitespace (sp2 ++ v)) as ->.
  { unfold trim. rewrite app_assoc. by apply trim_cut. }
  assert (key_value (trim_start_matches is_whitespace (k ++ sp1) ++
            $"=" :: trim_end_matches is_whitespace (sp2 ++ v)) = Some (k, trim v)) as Hkv.
  { unfold key_value. rewrite split_once_intro.
    - cbn [mbind option_bind]. unfold trim. rewrite trim_start_trim, trim_matches_end, trim_end_trim, trim_matches_start by done.
      by rewrite <- Hk at 2.
    - intros Hin. destruct (drop_while_dropped is_whitespace (k ++ sp1)) as (a & Ha & _).
      assert (($"=") ∈ k ++ sp1) as [?|Hs]%elem_of_app; [|done|].
      + rewrite Ha. apply elem_of_app. by right.
      + apply (forallb_at is_whitespace sp1) in Hs; [by vm_compute in Hs|done]. }
  rewrite Hkv. destruct k as [|c k].
  - unfold trim_start_matches. cbn [app]. rewrite <- (app_nil_r sp1), drop_while_all by done. cbn [drop_while app is_empty orb].
    by rewrite Hbad.
  - apply trimmed_head in Hk. unfold trim_start_matches. cbn [app drop_while]. rewrite Hk. cbn [app is_empty orb].
    by rewrite Hhead.
Qed.

(** Reading a rendered file skips the header and yields the rendered entries. *)
Lemma omap_unlines {A} (p : rstr → option A) ls :
  Forall one_line ls → (∀ l, p (strip_cr l) = p l) → omap p (lines (unlines ls)) = omap p ls.
Proof.
  intros Hls Hp. rewrite lines_unlines by done. clear Hls.
  induction ls as [|l ls IH]; [done|]. cbn [fmap list_fmap omap list_omap].
  rewrite Hp. destruct (p l); [f_equal|]; exact IH.
Qed.

Lemma omap_rendered {A} (p : rstr → option A) (r : A → rstr) l :
  Forall (λ x, p (r x) = Some x) l → omap p (r <$> l) = l.
Proof.
  induction 1 as [|x l Hx _ IH]; [done|]. cbn [fmap list_fmap omap list_omap]. rewrite Hx. by f_equal.
Qed.

Lemma upsert_Forall {A} (P : A → Prop) key f x l :
  Forall P l → P x → (∀ y, P y → P (f y)) → Forall P (upsert key f x l).
Proof.
  intros Hl Hx Hf. induction Hl as [|y l Hy Hl IH]; cbn; [by constructor|].
  destruct (key y); constructor; auto.
Qed.

Lemma HEADER_one_line : one_line HEADER_LINE.
Proof. by apply one_line_lit. Qed.

Definition trim_values (es : list (rstr * rstr)) : list (rstr * rstr) := (λ e, (e.1, trim e.2)) <$> es.

(** An entry that renders to one line and reads back, its value trimmed. *)
Definition kv_writable (bad : rstr) (e : rstr * rstr) : Prop :=
  kv_ok bad (e.1, trim e.2) ∧ one_line e.2.

Lemma kv_ok_writable bad e : kv_ok bad e → kv_writable bad e.
Proof.
  destruct e as [k v]. intros (? & Hv & ? & ? & ? & ?). split; [|done].
  cbn [fst snd] in *. unfold kv_ok. cbn [fst snd]. by rewrite !Hv.
Qed.

Lemma trim_values_ok bad es : Forall (kv_ok bad) es → trim_values es = es.
Proof.
  induction 1 as [|[k v] es (_ & Hv & _) _ IH]; [done|]. cbn [trim_values fmap list_fmap fst snd] in *.
  unfold trim_values in IH. by rewrite Hv, IH.
Qed.

Lemma trim_values_set bad key value es :
  Forall (kv_ok bad) es → trim_values (set_entry key value es) = set_entry key (trim value) es.
Proof.
  unfold set_entry. induction 1 as [|[k v] es (_ & Hv & _) Hes IH]; [done|].
  cbn [upsert fst snd] in *. destruct (str_eqb k key); cbn [trim_values fmap list_fmap fst snd].
  - f_equal. by apply (trim_values_ok bad).
  - rewrite Hv. f_equal. exact IH.
Qed.

Lemma omap_kv bad sp1 sp2 es :
  char_mem $"=" bad = false → forallb is_whitespace sp1 = true → forallb is_whitespace sp2 = true →
  Forall (kv_writable bad) es →
  omap (parse_kv_line bad) ((λ e, e.1 ++ sp1 ++ #"=" ++ sp2 ++ e.2) <$> es) = trim_values es.
Proof.
  intros Hb H1 H2. induction 1 as [|[k v] es [Hok _] _ IH]; [done|].
  cbn [fmap list_fmap omap list_omap fst snd]. rewrite parse_kv_render by done.
  cbn [trim_values fmap list_fmap fst snd]. f_equal. exact IH.
Qed.

Lemma omap_same {A} (p q : rstr → option A) (ls : list rstr) : (∀ l, p l = q l) → omap p ls = omap q ls.
Proof.
  intros Hpq. induction ls as [|l ls IH]; [done|]. cbn [omap list_omap].
  rewrite Hpq. destruct (q l); [f_equal|]; exact IH.
Qed.

Lemma parse_kv_strip_cr bad l : parse_kv_line bad (strip_cr l) = parse_kv_line bad l.
Proof. apply parse_kv_trim, trim_strip_cr. Qed.

(** A file of header lines the parser skips, followed by the entries. *)
Lemma parse_rendered bad header sp1 sp2 es :
  char_mem $"=" bad = false → forallb is_whitespace sp1 = true → forallb is_whitespace sp2 = true →
  one_line (sp1 ++ #"=" ++ sp2) →
  Forall (λ l, one_line l ∧ parse_kv_line bad l = None) header → Forall (kv_writable bad) es →
  omap (parse_kv_line bad) (lines (unlines header ++ unlines ((λ e, e.1 ++ sp1 ++ #"=" ++ sp2 ++ e.2) <$> es)))
  = trim_values es.
Proof.
  intros Hb H1 H2 Hsep Hh Hes. rewrite <- unlines_app, omap_unlines; [..|apply parse_kv_strip_cr].
  - induction Hh as [|l header [_ Hl] _ IH]; [by apply omap_kv|]. cbn [app omap list_omap]. by rewrite Hl.
  - apply Forall_app. split; [by eapply Forall_impl; [exact Hh|]; intros ? []|].
    apply Forall_fmap. eapply Forall_impl; [exact Hes|]. intros [k v] [(_ & _ & _ & ? & _) ?].
    cbn in *. rewrite !one_line_app in *. tauto.
Qed.

Lemma parse_render_sysctl es :
  Forall (kv_writable #"#") es → parse_sysctl (render_sysctl es) = trim_values es.
Proof.
  intros Hes. unfold parse_sysctl. rewrite (omap_same _ _ _ parse_sysctl_kv).
  apply (parse_rendered #"#" [HEADER_LINE] #" " #" "); [done..|by apply one_line_lit| |done].
  repeat constructor. apply HEADER_one_line.
Qed.

Lemma parse_render_journald es :
  Forall (kv_writable #"#[") es → parse_journald (render_journald es) = trim_values es.
Proof.
  intros Hes. unfold parse_journald. rewrite (omap_same _ _ _ parse_journald_kv).
  apply (parse_rendered #"#[" [HEADER_LINE; #"[Journal]"] [] []); [done..|by apply one_line_lit| |done].
  repeat constructor; by apply one_line_lit.
Qed.

Lemma parse_lines_ok {A} (p : rstr → option A) (P : A → Prop) content :
  (∀ l e, one_line l → p l = Some e → P e) → Forall P (omap p (lines content)).
Proof.
  intros Hp. apply Forall_forall. intros e (l & Hl & He)%list_elem_of_omap.
  eapply Hp; [|exact He]. by eapply lines_one_line.
Qed.

Lemma parse_sysctl_ok content : Forall (kv_ok #"#") (parse_sysctl content).
Proof. apply parse_lines_ok. intros l e. rewrite parse_sysctl_kv. apply parse_kv_ok. Qed.

Lemma parse_journald_ok content : Forall (kv_ok #"#[") (parse_journald content).
Proof. apply parse_lines_ok. intros l e. rewrite parse_journald_kv. apply parse_kv_ok. Qed.

(** ** The blacklist *)

Definition module_ok (m : rstr) : Prop := trim m = m ∧ m ≠ [] ∧ one_line m.

Lemma parse_blacklist_strip_cr l : parse_blacklist_line (strip_cr l) = parse_blacklist_line l.
Proof. unfold parse_blacklist_line. by rewrite trim_strip_cr. Qed.

Lemma parse_blacklist_ok content : Forall module_ok (parse_blacklist content).
Proof.
  apply parse_lines_ok. unfold parse_blacklist_line. intros l m Hl.
  destruct (strip_prefix (trim l) #"blacklist ") as [r|] eqn:Hs; [|done]. cbn [mbind option_bind].
  destruct (is_empty (trim r)) eqn:He; [done|]. intros [= <-]. split_and!.
  - apply trim_trim.
  - by apply is_empty_false.
  - apply trim_one_line. apply strip_prefix_Some in Hs. apply trim_one_line in Hl. rewrite Hs in Hl.
    exact (proj2 (proj1 (one_line_app _ _) Hl)).
Qed.

Lemma parse_blacklist_render m : module_ok m → parse_blacklist_line (#"blacklist " ++ m) = Some m.
Proof.
  intros (Ht & Hne & _). unfold parse_blacklist_line.
  assert (trim (#"blacklist " ++ m) = #"blacklist " ++ m) as ->.
  { change (trim (#"blacklist" ++ #" " ++ m) = #"blacklist" ++ #" " ++ m). by apply trim_glue. }
  rewrite (proj2 (strip_prefix_Some _ _ m)) by done. cbn [mbind option_bind].
  rewrite Ht. by rewrite (proj2 (is_empty_false m) Hne).
Qed.

Lemma parse_render_blacklist ms : Forall module_ok ms → parse_blacklist (render_blacklist ms) = ms.
Proof.
  intros Hms. unfold parse_blacklist, render_blacklist.
  change MODPROBE_HEADER with (unlines [HEADER_LINE]). rewrite <- unlines_app, omap_unlines.
  - cbn [app omap list_omap]. change (parse_blacklist_line HEADER_LINE) with (@None rstr).
    apply (omap_rendered parse_blacklist_line (λ m, #"blacklist " ++ m)).
    eapply Forall_impl; [exact Hms|]. apply parse_blacklist_render.
  - constructor; [apply HEADER_one_line|]. apply Forall_fmap. eapply Forall_impl; [exact Hms|].
    intros m (_ & _ & ?). apply one_line_app. split; [by apply one_line_lit|done].
  - apply parse_blacklist_strip_cr.
Qed.
