(* ===== verification/CronRoundTrip.v ===== *)
(** * Scheduled tasks: rendering the file and reading it back *)

From S2P Require Import Prelude Validators ValidatorTheorems InputTheorems Agent Grimoire.
From S2P Require Import TextLemmas GrimoireRoundTrip.

(** ** Words *)

Definition word (w : rstr) : Prop := w ≠ [] ∧ existsb is_whitespace w = false.

Lemma split_on_join f s c t : f c = true → split_on f (s ++ c :: t) = split_on f s ++ split_on f t.
Proof.
  intros Hc. induction s as [|a s IH]; cbn; [by rewrite Hc|].
  destruct (f a); [by rewrite IH|]. rewrite IH.
  destruct (split_on f s) eqn:Hs; [by apply split_on_nonnil in Hs|done].
Qed.

Lemma split_whitespace_join s c t :
  is_whitespace c = true → split_whitespace (s ++ c :: t) = split_whitespace s ++ split_whitespace t.
Proof. intros Hc. unfold split_whitespace. by rewrite split_on_join, List.filter_app. Qed.

Lemma split_whitespace_word w : word w → split_whitespace w = [w].
Proof.
  intros [Hne Hw]. unfold split_whitespace. rewrite split_on_none by done. cbn.
  by rewrite (proj2 (is_empty_false w) Hne).
Qed.

Lemma split_whitespace_words s : Forall word (split_whitespace s).
Proof.
  apply Forall_forall. intros w Hw. unfold split_whitespace in Hw.
  rewrite list_elem_of_In, filter_In, <- list_elem_of_In in Hw. destruct Hw as [Hw Hne%negb_true_iff].
  split; [by apply is_empty_false|]. apply not_true_iff_false. rewrite existsb_exists.
  intros (c & Hc%list_elem_of_In & Hws). destruct (split_on_elem _ _ _ _ Hw Hc). congruence.
Qed.

Lemma join_cons w ws : ws ≠ [] → join #" " (w :: ws) = w ++ $" " :: join #" " ws.
Proof. by destruct ws. Qed.

Lemma join_app a b : a ≠ [] → b ≠ [] → join #" " (a ++ b) = join #" " a ++ $" " :: join #" " b.
Proof.
  intros Ha Hb. induction a as [|w a IH]; [done|]. destruct a as [|x a].
  - cbn [app]. by rewrite join_cons.
  - change ((w :: x :: a) ++ b) with (w :: ((x :: a) ++ b)).
    rewrite (join_cons w (x :: a)), (join_cons w ((x :: a) ++ b)), IH by done. by rewrite <- app_assoc.
Qed.

Lemma split_whitespace_tokens toks : Forall word toks → split_whitespace (join #" " toks) = toks.
Proof.
  induction 1 as [|w ws Hw Hws IH]; [done|]. destruct ws as [|x ws].
  - by apply split_whitespace_word.
  - rewrite join_cons, split_whitespace_join, split_whitespace_word, IH by done. done.
Qed.

Lemma word_trimmed w : word w → trim w = w.
Proof.
  intros [Hne Hw]. destruct w as [|c w]; [done|].
  assert (∀ x, x ∈ c :: w → is_whitespace x = false) as Hx.
  { intros x Hin. apply not_true_iff_false. intros Hws. apply not_true_iff_false in Hw. apply Hw.
    apply existsb_exists. exists x. by rewrite <- list_elem_of_In. }
  destruct (last (c :: w)) as [b|] eqn:Hb; [|by apply last_None in Hb].
  apply last_Some in Hb as [l Hl]. unfold trim, trim_matches, trim_start_matches. cbn [drop_while].
  rewrite (Hx c) by apply list_elem_of_here. rewrite Hl, trim_end_stop; [done|].
  apply Hx. rewrite Hl. set_solver.
Qed.

Lemma words_glue w m b : word w → word b → trim (w ++ m ++ b) = w ++ m ++ b.
Proof.
  intros Hw Hb. pose proof (word_trimmed w Hw). pose proof (word_trimmed b Hb).
  destruct Hw as [? _], Hb as [? _]. by apply (trim_glue is_whitespace).
Qed.

Lemma tokens_trimmed toks : Forall word toks → trim (join #" " toks) = join #" " toks.
Proof.
  intros Hw. destruct Hw as [|w ws Hw Hws]; [done|].
  destruct (last ws) as [b|] eqn:Hb.
  - apply last_Some in Hb as [l ->]. apply Forall_app in Hws as [_ Hb]. apply (proj1 (Forall_singleton _ _)) in Hb.
    change (w :: l ++ [b]) with ([w] ++ (l ++ [b])). rewrite join_app by (done || by destruct l).
    destruct l as [|x l].
    + change (trim (w ++ #" " ++ b) = w ++ #" " ++ b). by apply words_glue.
    + rewrite (join_app (x :: l) [b]) by done.
      assert (∀ m, join #" " [w] ++ $" " :: m ++ $" " :: join #" " [b] = w ++ (($" " :: m) ++ #" ") ++ b) as ->.
      { intros m. cbn [join]. by rewrite <- !app_assoc. }
      by apply words_glue.
  - apply last_None in Hb as ->. by apply word_trimmed.
Qed.

Lemma tokens_nonempty toks : Forall word toks → toks ≠ [] → join #" " toks ≠ [].
Proof.
  intros Hw Hne. destruct Hw as [|w ws [Hn _] _]; [done|]. destruct w as [|c w]; [done|]. by destruct ws.
Qed.

Lemma tokens_head toks w ws : Forall word toks → toks = w :: ws → ∀ c,
  starts_with_char (join #" " toks) c = starts_with_char w c.
Proof.
  intros Hw -> c. inversion Hw as [|? ? [Hn _] _]; subst. destruct w as [|x w]; [done|]. by destruct ws.
Qed.

(** ** Jobs *)

Definition cron_line (j : CronJob) : rstr := schedule j ++ #" " ++ user j ++ #" " ++ command j.

(** A job whose three lines the parser reads as one job or as none. *)
Definition job_writable (j : CronJob) : Prop :=
  trim (name j) = name j ∧ name j ≠ [] ∧ one_line (name j) ∧ one_line (cron_line j) ∧
  trim (cron_line j) ≠ [] ∧ starts_with_char (trim (cron_line j)) $"#" = false.

(** What the parser makes of a rendered job. *)
Definition reparse (j : CronJob) : option CronJob := parse_cron_entry (name j) (trim (cron_line j)).

(** A job as it comes out of a file. *)
Definition job_ok (j : CronJob) : Prop := job_writable j ∧ reparse j = Some j.

Lemma parse_cron_strip_cr ls p : parse_cron_lines (strip_cr <$> ls) p = parse_cron_lines ls p.
Proof.
  revert p. induction ls as [|l ls IH]; intros p; [done|]. cbn [fmap list_fmap parse_cron_lines].
  rewrite trim_strip_cr. repeat case_match; by rewrite ?IH || f_equal.
Qed.

Lemma not_marker line : starts_with_char line $"#" = false → strip_prefix line CRON_JOB_MARKER = None.
Proof.
  intros Hh. destruct (strip_prefix line CRON_JOB_MARKER) as [r|] eqn:Hs; [|done].
  apply strip_prefix_Some in Hs as ->. done.
Qed.

Lemma parse_marker n rest p :
  trim n = n → n ≠ [] →
  parse_cron_lines ((CRON_JOB_MARKER ++ n) :: rest) p = parse_cron_lines rest (Some n).
Proof.
  intros Ht Hne. cbn [parse_cron_lines].
  assert (trim (CRON_JOB_MARKER ++ n) = CRON_JOB_MARKER ++ n) as ->.
  { change (trim (#"# abyssal-arsenal-job:" ++ #" " ++ n) = #"# abyssal-arsenal-job:" ++ #" " ++ n).
    by apply (trim_glue is_whitespace). }
  rewrite (proj2 (strip_prefix_Some _ _ n)) by done. by rewrite Ht.
Qed.

Lemma parse_job_lines j rest p :
  job_writable j →
  parse_cron_lines (render_cron_job j ++ rest) p
  = match reparse j with Some j' => [j'] | None => [] end ++ parse_cron_lines rest None.
Proof.
  intros (Ht & Hne & _ & _ & Hcl & Hh). unfold render_cron_job. cbn [app].
  rewrite parse_marker by done. cbn [parse_cron_lines]. unfold cron_line in *.
  rewrite not_marker by done. rewrite (proj2 (is_empty_false _) Hcl), Hh. cbn [orb].
  unfold reparse, cron_line. destruct (parse_cron_entry (name j) _); done.
Qed.

Lemma cron_header_lines : CRON_HEADER = unlines [HEADER_LINE; #"SHELL=/bin/sh"; []].
Proof. reflexivity. Qed.

Lemma parse_header rest : parse_cron_lines ([HEADER_LINE; #"SHELL=/bin/sh"; []] ++ rest) None
  = parse_cron_lines rest None.
Proof. reflexivity. Qed.

(** Reading a rendered file yields each job as the parser sees it, in order. *)
Lemma parse_render_cron jobs :
  Forall job_writable jobs → parse_cron (render_cron jobs) = omap reparse jobs.
Proof.
  intros Hjobs. unfold parse_cron, render_cron. rewrite cron_header_lines, <- unlines_app, lines_unlines.
  - rewrite parse_cron_strip_cr, parse_header.
    induction Hjobs as [|j jobs Hj _ IH]; [done|]. cbn [mbind list_bind]. rewrite parse_job_lines by done.
    cbn [omap list_omap]. unfold omap in IH. destruct (reparse j); cbn; [f_equal|]; exact IH.
  - apply Forall_app. split; [repeat constructor; by apply one_line_lit|].
    induction Hjobs as [|j jobs (_ & _ & Hn & Hl & _) _ IH]; [constructor|]. cbn [mbind list_bind].
    apply Forall_app. split; [|exact IH]. unfold render_cron_job. repeat constructor.
    + apply one_line_app. split; [by apply one_line_lit|done].
    + exact Hl.
    + by apply one_line_lit.
Qed.

(** ** Every parsed job is of the form the renderer keeps *)

Lemma entry_tokens n line j :
  parse_cron_entry n line = Some j → starts_with_char line $"#" = false →
  ∃ fields toks, split_whitespace line = toks ∧ fields + 2 ≤ length toks ∧
    match toks with f :: _ => fields = if starts_with_char f $"@" then 1 else 5 | [] => False end ∧
    name j = n ∧ cron_line j = join #" " toks.
Proof.
  unfold parse_cron_entry. destruct (split_whitespace line) as [|f toks'] eqn:Hs; [done|].
  set (toks := f :: toks'). set (fields := if starts_with_char f $"@" then 1 else 5).
  destruct (Nat.ltb_spec (length toks) (fields + 2)); [done|]. intros Hj _.
  destruct (toks !! fields) as [u|] eqn:Hu; [|done]. injection Hj as <-.
  exists fields, toks. split_and!; try done. unfold cron_line. cbn [schedule user command].
  assert (1 ≤ fields) by (unfold fields; case_match; lia). clearbody toks fields.
  rewrite <- (take_drop fields toks) at 3. rewrite join_app.
  - rewrite (drop_S toks u fields Hu), join_cons.
    + rewrite Nat.add_1_r. done.
    + intros Hnil. apply (f_equal length) in Hnil. rewrite length_drop in Hnil. cbn in Hnil. lia.
  - intros Hnil. apply (f_equal length) in Hnil. rewrite length_take in Hnil. cbn in Hnil. lia.
  - intros Hnil. apply (f_equal length) in Hnil. rewrite length_drop in Hnil. cbn in Hnil. lia.
Qed.

Lemma join_elem toks c : c ∈ join #" " toks → c = $" " ∨ ∃ w, w ∈ toks ∧ c ∈ w.
Proof.
  induction toks as [|w toks IH]; [by intros ?%elem_of_nil|]. destruct toks as [|x toks].
  - intros Hc. right. exists w. split; [apply list_elem_of_here|done].
  - rewrite join_cons by done. intros [Hc|[->|Hc]%elem_of_cons]%elem_of_app.
    + right. exists w. split; [apply list_elem_of_here|done].
    + by left.
    + destruct (IH Hc) as [?|(v & Hv & ?)]; [by left|right]. exists v.
      split; [by apply list_elem_of_further|done].
Qed.

Lemma split_whitespace_elem s w c : w ∈ split_whitespace s → c ∈ w → c ∈ s.
Proof.
  unfold split_whitespace. rewrite list_elem_of_In, filter_In, <- list_elem_of_In. intros [Hw _] Hc.
  by destruct (split_on_elem _ _ _ _ Hw Hc).
Qed.

Lemma tokens_one_line s : one_line s → one_line (join #" " (split_whitespace s)).
Proof.
  intros Hs Hc. apply join_elem in Hc as [?|(w & Hw & Hc)]; [done|].
  by apply Hs, (split_whitespace_elem s w).
Qed.

Lemma first_token s f toks c :
  trim s = s → split_whitespace s = f :: toks → starts_with_char f c = starts_with_char s c.
Proof.
  intros Ht Hs. destruct s as [|a s]; [done|]. apply trimmed_head in Ht. unfold split_whitespace in Hs.
  cbn [split_on] in Hs. rewrite Ht in Hs. destruct (split_on is_whitespace s); by injection Hs as <- _.
Qed.

Definition name_ok (n : rstr) : Prop := trim n = n ∧ n ≠ [] ∧ one_line n.

Lemma parse_entry_ok n line j :
  name_ok n → trim line = line → one_line line → starts_with_char line $"#" = false →
  parse_cron_entry n line = Some j → job_ok j.
Proof.
  intros (Hn1 & Hn2 & Hn3) Ht Hl Hh Hj.
  destruct (entry_tokens _ _ _ Hj Hh) as (fields & toks & Htoks & Hlen & Hfirst & Hname & Hline).
  assert (Forall word toks) as Hw by (rewrite <- Htoks; apply split_whitespace_words).
  destruct toks as [|f toks]; [done|]. unfold job_ok, job_writable, reparse.
  rewrite Hline, Hname, (tokens_trimmed _ Hw). split_and!; try done.
  - rewrite <- Htoks. by apply tokens_one_line.
  - by apply tokens_nonempty.
  - rewrite (tokens_head _ f toks Hw eq_refl). by rewrite (first_token line f toks).
  - unfold parse_cron_entry in *. rewrite split_whitespace_tokens by done. by rewrite Htoks in Hj.
Qed.

Lemma trim_nil s : trim s = [] → forallb is_whitespace s = true.
Proof.
  intros Ht. destruct (drop_while_cases is_whitespace s) as [[? _]|(a & c & r & -> & _ & Hc)]; [done|].
  unfold trim in Ht. rewrite trim_cut in Ht by done. by destruct (trim_start_matches is_whitespace a).
Qed.

Lemma marker_name_ok line n :
  one_line line → strip_prefix (trim line) CRON_JOB_MARKER = Some n → name_ok (trim n).
Proof.
  intros Hl Hs%strip_prefix_Some. split_and!; [apply trim_trim| |].
  - intros Hn%trim_nil. pose proof (trim_trim line) as Ht. rewrite Hs in Ht. unfold trim in Ht.
    rewrite trim_matches_end in Ht by done. apply (f_equal length) in Ht. rewrite length_app in Ht.
    change (length (trim_matches is_whitespace CRON_JOB_MARKER)) with 22 in Ht.
    change (length CRON_JOB_MARKER) with 23 in Ht. lia.
  - apply trim_one_line. apply trim_one_line in Hl. rewrite Hs in Hl.
    exact (proj2 (proj1 (one_line_app _ _) Hl)).
Qed.

Lemma parse_cron_lines_ok ls p :
  Forall one_line ls → (∀ n, p = Some n → name_ok n) → Forall job_ok (parse_cron_lines ls p).
Proof.
  intros Hls. revert p. induction Hls as [|l ls Hl Hls IH]; intros p Hp; [constructor|].
  cbn [parse_cron_lines]. destruct (strip_prefix (trim l) CRON_JOB_MARKER) as [n|] eqn:Hs.
  { apply IH. intros ? [= <-]. by eapply marker_name_ok. }
  destruct (is_empty (trim l) || starts_with_char (trim l) $"#") eqn:Hc; [by apply IH|].
  apply orb_false_iff in Hc as [_ Hh]. destruct p as [n|]; [|by apply IH].
  destruct (parse_cron_entry n (trim l)) as [j|] eqn:Hj; [|by apply IH]. constructor; [|by apply IH].
  eapply parse_entry_ok; [by apply Hp|apply trim_trim|by apply trim_one_line|exact Hh|exact Hj].
Qed.

Lemma parse_cron_ok content : Forall job_ok (parse_cron content).
Proof.
  apply parse_cron_lines_ok; [|done]. apply Forall_forall. intros l. apply lines_one_line.
Qed.

Lemma omap_reparse_ok l : Forall job_ok l → omap reparse l = l.
Proof.
  induction 1 as [|j l [_ Hj] _ IH]; [done|]. cbn [omap list_omap]. rewrite Hj. f_equal. exact IH.
Qed.

(** Setting a job in a file: the other jobs read back unchanged, the new one as
    the parser sees it. *)
Lemma omap_set_job job jobs :
  Forall job_ok jobs →
  omap reparse (set_job job jobs)
  = match reparse job with
    | Some job' => upsert (λ j, str_eqb (name j) (name job)) (λ _, job') job' jobs
    | None => omap reparse (set_job job jobs)
    end.
Proof.
  intros Hjobs. destruct (reparse job) as [job'|] eqn:Hr; [|done]. unfold set_job.
  induction Hjobs as [|j jobs Hj Hjobs IH]; cbn [upsert].
  - cbn [omap list_omap]. by rewrite Hr.
  - destruct (str_eqb (name j) (name job)); cbn [omap list_omap].
    + rewrite Hr. f_equal. by apply omap_reparse_ok.
    + destruct Hj as [_ ->]. f_equal. exact IH.
Qed.
