(* ===== verification/ManagedHost.v ===== *)
(** * A host with managed files

    What the operations of [Grimoire] rely on ([cat], [tee], reloading), and what
    each of them does to the files of such a host. *)

From S2P Require Import Prelude Protocol Validators ValidatorTheorems InputTheorems Agent.
From S2P Require Import Grimoire TextLemmas GrimoireRoundTrip CronRoundTrip.

(** ** What the operations rely on

    [cat] prints a file and fails when there is none; [tee] replaces a file by
    its input; the reloading commands leave the files alone.  All of it holds
    with and without [sudo -n] in front. *)

Definition argv (sudo : bool) (program : rstr) (args : list rstr) : rstr * list rstr :=
  if sudo then (#"sudo", sudo_args program args) else (program, args).

Class ManagedFiles (World : Type) `{!Os World} := {
  files : World → gmap rstr rstr;
  cat_law : ∀ sudo path w, let a := argv sudo #"cat" [path] in
    files (execute a.1 a.2 None w).2 = files w ∧
    ∀ o, (execute a.1 a.2 None w).1 = Ok o →
      match files w !! path with
      | Some content => out_text o = content ∧ code o = Some 0%Z
      | None => code o ≠ Some 0%Z
      end;
  tee_law : ∀ sudo path content w o w', let a := argv sudo #"tee" [path] in
    execute a.1 a.2 (Some content) w = (Ok o, w') → code o = Some 0%Z →
    files w' = <[path := content]> (files w);
  reload_law : ∀ sudo program args w, let a := argv sudo program args in
    program ∈ [ #"sysctl"; #"mkdir"; #"systemctl"] → files (execute a.1 a.2 None w).2 = files w }.

Section host.
Context {World : Type} `{!Os World, !ManagedFiles World}.
Implicit Types st : AgentState World.

(** The text of a managed file; a missing file reads as empty. *)
Definition content (st : AgentState World) (path : rstr) : rstr := default [] (files (world st) !! path).

Lemma is_elevated_spec st : ∃ b st1, is_elevated st = (Ok b, st1) ∧ world st1 = world st.
Proof. unfold is_elevated. destruct (elevation st) as [[? ?]|]; [case_match|]; eauto. Qed.

Lemma run_command_spec program args st o st' :
  run_command program args st = (Ok o, st') →
  ∃ po, execute program args None (world st) = (Ok po, world st') ∧ code po = Some 0%Z.
Proof.
  unfold run_command, map_err, exec_process, finish, success, refuse, mbind, agent_bind.
  destruct (execute program args None (world st)) as [[po|e] w]; [|done].
  case_bool_decide; cbn; [|done]. intros [= <- <-]. by eauto.
Qed.

Lemma run_spec program args st o st' :
  run program args st = (Ok o, st') →
  ∃ sudo po, let a := argv sudo program args in execute a.1 a.2 None (world st) = (Ok po, world st').
Proof.
  unfold run. destruct (is_elevated_spec st) as (b & st1 & He & Hw). unfold mbind, agent_bind.
  rewrite He. intros Hr. exists b.
  destruct b; apply run_command_spec in Hr as (po & Hx & _); rewrite Hw in Hx; eauto.
Qed.

Lemma read_managed_file_spec path st c st' :
  read_managed_file path st = (Ok c, st') → c = content st path ∧ files (world st') = files (world st).
Proof.
  unfold read_managed_file, run_allow_failure, run_command_allow_failure.
  destruct (is_elevated_spec st) as (b & st1 & He & Hw). unfold mbind, agent_bind. rewrite He.
  set (a := argv b #"cat" [path]). pose proof (cat_law b path (world st)) as [Hf Ho]. fold a in Hf, Ho.
  assert ((if b then run_command_allow_failure #"sudo" (sudo_args #"cat" [path])
           else run_command_allow_failure #"cat" [path]) st1
          = run_command_allow_failure a.1 a.2 st1) as Heq by (unfold a; by destruct b).
  unfold run_command_allow_failure, mbind, agent_bind in Heq. rewrite Heq. clear Heq.
  unfold map_err, exec_process. rewrite Hw.
  destruct (execute a.1 a.2 None (world st)) as [[po|e] w]; [|done]. cbn in *.
  intros [= <- <-]. cbn. split; [|done]. specialize (Ho po eq_refl). unfold content.
  destruct (files (world st) !! path) as [text|]; cbn.
  - destruct Ho as [-> ->]. done.
  - by case_bool_decide.
Qed.

Lemma write_managed_file_spec path text st o st' :
  write_managed_file path text st = (Ok o, st') → files (world st') = <[path := text]> (files (world st)).
Proof.
  unfold write_managed_file, run_with_stdin. destruct (is_elevated_spec st) as (b & st1 & He & Hw).
  unfold mbind at 1, agent_bind at 1. rewrite He. set (a := argv b #"tee" [path]).
  assert ((if b then run_command_with_stdin #"sudo" (sudo_args #"tee" [path]) text
           else run_command_with_stdin #"tee" [path] text) st1
          = run_command_with_stdin a.1 a.2 text st1) as -> by (unfold a; by destruct b).
  unfold run_command_with_stdin, map_err, exec_process, finish, success, refuse, mbind, agent_bind.
  rewrite Hw. destruct (execute a.1 a.2 (Some text) (world st)) as [[po|e] w] eqn:Hx; [|done].
  case_bool_decide as Hc; cbn; [|done]. intros [= <- <-]. cbn. by eapply tee_law.
Qed.

Lemma run_reload_spec program args st o st' :
  run program args st = (Ok o, st') → program ∈ [ #"sysctl"; #"mkdir"; #"systemctl"] →
  files (world st') = files (world st).
Proof.
  intros (sudo & po & Hx)%run_spec Hp. pose proof (reload_law sudo program args (world st) Hp) as Hf.
  cbn zeta in *. by rewrite Hx in Hf.
Qed.

(** One entry of a managed file replaced, every other file untouched. *)
Definition rewrites (path : rstr) (text : rstr) (st st' : AgentState World) : Prop :=
  files (world st') = <[path := text]> (files (world st)).

Lemma rewrites_content path text st st' : rewrites path text st st' → content st' path = text.
Proof. unfold rewrites, content. intros ->. by rewrite lookup_insert_eq. Qed.

Lemma rewrites_frame path text st st' other :
  rewrites path text st st' → other ≠ path → content st' other = content st other.
Proof. unfold rewrites, content. intros -> Hne. by rewrite lookup_insert_ne. Qed.
End host.
Arguments content {World _ _} st path.
Arguments rewrites {World _ _} path text st st'.

(** Steps through an operation that returned an output. *)
Ltac agent_step :=
  repeat match goal with
  | H : (_ ≫= _) _ = (Ok _, _) |- _ => apply agent_bind_ok in H as (? & ? & ? & H)
  | H : check_or _ _ _ = (Ok _, _) |- _ => apply check_or_ok in H as [? ->]
  | H : validate_sysctl_key _ _ = (Ok _, _) |- _ => unfold validate_sysctl_key in H
  | H : validate_job_name _ _ = (Ok _, _) |- _ => unfold validate_job_name in H
  | H : read_managed_file _ _ = (Ok _, _) |- _ => apply read_managed_file_spec in H as [-> ?]
  | H : write_managed_file _ _ _ = (Ok _, _) |- _ => apply write_managed_file_spec in H
  | H : mret _ _ = (Ok _, _) |- _ => injection H as <- <-
  end.

(** ** Accepted values are writable *)

Lemma class_no_whitespace (f : char → bool) s :
  forallb f s = true → (∀ c, f c = true → is_whitespace c = false) → existsb is_whitespace s = false.
Proof.
  intros Hs Hf. apply not_true_iff_false. rewrite existsb_exists. intros (c & Hc%list_elem_of_In & Hw).
  rewrite forallb_elem in Hs. by rewrite (Hf c (Hs c Hc)) in Hw.
Qed.

Lemma alnum_not_whitespace c : is_ascii_alphanumeric c = true → is_whitespace c = false.
Proof.
  intros Hc%alphanumeric_range. unfold is_whitespace, in_range.
  rewrite !orb_false_iff, !andb_false_iff, !N.leb_gt, !N.eqb_neq. lia.
Qed.

Lemma no_control_one_line s : no_control s = true → one_line s.
Proof. intros Hs Hc. by apply (no_control_spec s Hs) in Hc. Qed.

Lemma no_whitespace_one_line s : existsb is_whitespace s = false → one_line s.
Proof.
  intros Hs Hc. apply not_true_iff_false in Hs. apply Hs, existsb_exists. exists 10%N.
  by rewrite <- list_elem_of_In.
Qed.

(** Names made of letters, digits and a set of other visible characters. *)
Lemma named_word set s :
  forallb (λ c, negb (is_whitespace c)) set = true → s ≠ [] →
  forallb (λ c, is_ascii_alphanumeric c || one_of set c) s = true → word s.
Proof.
  intros Hset Hne Hs. split; [done|]. eapply class_no_whitespace; [exact Hs|].
  intros c [?|Hc%char_mem_elem]%orb_true_iff; [by apply alnum_not_whitespace|].
  rewrite forallb_elem in Hset. by apply negb_true_iff, Hset.
Qed.

Lemma named_elem set s c :
  forallb (λ c, is_ascii_alphanumeric c || one_of set c) s = true →
  is_ascii_alphanumeric c || one_of set c = false → ¬ c ∈ s.
Proof. intros Hs Hc Hin. rewrite forallb_elem in Hs. by rewrite (Hs c Hin) in Hc. Qed.

Lemma sysctl_key_writable key value :
  is_valid_sysctl_key key = true → is_valid_sysctl_value value = true → kv_writable #"#" (key, value).
Proof.
  unfold is_valid_sysctl_key, is_valid_sysctl_value. intros Hk Hv. accepted.
  assert (word key) as Hw by (eapply named_word; [|by apply is_empty_false|eassumption]; done).
  split; [|by apply no_control_one_line]. unfold kv_ok. cbn [fst snd]. split_and!.
  - by apply word_trimmed.
  - apply trim_trim.
  - eapply named_elem; [eassumption|reflexivity].
  - apply no_whitespace_one_line, Hw.
  - by apply trim_one_line, no_control_one_line.
  - destruct key as [|c key]; [done|]. destruct (char_mem c #"#") eqn:Hc; [|done].
    apply char_mem_elem in Hc. apply (proj1 (list_elem_of_singleton _ _)) in Hc. subst c.
    by match goal with H : forallb _ _ = true |- _ => cbn [forallb] in H end.
Qed.

Lemma sysctl_set_rewrites {World : Type} `{!Os World, !ManagedFiles World} key value (st st' : AgentState World) o :
  set_persistent_sysctl key value st = (Ok o, st') →
  is_valid_sysctl_key key = true ∧ is_valid_sysctl_value value = true ∧
  rewrites SYSCTL_FILE (render_sysctl (set_entry key value (parse_sysctl (content st SYSCTL_FILE)))) st st'.
Proof.
  unfold set_persistent_sysctl. intros H. agent_step. split_and!; [done..|].
  match goal with Hr : run _ _ _ = _ |- _ =>
    apply run_reload_spec in Hr; [|apply list_elem_of_here] end.
  unfold rewrites. congruence.
Qed.

Lemma sysctl_written_back key value es :
  is_valid_sysctl_key key = true → is_valid_sysctl_value value = true → Forall (kv_ok #"#") es →
  parse_sysctl (render_sysctl (set_entry key value es)) = set_entry key (trim value) es.
Proof.
  intros Hk Hv Hes. rewrite parse_render_sysctl; [by apply (trim_values_set #"#")|].
  pose proof (sysctl_key_writable key value Hk Hv) as Hw.
  assert (Forall (λ e, kv_writable #"#" e ∧ kv_ok #"#" (e.1, trim value)) es
          → Forall (kv_writable #"#") (set_entry key value es)) as Hup.
  { intros H. unfold set_entry. induction H as [|e es' [He1 He2] _ IH]; cbn [upsert]; [by constructor|].
    inversion Hes; subst. destruct (str_eqb e.1 key).
    - constructor; [split; [exact He2|apply Hw]|]. eapply Forall_impl; [eassumption|]. apply kv_ok_writable.
    - constructor; [done|]. by apply IH. }
  apply Hup. eapply Forall_impl; [exact Hes|]. intros e He. split; [by apply kv_ok_writable|].
  destruct He as (? & ? & ? & ? & ? & ?), Hw as [(_ & ? & _ & _ & ? & _) _]. by split_and!.
Qed.

(** ** What the other operations write *)

Section rewriting.
Context {World : Type} `{!Os World, !ManagedFiles World}.
Implicit Types st : AgentState World.

Lemma sysctl_remove_rewrites key st st' o :
  remove_persistent_sysctl_key key st = (Ok o, st') →
  rewrites SYSCTL_FILE
    (render_sysctl (List.filter (λ e, negb (str_eqb e.1 key)) (parse_sysctl (content st SYSCTL_FILE)))) st st'.
Proof. unfold remove_persistent_sysctl_key. intros H. agent_step. unfold rewrites. congruence. Qed.

Lemma cron_set_rewrites n sch u c st st' o :
  set_cron_job n sch u c st = (Ok o, st') →
  is_valid_account_name n = true ∧ is_valid_cron_schedule sch = true ∧ is_valid_account_name u = true ∧
  is_valid_cron_command c = true ∧
  rewrites CRON_FILE (render_cron (set_job (mkJob n sch u c) (parse_cron (content st CRON_FILE)))) st st'.
Proof.
  unfold set_cron_job. intros H. agent_step. split_and!; [done..|]. unfold rewrites. congruence.
Qed.

Lemma cron_remove_rewrites n st st' o :
  remove_cron_job n st = (Ok o, st') →
  rewrites CRON_FILE
    (render_cron (List.filter (λ j, negb (str_eqb (name j) n)) (parse_cron (content st CRON_FILE)))) st st'.
Proof. unfold remove_cron_job. intros H. agent_step. unfold rewrites. congruence. Qed.

Lemma blacklist_rewrites m st st' o :
  blacklist_module m st = (Ok o, st') →
  is_valid_kernel_module_name m = true ∧
  let ms := parse_blacklist (content st MODPROBE_FILE) in
  rewrites MODPROBE_FILE (render_blacklist (if str_mem m ms then ms else ms ++ [m])) st st'.
Proof. unfold blacklist_module. intros H. agent_step. split; [done|]. cbn zeta. unfold rewrites. congruence. Qed.

Lemma unblacklist_rewrites m st st' o :
  remove_module_blacklist m st = (Ok o, st') →
  rewrites MODPROBE_FILE
    (render_blacklist (List.filter (λ x, negb (str_eqb x m)) (parse_blacklist (content st MODPROBE_FILE)))) st st'.
Proof. unfold remove_module_blacklist. intros H. agent_step. unfold rewrites. congruence. Qed.

Lemma journald_rewrites setting v st st' o :
  set_journald_retention setting v st = (Ok o, st') →
  is_valid_journald_value v = true ∧
  rewrites JOURNALD_FILE
    (render_journald (set_entry (Journald.key setting) v (parse_journald (content st JOURNALD_FILE)))) st st'.
Proof.
  unfold set_journald_retention, write_journald. intros H. agent_step. split; [done|].
  repeat match goal with Hr : run _ _ _ = _ |- _ =>
    apply run_reload_spec in Hr; [|rewrite !elem_of_cons; by auto] end.
  unfold rewrites. congruence.
Qed.
End rewriting.

(** Removing entries keeps what is left readable. *)
Lemma Forall_filter {A} (P : A → Prop) f (l : list A) : Forall P l → Forall P (List.filter f l).
Proof. induction 1 as [|x l Hx _ IH]; cbn; [done|]. case_match; [by constructor|done]. Qed.

(** ** Accepted cron jobs *)

Lemma account_name_word n : is_valid_account_name n = true → word n.
Proof.
  unfold is_valid_account_name. intros H. accepted. destruct n as [|c n]; [done|]. accepted.
  split; [done|].
  apply (class_no_whitespace (λ c, is_ascii_alphanumeric c || one_of #"_-" c)).
  - cbn [forallb]. apply andb_true_iff. split.
    + unfold is_ascii_alphanumeric, is_ascii_alphabetic.
      match goal with H : is_ascii_lowercase c || _ = true |- _ =>
        apply orb_true_iff in H as [->|Hc] end; [done|]. apply N.eqb_eq in Hc. by subst c.
    + apply forallb_elem. intros x Hx.
      match goal with H : forallb _ n = true |- _ => rewrite forallb_elem in H; specialize (H x Hx); revert H end.
      unfold is_ascii_alphanumeric, is_ascii_alphabetic.
      destruct (is_ascii_lowercase x), (is_ascii_digit x), (one_of #"_-" x);
        cbn [orb]; rewrite ?orb_true_r; done.
  - intros x [?|Hx%char_mem_elem]%orb_true_iff; [by apply alnum_not_whitespace|].
    apply (forallb_at (λ c, negb (is_whitespace c)) #"_-") in Hx; [by apply negb_true_iff|done].
Qed.

Lemma cron_schedule_chars sch c :
  is_valid_cron_schedule sch = true → c ∈ sch → is_control c = false ∧ c ≠ $"#".
Proof.
  unfold is_valid_cron_schedule. intros H Hc. accepted. destruct (strip_prefix sch #"@") as [r|] eqn:Hs.
  - apply strip_prefix_Some in Hs. subst sch. apply str_mem_elem in H.
    set (P := λ c, negb (is_control c) && negb (c =? $"#")%N).
    assert (P c = true) as Hp.
    { apply (forallb_at P (#"@" ++ r)); [|done]. rewrite !elem_of_cons, elem_of_nil in H.
      by destruct H as [->|[->|[->|[->|[->|[->|[->|[]]]]]]]]. }
    unfold P in Hp. apply andb_true_iff in Hp as [?%negb_true_iff Hn%negb_true_iff].
    split; [done|]. by apply N.eqb_neq.
  - apply (forallb_at _ _ c) in H; [|done]. split.
    + revert H. by apply alnum_or.
    + intros ->. done.
Qed.

Lemma split_whitespace_skip a s : forallb is_whitespace a = true → split_whitespace (a ++ s) = split_whitespace s.
Proof.
  induction a as [|c a IH]; [done|]. cbn [forallb]. intros [Hc Ha]%andb_true_iff.
  change ((c :: a) ++ s) with ([] ++ c :: (a ++ s)). rewrite split_whitespace_join by done. by apply IH.
Qed.

Lemma split_whitespace_blank b : forallb is_whitespace b = true → split_whitespace b = [].
Proof. intros Hb. rewrite <- (app_nil_r b). by rewrite split_whitespace_skip. Qed.

Lemma split_whitespace_trim s : split_whitespace (trim s) = split_whitespace s.
Proof.
  destruct (drop_while_dropped is_whitespace s) as (a & Hs & Ha). rewrite Hs at 2.
  rewrite split_whitespace_skip by done. unfold trim, trim_matches, trim_start_matches.
  destruct (trim_end_dropped is_whitespace (drop_while is_whitespace s)) as (b & Hd & Hb).
  rewrite Hd at 2. destruct b as [|c b]; [by rewrite app_nil_r|].
  apply andb_true_iff in Hb as [Hc Hb]. rewrite split_whitespace_join by done.
  by rewrite (split_whitespace_blank b Hb), app_nil_r.
Qed.

Lemma cron_job_writable n sch u c :
  is_valid_account_name n = true → is_valid_cron_schedule sch = true → is_valid_account_name u = true →
  is_valid_cron_command c = true → job_writable (mkJob n sch u c).
Proof.
  intros Hn Hs Hu Hc. pose proof (account_name_word n Hn) as Hnw. pose proof (account_name_word u Hu) as Huw.
  unfold is_valid_cron_command in Hc. accepted.
  assert (one_line sch) as Hsl by (intros Hin; by apply (cron_schedule_chars _ _ Hs) in Hin as [? _]).
  assert (one_line u) by apply no_whitespace_one_line, Huw.
  assert (trim (sch ++ #" " ++ u ++ #" " ++ c) ≠ [] ∧
          starts_with_char (trim (sch ++ #" " ++ u ++ #" " ++ c)) $"#" = false) as [Hne Hh].
  { destruct u as [|x u]; [by destruct Huw|].
    assert (is_whitespace x = false) as Hx.
    { apply not_true_iff_false. intros Hx. destruct Huw as [_ Huw]. cbn in Huw. by rewrite Hx in Huw. }
    unfold trim. rewrite app_assoc. cbn [app]. rewrite trim_cut by done.
    unfold trim_start_matches. destruct (drop_while_dropped is_whitespace (sch ++ #" ")) as (a & Ha & _).
    destruct (drop_while is_whitespace (sch ++ #" ")) as [|y l] eqn:Hd; cbn [app starts_with_char].
    - split; [done|]. apply N.eqb_neq. intros ->. unfold is_valid_account_name in Hu. by accepted.
    - split; [done|]. apply N.eqb_neq. intros ->.
      assert (($"#") ∈ sch ++ #" ") as [Hin|Hin]%elem_of_app by (rewrite Ha; set_solver).
      + by apply (cron_schedule_chars _ _ Hs) in Hin as [_ ?].
      + by apply (proj1 (list_elem_of_singleton _ _)) in Hin. }
  unfold job_writable, cron_line. cbn [name schedule user command]. split_and!; try done.
  - by apply word_trimmed.
  - apply Hnw.
  - apply no_whitespace_one_line, Hnw.
  - rewrite !one_line_app. split_and!; [done|by apply one_line_lit|done|by apply one_line_lit|].
    by apply no_control_one_line.
Qed.

(** A schedule with the number of fields cron reads. *)
Definition well_fielded (sch : rstr) : bool :=
  match split_whitespace sch with
  | (f :: _) as toks => length toks =? (if starts_with_char f $"@" then 1 else 5)
  | [] => false
  end.

(** A job with the runs of blanks in its schedule and command collapsed. *)
Definition squeeze (s : rstr) : rstr := join #" " (split_whitespace s).
Definition squeezed (j : CronJob) : CronJob :=
  mkJob (name j) (squeeze (schedule j)) (user j) (squeeze (command j)).

Lemma entry_of_tokens n line f t u cmd :
  split_whitespace line = (f :: t) ++ u :: cmd →
  length (f :: t) = (if starts_with_char f $"@" then 1 else 5) → cmd ≠ [] →
  parse_cron_entry n line = Some (mkJob n (join #" " (f :: t)) u (join #" " cmd)).
Proof.
  unfold parse_cron_entry. intros -> Hl Hc. cbn [app]. cbv zeta. rewrite <- Hl.
  change (f :: t ++ u :: cmd) with ((f :: t) ++ u :: cmd).
  destruct cmd as [|w ws]; [done|].
  rewrite (proj2 (Nat.ltb_ge _ _)) by (rewrite length_app; cbn [length]; lia).
  rewrite (list_lookup_middle (f :: t) (w :: ws) u _ eq_refl). cbn [mbind option_bind].
  rewrite take_app_length. do 2 f_equal. rewrite drop_app_ge by lia.
  by rewrite (Nat.add_comm _ 1), Nat.add_sub.
Qed.

Lemma reparse_squeezed j :
  word (user j) → well_fielded (schedule j) = true → split_whitespace (command j) ≠ [] →
  reparse j = Some (squeezed j).
Proof.
  intros Hu Hf Hc. unfold reparse, well_fielded in *.
  destruct (split_whitespace (schedule j)) as [|f toks] eqn:Hs; [done|]. apply Nat.eqb_eq in Hf.
  unfold squeezed, squeeze. rewrite Hs. apply entry_of_tokens; [|exact Hf|exact Hc].
  rewrite split_whitespace_trim. unfold cron_line.
  change (split_whitespace (schedule j ++ $" " :: (user j ++ $" " :: command j))
          = (f :: toks) ++ user j :: split_whitespace (command j)).
  rewrite !split_whitespace_join, (split_whitespace_word _ Hu), Hs by done. done.
Qed.
