(* ===== verification/AgentFixture.v ===== *)
(** * A host for the witnesses

    A file system, a clock and the commands the agent relies on: [cat], [tee],
    [mv] and [sudo -n]; every other command succeeds without an effect. *)

From S2P Require Import Prelude Agent ManagedHost.

Record HostWorld := mkHost { host_files : gmap rstr rstr; host_clock : N }.

Definition done_with (text : rstr) (w : HostWorld) : result rstr ProcessOutput * HostWorld :=
  (Ok (mkProcess text [] (Some 0%Z)), w).
Definition fails_with (text : rstr) (w : HostWorld) : result rstr ProcessOutput * HostWorld :=
  (Ok (mkProcess [] text (Some 1%Z)), w).

Definition host_command (program : rstr) (args : list rstr) (input : option rstr) (w : HostWorld) :
    result rstr ProcessOutput * HostWorld :=
  match args with
  | [path] =>
      if str_eqb program #"cat" then
        match host_files w !! path with
        | Some text => done_with text w
        | None => fails_with #"No such file or directory" w
        end
      else if str_eqb program #"tee" then
        match input with
        | Some text => done_with text (mkHost (<[path := text]> (host_files w)) (host_clock w))
        | None => done_with [] w
        end
      else done_with [] w
  | [src; dest] =>
      if str_eqb program #"mv" then
        match host_files w !! src with
        | Some text => done_with [] (mkHost (<[dest := text]> (delete src (host_files w))) (host_clock w))
        | None => fails_with #"No such file or directory" w
        end
      else done_with [] w
  | _ => done_with [] w
  end.

Definition host_execute (program : rstr) (args : list rstr) (input : option rstr) (w : HostWorld) :
    result rstr ProcessOutput * HostWorld :=
  match args with
  | flag :: command :: rest =>
      if str_eqb program #"sudo" && str_eqb flag #"-n" then host_command command rest input w
      else host_command program args input w
  | _ => host_command program args input w
  end.

#[export] Instance host_os : Os HostWorld := {
  execute := host_execute; now := host_clock; unix_time := λ w, (host_clock w / 1000000000)%N }.

Lemma host_argv sudo program args input w :
  str_eqb program #"sudo" = false →
  host_execute (argv sudo program args).1 (argv sudo program args).2 input w
  = host_command program args input w.
Proof.
  intros Hp. destruct sudo; [done|]. cbn. unfold host_execute.
  destruct args as [|? [|? ?]]; try done. by rewrite Hp.
Qed.

#[export] Instance host_managed : ManagedFiles HostWorld.
Proof.
  refine {| files := host_files |}.
  - intros sudo path w. cbn zeta. cbn [execute host_os]. rewrite host_argv by done.
    change (host_command #"cat" [path] None w) with
      (match host_files w !! path with
       | Some text => done_with text w
       | None => fails_with #"No such file or directory" w
       end).
    destruct (host_files w !! path); cbn; (split; [done|]); by intros o [= <-].
  - intros sudo path text w o w'. cbn zeta. cbn [execute host_os]. rewrite host_argv by done.
    change (host_command #"tee" [path] (Some text) w) with
      (done_with text (mkHost (<[path := text]> (host_files w)) (host_clock w))).
    by intros [= <- <-].
  - intros sudo program args w. cbn zeta. cbn [execute host_os]. intros Hp.
    assert (str_mem program [ #"sysctl"; #"mkdir"; #"systemctl"] = true) as Hm by (by apply str_mem_elem).
    rewrite !elem_of_cons, elem_of_nil in Hp.
    destruct Hp as [->|[->|[->|[]]]]; rewrite host_argv by done; clear;
      (destruct args as [|? [|? [|? ?]]]; try done).
Defined.
