(* ===== verification/Quarantine.v ===== *)
(** * Quarantine ([crates/agent/src/inquest.rs], [mod unix], and [shred.rs])

    A quarantined file is stored under a name that encodes where it came from;
    restoring takes the destination from that name and from nowhere else. *)

From S2P Require Import Prelude TextLemmas Percent Validators Agent.

Definition QUARANTINE_DIR : rstr := #"/var/lib/abyssal-arsenal/quarantine".

Definition quarantine_filename (timestamp : N) (path : rstr) : rstr :=
  fmt_N timestamp ++ #"__" ++ percent_encode path.
Definition in_quarantine (filename : rstr) : rstr := QUARANTINE_DIR ++ #"/" ++ filename.

(** [s.split_once("__")]. *)
Fixpoint split_once_str (p s : rstr) : option (rstr * rstr) :=
  match strip_prefix s p with
  | Some r => Some ([], r)
  | None =>
      match s with
      | [] => None
      | c :: s' => '(l, r) ← split_once_str p s'; Some (c :: l, r)
      end
  end.

Definition validate_passes (passes : N) : result rstr () :=
  if (MAX_SHRED_PASSES <? passes)%N
  then Err (#"refusing " ++ fmt_N passes ++ #" shred passes -- the maximum is " ++ fmt_N MAX_SHRED_PASSES)
  else Ok ().

Definition shred_args (path : rstr) (passes : N) : list rstr :=
  [ #"-f"; #"-n"; fmt_N passes; #"-u"; #"--"; path].

Section operations.
Context {World : Type} `{!Os World}.

Definition from_result {A} (r : result rstr A) : agent World A := λ st, (r, st).
Definition output_with (text : rstr) (output : OperationOutput) : OperationOutput :=
  mkOutput (text ++ [10%N] ++ stdout output) (stderr output) (exit_code output).

Definition quarantine_file (path : rstr) : agent World OperationOutput :=
  _ ← check_or (is_valid_absolute_path path) (#"refusing invalid path: " ++ path);
  _ ← map_err (λ e, #"failed to create " ++ QUARANTINE_DIR ++ #": " ++ e)
        (run #"mkdir" [ #"-p"; QUARANTINE_DIR]);
  timestamp ← gets (λ st, unix_time (world st));
  let filename := quarantine_filename timestamp path in
  output ← run #"mv" [path; in_quarantine filename];
  mret (output_with (#"Quarantined " ++ path ++ #" as " ++ filename ++ #".") output).

(** The destination a quarantine name stands for. *)
Definition restore_destination (filename : rstr) : result rstr rstr :=
  if negb (is_valid_quarantine_filename filename)
  then Err (#"refusing invalid quarantine filename: " ++ filename)
  else match split_once_str #"__" filename with
       | None => Err (#"malformed quarantine filename: " ++ filename)
       | Some (_, encoded_path) =>
           original_path ← percent_decode encoded_path;
           if negb (is_valid_absolute_path original_path)
           then Err (#"decoded restore path looks invalid: " ++ original_path)
           else Ok original_path
       end.

Definition restore_quarantined_file (filename : rstr) : agent World OperationOutput :=
  original_path ← from_result (restore_destination filename);
  output ← run #"mv" [in_quarantine filename; original_path];
  mret (output_with (#"Restored " ++ filename ++ #" to " ++ original_path ++ #".") output).

Definition delete_quarantined_file (filename : rstr) (shred_passes : N) : agent World OperationOutput :=
  _ ← check_or (is_valid_quarantine_filename filename)
        (#"refusing invalid quarantine filename: " ++ filename);
  _ ← from_result (validate_passes shred_passes);
  let path := in_quarantine filename in
  output ← (if (shred_passes =? 0)%N then run #"rm" [ #"-f"; path]
            else run #"shred" (shred_args path shred_passes));
  mret (output_with (shred_verb shred_passes ++ #" quarantined file " ++ filename ++ #".") output).
End operations.

(** ** Names *)

(** The separator is the first double underscore: a decimal number has none. *)
Lemma split_once_str_digits ds r :
  (∀ c, c ∈ ds → is_ascii_digit c = true) → split_once_str #"__" (ds ++ #"__" ++ r) = Some (ds, r).
Proof.
  induction ds as [|d ds IH]; intros Hd.
  - cbn [app]. destruct r; reflexivity.
  - assert (strip_prefix ((d :: ds) ++ #"__" ++ r) #"__" = None) as Hn.
    { destruct (strip_prefix _ _) as [x|] eqn:Hs; [|done]. apply strip_prefix_Some in Hs.
      injection Hs as -> _. specialize (Hd _ (list_elem_of_here _ _)). done. }
    cbn [app split_once_str]. cbn [app] in Hn. rewrite Hn, IH; [done|].
    intros c Hc. by apply Hd, list_elem_of_further.
Qed.

(** ** Claims about quarantine *)

From S2P Require Import Prelude Percent Validators ValidatorTheorems InputTheorems Agent.
From S2P Require Import ManagedHost AgentFixture.

(** ** Double dots survive the encoding, and only they do *)

Lemma contains_skip c s : c ≠ $"." → contains (c :: s) #".." = contains s #"..".
Proof.
  intros Hc. cbn [contains]. destruct (starts_with (c :: s) #"..") eqn:Hs; [|done].
  apply starts_with_true in Hs as [r Hr]. by injection Hr.
Qed.

Lemma contains_skip_all a s : (∀ c, c ∈ a → c ≠ $".") → contains (a ++ s) #".." = contains s #"..".
Proof.
  induction a as [|c a IH]; intros Ha; [done|]. cbn [app].
  rewrite contains_skip by apply Ha, list_elem_of_here. apply IH. intros x Hx. by apply Ha, list_elem_of_further.
Qed.

Lemma starts_dotdot s : starts_with ($"." :: s) #".." = starts_with_char s $".".
Proof.
  apply Bool.eq_iff_eq_true. rewrite starts_with_true. destruct s as [|c s]; cbn.
  - split; [intros [r Hr]; discriminate Hr|done].
  - rewrite N.eqb_eq. split; [by intros [r [= -> _]]|]. intros ->. by exists s.
Qed.

Lemma contains_dot s : contains ($"." :: s) #".." = starts_with_char s $"." || contains s #"..".
Proof. cbn [contains]. by rewrite starts_dotdot. Qed.

Lemma hex_upper_not_dot d : (d < 16)%N → hex_upper d ≠ $".".
Proof. intros Hd. unfold hex_upper. change ($".") with 46%N. case_match; bool_prop; lia. Qed.

Lemma encode_byte_dot b :
  (b < 256)%N → b = $"." ∧ encode_byte b = [ $"."] ∨
  (b ≠ $"." ∧ (∀ c, c ∈ encode_byte b → c ≠ $".") ∧ encode_byte b ≠ []).
Proof.
  intros Hb. destruct (N.eq_dec b $".") as [->|Hne]; [by left|right]. split; [done|].
  unfold encode_byte. destruct (unreserved b).
  - split; [|done]. intros c Hc%(proj1 (list_elem_of_singleton _ _)). by subst.
  - split; [|done]. intros c. rewrite !elem_of_cons, elem_of_nil.
    intros [->|[->|[->|[]]]]; [done|apply hex_upper_not_dot..].
    + apply N.Div0.div_lt_upper_bound. lia.
    + by apply N.mod_lt.
Qed.

Lemma encode_dotdot bs :
  Forall (λ b, b < 256)%N bs →
  contains (encode_bytes bs) #".." = contains bs #".." ∧
  starts_with_char (encode_bytes bs) $"." = starts_with_char bs $".".
Proof.
  induction 1 as [|b bs Hb _ [IH1 IH2]]; [done|]. cbn [encode_bytes].
  destruct (encode_byte_dot b Hb) as [[-> ->]|(Hne & Hall & Hnil)].
  - cbn [app]. rewrite !contains_dot, IH1, IH2. done.
  - rewrite contains_skip_all, contains_skip by done. split; [done|].
    destruct (encode_byte b) as [|c l]; [done|]. cbn. apply N.eqb_neq in Hne. rewrite Hne.
    apply N.eqb_neq, Hall, list_elem_of_here.
Qed.

Lemma utf8_dot c : c = $"." ∧ utf8 c = [ $"."] ∨ c ≠ $"." ∧ (∀ b, b ∈ utf8 c → b ≠ $".") ∧ utf8 c ≠ [].
Proof.
  destruct (N.eq_dec c $".") as [->|Hne]; [by left|right]. split; [done|]. unfold utf8.
  destruct (N.ltb_spec c 128); [split; [|done]; intros b Hb%(proj1 (list_elem_of_singleton _ _)); by subst|].
  change ($".") with 46%N.
  repeat case_match; (split; [|done]); intros b; rewrite !elem_of_cons, elem_of_nil;
    intros Hb; repeat destruct Hb as [->|Hb]; try done;
    apply N.neq_sym, N.lt_neq; (eapply N.lt_le_trans; [|apply N.le_add_r]; done).
Qed.

Lemma bytes_dotdot s :
  contains (bytes s) #".." = contains s #".." ∧
  starts_with_char (bytes s) $"." = starts_with_char s $".".
Proof.
  induction s as [|c s [IH1 IH2]]; [done|]. cbn [bytes].
  destruct (utf8_dot c) as [[-> ->]|(Hne & Hall & Hnil)].
  - cbn [app]. rewrite !contains_dot, IH1, IH2. done.
  - rewrite contains_skip_all, contains_skip by done. split; [done|].
    destruct (utf8 c) as [|b l]; [done|]. cbn. apply N.eqb_neq in Hne. rewrite Hne.
    apply N.eqb_neq, Hall, list_elem_of_here.
Qed.

Lemma percent_encode_dotdot s : Forall scalar s → contains (percent_encode s) #".." = contains s #"..".
Proof.
  intros Hs. unfold percent_encode. rewrite (proj1 (encode_dotdot _ (bytes_byte s Hs))). apply bytes_dotdot.
Qed.

(** ** The characters of a quarantine name *)

Definition name_char (c : char) : Prop := unreserved c = true ∨ c = $"%".

Lemma quarantine_name_chars t path c :
  Forall scalar path → c ∈ quarantine_filename t path → name_char c.
Proof.
  intros Hp. unfold quarantine_filename. intros [Hc|[Hc|Hc]%elem_of_app]%elem_of_app.
  - left. unfold unreserved, is_ascii_alphanumeric. apply fmt_N_digit in Hc. rewrite Hc. by rewrite orb_true_r.
  - left. by apply (forallb_at unreserved #"__" c).
  - unfold percent_encode in Hc. by apply (encode_bytes_class (bytes path)); [apply bytes_byte|].
Qed.

Lemma name_char_safe c :
  name_char c → c ≠ $"/" ∧ c ≠ 92%N ∧ is_control c = false.
Proof.
  intros [Hc| ->]; [|done]. unfold unreserved in Hc. apply orb_true_iff in Hc as [Hc|Hc%char_mem_elem].
  - split_and!; [by intros ->..|by apply alphanumeric_not_control].
  - rewrite !elem_of_cons, elem_of_nil in Hc. by destruct Hc as [->|[->|[->|[->|[]]]]].
Qed.

Lemma not_contains_char s c : (∀ x, x ∈ s → x ≠ c) → contains_char s c = false.
Proof. intros Hs. apply not_true_iff_false. rewrite contains_char_elem. intros Hc. by apply (Hs c). Qed.

Lemma digits_not_dot t c : c ∈ fmt_N t ++ #"__" → c ≠ $".".
Proof.
  intros [Hc|Hc]%elem_of_app ->; [by apply fmt_N_digit in Hc|].
  by apply (forallb_at (λ c, negb (c =? $".")%N) #"__") in Hc.
Qed.

Lemma quarantine_name_valid t path :
  Forall scalar path → contains path #".." = false →
  (N.of_nat (len (quarantine_filename t path)) <=? 4096)%N = true →
  is_valid_quarantine_filename (quarantine_filename t path) = true.
Proof.
  intros Hs Hd Hl. unfold is_valid_quarantine_filename. rewrite Hl.
  assert (∀ c, c ∈ quarantine_filename t path → c ≠ $"/" ∧ c ≠ 92%N ∧ is_control c = false) as Hc.
  { intros c Hc. by eapply name_char_safe, quarantine_name_chars. }
  rewrite !not_contains_char by (intros c Hin; by apply Hc). cbn [negb andb].
  assert (contains (quarantine_filename t path) #".." = false) as ->.
  { unfold quarantine_filename. rewrite app_assoc, contains_skip_all by apply digits_not_dot.
    by rewrite percent_encode_dotdot. }
  assert (is_empty (quarantine_filename t path) = false) as ->.
  { unfold quarantine_filename. by destruct (fmt_N t). }
  cbn. apply forallb_elem. intros c Hin. by destruct (Hc c Hin) as (_ & _ & ->).
Qed.

Lemma restore_destination_name t path :
  is_valid_absolute_path path = true → Forall scalar path → contains path #".." = false →
  (N.of_nat (len (quarantine_filename t path)) <=? 4096)%N = true →
  restore_destination (quarantine_filename t path) = Ok path.
Proof.
  intros Hv Hs Hd Hl. unfold restore_destination. rewrite quarantine_name_valid by done. cbn [negb].
  unfold quarantine_filename. rewrite split_once_str_digits by apply fmt_N_digit.
  rewrite percent_round_trip by done. cbn [mbind result_bind]. by rewrite Hv.
Qed.

(** The quarantine name of a file determines where it is restored to, exactly: for an accepted
    path without a double dot whose name fits, the name is accepted, it is one entry of the quarantine
    directory, and restoring it goes to the original path. *)
Theorem quarantine_name_round_trip (t : N) (path : rstr) :
  is_valid_absolute_path path = true → Forall scalar path → contains path #".." = false →
  (N.of_nat (len (quarantine_filename t path)) <=? 4096)%N = true →
  restore_destination (quarantine_filename t path) = Ok path ∧
  resolve (in_quarantine (quarantine_filename t path))
  = resolve QUARANTINE_DIR ++ [quarantine_filename t path].
Proof.
  intros Hv Hs Hd Hl. split; [by apply restore_destination_name|]. unfold in_quarantine.
  pose proof (quarantine_name_chars t path) as Hc.
  assert (∀ s : rstr, ($"_") ∉ s → quarantine_filename t path ≠ s) as Hne.
  { intros s Hus <-. apply Hus. unfold quarantine_filename.
    apply elem_of_app. right. apply elem_of_app. left. apply list_elem_of_here. }
  apply resolve_join.
  - apply not_contains_char. intros c Hin. by apply name_char_safe, (Hc c Hs).
  - apply Hne. apply not_elem_of_nil.
  - apply Hne. apply (bool_decide_eq_true_1 _). reflexivity.
  - apply Hne. apply (bool_decide_eq_true_1 _). reflexivity.
Qed.

Lemma quarantine_name_round_trip_witness :
  restore_destination #"1700000000__%2Fsrv%2Fna%C3%AFve%20file.bin" = Ok (#"/srv/na" ++ [239%N] ++ #"ve file.bin").
Proof.
  refine (proj1 (quarantine_name_round_trip 1700000000 (#"/srv/na" ++ [239%N] ++ #"ve file.bin") eq_refl _ eq_refl eq_refl)).
  apply Forall_forall. intros c Hc. left.
  apply N.lt_trans with 256%N; [|done]. apply N.ltb_lt.
  exact (forallb_at (λ c, c <? 256)%N (#"/srv/na" ++ [239%N] ++ #"ve file.bin") c eq_refl Hc).
Defined.

(** ** On a host *)

(** [mv] moves a file that exists and fails otherwise. *)
Class MovesFiles (World : Type) `{!Os World, !ManagedFiles World} :=
  mv_law : ∀ sudo src dest w o w', let a := argv sudo #"mv" [src; dest] in
    execute a.1 a.2 None w = (Ok o, w') → code o = Some 0%Z →
    ∃ text, files w !! src = Some text ∧ files w' = <[dest := text]> (delete src (files w)).

#[export] Instance host_moves : MovesFiles HostWorld.
Proof.
  intros sudo src dest w o w'. cbn zeta. cbn [execute host_os]. rewrite host_argv by done.
  change (host_command #"mv" [src; dest] None w) with
    (match host_files w !! src with
     | Some text => done_with [] (mkHost (<[dest := text]> (delete src (host_files w))) (host_clock w))
     | None => fails_with #"No such file or directory" w
     end).
  cbn [files host_managed]. destruct (host_files w !! src) as [text|]; [|by intros [= <- <-]].
  intros [= <- <-] _. by exists text.
Qed.

Section moving.
Context {World : Type} `{!Os World, !ManagedFiles World, !MovesFiles World}.
Implicit Types st : AgentState World.

Lemma run_success program args st o st' :
  run program args st = (Ok o, st') →
  ∃ sudo po, let a := argv sudo program args in
    execute a.1 a.2 None (world st) = (Ok po, world st') ∧ code po = Some 0%Z.
Proof.
  unfold run. destruct (is_elevated_spec st) as (b & st1 & He & Hw). unfold mbind, agent_bind.
  rewrite He. intros Hr. exists b. destruct b; apply run_command_spec in Hr; by rewrite Hw in Hr.
Qed.

Lemma run_mv_spec src dest st o st' :
  run #"mv" [src; dest] st = (Ok o, st') →
  ∃ text, files (world st) !! src = Some text ∧
    files (world st') = <[dest := text]> (delete src (files (world st))).
Proof. intros (sudo & po & Hx & Hc)%run_success. by eapply mv_law. Qed.

Lemma quarantine_file_spec path st o st' :
  quarantine_file path st = (Ok o, st') →
  is_valid_absolute_path path = true ∧
  ∃ t text, files (world st) !! path = Some text ∧
    files (world st') = <[in_quarantine (quarantine_filename t path) := text]> (delete path (files (world st))).
Proof.
  unfold quarantine_file. intros H. agent_step. split; [done|].
  match goal with Hm : map_err _ _ _ = _ |- _ => unfold map_err in Hm end.
  destruct (run #"mkdir" [ #"-p"; QUARANTINE_DIR] st) as [[o1|e1] st1] eqn:Hmk; [|done].
  apply run_reload_spec in Hmk; [|rewrite !elem_of_cons; by auto]. simplify_eq.
  match goal with Hg : gets _ _ = _ |- _ => unfold gets in Hg; injection Hg as <- <- end.
  match goal with Hr : run #"mv" _ _ = _ |- _ => apply run_mv_spec in Hr as (text & Hl & Hf) end.
  rewrite Hmk in Hl, Hf. by eauto.
Qed.

(** C29: Restoring a quarantined file undoes the quarantine: after both operations succeeded the
    host's files are exactly what they were. *)
Theorem quarantine_then_restore path st st1 st2 (o1 o2 : OperationOutput) t :
  quarantine_file path st = (Ok o1, st1) →
  files (world st1) !! in_quarantine (quarantine_filename t path) = files (world st) !! path →
  files (world st) !! in_quarantine (quarantine_filename t path) = None →
  Forall scalar path → contains path #".." = false →
  (N.of_nat (len (quarantine_filename t path)) <=? 4096)%N = true →
  restore_quarantined_file (quarantine_filename t path) st1 = (Ok o2, st2) →
  files (world st2) = files (world st).
Proof.
  intros (Hv & t' & text & Hl & Hf)%quarantine_file_spec Hin Hfresh Hs Hd Hlen Hr.
  unfold restore_quarantined_file in Hr. agent_step.
  match goal with H : from_result _ _ = _ |- _ => unfold from_result in H; rewrite restore_destination_name in H by done;
    injection H as <- <- end.
  match goal with H : run #"mv" _ _ = _ |- _ => apply run_mv_spec in H as (text2 & Hl2 & ->) end.
  rewrite Hl2, Hl in Hin. injection Hin as ->.
  set (q := in_quarantine (quarantine_filename t path)) in *.
  set (q' := in_quarantine (quarantine_filename t' path)) in *.
  rewrite Hf in Hl2 |- *. destruct (decide (q = q')) as [<-|Hne].
  - rewrite delete_insert_id.
    + by rewrite insert_delete_id.
    + rewrite lookup_delete_ne; [done|]. intros Heq. congruence.
  - rewrite lookup_insert_ne in Hl2 by done. destruct (decide (q = path)) as [Heq|Hp].
    + rewrite Heq, lookup_delete_eq in Hl2. done.
    + rewrite lookup_delete_ne in Hl2 by done. congruence.
Qed.
End moving.

Definition infected_host : AgentState HostWorld :=
  mkAgent (mkHost {[ #"/srv/upload.exe" := #"MZ" ]} 1700000000000000000) None.

Lemma quarantine_then_restore_witness :
  let r1 := quarantine_file #"/srv/upload.exe" infected_host in
  let r2 := restore_quarantined_file #"1700000000__%2Fsrv%2Fupload.exe" r1.2 in
  files (world r2.2) = files (world infected_host).
Proof.
  cbv zeta. set (r1 := quarantine_file #"/srv/upload.exe" infected_host).
  set (r2 := restore_quarantined_file #"1700000000__%2Fsrv%2Fupload.exe" r1.2).
  assert (∃ o, r1 = (Ok o, r1.2)) as [o1 H1] by (vm_compute; eexists; reflexivity).
  assert (∃ o, r2 = (Ok o, r2.2)) as [o2 H2] by (vm_compute; eexists; reflexivity).
  refine (quarantine_then_restore #"/srv/upload.exe" infected_host r1.2 r2.2 o1 o2 1700000000 H1 _ _ _ eq_refl eq_refl H2).
  - vm_compute. reflexivity.
  - vm_compute. reflexivity.
  - apply Forall_forall. intros c Hc. left. apply N.lt_trans with 128%N; [|done].
    exact (ascii_b_true #"/srv/upload.exe" eq_refl c Hc).
Defined.
