(* ===== verification/GrimoireTheorems.v ===== *)
(** * Claims about the agent's managed files and its elevation window, and where it falls short *)

From S2P Require Import Prelude Protocol Validators ValidatorTheorems InputTheorems Agent.
From S2P Require Import Grimoire TextLemmas GrimoireRoundTrip CronRoundTrip ManagedHost.
From S2P Require Import Percent AgentFixture Quarantine.

(** A kernel parameter set through the agent is in the managed file afterwards: whatever the file
    held before, its entries are the old ones with that key's value replaced or added, and no other
    managed file changed. *)
Theorem sysctl_set_exact {World : Type} `{!Os World, !ManagedFiles World}
    (key value : rstr) (st st' : AgentState World) (o : OperationOutput) :
  set_persistent_sysctl key value st = (Ok o, st') →
  parse_sysctl (content st' SYSCTL_FILE) = set_entry key (trim value) (parse_sysctl (content st SYSCTL_FILE)) ∧
  ∀ other, other ≠ SYSCTL_FILE → content st' other = content st other.
Proof.
  intros (Hk & Hv & Hr)%sysctl_set_rewrites. split.
  - rewrite (rewrites_content _ _ _ _ Hr). apply sysctl_written_back; [done..|apply parse_sysctl_ok].
  - intros other. by apply (rewrites_frame _ _ _ _ _ Hr).
Qed.

(** A host whose managed kernel parameters were edited by hand. *)
Definition sysctl_world : HostWorld :=
  mkHost {[ SYSCTL_FILE := unlines [ #"# by hand"; #"  vm.swappiness=60 "; #"net.ipv4.ip_forward = 0"] ]} 0.

Lemma sysctl_set_exact_witness :
  let st' := (set_persistent_sysctl #"vm.swappiness" #" 10 " (mkAgent sysctl_world None)).2 in
  parse_sysctl (content st' SYSCTL_FILE)
  = [(#"vm.swappiness", #"10"); (#"net.ipv4.ip_forward", #"0")].
Proof.
  cbv zeta.
  set (r := set_persistent_sysctl #"vm.swappiness" #" 10 " (mkAgent sysctl_world None)).
  assert (r = (Ok (mkOutput (#"Set vm.swappiness =  10  and applied it." ++ newline) [] (Some 0%Z)), r.2))
    as Hr by (vm_compute; reflexivity).
  rewrite (proj1 (sysctl_set_exact #"vm.swappiness" #" 10 " (mkAgent sysctl_world None) r.2 _ Hr)).
  vm_compute. reflexivity.
Defined.

(** C28: Rewriting a managed file never loses or changes an entry it can read: for each of the four
    formats, rendering what was parsed from any text parses to the same entries. *)
Theorem managed_files_stable (text : rstr) :
  parse_sysctl (render_sysctl (parse_sysctl text)) = parse_sysctl text ∧
  parse_journald (render_journald (parse_journald text)) = parse_journald text ∧
  parse_blacklist (render_blacklist (parse_blacklist text)) = parse_blacklist text ∧
  parse_cron (render_cron (parse_cron text)) = parse_cron text.
Proof.
  split_and!.
  - rewrite parse_render_sysctl; [apply (trim_values_ok #"#"), parse_sysctl_ok|].
    eapply Forall_impl; [apply parse_sysctl_ok|apply kv_ok_writable].
  - rewrite parse_render_journald; [apply (trim_values_ok #"#["), parse_journald_ok|].
    eapply Forall_impl; [apply parse_journald_ok|apply kv_ok_writable].
  - apply parse_render_blacklist, parse_blacklist_ok.
  - rewrite parse_render_cron.
    + apply omap_reparse_ok, parse_cron_ok.
    + eapply Forall_impl; [apply parse_cron_ok|by intros j []].
Qed.

(** A scheduled task set through the agent is in the managed file afterwards and every other task
    is kept: when the schedule has cron's number of fields and the command is not blank, the file's
    tasks are the old ones with that task replaced or added, its blanks collapsed. *)
Theorem cron_set_exact {World : Type} `{!Os World, !ManagedFiles World}
    (n sch u c : rstr) (st st' : AgentState World) (o : OperationOutput) :
  set_cron_job n sch u c st = (Ok o, st') → well_fielded sch = true → split_whitespace c ≠ [] →
  parse_cron (content st' CRON_FILE)
  = set_job (mkJob n (squeeze sch) u (squeeze c)) (parse_cron (content st CRON_FILE)).
Proof.
  intros (Hn & Hs & Hu & Hc & Hr)%cron_set_rewrites Hf Hne. rewrite (rewrites_content _ _ _ _ Hr).
  rewrite parse_render_cron.
  - rewrite omap_set_job by apply parse_cron_ok.
    by rewrite reparse_squeezed by (by apply account_name_word || done).
  - apply upsert_Forall; [|by apply cron_job_writable|intros _ _; by apply cron_job_writable].
    eapply Forall_impl; [apply parse_cron_ok|by intros j []].
Qed.

Definition cron_world : HostWorld :=
  mkHost {[ CRON_FILE := render_cron [mkJob #"rotate" #"0 3 * * *" #"root" #"/usr/sbin/logrotate /etc/logrotate.conf"] ]} 0.

Lemma cron_set_exact_witness :
  let st' := (set_cron_job #"backup" #"@daily" #"backup" #"/usr/bin/backup  --all" (mkAgent cron_world None)).2 in
  parse_cron (content st' CRON_FILE)
  = [mkJob #"rotate" #"0 3 * * *" #"root" #"/usr/sbin/logrotate /etc/logrotate.conf";
     mkJob #"backup" #"@daily" #"backup" #"/usr/bin/backup --all"].
Proof.
  cbv zeta.
  set (r := set_cron_job #"backup" #"@daily" #"backup" #"/usr/bin/backup  --all" (mkAgent cron_world None)).
  assert (∃ o, r = (Ok o, r.2)) as [o Hr] by (vm_compute; eexists; reflexivity).
  rewrite (cron_set_exact _ _ _ _ _ r.2 o Hr); [vm_compute; reflexivity|reflexivity|vm_compute; discriminate].
Defined.

(** Removing a kernel parameter or a scheduled task removes the entries of that name and keeps
    every other one. *)
Theorem managed_removal_exact {World : Type} `{!Os World, !ManagedFiles World}
    (key : rstr) (st st' : AgentState World) (o : OperationOutput) :
  (remove_persistent_sysctl_key key st = (Ok o, st') →
   parse_sysctl (content st' SYSCTL_FILE)
   = List.filter (λ e, negb (str_eqb e.1 key)) (parse_sysctl (content st SYSCTL_FILE))) ∧
  (remove_cron_job key st = (Ok o, st') →
   parse_cron (content st' CRON_FILE)
   = List.filter (λ j, negb (str_eqb (name j) key)) (parse_cron (content st CRON_FILE))).
Proof.
  split.
  - intros Hr%sysctl_remove_rewrites. rewrite (rewrites_content _ _ _ _ Hr).
    rewrite parse_render_sysctl.
    + apply (trim_values_ok #"#"), Forall_filter, parse_sysctl_ok.
    + eapply Forall_impl; [apply Forall_filter, parse_sysctl_ok|apply kv_ok_writable].
  - intros Hr%cron_remove_rewrites. rewrite (rewrites_content _ _ _ _ Hr), parse_render_cron.
    + apply omap_reparse_ok, Forall_filter, parse_cron_ok.
    + eapply Forall_impl; [apply Forall_filter, parse_cron_ok|by intros j []].
Qed.

Lemma managed_removal_exact_witness :
  let st' := (remove_persistent_sysctl_key #"vm.swappiness" (mkAgent sysctl_world None)).2 in
  parse_sysctl (content st' SYSCTL_FILE) = [(#"net.ipv4.ip_forward", #"0")].
Proof.
  cbv zeta. set (r := remove_persistent_sysctl_key #"vm.swappiness" (mkAgent sysctl_world None)).
  assert (∃ o, r = (Ok o, r.2)) as [o Hr] by (vm_compute; eexists; reflexivity).
  rewrite (proj1 (managed_removal_exact #"vm.swappiness" _ r.2 o) Hr). vm_compute. reflexivity.
Defined.

Lemma module_name_ok m : is_valid_kernel_module_name m = true → module_ok m.
Proof.
  unfold is_valid_kernel_module_name. intros H. accepted.
  assert (word m) as Hw by (eapply named_word; [|by apply is_empty_false|eassumption]; done).
  split_and!; [by apply word_trimmed|apply Hw|apply no_whitespace_one_line, Hw].
Qed.

(** Blacklisting a kernel module adds it once, keeps the rest in order, and removing it afterwards
    leaves every other module listed and this one not. *)
Theorem blacklist_exact {World : Type} `{!Os World, !ManagedFiles World}
    (m : rstr) (st st' st'' : AgentState World) (o o' : OperationOutput) :
  blacklist_module m st = (Ok o, st') → remove_module_blacklist m st' = (Ok o', st'') →
  parse_blacklist (content st' MODPROBE_FILE)
  = (let ms := parse_blacklist (content st MODPROBE_FILE) in if str_mem m ms then ms else ms ++ [m]) ∧
  parse_blacklist (content st'' MODPROBE_FILE)
  = List.filter (λ x, negb (str_eqb x m)) (parse_blacklist (content st MODPROBE_FILE)).
Proof.
  intros [Hm Hr]%blacklist_rewrites Hr'%unblacklist_rewrites. cbn zeta in *.
  pose proof (parse_blacklist_ok (content st MODPROBE_FILE)) as Hok.
  set (ms := parse_blacklist (content st MODPROBE_FILE)) in *.
  assert (parse_blacklist (content st' MODPROBE_FILE) = if str_mem m ms then ms else ms ++ [m]) as Hadd.
  { rewrite (rewrites_content _ _ _ _ Hr). apply parse_render_blacklist. case_match; [done|].
    apply Forall_app. split; [done|]. apply Forall_singleton. by apply module_name_ok. }
  split; [done|]. rewrite (rewrites_content _ _ _ _ Hr'), Hadd.
  destruct (str_mem m ms); [by apply parse_render_blacklist, Forall_filter|].
  rewrite List.filter_app. cbn [List.filter]. rewrite (proj2 (str_eqb_eq m m) eq_refl). cbn [negb].
  rewrite app_nil_r. by apply parse_render_blacklist, Forall_filter.
Qed.

Lemma blacklist_exact_witness :
  let r := blacklist_module #"usb_storage" (mkAgent (mkHost ∅ 0) None) in
  let r' := remove_module_blacklist #"usb_storage" r.2 in
  parse_blacklist (content r.2 MODPROBE_FILE) = [ #"usb_storage"] ∧
  parse_blacklist (content r'.2 MODPROBE_FILE) = [].
Proof.
  cbv zeta. set (r := blacklist_module #"usb_storage" (mkAgent (mkHost ∅ 0) None)).
  set (r' := remove_module_blacklist #"usb_storage" r.2).
  assert (∃ o, r = (Ok o, r.2)) as [o H] by (vm_compute; eexists; reflexivity).
  assert (∃ o, r' = (Ok o, r'.2)) as [o' H'] by (vm_compute; eexists; reflexivity).
  destruct (blacklist_exact #"usb_storage" _ _ _ o o' H H') as [-> ->]. split; vm_compute; reflexivity.
Defined.

(** * Where the agent does not do what it means to

    Each theorem runs the code on an input it accepts and shows the outcome the
    surrounding code or its documentation rules out. *)

(** A schedule with too few fields is accepted and written, and the task is silently gone after the
    next write: four fields pass the check, the parser then reads the user as the fifth field and the
    command as the user, and drops the task when another one is set. *)
Theorem cron_short_schedule_lost :
  let st0 := mkAgent (mkHost ∅ 0) None in
  let r1 := set_cron_job #"probe" #"* * * *" #"root" #"/bin/probe" st0 in
  let r2 := set_cron_job #"other" #"@daily" #"root" #"/bin/other" r1.2 in
  is_valid_cron_schedule #"* * * *" = true ∧ is_ok r1.1 = true ∧ is_ok r2.1 = true ∧
  parse_cron (content r2.2 CRON_FILE) = [mkJob #"other" #"@daily" #"root" #"/bin/other"].
Proof. vm_compute. repeat split. Qed.

(** Setting one scheduled task rewrites the commands of the others: a command with two blanks in a
    quoted argument is stored as typed, and loses one of them when another task is set. *)
Theorem cron_rewrites_other_commands :
  let st0 := mkAgent (mkHost ∅ 0) None in
  let r1 := set_cron_job #"greet" #"@daily" #"root" #"echo 'a  b'" st0 in
  let r2 := set_cron_job #"other" #"@daily" #"root" #"/bin/other" r1.2 in
  contains (content r1.2 CRON_FILE) #"echo 'a  b'" = true ∧ is_ok r2.1 = true ∧
  contains (content r2.2 CRON_FILE) #"echo 'a  b'" = false ∧
  contains (content r2.2 CRON_FILE) #"echo 'a b'" = true.
Proof. vm_compute. repeat split. Qed.

(** A file whose name has two dots in a row can be quarantined but neither restored nor deleted: the
    name the agent gives it is one the agent itself refuses. *)
Theorem quarantined_file_stranded :
  let path := #"/srv/report..pdf" in
  let st0 := mkAgent (mkHost {[ path := #"x" ]} 0) None in
  let r1 := quarantine_file path st0 in
  let filename := quarantine_filename 0 path in
  is_ok r1.1 = true ∧ files (world r1.2) !! in_quarantine filename = Some #"x" ∧
  is_ok (restore_quarantined_file filename r1.2).1 = false ∧
  is_ok (delete_quarantined_file filename 0 r1.2).1 = false.
Proof. vm_compute. repeat split. Qed.

(** [str::to_lowercase] on the characters of the example: U+0130 becomes an [i] and a combining dot. *)
Definition lower_turkish (s : rstr) : rstr :=
  s ≫= λ c, if (c =? 304)%N then [105%N; 775%N] else [to_ascii_lower c].

(** Expanding a name pattern can panic: the replacement loop indexes the lower-cased text with byte
    positions of the original, and a capital dotted I grows when it is lower-cased. *)
Theorem name_pattern_panics :
  expand_name_pattern lower_turkish #"{first}.{last}" [304%N; 108%N; 107%N; 101%N; 114%N] #"Kaya" = None.
Proof. vm_compute. reflexivity. Qed.

(** The check for absolute paths accepts spellings of the root directory: it refuses a single slash
    only. *)
Theorem absolute_path_accepts_root :
  is_valid_absolute_path #"//" = true ∧ is_valid_absolute_path #"/." = true ∧
  is_valid_absolute_path #"/etc/.." = true ∧
  resolve #"//" = resolve #"/" ∧ resolve #"/." = resolve #"/" ∧ resolve #"/etc/.." = resolve #"/".
Proof. vm_compute. repeat split. Qed.
