(* ===== verification/Subnet.v ===== *)
(** * Subnets ([core/src/subnet.rs])

    Masking an address down to its network, the text of a CIDR block and the
    bounds of one. *)

From Stdlib Require Import NArith Lia.
From stdpp Require Import base list numbers.
From S2P Require Import Prelude Ip.

(** [u32::MAX << (32 - prefix)], where the shift of the whole width, which would
    overflow, is avoided; the same at 128 bits. *)
Definition prefix_mask (width prefix : N) : N :=
  if (prefix =? 0)%N then 0%N else N.land (N.shiftl (N.ones width) (width - prefix)) (N.ones width).
Definition mask_v4 (bits prefix : N) : N := N.land bits (prefix_mask 32 prefix).
Definition mask_v6 (bits prefix : N) : N := N.land bits (prefix_mask 128 prefix).

Definition network_of (ip : rstr) (prefix_v4 prefix_v6 : N) : option rstr :=
  match parse_ip (trim ip) with
  | None => None
  | Some (IpV4 bits) =>
      Some (fmt_ip (IpV4 (mask_v4 bits (N.min prefix_v4 32))) ++ #"/" ++ fmt_N (N.min prefix_v4 32))
  | Some (IpV6 bits) =>
      Some (fmt_ip (IpV6 (mask_v6 bits (N.min prefix_v6 128))) ++ #"/" ++ fmt_N (N.min prefix_v6 128))
  end.

Definition parse_cidr (input : rstr) : option (IpAddr * N) :=
  '(addr_part, prefix_part) ← split_once $"/" (trim input);
  addr ← parse_ip addr_part;
  prefix ← parse_u8 prefix_part;
  let max := match addr with IpV4 _ => 32%N | IpV6 _ => 128%N end in
  if (max <? prefix)%N then None else Some (addr, prefix).

Definition normalize_cidr (input : rstr) : option rstr :=
  '(addr, prefix) ← parse_cidr input;
  match addr with
  | IpV4 bits => Some (fmt_ip (IpV4 (mask_v4 bits prefix)) ++ #"/" ++ fmt_N prefix)
  | IpV6 bits => Some (fmt_ip (IpV6 (mask_v6 bits prefix)) ++ #"/" ++ fmt_N prefix)
  end.

(** [!mask] at the width of the address. *)
Definition invert (width mask : N) : N := N.lxor mask (N.ones width).
Definition block_bounds (width bits prefix : N) : N * N :=
  let mask := prefix_mask width prefix in
  let network := N.land bits mask in
  (network, N.lor network (invert width mask)).
Definition subnet_bounds (addr : IpAddr) (prefix : N) : rstr * rstr :=
  match addr with
  | IpV4 bits =>
      let '(network, broadcast) := block_bounds 32 bits (N.min prefix 32) in
      (fmt_ip (IpV4 network), fmt_ip (IpV4 broadcast))
  | IpV6 bits =>
      let '(network, broadcast) := block_bounds 128 bits (N.min prefix 128) in
      (fmt_ip (IpV6 network), fmt_ip (IpV6 broadcast))
  end.

(** ** What a subnet is

    An address is in the block of another exactly when their first bits agree,
    which is also what the text of the network and the numeric bounds say. *)

From S2P Require Import Prelude TextLemmas GuardTheorems Ip.

(** ** Masking is dividing *)

Lemma mask_bit width prefix i : (prefix <= width)%N →
  N.testbit (prefix_mask width prefix) i = (width - prefix <=? i)%N && (i <? width)%N.
Proof.
  intros Hp. unfold prefix_mask. destruct (N.eqb_spec prefix 0) as [-> |Hne].
  - rewrite N.bits_0. symmetry. rewrite N.sub_0_r. destruct (N.leb_spec width i), (N.ltb_spec i width); done || lia.
  - rewrite N.land_spec. destruct (N.leb_spec (width - prefix) i) as [H|H].
    + rewrite N.shiftl_spec_high' by done. destruct (N.ltb_spec i width) as [Hi|Hi].
      * by rewrite !N.ones_spec_low by lia.
      * by rewrite (N.ones_spec_high _ i), andb_false_r by lia.
    + by rewrite N.shiftl_spec_low.
Qed.

Lemma bits_high bits width i : (bits < 2 ^ width)%N → (width <= i)%N → N.testbit bits i = false.
Proof.
  intros Hb Hi. destruct (decide (bits = 0%N)) as [-> |Hne]; [apply N.bits_0|]. apply N.bits_above_log2.
  apply N.lt_le_trans with width; [|done]. apply N.log2_lt_pow2; lia.
Qed.

(** The network part: the bits below the prefix cleared. *)
Definition network (width bits prefix : N) : N := (bits / 2 ^ (width - prefix) * 2 ^ (width - prefix))%N.

Lemma mask_network width bits prefix :
  (prefix <= width)%N → (bits < 2 ^ width)%N → N.land bits (prefix_mask width prefix) = network width bits prefix.
Proof.
  intros Hp Hb. unfold network. rewrite <- N.shiftr_div_pow2, <- N.shiftl_mul_pow2. apply N.bits_inj. intros i.
  rewrite N.land_spec, mask_bit by done. destruct (N.leb_spec (width - prefix) i) as [H|H].
  - rewrite N.shiftl_spec_high' by done. rewrite N.shiftr_spec'. replace (i - (width - prefix) + (width - prefix))%N with i by lia.
    destruct (N.ltb_spec i width) as [Hi|Hi]; [by rewrite andb_true_r|]. by rewrite (bits_high bits width).
  - rewrite N.shiftl_spec_low by done. by rewrite andb_false_r.
Qed.
Lemma broadcast_bound width bits prefix :
  (prefix <= width)%N → (bits < 2 ^ width)%N →
  (block_bounds width bits prefix).2 = (network width bits prefix + (2 ^ (width - prefix) - 1))%N.
Proof.
  intros Hp Hb. unfold block_bounds. cbn [snd]. rewrite mask_network by done.
  set (k := (width - prefix)%N).
  assert (invert width (prefix_mask width prefix) = N.ones k) as ->.
  { apply N.bits_inj. intros i. unfold invert. rewrite N.lxor_spec, mask_bit by done. fold k.
    destruct (N.ltb_spec i width) as [Hi|Hi]; [rewrite (N.ones_spec_low width) by done|rewrite (N.ones_spec_high width) by done].
    - destruct (N.leb_spec k i); [by rewrite N.ones_spec_high|by rewrite N.ones_spec_low].
    - rewrite N.ones_spec_high by lia. by rewrite andb_false_r. }
  assert (N.land (network width bits prefix) (N.ones k) = 0%N) as Hz by (unfold network; fold k; by rewrite N.land_ones, N.Div0.mod_mul).
  rewrite <- N.lxor_lor, <- N.add_nocarry_lxor by done. by rewrite N.ones_equiv, N.pred_sub.
Qed.

(** ** Being in a block *)

(** [b] agrees with [a] on its first [prefix] bits. *)
Definition same_block (width a b prefix : N) : Prop := (a / 2 ^ (width - prefix) = b / 2 ^ (width - prefix))%N.

Lemma same_network width a b prefix : network width a prefix = network width b prefix ↔ same_block width a b prefix.
Proof.
  unfold network, same_block. pose proof (N.pow_nonzero 2 (width - prefix) ltac:(done)) as Hn.
  split; [|by intros ->]. intros H. by apply N.mul_cancel_r in H.
Qed.
Lemma between_bounds width a b prefix :
  (prefix <= width)%N → (a < 2 ^ width)%N →
  ((block_bounds width a prefix).1 <= b <= (block_bounds width a prefix).2)%N ↔ same_block width a b prefix.
Proof.
  intros Hp Ha. rewrite broadcast_bound by done. unfold block_bounds. cbn [fst]. rewrite mask_network by done.
  unfold network, same_block. set (k := (2 ^ (width - prefix))%N).
  assert (k ≠ 0%N) as Hk by (apply N.pow_nonzero; done).
  pose proof (N.div_mod b k Hk) as Eb. pose proof (N.mod_lt b k Hk) as Hb. set (q := (a / k)%N) in *.
  split; [|intros E].
  2: { rewrite E. clear E. clearbody k q. revert Eb Hb. generalize (b / k)%N, (b mod k)%N. intros x y -> Hy. lia. }
  intros [H1 H2]. apply N.le_antisymm.
  - apply N.div_le_lower_bound; [done|]. by rewrite N.mul_comm.
  - apply N.lt_succ_r, N.Div0.div_lt_upper_bound. rewrite N.mul_succ_r, (N.mul_comm k). lia.
Qed.

(** Two addresses of one family that agree on the prefix. *)
Definition in_same_block (a b : IpAddr) (prefix : N) : Prop :=
  ip_width a = ip_width b ∧ same_block (ip_width a) (ip_bits a) (ip_bits b) prefix.

(** The address of the block. *)
Definition masked (a : IpAddr) (prefix : N) : IpAddr :=
  match a with IpV4 bits => IpV4 (mask_v4 bits prefix) | IpV6 bits => IpV6 (mask_v6 bits prefix) end.
Lemma masked_bits a prefix : ip_ok a → (prefix <= ip_width a)%N →
  ip_bits (masked a prefix) = network (ip_width a) (ip_bits a) prefix ∧ ip_width (masked a prefix) = ip_width a.
Proof. intros Ha Hp. destruct a; (split; [|done]); by apply mask_network. Qed.
Lemma network_le width bits prefix : (network width bits prefix <= bits)%N.
Proof. unfold network. rewrite N.mul_comm. apply N.Div0.mul_div_le. Qed.
Lemma masked_ok a prefix : ip_ok a → (prefix <= ip_width a)%N → ip_ok (masked a prefix).
Proof.
  intros Ha Hp. destruct (masked_bits a prefix Ha Hp) as [Eb Ew]. unfold ip_ok in *. rewrite Eb, Ew.
  pose proof (network_le (ip_width a) (ip_bits a) prefix). lia.
Qed.
Lemma masked_same a b prefix :
  ip_ok a → ip_ok b → (prefix <= ip_width a)%N → (prefix <= ip_width b)%N →
  masked a prefix = masked b prefix ↔ in_same_block a b prefix.
Proof.
  intros Ha Hb Hpa Hpb. unfold in_same_block. destruct (masked_bits a prefix Ha Hpa) as [Ea Wa], (masked_bits b prefix Hb Hpb) as [Eb Wb].
  rewrite <- same_network. split.
  - intros H. rewrite H in Ea, Wa. split; congruence.
  - intros [Hw H]. rewrite <- Hw in Eb. destruct a, b; try done; cbn in *; by rewrite Ea, Eb, H.
Qed.

(** ** The texts *)

Lemma fmt_ip_char a c : ip_ok a → c ∈ fmt_ip a → ip_char c = true.
Proof.
  intros Ha Hc. apply parse_fmt_ip, parse_ip_ok in Ha as [_ H]. eapply forallb_forall in H; [done|]. by apply list_elem_of_In.
Qed.
Lemma fmt_ip_no_slash a : ip_ok a → $"/" ∉ fmt_ip a.
Proof. intros Ha Hc. by apply fmt_ip_char in Hc. Qed.
Lemma ip_char_black c : ip_char c = true → is_whitespace c = false.
Proof.
  intros H. apply not_true_iff_false. intros Hw.
  unfold ip_char, is_ascii_hexdigit, is_ascii_digit, is_whitespace, in_range in *.
  change (char_mem c [$"."; $":"]) with ((c =? 46)%N || ((c =? 58)%N || false)) in H.
  rewrite !orb_true_iff, !andb_true_iff, !N.leb_le, !N.eqb_eq in *. lia.
Qed.
Lemma ip_chars_trim s : forallb ip_char s = true → trim s = s.
Proof.
  intros Hs. apply trim_no_whitespace, not_true_iff_false. rewrite existsb_exists.
  intros (c & Hc & Hw). eapply forallb_forall, ip_char_black in Hs; [|done]. congruence.
Qed.
Lemma fmt_ip_trim a : ip_ok a → trim (fmt_ip a) = fmt_ip a.
Proof. intros Ha. by apply ip_chars_trim, (parse_ip_ok _ a), parse_fmt_ip. Qed.

Lemma prefix_text_inj p q : (p <= 128)%N → (q <= 128)%N → fmt_N p = fmt_N q → p = q.
Proof.
  intros Hp Hq E. pose proof (read_octet_text p [] ltac:(lia) I) as H1. pose proof (read_octet_text q [] ltac:(lia) I) as H2.
  rewrite E in H1. congruence.
Qed.

(** A network as text determines its address and its prefix. *)
Definition cidr_text (a : IpAddr) (prefix : N) : rstr := fmt_ip a ++ #"/" ++ fmt_N prefix.
Lemma cidr_text_inj a b p q :
  ip_ok a → ip_ok b → (p <= 128)%N → (q <= 128)%N → cidr_text a p = cidr_text b q → a = b ∧ p = q.
Proof.
  intros Ha Hb Hp Hq E. unfold cidr_text in E. change (#"/") with [$"/"] in E. cbn [app] in E.
  assert (split_once $"/" (fmt_ip a ++ $"/" :: fmt_N p) = split_once $"/" (fmt_ip b ++ $"/" :: fmt_N q)) as H by congruence.
  rewrite !split_once_intro in H by by apply fmt_ip_no_slash. injection H as H1 H2.
  split; [by apply fmt_ip_inj|by apply prefix_text_inj].
Qed.

Lemma ip_width_128 a : (ip_width a <= 128)%N.
Proof. by destruct a. Qed.
Lemma network_of_fmt a prefix :
  ip_ok a → (prefix <= ip_width a)%N → network_of (fmt_ip a) prefix prefix = Some (cidr_text (masked a prefix) prefix).
Proof.
  intros Ha Hp. unfold network_of. rewrite fmt_ip_trim, parse_fmt_ip by done.
  destruct a; cbn in Hp; by rewrite N.min_l by done.
Qed.

Lemma parse_cidr_ok s a p : parse_cidr s = Some (a, p) → ip_ok a ∧ (p <= ip_width a)%N.
Proof.
  unfold parse_cidr. destruct (split_once _ _) as [[x y]|]; [|done]. cbn [mbind option_bind].
  destruct (parse_ip x) as [a'|] eqn:Ea; [|done]. cbn [mbind option_bind]. apply parse_ip_ok in Ea as [Ha _].
  destruct (parse_u8 y) as [p'|]; [|done]. cbn [mbind option_bind].
  change (match a' with IpV4 _ => 32%N | IpV6 _ => 128%N end) with (ip_width a').
  destruct (N.ltb_spec (ip_width a') p'); [done|]. by intros [= <- <-].
Qed.

Definition prefix_text_ok (p : N) : bool :=
  bool_decide (parse_u8 (fmt_N p) = Some p) && negb (existsb is_whitespace (fmt_N p)).
Lemma prefix_texts_ok : forallb prefix_text_ok (N.of_nat <$> seq 0 129) = true.
Proof. vm_compute. reflexivity. Qed.
Lemma prefix_text p : (p <= 128)%N → parse_u8 (fmt_N p) = Some p ∧ existsb is_whitespace (fmt_N p) = false.
Proof.
  intros Hp. assert (prefix_text_ok p = true) as H.
  { eapply (proj1 (forallb_forall _ _)); [exact prefix_texts_ok|]. apply list_elem_of_In, list_elem_of_fmap.
    exists (N.to_nat p). split; [lia|]. apply elem_of_seq. lia. }
  by apply andb_true_iff in H as [H1%bool_decide_eq_true H2%negb_true_iff].
Qed.

Lemma fmt_ip_black a : ip_ok a → existsb is_whitespace (fmt_ip a) = false.
Proof.
  intros Ha. apply not_true_iff_false. rewrite existsb_exists. intros (c & Hc%list_elem_of_In & Hw).
  apply fmt_ip_char, ip_char_black in Hc; [congruence|done].
Qed.
Lemma parse_cidr_text a p : ip_ok a → (p <= ip_width a)%N → parse_cidr (cidr_text a p) = Some (a, p).
Proof.
  intros Ha Hp. pose proof (ip_width_128 a) as Hw. destruct (prefix_text p ltac:(lia)) as [Hu Hb].
  unfold parse_cidr. rewrite trim_no_whitespace.
  2: { unfold cidr_text. rewrite !existsb_app, fmt_ip_black, Hb by done. done. }
  unfold cidr_text. change (#"/") with [$"/"]. cbn [app]. rewrite split_once_intro by by apply fmt_ip_no_slash.
  cbn [mbind option_bind]. rewrite parse_fmt_ip by done. cbn [mbind option_bind]. rewrite Hu. cbn [mbind option_bind].
  change (match a with IpV4 _ => 32%N | IpV6 _ => 128%N end) with (ip_width a). by rewrite (proj2 (N.ltb_ge _ _)).
Qed.

Lemma normalize_parsed s a p : parse_cidr s = Some (a, p) → normalize_cidr s = Some (cidr_text (masked a p) p).
Proof. intros H. unfold normalize_cidr. rewrite H. by destruct a. Qed.
Lemma masked_masked a p : ip_ok a → (p <= ip_width a)%N → masked (masked a p) p = masked a p.
Proof.
  intros Ha Hp. destruct (masked_bits a p Ha Hp) as [Eb Ew].
  apply masked_same; [by apply masked_ok|done|by rewrite Ew|done|]. split; [done|]. rewrite Eb, Ew. unfold same_block, network.
  apply N.div_mul, N.pow_nonzero. done.
Qed.
Lemma network_of_parsed ip b p :
  parse_ip (trim ip) = Some b →
  network_of ip p p = Some (cidr_text (masked b (N.min p (ip_width b))) (N.min p (ip_width b))).
Proof. intros H. unfold network_of. rewrite H. by destruct b. Qed.

Lemma bounds_text a p : ip_ok a → (p <= ip_width a)%N →
  ∃ lo hi, subnet_bounds a p = (fmt_ip lo, fmt_ip hi) ∧ ip_width lo = ip_width a ∧ ip_width hi = ip_width a ∧
    (ip_bits lo, ip_bits hi) = block_bounds (ip_width a) (ip_bits a) p.
Proof.
  intros Ha Hp. destruct a as [bits|bits]; cbn in Hp; unfold subnet_bounds; rewrite N.min_l by done; cbn [ip_width ip_bits].
  - exists (IpV4 (block_bounds 32 bits p).1), (IpV4 (block_bounds 32 bits p).2). by destruct (block_bounds 32 bits p).
  - exists (IpV6 (block_bounds 128 bits p).1), (IpV6 (block_bounds 128 bits p).2). by destruct (block_bounds 128 bits p).
Qed.

(** C19: a block means the same everywhere.  An address is grouped under the text of
    a block exactly when it is of the same family and agrees with it on the
    prefix, which for one family is also what lying between the two bounds that
    the queries use says; and the canonical text of a block stands for itself. *)
Theorem subnets_exact block a p ip b :
  parse_cidr block = Some (a, p) → parse_ip (trim ip) = Some b →
  (network_of ip p p = normalize_cidr block ↔ in_same_block a b p) ∧
  (∃ t, normalize_cidr block = Some t ∧ normalize_cidr t = Some t) ∧
  (∃ lo hi, subnet_bounds a p = (fmt_ip lo, fmt_ip hi) ∧ ip_width lo = ip_width a ∧ ip_width hi = ip_width a ∧
    (ip_width b = ip_width a → (ip_bits lo <= ip_bits b <= ip_bits hi)%N ↔ in_same_block a b p)).
Proof.
  intros Hcidr Hip. destruct (parse_cidr_ok _ _ _ Hcidr) as [Ha Hp]. apply parse_ip_ok in Hip as Hb. destruct Hb as [Hb _].
  rewrite (normalize_parsed _ _ _ Hcidr), (network_of_parsed _ _ _ Hip).
  pose proof (ip_width_128 a) as Hwa. pose proof (ip_width_128 b) as Hwb. split; [|split].
  - split.
    + intros [= E]. apply cidr_text_inj in E as [E Em]; [|apply masked_ok; [done|lia]|by apply masked_ok|lia|lia].
      rewrite Em in E. symmetry in E. apply masked_same in E; [done..|lia].
    + intros Hs. destruct Hs as [Hw Hs]. rewrite <- Hw, N.min_l by done.
      do 2 f_equal. apply masked_same; [done..|by rewrite <- Hw|done|]. split; [done|]. rewrite <- Hw. by symmetry.
  - eexists. split; [done|]. destruct (masked_bits a p Ha Hp) as [_ Ew].
    rewrite (normalize_parsed _ (masked a p) p) by (apply parse_cidr_text; [by apply masked_ok|by rewrite Ew]).
    by rewrite masked_masked.
  - destruct (bounds_text a p Ha Hp) as (lo & hi & E & Hl & Hh & Hbb). exists lo, hi. split_and!; [done..|].
    intros Hw. pose proof (between_bounds (ip_width a) (ip_bits a) (ip_bits b) p Hp Ha) as H. rewrite <- Hbb in H. cbn [fst snd] in H.
    rewrite H. unfold in_same_block. rewrite Hw. split; [by intros ?|by intros [_ ?]].
Qed.

Lemma subnets_exact_witness :
  (network_of #" 10.0.1.200" 24 24 = normalize_cidr #"10.0.1.7/24" ↔ in_same_block (IpV4 167772423) (IpV4 167772616) 24) ∧
  (∃ t, normalize_cidr #"10.0.1.7/24" = Some t ∧ normalize_cidr t = Some t) ∧
  (∃ lo hi, subnet_bounds (IpV4 167772423) 24 = (fmt_ip lo, fmt_ip hi) ∧
    ip_width lo = ip_width (IpV4 167772423) ∧ ip_width hi = ip_width (IpV4 167772423) ∧
    (ip_width (IpV4 167772616) = ip_width (IpV4 167772423) →
      (ip_bits lo <= ip_bits (IpV4 167772616) <= ip_bits hi)%N ↔ in_same_block (IpV4 167772423) (IpV4 167772616) 24)).
Proof. apply subnets_exact; vm_compute; reflexivity. Defined.
