(* ===== verification/AuditLog.v ===== *)
(** * The audit trail ([crates/audit])

    The closed catalogue of audit actions ([action.rs]), the event a handler
    builds and the row it becomes ([writer.rs]).  The [audit_log] table is the
    list of its rows, oldest first; [record] is the only writer of it.  The
    row's random id and its timestamp, which the database assigns, are left
    out. *)

From S2P Require Import Prelude Json.

Module AuditAction.

Inductive AuditAction : Set :=
| UserCreated | UserEnabled | UserDisabled | UserDeleted | SessionsRevoked
| RoleChanged | LoginSuccess | LoginFailure | Logout | PasswordChanged
| PasswordResetRequested | PasswordReset | SsoLogin | ModuleEnabled
| ModuleDisabled | SystemCommandExecuted | ConfigurationChanged
| AuditExported | SecretAccessed | BackupCreated | BackupRestored
| BackupVerified | BackupDeleted | BackupDownloaded | BackupSettingsChanged
| HostEnrolled | HostApproved | HostControlPlaneChanged
| HostOfflineAcknowledged | SanitizationSignedOff | HostRevoked | HostRemoved
| HostElevated | HostElevationFailed | HostDeescalated | HostElevationExpired
| NetworkDeviceRemoved | NetworkSubnetRemoved | NetworkSubnetsRederived
| NetworkDeviceClassified | NetworkDeviceDiscovered
| NetworkUntrustedDeviceSeen | NetworkSwitchAdded | NetworkSwitchUpdated
| NetworkSwitchRemoved | NetworkDhcpLeasesImported | NetworkPortEnforced
| NetworkPortReleased | UserProfileUpdated | HostDeployStarted
| HostDeploySucceeded | HostDeployFailed | WorkflowEvaluationFailed
| MacroCreated | MacroUpdated | MacroDeleted | RoleCreated | RoleDeleted
| UserRoleAssigned | SecurityEventScanRun | SecurityAlertRaised
| SecurityEventAcknowledged | SecurityEventResolved | SecurityEventSuppressed
| AutomatedResponseTriggered | StorageConnectionCreated
| StorageConnectionChanged | StorageConnectionDeleted
| StorageConnectionValidated | StorageSecretReplaced
| StorageKeypairGenerated | StorageKeypairImported | StorageShareProvisioned
| StorageShareRemoved | StorageMountProvisioned | StorageMountRemoved
| ScourgeSensorConfigured | ScourgeRuleChanged | ScourgeModeChanged
| ScourgeCaptureStarted | ScourgePcapDeleted | ScourgeSensorRemoved
| ScourgeEventScanRun | DirectoryDomainConfigured
| DirectoryServiceAccountValidated | DirectoryDomainRemoved
| DirectoryAccountUnlocked | DirectoryAccountPasswordReset
| DirectoryAccountEnabledChanged | DirectoryAccountCreated
| DirectoryGroupCreated | DirectoryGroupMembershipChanged
| DirectoryObjectDeleted | DirectoryObjectMoved | DirectoryAccountOffboarded.

(** [AuditAction::as_key]. *)
Definition as_key (a : AuditAction) : rstr :=
  match a with
  | UserCreated => #"USER_CREATED"
  | UserEnabled => #"USER_ENABLED"
  | UserDisabled => #"USER_DISABLED"
  | UserDeleted => #"USER_DELETED"
  | SessionsRevoked => #"SESSIONS_REVOKED"
  | RoleChanged => #"ROLE_CHANGED"
  | LoginSuccess => #"LOGIN_SUCCESS"
  | LoginFailure => #"LOGIN_FAILURE"
  | Logout => #"LOGOUT"
  | PasswordChanged => #"PASSWORD_CHANGED"
  | PasswordResetRequested => #"PASSWORD_RESET_REQUESTED"
  | PasswordReset => #"PASSWORD_RESET"
  | SsoLogin => #"SSO_LOGIN"
  | ModuleEnabled => #"MODULE_ENABLED"
  | ModuleDisabled => #"MODULE_DISABLED"
  | SystemCommandExecuted => #"SYSTEM_COMMAND_EXECUTED"
  | ConfigurationChanged => #"CONFIGURATION_CHANGED"
  | AuditExported => #"AUDIT_EXPORTED"
  | SecretAccessed => #"SECRET_ACCESSED"
  | BackupCreated => #"BACKUP_CREATED"
  | BackupRestored => #"BACKUP_RESTORED"
  | BackupVerified => #"BACKUP_VERIFIED"
  | BackupDeleted => #"BACKUP_DELETED"
  | BackupDownloaded => #"BACKUP_DOWNLOADED"
  | BackupSettingsChanged => #"BACKUP_SETTINGS_CHANGED"
  | HostEnrolled => #"HOST_ENROLLED"
  | HostApproved => #"HOST_APPROVED"
  | HostControlPlaneChanged => #"HOST_CONTROL_PLANE_CHANGED"
  | HostOfflineAcknowledged => #"HOST_OFFLINE_ACKNOWLEDGED"
  | SanitizationSignedOff => #"SANITIZATION_SIGNED_OFF"
  | HostRevoked => #"HOST_REVOKED"
  | HostRemoved => #"HOST_REMOVED"
  | HostElevated => #"HOST_ELEVATED"
  | HostElevationFailed => #"HOST_ELEVATION_FAILED"
  | HostDeescalated => #"HOST_DEESCALATED"
  | HostElevationExpired => #"HOST_ELEVATION_EXPIRED"
  | NetworkDeviceRemoved => #"NETWORK_DEVICE_REMOVED"
  | NetworkDhcpLeasesImported => #"NETWORK_DHCP_LEASES_IMPORTED"
  | NetworkSubnetRemoved => #"NETWORK_SUBNET_REMOVED"
  | NetworkSubnetsRederived => #"NETWORK_SUBNETS_REDERIVED"
  | NetworkDeviceClassified => #"NETWORK_DEVICE_CLASSIFIED"
  | NetworkDeviceDiscovered => #"NETWORK_DEVICE_DISCOVERED"
  | NetworkUntrustedDeviceSeen => #"NETWORK_UNTRUSTED_DEVICE_SEEN"
  | NetworkSwitchAdded => #"NETWORK_SWITCH_ADDED"
  | NetworkSwitchUpdated => #"NETWORK_SWITCH_UPDATED"
  | NetworkSwitchRemoved => #"NETWORK_SWITCH_REMOVED"
  | NetworkPortEnforced => #"NETWORK_PORT_ENFORCED"
  | NetworkPortReleased => #"NETWORK_PORT_RELEASED"
  | UserProfileUpdated => #"USER_PROFILE_UPDATED"
  | HostDeployStarted => #"HOST_DEPLOY_STARTED"
  | HostDeploySucceeded => #"HOST_DEPLOY_SUCCEEDED"
  | HostDeployFailed => #"HOST_DEPLOY_FAILED"
  | WorkflowEvaluationFailed => #"WORKFLOW_EVALUATION_FAILED"
  | MacroCreated => #"MACRO_CREATED"
  | MacroUpdated => #"MACRO_UPDATED"
  | MacroDeleted => #"MACRO_DELETED"
  | RoleCreated => #"ROLE_CREATED"
  | RoleDeleted => #"ROLE_DELETED"
  | UserRoleAssigned => #"USER_ROLE_ASSIGNED"
  | SecurityEventScanRun => #"SECURITY_EVENT_SCAN_RUN"
  | SecurityAlertRaised => #"SECURITY_ALERT_RAISED"
  | SecurityEventAcknowledged => #"SECURITY_EVENT_ACKNOWLEDGED"
  | SecurityEventResolved => #"SECURITY_EVENT_RESOLVED"
  | SecurityEventSuppressed => #"SECURITY_EVENT_SUPPRESSED"
  | AutomatedResponseTriggered => #"AUTOMATED_RESPONSE_TRIGGERED"
  | StorageConnectionCreated => #"STORAGE_CONNECTION_CREATED"
  | StorageConnectionChanged => #"STORAGE_CONNECTION_CHANGED"
  | StorageConnectionDeleted => #"STORAGE_CONNECTION_DELETED"
  | StorageConnectionValidated => #"STORAGE_CONNECTION_VALIDATED"
  | StorageSecretReplaced => #"STORAGE_SECRET_REPLACED"
  | StorageKeypairGenerated => #"STORAGE_KEYPAIR_GENERATED"
  | StorageKeypairImported => #"STORAGE_KEYPAIR_IMPORTED"
  | StorageShareProvisioned => #"STORAGE_SHARE_PROVISIONED"
  | StorageShareRemoved => #"STORAGE_SHARE_REMOVED"
  | StorageMountProvisioned => #"STORAGE_MOUNT_PROVISIONED"
  | StorageMountRemoved => #"STORAGE_MOUNT_REMOVED"
  | ScourgeSensorConfigured => #"SCOURGE_SENSOR_CONFIGURED"
  | ScourgeRuleChanged => #"SCOURGE_RULE_CHANGED"
  | ScourgeModeChanged => #"SCOURGE_MODE_CHANGED"
  | ScourgeCaptureStarted => #"SCOURGE_CAPTURE_STARTED"
  | ScourgePcapDeleted => #"SCOURGE_PCAP_DELETED"
  | ScourgeSensorRemoved => #"SCOURGE_SENSOR_REMOVED"
  | ScourgeEventScanRun => #"SCOURGE_EVENT_SCAN_RUN"
  | DirectoryDomainConfigured => #"DIRECTORY_DOMAIN_CONFIGURED"
  | DirectoryServiceAccountValidated => #"DIRECTORY_SERVICE_ACCOUNT_VALIDATED"
  | DirectoryDomainRemoved => #"DIRECTORY_DOMAIN_REMOVED"
  | DirectoryAccountUnlocked => #"DIRECTORY_ACCOUNT_UNLOCKED"
  | DirectoryAccountPasswordReset => #"DIRECTORY_ACCOUNT_PASSWORD_RESET"
  | DirectoryAccountEnabledChanged => #"DIRECTORY_ACCOUNT_ENABLED_CHANGED"
  | DirectoryAccountCreated => #"DIRECTORY_ACCOUNT_CREATED"
  | DirectoryGroupCreated => #"DIRECTORY_GROUP_CREATED"
  | DirectoryGroupMembershipChanged => #"DIRECTORY_GROUP_MEMBERSHIP_CHANGED"
  | DirectoryObjectDeleted => #"DIRECTORY_OBJECT_DELETED"
  | DirectoryObjectMoved => #"DIRECTORY_OBJECT_MOVED"
  | DirectoryAccountOffboarded => #"DIRECTORY_ACCOUNT_OFFBOARDED"
  end.

(** [AuditAction::ALL], the audit viewer's action filter. *)
Definition ALL : list AuditAction :=
  [
    UserCreated; UserEnabled; UserDisabled; UserDeleted; SessionsRevoked;
    RoleChanged; LoginSuccess; LoginFailure; Logout; PasswordChanged;
    PasswordResetRequested; PasswordReset; SsoLogin; ModuleEnabled;
    ModuleDisabled; SystemCommandExecuted; ConfigurationChanged;
    AuditExported; SecretAccessed; BackupCreated; BackupRestored;
    BackupVerified; BackupDeleted; BackupDownloaded; BackupSettingsChanged;
    HostEnrolled; HostApproved; HostControlPlaneChanged;
    HostOfflineAcknowledged; SanitizationSignedOff; HostRevoked; HostRemoved;
    HostElevated; HostElevationFailed; HostDeescalated; HostElevationExpired;
    NetworkDeviceRemoved; NetworkSubnetRemoved; NetworkSubnetsRederived;
    NetworkDeviceClassified; NetworkDeviceDiscovered;
    NetworkUntrustedDeviceSeen; NetworkSwitchAdded; NetworkSwitchUpdated;
    NetworkSwitchRemoved; NetworkDhcpLeasesImported; NetworkPortEnforced;
    NetworkPortReleased; UserProfileUpdated; HostDeployStarted;
    HostDeploySucceeded; HostDeployFailed; WorkflowEvaluationFailed;
    MacroCreated; MacroUpdated; MacroDeleted; RoleCreated; RoleDeleted;
    UserRoleAssigned; SecurityEventScanRun; SecurityAlertRaised;
    SecurityEventAcknowledged; SecurityEventResolved;
    SecurityEventSuppressed; AutomatedResponseTriggered;
    StorageConnectionCreated; StorageConnectionChanged;
    StorageConnectionDeleted; StorageConnectionValidated;
    StorageSecretReplaced; StorageKeypairGenerated; StorageKeypairImported;
    StorageShareProvisioned; StorageShareRemoved; StorageMountProvisioned;
    StorageMountRemoved; ScourgeSensorConfigured; ScourgeRuleChanged;
    ScourgeModeChanged; ScourgeCaptureStarted; ScourgePcapDeleted;
    ScourgeSensorRemoved; ScourgeEventScanRun; DirectoryDomainConfigured;
    DirectoryServiceAccountValidated; DirectoryDomainRemoved;
    DirectoryAccountUnlocked; DirectoryAccountPasswordReset;
    DirectoryAccountEnabledChanged; DirectoryAccountCreated;
    DirectoryGroupCreated; DirectoryGroupMembershipChanged;
    DirectoryObjectDeleted; DirectoryObjectMoved; DirectoryAccountOffboarded
  ].

End AuditAction.

Inductive AuditOutcome : Set := Success | Failure.

Definition outcome_key (o : AuditOutcome) : rstr :=
  match o with Success => #"SUCCESS" | Failure => #"FAILURE" end.

(** A version-4 UUID, opaque: the code only compares them. *)
Abbreviation Uuid := N (only parsing).

Record Actor := mkActor { actor_user_id : Uuid; actor_username : rstr }.

Record AuditEvent := mkEvent {
  ev_actor : option Actor;
  ev_action : AuditAction.AuditAction;
  ev_outcome : AuditOutcome;
  ev_resource : option rstr;
  ev_source_ip : option rstr;
  ev_auth_method : option rstr;
  ev_metadata : option Value;
}.

(** [AuditEvent::new] and the builder methods. *)
Definition new_event (a : AuditAction.AuditAction) (o : AuditOutcome) : AuditEvent :=
  mkEvent None a o None None None None.
Definition with_actor (x : Actor) (e : AuditEvent) : AuditEvent :=
  mkEvent (Some x) e.(ev_action) e.(ev_outcome) e.(ev_resource) e.(ev_source_ip)
    e.(ev_auth_method) e.(ev_metadata).
Definition with_resource (r : rstr) (e : AuditEvent) : AuditEvent :=
  mkEvent e.(ev_actor) e.(ev_action) e.(ev_outcome) (Some r) e.(ev_source_ip)
    e.(ev_auth_method) e.(ev_metadata).
Definition with_source_ip (ip : rstr) (e : AuditEvent) : AuditEvent :=
  mkEvent e.(ev_actor) e.(ev_action) e.(ev_outcome) e.(ev_resource) (Some ip)
    e.(ev_auth_method) e.(ev_metadata).
Definition with_auth_method (m : rstr) (e : AuditEvent) : AuditEvent :=
  mkEvent e.(ev_actor) e.(ev_action) e.(ev_outcome) e.(ev_resource) e.(ev_source_ip)
    (Some m) e.(ev_metadata).
Definition with_metadata (m : Value) (e : AuditEvent) : AuditEvent :=
  mkEvent e.(ev_actor) e.(ev_action) e.(ev_outcome) e.(ev_resource) e.(ev_source_ip)
    e.(ev_auth_method) (Some m).

(** A row of [audit_log] ([NewAuditEntry] in [crates/database]). *)
Record AuditEntry := mkEntry {
  user_id : option Uuid;
  username_snapshot : rstr;
  action : rstr;
  resource : option rstr;
  outcome : rstr;
  source_ip : option rstr;
  auth_method : option rstr;
  metadata : option Value;
}.

Definition entry_of (e : AuditEvent) : AuditEntry :=
  let '(uid, name) :=
    match e.(ev_actor) with
    | Some a => (Some a.(actor_user_id), a.(actor_username))
    | None => (None, #"system")
    end in
  mkEntry uid name (AuditAction.as_key e.(ev_action)) e.(ev_resource)
    (outcome_key e.(ev_outcome)) e.(ev_source_ip) e.(ev_auth_method) e.(ev_metadata).

(** [abyssal_audit::record]: appends one row. *)
Definition record (log : list AuditEntry) (e : AuditEvent) : list AuditEntry :=
  log ++ [entry_of e].

(** The filter list is complete: an action missing from [ALL] could never be
    selected in the viewer. *)
Lemma audit_action_in_ALL a : In a AuditAction.ALL.
Proof. destruct a; cbv; tauto. Qed.

(** Looking an action up by its stored key, over the catalogue. *)
Definition action_of_key (key : rstr) : option AuditAction.AuditAction :=
  List.find (λ a, str_eqb (AuditAction.as_key a) key) AuditAction.ALL.

Lemma action_of_key_as_key a : action_of_key (AuditAction.as_key a) = Some a.
Proof. by destruct a. Qed.

#[export] Instance audit_key_inj : Inj (=) (=) AuditAction.as_key.
Proof. intros a b H. apply (inj Some). by rewrite <- !action_of_key_as_key, H. Qed.
