(* ===== verification/RoleStore.v ===== *)
(** * The role store ([crates/database/src/repo/roles.rs])

    The tables behind role-based access control and the queries over them.
    [find_by_name], [list], [children_of] and the others keep the source's
    names.  What the database engine decides (the collation's order and
    equality on names) is the interface [SqlEngine]. *)

From stdpp Require Import sorting.
From S2P Require Import Prelude Permission Json AuditLog.

(** [abyssal_core::MAX_ROLE_DEPTH], a [u8]. *)
Definition MAX_ROLE_DEPTH : N := 3.
(** [MAX_ANCESTOR_WALK], a [u32]: the bound of every walk up the hierarchy. *)
Definition MAX_ANCESTOR_WALK : nat := 20.

(** [abyssal_core::Role], without the two timestamps the database maintains. *)
Record Role := mkRole {
  role_id : Uuid;
  role_name : rstr;
  role_description : rstr;
  is_system : bool;
  parent_role_id : option Uuid;
  created_by : option Uuid;
}.

#[export] Instance Role_eq_dec : EqDecision Role.
Proof. solve_decision. Defined.

(** [abyssal_core::User], without the timestamps and the display timezone. *)
Record User := mkUser {
  uid : Uuid;
  username : rstr;
  email : rstr;
  password_hash : option rstr;
  auth_provider : rstr;
  is_active : bool;
  must_change_password : bool;
}.

(** [abyssal_core::Session], without the address and browser it was opened
    from.  An instant is a number of microseconds. *)
Record Session := mkSession {
  session_id : Uuid;
  token_hash : rstr;
  session_user : Uuid;
  expires_at : N;
  revoked_at : option N;
}.

(** [Session::is_valid]. *)
Definition is_valid (s : Session) (now : N) : bool :=
  bool_decide (s.(revoked_at) = None) && (now <? s.(expires_at))%N.

(** A row of [password_resets]. *)
Record PasswordReset := mkReset {
  reset_user : Uuid;
  reset_token_hash : rstr;
  reset_created_at : N;
  reset_expires_at : N;
  used_at : option N;
}.

(** The tables.  A primary key is the key of a map or the element of a set. *)
Record Db := mkDb {
  roles : gmap Uuid Role;
  role_permissions : gset (Uuid * rstr);
  user_roles : gset (Uuid * Uuid);
  role_module_visibility : gset (Uuid * rstr);
  users : gmap Uuid User;
  sessions : gmap Uuid Session;
  password_resets : gmap Uuid PasswordReset;
  audit_log : list AuditEntry;
}.

Definition set_roles (f : gmap Uuid Role → gmap Uuid Role) (db : Db) : Db :=
  mkDb (f db.(roles)) db.(role_permissions) db.(user_roles) db.(role_module_visibility)
    db.(users) db.(sessions) db.(password_resets) db.(audit_log).
Definition set_role_permissions (f : gset (Uuid * rstr) → gset (Uuid * rstr)) (db : Db) : Db :=
  mkDb db.(roles) (f db.(role_permissions)) db.(user_roles) db.(role_module_visibility)
    db.(users) db.(sessions) db.(password_resets) db.(audit_log).
Definition set_user_roles (f : gset (Uuid * Uuid) → gset (Uuid * Uuid)) (db : Db) : Db :=
  mkDb db.(roles) db.(role_permissions) (f db.(user_roles)) db.(role_module_visibility)
    db.(users) db.(sessions) db.(password_resets) db.(audit_log).
Definition set_visibility (f : gset (Uuid * rstr) → gset (Uuid * rstr)) (db : Db) : Db :=
  mkDb db.(roles) db.(role_permissions) db.(user_roles) (f db.(role_module_visibility))
    db.(users) db.(sessions) db.(password_resets) db.(audit_log).
Definition set_users (f : gmap Uuid User → gmap Uuid User) (db : Db) : Db :=
  mkDb db.(roles) db.(role_permissions) db.(user_roles) db.(role_module_visibility)
    (f db.(users)) db.(sessions) db.(password_resets) db.(audit_log).
Definition set_sessions (f : gmap Uuid Session → gmap Uuid Session) (db : Db) : Db :=
  mkDb db.(roles) db.(role_permissions) db.(user_roles) db.(role_module_visibility)
    db.(users) (f db.(sessions)) db.(password_resets) db.(audit_log).
Definition set_password_resets (f : gmap Uuid PasswordReset → gmap Uuid PasswordReset) (db : Db) : Db :=
  mkDb db.(roles) db.(role_permissions) db.(user_roles) db.(role_module_visibility)
    db.(users) db.(sessions) (f db.(password_resets)) db.(audit_log).
Definition set_audit_log (f : list AuditEntry → list AuditEntry) (db : Db) : Db :=
  mkDb db.(roles) db.(role_permissions) db.(user_roles) db.(role_module_visibility)
    db.(users) db.(sessions) db.(password_resets) (f db.(audit_log)).

(** What the queries rely on from the engine: [ORDER BY name ASC] returns the
    selected rows in some order, and a name equals itself under the column's
    collation. *)
Class SqlEngine := {
  order_by_name : list Role → list Role;
  order_by_name_perm : ∀ l, order_by_name l ≡ₚ l;
  name_eqb : rstr → rstr → bool;
  name_eqb_refl : ∀ s, name_eqb s s = true;
}.

(** What the engine decides: the order of rows that compare equal, and the
    comparison of addresses by [INET6_ATON]. *)
Class SqlOrder := {
  order_by {A} : (A → A → bool) → list A → list A;
  order_by_perm {A} (le : A → A → bool) l : order_by le l ≡ₚ l;
  order_by_sorted {A} (le : A → A → bool) l :
    (∀ x y, le x y || le y x) → (∀ x y z, le x y → le y z → le x z) → StronglySorted (λ x y, le x y) (order_by le l);
  inet6_leb : rstr → rstr → bool }.

(** What an internal error stands for: a statement that violates a constraint of
    the schema, a row that is gone right after its insert, a password that could
    not be hashed, a database that cannot be reached, a token that cannot be
    sealed or read. *)
Inductive DbError : Set :=
| DuplicateKey
| ForeignKeyViolation
| RowVanished
| HashFailed
| Unavailable
| CipherFailed.

Section queries.
Context `{!SqlEngine}.
Implicit Types (db : Db) (id user : Uuid).

Definition rows db : list Role := (map_to_list db.(roles)).*2.

Definition find_by_id db id : option Role := db.(roles) !! id.

Definition find_by_name db (name : rstr) : option Role :=
  List.find (λ r, name_eqb r.(role_name) name) (rows db).

Definition list_roles db : list Role := order_by_name (rows db).

Definition children_of db id : list Role :=
  order_by_name (List.filter (λ r, bool_decide (r.(parent_role_id) = Some id)) (rows db)).

(** The breadth-first loop of [descendants_of]; [hops] counts down from
    [MAX_ANCESTOR_WALK]. *)
Fixpoint descendants_loop db (hops : nat) (frontier : list Uuid) (acc : list Role) : list Role :=
  match hops, frontier with
  | 0, _ => acc
  | _, [] => acc
  | S k, _ =>
      let next := frontier ≫= children_of db in
      descendants_loop db k (role_id <$> next) (acc ++ next)
  end.
Definition descendants_of db id : list Role :=
  descendants_loop db MAX_ANCESTOR_WALK [id] [].

Definition parent_of db id : option Uuid := find_by_id db id ≫= parent_role_id.

(** The walk of [ancestor_chain] after its first element. *)
Fixpoint ancestors_loop db (hops : nat) (current : Uuid) : list Uuid :=
  match hops with
  | 0 => []
  | S k =>
      match parent_of db current with
      | Some parent => parent :: ancestors_loop db k parent
      | None => []
      end
  end.
Definition ancestor_chain db id : list Uuid :=
  id :: ancestors_loop db MAX_ANCESTOR_WALK id.

Definition chain_contains (chain : list Uuid) (target : Uuid) : bool :=
  bool_decide (target ∈ chain).

Definition is_within_subtree db id (root_id : Uuid) : bool :=
  chain_contains (ancestor_chain db id) root_id.

(** The chain's length cast to [u8]. *)
Definition depth_of db id : N := (N.of_nat (length (ancestor_chain db id)) mod 256)%N.

Definition would_create_cycle db id (proposed_parent_id : Uuid) : bool :=
  is_within_subtree db proposed_parent_id id.

(** A nullable foreign key that names no row of the table. *)
Definition dangling {A} (table : gmap Uuid A) (key : option Uuid) : bool :=
  match key with
  | Some k => negb (bool_decide (is_Some (table !! k)))
  | None => false
  end.

(** [repo::audit::record], reached through [abyssal_audit::record]: the actor
    must still have a row in [users]. *)
Definition audit (e : AuditEvent) db : result DbError (unit * Db) :=
  if dangling db.(users) (entry_of e).(user_id) then Err ForeignKeyViolation
  else Ok ((), set_audit_log (λ log, record log e) db).

(** [create]: inserts the row under a fresh id and reads it back. *)
Definition create (new_id : Uuid) (name description : rstr) (system : bool)
    (parent creator : option Uuid) db : result DbError (Role * Db) :=
  if bool_decide (is_Some (find_by_id db new_id)) then Err DuplicateKey
  else if bool_decide (is_Some (find_by_name db name)) then Err DuplicateKey
  else if dangling db.(roles) parent then Err ForeignKeyViolation
  else if dangling db.(users) creator then Err ForeignKeyViolation
  else
    let db' := set_roles (insert new_id
                 (mkRole new_id name description system parent creator)) db in
    match find_by_id db' new_id with
    | Some r => Ok (r, db')
    | None => Err RowVanished
    end.

(** [update]: the unique name must not belong to another row, the parent must
    exist; no row matches an absent id and the statement is a no-op. *)
Definition update id (name description : rstr) (parent : option Uuid) db
    : result DbError (unit * Db) :=
  match find_by_id db id with
  | None => Ok ((), db)
  | Some r =>
      if existsb (λ r', name_eqb r'.(role_name) name && negb (r'.(role_id) =? id)%N) (rows db)
      then Err DuplicateKey
      else if dangling db.(roles) parent then Err ForeignKeyViolation
      else Ok ((), set_roles (insert id
             (mkRole r.(role_id) name description r.(is_system) parent r.(created_by))) db)
  end.

(** [delete]: a child row restricts the deletion, the grants, assignments and
    visibility rows of the role go with it. *)
Definition delete id db : result DbError (unit * Db) :=
  if existsb (λ r, bool_decide (r.(parent_role_id) = Some id)) (rows db)
  then Err ForeignKeyViolation
  else Ok ((), set_visibility (filter (λ p, p.1 ≠ id))
          (set_user_roles (filter (λ p, p.2 ≠ id))
          (set_role_permissions (filter (λ p, p.1 ≠ id))
          (set_roles (base.delete id) db)))).

Definition user_count db id : nat := size (filter (λ p, p.2 = id) db.(user_roles)).

(** [set_permissions], one transaction: deletes the role's grants, then
    inserts the given ones.  A repeated permission violates the primary key, a
    grant to an absent role the foreign key; either rolls the whole back. *)
Definition set_permissions id (permissions : list Permission) db : result DbError (unit * Db) :=
  if negb (bool_decide (NoDup permissions)) then Err DuplicateKey
  else if negb (bool_decide (permissions = [])) && dangling db.(roles) (Some id)
  then Err ForeignKeyViolation
  else Ok ((), set_role_permissions (λ t, list_to_set ((λ p, (id, as_key p)) <$> permissions)
                               ∪ filter (λ p, p.1 ≠ id) t) db).

(** [permissions_for_role]: the stored keys that name a known permission. *)
Definition permissions_for_role db id : list Permission :=
  omap (λ p : Uuid * rstr, from_key p.2)
    (elements (filter (λ p, p.1 = id) db.(role_permissions))).

Definition own_permissions db id : gset Permission :=
  list_to_set (permissions_for_role db id).

(** The loop of [effective_permissions_for_role]: the role's grants, its
    parent's, and so on. *)
Fixpoint grants_loop db (hops : nat) (current : option Uuid) : list (gset Permission) :=
  match hops, current with
  | S k, Some id => own_permissions db id :: grants_loop db k (parent_of db id)
  | _, _ => []
  end.

Definition intersect_chain (chain : list (gset Permission)) : gset Permission :=
  match chain with
  | [] => ∅
  | first :: sets => foldl (λ acc s, acc ∩ s) first sets
  end.

Definition effective_permissions_for_role db id : gset Permission :=
  intersect_chain (grants_loop db MAX_ANCESTOR_WALK (Some id)).

(** [assign_role_to_user] ([INSERT IGNORE]) and [remove_role_from_user]. *)
Definition assign_role_to_user user id db : result DbError (unit * Db) :=
  if dangling db.(users) (Some user) || dangling db.(roles) (Some id) then Ok ((), db)
  else Ok ((), set_user_roles (λ t, {[(user, id)]} ∪ t) db).
Definition remove_role_from_user user id db : result DbError (unit * Db) :=
  Ok ((), set_user_roles (λ t, t ∖ {[(user, id)]}) db).

(** [set_user_role], one transaction: replaces every assignment of the user. *)
Definition set_user_role user id db : result DbError (unit * Db) :=
  if dangling db.(users) (Some user) || dangling db.(roles) (Some id)
  then Err ForeignKeyViolation
  else Ok ((), set_user_roles (λ t, {[(user, id)]} ∪ filter (λ p, p.1 ≠ user) t) db).

Definition roles_for_user db user : list Role :=
  order_by_name (List.filter (λ r, bool_decide ((user, r.(role_id)) ∈ db.(user_roles))) (rows db)).

Definition effective_permissions db user : gset Permission :=
  ⋃ ((λ r, effective_permissions_for_role db r.(role_id)) <$> roles_for_user db user).
End queries.
