(* ===== verification/RoleTree.v ===== *)
(** * The role hierarchy as a tree

    The walks of [RoleStore] answer questions about the parent relation of the
    [roles] table.  This file states that relation without a bound ([anc]),
    relates every bounded walk to it, and proves what moving one role does to
    the tree. *)

From S2P Require Import Prelude Permission Json AuditLog RoleStore.

Section tree.
Context `{!SqlEngine}.
Implicit Types (db : Db) (id x y a : Uuid) (r : Role).

(** The [n]-th ancestor of a role; the zeroth is the role itself. *)
Fixpoint anc db (n : nat) x : option Uuid :=
  match n with
  | 0 => Some x
  | S k => parent_of db x ≫= anc db k
  end.

(** [x] is [a] or one of its descendants, at any depth. *)
Definition descends db x a : Prop := ∃ n, anc db n x = Some a.

(** At most [n] levels from [x] to its root, [x] included. *)
Definition depth_le db (n : nat) x : Prop := anc db n x = None.
Definition shallow (n : nat) db : Prop := ∀ x, depth_le db n x.

(** Every walk towards the root ends. *)
Definition acyclic db : Prop := ∀ x, ∃ n, depth_le db n x.

Lemma anc_S db n x : anc db (S n) x = parent_of db x ≫= anc db n.
Proof. done. Qed.

Lemma anc_add db n m x : anc db (n + m) x = anc db n x ≫= anc db m.
Proof.
  revert x. induction n as [|n IH]; intros x; [done|]. cbn.
  destruct (parent_of db x); cbn; [apply IH|done].
Qed.

Lemma anc_mono db n m x : n ≤ m → anc db n x = None → anc db m x = None.
Proof. intros [k ->]%Nat.le_sum Hn. by rewrite anc_add, Hn. Qed.

Lemma anc_Some_le db n m x a : anc db n x = Some a → m ≤ n → is_Some (anc db m x).
Proof.
  intros Ha Hm. destruct (anc db m x) eqn:He; [done|].
  by rewrite (anc_mono _ _ _ _ Hm He) in Ha.
Qed.

Lemma descends_refl db x : descends db x x.
Proof. by exists 0. Qed.

Lemma descends_trans db x y a : descends db x y → descends db y a → descends db x a.
Proof. intros [n Hn] [m Hm]. exists (n + m). by rewrite anc_add, Hn. Qed.

Lemma descends_parent db x p : parent_of db x = Some p → descends db x p.
Proof. intros Hp. exists 1. cbn. by rewrite Hp. Qed.

Lemma descends_inv db x a :
  descends db x a → x = a ∨ ∃ p, parent_of db x = Some p ∧ descends db p a.
Proof.
  intros [[|n] Hn]; cbn in Hn; [by left; injection Hn|right].
  destruct (parent_of db x) as [p|] eqn:Hp; [|done]. exists p. split; [done|by exists n].
Qed.

(** Two ancestors of one role are ordered. *)
Lemma descends_total db x a b :
  descends db x a → descends db x b → descends db a b ∨ descends db b a.
Proof.
  intros [n Hn] [m Hm]. destruct (Nat.le_ge_cases n m) as [Hle|Hle];
    apply Nat.le_sum in Hle as [k ->].
  - left. exists k. by rewrite anc_add, Hn in Hm.
  - right. exists k. by rewrite anc_add, Hm in Hn.
Qed.

Lemma shallow_acyclic n db : shallow n db → acyclic db.
Proof. intros Hs x. by exists n. Qed.

Lemma shallow_mono n m db : n ≤ m → shallow n db → shallow m db.
Proof. intros Hle Hs x. exact (anc_mono db n m x Hle (Hs x)). Qed.

(** In an acyclic hierarchy no role is a proper ancestor of itself. *)
Lemma acyclic_no_loop db x n : acyclic db → anc db (S n) x ≠ Some x.
Proof.
  intros Hac Hloop. destruct (Hac x) as [m Hm].
  assert (∀ k, anc db (k * S n) x = Some x) as Hk.
  { induction k as [|k IH]; [done|]. rewrite Nat.mul_succ_l, anc_add, IH. done. }
  specialize (Hk m). unfold depth_le in Hm.
  assert (m ≤ m * S n) as Hle by lia. by rewrite (anc_mono _ _ _ _ Hle Hm) in Hk.
Qed.

Lemma descends_antisym db x y : acyclic db → descends db x y → descends db y x → x = y.
Proof.
  intros Hac [[|n] Hn] [m Hm]; [by injection Hn|].
  exfalso. apply (acyclic_no_loop db x (n + m) Hac).
  change (S (n + m)) with (S n + m). by rewrite anc_add, Hn.
Qed.

Lemma descends_em db x a : acyclic db → descends db x a ∨ ¬ descends db x a.
Proof.
  intros Hac. destruct (Hac x) as [n Hn]. revert x Hn. unfold depth_le.
  induction n as [|n IH]; intros x Hn; [done|].
  destruct (decide (x = a)) as [->|Hne]; [left; apply descends_refl|].
  cbn in Hn. destruct (parent_of db x) as [p|] eqn:Hp.
  - destruct (IH p Hn) as [Hd|Hd]; [left; eapply descends_trans; [by apply descends_parent|done]|].
    right. intros [?|(q & Hq & ?)]%descends_inv; [done|]. congruence.
  - right. intros [?|(q & Hq & ?)]%descends_inv; congruence.
Qed.

(** ** The bounded walks *)

Lemma elem_of_ancestors_loop db k x a :
  a ∈ ancestors_loop db k x ↔ ∃ n, 1 ≤ n ≤ k ∧ anc db n x = Some a.
Proof.
  revert x. induction k as [|k IH]; intros x; cbn.
  { split; [by intros ?%elem_of_nil|]. intros (n & ? & _). lia. }
  destruct (parent_of db x) as [p|] eqn:Hp.
  - rewrite elem_of_cons, IH. split.
    + intros [->|(n & ? & Hn)]; [exists 1|exists (S n)];
        (split; [lia|]); cbn; by rewrite Hp.
    + intros (n & [? ?] & Hn). destruct n as [|n]; [lia|]. cbn in Hn. rewrite Hp in Hn.
      destruct n as [|n]; [left; cbn in Hn; congruence|right].
      exists (S n). split; [lia|done].
  - split; [by intros ?%elem_of_nil|]. intros (n & [? ?] & Hn).
    destruct n as [|n]; [lia|]. cbn in Hn. by rewrite Hp in Hn.
Qed.

Lemma elem_of_ancestor_chain db x a :
  a ∈ ancestor_chain db x ↔ ∃ n, n ≤ MAX_ANCESTOR_WALK ∧ anc db n x = Some a.
Proof.
  unfold ancestor_chain. rewrite elem_of_cons, elem_of_ancestors_loop. split.
  - intros [->|(n & ? & ?)]; [by exists 0; split; [lia|]|exists n]. split; [lia|done].
  - intros ([|n] & ? & Hn); [left; cbn in Hn; congruence|right].
    exists (S n). split; [lia|done].
Qed.

Lemma is_within_subtree_spec db x a :
  is_within_subtree db x a = true ↔ ∃ n, n ≤ MAX_ANCESTOR_WALK ∧ anc db n x = Some a.
Proof.
  unfold is_within_subtree, chain_contains. by rewrite bool_decide_eq_true, elem_of_ancestor_chain.
Qed.

Lemma is_within_subtree_descends db x a :
  is_within_subtree db x a = true → descends db x a.
Proof. intros (n & _ & ?)%is_within_subtree_spec. by exists n. Qed.

(** Within the walk's bound the subtree test is exact. *)
Lemma is_within_subtree_exact db x a :
  depth_le db (S MAX_ANCESTOR_WALK) x → is_within_subtree db x a = true ↔ descends db x a.
Proof.
  intros Hd. split; [apply is_within_subtree_descends|]. intros [n Hn].
  apply is_within_subtree_spec. exists n. split; [|done].
  destruct (Nat.le_gt_cases n MAX_ANCESTOR_WALK) as [|Hgt]; [done|].
  unfold depth_le in Hd. by rewrite (anc_mono _ _ n _ Hgt Hd) in Hn.
Qed.

Lemma ancestors_loop_length db k x n :
  n < k → length (ancestors_loop db k x) ≤ n ↔ anc db (S n) x = None.
Proof.
  revert x n. induction k as [|k IH]; intros x n Hn; [lia|]. cbn.
  destruct (parent_of db x) as [p|]; cbn; [|by split; [|lia]].
  destruct n as [|n]; cbn; [split; [lia|done]|].
  rewrite <- (IH p n) by lia. lia.
Qed.

Lemma ancestors_loop_bound db k x : length (ancestors_loop db k x) ≤ k.
Proof.
  revert x. induction k as [|k IH]; intros x; cbn; [lia|].
  destruct (parent_of db x) as [p|]; cbn; [|lia]. specialize (IH p). lia.
Qed.

(** The [u8] cast never loses information, and a reported depth of at most
    twenty is the true depth. *)
Lemma depth_of_bound db x : (depth_of db x ≤ 21)%N.
Proof.
  unfold depth_of. pose proof (ancestors_loop_bound db MAX_ANCESTOR_WALK x).
  rewrite N.mod_small; cbn [ancestor_chain length]; unfold MAX_ANCESTOR_WALK in *; lia.
Qed.

Lemma depth_of_le db x n :
  1 ≤ n ≤ MAX_ANCESTOR_WALK → (depth_of db x ≤ N.of_nat n)%N ↔ depth_le db n x.
Proof.
  intros Hn. unfold depth_of, depth_le.
  pose proof (ancestors_loop_bound db MAX_ANCESTOR_WALK x).
  rewrite N.mod_small; cbn [ancestor_chain length]; [|unfold MAX_ANCESTOR_WALK in *; lia].
  destruct n as [|n]; [lia|].
  rewrite <- (ancestors_loop_length db MAX_ANCESTOR_WALK x n) by lia. lia.
Qed.

(** ** Effective permissions *)

Lemma elem_of_own db x (p : Permission) :
  p ∈ own_permissions db x ↔ (x, as_key p) ∈ db.(role_permissions).
Proof.
  unfold own_permissions, permissions_for_role.
  rewrite elem_of_list_to_set, list_elem_of_omap. split.
  - intros ([y k] & Hy & Hk). apply elem_of_elements, elem_of_filter in Hy as [Hyx Hy].
    cbn in Hyx, Hk. subst y. by rewrite (from_key_sound _ _ Hk).
  - intros Hp. exists (x, as_key p). split; [|apply from_key_as_key].
    by apply elem_of_elements, elem_of_filter.
Qed.

Lemma elem_of_foldl_inter (sets : list (gset Permission)) (first : gset Permission) p :
  p ∈ foldl (λ acc s, acc ∩ s) first sets ↔ p ∈ first ∧ ∀ s, s ∈ sets → p ∈ s.
Proof.
  revert first. induction sets as [|s sets IH]; intros first; cbn; [set_solver|].
  rewrite IH. set_solver.
Qed.

Lemma elem_of_intersect_chain chain p :
  p ∈ intersect_chain chain ↔ chain ≠ [] ∧ ∀ s, s ∈ chain → p ∈ s.
Proof.
  destruct chain as [|first sets]; cbn; [set_solver|].
  rewrite elem_of_foldl_inter. set_solver.
Qed.

Lemma elem_of_grants_loop db k x s :
  s ∈ grants_loop db k (Some x) ↔ ∃ n a, n < k ∧ anc db n x = Some a ∧ s = own_permissions db a.
Proof.
  revert x. induction k as [|k IH]; intros x; cbn.
  { split; [by intros ?%elem_of_nil|]. intros (n & a & ? & _). lia. }
  rewrite elem_of_cons. split.
  - intros [->|Hs]; [exists 0, x; split_and!; [lia|done..]|].
    destruct (parent_of db x) as [p|] eqn:Hp; [|by destruct k; apply elem_of_nil in Hs].
    apply IH in Hs as (n & a & ? & ? & ->). exists (S n), a.
    split_and!; [lia| |done]. cbn. by rewrite Hp.
  - intros (n & a & Hn & Ha & ->). destruct n as [|n]; cbn in Ha; [left; congruence|right].
    destruct (parent_of db x) as [p|]; [|done]. apply IH. exists n, a.
    split_and!; [lia|done..].
Qed.

Lemma elem_of_eff db x p :
  p ∈ effective_permissions_for_role db x ↔
  ∀ n a, n < MAX_ANCESTOR_WALK → anc db n x = Some a → p ∈ own_permissions db a.
Proof.
  unfold effective_permissions_for_role. rewrite elem_of_intersect_chain. split.
  - intros [_ Hall] n a Hn Ha. apply Hall, elem_of_grants_loop. by exists n, a.
  - intros Hall. split; [done|].
    intros s (n & a & Hn & Ha & ->)%elem_of_grants_loop. by apply (Hall n).
Qed.

(** The reference definition: a permission holds when every role from [x] up
    to its root grants it. *)
Definition granted_up_to_root db x (p : Permission) : Prop :=
  ∀ a, descends db x a → p ∈ own_permissions db a.

Lemma eff_granted db x p :
  depth_le db MAX_ANCESTOR_WALK x →
  p ∈ effective_permissions_for_role db x ↔ granted_up_to_root db x p.
Proof.
  intros Hd. rewrite elem_of_eff. split.
  - intros Hall a [n Hn]. apply (Hall n a); [|done].
    destruct (Nat.lt_ge_cases n MAX_ANCESTOR_WALK) as [|Hge]; [done|].
    unfold depth_le in Hd. by rewrite (anc_mono _ _ n _ Hge Hd) in Hn.
  - intros Hall n a _ Ha. apply Hall. by exists n.
Qed.

Lemma depth_le_descends db n x a : depth_le db n x → descends db x a → depth_le db n a.
Proof.
  intros Hd [m Hm]. unfold depth_le in *.
  assert (anc db (m + n) x = None) as Hmn by (apply (anc_mono db n); [lia|done]).
  by rewrite anc_add, Hm in Hmn.
Qed.

(** Effective permissions shrink towards the leaves. *)
Lemma eff_descends db x a :
  depth_le db MAX_ANCESTOR_WALK x → descends db x a →
  effective_permissions_for_role db x ⊆ effective_permissions_for_role db a.
Proof.
  intros Hd Ha p. rewrite !eff_granted; [|by eapply depth_le_descends|done].
  intros Hp b Hb. apply Hp. by eapply descends_trans.
Qed.

(** ** Queries that return rows *)

Lemma elem_of_rows db r : r ∈ rows db ↔ ∃ id, db.(roles) !! id = Some r.
Proof.
  unfold rows. rewrite list_elem_of_fmap. split.
  - intros ([id r'] & -> & Hin). exists id. by apply elem_of_map_to_list in Hin.
  - intros [id Hid]. exists (id, r). split; [done|]. by apply elem_of_map_to_list.
Qed.

Lemma elem_of_filter_rows db (f : Role → bool) r :
  r ∈ order_by_name (List.filter f (rows db)) ↔ (∃ id, db.(roles) !! id = Some r) ∧ f r = true.
Proof. by rewrite order_by_name_perm, list_elem_of_In, filter_In, <- list_elem_of_In, elem_of_rows. Qed.

(** The key of a row is its [id] column. *)
Definition keyed db : Prop := ∀ id r, db.(roles) !! id = Some r → r.(role_id) = id.

Lemma elem_of_roles_for_user db u r :
  keyed db →
  r ∈ roles_for_user db u ↔
  db.(roles) !! r.(role_id) = Some r ∧ (u, r.(role_id)) ∈ db.(user_roles).
Proof.
  intros Hk. unfold roles_for_user. rewrite elem_of_filter_rows, bool_decide_eq_true.
  split; [|naive_solver]. intros [[id Hid] ?]. by destruct (Hk _ _ Hid).
Qed.

Lemma elem_of_children_of db a r :
  keyed db →
  r ∈ children_of db a ↔
  db.(roles) !! r.(role_id) = Some r ∧ r.(parent_role_id) = Some a.
Proof.
  intros Hk. unfold children_of. rewrite elem_of_filter_rows, bool_decide_eq_true.
  split; [|naive_solver]. intros [[id Hid] ?]. by destruct (Hk _ _ Hid).
Qed.

Lemma elem_of_list_roles db r :
  keyed db → r ∈ list_roles db ↔ db.(roles) !! r.(role_id) = Some r.
Proof.
  intros Hk. unfold list_roles. rewrite order_by_name_perm, elem_of_rows.
  split; [|by eexists]. intros [id Hid]. by rewrite (Hk _ _ Hid).
Qed.

Lemma parent_of_row db a r : db.(roles) !! a = Some r → parent_of db a = r.(parent_role_id).
Proof. unfold parent_of, find_by_id. by intros ->. Qed.

(** A role is a child of the role its parent column names. *)
Lemma elem_of_children_parent db a r :
  keyed db →
  r ∈ children_of db a ↔
  db.(roles) !! r.(role_id) = Some r ∧ anc db 1 r.(role_id) = Some a.
Proof.
  intros Hk. rewrite elem_of_children_of by done. cbn.
  split; intros [Hrow Hp]; (split; [done|]); rewrite (parent_of_row _ _ _ Hrow) in *.
  - by rewrite Hp.
  - by destruct (parent_role_id r).
Qed.

Lemma anc_row db n x c a : anc db n x = Some c → anc db 1 c = Some a → is_Some (db.(roles) !! c).
Proof. intros _. cbn. unfold parent_of, find_by_id. by destruct (roles db !! c). Qed.

Lemma elem_of_descendants_loop db k frontier acc r :
  keyed db →
  r ∈ descendants_loop db k frontier acc ↔
  r ∈ acc ∨ db.(roles) !! r.(role_id) = Some r ∧
    ∃ n a, 1 ≤ n ≤ k ∧ a ∈ frontier ∧ anc db n r.(role_id) = Some a.
Proof.
  intros Hk. revert frontier acc. induction k as [|k IH]; intros frontier acc; cbn.
  { split; [tauto|]. intros [?|(_ & n & a & ? & _)]; [done|lia]. }
  destruct frontier as [|f fs] eqn:Hf.
  { split; [tauto|]. intros [?|(_ & n & a & _ & Ha & _)]; [done|by apply elem_of_nil in Ha]. }
  rewrite <- Hf. clear Hf f fs. rewrite IH, elem_of_app, list_elem_of_bind. split.
  - intros [[?|(a & Hr & Ha)]|(Hr & n & c & Hn & Hc & Hanc)]; [tauto| |].
    + apply elem_of_children_parent in Hr as [? ?]; [|done].
      right. split; [done|]. exists 1, a. by split; [lia|].
    + apply list_elem_of_fmap in Hc as (rc & -> & Hrc).
      apply list_elem_of_bind in Hrc as (a & Hrc & Ha).
      apply elem_of_children_parent in Hrc as [_ Hp]; [|done].
      right. split; [done|]. exists (n + 1), a. rewrite anc_add, Hanc. by split; [lia|split].
  - intros [?|(Hrow & n & a & Hn & Ha & Hanc)]; [tauto|].
    destruct (decide (n = 1)) as [->|Hne].
    { left. right. exists a. by rewrite elem_of_children_parent. }
    right. split; [done|]. replace n with ((n - 1) + 1) in Hanc by lia.
    rewrite anc_add in Hanc. destruct (anc db (n - 1) (role_id r)) as [c|] eqn:Hc; [|done].
    cbn [mbind option_bind] in Hanc. destruct (anc_row _ _ _ _ _ Hc Hanc) as [rc Hrc].
    exists (n - 1), c. split_and!; [lia|lia| |done].
    apply list_elem_of_fmap. exists rc. split; [by rewrite (Hk _ _ Hrc)|].
    apply list_elem_of_bind. exists a. split; [|done].
    rewrite elem_of_children_parent by done. by rewrite (Hk _ _ Hrc).
Qed.

Lemma elem_of_descendants_of db a r :
  keyed db →
  r ∈ descendants_of db a ↔
  db.(roles) !! r.(role_id) = Some r ∧
    ∃ n, 1 ≤ n ≤ MAX_ANCESTOR_WALK ∧ anc db n r.(role_id) = Some a.
Proof.
  intros Hk. unfold descendants_of. rewrite elem_of_descendants_loop by done. split.
  - intros [?%elem_of_nil|(? & n & b & ? & ->%list_elem_of_singleton & ?)]; [done|].
    split; [done|]. by exists n.
  - intros (? & n & ? & ?). right. split; [done|]. exists n, a. split_and!; [lia|lia|set_solver|done].
Qed.

(** ** Moving one role *)

(** Two databases with the same parents along a path have the same path. *)
Lemma anc_agree db db' x :
  (∀ a, descends db x a → parent_of db' a = parent_of db a) →
  ∀ n, anc db' n x = anc db n x.
Proof.
  intros Hag n. revert x Hag. induction n as [|n IH]; intros x Hag; [done|]. cbn.
  rewrite (Hag x (descends_refl db x)). destruct (parent_of db x) as [p|] eqn:Hp; [|done].
  cbn. apply IH. intros a Ha. apply Hag.
  eapply descends_trans; [by apply descends_parent|done].
Qed.

Lemma anc_same db db' x n :
  (∀ a, parent_of db' a = parent_of db a) → anc db' n x = anc db n x.
Proof. intros Hag. apply anc_agree. auto. Qed.

Section move.
Context (db db' : Db) (id : Uuid).
Hypothesis Hother : ∀ a, a ≠ id → parent_of db' a = parent_of db a.

(** A role not below the moved one keeps its ancestors. *)
Lemma move_anc_outside x n : ¬ descends db x id → anc db' n x = anc db n x.
Proof using Hother.
  intros Hx. apply anc_agree. intros a Ha. apply Hother. by intros ->.
Qed.

Lemma move_descends_outside x a : ¬ descends db x id → descends db' x a ↔ descends db x a.
Proof using Hother.
  intros Hx. split; intros [n Hn]; exists n; by rewrite move_anc_outside in *.
Qed.

(** A role below the moved one still is. *)
Lemma move_descends_below x : descends db x id → descends db' x id.
Proof using Hother.
  intros [n Hn]. revert x Hn. induction n as [|n IH]; intros x Hn.
  { injection Hn as ->. apply descends_refl. }
  destruct (decide (x = id)) as [->|Hne]; [apply descends_refl|].
  cbn in Hn. rewrite <- (Hother x Hne) in Hn.
  destruct (parent_of db' x) as [p|] eqn:Hp; [|done].
  eapply descends_trans; [by apply descends_parent|by apply IH].
Qed.

(** Moving a role to the root, or under a role that is not below it, adds
    at most the new parent's depth to any path. *)
Lemma move_depth d x n :
  match parent_of db' id with
  | Some p => ¬ descends db p id ∧ depth_le db d p
  | None => True
  end → depth_le db n x → depth_le db' (n + d) x.
Proof using Hother.
  intros Hp. unfold depth_le. revert x. induction n as [|n IH]; intros x Hn; [done|].
  cbn in Hn |- *. destruct (decide (x = id)) as [->|Hne].
  - destruct (parent_of db' id) as [p|]; [|done]. destruct Hp as [Hbelow Hd]. cbn.
    rewrite move_anc_outside by done. apply (anc_mono db d); [lia|done].
  - rewrite (Hother x Hne). destruct (parent_of db x) as [q|]; [|done]. by apply IH.
Qed.

Lemma move_acyclic :
  match parent_of db' id with Some p => ¬ descends db p id | None => True end →
  acyclic db → acyclic db'.
Proof using Hother.
  intros Hp Hac x. destruct (Hac x) as [n Hn].
  destruct (parent_of db' id) as [p|] eqn:Hid.
  - destruct (Hac p) as [d Hd]. exists (n + d). apply move_depth; [by rewrite Hid|done].
  - exists (n + 0). apply move_depth; [by rewrite Hid|done].
Qed.
End move.
End tree.
