(* ===== verification/Web.v ===== *)
(** * Requests, responses and errors of the web layer

    [crates/core/src/error.rs], [crates/web/src/csrf.rs], [error.rs] and the
    confirmation helpers of [common.rs].  A handler runs in the monad [App]: it
    reads and writes the database and either answers or fails, and a failure
    keeps the writes made before it, since no handler opens a transaction around
    its statements. *)

From S2P Require Import Prelude Permission Json AuditLog RoleStore.

(** [AppError].  [Internal] carries whatever made a statement fail. *)
Inductive AppError : Type :=
| NotFound
| Unauthenticated
| Forbidden
| MustChangePassword
| Validation (msg : rstr)
| Conflict (msg : rstr)
| Internal (e : DbError).

(** What a handler answers with.  A page is identified by its template and the
    values that depend on the request; its markup is not modelled. *)
Inductive Response : Type :=
| Redirect (to : rstr)
| RolesListPage (error : option rstr)
| RoleDetailPage (role : Role) (error : option rstr)
| UsersPage (message error : option rstr) (new_username new_email : rstr)
    (generated : option rstr) (selected : option Uuid)
| UserEditPage (id : Uuid) (username email : rstr) (error generated : option rstr)
| ConfirmPage (title message : rstr) (action_url : rstr) (hidden : list (rstr * rstr))
    (type_to_confirm : option rstr)
| LoginPage (error : option rstr) (registration_enabled : bool)
| SetupPage (username email : rstr) (error generated : option rstr)
| RegisterPage (username email : rstr) (error generated : option rstr)
| ForgotPasswordPage (submitted : bool)
| ResetPasswordPage (token : rstr) (error : option rstr)
| AccountPage (error : option rstr)
| Status (code : N) (body : rstr).

(** [impl IntoResponse for WebError]. *)
Definition into_response (e : AppError) : Response :=
  match e with
  | Unauthenticated => Redirect #"/login"
  | MustChangePassword => Redirect #"/account"
  | NotFound => Status 404 #"Not found."
  | Forbidden => Status 403 #"Permission denied."
  | Validation msg => Status 400 msg
  | Conflict msg => Status 409 msg
  | Internal _ => Status 500 #"Internal server error."
  end.

(** ** The monad of handlers *)

Definition App (A : Type) : Type := Db → result AppError A * Db.

#[export] Instance App_ret : MRet App := λ A x db, (Ok x, db).
#[export] Instance App_bind : MBind App := λ A B f m db,
  match m db with
  | (Ok x, db') => f x db'
  | (Err e, db') => (Err e, db')
  end.

(** [return Err(e)], a query, and a statement whose failure is [?]-propagated. *)
Definition throw {A} (e : AppError) : App A := λ db, (Err e, db).
Definition query {A} (f : Db → A) : App A := λ db, (Ok (f db), db).
Definition exec {A} (f : Db → result DbError (A * Db)) : App A := λ db,
  match f db with
  | Ok (x, db') => (Ok x, db')
  | Err e => (Err (Internal e), db)
  end.
Definition lift {A} (r : result AppError A) : App A := λ db, (r, db).
Definition require {A} (o : option A) (e : AppError) : App A := lift (ok_or o e).

(** [if c { return k }], before the rest of the handler. *)
Definition early {A} (c : bool) (k : App A) (rest : App A) : App A :=
  if c then k else rest.
Notation "'if_return' c 'then' k ';;' rest" := (early c k rest)
  (at level 100, k at level 99, rest at level 200, right associativity,
   format "'if_return'  c  'then'  k  ';;' '//' rest") : rust_scope.

(** ** The request *)

Section request.
(** The cookie jar, by cookie name. *)
Abbreviation CookieJar := (rstr → option rstr).

Definition CSRF_COOKIE : rstr := #"abyssal_csrf".

(** [csrf::verify]. *)
Definition verify (jar : CookieJar) (submitted : rstr) : bool :=
  negb (is_empty submitted) &&
  match jar CSRF_COOKIE with
  | Some c => str_eqb c submitted
  | None => false
  end.

Definition require_csrf (jar : CookieJar) (submitted : rstr) : result AppError unit :=
  if verify jar submitted then Ok ()
  else Err (Validation #"Your session expired or this form was submitted from an untrusted origin. Please try again.").

Definition require_typed_confirmation (submitted expected : rstr) : result AppError unit :=
  if str_eqb (trim submitted) expected then Ok ()
  else Err (Validation (#"Typed confirmation didn't match " ++ [34%N] ++ expected ++ [34%N]
                        ++ #" -- please try again.")).

(** [common::safe_return_to]. *)
Definition safe_return_to (return_to fallback : rstr) : rstr :=
  if starts_with return_to #"/" && negb (starts_with return_to #"//") then return_to
  else fallback.
End request.

Abbreviation CookieJar := (rstr → option rstr) (only parsing).

(** What the handlers use of the [uuid] and [serde_json] crates: the printed
    form of an id, and the JSON text of a list of strings. *)
Class Text := {
  uuid_to_string : Uuid → rstr;
  uuid_parse : rstr → option Uuid;
  uuid_parse_to_string : ∀ u, uuid_parse (uuid_to_string u) = Some u;
  strings_to_json : list rstr → rstr;
  strings_of_json : rstr → option (list rstr);
  strings_of_to_json : ∀ l, strings_of_json (strings_to_json l) = Some l;
}.

(** ** Running a handler *)

Lemma App_bind_run {A B} (m : App A) (f : A → App B) db :
  (m ≫= f) db = match m db with (Ok x, db') => f x db' | (Err e, db') => (Err e, db') end.
Proof. done. Qed.

(** A run, from its answer. *)
Lemma run_pair {A} (m : App A) db (x : A) : (m db).1 = Ok x → m db = (Ok x, (m db).2).
Proof. by destruct (m db) as [r db']; cbn; intros ->. Qed.

(** Both outcomes of a sequence of two steps. *)
Lemma App_bind_inv {A B} (m : App A) (f : A → App B) db r db' :
  (m ≫= f) db = (r, db') →
  (∃ x db1, m db = (Ok x, db1) ∧ f x db1 = (r, db')) ∨
  (∃ e, m db = (Err e, db') ∧ r = Err e).
Proof. rewrite App_bind_run. destruct (m db) as [[x|e] db1]; naive_solver. Qed.

Lemma query_bind {A B} (f : Db → A) (k : A → App B) db :
  (query f ≫= k) db = k (f db) db.
Proof. done. Qed.

Lemma query_inv {A} (f : Db → A) db r db' : query f db = (r, db') → r = Ok (f db) ∧ db' = db.
Proof. unfold query. naive_solver. Qed.

Lemma mret_inv {A} (x : A) db r db' : (mret x : App A) db = (r, db') → r = Ok x ∧ db' = db.
Proof. cbv. naive_solver. Qed.

Lemma throw_inv {A} e db (r : result AppError A) db' :
  throw e db = (r, db') → r = Err e ∧ db' = db.
Proof. cbv. naive_solver. Qed.

Lemma early_inv {A} c (k rest : App A) db r db' :
  early c k rest db = (r, db') → (c = true ∧ k db = (r, db')) ∨ (c = false ∧ rest db = (r, db')).
Proof. unfold early. destruct c; auto. Qed.

Lemma lift_inv {A} (q : result AppError A) db r db' : lift q db = (r, db') → q = r ∧ db' = db.
Proof. unfold lift. naive_solver. Qed.

Lemma exec_inv {A} (f : Db → result DbError (A * Db)) db r db' :
  exec f db = (r, db') →
  (∃ x, f db = Ok (x, db') ∧ r = Ok x) ∨ (∃ e, f db = Err e ∧ r = Err (Internal e) ∧ db' = db).
Proof. unfold exec. destruct (f db) as [[x db1]|e]; naive_solver. Qed.

(** Unfolds a run one step at a time, keeping the branch conditions. *)
Ltac run_step :=
  match goal with
  | H : (query _ ≫= _) _ = _ |- _ => rewrite query_bind in H
  | H : query _ _ = (_, _) |- _ => apply query_inv in H as [? ->]; simplify_eq
  | H : (_ ≫= _) _ = (_, _) |- _ =>
      apply App_bind_inv in H as [(? & ? & ? & H)|(? & H & ?)]
  | H : require _ _ _ = (_, _) |- _ => apply lift_inv in H as [? ->]
  | H : lift _ _ = (_, _) |- _ => apply lift_inv in H as [? ->]
  | H : exec _ _ = (_, _) |- _ =>
      apply exec_inv in H as [(? & ? & ?)|(? & ? & ? & ->)]; simplify_eq
  | H : mret _ _ = (_, _) |- _ => apply mret_inv in H as [? ->]; subst
  | H : throw _ _ = (_, _) |- _ => apply throw_inv in H as [? ->]; subst
  | H : early _ _ _ _ = (_, _) |- _ => apply early_inv in H as [[? H]|[? H]]
  | H : ok_or _ _ = Ok _ |- _ => apply ok_or_ok in H
  | H : Ok _ = Ok _ |- _ => injection H as ?; subst
  | H : Err _ = Ok _ |- _ => discriminate H
  | H : Ok _ = Err _ |- _ => discriminate H
  end.

Lemma verify_true jar s :
  verify jar s = true ↔ s ≠ [] ∧ jar CSRF_COOKIE = Some s.
Proof.
  unfold verify. destruct s as [|c s]; cbn; [by split; [|intros []]|].
  destruct (jar CSRF_COOKIE) as [t|]; [rewrite str_eqb_eq|by split; [|intros []]].
  split; [by intros ->|by intros [_ [= ->]]].
Qed.

Lemma require_csrf_ok jar s x : require_csrf jar s = Ok x → verify jar s = true.
Proof. unfold require_csrf. by destruct (verify jar s). Qed.

Lemma require_typed_confirmation_ok s e x :
  require_typed_confirmation s e = Ok x → trim s = e.
Proof.
  unfold require_typed_confirmation. destruct (str_eqb _ _) eqn:He; [|done].
  by apply str_eqb_eq in He.
Qed.
