(* ===== verification/Delegation.v ===== *)
(** * Authorization and delegation

    [crates/rbac] (the resolved context of a request and its checks), the
    [CurrentUser] extractor of [crates/web/src/extract.rs] with the session it
    validates ([crates/auth/src/session.rs]), and the delegation rules of
    [crates/web/src/common.rs]: who may manage which role, and which roles and
    permissions they may hand out. *)

From S2P Require Import Prelude Permission Json AuditLog RoleStore RoleTree Web.

(** [abyssal_rbac::AuthContext]. *)
Record AuthContext := mkCtx { user : User; permissions : gset Permission }.

Definition has (ctx : AuthContext) (perm : Permission) : bool :=
  bool_decide (perm ∈ ctx.(permissions)).

Definition ensure (ctx : AuthContext) (perm : Permission) : result AppError unit :=
  if has ctx perm then Ok () else Err Forbidden.

Definition ensure_any (ctx : AuthContext) (perms : list Permission) : result AppError unit :=
  if existsb (has ctx) perms then Ok () else Err Forbidden.

Definition has_no_ceiling (ctx : AuthContext) : bool := forallb (has ctx) ALL.

#[global] Arguments has_no_ceiling : simpl never.

Definition grantable_permissions (ctx : AuthContext) : gset Permission :=
  if has_no_ceiling ctx then list_to_set ALL else ctx.(permissions).

(** The actor every handler records. *)
Definition actor_of (ctx : AuthContext) : Actor :=
  mkActor ctx.(user).(uid) ctx.(user).(username).

Section delegation.
Context `{!SqlEngine}.
Implicit Types (db : Db) (ctx : AuthContext) (role : Role).

(** [AuthContext::load]. *)
Definition load db (u : User) : AuthContext := mkCtx u (effective_permissions db u.(uid)).

(** [common::ensure_can_manage_role]. *)
Definition ensure_can_manage_role db ctx role : result AppError unit :=
  if negb (has ctx RolesManage) then Err Forbidden
  else if has_no_ceiling ctx then Ok ()
  else if role.(is_system) then Err Forbidden
  else
    let own_roles := roles_for_user db ctx.(user).(uid) in
    if existsb (λ r, (r.(role_id) =? role.(role_id))%N) own_roles then Err Forbidden
    else if existsb (λ own, is_within_subtree db role.(role_id) own.(role_id)) own_roles
    then Ok ()
    else Err Forbidden.

(** The inner loop of [assignable_roles]: [seen.insert] keeps the first role
    of every id. *)
Fixpoint push_unseen (candidates : list Role) (seen : gset Uuid) (assignable : list Role)
    : gset Uuid * list Role :=
  match candidates with
  | [] => (seen, assignable)
  | role :: rest =>
      if bool_decide (role.(role_id) ∈ seen) then push_unseen rest seen assignable
      else push_unseen rest ({[role.(role_id)]} ∪ seen) (assignable ++ [role])
  end.

Fixpoint assignable_loop db (own_roles : list Role) (seen : gset Uuid) (assignable : list Role)
    : list Role :=
  match own_roles with
  | [] => assignable
  | own_role :: rest =>
      let '(seen', assignable') :=
        push_unseen (descendants_of db own_role.(role_id) ++ [own_role]) seen assignable in
      assignable_loop db rest seen' assignable'
  end.

Definition assignable_roles db ctx : list Role :=
  if has_no_ceiling ctx then list_roles db
  else assignable_loop db (roles_for_user db ctx.(user).(uid)) ∅ [].

(** [assignable.iter().any(|r| r.id == id)]. *)
Definition offers (assignable : list Role) (id : Uuid) : bool :=
  existsb (λ r, (r.(role_id) =? id)%N) assignable.

(** [repo::sessions::find_by_token_hash] and [session::validate]; the digest
    of a token is an argument. *)
Definition find_by_token_hash db (hash : rstr) : option Session :=
  List.find (λ s, str_eqb s.(token_hash) hash) ((map_to_list db.(sessions)).*2).

Definition validate db (hash_token : rstr → rstr) (token : rstr) (now : N) : option Session :=
  match find_by_token_hash db (hash_token token) with
  | Some s => if is_valid s now then Some s else None
  | None => None
  end.

Definition MUST_CHANGE_PASSWORD_EXEMPT_PATHS : list rstr :=
  [ #"/account"; #"/account/password"].

(** [CurrentUser::from_request_parts]. *)
Definition current_user db (hash_token : rstr → rstr) (session_cookie_name path : rstr)
    (jar : CookieJar) (now : N) : result AppError AuthContext :=
  token ← ok_or (jar session_cookie_name) Unauthenticated;
  session ← ok_or (validate db hash_token token now) Unauthenticated;
  u ← ok_or (db.(users) !! session.(session_user)) Unauthenticated;
  if negb u.(is_active) then Err Forbidden
  else if u.(must_change_password) && negb (str_mem path MUST_CHANGE_PASSWORD_EXEMPT_PATHS)
  then Err MustChangePassword
  else Ok (load db u).

(** ** Lemmas *)

Lemma has_true ctx p : has ctx p = true ↔ p ∈ ctx.(permissions).
Proof. apply bool_decide_eq_true. Qed.

Lemma has_no_ceiling_spec ctx :
  has_no_ceiling ctx = true ↔ ∀ p, p ∈ ctx.(permissions).
Proof.
  unfold has_no_ceiling. rewrite forallb_forall. setoid_rewrite has_true.
  split; [|by auto]. intros Hall p. apply Hall, list_elem_of_In, elem_of_ALL.
Qed.

Lemma ensure_ok ctx p x : ensure ctx p = Ok x → p ∈ ctx.(permissions).
Proof. unfold ensure. destruct (has ctx p) eqn:Hp; [|done]. by rewrite has_true in Hp. Qed.

(** Nobody can grant what they do not hold. *)
Lemma grantable_held ctx : grantable_permissions ctx = ctx.(permissions).
Proof.
  unfold grantable_permissions. destruct (has_no_ceiling ctx) eqn:Hc; [|done].
  rewrite has_no_ceiling_spec in Hc. apply set_eq. intros p.
  rewrite elem_of_list_to_set. split; [by auto|]. intros _. apply elem_of_ALL.
Qed.

Lemma elem_of_push_unseen candidates seen assignable r :
  r ∈ (push_unseen candidates seen assignable).2 → r ∈ assignable ∨ r ∈ candidates.
Proof.
  revert seen assignable. induction candidates as [|c cs IH]; cbn; intros seen asg Hr; [by left|].
  case_bool_decide; apply IH in Hr; set_solver.
Qed.

(** [seen] never runs ahead of the list: an id that is skipped is already
    offered. *)
Lemma push_unseen_seen candidates seen assignable :
  (∀ x, x ∈ seen → x ∈ role_id <$> assignable) →
  ∀ x, x ∈ (push_unseen candidates seen assignable).1 →
       x ∈ role_id <$> (push_unseen candidates seen assignable).2.
Proof.
  revert seen assignable. induction candidates as [|c cs IH]; cbn; intros seen asg Hseen; [done|].
  case_bool_decide; apply IH; [done|]. intros x. rewrite fmap_app. set_solver.
Qed.

Lemma push_unseen_complete candidates seen assignable id :
  (∀ x, x ∈ seen → x ∈ role_id <$> assignable) →
  id ∈ (role_id <$> assignable) ∨ id ∈ (role_id <$> candidates) →
  id ∈ (role_id <$> (push_unseen candidates seen assignable).2).
Proof.
  revert seen assignable. induction candidates as [|c cs IH]; cbn; intros seen asg Hseen Hid.
  { by destruct Hid as [?|?%elem_of_nil]. }
  rewrite elem_of_cons in Hid. case_bool_decide as Hc; apply IH; try done.
  - destruct Hid as [?|[->|?]]; auto.
  - intros x. rewrite fmap_app. set_solver.
  - rewrite fmap_app. set_solver.
Qed.

Lemma assignable_loop_complete db owns seen assignable id :
  (∀ x, x ∈ seen → x ∈ role_id <$> assignable) →
  id ∈ (role_id <$> assignable) ∨
    (∃ own, own ∈ owns ∧ id ∈ (role_id <$> (descendants_of db own.(role_id) ++ [own]))) →
  id ∈ (role_id <$> assignable_loop db owns seen assignable).
Proof.
  revert seen assignable. induction owns as [|o os IH]; cbn; intros seen asg Hseen Hid.
  { destruct Hid as [?|(own & ?%elem_of_nil & _)]; done. }
  pose proof (push_unseen_seen (descendants_of db (role_id o) ++ [o]) seen asg Hseen) as Hs.
  pose proof (λ c, push_unseen_complete (descendants_of db (role_id o) ++ [o]) seen asg id Hseen c)
    as Hcomp.
  destruct (push_unseen _ seen asg) as [s' a']. apply IH; [done|].
  destruct Hid as [Hid|(own & Hown & Hid)]; [left; apply Hcomp; by left|].
  apply elem_of_cons in Hown as [->|Hown]; [left; apply Hcomp; by right|].
  right. by exists own.
Qed.

Lemma elem_of_assignable_loop db owns seen assignable r :
  r ∈ assignable_loop db owns seen assignable →
  r ∈ assignable ∨ ∃ own, own ∈ owns ∧ r ∈ descendants_of db own.(role_id) ++ [own].
Proof.
  revert seen assignable. induction owns as [|o os IH]; cbn; intros seen asg Hr; [by left|].
  destruct (push_unseen _ seen asg) as [s' a'] eqn:Hp.
  apply IH in Hr as [Hr|(own & Hown & Hr)].
  - apply (f_equal snd) in Hp. cbn in Hp. subst a'.
    apply elem_of_push_unseen in Hr as [?|?]; [by left|right].
    exists o. split; [apply list_elem_of_here|done].
  - right. exists own. split; [by apply list_elem_of_further|done].
Qed.

Lemma offers_true l id : offers l id = true ↔ id ∈ (role_id <$> l).
Proof.
  unfold offers. rewrite existsb_exists, list_elem_of_fmap. split.
  - intros (r & Hr & He%N.eqb_eq). exists r. by rewrite list_elem_of_In.
  - intros (r & -> & Hr). exists r. rewrite <- list_elem_of_In. by split; [|apply N.eqb_refl].
Qed.

(** A delegated admin is only ever offered a role of their own or one that
    descends from it. *)
Lemma assignable_scoped db ctx id :
  keyed db → has_no_ceiling ctx = false → offers (assignable_roles db ctx) id = true →
  ∃ own, own ∈ roles_for_user db ctx.(user).(uid) ∧ descends db id own.(role_id)
         ∧ is_Some (db.(roles) !! id).
Proof.
  intros Hk Hc. rewrite offers_true, list_elem_of_fmap. intros (r & -> & Hr).
  unfold assignable_roles in Hr. rewrite Hc in Hr.
  apply elem_of_assignable_loop in Hr as [Hr%elem_of_nil|(own & Hown & Hr)]; [done|].
  exists own. split; [done|]. apply elem_of_app in Hr as [Hr| ->%list_elem_of_singleton].
  - apply elem_of_descendants_of in Hr as (Hrow & n & _ & Hn); [|done].
    split; [by exists n|done].
  - apply elem_of_roles_for_user in Hown as [? _]; [|done]. split; [apply descends_refl|done].
Qed.

(** And every such role is offered, within the walk's bound. *)
Lemma assignable_complete db ctx r own :
  keyed db → has_no_ceiling ctx = false →
  own ∈ roles_for_user db ctx.(user).(uid) →
  db.(roles) !! r.(role_id) = Some r → depth_le db (S MAX_ANCESTOR_WALK) r.(role_id) →
  descends db r.(role_id) own.(role_id) →
  offers (assignable_roles db ctx) r.(role_id) = true.
Proof.
  intros Hk Hc Hown Hrow Hd [n Hn]. rewrite offers_true. unfold assignable_roles. rewrite Hc.
  apply assignable_loop_complete; [set_solver|]. right. exists own. split; [done|].
  rewrite fmap_app, elem_of_app. destruct n as [|n].
  { right. injection Hn as ->. apply list_elem_of_here. }
  left. apply list_elem_of_fmap. exists r. split; [done|].
  apply elem_of_descendants_of; [done|]. split; [done|]. exists (S n). split; [|done].
  split; [lia|]. destruct (Nat.le_gt_cases (S n) MAX_ANCESTOR_WALK) as [|Hgt]; [done|].
  unfold depth_le in Hd. by rewrite (anc_mono _ _ (S n) _ Hgt Hd) in Hn.
Qed.

Lemma assignable_exists db ctx id :
  keyed db → offers (assignable_roles db ctx) id = true → is_Some (db.(roles) !! id).
Proof.
  intros Hk Ho. destruct (has_no_ceiling ctx) eqn:Hc.
  - unfold assignable_roles in Ho. rewrite Hc, offers_true, list_elem_of_fmap in Ho.
    destruct Ho as (r & -> & Hr). by apply elem_of_list_roles in Hr.
  - by destruct (assignable_scoped db ctx id) as (_ & _ & _ & ?).
Qed.

(** A delegated admin manages only custom roles strictly below one of their
    own and never a role they hold. *)
Lemma manage_scoped db ctx role x :
  has_no_ceiling ctx = false → ensure_can_manage_role db ctx role = Ok x →
  RolesManage ∈ ctx.(permissions) ∧ role.(is_system) = false ∧
  (∀ own, own ∈ roles_for_user db ctx.(user).(uid) → own.(role_id) ≠ role.(role_id)) ∧
  ∃ own, own ∈ roles_for_user db ctx.(user).(uid) ∧ descends db role.(role_id) own.(role_id).
Proof.
  intros Hc. unfold ensure_can_manage_role. rewrite Hc.
  destruct (has ctx RolesManage) eqn:Hm; [|done]. rewrite has_true in Hm. cbn [negb].
  destruct (is_system role); [done|]. cbv zeta.
  destruct (existsb (λ r, _ =? _)%N _) eqn:Hown; [done|].
  destruct (existsb (λ own, is_within_subtree _ _ _) _) eqn:Hsub; [|done]. intros _.
  split; [done|]. split; [done|]. split.
  - intros own Ho He. apply not_true_iff_false in Hown. apply Hown.
    apply existsb_exists. exists own. rewrite <- list_elem_of_In. by rewrite He, N.eqb_refl.
  - apply existsb_exists in Hsub as (own & Ho & Hs). exists own.
    rewrite list_elem_of_In. split; [done|by apply is_within_subtree_descends].
Qed.
End delegation.
