(* ===== verification/Executor.v ===== *)
(** * The executor ([crates/execution/src/executor.rs])

    Every operation, on the control plane itself or on a host, goes through a
    permission check, a confirmation check, and one audit record.  What an
    operation does to the world, and how a dispatch ends, are parameters: the
    registry that dispatches is the subject of [Registry]. *)

From S2P Require Import Prelude Protocol Agent OpText Guard Registry.
From S2P Require Import Permission Json AuditLog RoleStore Web Delegation.
Import Op.
Import AuditAction (SystemCommandExecuted, HostElevated, HostElevationFailed, HostDeescalated,
  SecurityEventScanRun).

Inductive ExecutionError : Type :=
| TimedOut
| Cancelled
| ConfirmationRequired
| PermissionDenied
| Failed (msg : rstr)
| RefusedByGuard (msg : rstr).

Definition error_text (e : ExecutionError) : rstr :=
  match e with
  | TimedOut => #"operation timed out"
  | Cancelled => #"operation was cancelled"
  | ConfirmationRequired => #"destructive operations require explicit confirmation"
  | PermissionDenied => #"permission denied"
  | Failed msg => #"execution failed: " ++ msg
  | RefusedByGuard msg => msg
  end.

Inductive OperationKind : Set := Read | Write | Destructive.
#[export] Instance OperationKind_eq_dec : EqDecision OperationKind.
Proof. solve_decision. Defined.

Definition kind_key (k : OperationKind) : rstr :=
  match k with Read => #"read" | Write => #"write" | Destructive => #"destructive" end.

(** [too_old_message] of [registry.rs]. *)
Definition too_old_message (operation : rstr) (needed : N) (has : option N) : rstr :=
  let release := match agent_release_for_protocol needed with
                 | Some r => #"agent " ++ r ++ #" or later"
                 | None => #"a newer agent"
                 end in
  let has := match has with
             | Some v => #"protocol " ++ fmt_N v
             | None => #"an unreported protocol (a very old build)"
             end in
  #"This host's agent is too old for " ++ operation ++ #": it speaks " ++ has ++ #", and this needs protocol "
  ++ fmt_N needed ++ #" (" ++ release
  ++ #"). Update it with 'Update agent' on /admin/hosts (or re-deploy it), then try again. Nothing was sent to the host.".

(** The small set of operations the audit trail tells apart. *)
Inductive HostOpKind : Set := KindElevate | KindDeescalate | KindSecurityScan | KindOther.
Definition host_op_kind (op : AgentOperation) : HostOpKind :=
  match op with
  | Elevate _ _ => KindElevate
  | Deescalate => KindDeescalate
  | ScanSecurityEvents _ _ _ _ => KindSecurityScan
  | _ => KindOther
  end.

Definition audit_action (k : HostOpKind) (o : AuditOutcome) : AuditAction.AuditAction :=
  match k, o with
  | KindElevate, Success => HostElevated
  | KindElevate, Failure => HostElevationFailed
  | KindDeescalate, _ => HostDeescalated
  | KindSecurityScan, _ => SecurityEventScanRun
  | KindOther, _ => SystemCommandExecuted
  end.

Definition with_ip (ip : option rstr) (e : AuditEvent) : AuditEvent :=
  match ip with Some ip => with_source_ip ip e | None => e end.

Section executor.
Context (debug_str : rstr → rstr) {W : Type}.
Implicit Types (ctx : AuthContext) (db : Db) (w : W).

(** A record whose insertion fails, because the database does not answer or
    because it refuses the row, is only logged. *)
Definition record_or_warn (reachable : bool) (e : AuditEvent) db : Db :=
  if reachable then match audit e db with Ok (_, db') => db' | Err _ => db end else db.

(** ** On the control plane *)

Record Operation := mkOperation {
  op_name : rstr;
  op_kind : OperationKind;
  required_permission : Permission;
  op_run : W → result ExecutionError OperationOutput * W;
}.

(** How the [select!] of [execute] ends: the run completes, or it is dropped by
    the timeout or the cancellation with whatever it did until then. *)
Inductive Race : Type :=
| Completes
| TimesOut (until : W → W)
| IsCancelled (until : W → W).

Definition local_event ctx (resource : rstr) (o : AuditOutcome) (ip : option rstr) (detail : rstr) : AuditEvent :=
  new_event SystemCommandExecuted o |> with_actor (actor_of ctx) |> with_resource resource
  |> with_metadata (Obj [(#"detail", Str detail)]) |> with_ip ip.

Definition execute (reachable : bool) ctx (op : Operation) (confirm : bool) (ip : option rstr) (race : Race) (s : W * Db)
    : result ExecutionError OperationOutput * (W * Db) :=
  let '(w, db) := s in
  if negb (has ctx (required_permission op)) then
    (Err PermissionDenied, (w, record_or_warn reachable (local_event ctx (op_name op) Failure ip #"permission denied") db))
  else if bool_decide (op_kind op = Destructive) && negb confirm then
    (Err ConfirmationRequired, (w, record_or_warn reachable (local_event ctx (op_name op) Failure ip #"confirmation required") db))
  else
    let '(outcome, w') :=
      match race with
      | Completes => op_run op w
      | TimesOut until => (Err TimedOut, until w)
      | IsCancelled until => (Err Cancelled, until w)
      end in
    let e := match outcome with
             | Ok _ => local_event ctx (op_name op) Success ip #"ok"
             | Err err => local_event ctx (op_name op) Failure ip (error_text err)
             end in
    (outcome, (w', record_or_warn reachable e db)).

(** ** On a host *)

Definition host_event ctx (resource : rstr) (op : AgentOperation) (kind : OperationKind) (elevated : bool)
    (o : AuditOutcome) (ip : option rstr) (detail : rstr) : AuditEvent :=
  new_event (audit_action (host_op_kind op) o) o |> with_actor (actor_of ctx) |> with_resource resource
  |> with_metadata (Obj [(#"detail", Str detail); (#"elevated", Bool elevated);
                         (#"kind", Str (kind_key kind)); (#"operation", Str (label debug_str op))])
  |> with_ip ip.

(** What the answer of [dispatch] becomes. *)
Definition outcome_of (r : result DispatchError CommandOutcome) : result ExecutionError OperationOutput :=
  match r with
  | Ok (Ok output) => Ok output
  | Ok (Err message) => Err (Failed message)
  | Err NotConnected => Err (Failed #"host is not currently connected")
  | Err Timeout => Err TimedOut
  | Err ConnectionClosed => Err (Failed #"host disconnected before responding")
  | Err (Refused reason) => Err (RefusedByGuard reason)
  | Err (AgentTooOld name needed has) => Err (RefusedByGuard (too_old_message name needed has))
  end.

Definition execute_on_host (reachable : bool) (dispatch : Uuid → AgentOperation → W → result DispatchError CommandOutcome * W)
    ctx (host : Uuid) (host_label : rstr) (op : AgentOperation) (permission : Permission)
    (kind : OperationKind) (confirm : bool) (ip : option rstr) (elevated : bool) (s : W * Db)
    : result ExecutionError OperationOutput * (W * Db) :=
  let '(w, db) := s in
  if negb (has ctx permission) then
    (Err PermissionDenied,
     (w, record_or_warn reachable (host_event ctx host_label op kind elevated Failure ip #"permission denied") db))
  else if bool_decide (kind = Destructive) && negb confirm then
    (Err ConfirmationRequired,
     (w, record_or_warn reachable (host_event ctx host_label op kind elevated Failure ip #"confirmation required") db))
  else
    let '(answer, w') := dispatch host op w in
    let outcome := outcome_of answer in
    let e := match outcome with
             | Ok _ => host_event ctx host_label op kind elevated Success ip #"ok"
             | Err err => host_event ctx host_label op kind elevated Failure ip (error_text err)
             end in
    (outcome, (w', record_or_warn reachable e db)).
End executor.
