(* ===== verification/RoleRoutes.v ===== *)
(** * The role handlers ([crates/web/src/routes/roles.rs])

    Every handler that creates, edits, deletes or re-grants a role, with its
    guards in the source's order.  A handler takes the cookie jar, the
    authenticated context and the submitted form; the pairs of a raw body are
    those [form_urlencoded::parse] yields. *)

From S2P Require Import Prelude Permission Json AuditLog RoleStore RoleTree Web Delegation.
Import AuditAction (RoleCreated, RoleChanged, RoleDeleted).

(** [abyssal_modules::ModuleView], the fields the handlers read. *)
Record ModuleView := mkModule {
  module_key : rstr;
  display_name : rstr;
  view_permissions : list Permission;
  enabled : bool;
}.

Definition quoted (s : rstr) : rstr := [34%N] ++ s ++ [34%N].

(** The fields [create_role] picks out of a raw body: the last value of a
    repeated scalar key wins, every [permissions] value is kept. *)
Record CreateBody := mkCreateBody {
  cb_csrf_token : rstr;
  cb_name : rstr;
  cb_description : rstr;
  cb_parent_role_id_raw : rstr;
  cb_permission_keys : list rstr;
}.

Definition create_field (b : CreateBody) (kv : rstr * rstr) : CreateBody :=
  let '(key, value) := kv in
  if str_eqb key #"csrf_token" then
    mkCreateBody value b.(cb_name) b.(cb_description) b.(cb_parent_role_id_raw) b.(cb_permission_keys)
  else if str_eqb key #"name" then
    mkCreateBody b.(cb_csrf_token) value b.(cb_description) b.(cb_parent_role_id_raw) b.(cb_permission_keys)
  else if str_eqb key #"description" then
    mkCreateBody b.(cb_csrf_token) b.(cb_name) value b.(cb_parent_role_id_raw) b.(cb_permission_keys)
  else if str_eqb key #"parent_role_id" then
    mkCreateBody b.(cb_csrf_token) b.(cb_name) b.(cb_description) value b.(cb_permission_keys)
  else if str_eqb key #"permissions" then
    mkCreateBody b.(cb_csrf_token) b.(cb_name) b.(cb_description) b.(cb_parent_role_id_raw)
      (b.(cb_permission_keys) ++ [value])
  else b.

Definition parse_create_body (body : list (rstr * rstr)) : CreateBody :=
  foldl create_field (mkCreateBody [] [] [] [] []) body.

(** The values of one repeated key, and the last [csrf_token], of the two other
    handlers that read a raw body. *)
Definition values_of (name : rstr) (body : list (rstr * rstr)) : list rstr :=
  snd <$> List.filter (λ kv, str_eqb kv.1 name) body.
Definition csrf_of (body : list (rstr * rstr)) : rstr :=
  default [] (last (values_of #"csrf_token" body)).

Record EditRoleForm := mkEditRoleForm {
  er_csrf_token : rstr; er_name : rstr; er_description : rstr; er_parent_role_id : rstr }.
Record DeleteRoleForm := mkDeleteRoleForm {
  dr_csrf_token : rstr; dr_confirm : bool; dr_confirm_text : rstr }.
Record ApplyPermissionsForm := mkApplyPermissionsForm {
  ap_csrf_token : rstr; ap_confirm : bool; ap_permissions_json : rstr }.

(** [permission_keys.iter().filter_map(Permission::from_key).collect::<HashSet<_>>()]. *)
Definition known_permissions (keys : list rstr) : gset Permission :=
  list_to_set (omap from_key keys).

(** The keys of a set of permissions, in the (unspecified) iteration order. *)
Definition keys_of (perms : gset Permission) : list rstr := as_key <$> elements perms.

Section handlers.
Context `{!SqlEngine, !Text}.
Implicit Types (db : Db) (ctx : AuthContext) (jar : CookieJar) (id : Uuid).

(** What the editor may grant on a role with this parent: their own ceiling,
    capped by what the parent effectively has. *)
Definition role_cap db ctx (parent : option Uuid) : gset Permission :=
  match parent with
  | Some parent_id => grantable_permissions ctx ∩ effective_permissions_for_role db parent_id
  | None => grantable_permissions ctx
  end.

(** [viewer_capped_permissions]: the cap, the role's grants, and how many of
    them the page hides. *)
Definition viewer_capped_permissions db ctx (role : Role)
    : gset Permission * gset Permission * nat :=
  let own := own_permissions db role.(role_id) in
  let cap := role_cap db ctx role.(parent_role_id) in
  (cap, own, size (own ∖ cap)).

(** The permission rows of [build_role_detail]. *)
Definition permission_rows db ctx (role : Role) : list (rstr * bool) :=
  let '(cap, own, _) := viewer_capped_permissions db ctx role in
  (λ p, (as_key p, bool_decide (p ∈ own))) <$> List.filter (λ p, bool_decide (p ∈ cap)) ALL.

(** [render_source_page]: where a rejected [create_role] is shown again. *)
Definition render_source_page (parent_role_id_raw error : rstr) : App Response :=
  let raw := trim parent_role_id_raw in
  query (λ db,
    match (if is_empty raw then None else uuid_parse raw ≫= find_by_id db) with
    | Some parent_role => RoleDetailPage parent_role (Some error)
    | None => RolesListPage (Some error)
    end).

Definition list_page ctx : App Response :=
  _ ← lift (ensure ctx RolesManage);
  query (λ db,
    if negb (has_no_ceiling ctx) then
      match roles_for_user db ctx.(user).(uid) with
      | [only_role] => Redirect (#"/admin/roles/" ++ uuid_to_string only_role.(role_id))
      | _ => RolesListPage None
      end
    else RolesListPage None).

Definition detail ctx id : App Response :=
  _ ← lift (ensure ctx RolesManage);
  role ← query (λ db, find_by_id db id);
  role ← require role NotFound;
  mret (RoleDetailPage role None).

Definition create_role jar ctx (new_id : Uuid) (body : list (rstr * rstr)) : App Response :=
  _ ← lift (ensure ctx RolesManage);
  let b := parse_create_body body in
  _ ← lift (require_csrf jar b.(cb_csrf_token));
  let name := trim b.(cb_name) in
  let description := trim b.(cb_description) in
  let fail := render_source_page b.(cb_parent_role_id_raw) in
  if_return is_empty name || (100 <? len name) then
    fail #"Role name must be 1-100 characters.";;
  if_return 500 <? len description then
    fail #"Description must be 500 characters or fewer.";;
  existing ← query (λ db, find_by_name db name);
  if_return bool_decide (is_Some existing) then
    fail #"A role named that already exists.";;
  let raw := trim b.(cb_parent_role_id_raw) in
  found ← query (λ db, if is_empty raw then Some None
                       else Some <$> (uuid_parse raw ≫= find_by_id db));
  match found with
  | None => fail #"Not a recognized parent role."
  | Some parent =>
    creatable ← query (λ db, assignable_roles db ctx);
    parent_depth ← query (λ db,
      match parent with Some r => depth_of db r.(role_id) | None => 0%N end);
    if_return match parent with
              | None => negb (has_no_ceiling ctx)
              | Some r => negb (offers creatable r.(role_id))
              end then throw Forbidden;;
    if_return match parent with
              | None => false
              | Some _ => (MAX_ROLE_DEPTH <? parent_depth + 1)%N
              end then
      fail (#"That parent is already at the maximum nesting depth (" ++ fmt_N MAX_ROLE_DEPTH ++ #").");;
    cap ← query (λ db, role_cap db ctx (role_id <$> parent));
    let requested := known_permissions b.(cb_permission_keys) in
    if_return negb (bool_decide (requested ⊆ cap)) then throw Forbidden;;
    role ← exec (create new_id name description false (role_id <$> parent)
                   (Some ctx.(user).(uid)));
    _ ← exec (set_permissions role.(role_id) (elements requested));
    _ ← exec (audit (new_event RoleCreated Success
            |> with_actor (actor_of ctx) |> with_resource name
            |> with_metadata (Obj [(#"parent", opt_str (role_name <$> parent));
                                   (#"permissions", Arr (Str <$> keys_of requested))])));
    mret (Redirect (#"/admin/roles/" ++ uuid_to_string role.(role_id)))
  end.

Definition edit_role jar ctx id (form : EditRoleForm) : App Response :=
  _ ← lift (ensure ctx RolesManage);
  _ ← lift (require_csrf jar form.(er_csrf_token));
  role ← query (λ db, find_by_id db id);
  role ← require role NotFound;
  if_return role.(is_system) then throw Forbidden;;
  allowed ← query (λ db, ensure_can_manage_role db ctx role);
  _ ← lift allowed;
  let name := trim form.(er_name) in
  let description := trim form.(er_description) in
  let fail (msg : rstr) := mret (RoleDetailPage role (Some msg)) in
  if_return is_empty name || (100 <? len name) then
    fail #"Role name must be 1-100 characters.";;
  if_return 500 <? len description then
    fail #"Description must be 500 characters or fewer.";;
  existing ← query (λ db, find_by_name db name);
  if_return match existing with
            | Some r => negb (r.(role_id) =? id)%N
            | None => false
            end then
    fail #"A role named that already exists.";;
  let raw := trim form.(er_parent_role_id) in
  match (if is_empty raw then Some None else Some <$> uuid_parse raw) with
  | None => fail #"Not a recognized parent role."
  | Some new_parent_id =>
    let moved := negb (bool_decide (new_parent_id = role.(parent_role_id))) in
    cycle ← query (λ db,
      match new_parent_id with Some p => would_create_cycle db role.(role_id) p | None => false end);
    creatable ← query (λ db, assignable_roles db ctx);
    parent_depth ← query (λ db,
      match new_parent_id with Some p => depth_of db p | None => 0%N end);
    if_return moved && bool_decide (new_parent_id = None) && negb (has_no_ceiling ctx) then
      throw Forbidden;;
    if_return moved && cycle then
      fail #"That would create a cycle in the role hierarchy.";;
    if_return moved && negb (has_no_ceiling ctx)
              && match new_parent_id with Some p => negb (offers creatable p) | None => false end then
      throw Forbidden;;
    if_return moved && bool_decide (is_Some new_parent_id)
              && (MAX_ROLE_DEPTH <? parent_depth + 1)%N then
      fail (#"That parent is already at the maximum nesting depth (" ++ fmt_N MAX_ROLE_DEPTH ++ #").");;
    _ ← exec (update id name description new_parent_id);
    _ ← exec (audit (new_event RoleChanged Success
            |> with_actor (actor_of ctx) |> with_resource name
            |> with_metadata (Obj
                 [(#"new_parent_role_id", opt_str (uuid_to_string <$> new_parent_id));
                  (#"previous_description", Str role.(role_description));
                  (#"previous_name", Str role.(role_name));
                  (#"previous_parent_role_id", opt_str (uuid_to_string <$> role.(parent_role_id)))])));
    mret (Redirect (#"/admin/roles/" ++ uuid_to_string id))
  end.

(** The message shared by [delete_role_confirm] and [delete_role]. *)
Definition still_assigned (role : Role) (user_count child_count : nat) : AppError :=
  Validation (#"Can't delete " ++ quoted role.(role_name) ++ #": "
    ++ fmt_N (N.of_nat user_count) ++ #" user(s) and " ++ fmt_N (N.of_nat child_count)
    ++ #" child role(s) are still assigned to it. Reassign them first.").

Definition delete_role_confirm ctx id : App Response :=
  _ ← lift (ensure ctx RolesManage);
  role ← query (λ db, find_by_id db id);
  role ← require role NotFound;
  if_return role.(is_system) then throw Forbidden;;
  allowed ← query (λ db, ensure_can_manage_role db ctx role);
  _ ← lift allowed;
  user_count ← query (λ db, user_count db id);
  child_count ← query (λ db, length (children_of db id));
  if_return (0 <? user_count) || (0 <? child_count) then
    throw (still_assigned role user_count child_count);;
  mret (ConfirmPage #"Remove role"
    (#"This will permanently remove the role " ++ quoted role.(role_name)
     ++ #". It has no users or child roles assigned, so this is safe.")
    (#"/admin/roles/" ++ uuid_to_string id ++ #"/remove") [] (Some role.(role_name))).

Definition delete_role jar ctx id (form : DeleteRoleForm) : App Response :=
  _ ← lift (ensure ctx RolesManage);
  _ ← lift (require_csrf jar form.(dr_csrf_token));
  if_return negb form.(dr_confirm) then throw (Validation #"Removal was not confirmed.");;
  role ← query (λ db, find_by_id db id);
  role ← require role NotFound;
  if_return role.(is_system) then throw Forbidden;;
  allowed ← query (λ db, ensure_can_manage_role db ctx role);
  _ ← lift allowed;
  _ ← lift (require_typed_confirmation form.(dr_confirm_text) role.(role_name));
  user_count ← query (λ db, user_count db id);
  child_count ← query (λ db, length (children_of db id));
  if_return (0 <? user_count) || (0 <? child_count) then
    throw (still_assigned role user_count child_count);;
  _ ← exec (delete id);
  _ ← exec (audit (new_event RoleDeleted Success
          |> with_actor (actor_of ctx) |> with_resource role.(role_name)));
  mret (Redirect #"/admin/roles").

(** The set [update_permissions] asks to confirm, and the one
    [apply_permissions] writes: what was requested within the cap, and
    whatever the role already has outside it. *)
Definition update_permissions jar ctx id (body : list (rstr * rstr)) : App Response :=
  _ ← lift (ensure ctx RolesManage);
  _ ← lift (require_csrf jar (csrf_of body));
  role ← query (λ db, find_by_id db id);
  role ← require role NotFound;
  allowed ← query (λ db, ensure_can_manage_role db ctx role);
  _ ← lift allowed;
  cap ← query (λ db, role_cap db ctx role.(parent_role_id));
  let requested := known_permissions (values_of #"permissions" body) in
  if_return negb (bool_decide (requested ⊆ cap)) then throw Forbidden;;
  current ← query (λ db, own_permissions db id);
  let outside_cap := current ∖ cap in
  let final_set := requested ∪ outside_cap in
  let editable_current := current ∩ cap in
  let added := size (requested ∖ current) in
  let removed := size (editable_current ∖ requested) in
  mret (ConfirmPage #"Save role permissions"
    (#"This will set " ++ quoted role.(role_name) ++ #"'s permissions to exactly "
     ++ fmt_N (N.of_nat (size final_set)) ++ #" selected (" ++ fmt_N (N.of_nat added)
     ++ #" added, " ++ fmt_N (N.of_nat removed)
     ++ #" removed). A role currently in use takes effect for its members immediately.")
    (#"/admin/roles/" ++ uuid_to_string id ++ #"/permissions/apply")
    [(#"permissions_json", strings_to_json (keys_of final_set))] None).

Definition apply_permissions jar ctx id (form : ApplyPermissionsForm) : App Response :=
  _ ← lift (ensure ctx RolesManage);
  _ ← lift (require_csrf jar form.(ap_csrf_token));
  if_return negb form.(ap_confirm) then
    throw (Validation #"Saving permissions was not confirmed.");;
  role ← query (λ db, find_by_id db id);
  role ← require role NotFound;
  allowed ← query (λ db, ensure_can_manage_role db ctx role);
  _ ← lift allowed;
  permission_keys ← require (strings_of_json form.(ap_permissions_json))
                      (Validation #"Malformed permission set.");
  cap ← query (λ db, role_cap db ctx role.(parent_role_id));
  let requested := known_permissions permission_keys in
  current ← query (λ db, own_permissions db id);
  let outside_cap := current ∖ cap in
  let final_set := (requested ∩ cap) ∪ outside_cap in
  _ ← exec (set_permissions id (elements final_set));
  _ ← exec (audit (new_event RoleChanged Success
          |> with_actor (actor_of ctx) |> with_resource role.(role_name)
          |> with_metadata (Obj
               [(#"new_permissions", Arr (Str <$> keys_of final_set));
                (#"previous_permissions", Arr (Str <$> keys_of current))])));
  mret (Redirect (#"/admin/roles/" ++ uuid_to_string id)).

(** [repo::role_module_visibility]. *)
Definition visibility_for_role db id : option (gset rstr) :=
  let rows := filter (λ p, p.1 = id) db.(role_module_visibility) in
  if bool_decide (rows = ∅) then None else Some (set_map snd rows).

Definition effective_restriction_for_user db (uid : Uuid) : option (gset rstr) :=
  let assigned := filter (λ p, p.1 = uid) db.(user_roles) in
  if existsb (λ p, bool_decide (visibility_for_role db p.2 = None)) (elements assigned)
  then None
  else Some (⋃ ((λ p, default ∅ (visibility_for_role db p.2)) <$> elements assigned)).

Definition set_visible_modules id (keys : list rstr) db : result DbError (unit * Db) :=
  if negb (bool_decide (NoDup keys)) then Err DuplicateKey
  else if negb (bool_decide (keys = [])) && dangling db.(roles) (Some id)
  then Err ForeignKeyViolation
  else Ok ((), set_visibility (λ t, list_to_set ((λ k, (id, k)) <$> keys)
                                    ∪ filter (λ p, p.1 ≠ id) t) db).

(** A module may be shown to a role that has one of its view permissions. *)
Definition module_allowed (role_effective : gset Permission) (m : ModuleView) : bool :=
  bool_decide (m.(view_permissions) = []) ||
  existsb (λ p, bool_decide (p ∈ role_effective)) m.(view_permissions).

Definition update_visibility (all_modules : list ModuleView) jar ctx id
    (body : list (rstr * rstr)) : App Response :=
  _ ← lift (ensure ctx RolesManage);
  _ ← lift (require_csrf jar (csrf_of body));
  let module_keys := values_of #"modules" body in
  role ← query (λ db, find_by_id db id);
  role ← require role NotFound;
  allowed ← query (λ db, ensure_can_manage_role db ctx role);
  _ ← lift allowed;
  role_effective ← query (λ db, effective_permissions_for_role db id);
  if_return negb (forallb (λ key,
              match List.find (λ m, str_eqb m.(module_key) key) all_modules with
              | Some m => module_allowed role_effective m
              | None => false
              end) module_keys) then throw Forbidden;;
  _ ← exec (set_visible_modules id module_keys);
  _ ← exec (audit (new_event RoleChanged Success
          |> with_actor (actor_of ctx) |> with_resource role.(role_name)
          |> with_metadata (Obj [(#"dashboard_visibility_modules", Arr (Str <$> module_keys))])));
  mret (Redirect (#"/admin/roles/" ++ uuid_to_string id)).
End handlers.
