(* ===== verification/RoleSpec.v ===== *)
(** * What a role handler may do

    [role_change db ctx db'] is the contract of the role handlers, stated on the
    tables and the unbounded hierarchy: which rows a request may write, and
    under which conditions.  Every handler refines it: whatever is submitted, a
    run leaves the database as it was or makes one such change.  The theorems
    about the system are then proved from the contract. *)

From S2P Require Import Prelude Permission Json AuditLog RoleStore RoleTree Web Delegation.
From S2P Require Import RoleRoutes.

(** ** Effects on the tables *)

Definition logged (e : AuditEvent) (db : Db) : Db := set_audit_log (λ log, record log e) db.

Definition granted (id : Uuid) (perms : gset Permission) (db : Db) : Db :=
  set_role_permissions (λ t, list_to_set ((λ p, (id, as_key p)) <$> elements perms)
                             ∪ filter (λ p, p.1 ≠ id) t) db.

Definition shown (id : Uuid) (keys : list rstr) (db : Db) : Db :=
  set_visibility (λ t, list_to_set ((λ k, (id, k)) <$> keys) ∪ filter (λ p, p.1 ≠ id) t) db.

Definition removed (id : Uuid) (db : Db) : Db :=
  set_visibility (filter (λ p, p.1 ≠ id))
    (set_user_roles (filter (λ p, p.2 ≠ id))
      (set_role_permissions (filter (λ p, p.1 ≠ id)) (set_roles (base.delete id) db))).

Definition renamed (r : Role) (name description : rstr) (parent : option Uuid) : Role :=
  mkRole r.(role_id) name description r.(is_system) parent r.(created_by).

Section spec.
Context `{!SqlEngine}.
Implicit Types (db : Db) (ctx : AuthContext) (id : Uuid) (role : Role).

(** The roles a request's user holds. *)
Definition holds db ctx id : Prop :=
  ∃ own, own ∈ roles_for_user db ctx.(user).(uid) ∧ own.(role_id) = id.

Definition may_manage db ctx role : Prop :=
  RolesManage ∈ ctx.(permissions) ∧
  (has_no_ceiling ctx = true ∨
   role.(is_system) = false ∧ ¬ holds db ctx role.(role_id) ∧
   ∃ own, holds db ctx own ∧ descends db role.(role_id) own).

(** Where a role may be put: at the root only without a ceiling, otherwise
    under an existing role of at most two levels within reach. *)
Definition may_place db ctx (parent : option Uuid) : Prop :=
  match parent with
  | None => has_no_ceiling ctx = true
  | Some p =>
      is_Some (db.(roles) !! p) ∧ depth_le db 2 p ∧
      (has_no_ceiling ctx = true ∨ ∃ own, holds db ctx own ∧ descends db p own)
  end.

(** Every change is recorded under the name of the user who made it. *)
Definition attributed ctx (e : AuditEvent) : Prop :=
  e.(ev_actor) = Some (actor_of ctx) ∧ e.(ev_outcome) = Success.

Inductive role_change db ctx : Db → Prop :=
| ch_create new_id name description parent requested e :
    attributed ctx e →
    RolesManage ∈ ctx.(permissions) →
    db.(roles) !! new_id = None →
    1 ≤ len name ≤ 100 → find_by_name db name = None →
    may_place db ctx parent →
    requested ⊆ role_cap db ctx parent →
    role_change db ctx
      (logged e (granted new_id requested
        (set_roles (insert new_id
           (mkRole new_id name description false parent (Some ctx.(user).(uid)))) db)))
| ch_edit id role name description parent e :
    attributed ctx e →
    db.(roles) !! id = Some role → role.(is_system) = false → may_manage db ctx role →
    1 ≤ len name ≤ 100 →
    (parent ≠ role.(parent_role_id) →
       may_place db ctx parent ∧ ∀ p, parent = Some p → ¬ descends db p id) →
    role_change db ctx
      (logged e (set_roles (insert id (renamed role name description parent)) db))
| ch_delete id role e :
    attributed ctx e →
    db.(roles) !! id = Some role → role.(is_system) = false → may_manage db ctx role →
    (∀ u, (u, id) ∉ db.(user_roles)) →
    (∀ c r, db.(roles) !! c = Some r → r.(parent_role_id) ≠ Some id) →
    role_change db ctx (logged e (removed id db))
| ch_permissions id role requested e :
    attributed ctx e →
    db.(roles) !! id = Some role → may_manage db ctx role →
    role_change db ctx
      (logged e (granted id
         (requested ∩ role_cap db ctx role.(parent_role_id)
          ∪ own_permissions db id ∖ role_cap db ctx role.(parent_role_id)) db))
| ch_visibility id role keys e :
    attributed ctx e →
    db.(roles) !! id = Some role → may_manage db ctx role → NoDup keys →
    role_change db ctx (logged e (shown id keys db)).

(** A context resolved for this database: [CurrentUser] produces no other. *)
Definition authentic db ctx : Prop :=
  db.(users) !! ctx.(user).(uid) = Some ctx.(user) ∧
  ctx.(permissions) = effective_permissions db ctx.(user).(uid).

(** ** Well-formed tables *)

Record wf db : Prop := {
  wf_keyed : keyed db;
  wf_parent id r p : db.(roles) !! id = Some r → r.(parent_role_id) = Some p →
                     is_Some (db.(roles) !! p);
  wf_system id r : db.(roles) !! id = Some r → r.(is_system) = true → r.(parent_role_id) = None;
  wf_acyclic : acyclic db;
  wf_grants id k : (id, k) ∈ db.(role_permissions) → is_Some (db.(roles) !! id);
  wf_assigned u id : (u, id) ∈ db.(user_roles) → is_Some (db.(users) !! u) ∧ is_Some (db.(roles) !! id);
  wf_user_keyed u r : db.(users) !! u = Some r → r.(uid) = u;
}.

(** ** The statements, run on well-formed tables *)

Lemma dangling_false {A} (t : gmap Uuid A) k : dangling t (Some k) = false ↔ is_Some (t !! k).
Proof. cbn. by rewrite negb_false_iff, bool_decide_eq_true. Qed.

Lemma audit_ok db e u :
  (entry_of e).(user_id) = Some u → is_Some (db.(users) !! u) →
  audit e db = Ok ((), logged e db).
Proof. intros He Hu. unfold audit. by rewrite He, (proj2 (dangling_false _ _) Hu). Qed.

Lemma set_permissions_ok db id (s : gset Permission) :
  is_Some (db.(roles) !! id) → set_permissions id (elements s) db = Ok ((), granted id s db).
Proof.
  intros Hid. unfold set_permissions.
  rewrite bool_decide_true by apply NoDup_elements.
  by rewrite (proj2 (dangling_false _ _) Hid), andb_false_r.
Qed.

Lemma create_ok new_id name description system parent creator db r db' :
  create new_id name description system parent creator db = Ok (r, db') →
  db.(roles) !! new_id = None ∧ find_by_name db name = None ∧
  r = mkRole new_id name description system parent creator ∧
  db' = set_roles (insert new_id r) db.
Proof.
  unfold create, find_by_id. case_bool_decide as Hid; [done|].
  case_bool_decide as Hname; [done|]. destruct (dangling (roles db) parent); [done|].
  destruct (dangling (users db) creator); [done|]. cbn. rewrite lookup_insert_eq.
  intros [= <- <-]. apply eq_None_not_Some in Hid, Hname. done.
Qed.

Lemma user_count_zero db id : user_count db id = 0 → ∀ u, (u, id) ∉ db.(user_roles).
Proof.
  unfold user_count. intros Hs%size_empty_inv u Hu.
  apply (not_elem_of_empty (C:=gset (Uuid * Uuid)) (u, id)). rewrite <- Hs. by apply elem_of_filter.
Qed.

Lemma ensure_can_manage_role_ok db ctx role x :
  ensure_can_manage_role db ctx role = Ok x → may_manage db ctx role.
Proof.
  intros Hok. destruct (has_no_ceiling ctx) eqn:Hc.
  - split; [by apply has_no_ceiling_spec|by left].
  - destruct (manage_scoped _ _ _ _ Hc Hok) as (Hm & Hsys & Hown & own & Ho & Hd).
    split; [done|right]. split_and!; [done| |].
    + intros (o & ? & ?). by apply (Hown o).
    + exists own.(role_id). split; [by exists own|done].
Qed.

Lemma offers_reach db ctx p :
  keyed db → offers (assignable_roles db ctx) p = true →
  has_no_ceiling ctx = true ∨ ∃ own, holds db ctx own ∧ descends db p own.
Proof.
  intros Hk Ho. destruct (has_no_ceiling ctx) eqn:Hc; [by left|right].
  destruct (assignable_scoped db ctx p Hk Hc Ho) as (own & Hown & Hd & _).
  exists own.(role_id). split; [by exists own|done].
Qed.

(** The depth test of the handlers, in terms of the tree. *)
Lemma depth_test db p :
  (MAX_ROLE_DEPTH <? depth_of db p + 1)%N = false → depth_le db 2 p.
Proof.
  intros Hd%N.ltb_ge. apply depth_of_le; [unfold MAX_ANCESTOR_WALK; lia|].
  unfold MAX_ROLE_DEPTH in Hd. lia.
Qed.

(** Within the depth test the cycle test is exact. *)
Lemma cycle_test db id p :
  would_create_cycle db id p = false → depth_le db 2 p → ¬ descends db p id.
Proof.
  intros Hc Hd Hdesc. apply not_true_iff_false in Hc. apply Hc. unfold would_create_cycle.
  apply is_within_subtree_exact; [|done].
  apply (anc_mono db 2); [unfold MAX_ANCESTOR_WALK; lia|done].
Qed.
End spec.

#[export] Hint Resolve wf_keyed wf_acyclic : rust.

(** ** The role handlers refine their contract

    One theorem per handler: a run from a well-formed database, for an
    authenticated user and any form, leaves every table as it was or performs
    one [role_change]. *)


Section refine.
Context `{!SqlEngine, !Text}.
Implicit Types (db : Db) (ctx : AuthContext) (jar : CookieJar) (id : Uuid).

(** A run either changes nothing, or changes what the contract allows and
    answers with a redirect. *)
Definition refines db ctx (m : App Response) : Prop :=
  ∀ r db', m db = (r, db') →
    db' = db ∨ (∃ to, r = Ok (Redirect to)) ∧ role_change db ctx db'.

Lemma name_ok name : is_empty name || (100 <? len name) = false → 1 ≤ len name ≤ 100.
Proof.
  intros [Hne Hle]%orb_false_iff. apply Nat.ltb_ge in Hle. split; [|done].
  destruct name as [|c s]; [done|]. cbn. pose proof (utf8_len_pos c). lia.
Qed.

Lemma render_source_page_inv raw msg db r db' :
  render_source_page raw msg db = (r, db') → db' = db.
Proof. intros [_ ->]%query_inv. done. Qed.

(** The statements of an authenticated request succeed once its guards do. *)
Ltac settle Hu :=
  repeat match goal with
  | H : set_permissions _ (elements _) _ = _ |- _ =>
      rewrite set_permissions_ok in H by (cbn; by rewrite ?lookup_insert_eq)
  | H : audit _ _ = _ |- _ =>
      erewrite audit_ok in H; [|reflexivity|cbn; rewrite Hu; by eexists]
  | H : create _ _ _ _ _ _ _ = Ok _ |- _ => apply create_ok in H as (? & ? & ? & ?); subst
  | H : Ok _ = Ok _ |- _ => injection H as ?; subst
  | H : Ok _ = Err _ |- _ => discriminate H
  end.

Ltac run Hrun :=
  repeat (run_step; cbv beta zeta in *; try by left);
  try (apply render_source_page_inv in Hrun; by left).

(** The two placement guards of [create_role]. *)
Lemma create_placement db ctx (parent : option Role) :
  keyed db →
  (∀ r, parent = Some r → ∃ id, db.(roles) !! id = Some r) →
  match parent with
  | Some r => negb (offers (assignable_roles db ctx) (role_id r))
  | None => negb (has_no_ceiling ctx)
  end = false →
  match parent with
  | Some _ => (MAX_ROLE_DEPTH <?
      match parent with Some r => depth_of db (role_id r) | None => 0 end + 1)%N
  | None => false
  end = false →
  may_place db ctx (role_id <$> parent).
Proof.
  intros Hk Hrow Hscope Hdepth. destruct parent as [r|]; cbn.
  - apply negb_false_iff in Hscope. split_and!; [by eapply assignable_exists| |by eapply offers_reach].
    by apply depth_test.
  - by apply negb_false_iff in Hscope.
Qed.

Lemma found_row db raw (parent : option Role) x :
  (if is_empty raw then Some None else Some <$> (uuid_parse raw ≫= find_by_id db)) = Some parent →
  parent = Some x → ∃ id, db.(roles) !! id = Some x.
Proof.
  destruct (is_empty raw); [by intros [= <-]|].
  destruct (uuid_parse raw) as [id|]; [|done]. cbn. unfold find_by_id.
  destruct (roles db !! id) as [q|] eqn:Hq; [|done]. intros [= <-] [= <-]. by exists id.
Qed.

Lemma create_role_refined db ctx jar new_id body :
  wf db → authentic db ctx → refines db ctx (create_role jar ctx new_id body).
Proof.
  intros Hwf [Hu Hperm] r db' Hrun. unfold create_role in Hrun. run Hrun.
  match type of Hrun with match ?f with Some _ => _ | None => _ end _ = _ =>
    destruct f as [parent|] eqn:Hfound end.
  2: { apply render_source_page_inv in Hrun; by left. }
  run Hrun. all: settle Hu. right. split; [by eexists|]. bool_prop.
  apply ch_create; [done|by eapply ensure_ok|done|by apply name_ok; apply orb_false_iff|done| |done].
  eapply create_placement; [apply Hwf| |done|done].
  intros q Hq. by eapply found_row.
Qed.

(** The placement guards of [edit_role] for a role that moves. *)
Lemma edit_placement db ctx id (old new : option Uuid) :
  keyed db → new ≠ old →
  (∀ p, new = Some p → is_Some (db.(roles) !! p)) →
  negb (bool_decide (new = old)) && bool_decide (new = None) && negb (has_no_ceiling ctx) = false →
  negb (bool_decide (new = old)) &&
    match new with Some p => would_create_cycle db id p | None => false end = false →
  negb (bool_decide (new = old)) && negb (has_no_ceiling ctx) &&
    match new with Some p => negb (offers (assignable_roles db ctx) p) | None => false end = false →
  negb (bool_decide (new = old)) && bool_decide (is_Some new) &&
    (MAX_ROLE_DEPTH <? match new with Some p => depth_of db p | None => 0 end + 1)%N = false →
  may_place db ctx new ∧ ∀ p, new = Some p → ¬ descends db p id.
Proof.
  intros Hk Hne Hrow Hroot Hcycle Hscope Hdepth.
  rewrite (bool_decide_false _ Hne) in *. destruct new as [p|]; cbn in *.
  - assert (depth_le db 2 p) as Hd by by apply depth_test.
    split; [|intros q [= <-]; by apply cycle_test]. split_and!; [by apply Hrow|done|].
    destruct (has_no_ceiling ctx) eqn:Hc; [by left|].
    rewrite <- Hc. apply offers_reach; [done|]. by apply negb_false_iff.
  - split; [by apply negb_false_iff|done].
Qed.

Lemma update_ok db id role name description parent x db' :
  db.(roles) !! id = Some role → update id name description parent db = Ok (x, db') →
  db' = set_roles (insert id (renamed role name description parent)) db ∧
  ∀ p, parent = Some p → is_Some (db.(roles) !! p).
Proof.
  intros Hid. unfold update, find_by_id. rewrite Hid. destruct (existsb _ _); [done|].
  destruct (dangling (roles db) parent) eqn:Hd; [done|]. intros [= _ <-]. split; [done|].
  intros p ->. by apply dangling_false.
Qed.

Lemma edit_role_refined db ctx jar id form :
  wf db → authentic db ctx → refines db ctx (edit_role jar ctx id form).
Proof.
  intros Hwf [Hu Hperm] r db' Hrun. unfold edit_role in Hrun. run Hrun.
  match type of Hrun with match ?f with Some _ => _ | None => _ end _ = _ =>
    destruct f as [parent|] eqn:Hfound end; [|run_step; by left].
  run Hrun.
  all: match goal with
    H : find_by_id _ _ = Some ?role, Hup : update _ _ _ _ _ = Ok _ |- _ =>
      destruct (update_ok _ _ role _ _ _ _ _ H Hup) as [-> Hrow] end.
  all: settle Hu. right. split; [by eexists|].
  match goal with H : find_by_id db id = Some ?role |- _ =>
    pose proof (wf_keyed _ Hwf _ _ H) as Hkey end.
  apply ch_edit; [done|done|done|by eapply ensure_can_manage_role_ok|by apply name_ok|].
  intros Hne. rewrite <- Hkey. eapply edit_placement; [apply Hwf|by apply Hne|done..].
Qed.

Lemma children_of_nil db id :
  length (children_of db id) = 0 →
  ∀ c r, db.(roles) !! c = Some r → r.(parent_role_id) ≠ Some id.
Proof.
  intros Hl%nil_length_inv c r Hc Hp. apply (not_elem_of_nil r). rewrite <- Hl.
  unfold children_of. apply elem_of_filter_rows. split; [by exists c|].
  by apply bool_decide_eq_true.
Qed.

Lemma delete_ok db id x db' : delete id db = Ok (x, db') → db' = removed id db.
Proof. unfold delete. destruct (existsb _ _); [done|]. by intros [= _ <-]. Qed.

Lemma delete_role_refined db ctx jar id form :
  wf db → authentic db ctx → refines db ctx (delete_role jar ctx id form).
Proof.
  intros Hwf [Hu Hperm] r db' Hrun. unfold delete_role in Hrun. run Hrun.
  all: match goal with H : delete _ _ = Ok _ |- _ => apply delete_ok in H as -> end.
  all: settle Hu. right. split; [by eexists|].
  match goal with H : (0 <? _) || (0 <? _) = false |- _ =>
    apply orb_false_iff in H as [Hus%Nat.ltb_ge Hch%Nat.ltb_ge] end.
  eapply ch_delete; [done|done|done|by eapply ensure_can_manage_role_ok| |].
  - apply user_count_zero. lia.
  - apply children_of_nil. lia.
Qed.

Lemma apply_permissions_refined db ctx jar id form :
  wf db → authentic db ctx → refines db ctx (apply_permissions jar ctx id form).
Proof.
  intros Hwf [Hu Hperm] r db' Hrun. unfold apply_permissions in Hrun. run Hrun.
  all: settle Hu. right. split; [by eexists|].
  apply ch_permissions; [done|done|by eapply ensure_can_manage_role_ok].
Qed.

Lemma set_visible_modules_ok db id keys x db' :
  set_visible_modules id keys db = Ok (x, db') → db' = shown id keys db ∧ NoDup keys.
Proof.
  unfold set_visible_modules. case_bool_decide; [|done]. cbn.
  destruct (_ && _); [done|]. by intros [= _ <-].
Qed.

Lemma update_visibility_refined mods db ctx jar id body :
  wf db → authentic db ctx → refines db ctx (update_visibility mods jar ctx id body).
Proof.
  intros Hwf [Hu Hperm] r db' Hrun. unfold update_visibility in Hrun. run Hrun.
  all: match goal with H : set_visible_modules _ _ _ = Ok _ |- _ =>
    apply set_visible_modules_ok in H as [-> Hnd] end.
  all: settle Hu. right. split; [by eexists|].
  eapply ch_visibility; [done|done|by eapply ensure_can_manage_role_ok|done].
Qed.
End refine.
