(* ===== verification/RoleSafety.v ===== *)
(** * Safety of delegated role administration

    Consequences of the contract of [RoleSpec]: every change keeps the tables
    well formed and the hierarchy acyclic, stays within the administrator's
    subtree, and never gives them a permission they did not hold. *)

From S2P Require Import Prelude Permission Json AuditLog RoleStore RoleTree Web Delegation.
From S2P Require Import RoleRoutes RoleSpec.

Section safety.
Context `{!SqlEngine}.
Implicit Types (db : Db) (ctx : AuthContext) (id x a : Uuid) (role : Role).

(** ** Reading the tables after a change *)

Lemma parent_of_roles db db' x : db'.(roles) !! x = db.(roles) !! x → parent_of db' x = parent_of db x.
Proof. unfold parent_of, find_by_id. by intros ->. Qed.

Lemma own_grants db db' x :
  (∀ k, (x, k) ∈ db'.(role_permissions) ↔ (x, k) ∈ db.(role_permissions)) →
  own_permissions db' x = own_permissions db x.
Proof. intros Hk. apply set_eq. intros p. rewrite !elem_of_own. apply Hk. Qed.

Lemma granted_other db id s x k :
  x ≠ id → (x, k) ∈ (granted id s db).(role_permissions) ↔ (x, k) ∈ db.(role_permissions).
Proof.
  intros Hne. cbn. rewrite elem_of_union, elem_of_list_to_set, list_elem_of_fmap, elem_of_filter.
  cbn. naive_solver.
Qed.

(** Replacing a role's grants replaces exactly that role's own permissions. *)
Lemma own_granted_same db id s : own_permissions (granted id s db) id = s.
Proof.
  apply set_eq. intros p. rewrite elem_of_own. cbn.
  rewrite elem_of_union, elem_of_list_to_set, list_elem_of_fmap, elem_of_filter. cbn. split.
  - intros [(q & [= Hk%(inj as_key)] & Hq)|[? _]]; [|done]. subst. by apply elem_of_elements.
  - intros Hp. left. exists p. split; [done|by apply elem_of_elements].
Qed.

Lemma visibility_ext db db' x :
  (∀ k, (x, k) ∈ db'.(role_module_visibility) ↔ (x, k) ∈ db.(role_module_visibility)) →
  visibility_for_role db' x = visibility_for_role db x.
Proof.
  intros Hk. unfold visibility_for_role.
  assert (filter (λ p, p.1 = x) db'.(role_module_visibility)
          = filter (λ p, p.1 = x) db.(role_module_visibility)) as ->; [|done].
  apply set_eq. intros [a k]. rewrite !elem_of_filter. cbn. split; intros [-> ?]; by rewrite Hk in *.
Qed.

(** ** The one role a change touches *)

(** Nobody is assigned the role and no other role is below it. *)
Definition unused db id : Prop :=
  (∀ u, (u, id) ∉ db.(user_roles)) ∧ ∀ x, descends db x id → x = id.

Record touch db ctx db' id : Prop := {
  t_rows a : a ≠ id → db'.(roles) !! a = db.(roles) !! a;
  t_own a : a ≠ id → own_permissions db' a = own_permissions db a;
  t_shown a k : a ≠ id → (a, k) ∈ db'.(role_module_visibility) ↔ (a, k) ∈ db.(role_module_visibility);
  t_assigned : db'.(user_roles) = db.(user_roles);
  t_users : db'.(users) = db.(users);
  t_sessions : db'.(sessions) = db.(sessions);
  t_who : db.(roles) !! id = None ∨
          ∃ role, db.(roles) !! id = Some role ∧ may_manage db ctx role;
  t_place :
    parent_of db' id = parent_of db id ∨
    parent_of db' id = None ∧ (has_no_ceiling ctx = true ∨ unused db id) ∨
    ∃ p, parent_of db' id = Some p ∧ may_place db ctx (Some p) ∧ ¬ descends db p id;
}.

(** Only existing roles are ancestors of an existing role. *)
Lemma descends_exists db x a :
  wf db → is_Some (db.(roles) !! x) → descends db x a → is_Some (db.(roles) !! a).
Proof.
  intros Hwf [rx Hx] [n Hn]. revert x rx Hx Hn.
  induction n as [|n IH]; intros x rx Hx Hn; [injection Hn as <-; by eexists|].
  cbn in Hn. rewrite (parent_of_row _ _ _ Hx) in Hn.
  destruct (parent_role_id rx) as [p|] eqn:Hp; [|done].
  destruct (wf_parent _ Hwf _ _ _ Hx Hp) as [rp Hrp]. by apply (IH p rp).
Qed.

(** Nothing refers to a role that does not exist. *)
Lemma absent_unused db id : wf db → db.(roles) !! id = None → unused db id.
Proof.
  intros Hwf Hid. split.
  - intros u [_ [r Hr]]%(wf_assigned _ Hwf). by rewrite Hid in Hr.
  - intros x Hx. destruct (descends_inv _ _ _ Hx) as [|(p & Hp & Hpid)]; [done|].
    unfold parent_of, find_by_id in Hp. destruct (roles db !! x) as [rx|] eqn:Hrx; [|done].
    destruct (descends_exists db x id Hwf) as [r Hr]; [by eexists|done|]. by rewrite Hid in Hr.
Qed.

Lemma leaf_unused db id :
  (∀ u, (u, id) ∉ db.(user_roles)) →
  (∀ c r, db.(roles) !! c = Some r → r.(parent_role_id) ≠ Some id) → unused db id.
Proof.
  intros Hu Hleaf. split; [done|]. intros x [n Hn]. revert x Hn.
  induction n as [|n IH]; intros x Hn; [by injection Hn|].
  cbn in Hn. destruct (parent_of db x) as [p|] eqn:Hp; [|done].
  cbn in Hn. apply IH in Hn as ->. unfold parent_of, find_by_id in Hp.
  destruct (roles db !! x) as [rx|] eqn:Hx; [|done]. by destruct (Hleaf x rx).
Qed.

Lemma not_below_absent db p id :
  wf db → db.(roles) !! id = None → is_Some (db.(roles) !! p) → ¬ descends db p id.
Proof.
  intros Hwf Hid Hp Hd. destruct (descends_exists db p id Hwf Hp Hd) as [r Hr].
  by rewrite Hid in Hr.
Qed.

(** Removing an unassigned role removes no assignment. *)
Lemma unassigned_filter db id :
  (∀ u, (u, id) ∉ db.(user_roles)) → filter (λ p : Uuid * Uuid, p.2 ≠ id) db.(user_roles) = db.(user_roles).
Proof.
  intros Hu. apply set_eq. intros [u r]. rewrite elem_of_filter. cbn.
  split; [tauto|]. intros Hin. split; [|done]. intros ->. by apply (Hu u).
Qed.

Lemma create_touch db ctx new_id role requested e :
  wf db → db.(roles) !! new_id = None → may_place db ctx role.(parent_role_id) →
  touch db ctx (logged e (granted new_id requested (set_roles (insert new_id role) db))) new_id.
Proof.
  intros Hwf Hid Hplace. split; cbn; try done.
  - intros a Ha. by rewrite lookup_insert_ne.
  - intros a Ha. apply own_grants. intros k. by apply (granted_other (set_roles _ db)).
  - by left.
  - rewrite (parent_of_row _ _ role) by apply lookup_insert_eq.
    destruct (parent_role_id role) as [p|]; [|right; left; split; [done|by left]].
    right. right. exists p. split; [done|split; [done|]].
    destruct Hplace as [Hp _]. by apply not_below_absent.
Qed.

Lemma edit_touch db ctx id role name description parent e :
  db.(roles) !! id = Some role → may_manage db ctx role →
  (parent ≠ role.(parent_role_id) →
     may_place db ctx parent ∧ ∀ p, parent = Some p → ¬ descends db p id) →
  touch db ctx (logged e (set_roles (insert id (renamed role name description parent)) db)) id.
Proof.
  intros Hid Hm Hplace. split; cbn; try done.
  - intros a Ha. by rewrite lookup_insert_ne.
  - right. by exists role.
  - rewrite (parent_of_row _ _ (renamed role name description parent)) by apply lookup_insert_eq.
    rewrite (parent_of_row _ _ _ Hid). cbn.
    destruct (decide (parent = parent_role_id role)) as [->|Hne]; [by left|right].
    destruct (Hplace Hne) as [Hp Hb]. destruct parent as [p|]; [|left; split; [done|by left]].
    right. exists p. split; [done|split; [done|]]. by apply Hb.
Qed.

Lemma delete_touch db ctx id role e :
  db.(roles) !! id = Some role → may_manage db ctx role →
  (∀ u, (u, id) ∉ db.(user_roles)) →
  (∀ c r, db.(roles) !! c = Some r → r.(parent_role_id) ≠ Some id) →
  touch db ctx (logged e (removed id db)) id.
Proof.
  intros Hid Hm Hu Hleaf. split; cbn; try done.
  - intros a Ha. by rewrite lookup_delete_ne.
  - intros a Ha. apply own_grants. intros k. cbn. rewrite elem_of_filter. cbn. naive_solver.
  - intros a k Ha. rewrite elem_of_filter. cbn. naive_solver.
  - by apply unassigned_filter.
  - right. by exists role.
  - right. left. split; [|right; by apply leaf_unused].
    unfold parent_of, find_by_id. cbn. by rewrite lookup_delete_eq.
Qed.

Lemma permissions_touch db ctx id role s e :
  db.(roles) !! id = Some role → may_manage db ctx role → touch db ctx (logged e (granted id s db)) id.
Proof.
  intros Hid Hm. split; cbn; try done.
  - intros a Ha. apply own_grants. intros k. by apply granted_other.
  - right. by exists role.
  - by left.
Qed.
Lemma visibility_touch db ctx id role keys e :
  db.(roles) !! id = Some role → may_manage db ctx role → touch db ctx (logged e (shown id keys db)) id.
Proof.
  intros Hid Hm. split; cbn; try done.
  - intros a k Ha. rewrite elem_of_union, elem_of_list_to_set, list_elem_of_fmap, elem_of_filter.
    cbn. naive_solver.
  - right. by exists role.
  - by left.
Qed.
Lemma change_touch db ctx db' : wf db → role_change db ctx db' → ∃ id, touch db ctx db' id.
Proof.
  intros Hwf Hch. destruct Hch as [new_id n d parent req e _ _ Hid _ _ Hp _
    |id role n d parent e _ Hid _ Hm _ Hp|id role e _ Hid _ Hm Hu Hl|id role req e _ Hid Hm
    |id role keys e _ Hid Hm Hnd].
  - exists new_id. by apply create_touch.
  - exists id. by apply edit_touch.
  - exists id. by eapply delete_touch.
  - exists id. by eapply permissions_touch.
  - exists id. by eapply visibility_touch.
Qed.

Lemma touch_parent db ctx db' id :
  touch db ctx db' id → ∀ a, a ≠ id → parent_of db' a = parent_of db a.
Proof. intros Ht a Ha. by apply parent_of_roles, (t_rows _ _ _ _ Ht). Qed.

(** ** The hierarchy after a change *)

Lemma touch_place_depth db ctx db' id d :
  acyclic db → touch db ctx db' id →
  (∀ p, parent_of db id = Some p → depth_le db d p) → 2 ≤ d →
  match parent_of db' id with
  | Some p => ¬ descends db p id ∧ depth_le db d p
  | None => True
  end.
Proof.
  intros Hac Ht Hd Hle. destruct (t_place _ _ _ _ Ht) as [Hp|[[Hp _]|(p & Hp & Hpl & Hb)]]; rewrite Hp.
  - destruct (parent_of db id) as [p|] eqn:Hpid; [|done]. split; [|by apply Hd].
    intros [n Hn]. apply (acyclic_no_loop db id n Hac). cbn. by rewrite Hpid.
  - done.
  - split; [done|]. destruct Hpl as (_ & H2 & _). by apply (anc_mono db 2).
Qed.

Lemma touch_acyclic db ctx db' id : acyclic db → touch db ctx db' id → acyclic db'.
Proof.
  intros Hac Ht. apply (move_acyclic db db' id); [by eapply touch_parent| |done].
  destruct (t_place _ _ _ _ Ht) as [Hp|[[Hp _]|(p & Hp & _ & Hb)]]; rewrite Hp; [|done..].
  destruct (parent_of db id) as [p|] eqn:Hpid; [|done].
  intros [n Hn]. apply (acyclic_no_loop db id n Hac). cbn. by rewrite Hpid.
Qed.

(** One change makes no path longer by more than two levels. *)
Lemma touch_shallow db ctx db' id n :
  shallow n db → touch db ctx db' id → shallow (n + 2) db'.
Proof.
  intros Hs Ht x. pose proof (shallow_acyclic _ _ Hs) as Hac.
  destruct (t_place _ _ _ _ Ht) as [Hp|[[Hp _]|(p & Hp & Hpl & Hb)]].
  - assert (∀ a, parent_of db' a = parent_of db a) as Hsame.
    { intros a. destruct (decide (a = id)) as [->|Ha]; [done|by eapply touch_parent]. }
    unfold depth_le. rewrite (anc_same db) by done. apply (anc_mono db n); [lia|apply Hs].
  - apply (move_depth db db' id); [by eapply touch_parent| |done]. by rewrite Hp.
  - apply (move_depth db db' id); [by eapply touch_parent| |done]. rewrite Hp.
    split; [done|]. by destruct Hpl as (_ & ? & _).
Qed.

Lemma change_wf db ctx db' :
  wf db → authentic db ctx → role_change db ctx db' → wf db'.
Proof.
  intros Hwf Hauth Hch. destruct (change_touch _ _ _ Hwf Hch) as [id0 Ht].
  pose proof (touch_acyclic _ _ _ _ (wf_acyclic _ Hwf) Ht) as Hac. destruct Hwf as [Hk Hpar Hsys _ Hg Ha Huk].
  destruct Hch as [new_id n d parent req e _ _ Hid _ _ Hp _
    |id role n d parent e _ Hid Hns Hm _ Hp|id role e _ Hid _ Hm Hu Hl|id role req e _ Hid Hm
    |id role keys e _ Hid Hm Hnd].
  - split; unfold keyed; cbn; try done.
    + intros i r. rewrite lookup_insert_Some. intros [[<- <-]|[_ ?]]; [done|by apply Hk].
    + intros i r p. rewrite lookup_insert_Some. intros [[<- <-]|[_ Hr]] Hrp; cbn in Hrp.
      * subst parent. destruct Hp as ([rp Hrp] & _). apply lookup_insert_is_Some'. right. by eexists.
      * apply lookup_insert_is_Some'. right. exact (Hpar _ _ _ Hr Hrp).
    + intros i r. rewrite lookup_insert_Some. intros [[<- <-]|[_ ?]]; [done|by eapply Hsys].
    + intros i k. rewrite elem_of_union, elem_of_list_to_set, list_elem_of_fmap, elem_of_filter.
      intros [(q & [= -> _] & _)|[_ Hik]]; apply lookup_insert_is_Some'; [by left|right; exact (Hg _ _ Hik)].
    + intros u i Hui. destruct (Ha u i Hui). split; [done|]. apply lookup_insert_is_Some'. by right.
  - split; unfold keyed; cbn; try done.
    + intros i r. rewrite lookup_insert_Some. intros [[<- <-]|[_ ?]]; [exact (Hk _ _ Hid)|by apply Hk].
    + intros i r p. rewrite lookup_insert_Some. intros [[<- <-]|[_ Hr]] Hrp; cbn in Hrp;
        apply lookup_insert_is_Some'; right; [|exact (Hpar _ _ _ Hr Hrp)]. subst parent.
      destruct (decide (Some p = parent_role_id role)) as [He|Hne]; [by eapply Hpar|].
      by destruct (Hp Hne) as [[? _] _].
    + intros i r. rewrite lookup_insert_Some.
      intros [[<- <-]|[_ ?]]; [cbn; by rewrite Hns|by eapply Hsys].
    + intros i k Hik. apply lookup_insert_is_Some'. right. exact (Hg _ _ Hik).
    + intros u i Hui. destruct (Ha u i Hui). split; [done|]. apply lookup_insert_is_Some'. by right.
  - split; unfold keyed; cbn; try done.
    + intros i r. rewrite lookup_delete_Some. intros [_ ?]. by apply Hk.
    + intros i r p. rewrite lookup_delete_Some. intros [_ Hr] Hrp.
      destruct (Hpar _ _ _ Hr Hrp) as [rp ?]. exists rp. rewrite lookup_delete_Some. split; [|done].
      intros ->. by apply (Hl i r).
    + intros i r. rewrite lookup_delete_Some. intros [_ ?]. by eapply Hsys.
    + intros i k. rewrite elem_of_filter. cbn. intros [? Hik]. rewrite lookup_delete_ne by done. exact (Hg _ _ Hik).
    + intros u i. rewrite elem_of_filter. cbn. intros [? Hui]. rewrite lookup_delete_ne by done. by apply Ha.
  - split; unfold keyed; cbn; try done. intros i k.
    rewrite elem_of_union, elem_of_list_to_set, list_elem_of_fmap, elem_of_filter.
    intros [(q & [= -> _] & _)|[_ Hik]]; [by eexists|exact (Hg _ _ Hik)].
  - by split.
Qed.

(** ** No self-escalation *)

Lemma elem_of_effective_permissions db u p :
  keyed db →
  p ∈ effective_permissions db u ↔
  ∃ id, (u, id) ∈ db.(user_roles) ∧ is_Some (db.(roles) !! id) ∧
        p ∈ effective_permissions_for_role db id.
Proof.
  intros Hk. unfold effective_permissions. rewrite elem_of_union_list. split.
  - intros (s & Hs & Hp). apply list_elem_of_fmap in Hs as (r & -> & Hr).
    apply elem_of_roles_for_user in Hr as [Hrow Hu]; [|done]. exists r.(role_id). by split_and!.
  - intros (id & Hu & [r Hr] & Hp). pose proof (Hk _ _ Hr) as <-.
    exists (effective_permissions_for_role db r.(role_id)). split; [|done].
    apply list_elem_of_fmap. exists r. split; [done|]. by apply elem_of_roles_for_user.
Qed.

Lemma holds_assigned db ctx id :
  wf db → holds db ctx id ↔ (ctx.(user).(uid), id) ∈ db.(user_roles).
Proof.
  intros Hwf. split.
  - intros (own & Hown & <-). by apply elem_of_roles_for_user in Hown as [_ ?]; [|apply Hwf].
  - intros Hin. destruct (wf_assigned _ Hwf _ _ Hin) as [_ [r Hr]].
    pose proof (wf_keyed _ Hwf _ _ Hr) as <-. exists r. split; [|done].
    by apply elem_of_roles_for_user; [apply Hwf|].
Qed.

(** A held role above which the user holds nothing else. *)
Definition topmost db ctx (t : Uuid) : Prop :=
  holds db ctx t ∧ ∀ o, holds db ctx o → descends db t o → o = t.

Lemma topmost_above db ctx x o :
  wf db → holds db ctx o → descends db x o → ∃ t, topmost db ctx t ∧ descends db x t.
Proof.
  intros Hwf Ho Hxo. destruct (wf_acyclic _ Hwf x) as [n Hn].
  assert ((∃ t, topmost db ctx t ∧ descends db x t) ∨ (∀ o, holds db ctx o → ¬ descends db x o))
    as [?|Hnone]; [|done|by destruct (Hnone o)].
  clear o Ho Hxo. revert x Hn. unfold depth_le. induction n as [|n IH]; intros x Hn; [done|].
  assert ((∃ t, topmost db ctx t ∧ descends db x t) ∨
          (∀ p o, parent_of db x = Some p → holds db ctx o → ¬ descends db p o)) as [?|Hup]; [|by left|].
  { cbn in Hn. destruct (parent_of db x) as [p|] eqn:Hp; [|by right].
    destruct (IH p Hn) as [(t & Ht & Hpt)|Hnone]; [left|right; intros ? o [= <-]; by apply Hnone].
    exists t. split; [done|]. eapply descends_trans; [by apply descends_parent|done]. }
  destruct (decide ((ctx.(user).(uid), x) ∈ db.(user_roles))) as [Hx|Hx];
    rewrite <- holds_assigned in Hx by done.
  - left. exists x. split; [|apply descends_refl]. split; [done|]. intros o Ho Hd.
    destruct (descends_inv _ _ _ Hd) as [|(p & Hp & Hpo)]; [done|]. by destruct (Hup p o).
  - right. intros o Ho Hd. destruct (descends_inv _ _ _ Hd) as [->|(p & Hp & Hpo)]; [done|].
    by destruct (Hup p o).
Qed.

(** A delegated administrator cannot touch a topmost role of theirs or
    anything above it. *)
Lemma topmost_untouched db ctx db' id t :
  wf db → has_no_ceiling ctx = false → touch db ctx db' id → topmost db ctx t →
  ¬ descends db t id.
Proof.
  intros Hwf Hc Ht [Hhold Htop] Hd.
  destruct (t_who _ _ _ _ Ht) as [Hnone|(role & Hid & _ & [Hnc|(_ & Hnot & own & Hown & Hdo)])].
  - apply holds_assigned in Hhold; [|done].
    destruct (wf_assigned _ Hwf _ _ Hhold) as [_ Hex].
    destruct (descends_exists _ _ _ Hwf Hex Hd) as [r Hr]. by rewrite Hnone in Hr.
  - by rewrite Hc in Hnc.
  - rewrite (wf_keyed _ Hwf _ _ Hid) in *.
    assert (own = t) as ->. { apply Htop; [done|]. by eapply descends_trans. }
    apply Hnot. by rewrite (descends_antisym db id t (wf_acyclic _ Hwf) Hdo Hd).
Qed.

Lemma touch_eff_outside db ctx db' id t :
  touch db ctx db' id → ¬ descends db t id →
  effective_permissions_for_role db' t = effective_permissions_for_role db t.
Proof.
  intros Ht Hd. apply set_eq. intros p. rewrite !elem_of_eff.
  assert (∀ n a, anc db n t = Some a → own_permissions db' a = own_permissions db a) as Hown.
  { intros n a Ha. apply (t_own _ _ _ _ Ht). intros ->. apply Hd. by exists n. }
  assert (∀ n, anc db' n t = anc db n t) as Hanc.
  { intros n. apply (move_anc_outside db db' id); [by eapply touch_parent|done]. }
  split; intros Hall n a Hn Ha; [rewrite <- (Hown n) by done|rewrite Hanc in Ha; rewrite (Hown n) by done];
    apply (Hall n a); try done; by rewrite Hanc.
Qed.

(** Every held role stays below an untouched topmost one. *)
Lemma held_below_topmost db ctx db' id b :
  wf db → has_no_ceiling ctx = false → touch db ctx db' id → holds db ctx b →
  ∃ t, topmost db ctx t ∧ descends db' b t.
Proof.
  intros Hwf Hc Ht Hb. destruct (topmost_above db ctx b b Hwf Hb (descends_refl _ _)) as (t & Htop & Hbt).
  pose proof (topmost_untouched _ _ _ _ _ Hwf Hc Ht Htop) as Hun.
  assert (∀ a, a ≠ id → parent_of db' a = parent_of db a) as Hother by by eapply touch_parent.
  destruct (t_place _ _ _ _ Ht) as [Hp|[[Hp [Hnc|[Hna Hleaf]]]|(p & Hp & Hpl & Hpb)]].
  - exists t. split; [done|]. destruct Hbt as [n Hn]. exists n.
    rewrite (anc_same db); [done|]. intros a. by destruct (decide (a = id)) as [->|]; [|apply Hother].
  - by rewrite Hc in Hnc.
  - exists t. split; [done|]. apply (move_descends_outside db db' id); [done| |done].
    intros Hbid. apply holds_assigned in Hb; [|done]. apply (Hna ctx.(user).(uid)).
    by rewrite <- (Hleaf b Hbid).
  - destruct (descends_em db b id (wf_acyclic _ Hwf)) as [Hw|Hw].
    + destruct Hpl as (_ & _ & [Hnc|(own & Hown & Hpo)]); [by rewrite Hc in Hnc|].
      destruct (topmost_above db ctx p own Hwf Hown Hpo) as (t' & Htop' & Hpt').
      exists t'. split; [done|].
      eapply descends_trans; [by apply (move_descends_below db db' id)|].
      eapply descends_trans; [by apply descends_parent|]. by apply (move_descends_outside db db' id).
    + exists t. split; [done|]. by apply (move_descends_outside db db' id).
Qed.

Lemma touch_no_escalation db ctx db' id :
  wf db → wf db' → shallow MAX_ANCESTOR_WALK db' → has_no_ceiling ctx = false →
  touch db ctx db' id →
  effective_permissions db' ctx.(user).(uid) ⊆ effective_permissions db ctx.(user).(uid).
Proof.
  intros Hwf Hwf' Hs Hc Ht p. rewrite !elem_of_effective_permissions by auto with rust.
  intros (b & Hb & _ & Hp). rewrite (t_assigned _ _ _ _ Ht), <- holds_assigned in Hb by done.
  destruct (held_below_topmost _ _ _ _ _ Hwf Hc Ht Hb) as (t & Htop & Hbt).
  pose proof (topmost_untouched _ _ _ _ _ Hwf Hc Ht Htop) as Hun.
  destruct Htop as [Hhold _]. apply holds_assigned in Hhold; [|done].
  exists t. split; [done|]. split; [by apply (wf_assigned _ Hwf) in Hhold as [_ ?]|].
  rewrite <- (touch_eff_outside _ _ _ _ _ Ht Hun). by apply (eff_descends db' b t).
Qed.
End safety.
