(* ===== verification/Auth.v ===== *)
(** * Credentials, sessions and the login lockout

    [crates/auth]: the password policy and generator ([password.rs]), the
    sliding-window lockout ([rate_limit.rs]), the local provider ([provider.rs])
    and session issue and revocation ([session.rs] over [repo/sessions.rs]). *)

From S2P Require Import Prelude Permission Json AuditLog RoleStore Web Delegation.

(** ** Passwords *)

Definition MIN_PASSWORD_LENGTH : nat := 15.
Definition GENERATED_PASSWORD_LENGTH : nat := 20.
Definition UPPER : list N := #"ABCDEFGHJKLMNPQRSTUVWXYZ".
Definition LOWER : list N := #"abcdefghijkmnpqrstuvwxyz".
Definition DIGITS : list N := #"23456789".
Definition SPECIAL : list N := #"!@#$%^&*-_=+?".

Definition validate_strength (password : rstr) : result rstr unit :=
  let missing :=
    (if length password <? MIN_PASSWORD_LENGTH
     then [ #"at least " ++ fmt_N (N.of_nat MIN_PASSWORD_LENGTH) ++ #" characters"] else [])
    ++ (if negb (existsb is_ascii_uppercase password) then [ #"an uppercase letter"] else [])
    ++ (if negb (existsb is_ascii_lowercase password) then [ #"a lowercase letter"] else [])
    ++ (if negb (existsb is_ascii_digit password) then [ #"a number"] else [])
    ++ (if negb (existsb is_ascii_punctuation password) then [ #"a special character"] else []) in
  match missing with
  | [] => Ok ()
  | _ => Err (#"Password must contain " ++ join #", " missing ++ #".")
  end.

(** [generate_strong_password], given what the generator drew: one index into
    each pool, the indices into the concatenated pool, and the shuffle. *)
Definition generate_strong_password (iu il idg isp : nat) (rest : list nat)
    (shuffle : list N → list N) : rstr :=
  let all := UPPER ++ LOWER ++ DIGITS ++ SPECIAL in
  let chars := [nth iu UPPER 0%N; nth il LOWER 0%N; nth idg DIGITS 0%N; nth isp SPECIAL 0%N] in
  shuffle (chars ++ ((λ idx, nth idx all 0%N) <$> rest)).

(** ** The login lockout *)

(** [LoginLimiter]; an instant is a number of the clock's ticks. *)
Record LoginLimiter := mkLimiter {
  attempts : gmap rstr (list N);
  max_attempts : nat;
  window : N;
}.

(** [now.duration_since(t) < window]; the difference saturates at zero. *)
Definition recent (l : LoginLimiter) (now t : N) : bool := (now - t <? l.(window))%N.
Definition retain (l : LoginLimiter) (now : N) (entries : list N) : list N :=
  List.filter (recent l now) entries.

#[global] Arguments retain : simpl never.

Definition is_locked (l : LoginLimiter) (key : rstr) (now : N) : bool * LoginLimiter :=
  match l.(attempts) !! key with
  | Some entries =>
      let kept := retain l now entries in
      (l.(max_attempts) <=? length kept,
       mkLimiter (<[key := kept]> l.(attempts)) l.(max_attempts) l.(window))
  | None => (false, l)
  end.

Definition record_failure (l : LoginLimiter) (key : rstr) (now : N) : LoginLimiter :=
  let entries := default [] (l.(attempts) !! key) in
  mkLimiter (<[key := retain l now entries ++ [now]]> l.(attempts)) l.(max_attempts) l.(window).

Definition clear (l : LoginLimiter) (key : rstr) : LoginLimiter :=
  mkLimiter (base.delete key l.(attempts)) l.(max_attempts) l.(window).

(** [LoginLimiter::default], with a clock in microseconds. *)
Definition default_limiter : LoginLimiter := mkLimiter ∅ 10 (15 * 60 * 1000000).

(** What happened to the limiter, oldest first. *)
Inductive limiter_event : Type :=
| Checked (key : rstr) (at_ : N)
| Failed (key : rstr) (at_ : N)
| Cleared (key : rstr).

Definition limiter_step (l : LoginLimiter) (e : limiter_event) : LoginLimiter :=
  match e with
  | Checked key now => (is_locked l key now).2
  | Failed key now => record_failure l key now
  | Cleared key => clear l key
  end.

(** The reference: the failures of a key since it was last cleared. *)
Definition failures_step (key : rstr) (acc : list N) (e : limiter_event) : list N :=
  match e with
  | Checked _ _ => acc
  | Failed k now => if bool_decide (k = key) then acc ++ [now] else acc
  | Cleared k => if bool_decide (k = key) then [] else acc
  end.
Definition failures (key : rstr) (es : list limiter_event) : list N :=
  foldl (failures_step key) [] es.

(** ** Sessions *)

Section auth.
Context `{!SqlEngine}.
Implicit Types (db : Db).

Definition create_session (new_id : Uuid) (u : Uuid) (hash : rstr) (expires : N) db
    : result DbError (Session * Db) :=
  if bool_decide (is_Some (db.(sessions) !! new_id)) then Err DuplicateKey
  else if existsb (λ s, str_eqb s.(token_hash) hash) ((map_to_list db.(sessions)).*2)
  then Err DuplicateKey
  else if dangling db.(users) (Some u) then Err ForeignKeyViolation
  else
    let s := mkSession new_id hash u expires None in
    Ok (s, set_sessions (insert new_id s) db).

(** [session::issue]: the token is drawn by the caller. *)
Definition issue (hash_token : rstr → rstr) (new_id : Uuid) (token : rstr) (u : Uuid)
    (ttl now : N) db : result DbError (Session * Db) :=
  create_session new_id u (hash_token token) (now + ttl) db.

Definition revoke_row (now : N) (s : Session) : Session :=
  mkSession s.(session_id) s.(token_hash) s.(session_user) s.(expires_at) (Some now).

(** [repo::sessions::revoke] and [revoke_all_for_user]. *)
Definition revoke (id : Uuid) (now : N) db : result DbError (unit * Db) :=
  Ok ((), set_sessions (alter (revoke_row now) id) db).
Definition revoke_all_for_user (u : Uuid) (now : N) db : result DbError (unit * Db) :=
  Ok ((), set_sessions (fmap (λ s,
    if (s.(session_user) =? u)%N && bool_decide (s.(revoked_at) = None)
    then revoke_row now s else s)) db).

(** ** The local provider *)

Inductive AuthError : Set :=
| InvalidCredentials
| AccountDisabled
| RateLimited.

(** [repo::users::find_by_username] under the column's collation. *)
Definition find_by_username db (name : rstr) : option User :=
  List.find (λ u, name_eqb u.(username) name) ((map_to_list db.(users)).*2).
Definition find_by_email db (mail : rstr) : option User :=
  List.find (λ u, name_eqb u.(email) mail) ((map_to_list db.(users)).*2).

Definition authenticate (verify_password : rstr → rstr → bool) db (name password : rstr)
    : result AuthError User :=
  u ← ok_or (find_by_username db name) InvalidCredentials;
  if negb u.(is_active) then Err AccountDisabled
  else
    hash ← ok_or u.(password_hash) InvalidCredentials;
    if verify_password password hash then Ok u else Err InvalidCredentials.
End auth.

(** ** Lemmas *)

Lemma validate_strength_ok password :
  validate_strength password = Ok () ↔
  MIN_PASSWORD_LENGTH ≤ length password ∧
  existsb is_ascii_uppercase password = true ∧ existsb is_ascii_lowercase password = true ∧
  existsb is_ascii_digit password = true ∧ existsb is_ascii_punctuation password = true.
Proof.
  unfold validate_strength. rewrite <- Nat.ltb_ge.
  destruct (length password <? MIN_PASSWORD_LENGTH),
    (existsb is_ascii_uppercase password), (existsb is_ascii_lowercase password),
    (existsb is_ascii_digit password), (existsb is_ascii_punctuation password);
    cbn [app negb]; (split; [discriminate || (intros _; by split_and!)|]);
    by intros (? & ? & ? & ? & ?).
Qed.

Section limiter.
Implicit Types (l : LoginLimiter) (key : rstr) (es : list limiter_event).

Lemma limiter_step_params l e :
  (limiter_step l e).(max_attempts) = l.(max_attempts) ∧ (limiter_step l e).(window) = l.(window).
Proof. destruct e as [k n|k n|k]; cbn; [|done..]. unfold is_locked. by case_match. Qed.

(** An entry dropped by [retain] stays outside the window at any later time. *)
Lemma retain_retain l now now' entries :
  (now ≤ now')%N → retain l now' (retain l now entries) = retain l now' entries.
Proof.
  intros Hle. unfold retain. induction entries as [|t ts IH]; cbn; [done|].
  destruct (recent l now t) eqn:Hr; cbn.
  - by rewrite IH.
  - assert (recent l now' t = false) as ->; [|done].
    unfold recent in *. apply N.ltb_ge in Hr. apply N.ltb_ge. lia.
Qed.

Lemma retain_app l now xs ys : retain l now (xs ++ ys) = retain l now xs ++ retain l now ys.
Proof. apply List.filter_app. Qed.

(** The events up to [now], in order. *)
Definition event_time (e : limiter_event) : option N :=
  match e with Checked _ t | Failed _ t => Some t | Cleared _ => None end.
Definition before (now : N) es : Prop := ∀ e t, e ∈ es → event_time e = Some t → (t ≤ now)%N.

(** The stored entries and the reference agree on everything still in the
    window. *)
Lemma limiter_entries l0 es key now :
  l0.(attempts) = ∅ → before now es →
  retain l0 now (default [] ((foldl limiter_step l0 es).(attempts) !! key))
  = retain l0 now (failures key es).
Proof.
  intros H0. assert (∀ es, (foldl limiter_step l0 es).(window) = l0.(window)) as Hw.
  { intros es'. induction es' as [|e es' IH] using rev_ind; [done|].
    rewrite foldl_snoc. by rewrite (proj2 (limiter_step_params _ e)). }
  assert (∀ es t xs, retain (foldl limiter_step l0 es) t xs = retain l0 t xs) as Hr.
  { intros es' t xs. unfold retain, recent. by rewrite Hw. }
  unfold failures. induction es as [|e es IH] using rev_ind; intros Hb; [cbn; by rewrite H0|].
  assert (before now es) as Hb' by (intros e' t He; apply Hb; set_solver).
  specialize (IH Hb'). rewrite !foldl_snoc. set (l := foldl limiter_step l0 es) in *.
  pose proof (Hr es) as Hl. fold l in Hl.
  assert (∀ t, event_time e = Some t → (t ≤ now)%N) as Ht by (intros; by apply (Hb e); [set_solver|]).
  destruct e as [k t|k t|k]; cbn.
  - unfold is_locked. destruct (attempts l !! k) as [xs|] eqn:Hk; cbn; [|done].
    destruct (decide (k = key)) as [->|Hne]; [|by rewrite lookup_insert_ne].
    rewrite lookup_insert_eq. cbn. rewrite Hk in IH. cbn in IH.
    rewrite Hl, retain_retain by by apply Ht. done.
  - case_bool_decide as Hk; [subst k|by rewrite lookup_insert_ne].
    rewrite lookup_insert_eq. cbn. rewrite Hl, !retain_app, retain_retain, IH by by apply Ht. done.
  - case_bool_decide as Hk; [subst k|by rewrite lookup_delete_ne]. by rewrite lookup_delete_eq.
Qed.
End limiter.

(** ** Claims about credentials, keys and the protocol catalogue *)

From S2P Require Import Prelude Percent Permission Protocol AuditLog.
Import Op.

Lemma lockout_count l es key now :
  attempts l = ∅ → before now es → 0 < max_attempts l →
  (is_locked (foldl limiter_step l es) key now).1
  = (max_attempts l <=? length (retain l now (failures key es))).
Proof.
  intros H0 Hb Hmax. pose proof (limiter_entries l es key now H0 Hb) as He.
  assert (max_attempts (foldl limiter_step l es) = max_attempts l ∧
          window (foldl limiter_step l es) = window l) as [Hm Hw].
  { clear. induction es as [|e es [IH1 IH2]] using rev_ind; [done|]. rewrite foldl_snoc.
    destruct (limiter_step_params (foldl limiter_step l es) e) as [-> ->]. done. }
  unfold is_locked. destruct (attempts (foldl limiter_step l es) !! key) as [xs|] eqn:Hk; cbn in *.
  - rewrite <- He, Hm. unfold retain, recent. by rewrite Hw.
  - rewrite <- He. cbn. destruct (max_attempts l); [lia|done].
Qed.

(** The login lockout is exact: after any history of checks, failures and resets, a key is locked
    if and only if the failures recorded for it since its last reset that are still inside the window
    reach the maximum; pruning on the way never loses or invents one. *)
Theorem lockout_exact (l : LoginLimiter) (es : list limiter_event) (key : rstr) (now : N) :
  attempts l = ∅ → before now es → 0 < max_attempts l →
  (is_locked (foldl limiter_step l es) key now).1 = true ↔
  max_attempts l ≤ length (List.filter (recent l now) (failures key es)).
Proof. intros H0 Hb Hmax. rewrite lockout_count by done. apply Nat.leb_le. Qed.

Lemma lockout_exact_witness :
  (is_locked (foldl limiter_step (mkLimiter ∅ 2 100)
     [Failed #"eve" 10; Failed #"eve" 80; Checked #"eve" 120; Failed #"eve" 130]) #"eve" 140).1 = true.
Proof.
  apply (lockout_exact (mkLimiter ∅ 2 100)).
  - reflexivity.
  - intros e t He Ht. rewrite !elem_of_cons, elem_of_nil in He.
    destruct He as [->|[->|[->|[->|[]]]]]; injection Ht as <-; done.
  - cbn. lia.
  - vm_compute. lia.
Defined.

(** ** Generated passwords *)

Lemma existsb_Permutation {A} (f : A → bool) (l k : list A) :
  l ≡ₚ k → existsb f l = existsb f k.
Proof.
  intros Hp. apply Bool.eq_iff_eq_true. rewrite !existsb_exists.
  by setoid_rewrite <- list_elem_of_In; setoid_rewrite Hp.
Qed.

(** Characters the pools leave out because they are easily confused. *)
Definition AMBIGUOUS : rstr := #"IOlo01".

Lemma pool_nth (f : char → bool) pool i :
  forallb f pool = true → i < length pool → f (nth i pool 0%N) = true.
Proof. intros Hf Hi. rewrite forallb_forall in Hf. apply Hf, nth_In, Hi. Qed.

(** A generated password always satisfies the password policy and contains no easily confused
    character, whatever indices were drawn and however they were shuffled. *)
Theorem generated_password_strong (iu il idg isp : nat) (rest : list nat) (shuffle : list N → list N) :
  iu < length UPPER → il < length LOWER → idg < length DIGITS → isp < length SPECIAL →
  Forall (λ i, i < length (UPPER ++ LOWER ++ DIGITS ++ SPECIAL)) rest →
  length rest = GENERATED_PASSWORD_LENGTH - 4 → (∀ cs, shuffle cs ≡ₚ cs) →
  let password := generate_strong_password iu il idg isp rest shuffle in
  validate_strength password = Ok () ∧ length password = GENERATED_PASSWORD_LENGTH ∧
  ∀ c, c ∈ password → c ∉ (AMBIGUOUS : list N).
Proof.
  intros Hu Hl Hd Hs Hr Hlen Hp. cbv zeta. unfold generate_strong_password.
  set (chars := _ ++ _). pose proof (Hp chars) as Hperm.
  assert (length (shuffle chars) = GENERATED_PASSWORD_LENGTH) as Hlength.
  { rewrite Hperm. unfold chars. rewrite length_app, length_fmap, Hlen. done. }
  split_and!; [|done|].
  - apply validate_strength_ok. rewrite Hlength, !(existsb_Permutation _ _ _ Hperm). unfold chars. cbn [app existsb].
    rewrite (pool_nth is_ascii_uppercase UPPER iu eq_refl Hu), (pool_nth is_ascii_lowercase LOWER il eq_refl Hl),
      (pool_nth is_ascii_digit DIGITS idg eq_refl Hd), (pool_nth is_ascii_punctuation SPECIAL isp eq_refl Hs).
    rewrite !orb_true_r. split_and!; try done. apply Nat.leb_le. reflexivity.
  - intros c Hc. rewrite Hperm in Hc. set (ok := λ c, negb (char_mem c AMBIGUOUS)).
    assert (ok c = true) as Hok.
    { unfold chars in Hc. apply elem_of_app in Hc as [Hc|Hc].
      - rewrite !elem_of_cons, elem_of_nil in Hc.
        destruct Hc as [->|[->|[->|[->|[]]]]];
          [by apply (pool_nth ok UPPER)|by apply (pool_nth ok LOWER)|by apply (pool_nth ok DIGITS)|by apply (pool_nth ok SPECIAL)].
      - apply list_elem_of_fmap in Hc as (i & -> & Hi). rewrite Forall_forall in Hr.
        apply (pool_nth ok); [done|by apply Hr]. }
    unfold ok in Hok. apply negb_true_iff in Hok. by rewrite <- char_mem_elem, Hok.
Qed.

Lemma generated_password_strong_witness :
  validate_strength (generate_strong_password 0 1 2 3 [4; 5; 6; 7; 8; 9; 10; 11; 12; 13; 14; 15; 16; 17; 18; 68] reverse)
  = Ok ().
Proof.
  refine (proj1 (generated_password_strong 0 1 2 3
    [4; 5; 6; 7; 8; 9; 10; 11; 12; 13; 14; 15; 16; 17; 18; 68] reverse _ _ _ _ _ eq_refl _)).
  - apply Nat.ltb_lt. reflexivity.
  - apply Nat.ltb_lt. reflexivity.
  - apply Nat.ltb_lt. reflexivity.
  - apply Nat.ltb_lt. reflexivity.
  - apply (bool_decide_eq_true_1 _). vm_compute. reflexivity.
  - intros cs. apply reverse_Permutation.
Defined.

(** ** Catalogues *)

(** The stored keys identify permissions and audit actions: a permission key parses to exactly the
    permission it is the key of, and no two audit actions share a key or are missing from the list the
    viewer filters by. *)
Theorem catalogue_keys_exact :
  (∀ key p, from_key key = Some p ↔ as_key p = key) ∧
  (∀ a b, AuditAction.as_key a = AuditAction.as_key b → a = b) ∧
  (∀ a, In a AuditAction.ALL).
Proof.
  split_and!.
  - intros key p. split; [apply from_key_sound|]. intros <-. apply from_key_as_key.
  - intros a b. apply (inj AuditAction.as_key).
  - apply audit_action_in_ALL.
Qed.

(** Every operation the control plane can send is one a released agent speaks: the protocol version
    it needs is at most the current one, and the release named when an older agent is refused speaks
    at least that version. *)
Theorem operations_have_a_release (op : AgentOperation) :
  (min_protocol op ≤ PROTOCOL_VERSION)%N ∧
  ∃ rel v, agent_release_for_protocol (min_protocol op) = Some rel ∧ (v, rel) ∈ RELEASES ∧
    (min_protocol op ≤ v)%N.
Proof.
  pose proof (min_protocol_bound op) as Hb. split; [done|].
  destruct (agent_release_for_protocol (min_protocol op)) as [rel|] eqn:Hr.
  - destruct (agent_release_found _ _ Hr) as (v & Hv & Hle). by exists rel, v.
  - exfalso. unfold agent_release_for_protocol in Hr. apply fmap_None in Hr.
    pose proof (find_none _ _ Hr (47%N, #"0.2.5")) as Hn.
    assert (In (47%N, #"0.2.5") RELEASES) as Hin by (cbv; tauto). specialize (Hn Hin).
    cbn in Hn. apply N.leb_gt in Hn. change PROTOCOL_VERSION with 47%N in Hb. lia.
Qed.

(** Text percent-encoded for a redirect decodes to itself, and its encoding cannot break out of the
    query parameter it is put in: it has only letters, digits, [-_.~] and [%]. *)
Theorem urlencoding_round_trip (s : rstr) :
  Forall scalar s →
  percent_decode (urlencoding_encode s) = Ok s ∧
  ∀ c, c ∈ urlencoding_encode s → unreserved c = true ∨ c = $"%".
Proof.
  intros Hs. split; [by apply percent_round_trip|]. intros c. by apply encode_bytes_class, bytes_byte.
Qed.

Lemma urlencoding_round_trip_witness :
  percent_decode (urlencoding_encode [38%N; 8364%N; 32%N]) = Ok [38%N; 8364%N; 32%N].
Proof. refine (proj1 (urlencoding_round_trip [38%N; 8364%N; 32%N] _)). repeat constructor. Defined.
