(* ===== verification/Users.v ===== *)
(** * User administration ([crates/web/src/routes/users.rs])

    The [users] statements of [crates/database/src/repo/users.rs], the account
    emails, and every handler that creates, edits, re-assigns, disables or
    deletes a user. *)

From S2P Require Import Prelude Percent Permission Json AuditLog RoleStore RoleTree Web.
From S2P Require Import Delegation Auth.
Import AuditAction (UserCreated, UserRoleAssigned, UserProfileUpdated, PasswordReset,
  UserEnabled, UserDisabled, SessionsRevoked, UserDeleted).

(** [abyssal_notifications::NotificationMessage], without the severity. *)
Record NotificationMessage := mkMessage {
  msg_subject : rstr; msg_body : rstr; msg_recipients : list rstr }.

Definition NL : rstr := [10%N].

Definition build_welcome_email (u : User) (temporary_password base_url : rstr) : NotificationMessage :=
  mkMessage #"Your Abyssal Arsenal account has been created"
    (#"Hello " ++ u.(username) ++ #"," ++ NL ++ NL
     ++ #"An administrator has created an Abyssal Arsenal account for you." ++ NL ++ NL
     ++ #"Sign in at: " ++ base_url ++ #"/login" ++ NL
     ++ #"Username: " ++ u.(username) ++ NL
     ++ #"Temporary password: " ++ temporary_password ++ NL ++ NL
     ++ #"You will be required to set a new password the first time you log in." ++ NL ++ NL
     ++ #"This is an automated message -- please do not reply.")
    [u.(email)].

Definition build_password_reset_email (u : User) (temporary_password base_url : rstr)
    : NotificationMessage :=
  mkMessage #"Your Abyssal Arsenal password has been reset"
    (#"Hello " ++ u.(username) ++ #"," ++ NL ++ NL
     ++ #"An administrator has reset the password on your Abyssal Arsenal account." ++ NL ++ NL
     ++ #"Sign in at: " ++ base_url ++ #"/login" ++ NL
     ++ #"Username: " ++ u.(username) ++ NL
     ++ #"Temporary password: " ++ temporary_password ++ NL ++ NL
     ++ #"You will be required to set a new password the next time you log in. Every other active session of yours has been signed out."
     ++ NL ++ NL ++ #"This is an automated message -- please do not reply.")
    [u.(email)].

(** [NotificationDispatcher::dispatch_private]: one result per email provider,
    the error's text on a failure. *)
Definition Dispatch : Type := NotificationMessage → list (rstr * option rstr).

Definition send_account_email (dispatch : Dispatch) (u : User) (message : NotificationMessage)
    (what : rstr) : bool * rstr :=
  let fallback := #"give them the temporary password yourself." in
  if is_empty (trim u.(email)) then
    (false, #"No " ++ what ++ #" was emailed (the account has no email address) -- " ++ fallback)
  else
    let results := dispatch message in
    match results, head (omap snd results) with
    | [], _ => (false, #"No " ++ what ++ #" was emailed: email (SMTP) isn't configured on this control plane -- "
                       ++ fallback)
    | _, Some e => (false, #"The " ++ what ++ #" email to " ++ u.(email) ++ #" failed (" ++ e ++ #") -- "
                           ++ fallback ++ #" Test email delivery on /admin/health.")
    | _, None => (true, #"The " ++ what ++ #" email was sent to " ++ u.(email) ++ #".")
    end.

(** [common::email_base_url], with the request's own address as an argument. *)
Definition email_base_url (public_url : option rstr) (request_base_url : rstr) : rstr :=
  match public_url with
  | Some url => trim_end_matches (N.eqb $"/") url
  | None => request_base_url
  end.

(** Everything a handler takes from the process it runs in. *)
Record Env := mkEnv {
  env_now : N;
  env_dispatch : Dispatch;
  env_public_url : option rstr;
  env_request_base_url : rstr;
  env_hash_password : rstr → result DbError rstr;
  env_generated : rstr;
}.

Record CreateUserForm := mkCreateUserForm {
  cu_csrf_token : rstr; cu_intent : rstr; cu_username : rstr; cu_email : rstr;
  cu_password : rstr; cu_role_id : Uuid }.
Record EditUserForm := mkEditUserForm {
  eu_csrf_token : rstr; eu_username : rstr; eu_email : rstr }.
Record ChangeRoleForm := mkChangeRoleForm { cr_csrf_token : rstr; cr_role_id : Uuid }.
Record ResetPasswordForm := mkResetPasswordForm {
  rp_csrf_token : rstr; rp_intent : rstr; rp_password : rstr }.
Record ConfirmForm := mkConfirmForm { cf_csrf_token : rstr; cf_confirm : bool; cf_confirm_text : rstr }.

Section users.
Context `{!SqlEngine, !Text}.
Implicit Types (db : Db) (ctx : AuthContext) (jar : CookieJar) (id : Uuid).

(** ** Statements *)

(** Whether another row has this username or email. *)
Definition taken db (except : option Uuid) (name mail : rstr) : bool :=
  existsb (λ u, negb (bool_decide (Some u.(uid) = except)) &&
                (name_eqb u.(username) name || name_eqb u.(email) mail))
    ((map_to_list db.(users)).*2).

Definition create_user (new_id : Uuid) (name mail : rstr) (hash : option rstr) (provider : rstr)
    (must_change : bool) db : result DbError (User * Db) :=
  if bool_decide (is_Some (db.(users) !! new_id)) then Err DuplicateKey
  else if taken db None name mail then Err DuplicateKey
  else
    let u := mkUser new_id name mail hash provider true must_change in
    Ok (u, set_users (insert new_id u) db).

Definition set_active id (active : bool) db : result DbError (unit * Db) :=
  Ok ((), set_users (alter (λ u, mkUser u.(uid) u.(username) u.(email) u.(password_hash)
            u.(auth_provider) active u.(must_change_password)) id) db).

Definition update_profile id (name mail : rstr) db : result DbError (unit * Db) :=
  if bool_decide (is_Some (db.(users) !! id)) && taken db (Some id) name mail
  then Err DuplicateKey
  else Ok ((), set_users (alter (λ u, mkUser u.(uid) name mail u.(password_hash)
            u.(auth_provider) u.(is_active) u.(must_change_password)) id) db).

Definition update_password id (hash : rstr) (must_change : bool) db : result DbError (unit * Db) :=
  Ok ((), set_users (alter (λ u, mkUser u.(uid) u.(username) u.(email) (Some hash)
            u.(auth_provider) u.(is_active) must_change) id) db).

(** Deleting a user cascades to their assignments, sessions and reset codes,
    and clears the references the audit log and the roles keep. *)
Definition forget_actor id (e : AuditEntry) : AuditEntry :=
  if bool_decide (e.(user_id) = Some id)
  then mkEntry None e.(username_snapshot) e.(action) e.(resource) e.(outcome) e.(source_ip)
         e.(auth_method) e.(metadata)
  else e.
Definition forget_creator id (r : Role) : Role :=
  if bool_decide (r.(created_by) = Some id)
  then mkRole r.(role_id) r.(role_name) r.(role_description) r.(is_system) r.(parent_role_id) None
  else r.
Definition erased id db : Db :=
  set_audit_log (fmap (forget_actor id))
    (set_password_resets (filter (λ p, p.2.(reset_user) ≠ id))
      (set_sessions (filter (λ p, p.2.(session_user) ≠ id))
        (set_user_roles (filter (λ p, p.1 ≠ id))
          (set_roles (fmap (forget_creator id))
            (set_users (base.delete id) db))))).
Definition delete_user_row id db : result DbError (unit * Db) := Ok ((), erased id db).

(** [repo::users::find_by_id]. *)
Definition find_user db id : option User := db.(users) !! id.

(** ** Handlers *)

Definition message_url (text : rstr) : Response :=
  Redirect (#"/admin/users?message=" ++ urlencoding_encode text).

Definition create_user_handler (env : Env) jar ctx (new_id : Uuid) (form : CreateUserForm)
    : App Response :=
  _ ← lift (ensure ctx UsersCreate);
  _ ← lift (require_csrf jar form.(cu_csrf_token));
  if_return str_eqb form.(cu_intent) #"generate" then
    mret (UsersPage None None form.(cu_username) form.(cu_email) (Some env.(env_generated))
            (Some form.(cu_role_id)));;
  assignable ← query (λ db, assignable_roles db ctx);
  if_return negb (offers assignable form.(cu_role_id)) then throw Forbidden;;
  match validate_strength form.(cu_password) with
  | Err message =>
      mret (UsersPage None (Some message) form.(cu_username) form.(cu_email) None
              (Some form.(cu_role_id)))
  | Ok _ =>
      hash ← exec (λ db, hash ← env.(env_hash_password) form.(cu_password); Ok (hash, db));
      u ← exec (create_user new_id form.(cu_username) form.(cu_email) (Some hash) #"local" true);
      _ ← exec (set_user_role u.(uid) form.(cu_role_id));
      role ← query (λ db, find_by_id db form.(cu_role_id));
      let base_url := email_base_url env.(env_public_url) env.(env_request_base_url) in
      let '(sent, note) := send_account_email env.(env_dispatch) u
        (build_welcome_email u form.(cu_password) base_url) #"welcome" in
      _ ← exec (audit (new_event UserCreated Success
              |> with_actor (actor_of ctx) |> with_resource u.(username)
              |> with_metadata (Obj [(#"welcome_email_sent", Bool sent)])));
      _ ← exec (audit (new_event UserRoleAssigned Success
              |> with_actor (actor_of ctx) |> with_resource u.(username)
              |> with_metadata (Obj [(#"previous_role", Null);
                   (#"role", Str (default [] (role_name <$> role)))])));
      mret (message_url (#"User " ++ u.(username) ++ #" created. " ++ note))
  end.

Definition edit_user (env : Env) jar ctx id (form : EditUserForm) : App Response :=
  _ ← lift (ensure ctx UsersModify);
  _ ← lift (require_csrf jar form.(eu_csrf_token));
  target ← query (λ db, find_user db id);
  target ← require target NotFound;
  let name := trim form.(eu_username) in
  let mail := trim form.(eu_email) in
  if_return is_empty name || (64 <? len name) then
    mret (UserEditPage id name mail (Some #"Username must be 1-64 characters.") None);;
  if_return is_empty mail || negb (contains_char mail $"@") then
    mret (UserEditPage id name mail (Some #"That doesn't look like a valid email address.") None);;
  _ ← exec (update_profile id name mail);
  _ ← exec (audit (new_event UserProfileUpdated Success
          |> with_actor (actor_of ctx) |> with_resource name
          |> with_metadata (Obj [(#"previous_email", Str target.(email));
                                 (#"previous_username", Str target.(username))])));
  mret (message_url (#"Updated " ++ name ++ #".")).

(** [render_edit]'s [can_change_role], which the page and [change_role] share
    but for the role that is asked for. *)
Definition target_in_scope db ctx id : bool :=
  has_no_ceiling ctx ||
  match head (roles_for_user db id) with
  | Some r => offers (assignable_roles db ctx) r.(role_id)
  | None => false
  end.

Definition change_role jar ctx id (form : ChangeRoleForm) : App Response :=
  _ ← lift (ensure ctx UsersModify);
  _ ← lift (require_csrf jar form.(cr_csrf_token));
  if_return (id =? ctx.(user).(uid))%N then throw Forbidden;;
  target ← query (λ db, find_user db id);
  target ← require target NotFound;
  previous_role ← query (λ db, head (roles_for_user db id));
  assignable ← query (λ db, assignable_roles db ctx);
  in_scope ← query (λ db, target_in_scope db ctx id);
  if_return negb in_scope || negb (offers assignable form.(cr_role_id)) then throw Forbidden;;
  _ ← exec (set_user_role id form.(cr_role_id));
  new_role ← query (λ db, find_by_id db form.(cr_role_id));
  _ ← exec (audit (new_event UserRoleAssigned Success
          |> with_actor (actor_of ctx) |> with_resource target.(username)
          |> with_metadata (Obj [(#"previous_role", opt_str (role_name <$> previous_role));
               (#"role", Str (default [] (role_name <$> new_role)))])));
  mret (message_url (#"Updated " ++ target.(username) ++ #"'s role.")).

Definition reset_password (env : Env) jar ctx id (form : ResetPasswordForm) : App Response :=
  _ ← lift (ensure ctx UsersModify);
  _ ← lift (require_csrf jar form.(rp_csrf_token));
  target ← query (λ db, find_user db id);
  target ← require target NotFound;
  if_return str_eqb form.(rp_intent) #"generate" then
    mret (UserEditPage id target.(username) target.(email) None (Some env.(env_generated)));;
  match validate_strength form.(rp_password) with
  | Err message => mret (UserEditPage id target.(username) target.(email) (Some message) None)
  | Ok _ =>
      hash ← exec (λ db, hash ← env.(env_hash_password) form.(rp_password); Ok (hash, db));
      _ ← exec (update_password id hash true);
      _ ← exec (revoke_all_for_user id env.(env_now));
      let base_url := email_base_url env.(env_public_url) env.(env_request_base_url) in
      let '(sent, note) := send_account_email env.(env_dispatch) target
        (build_password_reset_email target form.(rp_password) base_url) #"password reset" in
      _ ← exec (audit (new_event PasswordReset Success
              |> with_actor (actor_of ctx) |> with_resource target.(username)
              |> with_metadata (Obj [(#"email_sent", Bool sent)])));
      mret (message_url (#"Password reset for " ++ target.(username) ++ #". " ++ note))
  end.

Definition enable jar ctx id (csrf_token : rstr) : App Response :=
  _ ← lift (ensure ctx UsersModify);
  _ ← lift (require_csrf jar csrf_token);
  target ← query (λ db, find_user db id);
  target ← require target NotFound;
  _ ← exec (set_active id true);
  _ ← exec (audit (new_event UserEnabled Success
          |> with_actor (actor_of ctx) |> with_resource target.(username)));
  mret (Redirect #"/admin/users").

Definition disable (env : Env) jar ctx id (form : ConfirmForm) : App Response :=
  _ ← lift (ensure ctx UsersModify);
  _ ← lift (require_csrf jar form.(cf_csrf_token));
  if_return negb form.(cf_confirm) then
    throw (Validation #"Disabling this user was not confirmed.");;
  target ← query (λ db, find_user db id);
  target ← require target NotFound;
  _ ← exec (set_active id false);
  _ ← exec (revoke_all_for_user id env.(env_now));
  _ ← exec (audit (new_event UserDisabled Success
          |> with_actor (actor_of ctx) |> with_resource target.(username)));
  mret (Redirect #"/admin/users").

Definition revoke_sessions (env : Env) jar ctx id (form : ConfirmForm) : App Response :=
  _ ← lift (ensure ctx UsersModify);
  _ ← lift (require_csrf jar form.(cf_csrf_token));
  if_return negb form.(cf_confirm) then
    throw (Validation #"Force logout was not confirmed.");;
  target ← query (λ db, find_user db id);
  target ← require target NotFound;
  _ ← exec (revoke_all_for_user id env.(env_now));
  _ ← exec (audit (new_event SessionsRevoked Success
          |> with_actor (actor_of ctx) |> with_resource target.(username)));
  mret (Redirect #"/admin/users").

Definition delete_user jar ctx id (form : ConfirmForm) : App Response :=
  _ ← lift (ensure ctx UsersDelete);
  _ ← lift (require_csrf jar form.(cf_csrf_token));
  if_return negb form.(cf_confirm) then throw (Validation #"Deletion was not confirmed.");;
  target ← query (λ db, find_user db id);
  target ← require target NotFound;
  _ ← lift (require_typed_confirmation form.(cf_confirm_text) target.(username));
  _ ← exec (delete_user_row id);
  _ ← exec (audit (new_event UserDeleted Success
          |> with_actor (actor_of ctx) |> with_resource target.(username)));
  mret (Redirect #"/admin/users").
End users.
