(* ===== verification/Login.v ===== *)
(** * Getting in: first-run setup, registration, login, logout, password reset

    [crates/web/src/routes/login.rs], [setup.rs], [register.rs],
    [password_reset.rs], the password change of [account.rs], and
    [crates/database/src/repo/password_resets.rs].  These handlers also touch
    what lives beside the database: the login limiter of the process, the
    settings table and the mail that is sent. *)

From S2P Require Import Prelude Permission Json AuditLog RoleStore RoleTree Web.
From S2P Require Import Delegation Auth Users.
Import AuditAction (LoginSuccess, LoginFailure, Logout, PasswordChanged,
  PasswordResetRequested, UserCreated).

(** The server as these handlers see it; [outbox] is the mail handed to the
    notification providers, oldest first. *)
Record Site := mkSite {
  db : Db;
  settings : gmap rstr Value;
  login_limiter : LoginLimiter;
  outbox : list NotificationMessage;
}.

(** What a deployment fixes. *)
Record Deployment := mkDeployment {
  hash_token : rstr → rstr;
  verify_password : rstr → rstr → bool;
  hash_password : rstr → result DbError rstr;
  session_ttl : N;
  public_url : option rstr;
  session_cookie_name : rstr;
}.

(** What one request draws: the clock, a token, fresh ids, a proposed password. *)
Record Draw := mkDraw {
  at_time : N;
  token : rstr;
  fresh_id : Uuid;
  fresh_user : Uuid;
  proposed : rstr;
}.

(** The session cookie an answer sets. *)
Inductive SetCookie : Type :=
| KeepCookie
| SessionCookie (token : rstr)
| ClearedCookie.

Record Answer := mkAnswer { response : Response; cookie : SetCookie }.

(** ** The monad *)

Definition Srv (A : Type) : Type := Site → result AppError A * Site.
#[export] Instance Srv_ret : MRet Srv := λ A x s, (Ok x, s).
#[export] Instance Srv_bind : MBind Srv := λ A B f m s,
  match m s with
  | (Ok x, s') => f x s'
  | (Err e, s') => (Err e, s')
  end.

Definition with_db (d : Db) (s : Site) : Site := mkSite d (settings s) (login_limiter s) (outbox s).

(** A step on the database alone, one on the limiter, and a read. *)
Definition on_db {A} (m : App A) : Srv A := λ s, let '(r, d) := m (db s) in (r, with_db d s).
Definition on_limiter {A} (f : LoginLimiter → A * LoginLimiter) : Srv A := λ s,
  let '(x, l) := f (login_limiter s) in (Ok x, mkSite (db s) (settings s) l (outbox s)).
Definition asks {A} (f : Site → A) : Srv A := λ s, (Ok (f s), s).
Definition fails {A} (e : AppError) : Srv A := λ s, (Err e, s).
(** [.await.ok()]: a failed statement is ignored. *)
Definition ignoring (m : App unit) : Srv unit := λ s, (Ok (), with_db (m (db s)).2 s).
Definition send_mail (m : NotificationMessage) : Srv unit := λ s,
  (Ok (), mkSite (db s) (settings s) (login_limiter s) (outbox s ++ [m])).
Definition set_setting (key : rstr) (v : Value) : Srv unit := λ s,
  (Ok (), mkSite (db s) (<[key := v]> (settings s)) (login_limiter s) (outbox s)).

Definition page (r : Response) : Srv Answer := mret (mkAnswer r KeepCookie).

Definition PUBLIC_REGISTRATION_ENABLED : rstr := #"auth.public_registration_enabled".
Definition SUPER_ADMIN : rstr := #"Super Admin".
Definition REGULAR_USER : rstr := #"Regular User".

(** [repo::settings::get_bool]. *)
Definition get_bool (s : Site) (key : rstr) (dflt : bool) : bool :=
  match settings s !! key with Some (Bool b) => b | _ => dflt end.
Definition count_users (d : Db) : nat := size d.(users).

(** ** [password_resets] *)

Definition RESET_TOKEN_TTL : N := 60 * 60 * 1000000.
Definition RESET_COOLDOWN_MINUTES : N := 15.
Definition MINUTE : N := 60 * 1000000.

Section resets.
Context `{!SqlEngine}.
Implicit Types (d : Db).

Definition reset_rows d : list PasswordReset := (map_to_list d.(password_resets)).*2.

Definition create_reset (new_id u : Uuid) (hash : rstr) (ttl now : N) d : result DbError (unit * Db) :=
  if bool_decide (is_Some (d.(password_resets) !! new_id)) then Err DuplicateKey
  else if existsb (λ r, str_eqb r.(reset_token_hash) hash) (reset_rows d) then Err DuplicateKey
  else if dangling d.(users) (Some u) then Err ForeignKeyViolation
  else Ok ((), set_password_resets (insert new_id (mkReset u hash now (now + ttl) None)) d).

Definition has_recent_request d (u : Uuid) (minutes now : N) : bool :=
  existsb (λ r, (r.(reset_user) =? u)%N && (now - minutes * MINUTE <=? r.(reset_created_at))%N)
    (reset_rows d).

(** The condition of the [UPDATE] of [consume]. *)
Definition live (hash : rstr) (now : N) (r : PasswordReset) : bool :=
  str_eqb r.(reset_token_hash) hash && bool_decide (r.(used_at) = None) && (now <? r.(reset_expires_at))%N.
Definition use_reset (now : N) (r : PasswordReset) : PasswordReset :=
  mkReset r.(reset_user) r.(reset_token_hash) r.(reset_created_at) r.(reset_expires_at) (Some now).

Definition consume (hash : rstr) (now : N) d : result DbError (option Uuid * Db) :=
  let affected := length (List.filter (live hash now) (reset_rows d)) in
  let d' := set_password_resets (fmap (λ r, if live hash now r then use_reset now r else r)) d in
  if negb (affected =? 1) then Ok (None, d')
  else Ok (reset_user <$> List.find (λ r, str_eqb r.(reset_token_hash) hash) (reset_rows d'), d').
End resets.

(** ** Login and logout *)

Record LoginForm := mkLoginForm { lf_csrf_token : rstr; lf_username : rstr; lf_password : rstr }.
Record AccountForm := mkAccountForm {
  af_csrf_token : rstr; af_intent : rstr; af_username : rstr; af_email : rstr;
  af_password : rstr; af_password_confirm : rstr }.

Section handlers.
Context `{!SqlEngine} (dep : Deployment).
Implicit Types (jar : CookieJar) (dr : Draw).

Definition limiter_key (form : LoginForm) (ip : rstr) : rstr := lf_username form ++ #":" ++ ip.

Definition login_error (message : rstr) : Srv Answer :=
  registration_enabled ← asks (λ s, get_bool s PUBLIC_REGISTRATION_ENABLED false);
  page (LoginPage (Some message) registration_enabled).

(** The handler in the stretches it runs without waiting: the check of the
    counter, the look at the account (which waits for the database), and what
    follows once the answer is there. *)
Definition login_check jar (ip : rstr) (now : N) (form : LoginForm) : Srv bool :=
  _ ← on_db (lift (require_csrf jar (lf_csrf_token form)));
  on_limiter (λ l, is_locked l (limiter_key form ip) now).

Definition login_look (form : LoginForm) : Srv (result AuthError User) :=
  asks (λ s, authenticate (verify_password dep) (db s) (lf_username form) (lf_password form)).

(** [touch_last_login] writes a column no modelled code reads. *)
Definition login_settle (ip : rstr) dr (form : LoginForm) (r : result AuthError User) : Srv Answer :=
  match r with
  | Ok u =>
      _ ← on_limiter (λ l, ((), clear l (limiter_key form ip)));
      _ ← on_db (exec (audit (new_event LoginSuccess Success
              |> with_actor (mkActor u.(uid) u.(username)) |> with_source_ip ip
              |> with_auth_method #"local")));
      _ ← on_db (exec (issue (hash_token dep) (fresh_id dr) (token dr) u.(uid) (session_ttl dep) (at_time dr)));
      mret (mkAnswer (Redirect #"/") (SessionCookie (token dr)))
  | Err e =>
      _ ← on_limiter (λ l, ((), record_failure l (limiter_key form ip) (at_time dr)));
      _ ← on_db (exec (audit (new_event LoginFailure Failure
              |> with_resource (lf_username form) |> with_source_ip ip |> with_auth_method #"local")));
      login_error (match e with
                   | AccountDisabled => #"This account has been disabled."
                   | _ => #"Invalid username or password."
                   end)
  end.

(** A request that is served without another one in between. *)
Definition login_submit jar (ip : rstr) dr (form : LoginForm) : Srv Answer :=
  locked ← login_check jar ip (at_time dr) form;
  if (locked : bool) then login_error #"Too many failed attempts. Try again later."
  else r ← login_look form; login_settle ip dr form r.

(** The extractor runs before the handler; its failure is not the handler's. *)
Definition logout jar dr (csrf_token : rstr) : Srv Answer :=
  current ← asks (λ s, current_user (db s) (hash_token dep) (session_cookie_name dep) #"/logout" jar (at_time dr));
  _ ← on_db (lift (require_csrf jar csrf_token));
  session ← asks (λ s, t ← jar (session_cookie_name dep); validate (db s) (hash_token dep) t (at_time dr));
  _ ← match session with
      | Some x => on_db (exec (revoke x.(session_id) (at_time dr)))
      | None => mret ()
      end;
  _ ← match current with
      | Ok ctx => ignoring (exec (audit (new_event Logout Success |> with_actor (actor_of ctx))))
      | Err _ => mret ()
      end;
  mret (mkAnswer (Redirect #"/login") ClearedCookie).

(** ** First run and registration *)

(** The end that setup and registration share, from the confirmation on. *)
Definition create_account (show : option rstr → Response) dr (form : AccountForm)
    (k : User → Srv Answer) : Srv Answer :=
  if negb (str_eqb (af_password form) (af_password_confirm form)) then
    page (show (Some #"Passwords do not match."))
  else
    match validate_strength (af_password form) with
    | Err message => page (show (Some message))
    | Ok _ =>
        hash ← on_db (exec (λ d, h ← hash_password dep (af_password form); Ok (h, d)));
        u ← on_db (exec (create_user (fresh_user dr) (af_username form) (af_email form) (Some hash) #"local" false));
        k u
    end.

(** Signing the new user in; [ip] is recorded where the handler has it. *)
Definition sign_in dr (u : User) : Srv Answer :=
  _ ← on_db (exec (issue (hash_token dep) (fresh_id dr) (token dr) u.(uid) (session_ttl dep) (at_time dr)));
  mret (mkAnswer (Redirect #"/") (SessionCookie (token dr))).

(** The role by its name; startup seeding put it there. *)
Definition seeded_role (name : rstr) : Srv Role :=
  role ← on_db (query (λ d, find_by_name d name));
  on_db (require role (Internal RowVanished)).

Definition setup_submit jar (ip : rstr) dr (form : AccountForm) : Srv Answer :=
  _ ← on_db (lift (require_csrf jar (af_csrf_token form)));
  n ← asks (λ s, count_users (db s));
  if 0 <? n then page (Redirect #"/login")
  else if str_eqb (af_intent form) #"generate" then
    page (SetupPage (af_username form) (af_email form) None (Some (proposed dr)))
  else
    create_account (λ e, SetupPage (af_username form) (af_email form) e None) dr form (λ u,
      super_admin ← seeded_role SUPER_ADMIN;
      _ ← on_db (exec (assign_role_to_user u.(uid) super_admin.(role_id)));
      _ ← set_setting PUBLIC_REGISTRATION_ENABLED (Bool false);
      _ ← on_db (exec (audit (new_event UserCreated Success
              |> with_actor (mkActor u.(uid) u.(username)) |> with_resource u.(username)
              |> with_source_ip ip |> with_auth_method #"local")));
      sign_in dr u).

Definition registration_enabled (s : Site) : bool :=
  if count_users (db s) =? 0 then false else get_bool s PUBLIC_REGISTRATION_ENABLED false.

Definition register_submit jar dr (form : AccountForm) : Srv Answer :=
  _ ← on_db (lift (require_csrf jar (af_csrf_token form)));
  enabled ← asks registration_enabled;
  if negb enabled then page (Redirect #"/login")
  else if str_eqb (af_intent form) #"generate" then
    page (RegisterPage (af_username form) (af_email form) None (Some (proposed dr)))
  else
    create_account (λ e, RegisterPage (af_username form) (af_email form) e None) dr form (λ u,
      regular ← seeded_role REGULAR_USER;
      _ ← on_db (exec (assign_role_to_user u.(uid) regular.(role_id)));
      _ ← on_db (exec (audit (new_event UserCreated Success
              |> with_actor (mkActor u.(uid) u.(username)) |> with_resource u.(username)
              |> with_auth_method #"local")));
      sign_in dr u).

(** ** Changing and resetting a password *)

Record ChangePasswordForm := mkChangePasswordForm {
  cp_csrf_token : rstr; cp_current : rstr; cp_new : rstr; cp_confirm : rstr }.

Definition change_password jar (ctx : AuthContext) (form : ChangePasswordForm) : Srv Answer :=
  _ ← on_db (lift (require_csrf jar (cp_csrf_token form)));
  match ctx.(user).(password_hash) with
  | None => page (AccountPage (Some #"This account has no local password to change."))
  | Some current_hash =>
      if negb (verify_password dep (cp_current form) current_hash) then
        page (AccountPage (Some #"Current password is incorrect."))
      else if negb (str_eqb (cp_new form) (cp_confirm form)) then
        page (AccountPage (Some #"New password and confirmation don't match."))
      else
        match validate_strength (cp_new form) with
        | Err message => page (AccountPage (Some message))
        | Ok _ =>
            new_hash ← on_db (exec (λ d, h ← hash_password dep (cp_new form); Ok (h, d)));
            _ ← on_db (exec (update_password ctx.(user).(uid) new_hash false));
            _ ← on_db (exec (audit (new_event PasswordChanged Success
                    |> with_actor (actor_of ctx) |> with_resource ctx.(user).(username))));
            page (Redirect #"/?notice=password_changed")
        end
  end.

Definition build_reset_email (recipient raw_token : rstr) (base : option rstr) : NotificationMessage :=
  mkMessage #"Reset your Abyssal Arsenal password"
    (match base with
     | Some base =>
         #"A password reset was requested for your Abyssal Arsenal account." ++ NL ++ NL
         ++ #"Reset link: " ++ base ++ #"/reset-password?token=" ++ raw_token ++ NL ++ NL
         ++ #"If that link doesn't work, go to " ++ base
         ++ #"/reset-password and enter this code directly: " ++ raw_token ++ NL ++ NL
         ++ #"This link/code expires in 1 hour. If you didn't request this, you can safely ignore this email -- your password hasn't been changed."
     | None =>
         #"A password reset was requested for your Abyssal Arsenal account." ++ NL ++ NL
         ++ #"Reset code: " ++ raw_token ++ NL ++ NL
         ++ #"Go to your control plane's " ++ [34%N] ++ #"Reset password" ++ [34%N]
         ++ #" page and enter this code." ++ NL ++ NL
         ++ #"This code expires in 1 hour. If you didn't request this, you can safely ignore this email -- your password hasn't been changed."
     end)
    [recipient].

(** An account whose password can be reset by mail. *)
Definition resettable (d : Db) (mail : rstr) : option User :=
  u ← find_by_email d mail;
  if u.(is_active) && bool_decide (is_Some u.(password_hash)) then Some u else None.

(** The part of [submit_forgot_password] behind the uniform answer. *)
Definition send_reset_code dr (mail : rstr) : Srv unit :=
  found ← asks (λ s, resettable (db s) (trim mail));
  match found with
  | None => mret ()
  | Some u =>
      recent ← asks (λ s, has_recent_request (db s) u.(uid) RESET_COOLDOWN_MINUTES (at_time dr));
      if (recent : bool) then mret ()
      else
        created ← asks (λ s, create_reset (fresh_id dr) u.(uid) (hash_token dep (token dr))
                              RESET_TOKEN_TTL (at_time dr) (db s));
        match created with
        | Err _ => mret ()
        | Ok (_, d) =>
            _ ← (λ s, (Ok (), with_db d s)) : Srv unit;
            _ ← send_mail (build_reset_email u.(email) (token dr) (public_url dep));
            ignoring (exec (audit (new_event PasswordResetRequested Success
                        |> with_resource u.(username))))
        end
  end.

Definition forgot_submit jar dr (csrf_token mail : rstr) : Srv Answer :=
  _ ← on_db (lift (require_csrf jar csrf_token));
  _ ← send_reset_code dr mail;
  page (ForgotPasswordPage true).

Record ResetForm := mkResetForm {
  rf_csrf_token : rstr; rf_token : rstr; rf_new : rstr; rf_confirm : rstr }.

Definition reset_submit jar dr (form : ResetForm) : Srv Answer :=
  _ ← on_db (lift (require_csrf jar (rf_csrf_token form)));
  if negb (str_eqb (rf_new form) (rf_confirm form)) then
    page (ResetPasswordPage (rf_token form) (Some #"New password and confirmation don't match."))
  else
    match validate_strength (rf_new form) with
    | Err message => page (ResetPasswordPage (rf_token form) (Some message))
    | Ok _ =>
        who ← on_db (exec (consume (hash_token dep (trim (rf_token form))) (at_time dr)));
        match who with
        | None =>
            page (ResetPasswordPage (rf_token form)
                    (Some #"That reset code is invalid or has expired. Request a new one."))
        | Some id =>
            u ← on_db (query (λ d, find_user d id));
            u ← on_db (require u NotFound);
            new_hash ← on_db (exec (λ d, h ← hash_password dep (rf_new form); Ok (h, d)));
            _ ← on_db (exec (update_password id new_hash false));
            _ ← on_db (exec (revoke_all_for_user id (at_time dr)));
            _ ← on_db (exec (audit (new_event AuditAction.PasswordReset Success
                    |> with_resource u.(username))));
            page (Redirect #"/login")
        end
    end.
End handlers.
