(* ===== verification/Enrollment.v ===== *)
(** * Enrolling hosts and their agents' connections

    [crates/web/src/routes/agent.rs], the [AgentAuth] extractor of [extract.rs],
    [install_tokens.rs] and [aat.rs] of [crates/web], and the repositories
    [hosts.rs], [host_enrollment_tokens.rs] and [install_tokens.rs].  The handlers
    are programs of single statements, so that other requests may run in between
    and the database may go away at any point; a statement that fails changes
    nothing. *)

From S2P Require Import Prelude Permission Json AuditLog RoleStore Web Delegation.
From S2P Require Import Auth Users Login ElevationTracker Registry Steps Aat.
Import AuditAction (HostEnrolled, HostRemoved).

Abbreviation Uuid := N (only parsing).

(** [abyssal_core::Host], with the two columns that say what enrolled it. *)
Record Host := mkHost {
  h_id : Uuid; h_name : rstr; h_credential_hash : rstr; h_enrolled_at : N;
  h_enrolled_via : option rstr; h_enrolled_via_token_id : option Uuid;
  h_last_seen_at : option N; h_last_seen_ip : option rstr;
  h_os : option rstr; h_agent_version : option rstr;
  h_pending_approval : bool; h_control_plane : bool;
  h_offline_ack_at : option N; h_offline_ack_by : option rstr;
  h_revoked_at : option N }.

Definition host_is_active (h : Host) : bool := bool_decide (h_revoked_at h = None).

(** A row of [host_enrollment_tokens] and one of [install_tokens]. *)
Record EnrollmentToken := mkEnrollmentToken {
  et_hash : rstr; et_created_by : option Uuid; et_expires_at : N; et_used_at : option N;
  et_reusable : bool; et_use_count : N; et_revoked_at : option N; et_control_plane : bool }.

Record InstallToken := mkInstallToken {
  it_id : Uuid; it_label : rstr; it_sealed : rstr; it_hash : rstr; it_key_id : rstr;
  it_require_approval : bool; it_created_by : option Uuid; it_expires_at : option N;
  it_revoked_at : option N; it_use_count : N; it_last_used_at : option N }.

(** [InstallToken::is_active]. *)
Definition it_is_active (t : InstallToken) (now : N) : bool :=
  bool_decide (it_revoked_at t = None) && match it_expires_at t with None => true | Some e => (now <? e)%N end.

(** The server: its tables, the connections of the process, the clock, and
    whether the database answers. *)
Record Fleet := mkFleet {
  site : Site;
  hosts : gmap Uuid Host;
  enrollment_tokens : gmap Uuid EnrollmentToken;
  install_tokens : gmap Uuid InstallToken;
  registry : Registry;
  elevation : Tracker;
  clock : N;
  available : bool }.

Definition set_site (f : Site → Site) (s : Fleet) : Fleet :=
  mkFleet (f (site s)) (hosts s) (enrollment_tokens s) (install_tokens s) (registry s) (elevation s) (clock s) (available s).
Definition set_hosts (f : gmap Uuid Host → gmap Uuid Host) (s : Fleet) : Fleet :=
  mkFleet (site s) (f (hosts s)) (enrollment_tokens s) (install_tokens s) (registry s) (elevation s) (clock s) (available s).
Definition set_enrollment_tokens (f : gmap Uuid EnrollmentToken → gmap Uuid EnrollmentToken) (s : Fleet) : Fleet :=
  mkFleet (site s) (hosts s) (f (enrollment_tokens s)) (install_tokens s) (registry s) (elevation s) (clock s) (available s).
Definition set_install_tokens (f : gmap Uuid InstallToken → gmap Uuid InstallToken) (s : Fleet) : Fleet :=
  mkFleet (site s) (hosts s) (enrollment_tokens s) (f (install_tokens s)) (registry s) (elevation s) (clock s) (available s).
Definition set_registry (f : Registry → Registry) (s : Fleet) : Fleet :=
  mkFleet (site s) (hosts s) (enrollment_tokens s) (install_tokens s) (f (registry s)) (elevation s) (clock s) (available s).
Definition set_elevation (f : Tracker → Tracker) (s : Fleet) : Fleet :=
  mkFleet (site s) (hosts s) (enrollment_tokens s) (install_tokens s) (registry s) (f (elevation s)) (clock s) (available s).

Definition on_tables (f : Db → Db) : Fleet → Fleet := set_site (λ x, with_db (f (db x)) x).

(** ** Statements *)

Definition stmt {A} (f : Fleet → result DbError (A * Fleet)) : Prog Fleet (result DbError A) := act (λ s,
  if available s then match f s with Ok (x, s') => (Ok x, s') | Err e => (Err e, s) end
  else (Err Unavailable, s)).
(** A query, and an [UPDATE] or [DELETE] that no constraint can refuse. *)
Definition select {A} (f : Fleet → A) : Prog Fleet (result DbError A) := stmt (λ s, Ok (f s, s)).
Definition change (f : Fleet → Fleet) : Prog Fleet (result DbError ()) := stmt (λ s, Ok ((), f s)).
(** What only touches the process. *)
Definition ask {A} (f : Fleet → A) : Prog Fleet A := act (λ s, (f s, s)).
Definition tell (f : Fleet → Fleet) : Prog Fleet () := act (λ s, ((), f s)).
(** [abyssal_audit::record]. *)
Definition audit_stmt (e : AuditEvent) : Prog Fleet (result DbError ()) := stmt (λ s,
  match audit e (db (site s)) with Ok (_, d) => Ok ((), on_tables (λ _, d) s) | Err e => Err e end).
(** A failure that is only logged. *)
Definition logged {A} (m : Prog Fleet (result DbError A)) : Prog Fleet () := _ ← m; Ret ().

(** ** [repo::hosts] *)

Section hosts.
Context `{!SqlEngine}.
Implicit Types (s : Fleet).

Definition host_rows s : list Host := (map_to_list (hosts s)).*2.

Definition find_host s (id : Uuid) : option Host := hosts s !! id.
Definition find_host_by_name s (name : rstr) : option Host :=
  List.find (λ h, name_eqb (h_name h) name) (host_rows s).
Definition find_by_credential_hash s (hash : rstr) : option Host :=
  List.find (λ h, str_eqb (h_credential_hash h) hash) (host_rows s).

(** The [INSERT], under the unique keys of the table. *)
Definition insert_host (id : Uuid) (name hash : rstr) (pending : bool) s : result DbError (() * Fleet) :=
  if bool_decide (is_Some (find_host s id)) then Err DuplicateKey
  else if bool_decide (is_Some (find_host_by_name s name)) then Err DuplicateKey
  else if bool_decide (is_Some (find_by_credential_hash s hash)) then Err DuplicateKey
  else Ok ((), set_hosts (insert id (mkHost id name hash (clock s) None None None None None None
                                       pending false None None None)) s).

Definition create_with_approval (id : Uuid) (name hash : rstr) (pending : bool) : Prog Fleet (result DbError Host) :=
  ? stmt (insert_host id name hash pending);
  row ←? select (λ s, find_host s id);
  Ret (ok_or row RowVanished).
End hosts.

(** An [UPDATE ... WHERE id = ?]. *)
Definition update_host (id : Uuid) (f : Host → Host) (s : Fleet) : Fleet := set_hosts (alter f id) s.

Definition with_enrolled_via (via : rstr) (token_id : option Uuid) (h : Host) : Host :=
  mkHost (h_id h) (h_name h) (h_credential_hash h) (h_enrolled_at h) (Some via) token_id (h_last_seen_at h)
    (h_last_seen_ip h) (h_os h) (h_agent_version h) (h_pending_approval h) (h_control_plane h)
    (h_offline_ack_at h) (h_offline_ack_by h) (h_revoked_at h).
Definition with_seen (at_ : N) (ip os version : option rstr) (h : Host) : Host :=
  mkHost (h_id h) (h_name h) (h_credential_hash h) (h_enrolled_at h) (h_enrolled_via h) (h_enrolled_via_token_id h)
    (Some at_) ip os version (h_pending_approval h) (h_control_plane h)
    (h_offline_ack_at h) (h_offline_ack_by h) (h_revoked_at h).
Definition with_flags (pending control_plane : bool) (h : Host) : Host :=
  mkHost (h_id h) (h_name h) (h_credential_hash h) (h_enrolled_at h) (h_enrolled_via h) (h_enrolled_via_token_id h)
    (h_last_seen_at h) (h_last_seen_ip h) (h_os h) (h_agent_version h) pending control_plane
    (h_offline_ack_at h) (h_offline_ack_by h) (h_revoked_at h).
Definition with_ack (at_ : option N) (by_ : option rstr) (h : Host) : Host :=
  mkHost (h_id h) (h_name h) (h_credential_hash h) (h_enrolled_at h) (h_enrolled_via h) (h_enrolled_via_token_id h)
    (h_last_seen_at h) (h_last_seen_ip h) (h_os h) (h_agent_version h) (h_pending_approval h) (h_control_plane h)
    at_ by_ (h_revoked_at h).
Definition with_revoked (at_ : option N) (h : Host) : Host :=
  mkHost (h_id h) (h_name h) (h_credential_hash h) (h_enrolled_at h) (h_enrolled_via h) (h_enrolled_via_token_id h)
    (h_last_seen_at h) (h_last_seen_ip h) (h_os h) (h_agent_version h) (h_pending_approval h) (h_control_plane h)
    (h_offline_ack_at h) (h_offline_ack_by h) at_.

Definition set_enrolled_via (id : Uuid) (via : rstr) (token_id : option Uuid) : Prog Fleet (result DbError ()) :=
  change (update_host id (with_enrolled_via via token_id)).
Definition touch_last_seen (id : Uuid) : Prog Fleet (result DbError ()) :=
  change (λ s, update_host id (λ h, with_seen (clock s) (h_last_seen_ip h) (h_os h) (h_agent_version h) h) s).
(** [COALESCE(?, column)]. *)
Definition coalesce {A} (new old : option A) : option A := match new with Some _ => new | None => old end.
Definition touch_last_seen_with_ip (id : Uuid) (ip : rstr) (os version : option rstr) : Prog Fleet (result DbError ()) :=
  change (λ s, update_host id (λ h, with_seen (clock s) (Some ip) (coalesce os (h_os h))
                                      (coalesce version (h_agent_version h)) h) s).
Definition set_offline_ack (id : Uuid) (by_ : option rstr) : Prog Fleet (result DbError ()) :=
  change (λ s, update_host id (with_ack (match by_ with None => None | Some _ => Some (clock s) end) by_) s).
Definition clear_offline_ack (id : Uuid) : Prog Fleet (result DbError bool) := stmt (λ s,
  let set := bool_decide (is_Some (hosts s !! id ≫= h_offline_ack_at)) in
  Ok (set, if set then update_host id (with_ack None None) s else s)).
Definition approve_host (id : Uuid) : Prog Fleet (result DbError bool) := stmt (λ s,
  let pending := match hosts s !! id with Some h => h_pending_approval h | None => false end in
  Ok (pending, if pending then update_host id (λ h, with_flags false (h_control_plane h) h) s else s)).
Definition set_host_control_plane (id : Uuid) (flag : bool) : Prog Fleet (result DbError bool) :=
  affected ←? stmt (λ s,
    Ok (match hosts s !! id with Some h => negb (Bool.eqb (h_control_plane h) flag) | None => false end,
        update_host id (λ h, with_flags (h_pending_approval h) flag h) s));
  if (affected : bool) then Ret (Ok true)
  else row ←? select (λ s, hosts s !! id); Ret (Ok (bool_decide (is_Some row))).
Definition revoke_host (id : Uuid) : Prog Fleet (result DbError ()) :=
  change (λ s, update_host id (with_revoked (Some (clock s))) s).
Definition delete_host (id : Uuid) : Prog Fleet (result DbError ()) := change (set_hosts (base.delete id)).

(** ** [repo::host_enrollment_tokens] *)

Definition token_rows (s : Fleet) : list EnrollmentToken := (map_to_list (enrollment_tokens s)).*2.
Definition insert_token (id : Uuid) (t : EnrollmentToken) (s : Fleet) : result DbError (() * Fleet) :=
  if bool_decide (is_Some (enrollment_tokens s !! id)) then Err DuplicateKey
  else if existsb (λ t', str_eqb (et_hash t') (et_hash t)) (token_rows s) then Err DuplicateKey
  else if dangling (users (db (site s))) (et_created_by t) then Err ForeignKeyViolation
  else Ok ((), set_enrollment_tokens (insert id t) s).
Definition create_token (id : Uuid) (hash : rstr) (by_ : option Uuid) (ttl : N) : Prog Fleet (result DbError ()) :=
  stmt (λ s, insert_token id (mkEnrollmentToken hash by_ (clock s + ttl) None false 0 None false) s).
Definition create_control_plane_token (id : Uuid) (hash : rstr) (ttl : N) : Prog Fleet (result DbError ()) :=
  stmt (λ s, insert_token id (mkEnrollmentToken hash None (clock s + ttl) None false 0 None true) s).

(** The [WHERE] and the [SET] of [consume]; the counter stays below its width. *)
Definition consumable (hash : rstr) (now : N) (t : EnrollmentToken) : bool :=
  str_eqb (et_hash t) hash && bool_decide (et_revoked_at t = None) && (now <? et_expires_at t)%N
  && (et_reusable t || bool_decide (et_used_at t = None)).
Definition use_token (now : N) (t : EnrollmentToken) : EnrollmentToken :=
  mkEnrollmentToken (et_hash t) (et_created_by t) (et_expires_at t)
    (if et_reusable t then et_used_at t else Some now) (et_reusable t) (et_use_count t + 1)
    (et_revoked_at t) (et_control_plane t).
Definition consume_token (hash : rstr) : Prog Fleet (result DbError bool) := stmt (λ s,
  let affected := length (List.filter (consumable hash (clock s)) (token_rows s)) in
  Ok (affected =? 1, set_enrollment_tokens (fmap (λ t, if consumable hash (clock s) t then use_token (clock s) t else t)) s)).

Record TokenKind := mkTokenKind { k_id : Uuid; k_reusable : bool; k_control_plane : bool }.
Definition token_kind (hash : rstr) (s : Fleet) : option TokenKind :=
  match List.find (λ p, str_eqb (et_hash p.2) hash) (map_to_list (enrollment_tokens s)) with
  | Some (id, t) => Some (mkTokenKind id (et_reusable t) (et_control_plane t))
  | None => None
  end.

Definition with_token_revoked (now : N) (t : EnrollmentToken) : EnrollmentToken :=
  mkEnrollmentToken (et_hash t) (et_created_by t) (et_expires_at t) (et_used_at t) (et_reusable t)
    (et_use_count t) (coalesce (et_revoked_at t) (Some now)) (et_control_plane t).
Definition revoke_token (id : Uuid) : Prog Fleet (result DbError ()) :=
  change (λ s, set_enrollment_tokens (alter (with_token_revoked (clock s)) id) s).

(** ** [repo::install_tokens] *)

Definition install_rows (s : Fleet) : list InstallToken := (map_to_list (install_tokens s)).*2.
Definition create_install_row (t : InstallToken) : Prog Fleet (result DbError Uuid) := stmt (λ s,
  if bool_decide (is_Some (install_tokens s !! it_id t)) then Err DuplicateKey
  else if existsb (λ t', str_eqb (it_hash t') (it_hash t)) (install_rows s) then Err DuplicateKey
  else if existsb (λ t', str_eqb (it_key_id t') (it_key_id t)) (install_rows s) then Err DuplicateKey
  else Ok (it_id t, set_install_tokens (insert (it_id t) t) s)).
Definition find_active_by_hash (hash : rstr) (s : Fleet) : option InstallToken :=
  List.find (λ t, str_eqb (it_hash t) hash && it_is_active t (clock s)) (install_rows s).
Definition find_active_by_key_id (key_id : rstr) (s : Fleet) : option InstallToken :=
  List.find (λ t, str_eqb (it_key_id t) key_id && it_is_active t (clock s)) (install_rows s).
Definition record_use (id : Uuid) : Prog Fleet (result DbError ()) := change (λ s,
  set_install_tokens (alter (λ t, mkInstallToken (it_id t) (it_label t) (it_sealed t) (it_hash t) (it_key_id t)
    (it_require_approval t) (it_created_by t) (it_expires_at t) (it_revoked_at t) (it_use_count t + 1)
    (Some (clock s))) id) s).
Definition revoke_install (id : Uuid) : Prog Fleet (result DbError bool) := stmt (λ s,
  let live := match install_tokens s !! id with Some t => bool_decide (it_revoked_at t = None) | None => false end in
  Ok (live, if live then set_install_tokens (alter (λ t, mkInstallToken (it_id t) (it_label t) (it_sealed t)
              (it_hash t) (it_key_id t) (it_require_approval t) (it_created_by t) (it_expires_at t)
              (Some (clock s)) (it_use_count t) (it_last_used_at t)) id) s else s)).

(** ** The default token ([aat.rs]) and the additional ones ([install_tokens.rs]) *)

(** An [anyhow] error: a statement's, or a text. *)
Inductive Failure : Type :=
| Sql (e : DbError)
| Message (text : rstr).
Definition sql {A} (m : Prog Fleet (result DbError A)) : Prog Fleet (result Failure A) :=
  r ← m; Ret (match r with Ok x => Ok x | Err e => Err (Sql e) end).
Definition message {A} (r : result rstr A) : Prog Fleet (result Failure A) :=
  Ret (match r with Ok x => Ok x | Err e => Err (Message e) end).

Definition SECRET_KEY : rstr := #"agents.aat".
Definition REQUIRE_APPROVAL_KEY : rstr := #"agents.aat_require_approval".

Definition set_setting_stmt (key : rstr) (v : Value) : Prog Fleet (result DbError ()) :=
  change (set_site (λ x, mkSite (db x) (<[key := v]> (settings x)) (login_limiter x) (outbox x))).
Definition read_stored (s : Fleet) : option rstr := settings (site s) !! SECRET_KEY ≫= as_str.
Definition require_approval : Prog Fleet (result DbError bool) :=
  select (λ s, get_bool (site s) REQUIRE_APPROVAL_KEY false).
Definition set_require_approval (required : bool) : Prog Fleet (result DbError ()) :=
  set_setting_stmt REQUIRE_APPROVAL_KEY (Bool required).

(** What the process is configured with, and the digest of the [sha2] crate. *)
Record HostEnv := mkHostEnv { sha256 : list N → list N; encryption_key : option Cipher }.

Inductive Matched : Type :=
| MatchedDefault
| MatchedAdditional (t : InstallToken).

Section tokens.
Context (env : HostEnv).

Definition hash (token : rstr) : rstr := sha256_hex (sha256 env) token.

Definition store (nonce : N) (aat : rstr) : Prog Fleet (result Failure ()) :=
  sealed ←? message (seal (encryption_key env) nonce aat);
  sql (set_setting_stmt SECRET_KEY (Str sealed)).

Definition current : Prog Fleet (result Failure (option rstr)) :=
  stored ←? sql (select read_stored);
  match stored with
  | Some stored => message (unseal (encryption_key env) stored)
  | None => Ret (Ok None)
  end.

(** [ensure]; [token] is what [generate_token] draws. *)
Definition ensure_aat (token : rstr) (nonce : N) : Prog Fleet (result Failure rstr) :=
  stored ←? sql (select read_stored);
  found ←? message (match stored with Some x => unseal (encryption_key env) x | None => Ok None end);
  match found with
  | Some aat =>
      if negb (starts_with (default [] stored) ENCRYPTED_PREFIX) && bool_decide (is_Some (encryption_key env))
      then ? store nonce aat; Ret (Ok aat)
      else Ret (Ok aat)
  | None =>
      ? store nonce (new_aat token); Ret (Ok (new_aat token))
  end.

Definition rotate (token : rstr) (nonce : N) : Prog Fleet (result Failure rstr) :=
  ? store nonce (new_aat token); Ret (Ok (new_aat token)).

Definition matches (presented : rstr) : Prog Fleet (result Failure bool) :=
  aat ←? current;
  Ret (Ok (match aat with Some aat => str_eqb (hash aat) (hash presented) | None => false end)).

Definition match_presented (presented : rstr) : Prog Fleet (result Failure (option Matched)) :=
  is_default ←? matches presented;
  if (is_default : bool) then Ret (Ok (Some MatchedDefault))
  else
    t ←? sql (select (find_active_by_hash (hash presented)));
    Ret (Ok (MatchedAdditional <$> t)).

Definition DAY : N := 24 * 60 * 60 * 1000000.
Definition create_install (id : Uuid) (token : rstr) (nonce : N) (label : rstr) (expires_in_days : option N)
    (approval : bool) (by_ : option Uuid) : Prog Fleet (result Failure (Uuid * rstr)) :=
  let aat := new_aat token in
  sealed ←? message (seal (encryption_key env) nonce aat);
  now ← ask clock;
  id ←? sql (create_install_row (mkInstallToken id label sealed (hash aat) (key_id (sha256 env) aat) approval by_
               ((λ d, now + d * DAY)%N <$> expires_in_days) None 0 None));
  Ret (Ok (id, aat)).

Definition unseal_install (t : InstallToken) : result rstr rstr :=
  aat ← unseal (encryption_key env) (it_sealed t);
  ok_or aat (#"install token " ++ [34%N] ++ it_label t ++ [34%N]
             ++ #" isn't readable -- revoke it and create a new one").

(** The [match] at the end of [for_ca_proof]. *)
Definition proof_key_of (requested : rstr) : Prog Fleet (result Failure (option rstr)) :=
  t ←? sql (select (find_active_by_key_id requested));
  match t with
  | Some t => message (Some <$> unseal_install t)
  | None => Ret (Ok None)
  end.
Definition for_ca_proof (requested : option rstr) : Prog Fleet (result Failure (option rstr)) :=
  dflt ←? current;
  match requested, dflt with
  | None, _ => Ret (Ok dflt)
  | Some requested, Some d =>
      if str_eqb (key_id (sha256 env) d) requested then Ret (Ok (Some d)) else proof_key_of requested
  | Some requested, None => proof_key_of requested
  end.
End tokens.

(** ** Enrolling *)

Inductive AgentAnswer : Type :=
| Enrolled (host : Uuid) (credential : rstr)
| CaProof (ca_pem : option rstr) (proof : rstr)
| Whoami (host : Uuid) (name : rstr)
| Refusal (code : N) (body : rstr).

Definition SERVER_ERROR : AgentAnswer := Refusal 500 [].
Definition aat_unavailable : AgentAnswer :=
  Refusal 503 #"this control plane can't read its agent install token (AAT) -- an admin must rotate it on /admin/hosts".

Record EnrollRequest := mkEnrollRequest { er_token : rstr; er_name : rstr }.
(** What one enrolment draws: the id of the host and its credential. *)
Record EnrollDraw := mkEnrollDraw { new_host : Uuid; new_credential : rstr }.

(** What the token decided: the variables [enroll] sets in its first part. *)
Record Grant := mkGrant {
  g_pending : bool; g_control_plane : bool; g_via : rstr;
  g_token_id : option Uuid; g_token_label : option rstr }.

Definition quoted (s : rstr) : rstr := [34%N] ++ s ++ [34%N].
Definition opt_json {A} (f : A → Value) (o : option A) : Value := match o with Some x => f x | None => Null end.

Section enroll.
Context `{!SqlEngine, !Text} (env : HostEnv).
Implicit Types (req : EnrollRequest).

Definition uuid_json (id : Uuid) : Value := Str (uuid_to_string id).

Definition authorize_install (presented : rstr) : Prog Fleet (result AgentAnswer Grant) :=
  m ← match_presented env presented;
  match m with
  | Ok (Some MatchedDefault) =>
      required ← require_approval;
      Ret (match required with
           | Ok required => Ok (mkGrant required false #"default_token" None None)
           | Err _ => Err SERVER_ERROR
           end)
  | Ok (Some (MatchedAdditional t)) =>
      Ret (Ok (mkGrant (it_require_approval t) false #"install_token" (Some (it_id t)) (Some (it_label t))))
  | Ok None =>
      Ret (Err (Refusal 401 #"invalid install token -- it may have been rotated, revoked or have expired; copy a current one from /admin/hosts"))
  | Err _ => Ret (Err aat_unavailable)
  end.

Definition authorize_token (presented : rstr) : Prog Fleet (result AgentAnswer Grant) :=
  consumed ← consume_token (hash env presented);
  match consumed with
  | Ok true =>
      kind ← select (token_kind (hash env presented));
      let kind := match kind with Ok k => k | Err _ => None end in
      let control_plane := match kind with Some k => k_control_plane k | None => false end in
      let via := if control_plane then #"control_plane"
                 else match kind with
                      | Some k => if k_reusable k then #"deployment_token" else #"enrollment_token"
                      | None => #"enrollment_token"
                      end in
      Ret (Ok (mkGrant false control_plane via (k_id <$> kind) None))
  | Ok false => Ret (Err (Refusal 401 #"invalid, expired, or already-used enrollment token"))
  | Err _ => Ret (Err SERVER_ERROR)
  end.

Definition superseded_event (stale : Host) : AuditEvent :=
  new_event HostRemoved Success |> with_resource (h_name stale)
  |> with_metadata (Obj [(#"previous_host_id", uuid_json (h_id stale));
                         (#"reason", Str #"superseded by a new enrollment under the same name")]).

(** The [match] on the name. *)
Definition free_name (via_aat : bool) (name : rstr) : Prog Fleet (result AgentAnswer ()) :=
  found ← select (λ s, find_host_by_name s name);
  match found with
  | Err _ => Ret (Err SERVER_ERROR)
  | Ok None => Ret (Ok ())
  | Ok (Some existing) =>
      connected ← ask (λ s, is_connected (h_id existing) (registry s));
      if (connected : bool) then
        Ret (Err (Refusal 409 (#"a host named " ++ quoted (h_name existing)
          ++ #" is already connected -- remove it from /admin/hosts first if you want to re-enroll a different machine under this name")))
      else if via_aat then
        Ret (Err (Refusal 409 (#"a host named " ++ quoted (h_name existing)
          ++ #" is already enrolled -- remove it from /admin/hosts first to re-enroll this machine with the install token")))
      else
        removed ← delete_host (h_id existing);
        match removed with
        | Err _ => Ret (Err SERVER_ERROR)
        | Ok _ => _ ← logged (audit_stmt (superseded_event existing)); Ret (Ok ())
        end
  end.

Definition enrolled_event (name : rstr) (g : Grant) : AuditEvent :=
  new_event HostEnrolled Success |> with_resource name
  |> with_metadata (Obj [(#"control_plane", Bool (g_control_plane g)); (#"pending_approval", Bool (g_pending g));
                         (#"token_id", opt_json uuid_json (g_token_id g));
                         (#"token_label", opt_json Str (g_token_label g)); (#"via", Str (g_via g))]).

(** The row of the new host, what is recorded on it, and its guard. *)
Definition register_host (d : EnrollDraw) (name : rstr) (g : Grant) : Prog Fleet AgentAnswer :=
  created ← create_with_approval (new_host d) name (hash env (new_credential d)) (g_pending g);
  match created with
  | Err _ => Ret SERVER_ERROR
  | Ok host =>
      _ ← logged (set_enrolled_via (h_id host) (g_via g) (g_token_id g));
      _ ← match g_token_id g with
          | Some id => if str_eqb (g_via g) #"install_token" then logged (record_use id) else Ret ()
          | None => Ret ()
          end;
      flagged ← (if g_control_plane g then
                   r ← set_host_control_plane (h_id host) true;
                   match r with
                   | Err _ => _ ← logged (delete_host (h_id host)); Ret false
                   | Ok _ => _ ← tell (set_registry (set_control_plane (h_id host) true)); Ret true
                   end
                 else Ret true);
      if negb flagged then Ret SERVER_ERROR
      else
        _ ← logged (audit_stmt (enrolled_event (h_name host) g));
        Ret (Enrolled (h_id host) (new_credential d))
  end.

Definition enroll (d : EnrollDraw) req : Prog Fleet AgentAnswer :=
  let via_aat := is_aat (er_token req) in
  granted ← (if via_aat then authorize_install (er_token req) else authorize_token (er_token req));
  match granted with
  | Err a => Ret a
  | Ok g =>
      free ← free_name via_aat (er_name req);
      match free with
      | Err a => Ret a
      | Ok _ => register_host d (er_name req) g
      end
  end.

(** ** The CA proof *)

(** [ca_pem] is the bundle the server presents. *)
Definition ca_proof_route (hmac_sha256 : list N → list N → list N) (ca_pem : option rstr) (nonce : rstr)
    (key : option rstr) : Prog Fleet AgentAnswer :=
  if negb ((16 <=? len nonce) && (len nonce <=? 128)) then
    Ret (Refusal 400 #"nonce must be 16-128 characters")
  else
    let requested := match key with Some k => if is_empty k then None else Some k | None => None end in
    aat ← for_ca_proof env requested;
    Ret (match aat with
         | Ok (Some aat) => CaProof ca_pem (ca_proof hmac_sha256 aat nonce ca_pem)
         | Ok None =>
             match requested with
             | Some _ => Refusal 401 #"this install token isn't valid here -- it may have been rotated, revoked or have expired; copy a current one from /admin/hosts"
             | None => Refusal 503 #"this control plane has no agent install token yet"
             end
         | Err _ => aat_unavailable
         end).

(** ** Connecting *)

Record AgentAuth := mkAgentAuth {
  a_host : Host; a_protocol_version : option N; a_os : option rstr; a_agent_version : option rstr }.

(** The headers of a request, by name. *)
Definition agent_auth (headers : rstr → option rstr) : Prog Fleet (result N AgentAuth) :=
  match headers #"Authorization" with
  | None => Ret (Err 401%N)
  | Some header =>
      match strip_prefix header #"Bearer " with
      | None => Ret (Err 401%N)
      | Some credential =>
          found ← select (λ s, find_by_credential_hash s (hash env credential));
          Ret (match found with
               | Err _ => Err 500%N
               | Ok None => Err 401%N
               | Ok (Some host) =>
                   if negb (host_is_active host) || h_pending_approval host then Err 403%N
                   else Ok (mkAgentAuth host
                              (headers #"X-Agent-Protocol-Version" ≫= parse_unsigned (2 ^ 32 - 1))
                              (headers #"X-Agent-Os") (headers #"X-Agent-Version"))
               end)
      end
  end.

Definition whoami (headers : rstr → option rstr) : Prog Fleet AgentAnswer :=
  a ← agent_auth headers;
  Ret (match a with
       | Ok a => Whoami (h_id (a_host a)) (h_name (a_host a))
       | Err code => Refusal code []
       end).

(** [handle_socket] up to its loop, and after it.  The tasks it spawns only
    dispatch operations. *)
Definition open_socket (a : AgentAuth) (ip : rstr) : Prog Fleet () :=
  let host := a_host a in
  _ ← tell (set_registry (set_control_plane (h_id host) (h_control_plane host)));
  _ ← tell (set_registry (register (h_id host) (a_protocol_version a)));
  _ ← (if bool_decide (is_Some (h_offline_ack_at host)) then logged (clear_offline_ack (h_id host)) else Ret ());
  logged (touch_last_seen_with_ip (h_id host) ip (a_os a) (a_agent_version a)).
Definition close_socket (host : Uuid) : Prog Fleet () := tell (set_registry (unregister host)).

Definition ws_upgrade (headers : rstr → option rstr) (ip : rstr) : Prog Fleet (result N ()) :=
  a ←? agent_auth headers;
  _ ← open_socket a ip; Ret (Ok ()).

Inductive AgentMessage : Type :=
| Pong
| AgentResponse (request : Uuid) (outcome : CommandOutcome)
| Telemetry (stdout : rstr).

(** The ingestion of telemetry writes other tables and is not modelled. *)
Definition handle_agent_message (host : Uuid) (m : AgentMessage) : Prog Fleet () :=
  match m with
  | Pong | Telemetry _ => logged (touch_last_seen host)
  | AgentResponse request _ =>
      _ ← tell (set_registry (take_pending request));
      logged (touch_last_seen host)
  end.
End enroll.

(** [control_plane::mint_enrollment_token], run by the installer. *)
Definition TOKEN_TTL_MINUTES : N := 15.
Definition mint_enrollment_token (env : HostEnv) (id : Uuid) (token : rstr) : Prog Fleet (result DbError rstr) :=
  ? create_control_plane_token id (hash env token) (TOKEN_TTL_MINUTES * MINUTE); Ret (Ok token).

(** [control_plane::load], at startup. *)
Definition load_control_plane (ports : list N) : Prog Fleet (result DbError ()) :=
  _ ← tell (set_registry (set_protected_ports ports));
  ids ←? select (λ s, (filter (λ p, h_control_plane p.2 = true) (map_to_list (hosts s))).*1);
  _ ← tell (set_registry (λ r, foldl (λ r id, set_control_plane id true r) r ids));
  Ret (Ok ()).
