(* ===== verification/HostRoutes.v ===== *)
(** * Host administration ([crates/web/src/routes/hosts.rs])

    The state-changing handlers of [/admin/hosts]: tokens, approval, the
    control-plane flag, revocation and removal, and the two operations the page
    runs.  [revoke_confirm] and [remove_confirm] only show a page, and the agent
    updates are a service of their own. *)

From S2P Require Import Prelude Protocol Agent OpText Permission Json AuditLog RoleStore Web.
From S2P Require Import Delegation.
From S2P Require Import Auth Users Login ElevationTracker Registry Executor Steps Aat.
From S2P Require Import Enrollment.
Import Op.
Import AuditAction (ConfigurationChanged, SecretAccessed, HostApproved, HostControlPlaneChanged,
  HostRevoked, HostRemoved).

Record RevealedToken := mkRevealed { rt_name : rstr; rt_token : rstr; rt_just_created : bool }.
(** [PageExtras], without the list's filter; the enrolment instructions are
    their token. *)
Record PageExtras := mkExtras {
  px_enrollment : option rstr; px_uninstall_command : option rstr;
  px_action_result : option rstr; px_action_error : option rstr; px_revealed : option RevealedToken }.
Definition extras_error (m : rstr) : PageExtras := mkExtras None None None (Some m) None.
Definition extras_result (m : rstr) : PageExtras := mkExtras None None (Some m) None None.

Inductive HostsAnswer : Type :=
| HostsPage (x : PageExtras)
| HostsRedirect.

(** What a request draws. *)
Record HostDraw := mkHostDraw { hd_id : Uuid; hd_token : rstr; hd_nonce : N }.

(** [install_tokens::EXPIRY_CHOICES]. *)
Definition EXPIRY_CHOICES : list (option N * rstr) :=
  [(Some 1%N, #"1 day"); (Some 7%N, #"7 days"); (Some 30%N, #"30 days"); (Some 90%N, #"90 days");
   (Some 365%N, #"1 year"); (None, #"Never")].
Definition offered (d : N) : bool := existsb (λ c, bool_decide (c.1 = Some d)) EXPIRY_CHOICES.

Record NewInstallTokenForm := mkNewInstallTokenForm {
  nt_csrf_token : rstr; nt_label : rstr; nt_expires_in_days : rstr; nt_require_approval : option rstr }.

(** The answer for every other platform. *)
Definition LINUX_UNINSTALL : rstr :=
  #"sudo abyssal-agent uninstall --purge" ++ NL ++ NL
  ++ #"(Agents before 0.2.1 don't have that command: sudo systemctl disable --now abyssal-agent && sudo rm -f /usr/local/bin/abyssal-agent /etc/systemd/system/abyssal-agent.service && sudo rm -rf /etc/abyssal-agent)".
Definition manual_uninstall_command (os : option rstr) : rstr :=
  match os with
  | Some os =>
      if str_eqb os #"windows" then
        #"In an elevated PowerShell or Command Prompt:" ++ NL
        ++ quoted #"C:\Program Files\AbyssalAgent\abyssal-agent.exe" ++ #" /uninstall /quiet PURGE=1" ++ NL ++ NL
        ++ #"(Installed with the MSI? Uninstall " ++ quoted #"Abyssal Arsenal Agent" ++ #" from Apps & features instead.)"
      else LINUX_UNINSTALL
  | None => LINUX_UNINSTALL
  end.

Section routes.
Context `{!SqlEngine, !Text} (env : HostEnv).
(** The text of an [anyhow] error and of a debug string, and what becomes of a dispatch. *)
Context (sql_text : DbError → rstr) (debug_str : rstr → rstr).
Context (dispatch : Uuid → AgentOperation → Registry → result DispatchError CommandOutcome * Registry).
Implicit Types (jar : CookieJar) (ctx : AuthContext) (d : HostDraw).

Abbreviation Handler := (Prog Fleet (result AppError HostsAnswer)).

Definition failure_text (f : Failure) : rstr := match f with Sql e => sql_text e | Message m => m end.

(** [?] on a check, on a statement, on an [anyhow] error. *)
Definition checked {A} (r : result AppError A) : Prog Fleet (result AppError A) := Ret r.
Definition internal {A} (m : Prog Fleet (result DbError A)) : Prog Fleet (result AppError A) :=
  r ← m; Ret (match r with Ok x => Ok x | Err e => Err (Internal e) end).
Definition anyhow {A} (m : Prog Fleet (result Failure A)) : Prog Fleet (result AppError A) :=
  r ← m; Ret (match r with Ok x => Ok x | Err (Sql e) => Err (Internal e) | Err (Message _) => Err (Internal CipherFailed) end).

Definition render (x : PageExtras) : Handler := Ret (Ok (HostsPage x)).
Definition redirect : Handler := Ret (Ok HostsRedirect).

Definition audited ctx (action : AuditAction.AuditAction) (resource : rstr) (metadata : option Value)
    : Prog Fleet (result AppError ()) :=
  internal (audit_stmt (match metadata with
    | Some m => new_event action Success |> with_actor (actor_of ctx) |> with_resource resource |> with_metadata m
    | None => new_event action Success |> with_actor (actor_of ctx) |> with_resource resource
    end)).

(** The first lines of every handler. *)
Definition gate jar ctx (perm : Permission) (csrf_token : rstr) (k : Handler) : Handler :=
  ? checked (ensure ctx perm);
  ? checked (require_csrf jar csrf_token);
  k.

Definition the_host (id : Uuid) : Prog Fleet (result AppError Host) :=
  h ←? internal (select (λ s, find_host s id));
  checked (ok_or h NotFound).

(** ** Tokens *)

Definition generate_enrollment_token jar ctx d (csrf_token : rstr) : Handler :=
  gate jar ctx HostsEnroll csrf_token (
    ? internal (create_token (hd_id d) (hash env (hd_token d)) (Some ctx.(user).(uid)) (15 * MINUTE));
    render (mkExtras (Some (hd_token d)) None None None None)).

(** [form.expires_in_days.trim()]: nothing, one of the choices, or an error. *)
Definition parse_expiry (s : rstr) : option (option N) :=
  let s := trim s in
  if is_empty s then Some None
  else match parse_unsigned (2 ^ 32 - 1) s with
       | Some days => if offered days then Some (Some days) else None
       | None => None
       end.

Definition LQ : rstr := [8220%N].
Definition RQ : rstr := [8221%N].

Definition create_install_token jar ctx d (form : NewInstallTokenForm) : Handler :=
  gate jar ctx HostsManage (nt_csrf_token form) (
    let label := trim (nt_label form) in
    if is_empty label || (100 <? length label) then
      render (extras_error #"Give the install token a label of up to 100 characters.")
    else
      match parse_expiry (nt_expires_in_days form) with
      | None => render (extras_error #"Pick one of the offered expiry times.")
      | Some days =>
          let approval := bool_decide (is_Some (nt_require_approval form)) in
          created ←? anyhow (create_install env (hd_id d) (hd_token d) (hd_nonce d) label days approval
                               (Some ctx.(user).(uid)));
          ? audited ctx ConfigurationChanged #"host.install_token" (Some (Obj
              [(#"action", Str #"create"); (#"expires_in_days", opt_json (λ n, Num (PosInt n)) days);
               (#"id", uuid_json created.1); (#"label", Str label); (#"require_approval", Bool approval)]));
          render (mkExtras None None
            (Some (#"Created install token " ++ LQ ++ label ++ RQ ++ #". Its commands are filled in under Add hosts."))
            None (Some (mkRevealed label created.2 true)))
      end).

Definition reveal_install_token jar ctx (id : Uuid) (csrf_token : rstr) : Handler :=
  gate jar ctx HostsManage csrf_token (
    row ←? internal (select (λ s, install_tokens s !! id));
    t ←? checked (ok_or row NotFound);
    now ← ask clock;
    if negb (it_is_active t now) then
      render (extras_error (#"Install token " ++ LQ ++ it_label t ++ RQ
        ++ #" is revoked or expired, so it no longer enrolls hosts. Create a new one."))
    else
      match unseal_install env t with
      | Err e => render (extras_error e)
      | Ok secret =>
          ? audited ctx SecretAccessed #"host.install_token"
              (Some (Obj [(#"id", uuid_json id); (#"label", Str (it_label t))]));
          render (mkExtras None None None None (Some (mkRevealed (it_label t) secret false)))
      end).

Definition revoke_install_token jar ctx (id : Uuid) (csrf_token : rstr) : Handler :=
  gate jar ctx HostsManage csrf_token (
    row ←? internal (select (λ s, install_tokens s !! id));
    t ←? checked (ok_or row NotFound);
    revoked ←? internal (revoke_install id);
    ? (if (revoked : bool) then
         audited ctx ConfigurationChanged #"host.install_token"
           (Some (Obj [(#"action", Str #"revoke"); (#"id", uuid_json id); (#"label", Str (it_label t))]))
       else checked (Ok ()));
    redirect).

Definition revoke_deployment_token jar ctx (id : Uuid) (csrf_token : rstr) : Handler :=
  gate jar ctx HostsManage csrf_token (
    ? internal (revoke_token id);
    ? audited ctx ConfigurationChanged #"host.deployment_token"
        (Some (Obj [(#"action", Str #"revoke"); (#"id", uuid_json id)]));
    redirect).

Definition reveal_aat jar ctx d (csrf_token : rstr) : Handler :=
  gate jar ctx HostsManage csrf_token (
    aat ← ensure_aat env (hd_token d) (hd_nonce d);
    match aat with
    | Err e => render (extras_error (failure_text e))
    | Ok aat =>
        ? audited ctx SecretAccessed #"host.aat" None;
        render (mkExtras None None None None (Some (mkRevealed #"Default token" aat false)))
    end).

Definition rotate_aat jar ctx d (csrf_token : rstr) : Handler :=
  gate jar ctx HostsManage csrf_token (
    aat ←? anyhow (rotate env (hd_token d) (hd_nonce d));
    ? audited ctx ConfigurationChanged #"host.aat" (Some (Obj [(#"action", Str #"rotate")]));
    render (mkExtras None None
      (Some #"Default install token rotated. The old one no longer enrolls hosts -- update your PDQ/Intune/GPO packages with the new one under Add hosts. Additional install tokens are unaffected.")
      None (Some (mkRevealed #"Default token" aat true)))).

Definition set_aat_approval jar ctx (csrf_token : rstr) (checkbox : option rstr) : Handler :=
  gate jar ctx HostsManage csrf_token (
    let required := bool_decide (is_Some checkbox) in
    ? internal (set_require_approval required);
    ? audited ctx ConfigurationChanged #"host.aat" (Some (Obj [(#"require_approval", Bool required)]));
    redirect).

(** ** Hosts *)

Definition approve jar ctx (id : Uuid) (csrf_token : rstr) : Handler :=
  gate jar ctx HostsManage csrf_token (
    host ←? the_host id;
    approved ←? internal (approve_host id);
    ? (if (approved : bool) then audited ctx HostApproved (h_name host) None else checked (Ok ()));
    redirect).

(** The probe of the Docker device it spawns is a dispatch. *)
Definition set_control_plane_route jar ctx (id : Uuid) (csrf_token : rstr) (flag : bool) : Handler :=
  gate jar ctx HostsManage csrf_token (
    host ←? the_host id;
    ? internal (set_host_control_plane id flag);
    _ ← tell (set_registry (set_control_plane id flag));
    ? audited ctx HostControlPlaneChanged (h_name host) (Some (Obj [(#"is_control_plane", Bool flag)]));
    redirect).

Definition revoke_route jar ctx (id : Uuid) (csrf_token : rstr) (confirm : bool) : Handler :=
  gate jar ctx HostsManage csrf_token (
    if negb confirm then Ret (Err (Validation #"Revocation was not confirmed."))
    else
      host ←? the_host id;
      ? internal (revoke_host id);
      ? audited ctx HostRevoked (h_name host) None;
      redirect).

Definition elevated_now (id : Uuid) : Prog Fleet bool := act (λ s,
  let '(b, t) := ElevationTracker.is_elevated id (clock s) (elevation s) in (b, set_elevation (λ _, t) s)).

(** An operation on a host, taken as one action: beside what the dispatch does to
    the registry its only write is its audit record. *)
Definition on_host ctx (id : Uuid) (label : rstr) (op : AgentOperation) (perm : Permission) (kind : OperationKind)
    (confirm elevated : bool) : Prog Fleet (result ExecutionError OperationOutput) := act (λ s,
  let '(r, (w, t)) := execute_on_host debug_str true dispatch ctx id label op perm kind confirm None elevated
                        (registry s, db (site s)) in
  (r, set_registry (λ _, w) (if available s then on_tables (λ _, t) s else s))).

Definition shown (r : result ExecutionError OperationOutput) : Handler :=
  match r with
  | Ok output => render (extras_result (stdout output))
  | Err e => render (extras_error (error_text e))
  end.

Definition run_system_info jar ctx (id : Uuid) (csrf_token : rstr) : Handler :=
  gate jar ctx HostsManage csrf_token (
    host ←? the_host id;
    elevated ← elevated_now id;
    r ← on_host ctx id (h_name host) SystemInfo HostsManage Read false elevated;
    shown r).

Definition deescalate_route jar ctx (id : Uuid) (csrf_token : rstr) : Handler :=
  gate jar ctx HostsElevate csrf_token (
    host ←? the_host id;
    elevated ← elevated_now id;
    r ← on_host ctx id (#"Elevate Privileges -- " ++ h_name host) Deescalate HostsElevate Write false elevated;
    _ ← tell (set_elevation (mark_deescalated id));
    shown r).

Definition uninstall_agent_for_removal ctx (host : Host) : Prog Fleet (bool * option rstr) :=
  connected ← ask (λ s, is_connected (h_id host) (registry s));
  if negb connected then
    Ret (false, Some (h_name host ++ #" is offline, so its agent couldn't be uninstalled automatically."))
  else
    let uninstall := UninstallAgent true in
    ok ← ask (λ s, supports (h_id host) uninstall (registry s));
    if negb ok then
      Ret (false, Some (h_name host ++ #"'s agent (v" ++ default #"unknown" (h_agent_version host)
        ++ #") is too old to uninstall itself ("
        ++ default #"a newer agent" (agent_release_for_protocol (min_protocol uninstall)) ++ #" or later can)."))
    else
      elevated ← elevated_now (h_id host);
      r ← on_host ctx (h_id host) (h_name host) uninstall HostsManage Destructive true elevated;
      Ret (match r with
           | Ok _ => (true, None)
           | Err e => (false, Some (h_name host ++ #"'s agent couldn't uninstall itself (" ++ error_text e ++ #")."))
           end).

Definition remove jar ctx (id : Uuid) (csrf_token : rstr) (confirm : bool) (confirm_text : rstr) : Handler :=
  gate jar ctx HostsManage csrf_token (
    if negb confirm then Ret (Err (Validation #"Removal was not confirmed."))
    else
      host ←? the_host id;
      ? checked (require_typed_confirmation confirm_text (h_name host));
      outcome ← uninstall_agent_for_removal ctx host;
      ? internal (delete_host id);
      _ ← tell (set_registry (unregister id));
      _ ← tell (set_registry (set_control_plane id false));
      ? audited ctx HostRemoved (h_name host) (Some (Obj [(#"agent_uninstalled", Bool outcome.1)]));
      if outcome.1 then
        render (extras_result (#"Removed " ++ h_name host
          ++ #". Its agent is uninstalling itself (service, binary, credentials) and will disconnect in a few seconds."
          ++ (if h_control_plane host then #" This was the control plane's own server: set CONTROL_PLANE_AGENT=no in .env so a later ./install.sh doesn't install it again." else [])))
      else
        render (mkExtras None (Some (manual_uninstall_command (h_os host))) None outcome.2 None)).
End routes.
