(* ===== verification/FleetSystem.v ===== *)
(** * The server and its requests

    Requests of agents and administrators start at any time, each runs one
    statement at a time, the clock advances and the database comes and goes. *)

From S2P Require Import Prelude Protocol Permission Json AuditLog RoleStore Web Delegation.
From S2P Require Import ElevationTracker Registry Executor Steps Aat Enrollment HostRoutes.
Import Op.

Inductive HostRequest : Type :=
| GenerateToken (csrf : rstr)
| CreateInstallToken (form : NewInstallTokenForm)
| RevealInstallToken (id : Uuid) (csrf : rstr)
| RevokeInstallToken (id : Uuid) (csrf : rstr)
| RevokeDeploymentToken (id : Uuid) (csrf : rstr)
| RevealAat (csrf : rstr)
| RotateAat (csrf : rstr)
| SetAatApproval (csrf : rstr) (checkbox : option rstr)
| Approve (id : Uuid) (csrf : rstr)
| SetControlPlane (id : Uuid) (csrf : rstr) (flag : bool)
| RevokeHost (id : Uuid) (csrf : rstr) (confirm : bool)
| RemoveHost (id : Uuid) (csrf : rstr) (confirm : bool) (confirm_text : rstr)
| RunSystemInfo (id : Uuid) (csrf : rstr)
| DeescalateHost (id : Uuid) (csrf : rstr).

Definition csrf_of (r : HostRequest) : rstr :=
  match r with
  | GenerateToken c | RevealInstallToken _ c | RevokeInstallToken _ c | RevokeDeploymentToken _ c
  | RevealAat c | RotateAat c | SetAatApproval c _ | Approve _ c | SetControlPlane _ c _
  | RevokeHost _ c _ | RemoveHost _ c _ _ | RunSystemInfo _ c | DeescalateHost _ c => c
  | CreateInstallToken form => nt_csrf_token form
  end.
Definition permission_of (r : HostRequest) : Permission :=
  match r with GenerateToken _ => HostsEnroll | DeescalateHost _ _ => HostsElevate | _ => HostsManage end.

(** Where a running program comes from, and how it ends. *)
Inductive Origin : Type :=
| Enrolls (d : EnrollDraw) (req : EnrollRequest)
| AsksCa (hmac_sha256 : list N → list N → list N) (ca_pem : option rstr) (nonce : rstr) (key : option rstr)
| AsksWho (headers : rstr → option rstr)
| Connects (headers : rstr → option rstr) (ip : rstr)
| Disconnects (host : Uuid)
| Speaks (host : Uuid) (m : AgentMessage)
| Mints (id : Uuid) (token : rstr)
| Administers (jar : CookieJar) (ctx : AuthContext) (d : HostDraw) (r : HostRequest).

Inductive Reply : Type :=
| ToAgent (a : AgentAnswer)
| Upgraded (r : result N ())
| Closed
| Minted (r : result DbError rstr)
| ToAdmin (r : result AppError HostsAnswer).

(** How far each request is. *)
Record Server := mkServer {
  asked : gmap N Origin;
  running : gmap N (Prog Fleet Reply);
  fleet : Fleet }.

Definition boot (s : Fleet) : Server := mkServer ∅ ∅ s.

Definition set_clock (t : N) (s : Fleet) : Fleet :=
  mkFleet (site s) (hosts s) (enrollment_tokens s) (install_tokens s) (registry s) (elevation s) t (available s).
Definition set_available (b : bool) (s : Fleet) : Fleet :=
  mkFleet (site s) (hosts s) (enrollment_tokens s) (install_tokens s) (registry s) (elevation s) (clock s) b.

Section system.
Context `{!SqlEngine, !Text} (env : HostEnv).
Context (sql_text : DbError → rstr) (debug_str : rstr → rstr).
Context (dispatch : Uuid → AgentOperation → Registry → result DispatchError CommandOutcome * Registry).

Definition handle_hosts (jar : CookieJar) (ctx : AuthContext) (d : HostDraw) (r : HostRequest)
    : Prog Fleet (result AppError HostsAnswer) :=
  match r with
  | GenerateToken c => generate_enrollment_token env jar ctx d c
  | CreateInstallToken form => create_install_token env jar ctx d form
  | RevealInstallToken id c => reveal_install_token env jar ctx id c
  | RevokeInstallToken id c => revoke_install_token jar ctx id c
  | RevokeDeploymentToken id c => revoke_deployment_token jar ctx id c
  | RevealAat c => reveal_aat env sql_text jar ctx d c
  | RotateAat c => rotate_aat env jar ctx d c
  | SetAatApproval c checkbox => set_aat_approval jar ctx c checkbox
  | Approve id c => approve jar ctx id c
  | SetControlPlane id c flag => set_control_plane_route jar ctx id c flag
  | RevokeHost id c confirm => revoke_route jar ctx id c confirm
  | RemoveHost id c confirm text => remove debug_str dispatch jar ctx id c confirm text
  | RunSystemInfo id c => run_system_info debug_str dispatch jar ctx id c
  | DeescalateHost id c => deescalate_route debug_str dispatch jar ctx id c
  end.

Definition program (o : Origin) : Prog Fleet Reply :=
  match o with
  | Enrolls d req => a ← enroll env d req; Ret (ToAgent a)
  | AsksCa hmac ca_pem nonce key => a ← ca_proof_route env hmac ca_pem nonce key; Ret (ToAgent a)
  | AsksWho headers => a ← whoami env headers; Ret (ToAgent a)
  | Connects headers ip => r ← ws_upgrade env headers ip; Ret (Upgraded r)
  | Disconnects host => _ ← close_socket host; Ret Closed
  | Speaks host m => _ ← handle_agent_message host m; Ret Closed
  | Mints id token => r ← mint_enrollment_token env id token; Ret (Minted r)
  | Administers jar ctx d r => a ← handle_hosts jar ctx d r; Ret (ToAdmin a)
  end.

Inductive serve : Server → Server → Prop :=
| serve_start q o sv :
    asked sv !! q = None →
    serve sv (mkServer (<[q := o]> (asked sv)) (<[q := program o]> (running sv)) (fleet sv))
| serve_act q p p' s' sv :
    running sv !! q = Some p → next p (fleet sv) = Some (p', s') →
    serve sv (mkServer (asked sv) (<[q := p']> (running sv)) s')
| serve_tick t sv :
    (clock (fleet sv) ≤ t)%N → serve sv (mkServer (asked sv) (running sv) (set_clock t (fleet sv)))
| serve_database b sv : serve sv (mkServer (asked sv) (running sv) (set_available b (fleet sv))).

Definition served (s : Fleet) (sv : Server) : Prop := rtc serve (boot s) sv.

(** A request that runs from start to end with nothing in between. *)
Definition answer (q : N) (o : Origin) (sv : Server) : Server :=
  mkServer (<[q := o]> (asked sv)) (<[q := Ret (run (program o) (fleet sv)).1]> (running sv))
    (run (program o) (fleet sv)).2.

Lemma serve_run q p os ps s :
  rtc serve (mkServer os (<[q := p]> ps) s) (mkServer os (<[q := Ret (run p s).1]> ps) (run p s).2).
Proof.
  revert s. induction p as [a|X g k IH]; intros s; [done|]. cbn. destruct (g s) as [x s'] eqn:Hg.
  eapply rtc_l; [|apply IH].
  replace (<[q := k x]> ps) with (<[q := k x]> (running (mkServer os (<[q := Do g k]> ps) s)))
    by apply insert_insert_eq.
  apply (serve_act q (Do g k)); [apply lookup_insert_eq|]. cbn. by rewrite Hg.
Qed.

(** A request that stopped after [n] of its actions. *)
Fixpoint peel {A} (n : nat) (p : Prog Fleet A) (s : Fleet) : option (Prog Fleet A * Fleet) :=
  match n with
  | 0 => Some (p, s)
  | S n => '(p', s') ← next p s; peel n p' s'
  end.

Lemma peel_next {A} n (p : Prog Fleet A) s : peel (S n) p s = '(p', s') ← peel n p s; next p' s'.
Proof.
  revert p s. induction n as [|n IH]; intros p s; [cbn; by destruct (next p s) as [[]|]|].
  cbn [peel]. destruct (next p s) as [[p1 s1]|]; [|done]. cbn [mbind option_bind]. rewrite <- IH. done.
Qed.

Lemma serve_peel n q p os ps s p' s' :
  peel n p s = Some (p', s') → rtc serve (mkServer os (<[q := p]> ps) s) (mkServer os (<[q := p']> ps) s').
Proof.
  revert p s. induction n as [|n IH]; intros p s; cbn; [by intros [= -> ->]|].
  destruct (next p s) as [[p1 s1]|] eqn:Hn; [|done]. intros Hp. eapply rtc_l; [|by apply IH].
  replace (<[q := p1]> ps) with (<[q := p1]> (running (mkServer os (<[q := p]> ps) s))) by apply insert_insert_eq.
  apply (serve_act q p); [apply lookup_insert_eq|done].
Qed.

Lemma served_peel n q o s p' s' :
  peel n (program o) s = Some (p', s') → served s (mkServer (<[q := o]> ∅) (<[q := p']> ∅) s').
Proof.
  intros Hp. eapply rtc_l; [by apply (serve_start q o (boot s))|]. cbn [asked running fleet boot].
  by apply (serve_peel n).
Qed.

Lemma served_answer s q o sv : asked sv !! q = None → served s sv → served s (answer q o sv).
Proof.
  intros Hq Hs. unfold served in *. etrans; [exact Hs|]. eapply rtc_l; [by apply serve_start|]. apply serve_run.
Qed.
End system.

(** ** One request on a database that may fail

    A program that runs alone, but before each of its actions the database may
    have gone or come back.  [triple P p Q]: from a state in [P], wherever
    failures strike, [p] ends with a result and a state in [Q]. *)

From S2P Require Import Prelude RoleStore Web Registry Steps Enrollment.

(** [up n] is whether the database answers the [n]th action. *)
Fixpoint run_under {A} (up : nat → bool) (n : nat) (p : Prog Fleet A) (s : Fleet) : A * (nat * Fleet) :=
  match p with
  | Ret a => (a, (n, s))
  | Do f k => let '(x, s') := f (set_available (up n) s) in run_under up (S n) (k x) s'
  end.

Lemma run_under_bind {A B} up n (p : Prog Fleet A) (f : A → Prog Fleet B) s :
  run_under up n (p ≫= f) s = let '(a, (n', s')) := run_under up n p s in run_under up n' (f a) s'.
Proof.
  revert n s. induction p as [a|X g k IH]; intros n s; [done|]. cbn.
  destruct (g _) as [x s']. apply IH.
Qed.

Lemma set_available_id s b : available s = b → set_available b s = s.
Proof. intros <-. by destruct s. Qed.

(** Without failures this is [run]. *)
Lemma run_under_run {A} n (p : Prog Fleet A) s :
  keeps (λ s s', available s' = available s) p → available s = true →
  ∃ n', run_under (λ _, true) n p s = ((run p s).1, (n', (run p s).2)).
Proof.
  revert n s. induction p as [a|X g k IH]; intros n s Hk Ha; cbn; [by exists n|].
  rewrite set_available_id by done. destruct (Hk s) as [H1 H2]. destruct (g s) as [x s']. cbn in *.
  apply IH; [done|congruence].
Qed.

Definition triple {A} (P : Fleet → Prop) (p : Prog Fleet A) (Q : A → Fleet → Prop) : Prop :=
  ∀ up n s, P s → let '(a, (_, s')) := run_under up n p s in Q a s'.

(** What does not depend on whether the database answers. *)
Definition steady (P : Fleet → Prop) : Prop := ∀ b s, P s → P (set_available b s).

Section rules.
Context {A : Type}.
Implicit Types (P : Fleet → Prop) (Q : A → Fleet → Prop).

Lemma triple_ret P (a : A) Q : (∀ s, P s → Q a s) → triple P (Ret a) Q.
Proof. intros H up n s Hs. by apply H. Qed.

Lemma triple_bind {B} P (R : B → Fleet → Prop) (m : Prog Fleet B) (k : B → Prog Fleet A) Q :
  triple P m R → (∀ b, triple (R b) (k b) Q) → triple P (m ≫= k) Q.
Proof.
  intros Hm Hk up n s Hs. rewrite run_under_bind. specialize (Hm up n s Hs).
  destruct (run_under up n m s) as [b [n' s']]. by apply Hk.
Qed.

Lemma triple_act P (f : Fleet → A * Fleet) Q :
  steady P → (∀ s, P s → Q (f s).1 (f s).2) → triple P (act f) Q.
Proof.
  intros HP Hf up n s Hs. cbn. specialize (Hf _ (HP (up n) s Hs)). by destruct (f _) as [x s'].
Qed.

Lemma triple_pure (φ : Prop) P (p : Prog Fleet A) Q : (φ → triple P p Q) → triple (λ s, φ ∧ P s) p Q.
Proof. intros H up n s [Hφ Hs]. by apply H. Qed.

Lemma triple_weaken P P' (p : Prog Fleet A) (Q Q' : A → Fleet → Prop) :
  triple P p Q → (∀ s, P' s → P s) → (∀ a s, Q a s → Q' a s) → triple P' p Q'.
Proof.
  intros Hp HP HQ up n s Hs. specialize (Hp up n s (HP s Hs)).
  destruct (run_under up n p s) as [a [n' s']]. by apply HQ.
Qed.
End rules.

Lemma triple_try {E A B} P (R : A → Fleet → Prop) (m : Prog Fleet (result E A)) (k : A → Prog Fleet (result E B))
    (Q : result E B → Fleet → Prop) :
  triple P m (λ r s, match r with Ok a => R a s | Err e => Q (Err e) s end) →
  (∀ a, triple (R a) (k a) Q) → triple P (try_bind m k) Q.
Proof. intros Hm Hk. eapply triple_bind; [done|]. intros [a|e]; [apply Hk|by apply triple_ret]. Qed.

(** A statement either fails and changes nothing, or does what it does. *)
Lemma triple_stmt {A} P (f : Fleet → result DbError (A * Fleet)) (Q : result DbError A → Fleet → Prop) :
  steady P → (∀ s e, P s → Q (Err e) s) → (∀ s x s', P s → f s = Ok (x, s') → Q (Ok x) s') →
  triple P (stmt f) Q.
Proof.
  intros HP He Hf. apply triple_act; [done|]. intros s Hs. destruct (available s); [|by apply He].
  destruct (f s) as [[x s']|e] eqn:Hx; [by eapply Hf|by apply He].
Qed.

Lemma triple_select {A} P (f : Fleet → A) (Q : result DbError A → Fleet → Prop) :
  steady P → (∀ s e, P s → Q (Err e) s) → (∀ s, P s → Q (Ok (f s)) s) → triple P (select f) Q.
Proof. intros HP He Hf. apply triple_stmt; [done|done|]. intros s x s' Hs [= <- <-]. by apply Hf. Qed.

Lemma triple_logged {A} P (m : Prog Fleet (result DbError A)) (Q : Fleet → Prop) :
  triple P m (λ _, Q) → triple P (logged m) (λ _, Q).
Proof. intros Hm. eapply triple_bind; [done|]. intros b. by apply triple_ret. Qed.

(** What every action of a program maintains holds when it ends. *)
Lemma triple_keeps {A} (K : Fleet → Fleet → Prop) (P : Fleet → Prop) (p : Prog Fleet A) :
  steady P → (∀ s s', K s s' → P s → P s') → keeps K p → triple P p (λ _, P).
Proof.
  intros HP HK. induction p as [a|X g k IH]; intros Hk; [by apply triple_ret|].
  intros up n s Hs. cbn. destruct (Hk (set_available (up n) s)) as [H1 H2].
  destruct (g _) as [x s'] eqn:Hg. cbn in *. apply IH; [done|]. by eapply HK, HP.
Qed.

(** Every result a program can return at all. *)
Lemma always_run_under {A} P (Q : A → Prop) (p : Prog Fleet A) up n s a n' s' :
  always P Q p → run_under up n p s = (a, (n', s')) → Q a.
Proof.
  revert n s. induction p as [b|X g k IH]; intros n s Hp; cbn; [by intros [= <- _ _]|].
  destruct (Hp (set_available (up n) s)) as [_ Hk]. destruct (g _) as [x s1]. by apply IH.
Qed.
