(* ===== verification/FleetInvariant.v ===== *)
(** * What every statement keeps

    The keys of the tables stay unique, a token that was used stays used, and no
    token changes its digest or its kind: statement by statement, so that it
    holds however requests interleave and wherever one of them stops. *)

From S2P Require Import Prelude Protocol Permission Json AuditLog RoleStore Web Delegation.
From S2P Require Import Auth Users Login.
From S2P Require Import ElevationTracker Registry Executor Steps Aat Enrollment HostRoutes.
From S2P Require Import FleetSystem.
Import Op.

(** ** Unique keys *)

Definition uniq_by {A B} (f : A → B) (m : gmap N A) : Prop :=
  ∀ i j a b, m !! i = Some a → m !! j = Some b → f a = f b → i = j.

Section uniq.
Context {A B : Type} (f : A → B).
Implicit Types (m : gmap N A).

Lemma uniq_by_insert m i a :
  uniq_by f m → (∀ j b, m !! j = Some b → f b ≠ f a) → uniq_by f (<[i := a]> m).
Proof.
  intros Hu Hn j k b c Hj Hk He. rewrite lookup_insert_Some in Hj, Hk.
  destruct Hj as [[<- <-]|[? Hj]], Hk as [[<- <-]|[? Hk]]; [done| | |by eapply Hu].
  - by destruct (Hn _ _ Hk).
  - by destruct (Hn _ _ Hj).
Qed.

Lemma uniq_by_delete m i : uniq_by f m → uniq_by f (base.delete i m).
Proof. intros Hu j k b c [_ Hj]%lookup_delete_Some [_ Hk]%lookup_delete_Some. by apply (Hu j k b c). Qed.

Lemma uniq_by_fmap g m : (∀ a, f (g a) = f a) → uniq_by f m → uniq_by f (g <$> m).
Proof.
  intros Hg Hu j k b c. rewrite !lookup_fmap_Some. intros (x & <- & Hx) (y & <- & Hy).
  rewrite !Hg. by apply (Hu j k x y).
Qed.

Lemma uniq_by_alter g m i : (∀ a, f (g a) = f a) → uniq_by f m → uniq_by f (alter g i m).
Proof.
  intros Hg Hu. assert (∀ j b, alter g i m !! j = Some b → ∃ x, m !! j = Some x ∧ f b = f x) as Hl.
  { intros j b. destruct (decide (i = j)) as [->|Hne].
    - rewrite lookup_alter_eq, fmap_Some. intros (x & Hx & ->). by exists x.
    - rewrite lookup_alter_ne by done. by exists b. }
  intros j k b c (x & Hx & Hb)%Hl (y & Hy & Hc)%Hl He. apply (Hu j k x y Hx Hy). congruence.
Qed.
End uniq.

(** ** The invariant *)

Record fleet_wf (s : Fleet) : Prop := {
  wf_host_id : ∀ id h, hosts s !! id = Some h → h_id h = id;
  wf_host_name : uniq_by h_name (hosts s);
  wf_host_credential : uniq_by h_credential_hash (hosts s);
  wf_token_hash : uniq_by et_hash (enrollment_tokens s);
  wf_install_id : ∀ id t, install_tokens s !! id = Some t → it_id t = id;
  wf_install_hash : uniq_by it_hash (install_tokens s);
  wf_install_key : uniq_by it_key_id (install_tokens s) }.

(** A token keeps its digest, its kind and its term, what is used stays used and
    what is revoked stays revoked. *)
Definition token_le (t t' : EnrollmentToken) : Prop :=
  et_hash t' = et_hash t ∧ et_reusable t' = et_reusable t ∧ et_control_plane t' = et_control_plane t
  ∧ et_expires_at t' = et_expires_at t
  ∧ (is_Some (et_used_at t) → is_Some (et_used_at t')) ∧ (is_Some (et_revoked_at t) → is_Some (et_revoked_at t')).
Definition tokens_le (s s' : Fleet) : Prop :=
  ∀ id t, enrollment_tokens s !! id = Some t → ∃ t', enrollment_tokens s' !! id = Some t' ∧ token_le t t'.

Definition advances (s s' : Fleet) : Prop :=
  (fleet_wf s → fleet_wf s') ∧ tokens_le s s' ∧ (clock s ≤ clock s')%N.
(** What the statements of a program do; they do not take the database away. *)
Definition respects (s s' : Fleet) : Prop := advances s s' ∧ available s' = available s.

#[export] Instance token_le_refl : Reflexive token_le.
Proof. by intros t. Qed.
#[export] Instance token_le_trans : Transitive token_le.
Proof. intros x y z (?&?&?&?&?&?) (?&?&?&?&?&?). split_and!; [congruence..|auto|auto]. Qed.
#[export] Instance tokens_le_refl : Reflexive tokens_le.
Proof. intros s id t Ht. by exists t. Qed.
#[export] Instance tokens_le_trans : Transitive tokens_le.
Proof.
  intros x y z Hxy Hyz id t Ht. destruct (Hxy id t Ht) as (t' & Ht' & H1).
  destruct (Hyz id t' Ht') as (t'' & Ht'' & H2). exists t''. split; [done|by etrans].
Qed.
#[export] Instance advances_refl : Reflexive advances.
Proof. by intros s. Qed.
#[export] Instance advances_trans : Transitive advances.
Proof. intros x y z (Hx & ? & ?) (Hy & ? & ?). split_and!; [by auto|by etrans|by etrans]. Qed.
#[export] Instance respects_refl : Reflexive respects.
Proof. by intros s. Qed.
#[export] Instance respects_trans : Transitive respects.
Proof. intros x y z [Hx ?] [Hy ?]. split; [by etrans|congruence]. Qed.

(** ** Statements *)

(** Anything that leaves the three tables alone. *)
Lemma advances_same s s' :
  hosts s' = hosts s → enrollment_tokens s' = enrollment_tokens s → install_tokens s' = install_tokens s →
  (clock s ≤ clock s')%N → advances s s'.
Proof.
  intros Hh Ht Hi Hc. split_and!; [| |done].
  - intros []. constructor; by rewrite ?Hh, ?Ht, ?Hi.
  - intros id t He. rewrite Ht. by exists t.
Qed.
Lemma respects_same s s' :
  hosts s' = hosts s → enrollment_tokens s' = enrollment_tokens s → install_tokens s' = install_tokens s →
  available s' = available s → clock s' = clock s → respects s s'.
Proof. intros Hh Ht Hi Ha Hc. split; [|done]. apply advances_same; [done..|lia]. Qed.

Lemma respects_hosts f s :
  (fleet_wf s → (∀ id h, f (hosts s) !! id = Some h → h_id h = id) ∧ uniq_by h_name (f (hosts s))
     ∧ uniq_by h_credential_hash (f (hosts s))) →
  respects s (set_hosts f s).
Proof.
  intros Hf. split; [|done]. split_and!; [|intros id t Ht; by exists t|done].
  intros Hwf. destruct (Hf Hwf) as (? & ? & ?). destruct Hwf. by constructor.
Qed.

Lemma keeps_stmt {A} P (f : Fleet → result DbError (A * Fleet)) :
  Reflexive P → (∀ s x s', f s = Ok (x, s') → P s s') → keeps P (stmt f).
Proof.
  intros HP Hf. apply keeps_act. intros s. destruct (available s); [|apply HP].
  destruct (f s) as [[x s']|e] eqn:He; [by eapply Hf|apply HP].
Qed.
Lemma keeps_select {A} P (f : Fleet → A) : Reflexive P → keeps P (select f).
Proof. intros HP. apply keeps_stmt; [done|]. intros s x s' [= _ <-]. apply HP. Qed.
Lemma keeps_change P f : Reflexive P → (∀ s, P s (f s)) → keeps P (change f).
Proof. intros HP Hf. apply keeps_stmt; [done|]. intros s x s' [= _ <-]. apply Hf. Qed.
Lemma keeps_ask {A} P (f : Fleet → A) : Reflexive P → keeps P (ask f).
Proof. intros HP. apply keeps_act. intros s. apply HP. Qed.
Lemma keeps_tell P f : (∀ s, P s (f s)) → keeps P (tell f).
Proof. intros Hf. apply keeps_act. intros s. apply Hf. Qed.
Lemma keeps_logged {A} P (m : Prog Fleet (result DbError A)) : keeps P m → keeps P (logged m).
Proof. intros Hm. apply keeps_bind; [done|]. intros a. apply keeps_ret. Qed.
#[export] Hint Resolve keeps_logged keeps_select keeps_ask respects_refl : keeps.

Abbreviation safe := (keeps respects).

Lemma update_host_respects id f s :
  (∀ h, h_id (f h) = h_id h ∧ h_name (f h) = h_name h ∧ h_credential_hash (f h) = h_credential_hash h) →
  respects s (update_host id f s).
Proof.
  intros Hf. apply respects_hosts. intros [Hid Hn Hc _ _ _ _]. split; [|split].
  - intros j h. destruct (decide (id = j)) as [->|Hne].
    + rewrite lookup_alter_eq, fmap_Some. intros (x & Hx & ->). destruct (Hf x) as [-> _]. by apply Hid.
    + rewrite lookup_alter_ne by done. apply Hid.
  - apply uniq_by_alter; [|done]. intros h. apply Hf.
  - apply uniq_by_alter; [|done]. intros h. apply Hf.
Qed.

Lemma tokens_respects f s :
  (uniq_by et_hash (enrollment_tokens s) → uniq_by et_hash (f (enrollment_tokens s))) →
  tokens_le s (set_enrollment_tokens f s) → respects s (set_enrollment_tokens f s).
Proof. intros Hu Hl. split; [|done]. split_and!; [|done|done]. intros []. constructor; try done. by apply Hu. Qed.

Lemma installs_respects f s :
  (fleet_wf s → (∀ id t, f (install_tokens s) !! id = Some t → it_id t = id)
     ∧ uniq_by it_hash (f (install_tokens s)) ∧ uniq_by it_key_id (f (install_tokens s))) →
  respects s (set_install_tokens f s).
Proof.
  intros Hf. split; [|done]. split_and!; [|intros id t Ht; by exists t|done].
  intros Hwf. destruct (Hf Hwf) as (? & ? & ?). destruct Hwf. by constructor.
Qed.

Lemma alter_install_respects id f s :
  (∀ t, it_id (f t) = it_id t ∧ it_hash (f t) = it_hash t ∧ it_key_id (f t) = it_key_id t) →
  respects s (set_install_tokens (alter f id) s).
Proof.
  intros Hf. apply installs_respects. intros [_ _ _ _ Hid Hh Hk]. split; [|split].
  - intros j t. destruct (decide (id = j)) as [->|Hne].
    + rewrite lookup_alter_eq, fmap_Some. intros (x & Hx & ->). destruct (Hf x) as [-> _]. by apply Hid.
    + rewrite lookup_alter_ne by done. apply Hid.
  - apply uniq_by_alter; [|done]. intros t. apply Hf.
  - apply uniq_by_alter; [|done]. intros t. apply Hf.
Qed.

Lemma existsb_rows {A} (g : A → rstr) (x : rstr) (m : gmap N A) :
  existsb (λ a, str_eqb (g a) x) (map_to_list m).*2 = false → ∀ j b, m !! j = Some b → g b ≠ x.
Proof.
  intros He j b Hb Hx. apply not_true_iff_false in He. apply He, existsb_exists. exists b.
  split; [|by apply str_eqb_eq]. apply list_elem_of_In, list_elem_of_fmap. exists (j, b).
  split; [done|by apply elem_of_map_to_list].
Qed.

Lemma find_none {A} (f : A → bool) (m : gmap N A) :
  List.find f (map_to_list m).*2 = None → ∀ j b, m !! j = Some b → f b = false.
Proof.
  intros He j b Hb. apply (List.find_none _ _ He), list_elem_of_In, list_elem_of_fmap. exists (j, b).
  split; [done|by apply elem_of_map_to_list].
Qed.

Lemma insert_token_respects id t s x s' : insert_token id t s = Ok (x, s') → respects s s'.
Proof.
  unfold insert_token. case_bool_decide as Hid; [done|]. case_match eqn:Hx; [done|].
  case_match; [done|]. intros [= _ <-]. apply tokens_respects.
  - intros Hu. apply uniq_by_insert; [done|]. by apply existsb_rows.
  - intros j u Hu. exists u. split; [|done]. cbn. rewrite lookup_insert_ne; [done|].
    intros ->. apply Hid. by exists u.
Qed.

Lemma consume_respects hash s :
  respects s (set_enrollment_tokens (fmap (λ t, if consumable hash (clock s) t then use_token (clock s) t else t)) s).
Proof.
  apply tokens_respects.
  - apply uniq_by_fmap. intros t. by destruct (consumable _ _ _).
  - intros id t Ht. cbn. eexists. rewrite lookup_fmap, Ht. split; [done|].
    destruct (consumable _ _ _); [|done]. split_and!; [done..| |done]. cbn. destruct (et_reusable t); [done|by eexists].
Qed.

Lemma revoke_token_respects id s : respects s (set_enrollment_tokens (alter (with_token_revoked (clock s)) id) s).
Proof.
  apply tokens_respects; [by apply uniq_by_alter|].
  intros j t Ht. cbn. destruct (decide (id = j)) as [->|Hne].
  - eexists. rewrite lookup_alter_eq, Ht. split; [done|]. split_and!; [done..|]. cbn. by intros [x ->].
  - rewrite lookup_alter_ne by done. by exists t.
Qed.

Lemma insert_host_respects `{!SqlEngine} id name hash pending s x s' :
  insert_host id name hash pending s = Ok (x, s') → respects s s'.
Proof.
  unfold insert_host. case_bool_decide as Hid; [done|]. case_bool_decide as Hn; [done|].
  case_bool_decide as Hc; [done|]. intros [= _ <-].
  apply eq_None_not_Some in Hn, Hc. unfold find_host_by_name, find_by_credential_hash in Hn, Hc.
  apply respects_hosts. intros [Hk Hun Huc _ _ _ _]. split; [|split].
  - intros j h [[<- <-]|[_ Hj]]%lookup_insert_Some; [done|by apply Hk].
  - apply uniq_by_insert; [done|]. intros j b Hb He. cbn in He.
    pose proof (find_none _ _ Hn j b Hb) as Hf. cbn in Hf. by rewrite He, name_eqb_refl in Hf.
  - apply uniq_by_insert; [done|]. intros j b Hb He. cbn in He.
    pose proof (find_none _ _ Hc j b Hb) as Hf. cbn in Hf. by rewrite He, (proj2 (str_eqb_eq _ _) eq_refl) in Hf.
Qed.

(** ** Operations *)

Lemma safe_update id (f : Fleet → Host → Host) :
  (∀ s h, h_id (f s h) = h_id h ∧ h_name (f s h) = h_name h ∧ h_credential_hash (f s h) = h_credential_hash h) →
  safe (change (λ s, update_host id (f s) s)).
Proof. intros Hf. apply keeps_change; [apply _|]. intros s. apply update_host_respects, Hf. Qed.

Lemma safe_audit e : safe (audit_stmt e).
Proof.
  apply keeps_stmt; [apply _|]. intros s x s'. destruct (audit e _) as [[? d]|]; [|done].
  intros [= _ <-]. by apply respects_same.
Qed.
Lemma safe_set_setting k v : safe (set_setting_stmt k v).
Proof. apply keeps_change; [apply _|]. intros s. by apply respects_same. Qed.
Lemma safe_registry f : safe (tell (set_registry f)).
Proof. apply keeps_tell. intros s. by apply respects_same. Qed.
Lemma safe_elevation f : safe (tell (set_elevation f)).
Proof. apply keeps_tell. intros s. by apply respects_same. Qed.
Lemma safe_set_enrolled_via id via token : safe (set_enrolled_via id via token).
Proof. by apply (safe_update id (λ _, with_enrolled_via via token)). Qed.
Lemma safe_touch id : safe (touch_last_seen id).
Proof. by apply safe_update. Qed.
Lemma safe_touch_ip id ip os v : safe (touch_last_seen_with_ip id ip os v).
Proof. by apply safe_update. Qed.
Lemma safe_set_ack id by_ : safe (set_offline_ack id by_).
Proof. by apply safe_update. Qed.
Lemma safe_revoke_host id : safe (revoke_host id).
Proof. by apply safe_update. Qed.
Lemma safe_delete_host id : safe (delete_host id).
Proof.
  apply keeps_change; [apply _|]. intros s. apply respects_hosts. intros [Hk Hn Hc _ _ _ _].
  split; [|by split; apply uniq_by_delete]. intros j h [_ Hj]%lookup_delete_Some. by apply Hk.
Qed.
Lemma safe_clear_ack id : safe (clear_offline_ack id).
Proof.
  apply keeps_stmt; [apply _|]. intros s x s' [= _ <-]. case_match; [by apply update_host_respects|done].
Qed.
Lemma safe_approve_host id : safe (approve_host id).
Proof.
  apply keeps_stmt; [apply _|]. intros s x s' [= _ <-]. case_match; [by apply update_host_respects|done].
Qed.
Lemma safe_set_host_control_plane id flag : safe (set_host_control_plane id flag).
Proof.
  apply keeps_try; [|walk]. apply keeps_stmt; [apply _|]. intros s x s' [= _ <-]. by apply update_host_respects.
Qed.
Lemma safe_create_host `{!SqlEngine} id name hash pending : safe (create_with_approval id name hash pending).
Proof. apply keeps_try; [|walk]. apply keeps_stmt; [apply _|]. apply insert_host_respects. Qed.
Lemma safe_create_token id hash by_ ttl : safe (create_token id hash by_ ttl).
Proof. apply keeps_stmt; [apply _|]. intros s x s'. apply insert_token_respects. Qed.
Lemma safe_create_cp_token id hash ttl : safe (create_control_plane_token id hash ttl).
Proof. apply keeps_stmt; [apply _|]. intros s x s'. apply insert_token_respects. Qed.
Lemma safe_consume hash : safe (consume_token hash).
Proof. apply keeps_stmt; [apply _|]. intros s x s' [= _ <-]. apply consume_respects. Qed.
Lemma safe_revoke_token id : safe (revoke_token id).
Proof. apply keeps_change; [apply _|]. intros s. apply revoke_token_respects. Qed.
Lemma safe_record_use id : safe (record_use id).
Proof. apply keeps_change; [apply _|]. intros s. by apply alter_install_respects. Qed.
Lemma safe_revoke_install id : safe (revoke_install id).
Proof.
  apply keeps_stmt; [apply _|]. intros s x s' [= _ <-]. case_match; [by apply alter_install_respects|done].
Qed.
Lemma safe_create_install_row t : safe (create_install_row t).
Proof.
  apply keeps_stmt; [apply _|]. intros s x s'. case_bool_decide; [done|].
  case_match eqn:Hh; [done|]. case_match eqn:Hk; [done|]. intros [= _ <-].
  apply installs_respects. intros [_ _ _ _ Hid Hu Hv]. split; [|split].
  - intros j u [[<- <-]|[_ Hj]]%lookup_insert_Some; [done|by apply Hid].
  - apply uniq_by_insert; [done|]. by apply existsb_rows.
  - apply uniq_by_insert; [done|]. by apply existsb_rows.
Qed.
#[export] Hint Resolve safe_audit safe_set_setting safe_registry safe_elevation safe_set_enrolled_via safe_touch
  safe_touch_ip safe_set_ack safe_revoke_host safe_delete_host safe_clear_ack safe_approve_host
  safe_set_host_control_plane safe_create_host safe_create_token safe_create_cp_token safe_consume
  safe_revoke_token safe_record_use safe_revoke_install safe_create_install_row : keeps.

(** ** Handlers *)

Section handlers.
Context `{!SqlEngine, !Text} (env : HostEnv).
Context (sql_text : DbError → rstr) (debug_str : rstr → rstr).
Context (dispatch : Uuid → AgentOperation → Registry → result DispatchError CommandOutcome * Registry).

Lemma safe_current : safe (current env).
Proof. unfold current, sql, message. walk. Qed.
Lemma safe_store nonce aat : safe (store env nonce aat).
Proof. unfold store, sql, message. walk. Qed.
Hint Resolve safe_current safe_store : keeps.
Lemma safe_match_presented presented : safe (match_presented env presented).
Proof. unfold match_presented, matches, sql, message. walk. Qed.
Hint Resolve safe_match_presented : keeps.

Lemma safe_authorize tok : safe (if is_aat tok then authorize_install env tok else authorize_token env tok).
Proof. unfold authorize_install, authorize_token, require_approval. cbv zeta. walk. Qed.
Lemma safe_enroll d req : safe (enroll env d req).
Proof.
  unfold enroll. cbv zeta. apply keeps_bind; [apply safe_authorize|]. intros r. unfold free_name, register_host. walk.
Qed.
Lemma safe_ca_proof hmac pem nonce key : safe (ca_proof_route env hmac pem nonce key).
Proof. unfold ca_proof_route, for_ca_proof, proof_key_of, sql, message. cbv zeta. walk. Qed.
Lemma safe_agent_auth headers : safe (agent_auth env headers).
Proof. unfold agent_auth. walk. Qed.
Lemma safe_open_socket a ip : safe (open_socket a ip).
Proof. unfold open_socket. cbv zeta. walk. Qed.
Lemma safe_audited ctx action resource metadata : safe (audited ctx action resource metadata).
Proof. unfold audited, internal. walk. Qed.
Lemma safe_internal {A} (m : Prog Fleet (result DbError A)) : safe m → safe (internal m).
Proof. unfold internal. walk. Qed.
Lemma safe_the_host id : safe (the_host id).
Proof. unfold the_host, internal, checked. walk. Qed.
Lemma safe_elevated_now id : safe (elevated_now id).
Proof.
  apply keeps_act. intros s. destruct (ElevationTracker.is_elevated _ _ _). by apply respects_same.
Qed.
Lemma safe_on_host ctx id label op perm kind confirm elevated :
  safe (on_host debug_str dispatch ctx id label op perm kind confirm elevated).
Proof.
  apply keeps_act. intros s. destruct (execute_on_host _ _ _ _ _ _ _ _ _ _ _ _ _) as [r [w t]]. cbn.
  by destruct (available s) eqn:Ha; apply respects_same.
Qed.
Hint Resolve safe_enroll safe_ca_proof safe_agent_auth safe_open_socket safe_audited safe_internal safe_the_host
  safe_elevated_now safe_on_host : keeps.

Lemma safe_handle_hosts jar ctx d r : safe (handle_hosts env sql_text debug_str dispatch jar ctx d r).
Proof.
  destruct r; cbn [handle_hosts];
  unfold generate_enrollment_token, create_install_token, reveal_install_token, revoke_install_token,
    revoke_deployment_token, reveal_aat, rotate_aat, set_aat_approval, approve, set_control_plane_route,
    revoke_route, remove, run_system_info, deescalate_route, uninstall_agent_for_removal, gate, checked,
    render, redirect, shown, anyhow, create_install, rotate, ensure_aat, sql, message, set_require_approval;
  cbv zeta; walk.
Qed.
Hint Resolve safe_handle_hosts : keeps.

Lemma program_safe o : safe (program env sql_text debug_str dispatch o).
Proof.
  destruct o; cbn [program]; unfold whoami, ws_upgrade, close_socket, handle_agent_message,
    mint_enrollment_token; walk.
Qed.
End handlers.

(** ** Reachable servers *)

(** The four ways a server moves. *)
Ltac by_serve H :=
  inversion H as [q' o' ? Hfresh|q' p1 p2 s2 ? Hrun Hnext|t' ? Htick|b' ?]; subst; cbn [asked running fleet] in *.

Section served.
Context `{!SqlEngine, !Text} (env : HostEnv).
Context (sql_text : DbError → rstr) (debug_str : rstr → rstr).
Context (dispatch : Uuid → AgentOperation → Registry → result DispatchError CommandOutcome * Registry).
Abbreviation serve := (serve env sql_text debug_str dispatch).
Abbreviation served := (served env sql_text debug_str dispatch).
Abbreviation program := (program env sql_text debug_str dispatch).

Lemma served_ind s (Q : Server → Prop) :
  Q (boot s) → (∀ sv sv', served s sv → serve sv sv' → Q sv → Q sv') → ∀ sv, served s sv → Q sv.
Proof. apply rtc_ind_r. Qed.

(** Whatever every program keeps, every running one keeps what is left of it. *)
Lemma running_keeps P s sv q o p :
  served s sv → asked sv !! q = Some o → running sv !! q = Some p →
  keeps P (program o) → keeps P p.
Proof.
  intros Hs. revert sv Hs o p. refine (served_ind s _ _ _); [done|].
  intros sv sv' Hs Hstep IH o p Ho Hp Hk. by_serve Hstep; [| |by eapply IH..].
  - apply lookup_insert_Some in Ho, Hp. destruct Ho as [[-> ->]|[Hne Ho]].
    + by destruct Hp as [[_ <-]|[? _]].
    + destruct Hp as [[? _]|[_ Hp]]; [done|by eapply IH].
  - rewrite lookup_insert_Some in Hp. destruct Hp as [[-> <-]|[_ Hp]]; [|by eapply IH].
    eapply keeps_next; [|done]. by eapply IH.
Qed.

Lemma asked_running s sv q p : served s sv → running sv !! q = Some p → ∃ o, asked sv !! q = Some o.
Proof.
  intros Hs. revert sv Hs p. refine (served_ind s _ _ _); [done|].
  intros sv sv' Hs Hstep IH p Hp. by_serve Hstep; [| |by eapply IH..].
  - destruct (decide (q' = q)) as [->|Hne]; [rewrite lookup_insert_eq; by eexists|].
    rewrite lookup_insert_ne in Hp by done. rewrite lookup_insert_ne by done. by eapply IH.
  - destruct (decide (q' = q)) as [->|Hne]; [by eapply IH|]. rewrite lookup_insert_ne in Hp by done. by eapply IH.
Qed.

Lemma step_advances s sv sv' : served s sv → serve sv sv' → advances (fleet sv) (fleet sv').
Proof.
  intros Hs Hstep. by_serve Hstep; [done| |by apply advances_same|by apply advances_same].
  destruct (asked_running s sv q' p1) as [o Ho]; [done|done|].
  refine (proj1 (proj1 (keeps_next respects _ _ _ _ _ Hnext))). eapply running_keeps; [done..|]. apply program_safe.
Qed.

Lemma served_wf s sv : fleet_wf s → served s sv → fleet_wf (fleet sv).
Proof.
  intros Hwf Hs. revert sv Hs. refine (served_ind s _ _ _); [done|].
  intros sv sv' Hs Hstep IH. by apply (step_advances s sv sv').
Qed.

Lemma steps_advance s sv sv' : served s sv → rtc serve sv sv' → advances (fleet sv) (fleet sv').
Proof.
  intros Hs Hr. revert Hs. induction Hr as [sv|sv sv1 sv2 Hstep Hr IH]; intros Hs; [done|].
  etrans; [by apply (step_advances s)|]. apply IH. by eapply rtc_r.
Qed.
Lemma served_tokens_le s sv : served s sv → tokens_le s (fleet sv).
Proof. intros Hs. by destruct (steps_advance s (boot s) sv (rtc_refl _ _) Hs) as (_ & ? & _). Qed.
End served.
