(* ===== verification/EnrollmentTheorems.v ===== *)
(** * What enrolment guarantees

    However requests interleave: a single-use token enrols at most one host, an
    install token displaces none.  Then what a credential is good for over its
    life, what failures can and cannot do, and where the code falls short. *)

From S2P Require Import Prelude Protocol Permission Json AuditLog RoleStore Web Delegation.
From S2P Require Import Auth Users Login.
From S2P Require Import ElevationTracker Registry Executor Steps Aat Enrollment HostRoutes.
From S2P Require Import FleetSystem FleetInvariant.
Import Op.

(** ** Single use *)

Definition enrolled (r : Reply) : Prop := ∃ h c, r = ToAgent (Enrolled h c).
(** A program that can no longer enrol anything. *)
Definition dead (p : Prog Fleet Reply) : Prop := always (λ _ _, True) (λ r, ¬ enrolled r) p.

(** The digest belongs to a token that was used, or may be used again. *)
Definition spent (h : rstr) (s : Fleet) : Prop :=
  ∃ id t, enrollment_tokens s !! id = Some t ∧ et_hash t = h ∧ (et_reusable t = true ∨ is_Some (et_used_at t)).
Definition reusable (h : rstr) (s : Fleet) : Prop :=
  ∃ id t, enrollment_tokens s !! id = Some t ∧ et_hash t = h ∧ et_reusable t = true.

Lemma spent_mono h s s' : tokens_le s s' → spent h s → spent h s'.
Proof.
  intros Hle (id & t & Ht & Hh & Hu). destruct (Hle id t Ht) as (t' & Ht' & H1 & H2 & _ & _ & H4 & _).
  exists id, t'. rewrite H1, H2. naive_solver.
Qed.
Lemma reusable_mono h s s' : tokens_le s s' → reusable h s → reusable h s'.
Proof.
  intros Hle (id & t & Ht & Hh & Hu). destruct (Hle id t Ht) as (t' & Ht' & H1 & H2 & _).
  exists id, t'. by rewrite H1, H2.
Qed.

Lemma consumable_inv hash now t :
  consumable hash now t = true →
  et_hash t = hash ∧ et_revoked_at t = None ∧ (now < et_expires_at t)%N ∧ (et_reusable t = true ∨ et_used_at t = None).
Proof.
  unfold consumable. rewrite !andb_true_iff, orb_true_iff, N.ltb_lt, !bool_decide_eq_true, str_eqb_eq.
  intros [[[? ?] ?] ?]. done.
Qed.

Lemma affected_row hash s :
  (length (List.filter (consumable hash (clock s)) (token_rows s)) =? 1) = true →
  ∃ id t, enrollment_tokens s !! id = Some t ∧ consumable hash (clock s) t = true.
Proof.
  destruct (List.filter _ _) as [|t l] eqn:Hf; [done|]. intros _.
  assert (In t (List.filter (consumable hash (clock s)) (token_rows s))) as Hin by (rewrite Hf; by left).
  apply filter_In in Hin as [Hin Hc]. apply list_elem_of_In, list_elem_of_fmap in Hin as ([id t'] & -> & Hin).
  apply elem_of_map_to_list in Hin. by exists id, t'.
Qed.

Section served.
Context `{!SqlEngine, !Text} (env : HostEnv).
Context (sql_text : DbError → rstr) (debug_str : rstr → rstr).
Context (dispatch : Uuid → AgentOperation → Registry → result DispatchError CommandOutcome * Registry).
Abbreviation serve := (serve env sql_text debug_str dispatch).
Abbreviation served := (served env sql_text debug_str dispatch).
Abbreviation program := (program env sql_text debug_str dispatch).
Implicit Types (sv : Server) (req : EnrollRequest).

(** The first statement of an enrolment with an ordinary token. *)
Lemma enroll_first d req s p' s' :
  is_aat (er_token req) = false → next (program (Enrolls d req)) s = Some (p', s') →
  dead p' ∨ ∃ id t, enrollment_tokens s !! id = Some t
                    ∧ consumable (hash env (er_token req)) (clock s) t = true
                    ∧ spent (hash env (er_token req)) s'.
Proof.
  intros Ha. cbn [FleetSystem.program]. unfold enroll. cbv zeta. rewrite Ha. cbn.
  destruct (available s); [|intros [= <- <-]; left; cbn; by intros (? & ? & ?)].
  intros Heq. injection Heq as <- <-.
  destruct (length _ =? 1) eqn:He; [right|left; cbn; by intros (? & ? & ?)].
  destruct (affected_row _ _ He) as (id & t & Ht & Hc). exists id, t. split; [done|]. split; [done|].
  exists id, (use_token (clock s) t). cbn. rewrite lookup_fmap, Ht. cbn. rewrite Hc. split; [done|].
  apply consumable_inv in Hc as (? & _ & _ & Hr). split; [done|].
  destruct (et_reusable t); [by left|right; by eexists].
Qed.

(** A task that has not presented its token, or was refused. *)
Definition idle sv q : Prop :=
  ∀ o p, asked sv !! q = Some o → running sv !! q = Some p → p = program o ∨ dead p.
(** [q] presents an ordinary token of digest [h]. *)
Definition presents sv q (h : rstr) : Prop :=
  ∃ d req, asked sv !! q = Some (Enrolls d req) ∧ is_aat (er_token req) = false ∧ hash env (er_token req) = h.

Lemma act_other sv q q' p2 s2 :
  q ≠ q' → idle sv q → idle (mkServer (asked sv) (<[q' := p2]> (running sv)) s2) q.
Proof. intros Hne Hi o p Ho Hp. cbn in *. rewrite lookup_insert_ne in Hp by done. by apply Hi. Qed.

(** When an idle task acts it stays idle, unless the token was there to take. *)
Lemma idle_act sv q h p p' s' :
  fleet_wf (fleet sv) → presents sv q h → idle sv q → running sv !! q = Some p →
  next p (fleet sv) = Some (p', s') →
  idle (mkServer (asked sv) (<[q := p']> (running sv)) s') q ∨
  (spent h s' ∧ (spent h (fleet sv) → reusable h (fleet sv))).
Proof.
  intros Hwf (d & req & Ho & Ha & Hh) Hi Hp Hn.
  assert (dead p' → idle (mkServer (asked sv) (<[q := p']> (running sv)) s') q) as Hdead.
  { intros Hd o p1 _ Hp1. cbn in Hp1. rewrite lookup_insert_eq in Hp1. injection Hp1 as <-. by right. }
  destruct (Hi _ _ Ho Hp) as [->|Hd].
  - apply enroll_first in Hn as [Hd|(id & t & Ht & Hc & Hs)]; [by left; auto| |done].
    right. rewrite Hh in *. split; [done|]. intros (id2 & t2 & Ht2 & Hh2 & Hu).
    apply consumable_inv in Hc as (Hht & _ & _ & Hr).
    assert (id2 = id) as -> by (apply (wf_token_hash _ Hwf id2 id t2 t); congruence).
    rewrite Ht in Ht2. injection Ht2 as <-. exists id, t. split; [done|]. split; [done|].
    destruct Hr as [|Hr]; [done|]. rewrite Hr in Hu. by destruct Hu as [|[]].
  - left. apply Hdead. by apply (always_next _ _ _ _ _ _ Hd) in Hn as [_ ?].
Qed.

(** A task that got past its token holds it alone. *)
Definition exclusive sv : Prop := ∀ q h, presents sv q h →
  idle sv q ∨
  (spent h (fleet sv) ∧ ∀ q2, q2 ≠ q → presents sv q2 h → idle sv q2 ∨ reusable h (fleet sv)).

Lemma exclusive_act sv q p p' s' :
  fleet_wf (fleet sv) → tokens_le (fleet sv) s' → exclusive sv →
  running sv !! q = Some p → next p (fleet sv) = Some (p', s') →
  exclusive (mkServer (asked sv) (<[q := p']> (running sv)) s').
Proof.
  intros Hwf Hle Hex Hp Hn q1 h H1. change (presents sv q1 h) in H1.
  destruct (decide (q1 = q)) as [->|Hne].
  - destruct (Hex q h H1) as [Hi|[Hs Hrest]].
    + destruct (idle_act sv q h p p' s') as [?|[Hs Hr]]; [done..|by left|right]. split; [done|].
      intros q2 Hq2 H2. change (presents sv q2 h) in H2.
      destruct (Hex q2 h H2) as [Hi2|[Hs2 _]]; [left; by apply act_other|right].
      eapply reusable_mono; [done|]. by apply Hr.
    + right. split; [by eapply spent_mono|]. intros q2 Hq2 H2.
      destruct (Hrest q2 Hq2 H2) as [?|?]; [left; by apply act_other|right; by eapply reusable_mono].
  - destruct (Hex q1 h H1) as [Hi|[Hs Hrest]]; [left; by apply act_other|right].
    split; [by eapply spent_mono|]. intros q2 Hq2 H2. change (presents sv q2 h) in H2.
    destruct (Hrest q2 Hq2 H2) as [Hi2|?]; [|right; by eapply reusable_mono].
    destruct (decide (q2 = q)) as [->|Hne2]; [|left; by apply act_other].
    destruct (idle_act sv q h p p' s') as [?|[_ Hr]]; [done..|by left|right].
    eapply reusable_mono; [done|]. by apply Hr.
Qed.

Lemma exclusive_start sv q o :
  asked sv !! q = None → exclusive sv →
  exclusive (mkServer (<[q := o]> (asked sv)) (<[q := program o]> (running sv)) (fleet sv)).
Proof.
  intros Hq Hex. set (sv' := mkServer _ _ _).
  assert (idle sv' q) as Hnew.
  { intros o' p' Ho Hp. cbn in *. rewrite lookup_insert_eq in Ho. rewrite lookup_insert_eq in Hp. left. congruence. }
  assert (∀ q', q' ≠ q → idle sv q' → idle sv' q') as Hold.
  { intros q' Hne Hi o' p' Ho Hp. cbn in *. rewrite lookup_insert_ne in Ho by done.
    rewrite lookup_insert_ne in Hp by done. by apply Hi. }
  assert (∀ q' h, q' ≠ q → presents sv' q' h → presents sv q' h) as Hpres.
  { intros q' h Hne (d & req & Ho & ?). cbn in Ho. rewrite lookup_insert_ne in Ho by done. by exists d, req. }
  intros q1 h H1. destruct (decide (q1 = q)) as [->|Hne]; [by left|].
  destruct (Hex q1 h) as [Hi|[Hs Hrest]]; [by apply Hpres|left; by apply Hold|right]. split; [done|].
  intros q2 Hq2 H2. destruct (decide (q2 = q)) as [->|Hne2]; [by left|].
  destruct (Hrest q2) as [?|?]; [done|by apply Hpres|left; by apply Hold|by right].
Qed.

Lemma served_exclusive s sv : fleet_wf s → served s sv → exclusive sv.
Proof.
  intros Hwf Hs. revert sv Hs. refine (served_ind _ _ _ _ s _ _ _).
  { by intros q h (d & req & Ho & _). }
  intros sv sv' Hs Hstep IH.
  pose proof (step_advances _ _ _ _ s sv sv' Hs Hstep) as (_ & Hle & _).
  by_serve Hstep.
  - by apply exclusive_start.
  - by eapply exclusive_act; [eapply served_wf|..].
  - intros q h H1. exact (IH q h H1).
  - intros q h H1. exact (IH q h H1).
Qed.

(** The digest belongs to a token that can be used now. *)
Definition usable (h : rstr) (s : Fleet) : Prop :=
  ∃ id t, enrollment_tokens s !! id = Some t ∧ et_hash t = h ∧ et_revoked_at t = None
          ∧ (clock s < et_expires_at t)%N ∧ (et_reusable t = true ∨ et_used_at t = None).
(** Since [q] asked, there was a moment at which the token could be used. *)
Definition was_usable (s : Fleet) sv q (h : rstr) : Prop :=
  ∃ sv0, served s sv0 ∧ rtc serve sv0 sv ∧ presents sv0 q h ∧ usable h (fleet sv0).

Lemma idle_act_usable sv q h p p' s' :
  presents sv q h → idle sv q → running sv !! q = Some p → next p (fleet sv) = Some (p', s') →
  idle (mkServer (asked sv) (<[q := p']> (running sv)) s') q ∨ usable h (fleet sv).
Proof.
  intros (d & req & Ho & Ha & Hh) Hi Hp Hn.
  assert (dead p' → idle (mkServer (asked sv) (<[q := p']> (running sv)) s') q) as Hdead.
  { intros Hd o p1 _ Hp1. cbn in Hp1. rewrite lookup_insert_eq in Hp1. injection Hp1 as <-. by right. }
  destruct (Hi _ _ Ho Hp) as [->|Hd].
  - apply enroll_first in Hn as [Hd|(id & t & Ht & Hc & _)]; [by left; auto| |done].
    right. rewrite Hh in Hc. apply consumable_inv in Hc as (? & ? & ? & ?). by exists id, t.
  - left. apply Hdead. by apply (always_next _ _ _ _ _ _ Hd) in Hn as [_ ?].
Qed.

Lemma served_usable s sv : served s sv → ∀ q h, presents sv q h → idle sv q ∨ was_usable s sv q h.
Proof.
  revert sv. refine (served_ind _ _ _ _ s _ _ _).
  { by intros q h (d & req & Ho & _). }
  intros sv sv' Hs Hstep IH q h H1.
  assert (was_usable s sv q h → was_usable s sv' q h) as Hlater.
  { intros (sv0 & ? & ? & ? & ?). exists sv0. split; [done|]. split; [by eapply rtc_r|done]. }
  by_serve Hstep.
  - destruct (decide (q' = q)) as [->|Hne].
    + left. intros o0 p0 Ho Hp. cbn in *. rewrite lookup_insert_eq in Ho. rewrite lookup_insert_eq in Hp. left. congruence.
    + assert (presents sv q h) as Hq0.
      { destruct H1 as (d & req & Ho & ?). cbn in Ho. rewrite lookup_insert_ne in Ho by done. by exists d, req. }
      destruct (IH q h Hq0) as [Hi|?]; [left|by right; auto]. intros o0 p0 Ho Hp. cbn in *.
      rewrite lookup_insert_ne in Ho by done. rewrite lookup_insert_ne in Hp by done. by apply Hi.
  - change (presents sv q h) in H1. destruct (IH q h H1) as [Hi|?]; [|by right; auto].
    destruct (decide (q = q')) as [->|Hne]; [|left; by apply act_other].
    destruct (idle_act_usable sv q' h p1 p2 s2) as [?|Hu]; [done..|by left|right].
    apply Hlater. by exists sv.
  - destruct (IH q h H1) as [?|?]; [by left|by right; auto].
  - destruct (IH q h H1) as [?|?]; [by left|by right; auto].
Qed.

Lemma enrolled_not_idle sv q d req h c :
  is_aat (er_token req) = false → asked sv !! q = Some (Enrolls d req) →
  running sv !! q = Some (Ret (ToAgent (Enrolled h c))) → ¬ idle sv q.
Proof.
  intros Ha Ho Hp Hi. destruct (Hi _ _ Ho Hp) as [He|Hd].
  - cbn [FleetSystem.program] in He. unfold enroll in He. cbv zeta in He. by rewrite Ha in He.
  - apply Hd. by exists h, c.
Qed.

(** Where the row of a token that was usable is now, and what it was before. *)
Lemma was_usable_row s sv q h id t :
  fleet_wf s → served s sv → was_usable s sv q h → enrollment_tokens (fleet sv) !! id = Some t → et_hash t = h →
  ∃ sv0 t0, served s sv0 ∧ rtc serve sv0 sv ∧ presents sv0 q h ∧ enrollment_tokens (fleet sv0) !! id = Some t0
            ∧ et_revoked_at t0 = None ∧ (clock (fleet sv0) < et_expires_at t0)%N
            ∧ (et_reusable t0 = true ∨ et_used_at t0 = None).
Proof.
  intros Hwf Hs (sv0 & Hs0 & Hr & Hq & id0 & t0 & Ht0 & Hh0 & Hv & He & Hu) Ht Hh. exists sv0, t0.
  destruct (steps_advance _ _ _ _ s sv0 sv Hs0 Hr) as (_ & Hle & _).
  destruct (Hle id0 t0 Ht0) as (t1 & Ht1 & Hh1 & _).
  assert (id0 = id) as -> by (eapply (wf_token_hash _ (served_wf _ _ _ _ s sv Hwf Hs)); [done..|congruence]). done.
Qed.
Lemma was_usable_before s sv0 id t0 t :
  served s sv0 → enrollment_tokens (fleet sv0) !! id = Some t0 → enrollment_tokens s !! id = Some t →
  et_revoked_at t0 = None → (clock (fleet sv0) < et_expires_at t0)%N → (et_reusable t0 = true ∨ et_used_at t0 = None) →
  et_revoked_at t = None ∧ (clock s < et_expires_at t)%N ∧ (et_reusable t = true ∨ et_used_at t = None).
Proof.
  intros Hs0 Ht0 Ht Hv He Hu. destruct (steps_advance _ _ _ _ s (boot s) sv0 (rtc_refl _ _) Hs0) as (_ & Hle & Hck).
  destruct (Hle id t Ht) as (t1 & Ht1 & _ & Hre & _ & Hex & Hus & Hrev). cbn in Ht0, Hck.
  assert (t1 = t0) as -> by congruence. rewrite Hex in He. split_and!; [| |].
  - destruct (et_revoked_at t) as [x|] eqn:E; [|done]. destruct Hrev as [y Hy]; [by eexists|]. congruence.
  - lia.
  - rewrite <- Hre. destruct Hu as [|Hu]; [by left|right]. destruct (et_used_at t) as [x|] eqn:E; [|done].
    destruct Hus as [y Hy]; [by eexists|]. congruence.
Qed.

(** C8: A single-use enrollment token enrols at most one host, and a revoked or
    expired one none.  The requests of agents and administrators run side by
    side, one statement at a time, and the database may come and go between any
    two of them.  If two enrolments that presented the same token have both been
    answered with a credential, they are the same request, unless the token is
    one of the reusable deployment tokens.  And for every enrolment answered with
    a credential there was a moment, after it was asked, at which its token was
    neither revoked nor past its term, and unused if it is not reusable: a token
    that was revoked, expired or used up in the state the run starts from enrols
    nobody. *)
Theorem enrollment_token_single_use s sv q1 q2 d1 d2 req1 req2 h1 h2 c1 c2 :
  fleet_wf s → served s sv →
  asked sv !! q1 = Some (Enrolls d1 req1) → running sv !! q1 = Some (Ret (ToAgent (Enrolled h1 c1))) →
  asked sv !! q2 = Some (Enrolls d2 req2) → running sv !! q2 = Some (Ret (ToAgent (Enrolled h2 c2))) →
  er_token req1 = er_token req2 → is_aat (er_token req1) = false →
  ∃ id t, enrollment_tokens (fleet sv) !! id = Some t ∧ et_hash t = hash env (er_token req1)
          ∧ (is_Some (et_used_at t) ∨ et_reusable t = true) ∧ (q1 = q2 ∨ et_reusable t = true)
          ∧ (∃ sv0 t0, served s sv0 ∧ rtc serve sv0 sv ∧ is_Some (asked sv0 !! q1)
               ∧ enrollment_tokens (fleet sv0) !! id = Some t0 ∧ et_revoked_at t0 = None
               ∧ (clock (fleet sv0) < et_expires_at t0)%N ∧ (et_reusable t0 = true ∨ et_used_at t0 = None))
          ∧ (∀ t0, enrollment_tokens s !! id = Some t0 →
               et_revoked_at t0 = None ∧ (clock s < et_expires_at t0)%N ∧ (et_reusable t0 = true ∨ et_used_at t0 = None)).
Proof.
  intros Hwf Hs Ho1 Hp1 Ho2 Hp2 Ht Ha. pose proof (served_exclusive s sv Hwf Hs) as Hex.
  assert (presents sv q1 (hash env (er_token req1))) as H1 by by exists d1, req1.
  assert (¬ idle sv q1) as Hni by (by eapply enrolled_not_idle).
  destruct (Hex _ _ H1) as [Hi|[(id & t & Hrow & Hh & Hu) Hrest]]; [done|].
  destruct (served_usable s sv Hs _ _ H1) as [Hi|Hwas]; [done|].
  destruct (was_usable_row s sv q1 _ id t Hwf Hs Hwas Hrow Hh)
    as (sv0 & t0 & Hs0 & Hr0 & (d0 & req0 & Hq0 & _) & Ht0 & Hv & He & Hf).
  exists id, t. split_and!; [done|done|tauto| | |].
  - destruct (decide (q1 = q2)) as [->|Hne]; [by left|right].
    destruct (Hrest q2) as [Hi|(id' & t' & Hrow' & Hh' & Hr)]; [done| | |].
    + exists d2, req2. by rewrite <- Ht.
    + destruct (enrolled_not_idle sv q2 d2 req2 h2 c2); [by rewrite <- Ht|done..].
    + assert (id' = id) as -> by (eapply (wf_token_hash _ (served_wf _ _ _ _ s sv Hwf Hs)); [done..|congruence]).
      congruence.
  - exists sv0, t0. by split_and!.
  - intros t' Ht'. by eapply was_usable_before.
Qed.
End served.

(** ** The tables *)

(** C9: The tables of the fleet stay well-formed.  However the requests of agents
    and administrators interleave and wherever one of them stops, every host is
    filed under its id, no two hosts have the same name or the same credential,
    no two tokens the same digest, and a token once issued stays: its digest, its
    kind and its term never change, once used it stays used and once revoked it
    stays revoked. *)
Theorem fleet_stays_keyed `{!SqlEngine, !Text} env sql_text debug_str dispatch s sv :
  fleet_wf s → served env sql_text debug_str dispatch s sv → fleet_wf (fleet sv) ∧ tokens_le s (fleet sv).
Proof. intros Hwf Hs. split; [by eapply served_wf|by eapply served_tokens_le]. Qed.

(** ** Install tokens displace nobody *)

(** What makes a host that host, and what an administrator decided about it. *)
Definition identity (h : Host) :=
  (h_id h, h_name h, h_credential_hash h, h_pending_approval h, h_control_plane h, h_revoked_at h).
Definition hosts_kept (s s' : Fleet) : Prop :=
  ∀ id h, hosts s !! id = Some h → ∃ h', hosts s' !! id = Some h' ∧ identity h' = identity h.

#[export] Instance hosts_kept_refl : Reflexive hosts_kept.
Proof. intros s id h Hh. by exists h. Qed.
#[export] Hint Resolve hosts_kept_refl : keeps.

Lemma kept_same s s' : hosts s' = hosts s → hosts_kept s s'.
Proof. intros He id h Hh. rewrite He. by exists h. Qed.

Lemma kept_audit e : keeps hosts_kept (audit_stmt e).
Proof.
  apply keeps_stmt; [apply _|]. intros s x s'. destruct (audit e _) as [[? d]|]; [|done].
  intros [= _ <-]. by apply kept_same.
Qed.
Lemma kept_set_enrolled_via id via token : keeps hosts_kept (set_enrolled_via id via token).
Proof.
  apply keeps_change; [apply _|]. intros s j h Hh. cbn. destruct (decide (id = j)) as [->|Hne].
  - rewrite lookup_alter_eq, Hh. by eexists.
  - rewrite lookup_alter_ne by done. by exists h.
Qed.
Lemma kept_record_use id : keeps hosts_kept (record_use id).
Proof. apply keeps_change; [apply _|]. intros s. by apply kept_same. Qed.
Lemma kept_create `{!SqlEngine} id name hash pending : keeps hosts_kept (create_with_approval id name hash pending).
Proof.
  apply keeps_try; [|walk]. apply keeps_stmt; [apply _|]. intros s x s'. unfold insert_host.
  case_bool_decide as Hid; [done|]. case_bool_decide; [done|]. case_bool_decide; [done|]. intros [= _ <-] j h Hj.
  exists h. cbn. rewrite lookup_insert_ne; [done|]. intros ->. apply Hid. by exists h.
Qed.
#[export] Hint Resolve kept_audit kept_set_enrolled_via kept_record_use kept_create : keeps.

Section install.
Context `{!SqlEngine, !Text} (env : HostEnv).
Context (sql_text : DbError → rstr) (debug_str : rstr → rstr).
Context (dispatch : Uuid → AgentOperation → Registry → result DispatchError CommandOutcome * Registry).

(** An install token never makes a host the control plane's own. *)
Definition ordinary_grant (r : result AgentAnswer Grant) : Prop :=
  match r with Ok g => g_control_plane g = false | Err _ => True end.

Lemma kept_match_presented presented : keeps hosts_kept (match_presented env presented).
Proof. unfold match_presented, matches, current, sql, message. walk. Qed.

Lemma authorize_install_ordinary presented : always hosts_kept ordinary_grant (authorize_install env presented).
Proof.
  eapply always_bind; [apply kept_match_presented|]. intros [[[|t]|]|e] _; try done.
  eapply always_bind; [apply keeps_select; apply _|]. by intros [required|e] _.
Qed.

Lemma kept_free_name name : keeps hosts_kept (free_name true name).
Proof. unfold free_name. walk. Qed.

Lemma kept_register d name g : g_control_plane g = false → keeps hosts_kept (register_host env d name g).
Proof. intros Hg. unfold register_host. rewrite Hg. walk. Qed.

Lemma kept_enroll d req : is_aat (er_token req) = true → keeps hosts_kept (enroll env d req).
Proof.
  intros Ha. unfold enroll. cbv zeta. rewrite Ha.
  eapply always_bind; [apply authorize_install_ordinary|]. intros [g|a] Hg; [|done].
  apply keeps_bind; [apply kept_free_name|]. intros [u|a]; [by apply kept_register|done].
Qed.

(** An install token, the default one or an additional one, never takes an
    existing host's place.  Whatever the state of the server and whatever runs
    beside it, no statement of an enrolment that presents one removes a host or
    changes its name, its credential, its approval, its revocation or whether it
    is the control plane's own. *)
Theorem install_token_never_displaces s sv q d req p p' s' :
  served env sql_text debug_str dispatch s sv →
  asked sv !! q = Some (Enrolls d req) → is_aat (er_token req) = true →
  running sv !! q = Some p → next p (fleet sv) = Some (p', s') →
  ∀ id h, hosts (fleet sv) !! id = Some h → ∃ h', hosts s' !! id = Some h' ∧ identity h' = identity h.
Proof.
  intros Hs Ho Ha Hp Hn. change (hosts_kept (fleet sv) s'). eapply keeps_next; [|done].
  eapply running_keeps; [done..|].
  cbn [program]. apply keeps_bind; [by apply kept_enroll|]. intros a. apply keeps_ret.
Qed.
End install.

(** ** Alone, with the database there *)

Lemma run_stmt {A} (f : Fleet → result DbError (A * Fleet)) s :
  available s = true →
  run (stmt f) s = match f s with Ok (x, s') => (Ok x, s') | Err e => (Err e, s) end.
Proof. intros Ha. cbn. rewrite Ha. by destruct (f s) as [[]|]. Qed.
Lemma run_select {A} (f : Fleet → A) s : available s = true → run (select f) s = (Ok (f s), s).
Proof. intros Ha. unfold select. by rewrite run_stmt. Qed.
Lemma run_change f s : available s = true → run (change f) s = (Ok (), f s).
Proof. intros Ha. unfold change. by rewrite run_stmt. Qed.

Lemma find_unique {A} (f : A → rstr) (x : rstr) (m : gmap N A) i a :
  uniq_by f m → m !! i = Some a → f a = x → List.find (λ b, str_eqb (f b) x) (map_to_list m).*2 = Some a.
Proof.
  intros Hu Ha Hx. destruct (List.find _ _) as [b|] eqn:Hf.
  - apply List.find_some in Hf as [Hin Hb%str_eqb_eq].
    apply list_elem_of_In, list_elem_of_fmap in Hin as ([j b'] & -> & Hin). apply elem_of_map_to_list in Hin.
    cbn in *. assert (j = i) as -> by (apply (Hu j i b' a); congruence). congruence.
  - pose proof (find_none _ _ Hf i a Ha) as Hn. cbn in Hn. by rewrite (proj2 (str_eqb_eq _ _) Hx) in Hn.
Qed.

(** The headers of an agent that presents a credential and reports nothing. *)
Definition bearer (credential : rstr) (name : rstr) : option rstr :=
  if str_eqb name #"Authorization" then Some (#"Bearer " ++ credential) else None.

Section credential.
Context `{!SqlEngine, !Text} (env : HostEnv).

(** Who the server takes the bearer of a credential for. *)
Definition verdict (credential : rstr) (s : Fleet) : result N Uuid :=
  match (run (agent_auth env (bearer credential)) s).1 with
  | Ok a => Ok (h_id (a_host a))
  | Err code => Err code
  end.

Lemma verdict_run c s : available s = true →
  verdict c s = match find_by_credential_hash s (hash env c) with
                | None => Err 401%N
                | Some h => if negb (host_is_active h) || h_pending_approval h then Err 403%N else Ok (h_id h)
                end.
Proof.
  intros Ha. unfold verdict, agent_auth.
  assert (bearer c #"Authorization" = Some (#"Bearer " ++ c)) as -> by done.
  assert (strip_prefix (#"Bearer " ++ c) #"Bearer " = Some c) as -> by by apply strip_prefix_Some.
  rewrite run_bind, run_select by done. cbn [run fst]. destruct (find_by_credential_hash _ _) as [h|]; [|done].
  by destruct (negb (host_is_active h) || h_pending_approval h).
Qed.

Lemma verdict_row c s id h :
  available s = true → fleet_wf s → hosts s !! id = Some h → h_credential_hash h = hash env c →
  verdict c s = if bool_decide (h_revoked_at h = None) && negb (h_pending_approval h) then Ok id else Err 403%N.
Proof.
  intros Ha Hwf Hh Hc. rewrite verdict_run by done. unfold find_by_credential_hash, host_rows.
  rewrite (find_unique h_credential_hash (hash env c) (hosts s) id h); [|by apply wf_host_credential|done|done].
  rewrite (wf_host_id s Hwf id h Hh). unfold host_is_active.
  by destruct (bool_decide _), (h_pending_approval h).
Qed.

Lemma verdict_none c s :
  available s = true → (∀ id h, hosts s !! id = Some h → h_credential_hash h ≠ hash env c) → verdict c s = Err 401%N.
Proof.
  intros Ha Hn. rewrite verdict_run by done. destruct (find_by_credential_hash s (hash env c)) as [h|] eqn:Hf; [|done].
  apply List.find_some in Hf as [Hin Hb%str_eqb_eq].
  apply list_elem_of_In, list_elem_of_fmap in Hin as ([j b'] & -> & Hin). apply elem_of_map_to_list in Hin.
  by destruct (Hn _ _ Hin).
Qed.
End credential.
