(* ===== verification/HostLife.v ===== *)
(** * The life of a host's credential

    What a successful enrolment leaves behind, also when the database fails on
    the way; what the credential is good for afterwards; and what administrators
    can and cannot rely on. *)

From S2P Require Import Prelude Protocol Permission Json AuditLog RoleStore Web Delegation.
From S2P Require Import Auth Users Login.
From S2P Require Import ElevationTracker Registry Executor Steps Aat Enrollment HostRoutes.
From S2P Require Import FleetSystem.
From S2P Require Import FleetInvariant EnrollmentTheorems.
Import Op.

(** ** What an enrolment leaves behind *)

Section enrolled.
Context `{!SqlEngine, !Text} (env : HostEnv).

(** The row of the host an enrolment made. *)
Definition newcomer (d : EnrollDraw) (pending flag : bool) (h : Host) : Prop :=
  h_id h = new_host d ∧ h_credential_hash h = hash env (new_credential d) ∧ h_revoked_at h = None
  ∧ h_pending_approval h = pending ∧ h_control_plane h = flag.
Definition settled (d : EnrollDraw) (pending flag : bool) (s : Fleet) : Prop :=
  ∃ h, hosts s !! new_host d = Some h ∧ newcomer d pending flag h.

Lemma settled_steady d pending flag : steady (settled d pending flag).
Proof. by intros b s. Qed.
Lemma settled_kept d pending flag s s' : hosts_kept s s' → settled d pending flag s → settled d pending flag s'.
Proof.
  intros Hk (h & Hh & Hn). destruct (Hk _ _ Hh) as (h' & Hh' & He). exists h'. split; [done|].
  injection He as ??????. destruct Hn as (?&?&?&?&?). repeat split; congruence.
Qed.

(** Statements that write something about the host but not who it is. *)
Lemma settled_stays {A} d pending flag (m : Prog Fleet (result DbError A)) :
  keeps hosts_kept m → triple (settled d pending flag) (logged m) (λ _, settled d pending flag).
Proof.
  intros Hm. apply triple_logged. eapply triple_keeps; [apply settled_steady| |done].
  intros s s' Hk. by apply settled_kept.
Qed.

Lemma create_triple d name pending :
  triple (λ _, True) (create_with_approval (new_host d) name (hash env (new_credential d)) pending)
    (λ r s, match r with Ok host => newcomer d pending false host ∧ settled d pending false s | Err _ => True end).
Proof.
  apply (triple_try _ (λ _, settled d pending false)).
  - apply triple_stmt; [done|done|]. intros s x s' _. unfold insert_host.
    case_bool_decide; [done|]. case_bool_decide; [done|]. case_bool_decide; [done|]. intros [= <- <-].
    eexists. cbn. rewrite lookup_insert_eq. split; [done|]. by repeat split.
  - intros _. apply (triple_try _ (λ row s, row = hosts s !! new_host d ∧ settled d pending false s)).
    + apply triple_select; [apply settled_steady|done|]. done.
    + intros row. apply triple_ret. intros s [-> (h & Hh & Hn)]. rewrite Hh. cbn. split; [done|]. by exists h.
Qed.

Lemma flag_triple d pending id :
  id = new_host d →
  triple (settled d pending false) (set_host_control_plane id true)
    (λ r s, match r with Ok _ => settled d pending true s | Err _ => True end).
Proof.
  intros ->. apply (triple_try _ (λ _, settled d pending true)).
  - apply triple_stmt; [apply settled_steady|done|]. intros s x s' (h & Hh & Hn) [= <- <-].
    exists (with_flags (h_pending_approval h) true h). cbn. rewrite lookup_alter_eq, Hh. split; [done|].
    destruct Hn as (?&?&?&?&?). by repeat split.
  - intros [|]; [by apply triple_ret|].
    apply (triple_try _ (λ _, settled d pending true)); [|intros row; by apply triple_ret].
    by apply triple_select; [apply settled_steady|..].
Qed.

(** The guard of the connections is on for the host. *)
Definition guarded (id : Uuid) (s : Fleet) : Prop := is_control_plane id (registry s) = true.

Lemma register_triple d name g :
  triple (λ _, True) (register_host env d name g)
    (λ a s, ∀ id c, a = Enrolled id c → id = new_host d ∧ c = new_credential d
       ∧ settled d (g_pending g) (g_control_plane g) s ∧ (g_control_plane g = true → guarded id s)).
Proof.
  eapply triple_bind; [apply create_triple|]. intros [host|e]; [|by apply triple_ret].
  apply triple_pure. intros (Hid & _). rewrite Hid.
  eapply triple_bind; [apply settled_stays; auto with keeps|]. intros [].
  apply (triple_bind _ (λ _, settled d (g_pending g) false)).
  { repeat case_match; try by apply triple_ret. apply settled_stays. auto with keeps. }
  intros [].
  apply (triple_bind _ (λ flagged s, (flagged : bool) = true →
    settled d (g_pending g) (g_control_plane g) s ∧ (g_control_plane g = true → guarded (new_host d) s))).
  { destruct (g_control_plane g) eqn:Hg; [|by apply triple_ret].
    eapply triple_bind; [by apply flag_triple|]. intros [x|e].
    - apply (triple_bind _ (λ _ s, settled d (g_pending g) true s ∧ guarded (new_host d) s)).
      + apply triple_act; [apply settled_steady|]. intros s Hs. split; [done|].
        apply bool_decide_eq_true. cbn. set_solver.
      + intros []. apply triple_ret. tauto.
    - eapply triple_bind with (R := λ _ _, True); [|intros; by apply triple_ret].
      by apply triple_logged, triple_stmt. }
  intros [|]; [|by apply triple_ret]. cbn [negb].
  apply (triple_bind _ (λ _ s, settled d (g_pending g) (g_control_plane g) s
                               ∧ (g_control_plane g = true → guarded (new_host d) s))).
  - apply triple_logged, triple_stmt.
    + intros b s Hs. by apply Hs.
    + intros s e Hs. by apply Hs.
    + intros s x s' Hs. destruct (audit _ _) as [[? t]|]; [|done]. intros [= <- <-]. by apply Hs.
  - intros []. apply triple_ret. intros s [? ?] id c [= <- <-]. done.
Qed.
End enrolled.

Lemma always_any {A} (p : Prog Fleet A) (Q : A → Prop) : (∀ a, Q a) → always (λ _ _, True) Q p.
Proof. intros HQ. induction p as [a|X g k IH]; cbn; [done|]. intros s. split; [done|apply IH]. Qed.

(** Past a statement, whatever it answers. *)
Tactic Notation "through" ident(r) := eapply always_bind; [by apply (always_any _ (λ _, True))|intros r _].

(** An enrolment that succeeds gets through its three parts one after the other. *)
Section stages.
Context `{!SqlEngine, !Text} (env : HostEnv).

Definition declines {A} (r : result AgentAnswer A) : Prop :=
  match r with Ok _ => True | Err a => ∀ id c, a ≠ Enrolled id c end.

Lemma authorize_declines (b : bool) tok :
  always (λ _ _, True) declines (if b then authorize_install env tok else authorize_token env tok).
Proof.
  destruct b.
  - through r. destruct r as [[[|t]|]|e]; try done. through r. by destruct r.
  - through r. by destruct r as [[|]|e].
Qed.
Lemma free_name_declines via_aat name : always (λ _ _, True) declines (free_name via_aat name).
Proof.
  unfold free_name. through r. destruct r as [[h|]|e]; try done. through b. destruct b; [done|].
  destruct via_aat; [done|]. through r. destruct r; [|done]. through u. done.
Qed.

Lemma enroll_stages up n d req s id c n' s' :
  run_under up n (enroll env d req) s = (Enrolled id c, (n', s')) →
  ∃ g n1 s1 n2 s2,
    run_under up n (if is_aat (er_token req) then authorize_install env (er_token req)
                    else authorize_token env (er_token req)) s = (Ok g, (n1, s1)) ∧
    run_under up n1 (free_name (is_aat (er_token req)) (er_name req)) s1 = (Ok (), (n2, s2)) ∧
    run_under up n2 (register_host env d (er_name req) g) s2 = (Enrolled id c, (n', s')).
Proof.
  unfold enroll. cbv zeta. rewrite run_under_bind.
  destruct (run_under up n (if is_aat _ then _ else _) s) as [[g|a] [n1 s1]] eqn:Hg.
  - rewrite run_under_bind. destruct (run_under up n1 (free_name _ _) s1) as [[[]|a] [n2 s2]] eqn:Hf.
    + intros Hr. by exists g, n1, s1, n2, s2.
    + apply (always_run_under _ _ _ _ _ _ _ _ _ (free_name_declines _ _)) in Hf. cbn in Hf. intros [= -> _ _].
      by destruct (Hf id c).
  - apply (always_run_under _ _ _ _ _ _ _ _ _ (authorize_declines _ _)) in Hg. cbn in Hg. intros [= -> _ _].
    by destruct (Hg id c).
Qed.
End stages.

(** ** The control plane's own server *)

Lemma token_kind_row s id t :
  uniq_by et_hash (enrollment_tokens s) → enrollment_tokens s !! id = Some t →
  token_kind (et_hash t) s = Some (mkTokenKind id (et_reusable t) (et_control_plane t)).
Proof.
  intros Hu Ht. unfold token_kind. destruct (List.find _ _) as [[j u]|] eqn:Hf.
  - apply List.find_some in Hf as [Hin%list_elem_of_In%elem_of_map_to_list Hb%str_eqb_eq]. cbn in *.
    assert (j = id) as -> by (by apply (Hu j id u t)). by rewrite Ht in Hin; simplify_eq.
  - assert (In (id, t) (map_to_list (enrollment_tokens s))) as Hin
      by (by apply list_elem_of_In, elem_of_map_to_list).
    pose proof (List.find_none _ _ Hf _ Hin) as Hn. cbn in Hn. by rewrite (proj2 (str_eqb_eq _ _) eq_refl) in Hn.
Qed.

Section control_plane.
Context `{!SqlEngine, !Text} (env : HostEnv).

Definition registry_kept (s s' : Fleet) : Prop := registry s' = registry s.
#[export] Instance registry_kept_refl : Reflexive registry_kept.
Proof. done. Qed.
#[export] Instance registry_kept_trans : Transitive registry_kept.
Proof. unfold registry_kept. by intros x y z -> ->. Qed.
Hint Resolve registry_kept_refl : keeps.

Lemma registry_stmt {A} (f : Fleet → result DbError (A * Fleet)) :
  (∀ s x s', f s = Ok (x, s') → registry s' = registry s) → keeps registry_kept (stmt f).
Proof. intros Hf. by apply keeps_stmt. Qed.
Lemma registry_change f : (∀ s, registry (f s) = registry s) → keeps registry_kept (change f).
Proof. intros Hf. by apply keeps_change. Qed.
Lemma registry_audit e : keeps registry_kept (audit_stmt e).
Proof. apply registry_stmt. intros s x s'. destruct (audit e _) as [[? t]|]; [|done]. by intros [= _ <-]. Qed.
Lemma registry_delete id : keeps registry_kept (delete_host id).
Proof. by apply registry_change. Qed.
Lemma registry_create id name h pending : keeps registry_kept (create_with_approval id name h pending).
Proof.
  apply keeps_try; [|walk]. apply registry_stmt. intros s x s'. unfold insert_host. repeat case_bool_decide; try done.
  by intros [= _ <-].
Qed.
Lemma registry_via id via token : keeps registry_kept (set_enrolled_via id via token).
Proof. by apply registry_change. Qed.
Lemma registry_use id : keeps registry_kept (record_use id).
Proof. by apply registry_change. Qed.
Hint Resolve registry_audit registry_delete registry_create registry_via registry_use : keeps.

Lemma registry_free_name via_aat name : keeps registry_kept (free_name via_aat name).
Proof. unfold free_name. walk. Qed.
Lemma registry_register d name g : g_control_plane g = false → keeps registry_kept (register_host env d name g).
Proof. intros Hg. unfold register_host. rewrite Hg. walk. Qed.

(** The grant of an ordinary token, and what its two statements leave. *)
Lemma authorize_token_run up tok s tid t g n s1 :
  fleet_wf s → enrollment_tokens s !! tid = Some t → et_hash t = hash env tok →
  run_under up 0 (authorize_token env tok) s = (Ok g, (n, s1)) →
  g_pending g = false ∧ g_control_plane g = up 1 && et_control_plane t ∧ registry s1 = registry s.
Proof.
  intros Hwf Ht Hh. unfold authorize_token. cbn. destruct (up 0); [|done].
  set (s0 := set_enrollment_tokens _ _).
  assert (token_kind (hash env tok) s0 = Some (mkTokenKind tid (et_reusable t) (et_control_plane t))) as Hk.
  { destruct (consume_respects (hash env tok) (set_available true s)) as [(Hwf' & Hle & _) _].
    destruct (Hle tid t Ht) as (t' & Ht' & H1 & H2 & H3 & _).
    rewrite <- Hh, <- H1, <- H2, <- H3. apply token_kind_row; [|done]. apply wf_token_hash, Hwf'.
    by destruct Hwf. }
  destruct (length _ =? 1); [|done]. cbn. change (token_kind _ _) with (token_kind (hash env tok) s0). rewrite Hk.
  destruct (up 1); intros [= <- <- <-]; cbn; by destruct (et_control_plane t).
Qed.

(** The host the installer enrols is under the control plane's guard before
    its credential is handed out, whatever statement of the enrolment fails,
    with one exception: the guard is on exactly when the read of the token's
    kind got an answer.  When that one read fails the enrolment goes on as an
    ordinary one, and the server's own agent is answered with a credential but
    neither its row nor the connections know that it is the control plane. *)
Theorem control_plane_guard_exact up d req s tid t id c n' s' :
  fleet_wf s → enrollment_tokens s !! tid = Some t → et_hash t = hash env (er_token req) →
  et_control_plane t = true → is_aat (er_token req) = false →
  is_control_plane (new_host d) (registry s) = false →
  run_under up 0 (enroll env d req) s = (Enrolled id c, (n', s')) →
  id = new_host d ∧ is_control_plane id (registry s') = up 1
  ∧ ∃ h, hosts s' !! id = Some h ∧ h_control_plane h = up 1.
Proof.
  intros Hwf Ht Hh Hcp Ha Hng Hrun.
  destruct (enroll_stages env up 0 d req s id c n' s' Hrun) as (g & n1 & s1 & n2 & s2 & Hg & Hf & Hreg).
  rewrite Ha in Hg, Hf.
  apply (authorize_token_run up _ s tid t) in Hg as (Hp & Hgc & Hr); [|done..]. rewrite Hcp, andb_true_r in Hgc.
  set (off := λ s, is_control_plane (new_host d) (registry s) = false).
  assert (off s1) as Hoff by (unfold off; by rewrite Hr).
  assert (∀ s s', registry_kept s s' → off s → off s') as Hkept by (unfold registry_kept, off; intros ?? ->; done).
  pose proof (triple_keeps registry_kept off _ (λ _ _ h, h) Hkept (registry_free_name false (er_name req))
    up n1 s1 Hoff) as Hoff2. rewrite Hf in Hoff2.
  pose proof (register_triple env d (er_name req) g up n2 s2 I) as Hspec. rewrite Hreg in Hspec.
  destruct (Hspec id c eq_refl) as (-> & _ & (h & Hrow & (_ & _ & _ & _ & Hcpl)) & Hguard).
  split; [done|]. split; [|exists h; split; [done|congruence]].
  destruct (up 1) eqn:Hup; [by apply Hguard|].
  pose proof (triple_keeps registry_kept off _ (λ _ _ h, h) Hkept (registry_register d (er_name req) g Hgc)
    up n2 s2 Hoff2) as Hoff3. by rewrite Hreg in Hoff3.
Qed.
End control_plane.

(** ** The credential afterwards *)

Lemma run_internal {A} (m : Prog Fleet (result DbError A)) s :
  run (internal m) s = let '(r, s') := run m s in (match r with Ok x => Ok x | Err e => Err (Internal e) end, s').
Proof. unfold internal. rewrite run_bind. by destruct (run m s). Qed.

Section gate.
Context `{!SqlEngine, !Text}.

Lemma run_gate jar ctx perm csrf k s :
  perm ∈ permissions ctx → verify jar csrf = true → run (gate jar ctx perm csrf k) s = run k s.
Proof.
  intros Hp Hc. unfold gate, checked. rewrite run_try. cbn [run]. unfold ensure. rewrite (proj2 (has_true _ _) Hp).
  rewrite run_try. cbn [run]. unfold require_csrf. by rewrite Hc.
Qed.

Lemma run_the_host id h s : available s = true → hosts s !! id = Some h → run (the_host id) s = (Ok h, s).
Proof.
  intros Ha Hh. unfold the_host, find_host. rewrite run_try, run_internal, run_select by done. cbn.
  by rewrite Hh.
Qed.
End gate.

Definition hosts_same (s s' : Fleet) : Prop := hosts s' = hosts s.
#[export] Instance hosts_same_refl : Reflexive hosts_same.
Proof. done. Qed.
#[export] Instance hosts_same_trans : Transitive hosts_same.
Proof. unfold hosts_same. by intros x y z -> ->. Qed.

Section life.
Context `{!SqlEngine, !Text} (env : HostEnv).
Context (sql_text : DbError → rstr) (debug_str : rstr → rstr).
Context (dispatch : Uuid → AgentOperation → Registry → result DispatchError CommandOutcome * Registry).
Hint Resolve hosts_same_refl : keeps.

Lemma same_audited ctx action resource metadata : keeps hosts_same (audited ctx action resource metadata).
Proof.
  unfold audited, internal. apply keeps_bind; [|walk]. apply keeps_stmt; [apply _|]. intros s x s'.
  destruct (audit _ _) as [[? t]|]; [|done]. by intros [= _ <-].
Qed.
Lemma same_registry f : keeps hosts_same (tell (set_registry f)).
Proof. by apply keeps_tell. Qed.
Hint Resolve same_audited same_registry : keeps.

Lemma same_uninstall ctx h : keeps hosts_same (uninstall_agent_for_removal debug_str dispatch ctx h).
Proof.
  unfold uninstall_agent_for_removal. cbv zeta. walk.
  - apply keeps_act. intros s. by destruct (ElevationTracker.is_elevated _ _ _).
  - apply keeps_act. intros s. destruct (execute_on_host _ _ _ _ _ _ _ _ _ _ _ _ _) as [r [w t]].
    by destruct (available s).
Qed.

Hint Resolve safe_elevated_now safe_on_host : keeps.
Variables (jar : CookieJar) (ctx : AuthContext) (draw : HostDraw) (csrf : rstr).
Hypotheses (Hperm : HostsManage ∈ permissions ctx) (Hcsrf : verify jar csrf = true).

(** The server after an administrator's request ran. *)
Definition after (r : HostRequest) (s : Fleet) : Fleet :=
  (run (handle_hosts env sql_text debug_str dispatch jar ctx draw r) s).2.

Lemma after_wf r s : fleet_wf s → available s = true → fleet_wf (after r s) ∧ available (after r s) = true.
Proof.
  intros Hwf Ha. unfold after.
  destruct (keeps_run respects (handle_hosts env sql_text debug_str dispatch jar ctx draw r) s)
    as [[H1 _] H2]; [apply safe_handle_hosts|]. split; [by apply H1|congruence].
Qed.

Lemma run_same {A} (p : Prog Fleet A) s : keeps hosts_same p → hosts (run p s).2 = hosts s.
Proof. apply (keeps_run hosts_same). Qed.

Lemma after_approve id h s :
  available s = true → hosts s !! id = Some h →
  hosts (after (Approve id csrf) s) !! id = Some (with_flags false (h_control_plane h) h).
Proof.
  intros Ha Hh. unfold after, handle_hosts, approve. rewrite run_gate by done.
  rewrite run_try, (run_the_host id h) by done. rewrite run_try, run_internal. unfold approve_host.
  rewrite run_stmt by done. rewrite Hh. cbv zeta. cbn [fst snd].
  destruct (h_pending_approval h) eqn:Hp.
  - rewrite run_same by (unfold redirect; walk). cbn. by rewrite lookup_alter_eq, Hh.
  - rewrite run_same by (unfold redirect; walk). rewrite Hh, <- Hp. by destruct h.
Qed.

Lemma after_revoke id h s :
  available s = true → hosts s !! id = Some h →
  hosts (after (RevokeHost id csrf true) s) !! id = Some (with_revoked (Some (clock s)) h).
Proof.
  intros Ha Hh. unfold after, handle_hosts, revoke_route. rewrite run_gate by done. cbn [negb].
  rewrite run_try, (run_the_host id h) by done. rewrite run_try, run_internal. unfold revoke_host.
  rewrite run_change by done. rewrite run_same by (unfold redirect; walk). cbn. by rewrite lookup_alter_eq, Hh.
Qed.

Lemma run_uninstall_available h s :
  available s = true → available (run (uninstall_agent_for_removal debug_str dispatch ctx h) s).2 = true.
Proof.
  intros Ha. destruct (keeps_run respects (uninstall_agent_for_removal debug_str dispatch ctx h) s) as [_ H2];
    [|congruence]. unfold uninstall_agent_for_removal. cbv zeta. walk.
Qed.

Lemma after_remove id h text s :
  fleet_wf s → available s = true → hosts s !! id = Some h → trim text = h_name h →
  hosts (after (RemoveHost id csrf true text) s) = base.delete id (hosts s).
Proof.
  intros Hwf Ha Hh Ht. unfold after, handle_hosts, remove. rewrite run_gate by done. cbn [negb].
  rewrite run_try, (run_the_host id h) by done. rewrite run_try. unfold checked, require_typed_confirmation.
  rewrite Ht, (proj2 (str_eqb_eq _ _) eq_refl). cbn [run]. rewrite run_bind.
  pose proof (run_same _ s (same_uninstall ctx h)) as Hsame.
  assert (available (run (uninstall_agent_for_removal debug_str dispatch ctx h) s).2 = true) as Ha'
    by (by apply run_uninstall_available).
  destruct (run (uninstall_agent_for_removal debug_str dispatch ctx h) s) as [[b why] s1]. cbn in Hsame, Ha'.
  rewrite run_try, run_internal. unfold delete_host. rewrite run_change by done.
  rewrite run_same by (unfold render; walk). cbn. by rewrite Hsame.
Qed.

Lemma registry_audited ctx' action resource metadata : keeps registry_kept (audited ctx' action resource metadata).
Proof. unfold audited, internal. apply keeps_bind; [apply registry_audit|walk]. Qed.
Hint Resolve registry_audited registry_kept_refl : keeps.

Lemma run_registry {A} (p : Prog Fleet A) s : keeps registry_kept p → registry (run p s).2 = registry s.
Proof. apply (keeps_run registry_kept). Qed.

Lemma after_remove_connections id h text s :
  available s = true → hosts s !! id = Some h → trim text = h_name h →
  connections (registry (after (RemoveHost id csrf true text) s)) !! id = None.
Proof.
  intros Ha Hh Ht. unfold after, handle_hosts, remove. rewrite run_gate by done. cbn [negb].
  rewrite run_try, (run_the_host id h) by done. rewrite run_try. unfold checked, require_typed_confirmation.
  rewrite Ht, (proj2 (str_eqb_eq _ _) eq_refl). cbn [run]. rewrite run_bind.
  assert (available (run (uninstall_agent_for_removal debug_str dispatch ctx h) s).2 = true) as Ha'
    by (by apply run_uninstall_available).
  destruct (run (uninstall_agent_for_removal debug_str dispatch ctx h) s) as [[b why] s1]. cbn in Ha'.
  rewrite run_try, run_internal. unfold delete_host. rewrite run_change by done. cbv beta iota.
  rewrite run_bind. cbn [run tell act]. rewrite run_bind. cbn [run tell act].
  rewrite run_registry by (unfold render; walk). cbn. apply lookup_delete_eq.
Qed.

(** Whether the token [tok] puts a new host on hold.  The one-time and deployment
    tokens never do, the default install token when the setting says so, an
    additional one when its own row does. *)
Definition asks_approval (tok : rstr) (waiting : bool) (s : Fleet) : Prop :=
  if is_aat tok then
    (∃ aat, run (current env) s = (Ok (Some aat), s) ∧ hash env aat = hash env tok)
    ∧ waiting = get_bool (site s) REQUIRE_APPROVAL_KEY false
    ∨ ∃ tid t, install_tokens s !! tid = Some t ∧ it_hash t = hash env tok ∧ it_is_active t (clock s) = true
               ∧ waiting = it_require_approval t
  else waiting = false.

Lemma current_run s : available s = true → ∃ r, run (current env) s = (r, s).
Proof.
  intros Ha. unfold current, sql, message. rewrite run_try, run_bind, run_select by done. cbn [run].
  destruct (read_stored s) as [x|]; by eexists.
Qed.

Lemma match_presented_run tok s : available s = true →
  ∃ r, run (match_presented env tok) s = (r, s) ∧
    (r = Ok (Some MatchedDefault) → ∃ aat, run (current env) s = (Ok (Some aat), s) ∧ hash env aat = hash env tok) ∧
    ∀ t, r = Ok (Some (MatchedAdditional t)) →
      ∃ tid, install_tokens s !! tid = Some t ∧ it_hash t = hash env tok ∧ it_is_active t (clock s) = true.
Proof.
  intros Ha. unfold match_presented, matches. rewrite run_try, run_try.
  destruct (current_run s Ha) as [[c|e] Hc]; rewrite Hc; [|by eexists]. cbn [run].
  destruct (match c with Some _ => _ | None => _ end) eqn:Hm.
  { eexists. split; [done|]. split; [|done]. intros _. destruct c as [aat|]; [|done]. exists aat.
    by rewrite str_eqb_eq in Hm. }
  unfold sql. rewrite run_try, run_bind, run_select by done. cbn [run]. eexists. split; [done|].
  split; [by destruct (find_active_by_hash _ s)|]. intros t. destruct (find_active_by_hash _ s) as [t'|] eqn:Hf; [|done]. intros [= ->].
  unfold find_active_by_hash in Hf. apply List.find_some in Hf as [Hin Hb].
  apply list_elem_of_In, list_elem_of_fmap in Hin as ([tid t''] & Heq & Hin%elem_of_map_to_list). cbn in Heq. subst t''.
  exists tid. apply andb_true_iff in Hb as [Hb%str_eqb_eq ?]. done.
Qed.

Lemma authorize_asks tok s g s' : available s = true →
  run (if is_aat tok then authorize_install env tok else authorize_token env tok) s = (Ok g, s') →
  asks_approval tok (g_pending g) s.
Proof.
  intros Ha. unfold asks_approval. destruct (is_aat tok).
  - unfold authorize_install. rewrite run_bind.
    destruct (match_presented_run tok s Ha) as (r & -> & Hd & Hr). destruct r as [[[|t]|]|e]; [| |done|done].
    + unfold require_approval. rewrite run_bind, run_select by done. intros [= <- _]. left. auto.
    + intros [= <- _]. right. destruct (Hr t eq_refl) as (tid & ? & ? & ?). by exists tid, t.
  - unfold authorize_token. rewrite run_bind. destruct (run (consume_token _) s) as [[[|]|e] s2]; [|done..].
    rewrite run_bind. destruct (run (select _) s2) as [k s3]. by intros [= <- _].
Qed.
Lemma enroll_run d req s id c s1 :
  fleet_wf s → available s = true → run (enroll env d req) s = (Enrolled id c, s1) →
  fleet_wf s1 ∧ available s1 = true ∧ id = new_host d ∧ c = new_credential d ∧
  ∃ pending flag, settled env d pending flag s1 ∧ asks_approval (er_token req) pending s.
Proof.
  intros Hwf Ha Hrun.
  destruct (keeps_run respects (enroll env d req) s (safe_enroll env d req)) as [[H1 _] H2].
  rewrite Hrun in H1, H2. cbn in H1, H2. split; [by apply H1|]. split; [congruence|].
  destruct (run_under_run 0 (enroll env d req) s) as [n' Hu]; [|done|].
  { eapply always_mono; [|done|apply safe_enroll]. by intros ?? [_ ?]. }
  rewrite Hrun in Hu. cbn in Hu.
  destruct (enroll_stages env _ 0 d req s id c n' s1 Hu) as (g & n1 & s2 & n2 & s3 & Hg & _ & Hreg).
  pose proof (register_triple env d (er_name req) g (λ _, true) n2 s3 I) as Hspec. rewrite Hreg in Hspec.
  destruct (Hspec id c eq_refl) as (-> & -> & Hset & _). split; [done|]. split; [done|].
  exists (g_pending g), (g_control_plane g). split; [done|].
  destruct (run_under_run 0 (if is_aat (er_token req) then authorize_install env (er_token req)
                             else authorize_token env (er_token req)) s) as [n3 Hauth]; [|done|].
  { eapply always_mono; [|done|apply safe_authorize]. by intros ?? [_ ?]. }
  rewrite Hg in Hauth. injection Hauth as Hok _ Hst.
  apply (authorize_asks _ s _ (run (if is_aat (er_token req) then authorize_install env (er_token req)
                             else authorize_token env (er_token req)) s).2); [done|].
  rewrite Hok. apply surjective_pairing.
Qed.

(** C10: The life of a host's credential.  What an enrolment answers with
    identifies the new host and nobody else.  Right after it the agent that
    presents the credential is told to wait (403) exactly when the host's token
    asks for approval, and is admitted otherwise; once an administrator approves
    the host it is admitted; once the host is revoked it is refused, and once it is
    removed the credential is unknown.  And whatever agents and administrators did
    in between: while the host's row bears the credential, its bearer is admitted
    as that host if and only if the host is neither revoked nor awaiting
    approval. *)
Theorem credential_lifecycle d req s id c s1 text :
  fleet_wf s → available s = true → run (enroll env d req) s = (Enrolled id c, s1) →
  (∃ waiting : bool, asks_approval (er_token req) waiting s
                     ∧ verdict env c s1 = if waiting then Err 403%N else Ok id) ∧
  verdict env c (after (Approve id csrf) s1) = Ok id ∧
  verdict env c (after (RevokeHost id csrf true) (after (Approve id csrf) s1)) = Err 403%N ∧
  (trim text = default [] (h_name <$> hosts (after (RevokeHost id csrf true) (after (Approve id csrf) s1)) !! id) →
   verdict env c (after (RemoveHost id csrf true text) (after (RevokeHost id csrf true) (after (Approve id csrf) s1)))
   = Err 401%N) ∧
  (∀ sv h, served env sql_text debug_str dispatch s1 sv → available (fleet sv) = true →
     hosts (fleet sv) !! id = Some h → h_credential_hash h = hash env c →
     (verdict env c (fleet sv) = Ok id ↔ h_revoked_at h = None ∧ h_pending_approval h = false) ∧
     (verdict env c (fleet sv) = Err 403%N ↔ is_Some (h_revoked_at h) ∨ h_pending_approval h = true)).
Proof.
  intros Hwf Ha Hrun.
  destruct (enroll_run d req s id c s1) as (Hwf1 & Ha1 & -> & -> & pending & flag & (h & Hh & Hn) & Hpend); [done..|].
  destruct Hn as (Hid & Hc & Hr & Hp & _).
  set (s2 := after (Approve _ _) s1). set (s3 := after (RevokeHost _ _ _) s2).
  destruct (after_wf (Approve (new_host d) csrf) s1) as [Hwf2 Ha2]; [done..|].
  destruct (after_wf (RevokeHost (new_host d) csrf true) s2) as [Hwf3 Ha3]; [done..|].
  pose proof (after_approve (new_host d) h s1 Ha1 Hh) as Hh2. fold s2 in Hh2.
  pose proof (after_revoke (new_host d) _ s2 Ha2 Hh2) as Hh3. fold s3 in Hh3.
  split_and!.
  - exists pending. split; [done|]. rewrite (verdict_row env _ s1 (new_host d) h) by done.
    rewrite Hr, Hp. by destruct pending.
  - rewrite (verdict_row env _ s2 (new_host d) _ Ha2 Hwf2 Hh2) by done. cbn. by rewrite Hr.
  - by rewrite (verdict_row env _ s3 (new_host d) _ Ha3 Hwf3 Hh3).
  - rewrite Hh3. cbn. intros Ht. apply verdict_none; [by apply after_wf|]. intros j h' Hj Hc'.
    erewrite after_remove in Hj; [|done|done|exact Hh3|done].
    apply lookup_delete_Some in Hj as [Hne Hj]. apply Hne. symmetry.
    apply (wf_host_credential s3 Hwf3 j (new_host d) h' _ Hj Hh3). cbn. congruence.
  - intros sv h' Hsv Hav Hh' Hc'.
    rewrite (verdict_row env _ (fleet sv) (new_host d) h'); [|done|exact (served_wf _ _ _ _ s1 sv Hwf1 Hsv)|done..].
    destruct (h_revoked_at h') as [x|], (h_pending_approval h'); cbn; (split; split; [done||naive_solver..]).
Qed.

(** Revoking a host does not cut its connection.  The revocation is recorded
    and a reconnect would be refused, but the registry of connections is left as it
    was: a command for the host passes the same guard and reaches the same
    connection as before.  Removing the host does cut it. *)
Theorem revoked_host_still_commanded id h c s text op e :
  fleet_wf s → available s = true → hosts s !! id = Some h → h_credential_hash h = hash env c →
  trim text = h_name h → dispatch_lookup id op (registry s) = Ok e →
  let s' := after (RevokeHost id csrf true) s in
  verdict env c s' = Err 403%N ∧
  guard id op (registry s') = guard id op (registry s) ∧ dispatch_lookup id op (registry s') = Ok e ∧
  dispatch_lookup id op (registry (after (RemoveHost id csrf true text) s)) = Err NotConnected.
Proof.
  intros Hwf Ha Hh Hc Ht He. cbv zeta.
  assert (registry (after (RevokeHost id csrf true) s) = registry s) as Hreg.
  { unfold after, handle_hosts, revoke_route. rewrite run_gate by done. cbn [negb].
    rewrite run_try, (run_the_host id h) by done. rewrite run_try, run_internal. unfold revoke_host.
    rewrite run_change by done. by rewrite run_registry by (unfold redirect; walk). }
  split; [|split; [|split]]; [|by rewrite Hreg..|].
  - destruct (after_wf (RevokeHost id csrf true) s) as [Hwf' Ha']; [done..|].
    by rewrite (verdict_row env _ _ id _ Ha' Hwf' (after_revoke id h s Ha Hh)).
  - unfold dispatch_lookup. by rewrite (after_remove_connections id h).
Qed.
End life.
