(* ===== verification/Nac.v ===== *)
(** * Port enforcement ([web/src/panopticon_enforcement.rs])

    The server takes a switch port out of service and back: [apply] checks the
    gates, writes to the switch and records the action, [release] restores the
    port, and a sweep releases what has expired.  With it come the repository
    [panopticon_enforcement.rs], the types of [core/src/enforcement.rs] and the
    handlers of [routes/panopticon.rs] that lead here.

    As in [Enrollment] a handler is a program of single statements and single
    SNMP exchanges.  The state says for every statement to come whether the
    database answers it, so that running a program covers every failure. *)

From stdpp Require Import sorting.
From S2P Require Import Prelude Permission Json AuditLog RoleStore Web Delegation.
From S2P Require Import Auth Users Login Steps Aat Snmp.
Import AuditAction (NetworkPortEnforced, NetworkPortReleased, ConfigurationChanged).

(** ** Actions ([core/src/enforcement.rs]) *)

Inductive EnforcementKind : Set := Disable | Quarantine.
Inductive EnforcementState : Set := Active | Reverted | ApplyFailed | RevertFailed.

#[export] Instance EnforcementKind_eq_dec : EqDecision EnforcementKind.
Proof. solve_decision. Defined.
#[export] Instance EnforcementState_eq_dec : EqDecision EnforcementState.
Proof. solve_decision. Defined.

Module EnforcementKind.
Definition as_str (k : EnforcementKind) : rstr :=
  match k with Disable => #"disable" | Quarantine => #"quarantine" end.
Definition from_str (s : rstr) : option EnforcementKind :=
  if str_eqb s #"disable" then Some Disable
  else if str_eqb s #"quarantine" then Some Quarantine
  else None.
End EnforcementKind.

Definition is_in_effect (st : EnforcementState) : bool :=
  match st with Active | RevertFailed => true | _ => false end.

Record EnforcementAction := mkAction {
  ac_id : Uuid; ac_switch_id : Uuid; ac_switch_name : rstr; ac_if_index : N; ac_port_label : rstr;
  ac_kind : EnforcementKind; ac_state : EnforcementState; ac_original_admin_status : option Z;
  ac_original_pvid : option Z; ac_quarantine_vlan : option Z; ac_reason : option rstr;
  ac_created_by : option Uuid; ac_created_by_username : option rstr; ac_created_at : N;
  ac_expires_at : option N; ac_reverted_at : option N; ac_last_error : option rstr }.

Definition is_due_for_revert (a : EnforcementAction) (now : N) : bool :=
  is_in_effect (ac_state a) && match ac_expires_at a with Some e => (e <=? now)%N | None => false end.

(** ** Devices, ports and rules the other files read *)

Inductive TrustState : Set := TrustUnknown | Trusted | Untrusted.
Inductive DeviceType : Set :=
| DeviceUnknown | Workstation | ServerDevice | Printer | NetworkInfrastructure | Iot | Phone | OtherDevice.
#[export] Instance TrustState_eq_dec : EqDecision TrustState.
Proof. solve_decision. Defined.
#[export] Instance DeviceType_eq_dec : EqDecision DeviceType.
Proof. solve_decision. Defined.

Record NetworkDevice := mkDevice {
  dv_id : Uuid; dv_ip_address : rstr; dv_network : option rstr; dv_mac_address : option rstr;
  dv_device_type : DeviceType; dv_trust_state : TrustState; dv_switch_id : option Uuid;
  dv_switch_port : option rstr; dv_first_seen_at : N; dv_last_seen_at : N }.

Record SwitchPort := mkSwitchPort { sp_switch_id : Uuid; sp_if_index : N; sp_if_descr : option rstr }.

Inductive PolicyTrigger : Set := OnUntrusted | OnNewUnknown.
Record PolicyRule := mkRule {
  ru_id : Uuid; ru_priority : Z; ru_name : rstr; ru_enabled : bool; ru_trigger : PolicyTrigger;
  ru_action : EnforcementKind; ru_subnet : option rstr; ru_switch_id : option Uuid;
  ru_device_type : option DeviceType; ru_timeout_minutes : option N; ru_created_by : option Uuid;
  ru_created_at : N }.

(** [core/src/radius.rs]; a session is [None] where the packets said nothing. *)
Record RadiusClient := mkRadiusClient {
  rc_id : Uuid; rc_name : rstr; rc_nas_address : rstr; rc_shared_secret_encrypted : rstr; rc_enabled : bool }.
Record RadiusSession := mkRadiusSession {
  rs_id : Uuid; rs_username : option rstr; rs_mac_address : option rstr; rs_nas_ip : option rstr;
  rs_nas_port : option rstr; rs_framed_ip : option rstr; rs_acct_session_id : option rstr;
  rs_auth_method : option rstr; rs_started_at : N; rs_last_seen_at : N; rs_stopped_at : option N;
  rs_terminate_cause : option rstr }.

(** ** The state *)

Record Nac `{!SnmpLink} := mkNac {
  n_site : Site;
  switches : gmap Uuid PanopticonSwitch;
  switch_ports : list SwitchPort;
  devices : list NetworkDevice;
  rules : gmap Uuid PolicyRule;
  actions : gmap Uuid EnforcementAction;
  radius_clients : gmap Uuid RadiusClient;
  radius_sessions : gmap Uuid RadiusSession;
  net : Net;
  n_clock : N;
  (** Which of the statements from now on the database does not answer. *)
  outages : nat → bool }.

Section state.
Context `{!SnmpLink}.

Definition set_n_site (f : Site → Site) (s : Nac) : Nac :=
  mkNac _ (f (n_site s)) (switches s) (switch_ports s) (devices s) (rules s) (actions s) (radius_clients s) (radius_sessions s)
    (net s) (n_clock s) (outages s).
Definition set_switches (f : gmap Uuid PanopticonSwitch → gmap Uuid PanopticonSwitch) (s : Nac) : Nac :=
  mkNac _ (n_site s) (f (switches s)) (switch_ports s) (devices s) (rules s) (actions s) (radius_clients s) (radius_sessions s)
    (net s) (n_clock s) (outages s).
Definition set_rules (f : gmap Uuid PolicyRule → gmap Uuid PolicyRule) (s : Nac) : Nac :=
  mkNac _ (n_site s) (switches s) (switch_ports s) (devices s) (f (rules s)) (actions s) (radius_clients s) (radius_sessions s)
    (net s) (n_clock s) (outages s).
Definition set_actions (f : gmap Uuid EnforcementAction → gmap Uuid EnforcementAction) (s : Nac) : Nac :=
  mkNac _ (n_site s) (switches s) (switch_ports s) (devices s) (rules s) (f (actions s)) (radius_clients s) (radius_sessions s)
    (net s) (n_clock s) (outages s).
Definition set_radius_clients (f : gmap Uuid RadiusClient → gmap Uuid RadiusClient) (s : Nac) : Nac :=
  mkNac _ (n_site s) (switches s) (switch_ports s) (devices s) (rules s) (actions s) (f (radius_clients s)) (radius_sessions s)
    (net s) (n_clock s) (outages s).
Definition set_radius_sessions (f : gmap Uuid RadiusSession → gmap Uuid RadiusSession) (s : Nac) : Nac :=
  mkNac _ (n_site s) (switches s) (switch_ports s) (devices s) (rules s) (actions s) (radius_clients s) (f (radius_sessions s))
    (net s) (n_clock s) (outages s).
Definition set_net (n : Net) (s : Nac) : Nac :=
  mkNac _ (n_site s) (switches s) (switch_ports s) (devices s) (rules s) (actions s) (radius_clients s) (radius_sessions s) n
    (n_clock s) (outages s).
(** A statement has been sent. *)
Definition tick (s : Nac) : Nac :=
  mkNac _ (n_site s) (switches s) (switch_ports s) (devices s) (rules s) (actions s) (radius_clients s) (radius_sessions s) (net s)
    (n_clock s) (λ n, outages s (S n)).

Definition n_stmt {A} (f : Nac → result DbError (A * Nac)) : Prog Nac (result DbError A) := act (λ s,
  if outages s 0 then (Err Unavailable, tick s)
  else match f (tick s) with Ok (x, s') => (Ok x, s') | Err e => (Err e, tick s) end).
Definition n_select {A} (f : Nac → A) : Prog Nac (result DbError A) := n_stmt (λ s, Ok (f s, s)).
Definition n_change (f : Nac → Nac) : Prog Nac (result DbError ()) := n_stmt (λ s, Ok ((), f s)).
Definition n_audit (e : AuditEvent) : Prog Nac (result DbError ()) := n_stmt (λ s,
  match audit e (db (n_site s)) with
  | Ok (_, d) => Ok ((), set_n_site (with_db d) s)
  | Err e => Err e
  end).
Definition n_logged {A} (m : Prog Nac (result DbError A)) : Prog Nac () := _ ← m; Ret ().
Definition now : Prog Nac N := act (λ s, (n_clock s, s)).

(** A program of SNMP exchanges, as part of a handler. *)
Fixpoint on_net {A} (p : Prog Net A) : Prog Nac A :=
  match p with
  | Ret a => Ret a
  | Do f k => Do (λ s, let '(x, n) := f (net s) in (x, set_net n s)) (λ x, on_net (k x))
  end.

(** [repo::settings] with its [unwrap_or]. *)
Definition get_u32 (s : Site) (key : rstr) (dflt : N) : N :=
  match settings s !! key with
  | Some (Num (PosInt n)) => if (n <? 2 ^ 32)%N then n else dflt
  | _ => dflt
  end.
Definition get_string (s : Site) (key dflt : rstr) : rstr := default dflt (settings s !! key ≫= as_str).
Definition settings_bool (key : rstr) : Prog Nac bool :=
  r ← n_select (λ s, get_bool (n_site s) key false);
  Ret (match r with Ok b => b | Err _ => false end).
Definition settings_u32 (key : rstr) (dflt : N) : Prog Nac N :=
  r ← n_select (λ s, get_u32 (n_site s) key dflt);
  Ret (match r with Ok n => n | Err _ => dflt end).
Definition n_set_setting (key : rstr) (v : Value) : Prog Nac (result DbError ()) :=
  n_change (set_n_site (λ x, mkSite (db x) (<[key := v]> (settings x)) (login_limiter x) (outbox x))).
End state.

Definition PANOPTICON_ENFORCEMENT_ENABLED : rstr := #"panopticon.enforcement_enabled".
Definition PANOPTICON_QUARANTINE_VLAN : rstr := #"panopticon.quarantine_vlan".
Definition PANOPTICON_QUARANTINE_VLAN_DEFAULT : N := 0.

(** ** [repo::panopticon_enforcement] *)

Section actions.
Context `{!SnmpLink, !SqlOrder}.
Implicit Types (s : Nac).

Definition action_rows s : list EnforcementAction := (map_to_list (actions s)).*2.

Record NewAction := mkNewAction {
  na_switch_id : Uuid; na_switch_name : rstr; na_if_index : N; na_port_label : rstr; na_kind : EnforcementKind;
  na_state : EnforcementState; na_original_admin_status : option Z; na_original_pvid : option Z;
  na_quarantine_vlan : option Z; na_reason : option rstr; na_created_by : option Uuid;
  na_created_by_username : option rstr; na_expires_at : option N; na_last_error : option rstr }.

(** The row of a new action, under the keys of the table; [id] is what
    [Uuid::new_v4] draws. *)
Definition action_of (id : Uuid) (at_ : N) (n : NewAction) : EnforcementAction :=
  mkAction id (na_switch_id n) (na_switch_name n) (na_if_index n) (na_port_label n) (na_kind n) (na_state n)
    (na_original_admin_status n) (na_original_pvid n) (na_quarantine_vlan n) (na_reason n) (na_created_by n)
    (na_created_by_username n) at_ (na_expires_at n) None (na_last_error n).
Definition create_action (id : Uuid) (n : NewAction) : Prog Nac (result DbError Uuid) := n_stmt (λ s,
  if bool_decide (is_Some (actions s !! id)) then Err DuplicateKey
  else if match na_created_by n with Some u => bool_decide (users (db (n_site s)) !! u = None) | None => false end
  then Err ForeignKeyViolation
  else Ok (id, set_actions <[id := action_of id (n_clock s) n]> s)).

Definition find_action s (id : Uuid) : option EnforcementAction := actions s !! id.

Definition of_port (switch_id : Uuid) (if_index : N) (a : EnforcementAction) : bool :=
  (ac_switch_id a =? switch_id)%N && (ac_if_index a =? if_index)%N.
Definition newest_first (a b : EnforcementAction) : bool := (ac_created_at b <=? ac_created_at a)%N.
Definition find_in_effect_for_port s (switch_id : Uuid) (if_index : N) : option EnforcementAction :=
  head (order_by newest_first
    (List.filter (λ a, of_port switch_id if_index a && is_in_effect (ac_state a)) (action_rows s))).
Definition list_in_effect s : list EnforcementAction :=
  order_by newest_first (List.filter (λ a, is_in_effect (ac_state a)) (action_rows s)).

(** [NULL] comes first in ascending order. *)
Definition expires_first (a b : EnforcementAction) : bool :=
  match ac_expires_at a, ac_expires_at b with
  | None, _ => true
  | Some _, None => false
  | Some x, Some y => (x <=? y)%N
  end.
Definition due (at_ : N) (a : EnforcementAction) : bool :=
  match ac_state a with
  | Active => match ac_expires_at a with Some e => (e <=? at_)%N | None => false end
  | RevertFailed => true
  | _ => false
  end.
Definition list_due_for_revert s (at_ : N) : list EnforcementAction :=
  order_by expires_first (List.filter (due at_) (action_rows s)).

Definition has_recent_action_for_port s (switch_id : Uuid) (if_index since : N) : bool :=
  0 <? length (List.filter (λ a, of_port switch_id if_index a && (since <=? ac_created_at a)%N) (action_rows s)).

Definition without_expiry (a : EnforcementAction) : EnforcementAction :=
  if is_in_effect (ac_state a) then
    mkAction (ac_id a) (ac_switch_id a) (ac_switch_name a) (ac_if_index a) (ac_port_label a) (ac_kind a) (ac_state a)
      (ac_original_admin_status a) (ac_original_pvid a) (ac_quarantine_vlan a) (ac_reason a) (ac_created_by a)
      (ac_created_by_username a) (ac_created_at a) None (ac_reverted_at a) (ac_last_error a)
  else a.
Definition make_permanent (id : Uuid) : Prog Nac (result DbError ()) := n_change (set_actions (alter without_expiry id)).

Definition with_outcome (st : EnforcementState) (at_ : option N) (error : option rstr) (a : EnforcementAction)
    : EnforcementAction :=
  mkAction (ac_id a) (ac_switch_id a) (ac_switch_name a) (ac_if_index a) (ac_port_label a) (ac_kind a) st
    (ac_original_admin_status a) (ac_original_pvid a) (ac_quarantine_vlan a) (ac_reason a) (ac_created_by a)
    (ac_created_by_username a) (ac_created_at a) (ac_expires_at a) at_ error.
Definition mark_reverted (id : Uuid) (st : EnforcementState) (error : option rstr) : Prog Nac (result DbError ()) :=
  at_ ← now;
  n_change (set_actions (alter (with_outcome st (if bool_decide (st = Reverted) then Some at_ else None) error) id)).
End actions.

(** ** [apply] and [release] *)

Inductive EnforceError : Type :=
| GloballyDisabled
| SwitchNotOptedIn
| NoEncryptionKey
| QuarantineVlanUnset
| AlreadyEnforced
| EnforceSnmp (msg : rstr)
| EnforceDb (e : DbError).

Inductive EnforceOrigin : Type :=
| Operator (id : Uuid) (username : rstr)
| Policy (rule_name : rstr).

Definition origin_actor (o : EnforceOrigin) : option Actor :=
  match o with Operator id username => Some (mkActor id username) | Policy _ => None end.
Definition created_by (o : EnforceOrigin) : option Uuid := actor_user_id <$> origin_actor o.
Definition created_by_username (o : EnforceOrigin) : option rstr := actor_username <$> origin_actor o.
Definition origin_key (o : EnforceOrigin) : rstr :=
  match o with Operator _ _ => #"operator" | Policy _ => #"policy" end.
Definition origin_rule (o : EnforceOrigin) : option rstr :=
  match o with Policy r => Some r | Operator _ _ => None end.

Record EnforceRequest := mkEnforceRequest {
  rq_switch : PanopticonSwitch; rq_if_index : N; rq_port_label : rstr; rq_kind : EnforcementKind;
  rq_reason : option rstr; rq_timeout_minutes : N; rq_origin : EnforceOrigin }.

Inductive ReleaseBy : Type :=
| ByOperator (id : Uuid) (username : rstr)
| AutoRevert.
Definition release_key (b : ReleaseBy) : rstr :=
  match b with ByOperator _ _ => #"operator" | AutoRevert => #"auto_revert" end.

Section enforcement.
Context `{!SnmpLink, !SqlOrder, !Text} (sql_text : DbError → rstr).

Definition enforce_error_text (e : EnforceError) : rstr :=
  match e with
  | GloballyDisabled => #"NAC enforcement is globally disabled -- turn it on in Settings first."
  | SwitchNotOptedIn => #"This switch isn't opted into enforcement -- enable it on the switch's settings (and make sure its stored SNMP credentials have write access) first."
  | NoEncryptionKey => #"ENCRYPTION_KEY isn't configured -- this switch's SNMP credentials can't be decrypted, so enforcement can't reach it."
  | QuarantineVlanUnset => #"No quarantine VLAN is configured -- set one in Settings before quarantining a port."
  | AlreadyEnforced => #"This port already has an active enforcement action -- release it before applying another."
  | EnforceSnmp msg => #"The switch rejected the change: " ++ msg
  | EnforceDb e => #"Database error: " ++ sql_text e
  end.

(** [.map_err(|e| EnforceError::Db(..))]. *)
Definition db_err {A} (m : Prog Nac (result DbError A)) : Prog Nac (result EnforceError A) :=
  r ← m; Ret (match r with Ok x => Ok x | Err e => Err (EnforceDb e) end).

Definition json_opt {A} (f : A → Value) (o : option A) : Value := match o with Some x => f x | None => Null end.
Definition num (n : N) : Value := Num (PosInt n).

Definition enforced_event (req : EnforceRequest) (vlan : option N) (outcome : AuditOutcome) (error : option rstr)
    : AuditEvent :=
  let event := new_event NetworkPortEnforced outcome
    |> with_resource (sw_name (rq_switch req) ++ #" / " ++ rq_port_label req)
    |> with_metadata (Obj
         [(#"by", Str (origin_key (rq_origin req))); (#"error", json_opt Str error); (#"if_index", num (rq_if_index req));
          (#"kind", Str (EnforcementKind.as_str (rq_kind req))); (#"port", Str (rq_port_label req));
          (#"quarantine_vlan", json_opt num vlan); (#"reason", json_opt Str (rq_reason req));
          (#"rule", json_opt Str (origin_rule (rq_origin req))); (#"switch", Str (sw_name (rq_switch req)));
          (#"switch_id", Str (uuid_to_string (sw_id (rq_switch req)))); (#"timeout_minutes", num (rq_timeout_minutes req))]) in
  match origin_actor (rq_origin req) with Some a => with_actor a event | None => event end.
Definition audit_enforced (req : EnforceRequest) (vlan : option N) (outcome : AuditOutcome) (error : option rstr)
    : Prog Nac () := n_logged (n_audit (enforced_event req vlan outcome error)).

Definition released_event (a : EnforcementAction) (b : ReleaseBy) (outcome : AuditOutcome) (note : option rstr)
    : AuditEvent :=
  let event := new_event NetworkPortReleased outcome
    |> with_resource (ac_switch_name a ++ #" / " ++ ac_port_label a)
    |> with_metadata (Obj
         [(#"action_id", Str (uuid_to_string (ac_id a))); (#"by", Str (release_key b)); (#"if_index", num (ac_if_index a));
          (#"kind", Str (EnforcementKind.as_str (ac_kind a))); (#"note", json_opt Str note);
          (#"port", Str (ac_port_label a)); (#"switch", Str (ac_switch_name a));
          (#"switch_id", Str (uuid_to_string (ac_switch_id a)))]) in
  match b with ByOperator id username => with_actor (mkActor id username) event | AutoRevert => event end.
Definition audit_released (a : EnforcementAction) (b : ReleaseBy) (outcome : AuditOutcome) (note : option rstr)
    : Prog Nac () := n_logged (n_audit (released_event a b outcome note)).

(** The VLAN of a quarantine. *)
Definition quarantine_vlan (req : EnforceRequest) : Prog Nac (result EnforceError (option N)) :=
  match rq_kind req with
  | Quarantine =>
      vlan ← settings_u32 PANOPTICON_QUARANTINE_VLAN PANOPTICON_QUARANTINE_VLAN_DEFAULT;
      Ret (if (vlan =? 0)%N then Err QuarantineVlanUnset else Ok (Some vlan))
  | Disable => Ret (Ok None)
  end.

Definition expiry (req : EnforceRequest) : Prog Nac (option N) :=
  if (0 <? rq_timeout_minutes req)%N then
    at_ ← now; Ret (Some (at_ + rq_timeout_minutes req * MINUTE)%N)
  else Ret None.

(** The write, with the snapshots of the status and of the VLAN. *)
Definition write_port (key : Cipher) (req : EnforceRequest) (vlan : option N)
    : Prog Nac (result SnmpPollError (option Z * option Z)) :=
  match rq_kind req with
  | Disable =>
      original ←? on_net (enforce_disable_port (rq_switch req) key (rq_if_index req));
      Ret (Ok (Some original, None))
  | Quarantine =>
      original ←? on_net (enforce_quarantine_port (rq_switch req) key (rq_if_index req) (default 0%N vlan));
      Ret (Ok (None, Some original))
  end.

Definition new_action (req : EnforceRequest) (st : EnforcementState) (admin pvid : option Z) (vlan expires_at : option N)
    (error : option rstr) : NewAction :=
  mkNewAction (sw_id (rq_switch req)) (sw_name (rq_switch req)) (rq_if_index req) (rq_port_label req) (rq_kind req) st
    admin pvid (Z.of_N <$> vlan) (rq_reason req) (created_by (rq_origin req)) (created_by_username (rq_origin req))
    expires_at error.

(** The write to the switch, then its record. *)
Definition write_and_record (id : Uuid) (key : Cipher) (req : EnforceRequest) (vlan expires_at : option N)
    : Prog Nac (result EnforceError Uuid) :=
  written ← write_port key req vlan;
  match written with
  | Ok (admin, pvid) =>
      id ←? db_err (create_action id (new_action req Active admin pvid vlan expires_at None));
      _ ← audit_enforced req vlan Success None;
      Ret (Ok id)
  | Err e =>
      let msg := snmp_error_text e in
      _ ← n_logged (create_action id (new_action req ApplyFailed None None vlan None (Some msg)));
      _ ← audit_enforced req vlan Failure (Some msg);
      Ret (Err (EnforceSnmp msg))
  end.

(** [apply]; [id] is the identifier drawn for the row. *)
Definition apply_action (id : Uuid) (key : option Cipher) (req : EnforceRequest) : Prog Nac (result EnforceError Uuid) :=
  enabled ← settings_bool PANOPTICON_ENFORCEMENT_ENABLED;
  if negb enabled then Ret (Err GloballyDisabled)
  else if negb (sw_enforcement_enabled (rq_switch req)) then Ret (Err SwitchNotOptedIn)
  else
    match key with
    | None => Ret (Err NoEncryptionKey)
    | Some key =>
        existing ←? db_err (n_select (λ s, find_in_effect_for_port s (sw_id (rq_switch req)) (rq_if_index req)));
        if bool_decide (is_Some existing) then Ret (Err AlreadyEnforced)
        else
          vlan ←? quarantine_vlan req;
          expires_at ← expiry req;
          write_and_record id key req vlan expires_at
    end.

(** [action.quarantine_vlan.unwrap_or(0).max(0) as u32]. *)
Definition revert_vlan (a : EnforcementAction) : N := (Z.to_N (Z.max (default 0%Z (ac_quarantine_vlan a)) 0) mod 2 ^ 32)%N.
Definition revert_port (sw : PanopticonSwitch) (key : Cipher) (a : EnforcementAction) : Prog Nac (result SnmpPollError ()) :=
  on_net (match ac_kind a with
          | Disable => revert_disable_port sw key (ac_if_index a) (ac_original_admin_status a)
          | Quarantine => revert_quarantine_port sw key (ac_if_index a) (ac_original_pvid a) (revert_vlan a)
          end).

Definition release_action (key : option Cipher) (a : EnforcementAction) (b : ReleaseBy) : Prog Nac (result EnforceError ()) :=
  match key with
  | None =>
      _ ← n_logged (mark_reverted (ac_id a) RevertFailed
            (Some #"ENCRYPTION_KEY isn't configured; cannot reach the switch to revert"));
      Ret (Err NoEncryptionKey)
  | Some key =>
      found ←? db_err (n_select (λ s, switches s !! ac_switch_id a));
      match found with
      | None =>
          _ ← n_logged (mark_reverted (ac_id a) Reverted (Some #"switch no longer exists; nothing to revert on it"));
          _ ← audit_released a b Success (Some #"switch removed");
          Ret (Ok ())
      | Some sw =>
          reverted ← revert_port sw key a;
          match reverted with
          | Ok _ =>
              ? db_err (mark_reverted (ac_id a) Reverted None);
              _ ← audit_released a b Success None;
              Ret (Ok ())
          | Err e =>
              let msg := snmp_error_text e in
              _ ← n_logged (mark_reverted (ac_id a) RevertFailed (Some msg));
              _ ← audit_released a b Failure (Some msg);
              Ret (Err (EnforceSnmp msg))
          end
      end
  end.

(** One turn of [spawn_panopticon_enforcement_revert]. *)
Fixpoint release_all (key : option Cipher) (l : list EnforcementAction) : Prog Nac () :=
  match l with
  | [] => Ret ()
  | a :: l => _ ← release_action key a AutoRevert; release_all key l
  end.
Definition revert_sweep (key : option Cipher) : Prog Nac () :=
  at_ ← now;
  found ← n_select (λ s, list_due_for_revert s at_);
  match found with Ok l => release_all key l | Err _ => Ret () end.

(** ** The handlers of [routes/panopticon.rs] *)

Implicit Types (jar : CookieJar) (ctx : AuthContext).
Abbreviation NacHandler := (Prog Nac (result AppError rstr)).

Definition n_internal {A} (m : Prog Nac (result DbError A)) : Prog Nac (result AppError A) :=
  r ← m; Ret (match r with Ok x => Ok x | Err e => Err (Internal e) end).
Definition nac_gate jar ctx (csrf_token : rstr) (k : NacHandler) : NacHandler :=
  ? Ret (ensure ctx NetworkNac);
  ? Ret (require_csrf jar csrf_token);
  k.

Definition set_enforcement_enabled (id : Uuid) (flag : bool) : Prog Nac (result DbError ()) :=
  n_change (set_switches (alter (λ sw,
    mkSwitch (sw_id sw) (sw_name sw) (sw_ip_address sw) (sw_snmp_port sw) (sw_snmp_version sw)
      (sw_community_encrypted sw) (sw_v3_username sw) (sw_v3_security_level sw) (sw_v3_auth_protocol sw)
      (sw_v3_auth_password_encrypted sw) (sw_v3_priv_protocol sw) (sw_v3_priv_password_encrypted sw) flag) id)).

Definition the_switch (id : Uuid) : Prog Nac (result AppError PanopticonSwitch) :=
  sw ←? n_internal (n_select (λ s, switches s !! id));
  Ret (ok_or sw NotFound).

Definition switch_set_enforcement_enabled jar ctx (id : Uuid) (csrf_token : rstr) (flag : bool) : NacHandler :=
  nac_gate jar ctx csrf_token (
    ? the_switch id;
    ? n_internal (set_enforcement_enabled id flag);
    Ret (Ok #"/arsenals/panopticon/switches")).

(** [repo::panopticon_traffic::list_ports]. *)
Definition list_ports (s : Nac) (switch_id : Uuid) : list SwitchPort :=
  order_by (λ p q, (sp_if_index p <=? sp_if_index q)%N)
    (List.filter (λ p, (sp_switch_id p =? switch_id)%N) (switch_ports s)).
Definition port_label_for (switch_id : Uuid) (if_index : N) : Prog Nac rstr :=
  r ← n_select (λ s, list_ports s switch_id);
  let label := match r with
               | Ok ports => List.find (λ p, (sp_if_index p =? if_index)%N) ports ≫= sp_if_descr
               | Err _ => None
               end in
  Ret (default (#"if" ++ fmt_N if_index) label).

Record EnforceApplyForm := mkEnforceApplyForm {
  ea_csrf_token : rstr; ea_if_index : N; ea_kind : rstr; ea_reason : rstr; ea_timeout_minutes : N }.

Definition enforce_apply jar ctx (id : Uuid) (action_id : Uuid) (key : option Cipher) (form : EnforceApplyForm) : NacHandler :=
  nac_gate jar ctx (ea_csrf_token form) (
    kind ←? Ret (ok_or (EnforcementKind.from_str (ea_kind form)) (Validation #"Unknown enforcement action."));
    sw ←? the_switch id;
    port_label ← port_label_for id (ea_if_index form);
    let reason := trim (ea_reason form) in
    applied ← apply_action action_id key (mkEnforceRequest sw (ea_if_index form) port_label kind
      (if is_empty reason then None else Some reason) (ea_timeout_minutes form)
      (Operator ctx.(user).(uid) ctx.(user).(username)));
    Ret (match applied with
         | Ok _ => Ok (#"/arsenals/panopticon/switches/" ++ uuid_to_string id ++ #"/traffic")
         | Err e => Err (Validation (enforce_error_text e))
         end)).

Record EnforceActionForm := mkEnforceActionForm { ef_csrf_token : rstr; ef_action_id : Uuid; ef_return_to : rstr }.
Definition the_action (id : Uuid) : Prog Nac (result AppError EnforcementAction) :=
  a ←? n_internal (n_select (λ s, find_action s id));
  Ret (ok_or a NotFound).

Definition enforce_release jar ctx (key : option Cipher) (form : EnforceActionForm) : NacHandler :=
  nac_gate jar ctx (ef_csrf_token form) (
    a ←? the_action (ef_action_id form);
    released ← release_action key a (ByOperator ctx.(user).(uid) ctx.(user).(username));
    Ret (match released with
         | Ok _ => Ok (safe_return_to (ef_return_to form) #"/arsenals/panopticon/enforcement")
         | Err e => Err (Validation (enforce_error_text e))
         end)).

Definition enforce_make_permanent jar ctx (form : EnforceActionForm) : NacHandler :=
  nac_gate jar ctx (ef_csrf_token form) (
    ? the_action (ef_action_id form);
    ? n_internal (make_permanent (ef_action_id form));
    Ret (Ok (safe_return_to (ef_return_to form) #"/arsenals/panopticon/enforcement"))).
End enforcement.
