(* ===== verification/NacPolicy.v ===== *)
(** * Enforcement by rule ([web/src/panopticon_policy.rs])

    A sweep looks at every device whose port is known, takes the first enabled
    rule that matches it and, when armed, applies that rule's action through
    [apply_action].  With it come the repository [panopticon_policy.rs], the types
    of [core/src/policy.rs] and the handlers that edit the rules. *)

From stdpp Require Import sorting.
From S2P Require Import Prelude Permission Json AuditLog RoleStore Web Delegation.
From S2P Require Import Auth Users Login Steps Aat Snmp Nac.
Import AuditAction (ConfigurationChanged).

(** ** Keys *)

Inductive PolicyMode : Set := PolicyOff | Simulate | Armed.
#[export] Instance PolicyMode_eq_dec : EqDecision PolicyMode.
Proof. solve_decision. Defined.
#[export] Instance PolicyTrigger_eq_dec : EqDecision PolicyTrigger.
Proof. solve_decision. Defined.

Module PolicyMode.
Definition as_str (m : PolicyMode) : rstr :=
  match m with PolicyOff => #"off" | Simulate => #"simulate" | Armed => #"active" end.
Definition from_str (s : rstr) : option PolicyMode :=
  if str_eqb s #"off" then Some PolicyOff
  else if str_eqb s #"simulate" then Some Simulate
  else if str_eqb s #"active" then Some Armed
  else None.
End PolicyMode.

Module PolicyTrigger.
Definition from_str (s : rstr) : option PolicyTrigger :=
  if str_eqb s #"untrusted" then Some OnUntrusted
  else if str_eqb s #"new_unknown" then Some OnNewUnknown
  else None.
End PolicyTrigger.

Module DeviceType.
Definition as_str (d : DeviceType) : rstr :=
  match d with
  | DeviceUnknown => #"unknown" | Workstation => #"workstation" | ServerDevice => #"server"
  | Printer => #"printer" | NetworkInfrastructure => #"network_infrastructure" | Iot => #"iot"
  | Phone => #"phone" | OtherDevice => #"other"
  end.
Definition ALL : list DeviceType :=
  [DeviceUnknown; Workstation; ServerDevice; Printer; NetworkInfrastructure; Iot; Phone; OtherDevice].
Definition from_str (s : rstr) : option DeviceType := List.find (λ d, str_eqb s (as_str d)) ALL.
End DeviceType.

Definition PANOPTICON_AUTO_ENFORCE_MODE : rstr := #"panopticon.auto_enforce_mode".
Definition PANOPTICON_AUTO_ENFORCE_NEW_WINDOW_MINUTES : rstr := #"panopticon.auto_enforce_new_window_minutes".
Definition PANOPTICON_AUTO_ENFORCE_NEW_WINDOW_MINUTES_DEFAULT : N := 60.
Definition PANOPTICON_AUTO_ENFORCE_COOLDOWN_MINUTES : rstr := #"panopticon.auto_enforce_cooldown_minutes".
Definition PANOPTICON_AUTO_ENFORCE_COOLDOWN_MINUTES_DEFAULT : N := 60.
Definition PANOPTICON_ENFORCEMENT_REVERT_MINUTES : rstr := #"panopticon.enforcement_revert_minutes".
Definition PANOPTICON_ENFORCEMENT_REVERT_MINUTES_DEFAULT : N := 30.
Definition STALE_THRESHOLD_HOURS : N := 24.

(** ** Matching *)

Definition trigger_matches (r : PolicyRule) (d : NetworkDevice) (is_new : bool) : bool :=
  match ru_trigger r with
  | OnUntrusted => bool_decide (dv_trust_state d = Untrusted)
  | OnNewUnknown => bool_decide (dv_trust_state d = TrustUnknown) && is_new
  end.
Definition scope_matches (r : PolicyRule) (d : NetworkDevice) : bool :=
  match ru_subnet r with Some subnet => bool_decide (dv_network d = Some subnet) | None => true end
  && match ru_switch_id r with Some id => bool_decide (dv_switch_id d = Some id) | None => true end
  && match ru_device_type r with Some t => bool_decide (dv_device_type d = t) | None => true end.
Definition rule_matches (r : PolicyRule) (d : NetworkDevice) (is_new : bool) : bool :=
  trigger_matches r d is_new && scope_matches r d.
Definition first_match (l : list PolicyRule) (d : NetworkDevice) (is_new : bool) : option PolicyRule :=
  List.find (λ r, rule_matches r d is_new) l.

(** ** [repo::panopticon_policy] *)

Section policy.
Context `{!SnmpLink, !SqlOrder, !SqlEngine, !Text}.
Implicit Types (s : Nac).

Definition rule_rows s : list PolicyRule := (map_to_list (rules s)).*2.
(** [ORDER BY priority ASC, created_at ASC]. *)
Definition rule_leb (a b : PolicyRule) : bool :=
  (ru_priority a <? ru_priority b)%Z
  || ((ru_priority a =? ru_priority b)%Z && (ru_created_at a <=? ru_created_at b)%N).
Definition list_rules s : list PolicyRule := order_by rule_leb (rule_rows s).
Definition list_enabled s : list PolicyRule := order_by rule_leb (List.filter ru_enabled (rule_rows s)).

Record NewRule := mkNewRule {
  nr_name : rstr; nr_trigger : PolicyTrigger; nr_action : EnforcementKind; nr_subnet : option rstr;
  nr_switch_id : option Uuid; nr_device_type : option DeviceType; nr_timeout_minutes : option N;
  nr_created_by : option Uuid }.

(** [COALESCE(MAX(priority), 0) + 1], which is then a separate statement's value. *)
Definition next_priority s : Z :=
  1 + match ru_priority <$> rule_rows s with [] => 0 | p :: ps => foldr Z.max p ps end.
Definition rule_refs_ok (n : NewRule) s : bool :=
  match nr_switch_id n with Some id => bool_decide (is_Some (switches s !! id)) | None => true end
  && match nr_created_by n with Some u => bool_decide (is_Some (users (db (n_site s)) !! u)) | None => true end.
Definition insert_rule (id : Uuid) (priority : Z) (n : NewRule) : Prog Nac (result DbError ()) := n_stmt (λ s,
  if bool_decide (is_Some (rules s !! id)) then Err DuplicateKey
  else if negb (rule_refs_ok n s) then Err ForeignKeyViolation
  else Ok ((), set_rules <[id := mkRule id priority (nr_name n) true (nr_trigger n) (nr_action n) (nr_subnet n)
                                   (nr_switch_id n) (nr_device_type n) (nr_timeout_minutes n) (nr_created_by n)
                                   (n_clock s)]> s)).
Definition create_rule (id : Uuid) (n : NewRule) : Prog Nac (result DbError Uuid) :=
  priority ←? n_select next_priority;
  ? insert_rule id priority n;
  Ret (Ok id).

Definition with_priority (p : Z) (r : PolicyRule) : PolicyRule :=
  mkRule (ru_id r) p (ru_name r) (ru_enabled r) (ru_trigger r) (ru_action r) (ru_subnet r) (ru_switch_id r)
    (ru_device_type r) (ru_timeout_minutes r) (ru_created_by r) (ru_created_at r).
Definition with_enabled (b : bool) (r : PolicyRule) : PolicyRule :=
  mkRule (ru_id r) (ru_priority r) (ru_name r) b (ru_trigger r) (ru_action r) (ru_subnet r) (ru_switch_id r)
    (ru_device_type r) (ru_timeout_minutes r) (ru_created_by r) (ru_created_at r).
Definition set_rule_enabled (id : Uuid) (b : bool) : Prog Nac (result DbError ()) :=
  n_change (set_rules (alter (with_enabled b) id)).
Definition delete_rule (id : Uuid) : Prog Nac (result DbError ()) := n_change (set_rules (base.delete id)).

(** The rule next to [this] in the order of evaluation. *)
Definition neighbor (move_up : bool) (this : PolicyRule) s : option PolicyRule :=
  if move_up then
    head (order_by (λ a b, (ru_priority b <=? ru_priority a)%Z)
      (List.filter (λ r, (ru_priority r <? ru_priority this)%Z) (rule_rows s)))
  else
    head (order_by (λ a b, (ru_priority a <=? ru_priority b)%Z)
      (List.filter (λ r, (ru_priority this <? ru_priority r)%Z) (rule_rows s))).
(** [reorder] is one transaction. *)
Definition swap_priorities (id : Uuid) (move_up : bool) (s : Nac) : Nac :=
  match rules s !! id with
  | None => s
  | Some this =>
      match neighbor move_up this s with
      | None => s
      | Some n =>
          set_rules (λ rs, alter (with_priority (ru_priority this)) (ru_id n)
                             (alter (with_priority (ru_priority n)) (ru_id this) rs)) s
      end
  end.
Definition reorder (id : Uuid) (move_up : bool) : Prog Nac (result DbError ()) := n_change (swap_priorities id move_up).

(** [repo::panopticon_switches::delete], which clears the switch of the rules
    that name it. *)
Definition clear_switch (id : Uuid) (r : PolicyRule) : PolicyRule :=
  mkRule (ru_id r) (ru_priority r) (ru_name r) (ru_enabled r) (ru_trigger r) (ru_action r) (ru_subnet r)
    (if bool_decide (ru_switch_id r = Some id) then None else ru_switch_id r)
    (ru_device_type r) (ru_timeout_minutes r) (ru_created_by r) (ru_created_at r).
Definition delete_switch (id : Uuid) : Prog Nac (result DbError ()) :=
  n_change (set_switches (base.delete id) ∘ set_rules (fmap (clear_switch id))).

(** ** The sweep *)

(** [repo::network_devices::list_located] and
    [repo::panopticon_traffic::find_if_index_by_label]. *)
Definition HOUR : N := 60 * MINUTE.
Definition list_located s (at_ : N) : list NetworkDevice :=
  order_by (λ a b, inet6_leb (dv_ip_address a) (dv_ip_address b))
    (List.filter (λ d, bool_decide (is_Some (dv_switch_id d)) && bool_decide (is_Some (dv_switch_port d))
                       && (at_ - STALE_THRESHOLD_HOURS * HOUR <=? dv_last_seen_at d)%N) (devices s)).
Definition find_if_index_by_label s (switch_id : Uuid) (label : rstr) : option N :=
  match List.find (λ p, (sp_switch_id p =? switch_id)%N
                        && match sp_if_descr p with Some d => name_eqb d label | None => false end) (switch_ports s) with
  | Some p => Some (sp_if_index p)
  | None => strip_prefix label #"if" ≫= parse_unsigned (2 ^ 32 - 1)
  end.

(** What a pass reads before it looks at the devices. *)
Record Pass := mkPass {
  ps_mode : PolicyMode; ps_global : bool; ps_default_timeout : N; ps_new_cutoff : N; ps_cooldown_since : N }.

Definition policy_request (p : Pass) (r : PolicyRule) (sw : PanopticonSwitch) (if_index : N) (port_label : rstr)
    : EnforceRequest :=
  mkEnforceRequest sw if_index port_label (ru_action r)
    (Some (#"Auto-enforced by policy rule " ++ [34%N] ++ ru_name r ++ [34%N]))
    (default (ps_default_timeout p) (ru_timeout_minutes r)) (Policy (ru_name r)).

Definition act_on_match (p : Pass) (key : option Cipher) (id : Uuid) (r : PolicyRule) (switch_id : Uuid)
    (port_label : rstr) : Prog Nac (result DbError ()) :=
  found ←? n_select (λ s, switches s !! switch_id);
  match found with
  | None => Ret (Ok ())
  | Some sw =>
      located ←? n_select (λ s, find_if_index_by_label s switch_id port_label);
      match located with
      | None => Ret (Ok ())
      | Some if_index =>
          existing ←? n_select (λ s, find_in_effect_for_port s switch_id if_index);
          if bool_decide (is_Some existing) then Ret (Ok ())
          else
            recent ←? n_select (λ s, has_recent_action_for_port s switch_id if_index (ps_cooldown_since p));
            if (recent : bool) then Ret (Ok ())
            else if bool_decide (ps_mode p = Simulate) then Ret (Ok ())
            else if negb (ps_global p) || negb (sw_enforcement_enabled sw) then Ret (Ok ())
            else
              _ ← apply_action id key (policy_request p r sw if_index port_label);
              Ret (Ok ())
      end
  end.

(** [ids] are the identifiers drawn, one for each device. *)
Fixpoint policy_loop (p : Pass) (key : option Cipher) (enabled : list PolicyRule) (ids : nat → Uuid) (l : list NetworkDevice)
    : Prog Nac () :=
  match l with
  | [] => Ret ()
  | d :: l =>
      _ ← match first_match enabled d (ps_new_cutoff p <=? dv_first_seen_at d)%N, dv_switch_id d, dv_switch_port d with
          | Some r, Some switch_id, Some port_label => n_logged (act_on_match p key (ids 0) r switch_id port_label)
          | _, _, _ => Ret ()
          end;
      policy_loop p key enabled (λ n, ids (S n)) l
  end.

Definition policy_mode : Prog Nac PolicyMode :=
  r ← n_select (λ s, get_string (n_site s) PANOPTICON_AUTO_ENFORCE_MODE #"off");
  Ret (default PolicyOff (PolicyMode.from_str (match r with Ok t => t | Err _ => [] end))).
Definition read_pass (mode : PolicyMode) : Prog Nac Pass :=
  new_window ← settings_u32 PANOPTICON_AUTO_ENFORCE_NEW_WINDOW_MINUTES PANOPTICON_AUTO_ENFORCE_NEW_WINDOW_MINUTES_DEFAULT;
  cooldown ← settings_u32 PANOPTICON_AUTO_ENFORCE_COOLDOWN_MINUTES PANOPTICON_AUTO_ENFORCE_COOLDOWN_MINUTES_DEFAULT;
  default_timeout ← settings_u32 PANOPTICON_ENFORCEMENT_REVERT_MINUTES PANOPTICON_ENFORCEMENT_REVERT_MINUTES_DEFAULT;
  global ← settings_bool PANOPTICON_ENFORCEMENT_ENABLED;
  at_ ← now;
  Ret (mkPass mode global default_timeout (at_ - new_window * MINUTE)%N (at_ - cooldown * MINUTE)%N).

Definition run_policy_sweep (key : option Cipher) (ids : nat → Uuid) : Prog Nac (result DbError ()) :=
  mode ← policy_mode;
  if bool_decide (mode = PolicyOff) then Ret (Ok ())
  else
    enabled ←? n_select list_enabled;
    match enabled with
    | [] => Ret (Ok ())
    | _ =>
        p ← read_pass mode;
        at_ ← now;
        located ←? n_select (λ s, list_located s at_);
        _ ← policy_loop p key enabled ids located;
        Ret (Ok ())
    end.

(** ** The handlers *)

Implicit Types (jar : CookieJar) (ctx : AuthContext).

Record PolicyModeForm := mkPolicyModeForm {
  pm_csrf_token : rstr; pm_mode : rstr; pm_new_window_minutes : N; pm_cooldown_minutes : N }.
Definition policy_set_mode jar ctx (form : PolicyModeForm) : Prog Nac (result AppError rstr) :=
  nac_gate jar ctx (pm_csrf_token form) (
    mode ←? Ret (ok_or (PolicyMode.from_str (pm_mode form)) (Validation #"Unknown policy mode."));
    ? n_internal (n_set_setting PANOPTICON_AUTO_ENFORCE_MODE (Str (PolicyMode.as_str mode)));
    ? n_internal (n_set_setting PANOPTICON_AUTO_ENFORCE_NEW_WINDOW_MINUTES (num (pm_new_window_minutes form)));
    ? n_internal (n_set_setting PANOPTICON_AUTO_ENFORCE_COOLDOWN_MINUTES (num (pm_cooldown_minutes form)));
    ? n_internal (n_audit (new_event ConfigurationChanged Success |> with_actor (actor_of ctx)
        |> with_resource PANOPTICON_AUTO_ENFORCE_MODE
        |> with_metadata (Obj [(#"cooldown_minutes", num (pm_cooldown_minutes form));
                               (#"mode", Str (PolicyMode.as_str mode));
                               (#"new_window_minutes", num (pm_new_window_minutes form))])));
    Ret (Ok #"/arsenals/panopticon/policy")).

Record PolicyRuleForm := mkPolicyRuleForm {
  pr_csrf_token : rstr; pr_name : rstr; pr_trigger : rstr; pr_action : rstr; pr_subnet : rstr; pr_switch_id : rstr;
  pr_device_type : rstr; pr_timeout_minutes : rstr }.
(** A field that is empty for "any", or parsed. *)
Definition optional {A} (field : rstr) (parse : rstr → option A) (msg : rstr) : result AppError (option A) :=
  let t := trim field in
  if is_empty t then Ok None else Some <$> ok_or (parse t) (Validation msg).
Definition policy_create_rule jar ctx (id : Uuid) (form : PolicyRuleForm) : Prog Nac (result AppError rstr) :=
  nac_gate jar ctx (pr_csrf_token form) (
    let name := trim (pr_name form) in
    if is_empty name then Ret (Err (Validation #"A rule name is required."))
    else
      trigger ←? Ret (ok_or (PolicyTrigger.from_str (pr_trigger form)) (Validation #"Unknown trigger."));
      action ←? Ret (ok_or (EnforcementKind.from_str (pr_action form)) (Validation #"Unknown action."));
      let subnet := trim (pr_subnet form) in
      switch_id ←? Ret (optional (pr_switch_id form) uuid_parse #"Invalid switch.");
      device_type ←? Ret (optional (pr_device_type form) DeviceType.from_str #"Invalid device type.");
      timeout ←? Ret (optional (pr_timeout_minutes form) (parse_unsigned (2 ^ 32 - 1)) #"Timeout must be a whole number.");
      ? n_internal (create_rule id (mkNewRule name trigger action (if is_empty subnet then None else Some subnet)
          switch_id device_type timeout (Some ctx.(user).(uid))));
      Ret (Ok #"/arsenals/panopticon/policy")).
Definition policy_rule_set_enabled jar ctx (id : Uuid) (csrf_token : rstr) (flag : bool) : Prog Nac (result AppError rstr) :=
  nac_gate jar ctx csrf_token (? n_internal (set_rule_enabled id flag); Ret (Ok #"/arsenals/panopticon/policy")).
Definition policy_rule_reorder jar ctx (id : Uuid) (csrf_token direction : rstr) : Prog Nac (result AppError rstr) :=
  nac_gate jar ctx csrf_token (
    move_up ←? Ret (if str_eqb direction #"up" then Ok true
                    else if str_eqb direction #"down" then Ok false
                    else Err (Validation #"Invalid direction."));
    ? n_internal (reorder id move_up);
    Ret (Ok #"/arsenals/panopticon/policy")).
Definition policy_rule_delete jar ctx (id : Uuid) (csrf_token : rstr) : Prog Nac (result AppError rstr) :=
  nac_gate jar ctx csrf_token (? n_internal (delete_rule id); Ret (Ok #"/arsenals/panopticon/policy")).
End policy.
