(* ===== verification/NacLogic.v ===== *)
(** * Reasoning about the programs of [Nac] and [NacPolicy]

    What a statement may change, what a program of exchanges does to the state,
    and the requests as one type. *)

From stdpp Require Import sorting.
From S2P Require Import Prelude Permission Json AuditLog RoleStore Web Delegation.
From S2P Require Import Auth Users Login Steps Aat Snmp SnmpTheorems Nac NacPolicy.

(** ** Every request *)

Inductive NacRequest : Type :=
| SetOptIn (jar : CookieJar) (ctx : AuthContext) (id : Uuid) (csrf : rstr) (flag : bool)
| EnforceApply (jar : CookieJar) (ctx : AuthContext) (id action_id : Uuid) (form : EnforceApplyForm)
| EnforceRelease (jar : CookieJar) (ctx : AuthContext) (form : EnforceActionForm)
| MakePermanent (jar : CookieJar) (ctx : AuthContext) (form : EnforceActionForm)
| SetPolicyMode (jar : CookieJar) (ctx : AuthContext) (form : PolicyModeForm)
| CreatePolicyRule (jar : CookieJar) (ctx : AuthContext) (id : Uuid) (form : PolicyRuleForm)
| SetRuleEnabled (jar : CookieJar) (ctx : AuthContext) (id : Uuid) (csrf : rstr) (flag : bool)
| ReorderRule (jar : CookieJar) (ctx : AuthContext) (id : Uuid) (csrf direction : rstr)
| DeleteRule (jar : CookieJar) (ctx : AuthContext) (id : Uuid) (csrf : rstr)
| RevertSweep
| PolicySweep (ids : nat → Uuid).

Definition answered {S E A} (p : Prog S (result E A)) : Prog S (option A) :=
  r ← p; Ret (match r with Ok x => Some x | Err _ => None end).

Definition handle_nac `{!SnmpLink, !SqlOrder, !SqlEngine, !Text} (sql_text : DbError → rstr) (key : option Cipher)
    (r : NacRequest) : Prog Nac (option rstr) :=
  match r with
  | SetOptIn jar ctx id csrf flag => answered (switch_set_enforcement_enabled jar ctx id csrf flag)
  | EnforceApply jar ctx id action_id form => answered (enforce_apply sql_text jar ctx id action_id key form)
  | EnforceRelease jar ctx form => answered (enforce_release sql_text jar ctx key form)
  | MakePermanent jar ctx form => answered (enforce_make_permanent jar ctx form)
  | SetPolicyMode jar ctx form => answered (policy_set_mode jar ctx form)
  | CreatePolicyRule jar ctx id form => answered (policy_create_rule jar ctx id form)
  | SetRuleEnabled jar ctx id csrf flag => answered (policy_rule_set_enabled jar ctx id csrf flag)
  | ReorderRule jar ctx id csrf direction => answered (policy_rule_reorder jar ctx id csrf direction)
  | DeleteRule jar ctx id csrf => answered (policy_rule_delete jar ctx id csrf)
  | RevertSweep => _ ← revert_sweep key; Ret None
  | PolicySweep ids => _ ← run_policy_sweep key ids; Ret None
  end.

Section logic.
Context `{Hlink : !SnmpLink}.
Implicit Types (s : Nac).

Lemma run_on_net {A} (p : Prog Net A) s :
  run (on_net p) s = ((run p (net s)).1, set_net (run p (net s)).2 s).
Proof.
  revert s. induction p as [a|X f k IH]; intros s; cbn.
  - by destruct s.
  - destruct (f (net s)) as [x n]. rewrite IH. by destruct s.
Qed.

(** *** Relations that statements keep *)

(** A relation that looks neither at the schedule of outages nor at the fields a
    statement of the given kind changes. *)
Class Quiet (R : Nac → Nac → Prop) := {
  quiet_refl :: Reflexive R;
  quiet_trans :: Transitive R;
  quiet_tick s : R s (tick s) }.

Lemma keeps_n_stmt {A} R `{!Quiet R} (f : Nac → result DbError (A * Nac)) :
  (∀ s x s', f s = Ok (x, s') → R s s') → keeps R (n_stmt f).
Proof.
  intros Hf. apply keeps_act. intros s. destruct (outages s 0); [apply quiet_tick|].
  destruct (f (tick s)) as [[x s']|e] eqn:E; cbn; [|apply quiet_tick].
  etrans; [apply quiet_tick|]. by eapply Hf.
Qed.
Lemma keeps_n_select {A} R `{!Quiet R} (f : Nac → A) : keeps R (n_select f).
Proof. apply (keeps_n_stmt R). by intros s x s' [= _ <-]. Qed.
Lemma keeps_n_change R `{!Quiet R} f : (∀ s, R s (f s)) → keeps R (n_change f).
Proof. intros Hf. apply (keeps_n_stmt R). by intros s x s' [= _ <-]. Qed.
Lemma keeps_n_audit R `{!Quiet R} e : (∀ s d, R s (set_n_site (with_db d) s)) → keeps R (n_audit e).
Proof.
  intros Hf. apply (keeps_n_stmt R). intros s x s'. destruct (audit e _) as [[? d]|]; [|done].
  intros [= _ <-]. apply Hf.
Qed.
Lemma keeps_now R `{!Quiet R} : keeps R now.
Proof. apply keeps_act. intros s. cbn. reflexivity. Qed.
Lemma keeps_on_net {A} R (p : Prog Net A) : (∀ s n, R s (set_net n s)) → keeps R (on_net p).
Proof.
  intros HR. induction p as [a|X f k IH]; cbn; [done|]. intros s. destruct (f (net s)) as [x n]. split; [apply HR|apply IH].
Qed.
Lemma keeps_n_logged {A} R (p : Prog Nac (result DbError A)) : keeps R p → keeps R (n_logged p).
Proof. intros H. apply keeps_bind; [done|]. intros. apply keeps_ret. Qed.
Lemma keeps_settings_bool R `{!Quiet R} key : keeps R (settings_bool key).
Proof. apply keeps_bind; [by apply keeps_n_select|]. intros. apply keeps_ret. Qed.
Lemma keeps_settings_u32 R `{!Quiet R} key d : keeps R (settings_u32 key d).
Proof. apply keeps_bind; [by apply keeps_n_select|]. intros. apply keeps_ret. Qed.
Lemma keeps_n_internal {A} R (p : Prog Nac (result DbError A)) : keeps R p → keeps R (n_internal p).
Proof. intros H. apply keeps_bind; [done|]. intros. apply keeps_ret. Qed.
Lemma keeps_db_err {A} R (p : Prog Nac (result DbError A)) : keeps R p → keeps R (db_err p).
Proof. intros H. apply keeps_bind; [done|]. intros. apply keeps_ret. Qed.
Lemma keeps_answered {E A} R (p : Prog Nac (result E A)) : keeps R p → keeps R (answered p).
Proof. intros H. apply keeps_bind; [done|]. intros. apply keeps_ret. Qed.
End logic.

#[export] Hint Resolve keeps_n_select keeps_now keeps_n_logged keeps_settings_bool keeps_settings_u32
  keeps_n_internal keeps_db_err keeps_answered : keeps.
#[export] Hint Extern 0 (Quiet _) => apply _ : keeps.

(** ** Who may write to a switch, and what is left of it

    The gates hold for every request and for the sweeps: a switch is written to
    only by a permitted operator or an armed rule, while enforcement is on, the
    switch is opted in and the port is free. *)


Section gates.
Context `{Hlink : !SnmpLink, Hord : !SqlOrder, Heng : !SqlEngine, Htext : !Text}.
Implicit Types (s : Nac) (req : EnforceRequest) (key : option Cipher).

(** ** One statement *)

Lemma run_n_stmt {A} (f : Nac → result DbError (A * Nac)) s :
  run (n_stmt f) s =
  if outages s 0 then (Err Unavailable, tick s)
  else match f (tick s) with Ok (x, s') => (Ok x, s') | Err e => (Err e, tick s) end.
Proof. cbn. destruct (outages s 0); [done|]. by destruct (f (tick s)) as [[]|]. Qed.
Lemma run_n_select {A} (f : Nac → A) s :
  run (n_select f) s = (if outages s 0 then Err Unavailable else Ok (f (tick s)), tick s).
Proof. unfold n_select. rewrite run_n_stmt. by destruct (outages s 0). Qed.
Lemma run_settings_bool k s :
  run (settings_bool k) s = (negb (outages s 0) && get_bool (n_site s) k false, tick s).
Proof. unfold settings_bool. rewrite run_bind, run_n_select. by destruct (outages s 0). Qed.
Lemma run_settings_u32 k d s :
  run (settings_u32 k d) s = (if outages s 0 then d else get_u32 (n_site s) k d, tick s).
Proof. unfold settings_u32. rewrite run_bind, run_n_select. by destruct (outages s 0). Qed.
Lemma run_db_err {A} (m : Prog Nac (result DbError A)) s :
  run (db_err m) s = (match (run m s).1 with Ok x => Ok x | Err e => Err (EnforceDb e) end, (run m s).2).
Proof. unfold db_err. rewrite run_bind. by destruct (run m s) as [[]?]. Qed.
Lemma run_n_internal {A} (m : Prog Nac (result DbError A)) s :
  run (n_internal m) s = (match (run m s).1 with Ok x => Ok x | Err e => Err (Internal e) end, (run m s).2).
Proof. unfold n_internal. rewrite run_bind. by destruct (run m s) as [[]?]. Qed.
Lemma run_n_logged {A} (m : Prog Nac (result DbError A)) s : run (n_logged m) s = ((), (run m s).2).
Proof. unfold n_logged. rewrite run_bind. by destruct (run m s). Qed.
Lemma run_answered {E A} (m : Prog Nac (result E A)) s :
  run (answered m) s = (match (run m s).1 with Ok x => Some x | Err _ => None end, (run m s).2).
Proof. unfold answered. rewrite run_bind. by destruct (run m s) as [[]?]. Qed.
Lemma run_now s : run now s = (n_clock s, s).
Proof. done. Qed.

(** ** What a pass leaves alone

    [stable]: the configuration is as before and no recorded action changed. *)
Definition stable s s' : Prop :=
  settings (n_site s') = settings (n_site s) ∧ switches s' = switches s ∧ switch_ports s' = switch_ports s ∧
  devices s' = devices s ∧ rules s' = rules s ∧ n_clock s' = n_clock s ∧ actions s ⊆ actions s'.
#[export] Instance stable_quiet : Quiet stable.
Proof.
  unfold stable. split; [by intros s; split_and!| |by intros s; split_and!].
  intros s1 s2 s3 (?&?&?&?&?&?&?) (?&?&?&?&?&?&?). split_and!; [congruence..|]. by etrans.
Qed.
Lemma stable_net s n : stable s (set_net n s).
Proof. unfold stable. by split_and!. Qed.
Lemma stable_audit e : keeps stable (n_audit e).
Proof. apply (keeps_n_audit stable). unfold stable. by intros [] d; split_and!. Qed.
Lemma stable_create id n : keeps stable (create_action id n).
Proof.
  apply (keeps_n_stmt stable). intros s x s'. case_bool_decide as Hn; [done|].
  destruct (match na_created_by n with Some _ => _ | None => _ end); [done|]. intros [= _ <-].
  unfold stable. split_and!; [done..|]. cbn. apply insert_subseteq. by apply eq_None_not_Some.
Qed.
Hint Resolve stable_audit stable_create : keeps.

(** Neither the switches nor the recorded actions change. *)
Definition idle s s' : Prop := net s' = net s ∧ actions s' = actions s.
#[export] Instance idle_quiet : Quiet idle.
Proof. split; [done| |done]. intros s1 s2 s3 [] []. split; congruence. Qed.
Lemma idle_audit e : keeps idle (n_audit e).
Proof. by apply (keeps_n_audit idle). Qed.
Hint Resolve idle_audit : keeps.

(** ** [apply_action] *)

Definition kill_switch s : bool := get_bool (n_site s) PANOPTICON_ENFORCEMENT_ENABLED false.
Definition port_free s (switch_id : Uuid) (i : N) : Prop :=
  ∀ id a, actions s !! id = Some a → of_port switch_id i a = true → is_in_effect (ac_state a) = false.

Lemma find_in_effect_None s switch_id i : find_in_effect_for_port s switch_id i = None ↔ port_free s switch_id i.
Proof.
  unfold find_in_effect_for_port. set (l := List.filter _ _).
  assert (head (order_by newest_first l) = None ↔ l = []) as ->.
  { pose proof (order_by_perm newest_first l) as Hp. split; intros H.
    - destruct (order_by newest_first l); [|done]. by apply Permutation_nil_l in Hp.
    - rewrite H in *. by apply Permutation_nil_r in Hp as ->. }
  unfold l, port_free, action_rows. split.
  - intros Hnil id a Ha Hof. destruct (is_in_effect (ac_state a)) eqn:E; [|done].
    assert (In a []) as []. rewrite <- Hnil. apply filter_In. rewrite Hof, E. split; [|done].
    apply list_elem_of_In, list_elem_of_fmap. exists (id, a). split; [done|]. by apply elem_of_map_to_list.
  - intros Hfree. destruct (List.filter _ _) as [|a l'] eqn:E; [done|].
    assert (In a (a :: l')) as Hin by by left. rewrite <- E in Hin. apply filter_In in Hin as [Hin Hb].
    apply list_elem_of_In, list_elem_of_fmap in Hin as ((id & a') & -> & Hin). apply elem_of_map_to_list in Hin.
    apply andb_true_iff in Hb as [H1 H2]. cbn in *. rewrite (Hfree id a') in H2; done.
Qed.

(** What must hold for a write on behalf of [req]. *)
Record gates_open s key req : Prop := {
  gate_kill : kill_switch s = true;
  gate_opt_in : sw_enforcement_enabled (rq_switch req) = true;
  gate_key : is_Some key;
  gate_free : port_free s (sw_id (rq_switch req)) (rq_if_index req);
  gate_vlan : rq_kind req = Quarantine →
    get_u32 (n_site s) PANOPTICON_QUARANTINE_VLAN PANOPTICON_QUARANTINE_VLAN_DEFAULT ≠ 0%N }.

(** The row a request leads to. *)
Definition row_of s (id : Uuid) req (a : EnforcementAction) : Prop :=
  ac_id a = id ∧ ac_switch_id a = sw_id (rq_switch req) ∧ ac_if_index a = rq_if_index req ∧ ac_kind a = rq_kind req ∧
  ac_created_at a = n_clock s ∧ ac_created_by a = created_by (rq_origin req) ∧ ac_reason a = rq_reason req.

(** At most one row is added, under [id]. *)
Definition adds id (P : EnforcementAction → Prop) s s' : Prop :=
  actions s' = actions s ∨ ∃ a, actions s !! id = None ∧ actions s' = <[id := a]> (actions s) ∧ P a.

Lemma create_adds id n s :
  let s' := (run (create_action id n) s).2 in
  net s' = net s ∧ n_clock s' = n_clock s ∧ adds id (λ a, a = action_of id (n_clock s) n) s s'.
Proof.
  unfold create_action. rewrite run_n_stmt. destruct (outages s 0); [split_and!; [done..|by left]|].
  case_bool_decide as Hid; [split_and!; [done..|by left]|].
  destruct (match na_created_by n with Some _ => _ | None => _ end); [split_and!; [done..|by left]|].
  split_and!; [done..|]. right. exists (action_of id (n_clock s) n). split_and!; [|done..].
  by apply eq_None_not_Some.
Qed.

Lemma run_audit_enforced_idle req vlan o e s : idle s (run (audit_enforced req vlan o e) s).2.
Proof. apply (keeps_run idle). unfold audit_enforced. eauto with keeps. Qed.

(** After the gates: the write, the row, the audit record. *)
Lemma write_and_record_adds id (key : Cipher) req vlan expires s :
  let s' := (run (write_and_record id key req vlan expires) s).2 in
  adds id (row_of s id req) s s'.
Proof.
  cbn zeta. unfold write_and_record. rewrite run_bind.
  assert (∃ r n, run (write_port key req vlan) s = (r, set_net n s)) as (r & n & ->).
  { unfold write_port. destruct (rq_kind req); rewrite run_try, run_on_net; destruct (run _ (net s)) as [[] n]; cbn; eauto. }
  assert (∀ st admin pvid vl ex er s', idle (run (create_action id (new_action req st admin pvid vl ex er)) (set_net n s)).2 s' →
            adds id (row_of s id req) s s') as Hadd.
  { intros st admin pvid vl ex er s' [_ Ha].
    destruct (create_adds id (new_action req st admin pvid vl ex er) (set_net n s)) as (_ & _ & Had). unfold adds in *.
    rewrite Ha. destruct Had as [->|(a & H1 & -> & ->)]; [by left|right]. eexists. split_and!; [done..|by split_and!]. }
  destruct r as [[admin pvid]|e].
  - rewrite run_try, run_db_err. destruct (run (create_action _ _) _) as [[x|?] s1] eqn:E; cbn [fst snd].
    + rewrite run_bind. destruct (run (audit_enforced _ _ _ _) s1) as [[] s2] eqn:E2. cbn.
      eapply Hadd. rewrite E. pose proof (run_audit_enforced_idle req vlan Success None s1) as Hi. by rewrite E2 in Hi.
    + eapply Hadd. by rewrite E.
  - rewrite run_bind, run_n_logged. destruct (run (create_action _ _) _) as [x s1] eqn:E. cbn [snd].
    rewrite run_bind. destruct (run (audit_enforced _ _ _ _) s1) as [[] s2] eqn:E2. cbn.
    eapply Hadd. rewrite E. pose proof (run_audit_enforced_idle req vlan Failure (Some (snmp_error_text e)) s1) as Hi.
    by rewrite E2 in Hi.
Qed.

Lemma run_quarantine_vlan req s :
  run (quarantine_vlan req) s =
  match rq_kind req with
  | Disable => (Ok None, s)
  | Quarantine =>
      let vlan := if outages s 0 then PANOPTICON_QUARANTINE_VLAN_DEFAULT
                  else get_u32 (n_site s) PANOPTICON_QUARANTINE_VLAN PANOPTICON_QUARANTINE_VLAN_DEFAULT in
      (if decide (vlan = 0%N) then Err QuarantineVlanUnset else Ok (Some vlan), tick s)
  end.
Proof.
  unfold quarantine_vlan. destruct (rq_kind req); [done|]. rewrite run_bind, run_settings_u32. cbn.
  destruct (N.eqb_spec (if outages s 0 then PANOPTICON_QUARANTINE_VLAN_DEFAULT
    else get_u32 (n_site s) PANOPTICON_QUARANTINE_VLAN PANOPTICON_QUARANTINE_VLAN_DEFAULT) 0); by case_decide.
Qed.

Lemma apply_effect id key req s :
  let s' := (run (apply_action id key req) s).2 in
  idle s s' ∨ (gates_open s key req ∧ adds id (row_of s id req) s s').
Proof.
  cbn zeta. unfold apply_action. rewrite run_bind, run_settings_bool.
  destruct (negb (outages s 0) && _) eqn:Hk; [|by left]. cbn [negb].
  apply andb_true_iff in Hk as [_ Hk].
  destruct (sw_enforcement_enabled (rq_switch req)) eqn:Ho; [|by left]. cbn [negb].
  destruct key as [key|]; [|by left]. rewrite run_try, run_db_err, run_n_select. cbn [fst snd].
  destruct (outages (tick s) 0); [by left|]. case_bool_decide as Hex; [by left|].
  apply eq_None_not_Some in Hex. apply find_in_effect_None in Hex.
  assert (∀ vlan s1, idle s s1 → n_clock s1 = n_clock s →
    adds id (row_of s id req) s (run (expires_at ← expiry req; write_and_record id key req vlan expires_at) s1).2) as Hrest.
  { intros vlan s1 [_ Hi] Hc. rewrite run_bind. assert (∃ ex, run (expiry req) s1 = (ex, s1)) as [ex ->].
    { unfold expiry. destruct (0 <? _)%N; [|by eexists]. rewrite run_bind, run_now. by eexists. }
    pose proof (write_and_record_adds id key req vlan ex s1) as H. cbn zeta in H. unfold adds, row_of in *.
    rewrite Hi, Hc in H. exact H. }
  rewrite run_try, run_quarantine_vlan. destruct (rq_kind req) eqn:Hkind.
  - right. split; [|by apply Hrest]. constructor; try done. congruence.
  - cbn [fst snd]. case_decide as Hv; [by left|]. right. split; [|by apply Hrest].
    constructor; try done. intros _. by destruct (outages (tick (tick s)) 0).
Qed.

Lemma keeps_apply id key req : keeps stable (apply_action id key req).
Proof.
  unfold apply_action, write_and_record, quarantine_vlan, expiry, write_port, audit_enforced.
  walk; try (apply keeps_on_net, stable_net).
Qed.
End gates.
#[export] Hint Resolve keeps_apply stable_audit stable_create idle_audit : keeps.
