(* ===== verification/NacPolicyTheorems.v ===== *)
(** * What the policy sweep and the release of actions do

    The sweep acts only on a located device that an enabled rule matches, by the
    first such rule, on a free port outside the cooldown; releasing an action
    only closes it once the switch confirmed the port's restoration. *)

From stdpp Require Import sorting.
From S2P Require Import Prelude Permission Json AuditLog RoleStore Web Delegation.
From S2P Require Import Auth Users Login Steps Aat Snmp SnmpTheorems Nac NacPolicy NacLogic.

Section policy.
Context `{Hlink : !SnmpLink, Hord : !SqlOrder, Heng : !SqlEngine, Htext : !Text}.
Implicit Types (s : Nac) (req : EnforceRequest) (key : option Cipher).

(** ** The effect of a pass

    Whatever is written or recorded is on behalf of a request in [J]. *)
Record effect (J : EnforceRequest → Prop) s s' : Prop := {
  effect_stable : stable s s';
  effect_net : net s' = net s ∨ ∃ req, J req;
  effect_rows id a : actions s' !! id = Some a → actions s !! id = Some a ∨ ∃ req, J req ∧ row_of s id req a }.

Lemma effect_idle J s s' : stable s s' → idle s s' → effect J s s'.
Proof. intros H [Hn Ha]. constructor; [done|by left|]. rewrite Ha. by left. Qed.

Lemma effect_trans J s s1 s2 : effect J s s1 → effect J s1 s2 → effect J s s2.
Proof.
  intros [H1 N1 R1] [H2 N2 R2]. assert (n_clock s1 = n_clock s) as Hc by apply H1. constructor.
  - by etrans.
  - destruct N2 as [->|]; [|by right]. done.
  - intros id a Ha. destruct (R2 _ _ Ha) as [Ha1|(req & Hj & Hr)]; [by apply R1|right].
    exists req. split; [done|]. unfold row_of in *. by rewrite <- Hc.
Qed.
Lemma effect_weaken (J J' : EnforceRequest → Prop) s s' : (∀ req, J req → J' req) → effect J s s' → effect J' s s'.
Proof.
  intros HJ [H N R]. constructor; [done|naive_solver|]. intros id a Ha. destruct (R _ _ Ha); naive_solver.
Qed.

Lemma apply_effect_of id key req s : effect (λ r, r = req ∧ gates_open s key r) s (run (apply_action id key req) s).2.
Proof.
  assert (stable s (run (apply_action id key req) s).2) as Hs by (apply (keeps_run stable); eauto with keeps).
  destruct (apply_effect id key req s) as [Hi|[Hg Ha]]; [by apply effect_idle|].
  constructor; [done|by right; exists req|]. intros id' a. destruct Ha as [->|(a' & Hn & -> & Hr)]; [by left|].
  intros [[<- <-]|[? ?]]%lookup_insert_Some; [right; by exists req|by left].
Qed.

(** ** One device *)

Definition not_recent s (switch_id : Uuid) (i since : N) : Prop :=
  ∀ id a, actions s !! id = Some a → of_port switch_id i a = true → (ac_created_at a < since)%N.
Lemma port_recent_false s switch_id i since :
  has_recent_action_for_port s switch_id i since = false → not_recent s switch_id i since.
Proof.
  unfold has_recent_action_for_port, action_rows. intros H id a Ha Hof. apply Nat.ltb_ge in H.
  destruct (N.ltb_spec (ac_created_at a) since) as [|Hle]; [done|]. exfalso.
  assert (In a (List.filter (λ a, of_port switch_id i a && (since <=? ac_created_at a)%N) (map_to_list (actions s)).*2)) as Hin.
  { apply filter_In. split; [|rewrite Hof; by apply N.leb_le].
    apply list_elem_of_In, list_elem_of_fmap. exists (id, a). split; [done|]. by apply elem_of_map_to_list. }
  destruct (List.filter _ _); [done|cbn in H; lia].
Qed.

(** The request a pass makes for a device behind [label] on [switch_id]. *)
Record wanted s key (p : Pass) (r : PolicyRule) (switch_id : Uuid) (label : rstr) req : Prop := {
  want_sw_i : ∃ sw i, switches s !! switch_id = Some sw ∧ find_if_index_by_label s switch_id label = Some i ∧
    req = policy_request p r sw i label ∧ port_free s switch_id i ∧ not_recent s switch_id i (ps_cooldown_since p);
  want_armed : ps_mode p ≠ Simulate;
  want_global : ps_global p = true;
  want_gates : gates_open s key req }.

Lemma keeps_act_on_match p key id r switch_id label : keeps stable (act_on_match p key id r switch_id label).
Proof. unfold act_on_match. walk. Qed.
Hint Resolve keeps_act_on_match : keeps.

Lemma act_on_match_effect p key id r switch_id label s :
  effect (wanted s key p r switch_id label) s (run (act_on_match p key id r switch_id label) s).2.
Proof.
  assert (stable s (run (act_on_match p key id r switch_id label) s).2) as Hs by (apply (keeps_run stable); eauto with keeps).
  revert Hs. unfold act_on_match. rewrite run_try, run_n_select.
  destruct (outages s 0); [intros; by apply effect_idle|]. cbn [switches tick].
  destruct (switches s !! switch_id) as [sw|] eqn:Esw; [|intros; by apply effect_idle].
  rewrite run_try, run_n_select. destruct (outages (tick s) 0); [intros; by apply effect_idle|].
  change (find_if_index_by_label (tick (tick s)) switch_id label) with (find_if_index_by_label s switch_id label).
  destruct (find_if_index_by_label s switch_id label) as [i|] eqn:Ei; [|intros; by apply effect_idle].
  rewrite run_try, run_n_select. destruct (outages (tick (tick s)) 0); [intros; by apply effect_idle|].
  case_bool_decide as Hex; [intros; by apply effect_idle|].
  rewrite run_try, run_n_select. destruct (outages (tick (tick (tick s))) 0); [intros; by apply effect_idle|].
  destruct (has_recent_action_for_port _ _ _ _) eqn:Hrec; [intros; by apply effect_idle|].
  case_bool_decide as Hsim; [intros; by apply effect_idle|].
  destruct (negb (ps_global p) || negb (sw_enforcement_enabled sw)) eqn:Hg; [intros; by apply effect_idle|].
  apply orb_false_iff in Hg as [Hg _]. apply negb_false_iff in Hg.
  set (s4 := tick (tick (tick (tick s)))). intros _. rewrite run_bind.
  pose proof (apply_effect_of id key (policy_request p r sw i label) s4) as H.
  destruct (run (apply_action _ _ _) s4) as [res s5]. cbn in *.
  assert (effect (wanted s key p r switch_id label) s4 s5) as [H1 H2 H3].
  { eapply effect_weaken; [|exact H]. intros req [-> Hgo]. constructor; [|done..|by destruct Hgo].
    exists sw, i. split_and!; [done..| |].
    - apply eq_None_not_Some in Hex. by apply find_in_effect_None in Hex.
    - by apply port_recent_false in Hrec. }
  constructor; [|done..]. etrans; [|exact H1]. subst s4. unfold stable. by split_and!.
Qed.

(** ** Every device *)

(** What holds later in the pass held when it began. *)
Lemma port_free_stable s s1 switch_id i : stable s s1 → port_free s1 switch_id i → port_free s switch_id i.
Proof. intros (_&_&_&_&_&_&Ha) H id a Hid. apply (H id). by eapply lookup_weaken. Qed.
Lemma gates_stable s s1 key req : stable s s1 → gates_open s1 key req → gates_open s key req.
Proof.
  intros Hs [H1 H2 H3 H4 H5]. assert (settings (n_site s1) = settings (n_site s)) as Hset by apply Hs.
  constructor; [|done..| |].
  - unfold kill_switch, get_bool in *. by rewrite <- Hset.
  - by eapply port_free_stable.
  - unfold get_u32 in *. by rewrite <- Hset.
Qed.
Lemma wanted_stable s s1 key p r switch_id label req :
  stable s s1 → wanted s1 key p r switch_id label req → wanted s key p r switch_id label req.
Proof.
  intros Hs [(sw & i & H1 & H2 & H3 & H4 & H5) Hm Hg Ho]. constructor; [|done..|by eapply gates_stable].
  pose proof Hs as (_ & Esw & Epo & _ & _ & _ & Ha). exists sw, i. split_and!; [congruence| |done|by eapply port_free_stable|].
  - unfold find_if_index_by_label in *. by rewrite <- Epo.
  - intros id a Hid. apply (H5 id). by eapply lookup_weaken.
Qed.

(** The rules and devices of a pass. *)
Definition for_device s key (p : Pass) (enabled : list PolicyRule) (l : list NetworkDevice) req : Prop :=
  ∃ d r switch_id label, d ∈ l ∧ first_match enabled d (ps_new_cutoff p <=? dv_first_seen_at d)%N = Some r ∧
    dv_switch_id d = Some switch_id ∧ dv_switch_port d = Some label ∧ wanted s key p r switch_id label req.

Lemma policy_loop_effect p key enabled ids l s :
  effect (for_device s key p enabled l) s (run (policy_loop p key enabled ids l) s).2.
Proof.
  revert ids s. induction l as [|d l IH]; intros ids s; [by apply effect_idle|]. cbn [policy_loop]. rewrite run_bind.
  set (m := match first_match _ _ _, dv_switch_id d, dv_switch_port d with Some _, Some _, Some _ => _ | _, _, _ => _ end).
  assert (effect (for_device s key p enabled (d :: l)) s (run m s).2) as H1.
  { subst m. destruct (first_match _ _ _) as [r|] eqn:Er; [|by apply effect_idle].
    destruct (dv_switch_id d) as [switch_id|] eqn:Es; [|by apply effect_idle].
    destruct (dv_switch_port d) as [label|] eqn:El; [|by apply effect_idle].
    rewrite run_n_logged. eapply effect_weaken; [|apply act_on_match_effect].
    intros req Hreq. exists d, r, switch_id, label. split_and!; [apply list_elem_of_here|done..]. }
  destruct (run m s) as [[] s1]. cbn in H1. eapply effect_trans; [exact H1|].
  eapply effect_weaken; [|apply IH]. intros req (d' & r & si & la & Hin & Hf & H2 & H3 & Hw).
  exists d', r, si, la. split_and!; [by apply list_elem_of_further|done..|].
  eapply wanted_stable; [|exact Hw]. apply H1.
Qed.

(** ** The rule that is chosen *)

Lemma rule_leb_total a b : rule_leb a b || rule_leb b a.
Proof.
  unfold rule_leb. destruct (Z.ltb_spec (ru_priority a) (ru_priority b)); [done|].
  destruct (Z.ltb_spec (ru_priority b) (ru_priority a)); [by rewrite orb_true_r|].
  rewrite !(proj2 (Z.eqb_eq _ _)) by lia. cbn.
  destruct (N.leb_spec (ru_created_at a) (ru_created_at b)); [done|]. by rewrite (proj2 (N.leb_le _ _)) by lia.
Qed.
Lemma rule_leb_spec a b :
  rule_leb a b ↔ (ru_priority a < ru_priority b)%Z ∨ (ru_priority a = ru_priority b ∧ (ru_created_at a <= ru_created_at b)%N).
Proof.
  unfold rule_leb. rewrite Is_true_true, orb_true_iff, andb_true_iff, Z.ltb_lt, Z.eqb_eq, N.leb_le. done.
Qed.
Lemma rule_leb_trans a b c : rule_leb a b → rule_leb b c → rule_leb a c.
Proof. rewrite !rule_leb_spec. lia. Qed.

Lemma find_sorted {A} (R : A → A → Prop) f (l : list A) x y :
  StronglySorted R l → List.find f l = Some x → In y l → f y = true → y = x ∨ R x y.
Proof.
  induction 1 as [|z l Hs IH Hz]; cbn; [done|]. destruct (f z) eqn:Ef.
  - intros [= <-] [->|Hin] _; [by left|right]. rewrite List.Forall_forall in Hz. by apply Hz.
  - intros Hf [->|Hin] Hy; [congruence|]. by apply IH.
Qed.

Definition enabled_rule s (r : PolicyRule) : Prop := ru_enabled r = true ∧ ∃ id, rules s !! id = Some r.
Lemma in_list_enabled s r : In r (list_enabled s) ↔ enabled_rule s r.
Proof.
  unfold list_enabled, rule_rows, enabled_rule. rewrite <- list_elem_of_In, order_by_perm, list_elem_of_In, filter_In.
  rewrite <- list_elem_of_In, list_elem_of_fmap. split.
  - intros [((id & r') & -> & Hin) He]. apply elem_of_map_to_list in Hin. eauto.
  - intros [He [id Hid]]. split; [|done]. exists (id, r). split; [done|]. by apply elem_of_map_to_list.
Qed.

(** The enabled rule that comes first among those matching the device. *)
Definition chosen s (d : NetworkDevice) (is_new : bool) (r : PolicyRule) : Prop :=
  enabled_rule s r ∧ rule_matches r d is_new = true ∧
  ∀ r', enabled_rule s r' → rule_matches r' d is_new = true → rule_leb r r'.

Lemma first_match_chosen s d is_new r : first_match (list_enabled s) d is_new = Some r → chosen s d is_new r.
Proof.
  intros Hf. pose proof (find_some _ _ Hf) as [Hin Hm]. split_and!; [by apply in_list_enabled|done|].
  intros r' Hr' Hm'. apply in_list_enabled in Hr'.
  destruct (find_sorted (λ a b, rule_leb a b) _ _ _ _
    (order_by_sorted rule_leb _ rule_leb_total rule_leb_trans) Hf Hr' Hm') as [->|]; [|done].
  apply rule_leb_spec. lia.
Qed.

(** ** The sweep *)

Definition mode_of s : PolicyMode :=
  default PolicyOff (PolicyMode.from_str (get_string (n_site s) PANOPTICON_AUTO_ENFORCE_MODE #"off")).

Lemma run_policy_mode s : run policy_mode s = (if outages s 0 then PolicyOff else mode_of s, tick s).
Proof. unfold policy_mode. rewrite run_bind, run_n_select. by destruct (outages s 0). Qed.

Definition setting_or_default s (name : rstr) (dflt n : N) : Prop := n = get_u32 (n_site s) name dflt ∨ n = dflt.

Lemma run_read_pass mode s :
  ∃ w c p, run (read_pass mode) s = (p, tick (tick (tick (tick s)))) ∧ ps_mode p = mode ∧
    setting_or_default s PANOPTICON_AUTO_ENFORCE_NEW_WINDOW_MINUTES PANOPTICON_AUTO_ENFORCE_NEW_WINDOW_MINUTES_DEFAULT w ∧
    setting_or_default s PANOPTICON_AUTO_ENFORCE_COOLDOWN_MINUTES PANOPTICON_AUTO_ENFORCE_COOLDOWN_MINUTES_DEFAULT c ∧
    ps_new_cutoff p = (n_clock s - w * MINUTE)%N ∧ ps_cooldown_since p = (n_clock s - c * MINUTE)%N.
Proof.
  unfold read_pass. rewrite run_bind, run_settings_u32, run_bind, run_settings_u32, run_bind, run_settings_u32,
    run_bind, run_settings_bool, run_bind, run_now. cbn [run].
  do 3 eexists. split; [reflexivity|]. cbn [ps_mode ps_new_cutoff ps_cooldown_since n_site n_clock tick].
  unfold setting_or_default. split_and!; [done| | |done..].
  - by destruct (outages s 0); [right|left].
  - by destruct (outages (tick s) 0); [right|left].
Qed.

(** A write or a record that the rules ask for. *)
Record policy_wants s key req : Prop := {
  pw_mode : mode_of s = Armed;
  pw_gates : gates_open s key req;
  pw_device : ∃ d r sw label w c,
    d ∈ devices s ∧ (n_clock s - STALE_THRESHOLD_HOURS * HOUR <= dv_last_seen_at d)%N ∧
    chosen s d (n_clock s - w * MINUTE <=? dv_first_seen_at d)%N r ∧
    dv_switch_id d = Some sw ∧ switches s !! sw = Some (rq_switch req) ∧
    dv_switch_port d = Some label ∧ find_if_index_by_label s sw label = Some (rq_if_index req) ∧
    rq_kind req = ru_action r ∧ rq_origin req = Policy (ru_name r) ∧
    port_free s sw (rq_if_index req) ∧ not_recent s sw (rq_if_index req) (n_clock s - c * MINUTE) ∧
    setting_or_default s PANOPTICON_AUTO_ENFORCE_NEW_WINDOW_MINUTES PANOPTICON_AUTO_ENFORCE_NEW_WINDOW_MINUTES_DEFAULT w ∧
    setting_or_default s PANOPTICON_AUTO_ENFORCE_COOLDOWN_MINUTES PANOPTICON_AUTO_ENFORCE_COOLDOWN_MINUTES_DEFAULT c }.

Lemma in_list_located s at_ d : d ∈ list_located s at_ →
  d ∈ devices s ∧ (at_ - STALE_THRESHOLD_HOURS * HOUR <= dv_last_seen_at d)%N.
Proof.
  unfold list_located. rewrite order_by_perm, list_elem_of_In, filter_In, !andb_true_iff.
  intros (Hin & _ & Hl). split; [by apply list_elem_of_In|by apply N.leb_le].
Qed.

Lemma effect_tick J s s' : effect J s s' → effect J s (tick s').
Proof. intros H. eapply effect_trans; [exact H|]. by apply effect_idle; apply quiet_tick. Qed.
Lemma effect_refl J s : effect J s s.
Proof. by apply effect_idle. Qed.

Lemma policy_sweep_effect key ids s : effect (policy_wants s key) s (run (run_policy_sweep key ids) s).2.
Proof.
  unfold run_policy_sweep. rewrite run_bind, run_policy_mode.
  case_bool_decide as Hoff; [solve [repeat apply effect_tick; apply effect_refl]|].
  destruct (outages s 0); [done|]. rewrite run_try, run_n_select.
  destruct (outages (tick s) 0); [solve [repeat apply effect_tick; apply effect_refl]|].
  change (list_enabled (tick (tick s))) with (list_enabled s).
  destruct (list_enabled s) as [|r0 rs] eqn:Een; [solve [repeat apply effect_tick; apply effect_refl]|]. rewrite <- Een.
  rewrite run_bind. destruct (run_read_pass (mode_of s) (tick (tick s))) as (w & c & p & -> & Hm & Hw & Hc & Hcut & Hcool).
  rewrite run_bind, run_now, run_try, run_n_select. destruct (outages _ 0); [solve [repeat apply effect_tick; apply effect_refl]|].
  rewrite run_bind. set (s7 := tick (tick (tick (tick (tick (tick (tick s))))))).
  pose proof (policy_loop_effect p key (list_enabled s) ids (list_located s7 (n_clock s)) s7) as H.
  destruct (run (policy_loop _ _ _ _ _) s7) as [[] s'] eqn:E.
  assert (effect (policy_wants s key) s s7) as H7 by (subst s7; repeat apply effect_tick; apply effect_refl).
  eapply effect_trans; [exact H7|]. eapply effect_weaken; [|exact H].
  intros req (d & r & sw & label & Hin & Hf & Hsw & Hlab & [(sw' & i & E1 & E2 & -> & Hfree & Hrec) Harm Hg Hgo]).
  apply in_list_located in Hin as [Hin Hseen]. apply first_match_chosen in Hf. rewrite Hcut in Hf. rewrite Hcool in Hrec.
  constructor; [|by destruct Hgo|exists d, r, sw, label, w, c; by split_and!].
  destruct (mode_of s) eqn:Em; [done|congruence|done].
Qed.

(** The policy sweep is confined, whatever the database and the switches do
    meanwhile.  It leaves the settings, the switches, the rules and every
    recorded action as they were; it writes to a switch, and records a new action,
    only in active mode, through every enforcement gate, for a device seen in the
    last day behind a known port, by the enabled rule that comes first among
    those matching that device, on a port without an action in effect and with
    none in the cooldown. *)
Theorem policy_sweep_confined key ids s :
  let s' := (run (run_policy_sweep key ids) s).2 in
  stable s s' ∧ (net s' = net s ∨ ∃ req, policy_wants s key req) ∧
  ∀ id a, actions s' !! id = Some a →
    actions s !! id = Some a ∨ ∃ req, policy_wants s key req ∧ row_of s id req a.
Proof. destruct (policy_sweep_effect key ids s) as [H1 H2 H3]. by split_and!. Qed.
End policy.
#[export] Hint Resolve keeps_act_on_match : keeps.

(** ** Reordering the rules

    [reorder] swaps the priorities of a rule and its neighbour.  As long as no two
    rules share a priority, the order of evaluation changes by exactly that swap. *)

Section rules.
Context `{Hlink : !SnmpLink, Hord : !SqlOrder, Heng : !SqlEngine, Htext : !Text}.
Implicit Types (s : Nac) (r p : PolicyRule) (l : list PolicyRule).

Definition rules_keyed s : Prop := ∀ id r, rules s !! id = Some r → ru_id r = id.
Definition distinct_priorities s : Prop := NoDup (ru_priority <$> rule_rows s).

Lemma in_rule_rows s r : r ∈ rule_rows s ↔ ∃ id, rules s !! id = Some r.
Proof.
  unfold rule_rows. rewrite list_elem_of_fmap. split.
  - intros ((id & r') & -> & Hin). apply elem_of_map_to_list in Hin. eauto.
  - intros [id Hid]. exists (id, r). split; [done|]. by apply elem_of_map_to_list.
Qed.

Lemma rule_rows_nodup s : rules_keyed s → NoDup (ru_id <$> rule_rows s).
Proof.
  intros Hk. unfold rule_rows. assert (ru_id <$> (map_to_list (rules s)).*2 = (map_to_list (rules s)).*1) as ->;
    [|apply NoDup_fst_map_to_list].
  rewrite <- list_fmap_compose. apply list_fmap_ext. intros i [id r] Hl. cbn. apply Hk.
  apply elem_of_map_to_list. by eapply list_elem_of_lookup_2.
Qed.

Lemma list_rules_sorted s : StronglySorted (λ a b, rule_leb a b) (list_rules s).
Proof. apply order_by_sorted; [apply rule_leb_total|apply rule_leb_trans]. Qed.

Lemma nodup_key {A B} (f : A → B) (l : list A) x y : NoDup (f <$> l) → x ∈ l → y ∈ l → f x = f y → x = y.
Proof.
  induction l as [|z l IH]; cbn; [by intros _ ?%not_elem_of_nil|]. intros [Hz Hnd]%NoDup_cons.
  intros [->|Hx]%elem_of_cons [->|Hy]%elem_of_cons E; [done| | |by apply IH].
  - destruct Hz. rewrite E. apply list_elem_of_fmap. by exists y.
  - destruct Hz. rewrite <- E. apply list_elem_of_fmap. by exists x.
Qed.

(** A sorted list of the rows is the order of evaluation. *)
Lemma list_rules_unique s l :
  distinct_priorities s → StronglySorted (λ a b, rule_leb a b) l → l ≡ₚ rule_rows s → list_rules s = l.
Proof.
  intros Hd Hs Hp. assert (list_rules s ≡ₚ l) as Hperm by (unfold list_rules; by rewrite order_by_perm).
  eapply (StronglySorted_unique_strong (λ a b, Is_true (rule_leb a b))); [|apply list_rules_sorted|done|done].
  intros x y Hx Hy. rewrite !rule_leb_spec. intros H1 H2.
  unfold list_rules in Hx. rewrite order_by_perm in Hx. rewrite Hp in Hy.
  apply (nodup_key ru_priority (rule_rows s)); [done..|lia].
Qed.

(** Neighbours in a sorted list without ties. *)
Lemma sorted_app (R : PolicyRule → PolicyRule → Prop) l1 x l2 :
  StronglySorted R (l1 ++ x :: l2) → (∀ y, y ∈ l1 → R y x) ∧ (∀ y, y ∈ l2 → R x y).
Proof.
  intros H. split.
  - intros y Hy. apply StronglySorted_app in H as (H & _ & _). apply H; [done|apply list_elem_of_here].
  - intros y Hy. apply StronglySorted_app in H as (_ & _ & H). inversion H as [|? ? _ Hf]. rewrite Forall_forall in Hf. by apply Hf.
Qed.

Lemma head_least {A} (le : A → A → bool) (l : list A) y :
  (∀ x y, le x y || le y x) → (∀ x y z, le x y → le y z → le x z) → y ∈ l →
  ∃ x, head (order_by le l) = Some x ∧ x ∈ l ∧ ∀ z, z ∈ l → x = z ∨ le x z.
Proof.
  intros Ht Htr Hy. pose proof (order_by_sorted le l Ht Htr) as Hs. pose proof (order_by_perm le l) as Hp.
  destruct (order_by le l) as [|x l']; [apply Permutation_nil_l in Hp; subst; by apply not_elem_of_nil in Hy|].
  exists x. split; [done|]. split; [rewrite <- Hp; apply list_elem_of_here|]. intros z. rewrite <- Hp.
  intros [->|Hz]%elem_of_cons; [by left|right]. inversion Hs as [|? ? _ Hf]. rewrite Forall_forall in Hf. by apply Hf.
Qed.

Section swap.
Context s l1 p r l2 (Hk : rules_keyed s) (Hd : distinct_priorities s) (Hl : list_rules s = l1 ++ p :: r :: l2).

Lemma swap_rows : rule_rows s ≡ₚ l1 ++ p :: r :: l2.
Proof. rewrite <- Hl. unfold list_rules. by rewrite order_by_perm. Qed.
Lemma swap_order :
  (ru_priority p < ru_priority r)%Z ∧ (∀ x, x ∈ l1 → ru_priority x < ru_priority p)%Z ∧
  (∀ x, x ∈ l2 → ru_priority r < ru_priority x)%Z.
Proof.
  pose proof (list_rules_sorted s) as Hs. rewrite Hl in Hs.
  pose proof Hd as Hnd. unfold distinct_priorities in Hnd. rewrite swap_rows, fmap_app in Hnd. cbn in Hnd.
  apply NoDup_app in Hnd as (_ & H12 & [Hp Hnd]%NoDup_cons). apply NoDup_cons in Hnd as [Hr _].
  destruct (sorted_app _ _ _ _ Hs) as [Hs1 Hs2].
  assert (l1 ++ p :: r :: l2 = (l1 ++ [p]) ++ r :: l2) as El by by rewrite <- app_assoc.
  rewrite El in Hs. destruct (sorted_app _ _ _ _ Hs) as [_ Hs3]. split_and!.
  - specialize (Hs2 r (list_elem_of_here _ _)). apply rule_leb_spec in Hs2 as [|[E _]]; [done|].
    destruct Hp. rewrite E. apply list_elem_of_here.
  - intros x Hx. specialize (Hs1 x Hx). apply rule_leb_spec in Hs1 as [|[E _]]; [done|].
    destruct (H12 (ru_priority x)); [by apply list_elem_of_fmap_2|]. rewrite E. apply list_elem_of_here.
  - intros x Hx. specialize (Hs3 x Hx). apply rule_leb_spec in Hs3 as [|[E _]]; [done|].
    destruct Hr. rewrite E. by apply list_elem_of_fmap_2.
Qed.

Lemma swap_lookup : rules s !! ru_id p = Some p ∧ rules s !! ru_id r = Some r ∧ ru_id p ≠ ru_id r.
Proof.
  assert (∀ x, x ∈ l1 ++ p :: r :: l2 → rules s !! ru_id x = Some x) as Hin.
  { intros x. rewrite <- swap_rows, in_rule_rows. intros [id Hid]. by rewrite (Hk id x Hid). }
  assert (rules s !! ru_id p = Some p) as Hp by (apply Hin; set_solver).
  assert (rules s !! ru_id r = Some r) as Hr by (apply Hin; set_solver).
  split_and!; [done..|]. intros E. destruct swap_order as [H _]. rewrite E, Hr in Hp. injection Hp as ->. lia.
Qed.

Lemma swap_member x : x ∈ rule_rows s → x ∈ l1 ∨ x = p ∨ x = r ∨ x ∈ l2.
Proof. rewrite swap_rows. set_solver. Qed.

Lemma neighbor_up : neighbor true r s = Some p.
Proof.
  destruct swap_order as (Hpr & H1 & H2). unfold neighbor.
  destruct (head_least (λ a b, (ru_priority b <=? ru_priority a)%Z)
    (List.filter (λ x, (ru_priority x <? ru_priority r)%Z) (rule_rows s)) p) as (x & -> & Hx & Hall).
  - intros a b. rewrite Is_true_true, orb_true_iff, !Z.leb_le. lia.
  - intros a b c. rewrite !Is_true_true, !Z.leb_le. lia.
  - apply list_elem_of_In, filter_In. split; [|by apply Z.ltb_lt]. apply list_elem_of_In. rewrite swap_rows. set_solver.
  - apply list_elem_of_In, filter_In in Hx as [Hx Hlt]. apply list_elem_of_In in Hx. apply Z.ltb_lt in Hlt.
    destruct (swap_member x Hx) as [Hin|[->|[->|Hin]]]; [|done|lia|specialize (H2 x Hin); lia].
    destruct (Hall p) as [->|Hle]; [|done|].
    { apply list_elem_of_In, filter_In. split; [|by apply Z.ltb_lt]. apply list_elem_of_In. rewrite swap_rows. set_solver. }
    apply Is_true_true, Z.leb_le in Hle. specialize (H1 x Hin). lia.
Qed.
Lemma neighbor_down : neighbor false p s = Some r.
Proof.
  destruct swap_order as (Hpr & H1 & H2). unfold neighbor.
  destruct (head_least (λ a b, (ru_priority a <=? ru_priority b)%Z)
    (List.filter (λ x, (ru_priority p <? ru_priority x)%Z) (rule_rows s)) r) as (x & -> & Hx & Hall).
  - intros a b. rewrite Is_true_true, orb_true_iff, !Z.leb_le. lia.
  - intros a b c. rewrite !Is_true_true, !Z.leb_le. lia.
  - apply list_elem_of_In, filter_In. split; [|by apply Z.ltb_lt]. apply list_elem_of_In. rewrite swap_rows. set_solver.
  - apply list_elem_of_In, filter_In in Hx as [Hx Hlt]. apply list_elem_of_In in Hx. apply Z.ltb_lt in Hlt.
    destruct (swap_member x Hx) as [Hin|[->|[->|Hin]]]; [specialize (H1 x Hin); lia|lia|done|].
    destruct (Hall r) as [->|Hle]; [|done|].
    { apply list_elem_of_In, filter_In. split; [|by apply Z.ltb_lt]. apply list_elem_of_In. rewrite swap_rows. set_solver. }
    apply Is_true_true, Z.leb_le in Hle. specialize (H2 x Hin). lia.
Qed.

(** The rows with the two priorities exchanged. *)
Definition swapped : gmap Uuid PolicyRule :=
  <[ru_id p := with_priority (ru_priority r) p]> (<[ru_id r := with_priority (ru_priority p) r]> (rules s)).

Lemma alter_lookup {V} (f : V → V) (m : gmap N V) k x : m !! k = Some x → alter f k m = <[k := f x]> m.
Proof.
  intros Hx. apply map_eq. intros j. destruct (decide (j = k)) as [->|].
  - by rewrite lookup_alter_eq, lookup_insert_eq, Hx.
  - by rewrite lookup_alter_ne, lookup_insert_ne.
Qed.
Lemma swap_result :
  swap_priorities (ru_id r) true s = set_rules (λ _, swapped) s ∧
  swap_priorities (ru_id p) false s = set_rules (λ _, swapped) s.
Proof.
  destruct swap_lookup as (Hp & Hr & Hne). unfold swap_priorities. rewrite Hp, Hr, neighbor_up, neighbor_down.
  unfold set_rules, swapped. split; f_equal.
  - rewrite (alter_lookup _ _ _ _ Hr). by rewrite (alter_lookup _ _ _ p) by (by rewrite lookup_insert_ne).
  - rewrite (alter_lookup _ _ _ _ Hp), (alter_lookup _ _ _ r) by (by rewrite lookup_insert_ne).
    by rewrite insert_insert_ne.
Qed.

Lemma swapped_rows :
  (map_to_list swapped).*2 ≡ₚ l1 ++ with_priority (ru_priority p) r :: with_priority (ru_priority r) p :: l2.
Proof.
  destruct swap_lookup as (Hp & Hr & Hne). set (m0 := base.delete (ru_id r) (base.delete (ru_id p) (rules s))).
  assert (rules s = <[ru_id p := p]> (<[ru_id r := r]> m0)) as E.
  { apply map_eq. intros i. unfold m0. destruct (decide (i = ru_id p)) as [->|Hip]; [by rewrite lookup_insert_eq|].
    rewrite lookup_insert_ne by done. destruct (decide (i = ru_id r)) as [->|Hir]; [by rewrite lookup_insert_eq|].
    by rewrite lookup_insert_ne, !lookup_delete_ne. }
  assert (m0 !! ru_id p = None ∧ m0 !! ru_id r = None) as [N1 N2].
  { unfold m0. split; [by rewrite lookup_delete_ne, lookup_delete_eq|by rewrite lookup_delete_eq]. }
  assert (∀ x y, (map_to_list (<[ru_id p := x]> (<[ru_id r := y]> m0))).*2 ≡ₚ x :: y :: (map_to_list m0).*2) as Hins.
  { intros x y. rewrite map_to_list_insert by (by rewrite lookup_insert_ne). cbn. f_equiv. by rewrite map_to_list_insert. }
  assert (l1 ++ l2 ≡ₚ (map_to_list m0).*2) as Hm.
  { pose proof swap_rows as H. unfold rule_rows in H. rewrite E, Hins in H.
    apply (Permutation_cons_inv (a := r)), (Permutation_cons_inv (a := p)). rewrite H.
    rewrite <- !Permutation_middle. apply perm_swap || done. }
  assert (swapped = <[ru_id p := with_priority (ru_priority r) p]> (<[ru_id r := with_priority (ru_priority p) r]> m0)) as ->.
  { unfold swapped. rewrite E. rewrite (insert_insert_ne _ (ru_id r) (ru_id p)), insert_insert_eq by done.
    by rewrite insert_insert_eq. }
  rewrite (Hins (with_priority (ru_priority r) p) (with_priority (ru_priority p) r)), <- Hm.
  rewrite <- !Permutation_middle. apply perm_swap.
Qed.

Lemma swapped_sorted :
  StronglySorted (λ a b, rule_leb a b) (l1 ++ with_priority (ru_priority p) r :: with_priority (ru_priority r) p :: l2).
Proof.
  destruct swap_order as (Hpr & H1 & H2). pose proof (list_rules_sorted s) as Hs. rewrite Hl in Hs.
  apply StronglySorted_app in Hs as (_ & Hs1 & Hs2). inversion Hs2 as [|? ? Hs3 _]. inversion Hs3 as [|? ? Hs4 _]. subst.
  apply StronglySorted_app. split_and!; [|done|].
  - intros x y Hx Hy. apply rule_leb_spec. left. specialize (H1 x Hx).
    apply elem_of_cons in Hy as [->|[->|Hy]%elem_of_cons]; cbn; [lia..|specialize (H2 y Hy); lia].
  - constructor; [constructor; [done|]|]; apply Forall_forall; intros y Hy; apply rule_leb_spec; left.
    + specialize (H2 y Hy). cbn. lia.
    + apply elem_of_cons in Hy as [->|Hy]; cbn; [lia|specialize (H2 y Hy); lia].
Qed.

Lemma swapped_distinct : distinct_priorities (set_rules (λ _, swapped) s).
Proof.
  unfold distinct_priorities, rule_rows. cbn [rules set_rules]. rewrite swapped_rows.
  pose proof Hd as Hnd. unfold distinct_priorities in Hnd. rewrite swap_rows in Hnd.
  rewrite fmap_app in *. cbn in *. done.
Qed.
Lemma swapped_keyed : rules_keyed (set_rules (λ _, swapped) s).
Proof.
  intros id x. cbn [rules set_rules]. unfold swapped.
  intros [[<- <-]|[_ [[<- <-]|[_ Hid]]%lookup_insert_Some]]%lookup_insert_Some; [done..|by apply Hk].
Qed.
Lemma swapped_list :
  list_rules (set_rules (λ _, swapped) s) = l1 ++ with_priority (ru_priority p) r :: with_priority (ru_priority r) p :: l2.
Proof. apply list_rules_unique; [apply swapped_distinct|apply swapped_sorted|]. unfold rule_rows. cbn. by rewrite swapped_rows. Qed.
End swap.

(** Moving a rule up past its predecessor, or the predecessor down past it,
    exchanges exactly these two in the order of evaluation and leaves every other
    rule in its place; the rules still have distinct priorities afterwards. *)
Theorem reorder_swaps_neighbours s l1 p r l2 :
  rules_keyed s → distinct_priorities s → list_rules s = l1 ++ p :: r :: l2 →
  let s' := swap_priorities (ru_id r) true s in
  swap_priorities (ru_id p) false s = s' ∧ rules_keyed s' ∧ distinct_priorities s' ∧
  list_rules s' = l1 ++ with_priority (ru_priority p) r :: with_priority (ru_priority r) p :: l2.
Proof.
  intros Hk Hd Hl. cbn zeta. destruct (swap_result s l1 p r l2 Hk Hd Hl) as [-> ->].
  split_and!; [done|by eapply swapped_keyed|by eapply swapped_distinct|by eapply swapped_list].
Qed.

(** The first rule does not move up. *)
Lemma reorder_first s r l :
  rules_keyed s → list_rules s = r :: l → swap_priorities (ru_id r) true s = s.
Proof.
  intros Hk Hl. assert (rule_rows s ≡ₚ r :: l) as Hp by (rewrite <- Hl; unfold list_rules; by rewrite order_by_perm).
  assert (r ∈ rule_rows s) as [id Hid]%in_rule_rows by (rewrite Hp; apply list_elem_of_here).
  unfold swap_priorities. rewrite (Hk id r Hid), Hid. unfold neighbor.
  assert (List.filter (λ x, (ru_priority x <? ru_priority r)%Z) (rule_rows s) = []) as ->.
  { destruct (List.filter _ _) as [|x k] eqn:E; [done|]. assert (In x (x :: k)) as Hx by by left.
    rewrite <- E in Hx. apply filter_In in Hx as [Hx Hlt]. apply Z.ltb_lt in Hlt.
    apply list_elem_of_In in Hx. rewrite Hp in Hx. apply elem_of_cons in Hx as [->|Hx]; [lia|].
    pose proof (list_rules_sorted s) as Hs. rewrite Hl in Hs. inversion Hs as [|? ? _ Hf]. rewrite Forall_forall in Hf.
    specialize (Hf x Hx). apply rule_leb_spec in Hf. lia. }
  pose proof (order_by_perm (λ a b, (ru_priority b <=? ru_priority a)%Z) ([] : list PolicyRule)) as Hn.
  apply Permutation_nil_r in Hn as ->. done.
Qed.
End rules.
