(* ===== verification/NacLife.v ===== *)
(** * The life of an enforcement action

    Releasing an action, the revert sweep, at most one action in effect per port,
    and what a release gives back of the switch. *)

From stdpp Require Import sorting.
From S2P Require Import Prelude Permission Json AuditLog RoleStore Web Delegation.
From S2P Require Import Auth Users Login Steps Aat Snmp SnmpTheorems Nac NacPolicy NacLogic.
From S2P Require Import NacLogic NacPolicyTheorems.

Section life.
Context `{Hlink : !SnmpLink, Hord : !SqlOrder, Heng : !SqlEngine, Htext : !Text}.
Implicit Types (s : Nac) (a : EnforcementAction) (key : option Cipher).

(** ** Releasing *)

Definition revert_exchanges (sw : PanopticonSwitch) (k : Cipher) a : Prog Net (result SnmpPollError ()) :=
  match ac_kind a with
  | Disable => revert_disable_port sw k (ac_if_index a) (ac_original_admin_status a)
  | Quarantine => revert_quarantine_port sw k (ac_if_index a) (ac_original_pvid a) (revert_vlan a)
  end.

(** Why an action may be closed: its switch is gone, or confirmed the write that
    takes it from [n] to [n']. *)
Definition restored s key a (n n' : Net) : Prop :=
  switches s !! ac_switch_id a = None ∨
  ∃ sw k, switches s !! ac_switch_id a = Some sw ∧ key = Some k ∧ run (revert_exchanges sw k a) n = (Ok (), n').

(** Only the tables of the site, the schedule, the switches' state and the row of
    [id] change, and that row only in its outcome. *)
Record released (ok : Prop) (id : Uuid) s s' : Prop := {
  rel_switches : switches s' = switches s;
  rel_clock : n_clock s' = n_clock s;
  rel_row : actions s' = actions s ∨
    ∃ st at_ e, actions s' = alter (with_outcome st at_ e) id (actions s) ∧ ((st = Reverted ∧ ok) ∨ st = RevertFailed) }.

Lemma run_mark_reverted id st e s :
  run (mark_reverted id st e) s =
  if outages s 0 then (Err Unavailable, tick s)
  else (Ok (), set_actions (alter (with_outcome st (if bool_decide (st = Reverted) then Some (n_clock s) else None) e) id) (tick s)).
Proof. unfold mark_reverted. rewrite run_bind, run_now. unfold n_change. by rewrite run_n_stmt. Qed.

(** What an audit record changes. *)
Definition recorded s s' : Prop :=
  net s' = net s ∧ actions s' = actions s ∧ switches s' = switches s ∧ n_clock s' = n_clock s.
#[export] Instance recorded_quiet : Quiet recorded.
Proof.
  unfold recorded. split; [by intros s; split_and!| |by intros s; split_and!].
  intros s1 s2 s3 (?&?&?&?) (?&?&?&?). split_and!; congruence.
Qed.
Lemma audit_released_recorded a b o note s : recorded s (run (audit_released a b o note) s).2.
Proof.
  apply (keeps_run recorded). apply keeps_n_logged. apply (keeps_n_audit recorded). by intros; unfold recorded; split_and!.
Qed.

(** What a mark does to the rows, by whether it is answered. *)
Lemma mark_released ok id st e s : (st = Reverted ∧ ok) ∨ st = RevertFailed →
  released ok id s (run (mark_reverted id st e) s).2.
Proof.
  intros Hst. rewrite run_mark_reverted. destruct (outages s 0); constructor; cbn; eauto 10.
Qed.
Lemma released_recorded ok id s s1 s2 : released ok id s s1 → recorded s1 s2 → released ok id s s2.
Proof.
  intros [H1 H2 H3] (_ & Ha & Hs & Hc). constructor; [congruence..|]. by rewrite Ha.
Qed.
Lemma released_start ok id s s1 s2 : actions s1 = actions s → switches s1 = switches s → n_clock s1 = n_clock s →
  released ok id s1 s2 → released ok id s s2.
Proof. intros Ha Hs Hc [H1 H2 H3]. constructor; [congruence..|]. by rewrite <- Ha. Qed.

Lemma release_spec key a b s :
  let s' := (run (release_action key a b) s).2 in
  released (restored s key a (net s) (net s')) (ac_id a) s s'.
Proof.
  cbn zeta. unfold release_action. destruct key as [k|].
  2: { rewrite run_bind, run_n_logged. cbn. apply mark_released. by right. }
  rewrite run_try, run_db_err, run_n_select. cbn [fst snd].
  destruct (outages s 0); [constructor; [done..|by left]|]. cbn [switches tick].
  destruct (switches s !! ac_switch_id a) as [sw|] eqn:Esw.
  - rewrite run_bind. unfold revert_port. fold (revert_exchanges sw k a). rewrite run_on_net.
    destruct (run (revert_exchanges sw k a) (net (tick s))) as [r n'] eqn:Er. cbn [fst snd].
    assert (∀ ok s2, released ok (ac_id a) (set_net n' (tick s)) s2 → released ok (ac_id a) s s2) as Hst
      by (intros ok s2; by apply released_start).
    destruct r as [[]|e].
    + rewrite run_try, run_db_err, run_mark_reverted.
      destruct (outages (set_net n' (tick s)) 0); cbn [fst snd]; [constructor; [done..|by left]|].
      rewrite run_bind. match goal with |- context [run (audit_released ?a ?b ?o ?n) ?x] => set (s2 := x) end.
      pose proof (audit_released_recorded a b Success None s2) as Hr.
      destruct (run (audit_released _ _ _ _) s2) as [[] s3]. cbn in *. apply Hst. eapply released_recorded; [|exact Hr].
      constructor; [done..|right]. do 3 eexists. split; [done|left]. split; [done|right].
      exists sw, k. split_and!; [done..|]. destruct Hr as [-> _]. exact Er.
    + rewrite run_bind, run_n_logged, run_bind.
      pose proof (mark_released (restored s (Some k) a (net s)
        (net (run (audit_released a b Failure (Some (snmp_error_text e)))
          (run (mark_reverted (ac_id a) RevertFailed (Some (snmp_error_text e))) (set_net n' (tick s))).2).2))
        (ac_id a) RevertFailed (Some (snmp_error_text e)) (set_net n' (tick s)) (or_intror eq_refl)) as Hm.
      set (s2 := (run (mark_reverted _ _ _) _).2) in *.
      pose proof (audit_released_recorded a b Failure (Some (snmp_error_text e)) s2) as Hr.
      destruct (run (audit_released _ _ _ _) s2) as [[] s3]. cbn in *. apply Hst. by eapply released_recorded.
  - rewrite run_bind, run_n_logged, run_bind.
    match goal with |- context [run (mark_reverted ?i ?st ?e) ?x] =>
      pose proof (mark_released True i st e x (or_introl (conj eq_refl I))) as Hm end.
    set (s2 := (run (mark_reverted _ _ _) _).2) in *.
    match goal with |- context [run (audit_released ?a ?b ?o ?n) ?x] => pose proof (audit_released_recorded a b o n x) as Hr end.
    destruct (run (audit_released _ _ _ _) s2) as [[] s3]. cbn in *.
    eapply released_start; [done..|]. eapply released_recorded in Hm; [|exact Hr].
    destruct Hm as [? ? Hrow]. constructor; [done..|]. destruct Hrow as [|(st & at_ & e & -> & Hst)]; [by left|right].
    do 3 eexists. split; [done|]. destruct Hst as [[-> _]|]; [left|by right]. split; [done|by left].
Qed.

(** ** The revert sweep *)

Definition keyed s : Prop := ∀ id a, actions s !! id = Some a → ac_id a = id.

Lemma released_other ok id s s' i : released ok id s s' → i ≠ id → actions s' !! i = actions s !! i.
Proof. intros [_ _ [->|(st & at_ & e & -> & _)]] Hi; [done|]. by rewrite lookup_alter_ne. Qed.

(** A row afterwards: as it was, closed for the reason [ok], or marked for another try. *)
Definition settled (ok : Prop) a a' : Prop :=
  a' = a ∨ (∃ st at_ e, a' = with_outcome st at_ e a ∧ ((st = Reverted ∧ ok) ∨ st = RevertFailed)).
Lemma released_self ok id s s' a : released ok id s s' → actions s !! id = Some a →
  ∃ a', actions s' !! id = Some a' ∧ settled ok a a'.
Proof.
  intros [_ _ Hr] Ha. destruct Hr as [->|(st & at_ & e & -> & Hst)]; [exists a; split; [done|by left]|].
  rewrite lookup_alter_eq, Ha. eexists. split; [done|]. right. eauto 10.
Qed.

Lemma release_all_spec key l s :
  NoDup (ac_id <$> l) → (∀ a, a ∈ l → actions s !! ac_id a = Some a) →
  let s' := (run (release_all key l) s).2 in
  n_clock s' = n_clock s ∧ switches s' = switches s ∧
  (∀ id, id ∉ ac_id <$> l → actions s' !! id = actions s !! id) ∧
  ∀ a, a ∈ l → ∃ a', actions s' !! ac_id a = Some a' ∧ settled (∃ n n', restored s key a n n') a a'.
Proof.
  revert s. induction l as [|a l IH]; intros s Hnd Hrows; cbn zeta.
  { cbn. split_and!; [done..|]. intros a Ha. by apply not_elem_of_nil in Ha. }
  cbn [release_all]. rewrite run_bind. pose proof (release_spec key a AutoRevert s) as Hrel. cbn zeta in Hrel.
  destruct (run (release_action key a AutoRevert) s) as [r s1]. cbn [fst snd] in *.
  apply NoDup_cons in Hnd as [Hnotin Hnd].
  assert (∀ x, x ∈ l → actions s1 !! ac_id x = Some x) as Hrows1.
  { intros x Hx. rewrite (released_other _ _ _ _ _ Hrel); [by apply Hrows, list_elem_of_further|].
    intros E. apply Hnotin. cbn in E. apply list_elem_of_fmap. by exists x. }
  destruct (IH s1 Hnd Hrows1) as (Hc & Hsw & Hother & Hself). destruct Hrel as [Hs1 Hc1 Hrow] eqn:E0. clear E0.
  split_and!; [congruence..| |].
  - intros id Hid. apply not_elem_of_cons in Hid as [Hne Hid]. rewrite Hother by done.
    by apply (released_other _ _ _ _ _ (Build_released _ _ _ _ Hs1 Hc1 Hrow)).
  - intros x [->|Hx]%elem_of_cons.
    + rewrite Hother by done. destruct (released_self _ _ _ _ a (Build_released _ _ _ _ Hs1 Hc1 Hrow)) as (a' & Ha' & Hset).
      { by apply Hrows, list_elem_of_here. }
      exists a'. split; [done|]. destruct Hset as [|(st & at_ & e & -> & Hst)]; [by left|right].
      do 3 eexists. split; [done|]. destruct Hst as [[-> Hok]|]; [left|by right]. eauto.
    + destruct (Hself x Hx) as (a' & Ha' & Hset). exists a'. split; [done|].
      destruct Hset as [|(st & at_ & e & -> & Hst)]; [by left|right]. do 3 eexists. split; [done|].
      destruct Hst as [[-> (n & n' & Hok)]|]; [left|by right]. split; [done|]. exists n, n'.
      unfold restored in *. by rewrite <- Hs1.
Qed.

Lemma in_due s at_ a : a ∈ list_due_for_revert s at_ ↔ due at_ a = true ∧ ∃ id, actions s !! id = Some a.
Proof.
  unfold list_due_for_revert, action_rows. rewrite order_by_perm, list_elem_of_In, filter_In, <- list_elem_of_In, list_elem_of_fmap.
  split.
  - intros [((id & a') & -> & Hin) Hd]. apply elem_of_map_to_list in Hin. eauto.
  - intros [Hd [id Hid]]. split; [|done]. exists (id, a). split; [done|]. by apply elem_of_map_to_list.
Qed.
Lemma due_nodup s at_ : keyed s → NoDup (ac_id <$> list_due_for_revert s at_).
Proof.
  intros Hk. unfold list_due_for_revert, action_rows. rewrite order_by_perm.
  apply (sublist_NoDup _ (ac_id <$> (map_to_list (actions s)).*2)).
  - assert (ac_id <$> (map_to_list (actions s)).*2 = (map_to_list (actions s)).*1) as ->; [|apply NoDup_fst_map_to_list].
    rewrite <- list_fmap_compose. apply list_fmap_ext. intros i [id a] Hl. cbn. apply Hk.
    apply elem_of_map_to_list. by eapply list_elem_of_lookup_2.
  - apply fmap_sublist. induction (map_to_list (actions s)).*2 as [|x l IH]; cbn; [done|].
    destruct (due at_ x); [by apply sublist_skip|by apply sublist_cons].
Qed.

(** C15: the revert sweep forgets nothing, wherever the database or a switch fails.
    It touches exactly the actions that are due; afterwards each of them is
    either closed, in which case its switch confirmed the restoring write or is no
    longer managed, or still due, so that the next sweep tries again. *)
Theorem revert_sweep_forgets_nothing key s :
  keyed s →
  let s' := (run (revert_sweep key) s).2 in
  ∀ id a, actions s !! id = Some a →
    if due (n_clock s) a then
      ∃ a', actions s' !! id = Some a' ∧
        (due (n_clock s') a' = true ∨ (ac_state a' = Reverted ∧ ∃ n n', restored s key a n n'))
    else actions s' !! id = Some a.
Proof.
  intros Hk s' id a Ha. subst s'. unfold revert_sweep. rewrite run_bind, run_now, run_bind, run_n_select.
  destruct (outages s 0); cbn [run snd].
  { destruct (due _ a) eqn:Hd; [|done]. exists a. split; [done|by left]. }
  pose proof (release_all_spec key (list_due_for_revert (tick s) (n_clock s)) (tick s)) as Hall.
  destruct Hall as (Hc & _ & Hother & Hself).
  { by apply (due_nodup (tick s)). }
  { intros x Hx. apply in_due in Hx as [_ [i Hi]]. by rewrite (Hk i x Hi). }
  destruct (due (n_clock s) a) eqn:Hd.
  - destruct (Hself a) as (a' & Ha' & Hset); [apply in_due; eauto|].
    exists a'. rewrite (Hk id a Ha) in Ha'. split; [done|]. rewrite Hc.
    destruct Hset as [->|(st & at_ & e & -> & [[-> Hok]| ->])]; [by left|by right|by left].
  - rewrite Hother; [done|]. intros (x & Hid & Hx)%list_elem_of_fmap. apply in_due in Hx as [Hdx [i Hi]].
    cbn in Hi. rewrite (Hk i x Hi) in Hid. subst i. congruence.
Qed.

(** ** One action per port *)

(** The rows are stored under their identifiers and no port has two in effect. *)
Definition one_per_port s : Prop :=
  keyed s ∧ ∀ i j a b, actions s !! i = Some a → actions s !! j = Some b →
    is_in_effect (ac_state a) = true → is_in_effect (ac_state b) = true →
    ac_switch_id a = ac_switch_id b → ac_if_index a = ac_if_index b → i = j.

Definition same_actions s s' : Prop := actions s' = actions s.
#[export] Instance same_actions_quiet : Quiet same_actions.
Proof. unfold same_actions. split; [done| |done]. intros ??? -> ->. done. Qed.
Lemma one_same s s' : same_actions s s' → one_per_port s → one_per_port s'.
Proof. unfold same_actions, one_per_port, keyed. by intros ->. Qed.

Lemma one_adds id req s s' :
  port_free s (sw_id (rq_switch req)) (rq_if_index req) → adds id (row_of s id req) s s' → one_per_port s → one_per_port s'.
Proof.
  intros Hfree [Ha|(x & Hn & Ha & Hr)] [Hk Hone]; [by eapply one_same|].
  destruct Hr as (Hid & Hsw & Hif & _). unfold one_per_port, keyed. rewrite Ha. split.
  - intros i a [[<- <-]|[? ?]]%lookup_insert_Some; [done|by apply Hk].
  - assert (∀ i a, actions s !! i = Some a → is_in_effect (ac_state a) = true →
      ac_switch_id a = ac_switch_id x → ac_if_index a = ac_if_index x → False) as Hno.
    { intros i a Hi He H1 H2. rewrite (Hfree i a Hi) in He; [done|].
      unfold of_port. rewrite H1, H2, Hsw, Hif, !N.eqb_refl. done. }
    intros i j a b [[<- <-]|[? Hi]]%lookup_insert_Some [[<- <-]|[? Hj]]%lookup_insert_Some He He' Hs Hp; [done| | |by eapply Hone].
    + exfalso. by eapply (Hno j b).
    + exfalso. by eapply (Hno i a).
Qed.

Lemma one_released ok id s s' :
  released ok id s s' → (∀ a, actions s !! id = Some a → is_in_effect (ac_state a) = true) →
  one_per_port s → one_per_port s'.
Proof.
  intros [_ _ [Ha|(st & at_ & e & Ha & Hst)]] Heff [Hk Hone]; [by eapply one_same|].
  assert (∀ i b, actions s' !! i = Some b → ∃ a, actions s !! i = Some a ∧ ac_id b = ac_id a ∧
    ac_switch_id b = ac_switch_id a ∧ ac_if_index b = ac_if_index a ∧
    (is_in_effect (ac_state b) = true → is_in_effect (ac_state a) = true)) as Hback.
  { intros i b. rewrite Ha. destruct (decide (i = id)) as [->|]; [|rewrite lookup_alter_ne by done; naive_solver].
    rewrite lookup_alter_eq. destruct (actions s !! id) as [a|] eqn:Hi; [|done]. intros [= <-].
    exists a. split_and!; [done..|]. intros _. by apply Heff. }
  split.
  - intros i b Hb. destruct (Hback i b Hb) as (a & Hi & -> & _). by apply Hk.
  - intros i j b b' Hb Hb' He He' Hs Hp.
    destruct (Hback i b Hb) as (a & Hi & _ & E1 & E2 & E3). destruct (Hback j b' Hb') as (a' & Hj & _ & F1 & F2 & F3).
    eapply (Hone i j a a'); try done; [by apply E3|by apply F3|congruence..].
Qed.

(** *** Programs that maintain it *)

Definition maintains {A} (p : Prog Nac A) : Prop := ∀ s, one_per_port s → one_per_port (run p s).2.
Lemma maintains_keeps {A} (p : Prog Nac A) : keeps same_actions p → maintains p.
Proof. intros Hp s. apply one_same. by apply (keeps_run same_actions). Qed.
Lemma maintains_bind {A B} (m : Prog Nac A) (k : A → Prog Nac B) :
  maintains m → (∀ x, maintains (k x)) → maintains (m ≫= k).
Proof. intros Hm Hk s Hs. rewrite run_bind. specialize (Hm s Hs). destruct (run m s). by apply Hk. Qed.
Lemma maintains_try {E A B} (m : Prog Nac (result E A)) (k : A → Prog Nac (result E B)) :
  maintains m → (∀ x, maintains (k x)) → maintains (try_bind m k).
Proof. intros Hm Hk. apply maintains_bind; [done|]. intros [x|e]; [apply Hk|by intros s]. Qed.
Lemma maintains_ret {A} (x : A) : maintains (Ret x).
Proof. by intros s. Qed.
Lemma maintains_select {A} (f : Nac → A) : maintains (n_select f).
Proof. apply maintains_keeps. apply (keeps_n_select same_actions). Qed.

Lemma maintains_apply id key req : maintains (apply_action id key req).
Proof.
  intros s Hs. destruct (apply_effect id key req s) as [[_ Ha]|[Hg Ha]]; [by eapply one_same|].
  eapply one_adds; [apply Hg|done..].
Qed.

(** Splits a program and leaves its statements to the lemmas above. *)
Ltac maintain :=
  repeat first
    [ progress intros
    | match goal with
      | |- maintains (_ ≫= _) => apply maintains_bind
      | |- maintains (try_bind _ _) => apply maintains_try
      | |- maintains (Ret _) => apply maintains_ret
      | |- maintains (n_select _) => apply maintains_select
      | |- maintains (apply_action _ _ _) => apply maintains_apply
      | |- maintains (match ?x with _ => _ end) => destruct x
      end ].

Lemma maintains_act p key id r switch_id label : maintains (act_on_match p key id r switch_id label).
Proof. unfold act_on_match. maintain. Qed.
Lemma maintains_loop p key enabled ids l : maintains (policy_loop p key enabled ids l).
Proof.
  revert ids. induction l as [|d l IH]; intros ids; cbn [policy_loop]; [apply maintains_ret|].
  apply maintains_bind; [|intros; apply IH]. unfold n_logged.
  destruct (first_match _ _ _), (dv_switch_id d), (dv_switch_port d); try apply maintains_ret.
  apply maintains_bind; [apply maintains_act|intros; apply maintains_ret].
Qed.
Lemma maintains_policy key ids : maintains (run_policy_sweep key ids).
Proof.
  unfold run_policy_sweep, policy_mode, read_pass, settings_u32, settings_bool. maintain; try apply maintains_loop.
  all: apply maintains_keeps, (keeps_now same_actions).
Qed.

Lemma one_release_all key l s :
  NoDup (ac_id <$> l) → (∀ a, a ∈ l → actions s !! ac_id a = Some a ∧ is_in_effect (ac_state a) = true) →
  one_per_port s → one_per_port (run (release_all key l) s).2.
Proof.
  revert s. induction l as [|a l IH]; intros s Hnd Hrows Hone; [done|]. cbn [release_all]. rewrite run_bind.
  pose proof (release_spec key a AutoRevert s) as Hrel. cbn zeta in Hrel.
  destruct (run (release_action key a AutoRevert) s) as [r s1]. cbn [snd] in Hrel.
  apply NoDup_cons in Hnd as [Hnotin Hnd]. destruct (Hrows a (list_elem_of_here _ _)) as [Hra Hea]. apply IH; [done| |].
  - intros x Hx. destruct (Hrows x (list_elem_of_further _ _ _ Hx)) as [Hrx Hex]. split; [|done].
    rewrite (released_other _ _ _ _ _ Hrel); [done|]. intros E. apply Hnotin, list_elem_of_fmap. by exists x.
  - eapply one_released; [exact Hrel|congruence|done].
Qed.
Lemma maintains_revert_sweep key : maintains (revert_sweep key).
Proof.
  intros s Hone. unfold revert_sweep. rewrite run_bind, run_now, run_bind, run_n_select.
  destruct (outages s 0); [done|]. apply one_release_all; [by apply (due_nodup (tick s)); destruct Hone| |done].
  intros a Ha. apply in_due in Ha as [Hd [i Hi]]. destruct Hone as [Hk _]. rewrite (Hk i a Hi). split; [done|].
  revert Hd. unfold due. by destruct (ac_state a).
Qed.

(** *** Requests *)

(** A release names an action that is in effect, as the page offers it. *)
Definition current_release (r : NacRequest) s : Prop :=
  match r with
  | EnforceRelease _ _ form => ∀ a, actions s !! ef_action_id form = Some a → is_in_effect (ac_state a) = true
  | _ => True
  end.

Lemma maintains_gate jar ctx csrf (m : Prog Nac (result AppError rstr)) : maintains m → maintains (nac_gate jar ctx csrf m).
Proof. intros Hm. unfold nac_gate. maintain. done. Qed.
Lemma maintains_answered {E A} (m : Prog Nac (result E A)) : maintains m → maintains (answered m).
Proof. intros Hm. apply maintains_bind; [done|]. intros. apply maintains_ret. Qed.
Lemma same_audit e : keeps same_actions (n_audit e).
Proof. by apply (keeps_n_audit same_actions). Qed.
Lemma same_change f : (∀ s, actions (f s) = actions s) → keeps same_actions (n_change f).
Proof. apply (keeps_n_change same_actions). Qed.
Lemma same_insert_rule id p n : keeps same_actions (insert_rule id p n).
Proof.
  apply (keeps_n_stmt same_actions). intros s x s'. case_bool_decide; [done|]. destruct (negb _); [done|]. by intros [= _ <-].
Qed.
Lemma same_the_switch id : keeps same_actions (the_switch id).
Proof. unfold the_switch. walk. Qed.
Lemma same_the_action id : keeps same_actions (the_action id).
Proof. unfold the_action. walk. Qed.
Hint Resolve same_audit same_change same_insert_rule same_the_switch same_the_action : keeps.

Lemma one_make_permanent id : maintains (make_permanent id).
Proof.
  intros s [Hk Hone]. unfold make_permanent, n_change. rewrite run_n_stmt. destruct (outages s 0); [done|]. cbn [snd].
  assert (∀ i b, alter without_expiry id (actions s) !! i = Some b → ∃ a, actions s !! i = Some a ∧ ac_id b = ac_id a ∧
    ac_switch_id b = ac_switch_id a ∧ ac_if_index b = ac_if_index a ∧ ac_state b = ac_state a) as Hback.
  { intros i b. destruct (decide (i = id)) as [->|]; [|rewrite lookup_alter_ne by done; naive_solver].
    rewrite lookup_alter_eq. destruct (actions s !! id) as [a|]; [|done]. intros [= <-]. exists a.
    unfold without_expiry. by destruct (is_in_effect (ac_state a)). }
  split.
  - intros i b Hb. destruct (Hback i b Hb) as (a & Hi & -> & _). by apply Hk.
  - intros i j b b' Hb Hb' He He' Hs Hp.
    destruct (Hback i b Hb) as (a & Hi & _ & E1 & E2 & E3). destruct (Hback j b' Hb') as (a' & Hj & _ & F1 & F2 & F3).
    eapply (Hone i j a a'); congruence.
Qed.

Lemma port_label_same switch_id i : keeps same_actions (port_label_for switch_id i).
Proof. unfold port_label_for. walk. Qed.

Lemma run_nac_gate jar ctx csrf (m : Prog Nac (result AppError rstr)) s :
  (run (nac_gate jar ctx csrf m) s).2 = s ∨
  (ensure ctx NetworkNac = Ok () ∧ require_csrf jar csrf = Ok () ∧ run (nac_gate jar ctx csrf m) s = run m s).
Proof.
  unfold nac_gate. rewrite run_try. cbn [run]. destruct (ensure ctx NetworkNac) as [[]|]; [|by left].
  rewrite run_try. cbn [run]. destruct (require_csrf jar csrf) as [[]|]; [|by left]. by right.
Qed.

Lemma handle_maintains sql_text key r s :
  current_release r s → one_per_port s → one_per_port (run (handle_nac sql_text key r) s).2.
Proof.
  intros Hcur Hone. destruct r; cbn [handle_nac] in *; rewrite ?run_answered; cbn [snd].
  - apply maintains_gate; [|done]. apply maintains_keeps. unfold set_enforcement_enabled. walk.
  - apply maintains_gate; [|done]. unfold the_switch, n_internal, port_label_for. maintain.
  - destruct (run_nac_gate jar ctx (ef_csrf_token form)
      (a ←? the_action (ef_action_id form); released ← release_action key a (ByOperator ctx.(user).(uid) ctx.(user).(username));
       Ret (match released with Ok _ => Ok (safe_return_to (ef_return_to form) #"/arsenals/panopticon/enforcement")
            | Err e => Err (Validation (enforce_error_text sql_text e)) end)) s) as [E|(_ & _ & E)].
    { unfold enforce_release. by rewrite E. }
    unfold enforce_release. rewrite E, run_try. unfold the_action. rewrite run_try, run_n_internal, run_n_select. cbn [fst snd].
    destruct (outages s 0); [done|]. unfold find_action. cbn [actions tick run].
    destruct (actions s !! ef_action_id form) as [a|] eqn:Ea; cbn [ok_or]; [|done].
    rewrite run_bind. pose proof (release_spec key a (ByOperator ctx.(user).(uid) ctx.(user).(username)) (tick s)) as Hrel.
    cbn zeta in Hrel. destruct (run (release_action _ _ _) (tick s)) as [x s1]. cbn in *.
    eapply one_released; [exact Hrel| |by eapply one_same]. intros a' Ha'. cbn in Ha'.
    destruct Hone as [Hk _]. rewrite (Hk _ _ Ea), Ea in Ha'. injection Ha' as <-. by apply Hcur.
  - apply maintains_gate; [|done]. apply maintains_try; [apply maintains_keeps; eauto with keeps|]. intros _.
    apply maintains_try; [|intros; apply maintains_ret].
    apply maintains_bind; [apply one_make_permanent|intros; apply maintains_ret].
  - apply maintains_gate; [|done]. apply maintains_keeps. unfold n_set_setting. walk.
  - apply maintains_gate; [|done]. apply maintains_keeps. unfold create_rule. walk. apply keeps_n_internal. walk.
  - apply maintains_gate; [|done]. apply maintains_keeps. unfold set_rule_enabled. walk.
  - apply maintains_gate; [|done]. apply maintains_keeps. unfold reorder. walk.
    apply keeps_n_internal, same_change. intros s1. unfold swap_priorities.
    destruct (rules s1 !! id); [|done]. by destruct (neighbor _ _ _).
  - apply maintains_gate; [|done]. apply maintains_keeps. unfold delete_rule. walk.
  - rewrite run_bind. pose proof (maintains_revert_sweep key s Hone) as H. by destruct (run (revert_sweep key) s).
  - rewrite run_bind. pose proof (maintains_policy key ids s Hone) as H. by destruct (run (run_policy_sweep key ids) s).
Qed.

(** A request served to its end, or anything else that happens between two: the
    clock, the network, the failures of the database, every other table. *)
Inductive nac_step (sql_text : DbError → rstr) key : Nac → Nac → Prop :=
| nac_request r s : current_release r s → nac_step sql_text key s (run (handle_nac sql_text key r) s).2
| nac_environment s s' : actions s' = actions s → nac_step sql_text key s s'.

(** C14: whatever requests and sweeps are served one after the other, and however
    the database and the switches fail during them, no port ever has two actions
    in effect, provided that releases name actions in effect. *)
Theorem one_action_per_port sql_text key s s' :
  one_per_port s → rtc (nac_step sql_text key) s s' → one_per_port s'.
Proof.
  intros Hs. induction 1 as [|s s1 s' Hstep _ IH]; [done|]. apply IH. destruct Hstep as [r s Hcur|s s1 E].
  - by apply handle_maintains.
  - by eapply one_same.
Qed.
End life.
