(* ===== verification/NacGuarantees.v ===== *)
(** * The gates of enforcement, and what a release gives back

    Two guarantees of the whole component: a switch is only ever written to
    through the gates, and enforcing then releasing a port leaves the switch as it
    was. *)

From stdpp Require Import sorting.
From S2P Require Import Prelude Permission Json AuditLog RoleStore Web Delegation.
From S2P Require Import Auth Users Login Steps Aat Snmp SnmpTheorems Nac NacPolicy NacLogic.
From S2P Require Import NacLogic NacPolicyTheorems NacLife.

Section gated.
Context `{Hlink : !SnmpLink, Hord : !SqlOrder, Heng : !SqlEngine, Htext : !Text}.
Implicit Types (s : Nac) (a : EnforcementAction) (key : option Cipher).

(** ** Programs that leave the switches alone *)

Definition same_net s s' : Prop := net s' = net s.
#[export] Instance same_net_quiet : Quiet same_net.
Proof. split; [done| |done]. intros x y z H1 H2. unfold same_net in *. congruence. Qed.
Lemma net_audit e : keeps same_net (n_audit e).
Proof. by apply (keeps_n_audit same_net). Qed.
Lemma net_change f : (∀ s, net (f s) = net s) → keeps same_net (n_change f).
Proof. apply (keeps_n_change same_net). Qed.
Lemma net_mark id st e : keeps same_net (mark_reverted id st e).
Proof. unfold mark_reverted. apply keeps_bind; [apply (keeps_now same_net)|]. intros. by apply net_change. Qed.
Lemma net_insert_rule id p n : keeps same_net (insert_rule id p n).
Proof.
  apply (keeps_n_stmt same_net). intros s x s'. case_bool_decide; [done|]. destruct (negb _); [done|]. by intros [= _ <-].
Qed.
Lemma net_the_switch id : keeps same_net (the_switch id).
Proof. unfold the_switch. walk. Qed.
Lemma net_the_action id : keeps same_net (the_action id).
Proof. unfold the_action. walk. Qed.
Lemma net_swap id up : keeps same_net (reorder id up).
Proof.
  apply net_change. intros s. unfold swap_priorities. destruct (rules s !! id); [|done]. by destruct (neighbor _ _ _).
Qed.
Hint Resolve net_audit net_change net_mark net_insert_rule net_the_switch net_the_action net_swap : keeps.

Lemma release_writes key a b s :
  net (run (release_action key a b) s).2 = net s ∨ (is_Some key ∧ is_Some (switches s !! ac_switch_id a)).
Proof.
  unfold release_action, audit_released. destruct key as [k|]; [|left; apply (keeps_run same_net); walk].
  rewrite run_try, run_db_err, run_n_select. cbn [fst snd]. destruct (outages s 0); [by left|]. cbn [switches tick].
  destruct (switches s !! ac_switch_id a) as [sw|]; [right; by eauto|].
  left. change (net s) with (net (tick s)). apply (keeps_run same_net). walk.
Qed.

Lemma release_all_writes key l s :
  net (run (release_all key l) s).2 = net s ∨ (is_Some key ∧ ∃ a, a ∈ l ∧ is_Some (switches s !! ac_switch_id a)).
Proof.
  revert s. induction l as [|a l IH]; intros s; [by left|]. cbn [release_all]. rewrite run_bind.
  pose proof (release_spec key a AutoRevert s) as [Hsw _ _]. pose proof (release_writes key a AutoRevert s) as Hw.
  destruct (run (release_action key a AutoRevert) s) as [r s1]. cbn [snd] in *.
  destruct Hw as [Hn|[Hk Ha]]; [|right; split; [done|]; exists a; split; [apply list_elem_of_here|done]].
  destruct (IH s1) as [->|(Hk & x & Hx & Hs)]; [by left|right]. split; [done|].
  exists x. rewrite <- Hsw. split; [by apply list_elem_of_further|done].
Qed.

(** ** What allows a write *)

Definition permitted (jar : CookieJar) (ctx : AuthContext) (csrf : rstr) : Prop :=
  ensure ctx NetworkNac = Ok () ∧ require_csrf jar csrf = Ok ().

Definition allowed key (r : NacRequest) s : Prop :=
  match r with
  | EnforceApply jar ctx id _ form =>
      permitted jar ctx (ea_csrf_token form) ∧ ∃ req, switches s !! id = Some (rq_switch req) ∧
        rq_if_index req = ea_if_index form ∧ EnforcementKind.from_str (ea_kind form) = Some (rq_kind req) ∧
        gates_open s key req
  | EnforceRelease jar ctx form =>
      permitted jar ctx (ef_csrf_token form) ∧ is_Some key ∧
        ∃ a, actions s !! ef_action_id form = Some a ∧ is_Some (switches s !! ac_switch_id a)
  | RevertSweep =>
      is_Some key ∧ ∃ id a, actions s !! id = Some a ∧ due (n_clock s) a = true ∧ is_Some (switches s !! ac_switch_id a)
  | PolicySweep _ => ∃ req, policy_wants s key req
  | _ => False
  end.

Lemma gate_net jar ctx csrf (m : Prog Nac (result AppError rstr)) s :
  net (run m s).2 = net s → net (run (nac_gate jar ctx csrf m) s).2 = net s.
Proof. intros Hm. by destruct (run_nac_gate jar ctx csrf m s) as [-> |(_ & _ & ->)]. Qed.

Lemma enforce_apply_writes sql_text jar ctx id action_id key form s :
  net (run (enforce_apply sql_text jar ctx id action_id key form) s).2 = net s ∨
  allowed key (EnforceApply jar ctx id action_id form) s.
Proof.
  unfold enforce_apply. set (body := try_bind _ _).
  destruct (run_nac_gate jar ctx (ea_csrf_token form) body s) as [-> |(H1 & H2 & ->)]; [by left|]. subst body.
  rewrite run_try. cbn [run]. destruct (EnforcementKind.from_str (ea_kind form)) as [kind|] eqn:Ek; [|by left]. cbn [ok_or].
  rewrite run_try. unfold the_switch. rewrite run_try, run_n_internal, run_n_select. cbn [fst snd].
  destruct (outages s 0); [by left|]. cbn [switches tick run].
  destruct (switches s !! id) as [sw|] eqn:Esw; [|by left]. cbn [ok_or].
  rewrite run_bind. unfold port_label_for. rewrite run_bind, run_n_select. cbn [run].
  set (req := mkEnforceRequest sw _ _ _ _ _ _). rewrite run_bind.
  pose proof (apply_effect action_id key req (tick (tick s))) as Heff. cbn zeta in Heff.
  destruct (run (apply_action _ _ _) _) as [res s1]. cbn in *.
  destruct Heff as [[-> _]|[Hg _]]; [by left|right]. split; [by split|]. exists req. split_and!; [done..|].
  by destruct Hg.
Qed.

Lemma enforce_release_writes sql_text jar ctx key form s :
  net (run (enforce_release sql_text jar ctx key form) s).2 = net s ∨ allowed key (EnforceRelease jar ctx form) s.
Proof.
  unfold enforce_release. set (body := try_bind _ _).
  destruct (run_nac_gate jar ctx (ef_csrf_token form) body s) as [-> |(H1 & H2 & ->)]; [by left|]. subst body.
  rewrite run_try. unfold the_action. rewrite run_try, run_n_internal, run_n_select. cbn [fst snd].
  destruct (outages s 0); [by left|]. unfold find_action. cbn [actions tick run].
  destruct (actions s !! ef_action_id form) as [a|] eqn:Ea; [|by left]. cbn [ok_or]. rewrite run_bind.
  pose proof (release_writes key a (ByOperator ctx.(user).(uid) ctx.(user).(username)) (tick s)) as Hw.
  destruct (run (release_action _ _ _) (tick s)) as [res s1]. cbn in *.
  destruct Hw as [-> |[Hk Hs]]; [by left|right]. split_and!; [done..|]. by exists a.
Qed.

(** C12: a switch is written to only when it may be.  Whatever a request is and
    wherever the database fails, the switches are as before unless the request is
    an operator's with the NAC permission and the right token, for an opted-in
    switch, with the kill switch on, a key to reach it and the port free; a
    release or a revert sweep of a recorded action on a managed switch; or an
    armed policy sweep that has a matching device. *)
Theorem switch_writes_gated sql_text key r s :
  net (run (handle_nac sql_text key r) s).2 = net s ∨ allowed key r s.
Proof.
  destruct r; cbn [handle_nac]; rewrite ?run_answered; cbn [snd].
  2: apply enforce_apply_writes.
  2: apply enforce_release_writes.
  8: { rewrite run_bind. unfold revert_sweep. rewrite run_bind, run_now, run_bind, run_n_select.
       destruct (outages s 0); [by left|].
       destruct (release_all_writes key (list_due_for_revert (tick s) (n_clock s)) (tick s)) as [E|(Hk & a & Ha & Hs)].
       - left. destruct (run (release_all _ _) _) as [? s1]. exact E.
       - right. split; [done|]. apply in_due in Ha as [Hd [id Hid]]. by exists id, a. }
  8: { rewrite run_bind. destruct (policy_sweep_effect key ids s) as [_ Hn _].
       destruct (run (run_policy_sweep key ids) s) as [? s1]. exact Hn. }
  all: left; apply gate_net, (keeps_run same_net);
    unfold set_enforcement_enabled, make_permanent, n_set_setting, create_rule, set_rule_enabled, delete_rule; walk.
  all: apply keeps_n_internal; walk.
Qed.
End gated.

Section round_trip.
Context `{Hlink : !SnmpLink, Hord : !SqlOrder, Heng : !SqlEngine, Htext : !Text, Hspec : !SnmpSpec}.
Implicit Types (s : Nac) (a : EnforcementAction) (req : EnforceRequest) (m : gmap oid Wire).

(** What a successful [apply_action] wrote and recorded. *)
Definition applied (k : Cipher) req s s1 a : Prop :=
  match rq_kind req with
  | Disable => ∃ original, ac_original_admin_status a = Some original ∧
      run (enforce_disable_port (rq_switch req) k (rq_if_index req)) (net s) = (Ok original, net s1)
  | Quarantine => ∃ original vlan, ac_original_pvid a = Some original ∧ ac_quarantine_vlan a = Some (Z.of_N vlan) ∧
      (vlan < 2 ^ 32)%N ∧
      run (enforce_quarantine_port (rq_switch req) k (rq_if_index req) vlan) (net s) = (Ok original, net s1)
  end.

Lemma get_u32_lt x k d : (d < 2 ^ 32)%N → (get_u32 x k d < 2 ^ 32)%N.
Proof.
  intros Hd. unfold get_u32. destruct (settings x !! k) as [[| |[n|z|f]| | |]|]; try done.
  by destruct (N.ltb_spec n (2 ^ 32)).
Qed.

Lemma write_and_record_ok id k req vlan ex s id' s1 :
  run (write_and_record id k req vlan ex) s = (Ok id', s1) →
  id' = id ∧ ∃ admin pvid a, (run (write_port k req vlan) s).1 = Ok (admin, pvid) ∧
    net s1 = net (run (write_port k req vlan) s).2 ∧ actions s1 !! id = Some a ∧
    a = action_of id (n_clock (run (write_port k req vlan) s).2) (new_action req Active admin pvid vlan ex None).
Proof.
  unfold write_and_record. rewrite run_bind. destruct (run (write_port k req vlan) s) as [[[admin pvid]|e] s2].
  2: { cbn zeta. rewrite run_bind, run_n_logged, run_bind. by destruct (run (audit_enforced _ _ _ _) _). }
  rewrite run_try, run_db_err. pose proof (create_adds id (new_action req Active admin pvid vlan ex None) s2) as Hadd.
  cbn zeta in Hadd. unfold create_action in *. rewrite run_n_stmt in *. destruct (outages s2 0); [done|].
  case_bool_decide; [done|]. destruct (match na_created_by _ with Some _ => _ | None => _ end); [done|]. cbn [fst snd] in *.
  rewrite run_bind. match goal with |- context [run (audit_enforced ?r ?v ?o ?n) ?x] => pose proof (run_audit_enforced_idle r v o n x) as Hi;
    destruct (run (audit_enforced r v o n) x) as [[] s3] end.
  cbn in Hi |- *. intros [= <- <-]. split; [done|]. destruct Hi as [Hn Ha]. exists admin, pvid. eexists.
  split_and!; [done|done|rewrite Ha; cbn; apply lookup_insert_eq|done].
Qed.

Lemma apply_ok id k req s id' s1 :
  run (apply_action id (Some k) req) s = (Ok id', s1) →
  id' = id ∧ ∃ a, actions s1 !! id = Some a ∧ ac_id a = id ∧ ac_switch_id a = sw_id (rq_switch req) ∧
    ac_if_index a = rq_if_index req ∧ ac_kind a = rq_kind req ∧ ac_state a = Active ∧ applied k req s s1 a.
Proof.
  unfold apply_action. rewrite run_bind, run_settings_bool. destruct (negb (outages s 0) && _); [|done]. cbn [negb].
  destruct (sw_enforcement_enabled (rq_switch req)); [|done]. cbn [negb]. rewrite run_try, run_db_err, run_n_select. cbn [fst snd].
  destruct (outages (tick s) 0); [done|]. case_bool_decide; [done|]. rewrite run_try.
  assert (∀ vlan s2, net s2 = net s → (∀ v, vlan = Some v → (v < 2 ^ 32)%N) → (rq_kind req = Quarantine → is_Some vlan) →
    run (expires_at ← expiry req; write_and_record id k req vlan expires_at) s2 = (Ok id', s1) →
    id' = id ∧ ∃ a, actions s1 !! id = Some a ∧ ac_id a = id ∧ ac_switch_id a = sw_id (rq_switch req) ∧
    ac_if_index a = rq_if_index req ∧ ac_kind a = rq_kind req ∧ ac_state a = Active ∧ applied k req s s1 a) as Hrest.
  { intros vlan s2 Hn Hv Hq. rewrite run_bind. assert (∃ ex, run (expiry req) s2 = (ex, s2)) as [ex ->].
    { unfold expiry. destruct (0 <? _)%N; [|by eexists]. rewrite run_bind, run_now. by eexists. }
    intros H1. apply write_and_record_ok in H1 as (-> & admin & pvid & a & Hw & Hn1 & Ha & ->). split; [done|].
    eexists. split_and!; [exact Ha|done..|]. unfold applied. unfold write_port in Hw, Hn1. cbn [ac_original_admin_status action_of
      na_original_admin_status new_action na_original_pvid ac_original_pvid ac_quarantine_vlan na_quarantine_vlan].
    destruct (rq_kind req); rewrite run_try, run_on_net, Hn in Hw, Hn1;
      destruct (run _ (net s)) as [[original|] n'] eqn:E; cbn in Hw, Hn1; try done; injection Hw as <- <-.
    - exists original. by rewrite Hn1.
    - destruct (Hq eq_refl) as [v ->]. exists original, v. split_and!; [done..|by apply Hv|]. rewrite Hn1. exact E. }
  rewrite run_quarantine_vlan. destruct (rq_kind req); cbn [fst snd].
  - by apply Hrest.
  - destruct (outages (tick (tick s)) 0); (case_decide; [done|]); [done|]. apply Hrest; [done| |done]. intros v [= <-].
    by apply get_u32_lt.
Qed.

Lemma release_ok k a b s sw s1 :
  switches s !! ac_switch_id a = Some sw → run (release_action (Some k) a b) s = (Ok (), s1) →
  run (revert_exchanges sw k a) (net s) = (Ok (), net s1) ∧
  ∀ x, actions s !! ac_id a = Some x → ∃ y, actions s1 !! ac_id a = Some y ∧ ac_state y = Reverted.
Proof.
  intros Hsw. unfold release_action. rewrite run_try, run_db_err, run_n_select. cbn [fst snd].
  destruct (outages s 0); [done|]. cbn [switches tick]. rewrite Hsw, run_bind. unfold revert_port.
  fold (revert_exchanges sw k a). rewrite run_on_net. cbn [net tick].
  destruct (run (revert_exchanges sw k a) (net s)) as [[[]|e] n] eqn:E; cbn [fst snd].
  2: { cbn zeta. rewrite run_bind, run_n_logged, run_bind. by destruct (run (audit_released _ _ _ _) _). }
  rewrite run_try, run_db_err, run_mark_reverted. destruct (outages _ 0); [done|]. cbn [fst snd]. rewrite run_bind.
  match goal with |- context [run (audit_released ?a ?b ?o ?n) ?x] => pose proof (audit_released_recorded a b o n x) as Hr;
    destruct (run (audit_released a b o n) x) as [[] s3] end.
  cbn in Hr |- *. intros [= <-]. destruct Hr as (Hn & Ha & _). cbn in Hn, Ha. split; [by rewrite Hn|].
  intros x Hx. rewrite Ha, lookup_alter_eq, Hx. by eexists.
Qed.

(** The variables of a switch before and after: of a disabled port its status is
    back, that is up, or testing if it was (a port that was down comes up); of a quarantined one its VLAN is back, the port is
    out of the VLAN's two port lists, and every other port is in them as before. *)
Definition lists_agree (p : N) (b b' : list N) : Prop :=
  ∀ q, (1 ≤ q)%N → portlist_has b' q = if bool_decide (q = p) then false else portlist_has b q.

Definition given_back_disabled (i : N) m m' : Prop :=
  ∃ original, m !! admin_oid i = Some (WInteger original) ∧
    m' = <[admin_oid i := WInteger (if (original =? 3)%Z then 3 else 1)]> m.
Lemma restored_up original : restored_status (Some original) = if (original =? 3)%Z then 3%Z else 1%Z.
Proof.
  unfold restored_status, IF_ADMIN_UP, IF_ADMIN_DOWN.
  destruct (Z.eqb_spec original 3) as [->|]; [done|].
  destruct (Z.eqb_spec original 1) as [->|]; [done|]. destruct (Z.eqb_spec original 2) as [->|]; done.
Qed.

Definition given_back_quarantined (i : N) m m' : Prop :=
  ∃ vlan p original be be' bu bu', bridge_port_of m i = Some p ∧
    m !! pvid_oid p = Some (WInteger original) ∧
    m' !! pvid_oid p = Some (WInteger (if (0 <? original)%Z then original else Z.of_N vlan)) ∧
    m !! egress_oid vlan = Some (WOctetString be) ∧ m' !! egress_oid vlan = Some (WOctetString be') ∧
    m !! untagged_oid vlan = Some (WOctetString bu) ∧ m' !! untagged_oid vlan = Some (WOctetString bu') ∧
    ((1 ≤ p)%N → lists_agree p be be' ∧ lists_agree p bu bu') ∧
    ∀ o, o ≠ pvid_oid p → o ≠ egress_oid vlan → o ≠ untagged_oid vlan → m' !! o = m !! o.

Lemma portlist_on_off p b : (1 ≤ p)%N → lists_agree p b (portlist_set (portlist_set b p true).2 p false).2.
Proof. intros Hp q Hq. rewrite !portlist_set_has by done. by case_bool_decide. Qed.

Lemma bridge_port_quarantined m i vlan p be bu original :
  m !! pvid_oid p = Some (WInteger original) → m !! egress_oid vlan = Some (WOctetString be) →
  m !! untagged_oid vlan = Some (WOctetString bu) → bridge_port_of (quarantined vlan p be bu m) i = bridge_port_of m i.
Proof.
  intros Hp He Hu. unfold quarantined.
  assert (∀ o, o = pvid_oid p ∨ o = egress_oid vlan ∨ o = untagged_oid vlan → ~ DOT1D_BASE_PORT_IF_INDEX `prefix_of` o) as Hout
    by (intros o; apply oids_outside_table).
  rewrite !bridge_port_insert; [done|..]; try (apply Hout; naive_solver).
  - by eexists.
  - rewrite lookup_insert_ne by done. by eexists.
  - rewrite !lookup_insert_ne by done. by eexists.
Qed.

Lemma quarantine_undone sw k i vlan original n0 n1 n2 n3 :
  run (enforce_quarantine_port sw k i vlan) n0 = (Ok original, n1) → same_mib n1 n2 →
  run (revert_quarantine_port sw k i (Some original) vlan) n2 = (Ok (), n3) →
  given_back_quarantined i (mib n0 (switch_addr sw)) (mib n3 (switch_addr sw)).
Proof.
  intros H1 Hs H2. apply enforce_quarantine_ok in H1 as (p & be & bu & Hp & Hpv & He & Hu & Hc1).
  apply revert_quarantine_ok in H2 as (p' & be' & bu' & Hp' & He' & Hu' & Hc2).
  apply changed_at in Hc1, Hc2. rewrite Hs, Hc1 in Hp', He', Hu', Hc2.
  rewrite (bridge_port_quarantined _ _ _ _ _ _ _ Hpv He Hu), Hp in Hp'. injection Hp' as <-.
  unfold quarantined in He', Hu'. rewrite !lookup_insert_ne, lookup_insert_eq in He' by done. injection He' as <-.
  rewrite lookup_insert_ne, lookup_insert_eq in Hu' by done. injection Hu' as <-.
  rewrite Hc2. unfold unquarantined, pvid_restored. do 7 eexists. split; [exact Hp|].
  split; [exact Hpv|]. split; [rewrite !lookup_insert_ne by done;
    destruct (0 <? original)%Z; [by rewrite lookup_insert_eq|unfold quarantined; by rewrite lookup_insert_eq]|].
  split; [exact He|]. split; [apply lookup_insert_eq|]. split; [exact Hu|].
  split; [rewrite lookup_insert_ne by done; apply lookup_insert_eq|].
  split; [intros; split; by apply portlist_on_off|].
  intros o Ho1 Ho2 Ho3. rewrite !lookup_insert_ne by congruence.
  destruct (0 <? original)%Z; [rewrite lookup_insert_ne by congruence|]; unfold quarantined; by rewrite !lookup_insert_ne by congruence.
Qed.

(** C13: enforcing a port and releasing it again gives the switch back.  When both
    succeed and nothing else writes to the switch in between, the action is closed
    and every variable of the switch is as it was, with the exceptions the code
    makes: a port that was down comes back up, one whose VLAN was not a positive
    number keeps the quarantine VLAN, and the port ends outside the quarantine
    VLAN's port lists. *)
Theorem enforce_release_round_trip id k req b s id' s1 s2 s3 a :
  switches s2 !! sw_id (rq_switch req) = Some (rq_switch req) →
  run (apply_action id (Some k) req) s = (Ok id', s1) →
  actions s2 = actions s1 → same_mib (net s1) (net s2) → actions s1 !! id' = Some a →
  run (release_action (Some k) a b) s2 = (Ok (), s3) →
  let m := mib (net s) (switch_addr (rq_switch req)) in
  let m' := mib (net s3) (switch_addr (rq_switch req)) in
  match rq_kind req with
  | Disable => given_back_disabled (rq_if_index req) m m'
  | Quarantine => given_back_quarantined (rq_if_index req) m m'
  end ∧ ∃ a', actions s3 !! id' = Some a' ∧ ac_state a' = Reverted.
Proof.
  intros Hsw Happ Hact Hmib Ha Hrel m m'. subst m m'.
  apply apply_ok in Happ as (-> & a' & Ha' & Hid & Hasw & Hif & Hkind & _ & Hap).
  rewrite Ha in Ha'. injection Ha' as <-. rewrite <- Hasw in Hsw.
  destruct (release_ok _ _ _ _ _ _ Hsw Hrel) as [Hrev Hrow]. rewrite Hid, Hact in Hrow.
  split; [|by eapply Hrow]. unfold applied in Hap. unfold revert_exchanges in Hrev. rewrite Hkind, Hif in Hrev.
  destruct (rq_kind req).
  - destruct Hap as (original & Ho & Hrun). apply enforce_disable_spec in Hrun as [Hset Hold]. cbn in Hset.
    rewrite Ho in Hrev. apply revert_disable_spec in Hrev. cbn in Hrev. exists original. split; [by apply Hold|].
    apply changed_at in Hset, Hrev. by rewrite Hrev, Hmib, Hset, insert_insert_eq, restored_up.
  - destruct Hap as (original & vlan & Ho & Hv & Hlt & Hrun). rewrite Ho in Hrev.
    assert (revert_vlan a = vlan) as Ev.
    { unfold revert_vlan. rewrite Hv. change (default 0%Z (Some (Z.of_N vlan))) with (Z.of_N vlan).
      rewrite (Z.max_l (Z.of_N vlan) 0) by apply N2Z.is_nonneg. rewrite N2Z.id. by apply N.mod_small. }
    rewrite Ev in Hrev. by eapply quarantine_undone.
Qed.
End round_trip.
