(* ===== verification/RadiusServer.v ===== *)
(** * The RADIUS server ([web/src/panopticon_radius.rs])

    MAC authentication with a VLAN for the port, and accounting.  With it come
    the repository [panopticon_radius.rs], [find_by_mac] of [network_devices.rs]
    and the [radius_] handlers of [routes/panopticon.rs].  The state is that of
    [Nac]; as there, any statement may find the database gone. *)

From stdpp Require Import sorting.
From S2P Require Import Prelude Permission Json AuditLog RoleStore Web Delegation.
From S2P Require Import Auth Users Login Steps Aat Snmp Nac Ip Subnet Radius.
Import AuditAction (ConfigurationChanged).

Definition PANOPTICON_RADIUS_ENABLED : rstr := #"panopticon.radius_enabled".
Definition PANOPTICON_RADIUS_AUTH_PORT : rstr := #"panopticon.radius_auth_port".
Definition PANOPTICON_RADIUS_AUTH_PORT_DEFAULT : N := 1812.
Definition PANOPTICON_RADIUS_ACCT_PORT : rstr := #"panopticon.radius_acct_port".
Definition PANOPTICON_RADIUS_ACCT_PORT_DEFAULT : N := 1813.
Definition PANOPTICON_RADIUS_TRUSTED_VLAN : rstr := #"panopticon.radius_trusted_vlan".
Definition PANOPTICON_RADIUS_TRUSTED_VLAN_DEFAULT : N := 0.
Definition PANOPTICON_RADIUS_UNTRUSTED_ACTION : rstr := #"panopticon.radius_untrusted_action".
Definition PANOPTICON_RADIUS_UNKNOWN_ACTION : rstr := #"panopticon.radius_unknown_action".
Definition PANOPTICON_RADIUS_GUEST_VLAN : rstr := #"panopticon.radius_guest_vlan".
Definition PANOPTICON_RADIUS_GUEST_VLAN_DEFAULT : N := 0.

Definition MAX_PACKET : N := 4096.

(** ** The decision *)

Record RadiusPolicy := mkRadiusPolicy {
  trusted_vlan : N; rp_quarantine_vlan : N; untrusted_action : rstr; unknown_action : rstr; guest_vlan : N }.
Inductive Decision : Set := Accept (vlan : option N) | Reject.

Definition decide_mab (trust : option TrustState) (p : RadiusPolicy) : Decision :=
  match trust with
  | Some Trusted => Accept (if (0 <? trusted_vlan p)%N then Some (trusted_vlan p) else None)
  | Some Untrusted =>
      if str_eqb (untrusted_action p) #"reject" then Reject
      else if (0 <? rp_quarantine_vlan p)%N then Accept (Some (rp_quarantine_vlan p)) else Reject
  | _ =>
      if str_eqb (unknown_action p) #"reject" then Reject
      else if str_eqb (unknown_action p) #"guest" then
        Accept (if (0 <? guest_vlan p)%N then Some (guest_vlan p) else None)
      else Accept None
  end.

(** The two-character pieces of twelve digits. *)
Fixpoint pairs (s : rstr) : list rstr :=
  match s with a :: b :: r => [a; b] :: pairs r | _ => [] end.
Definition normalize_mac (raw : rstr) : option rstr :=
  let hex := List.filter is_ascii_hexdigit raw in
  if negb (length hex =? 12) then None else Some (join #":" (pairs (to_ascii_lowercase hex))).

Inductive MacResolution : Set := Resolved (mac : rstr) | Conflict | Missing.
Definition resolve_mab_mac (calling username_mac : option rstr) : MacResolution :=
  match calling, username_mac with
  | Some c, Some u => if str_eqb c u then Resolved c else Conflict
  | Some c, None => Resolved c
  | None, Some u => Resolved u
  | None, None => Missing
  end.

Definition client_matches (nas_address : rstr) (src : IpAddr) : bool :=
  let nas_address := trim nas_address in
  match parse_cidr nas_address with
  | Some (net_addr, prefix) =>
      let src_net := network_of (fmt_ip src) prefix prefix in
      let cidr_net := network_of (fmt_ip net_addr) prefix prefix in
      bool_decide (is_Some src_net) && bool_decide (src_net = cidr_net)
  | None => str_eqb nas_address (fmt_ip src)
  end.

(** How the engine compares and upper-cases text. *)
Class SqlText := {
  text_leb : rstr → rstr → bool;
  sql_upper : rstr → rstr;
  sql_upper_ascii : ∀ s, Forall (λ c, (c < 128)%N) s → sql_upper s = to_ascii_uppercase s }.

Section server.
Context `{Hlink : !SnmpLink, Hord : !SqlOrder, Heng : !SqlEngine, Hsql : !SqlText}.
Implicit Types (s : Nac).

(** ** [repo::panopticon_radius] *)

Definition client_rows s : list RadiusClient := (map_to_list (radius_clients s)).*2.
Definition by_name (a b : RadiusClient) : bool := text_leb (rc_name a) (rc_name b).
Definition list_clients s : list RadiusClient := order_by by_name (client_rows s).
Definition list_enabled_clients s : list RadiusClient := order_by by_name (List.filter rc_enabled (client_rows s)).
Definition create_client (id : Uuid) (name nas_address shared_secret_encrypted : rstr) : Prog Nac (result DbError Uuid) :=
  n_stmt (λ s,
    if bool_decide (is_Some (radius_clients s !! id)) then Err DuplicateKey
    else Ok (id, set_radius_clients <[id := mkRadiusClient id name nas_address shared_secret_encrypted true]> s)).
Definition set_client_enabled (id : Uuid) (flag : bool) : Prog Nac (result DbError ()) :=
  n_change (set_radius_clients (alter (λ c,
    mkRadiusClient (rc_id c) (rc_name c) (rc_nas_address c) (rc_shared_secret_encrypted c) flag) id)).
Definition delete_client (id : Uuid) : Prog Nac (result DbError ()) := n_change (set_radius_clients (base.delete id)).

Record SessionUpdate := mkSessionUpdate {
  su_username : option rstr; su_mac_address : option rstr; su_nas_ip : option rstr; su_nas_port : option rstr;
  su_framed_ip : option rstr; su_acct_session_id : option rstr; su_auth_method : option rstr; su_stop : bool;
  su_terminate_cause : option rstr }.

(** [COALESCE(VALUES(c), c)]. *)
Definition coalesce {A} (new old : option A) : option A := match new with Some _ => new | None => old end.
(** A unique key with a NULL in it is no key. *)
Definition key_eqb (a b : option rstr) : bool :=
  match a, b with Some a, Some b => name_eqb a b | _, _ => false end.
Definition same_session (u : SessionUpdate) (r : RadiusSession) : bool :=
  key_eqb (rs_nas_ip r) (su_nas_ip u) && key_eqb (rs_acct_session_id r) (su_acct_session_id u).
Definition new_session (id : Uuid) (at_ : N) (stopped : option N) (u : SessionUpdate) : RadiusSession :=
  mkRadiusSession id (su_username u) (su_mac_address u) (su_nas_ip u) (su_nas_port u) (su_framed_ip u)
    (su_acct_session_id u) (su_auth_method u) at_ at_ stopped (su_terminate_cause u).
Definition refresh (at_ : N) (stopped : option N) (u : SessionUpdate) (r : RadiusSession) : RadiusSession :=
  mkRadiusSession (rs_id r) (coalesce (su_username u) (rs_username r)) (coalesce (su_mac_address u) (rs_mac_address r))
    (rs_nas_ip r) (coalesce (su_nas_port u) (rs_nas_port r)) (coalesce (su_framed_ip u) (rs_framed_ip r))
    (rs_acct_session_id r) (coalesce (su_auth_method u) (rs_auth_method r)) (rs_started_at r) at_
    (coalesce stopped (rs_stopped_at r)) (coalesce (su_terminate_cause u) (rs_terminate_cause r)).
(** The row the insert collides with, by the primary key first. *)
Definition colliding (id : Uuid) (u : SessionUpdate) (m : gmap Uuid RadiusSession) : option Uuid :=
  if bool_decide (is_Some (m !! id)) then Some id
  else fst <$> List.find (λ kr, same_session u kr.2) (map_to_list m).
Definition record_session (id : Uuid) (at_ : N) (stopped : option N) (u : SessionUpdate) (m : gmap Uuid RadiusSession)
    : gmap Uuid RadiusSession :=
  match colliding id u m with
  | Some k => alter (refresh at_ stopped u) k m
  | None => <[id := new_session id at_ stopped u]> m
  end.
Definition upsert_session (id : Uuid) (u : SessionUpdate) : Prog Nac (result DbError ()) :=
  at_ ← now;
  let stopped := if su_stop u then Some at_ else None in
  n_change (λ s, set_radius_sessions (record_session id (n_clock s) stopped u) s).

(** [repo::network_devices::find_by_mac]. *)
Definition mac_is (mac : rstr) (d : NetworkDevice) : bool :=
  match dv_mac_address d with Some m => name_eqb (sql_upper m) (sql_upper mac) | None => false end.
Definition find_by_mac s (mac : rstr) : option NetworkDevice :=
  head (order_by (λ a b, (dv_last_seen_at b <=? dv_last_seen_at a)%N) (List.filter (mac_is mac) (devices s))).

(** ** The two listeners *)

Definition secret_for (key : Cipher) (src : IpAddr) : Prog Nac (option (RadiusClient * rstr)) :=
  r ← n_select list_enabled_clients;
  Ret (match r with
       | Err _ => None
       | Ok clients =>
           client ← List.find (λ c, client_matches (rc_nas_address c) src) clients;
           match decrypt key (rc_shared_secret_encrypted client) with
           | Ok secret => Some (client, secret)
           | Err _ => None
           end
       end).

Definition settings_string (key dflt : rstr) : Prog Nac rstr :=
  r ← n_select (λ s, get_string (n_site s) key dflt);
  Ret (match r with Ok t => t | Err _ => dflt end).
Definition load_policy : Prog Nac RadiusPolicy :=
  trusted ← settings_u32 PANOPTICON_RADIUS_TRUSTED_VLAN PANOPTICON_RADIUS_TRUSTED_VLAN_DEFAULT;
  quarantine ← settings_u32 PANOPTICON_QUARANTINE_VLAN PANOPTICON_QUARANTINE_VLAN_DEFAULT;
  untrusted ← settings_string PANOPTICON_RADIUS_UNTRUSTED_ACTION #"quarantine";
  unknown ← settings_string PANOPTICON_RADIUS_UNKNOWN_ACTION #"accept";
  guest ← settings_u32 PANOPTICON_RADIUS_GUEST_VLAN PANOPTICON_RADIUS_GUEST_VLAN_DEFAULT;
  Ret (mkRadiusPolicy trusted quarantine untrusted unknown guest).

Section hashes.
Context (md5 : list N → list N) (hmac_md5 : list N → list N → list N).

(** A datagram or nothing to send back; [None] is a panic. *)
Abbreviation Reply := (option (option (list N))).
Definition respond (p : Packet) (secret : list N) (include_msg_auth : bool) (code : N) (attrs : list (N * list N)) : Reply :=
  Some <$> build_response md5 hmac_md5 code (pk_id p) (pk_authenticator p) attrs secret include_msg_auth.

Definition trust_of (mac : rstr) : Prog Nac (option TrustState) :=
  r ← n_select (λ s, find_by_mac s mac);
  Ret (match r with Ok d => dv_trust_state <$> d | Err _ => None end).
Definition decision_packet (d : Decision) : N * list (N * list N) :=
  match d with
  | Accept vlan => (CODE_ACCESS_ACCEPT, match vlan with Some v => vlan_attributes v | None => [] end)
  | Reject => (CODE_ACCESS_REJECT, [])
  end.
Definition mac_of (p : Packet) (attr_type : N) : option rstr := Packet.get_string p attr_type ≫= normalize_mac.

(** What follows once the request is known to come from a client. *)
Definition authorize (p : Packet) (secret : list N) : Prog Nac Reply :=
  let include_msg_auth := Packet.has p ATTR_MESSAGE_AUTHENTICATOR in
  let reject := respond p secret include_msg_auth CODE_ACCESS_REJECT [] in
  if Packet.has p ATTR_EAP_MESSAGE then Ret reject
  else if Packet.has p ATTR_USER_PASSWORD || Packet.has p ATTR_CHAP_PASSWORD then Ret reject
  else
    match resolve_mab_mac (mac_of p ATTR_CALLING_STATION_ID) (mac_of p ATTR_USER_NAME) with
    | Conflict | Missing => Ret reject
    | Resolved mac =>
        trust ← trust_of mac;
        policy ← load_policy;
        let '(code, attrs) := decision_packet (decide_mab trust policy) in
        Ret (respond p secret include_msg_auth code attrs)
    end.

Definition handle_auth (key : Cipher) (src : IpAddr) (buf : list N) : Prog Nac Reply :=
  match Packet.parse buf with
  | None => Ret None
  | Some None => Ret (Some None)
  | Some (Some p) =>
      if negb (pk_code p =? CODE_ACCESS_REQUEST)%N then Ret (Some None)
      else
        found ← secret_for key src;
        match found with
        | None => Ret (Some None)
        | Some (_, secret) =>
            match Packet.verify_message_authenticator hmac_md5 p (bytes secret) with
            | None => Ret None
            | Some false => Ret (Some None)
            | Some true => authorize p (bytes secret)
            end
        end
  end.

Definition session_update (p : Packet) (src : IpAddr) : SessionUpdate :=
  mkSessionUpdate (Packet.get_string p ATTR_USER_NAME) (mac_of p ATTR_CALLING_STATION_ID)
    (Some (default (fmt_ip src) (Packet.get_ipv4 p ATTR_NAS_IP_ADDRESS)))
    (match Packet.get_string p ATTR_NAS_PORT_ID with
     | Some port => Some port
     | None => Packet.get_string p ATTR_CALLED_STATION_ID
     end)
    (Packet.get_ipv4 p ATTR_FRAMED_IP_ADDRESS) (Packet.get_string p ATTR_ACCT_SESSION_ID) (Some #"accounting")
    (bool_decide (Packet.get_u32 p ATTR_ACCT_STATUS_TYPE = Some ACCT_STATUS_STOP))
    (fmt_N <$> Packet.get_u32 p ATTR_ACCT_TERMINATE_CAUSE).
Definition handle_acct (id : Uuid) (key : Cipher) (src : IpAddr) (buf : list N) : Prog Nac Reply :=
  match Packet.parse buf with
  | None => Ret None
  | Some None => Ret (Some None)
  | Some (Some p) =>
      if negb (pk_code p =? CODE_ACCOUNTING_REQUEST)%N then Ret (Some None)
      else
        found ← secret_for key src;
        match found with
        | None => Ret (Some None)
        | Some (_, secret) =>
            match Packet.verify_accounting_authenticator md5 p (bytes secret) with
            | None => Ret None
            | Some false => Ret (Some None)
            | Some true =>
                _ ← upsert_session id (session_update p src);
                Ret (respond p (bytes secret) false CODE_ACCOUNTING_RESPONSE [])
            end
        end
  end.

Inductive Handler : Set := Auth | Acct.
(** What a listener does with a datagram, of which [recv_from] keeps what fits
    the buffer; [id] is the one a new session takes. *)
Definition spawn_listener (h : Handler) (id : Uuid) (key : Cipher) (src : IpAddr) (received : list N) : Prog Nac Reply :=
  let datagram := take (N.to_nat MAX_PACKET) received in
  match h with Auth => handle_auth key src datagram | Acct => handle_acct id key src datagram end.
End hashes.

(** The ports the listeners are started on, if they are. *)
Definition spawn_panopticon_radius (key : option Cipher) : Prog Nac (option (N * N)) :=
  enabled ← settings_bool PANOPTICON_RADIUS_ENABLED;
  if negb enabled then Ret None
  else match key with
       | None => Ret None
       | Some _ =>
           auth_port ← settings_u32 PANOPTICON_RADIUS_AUTH_PORT PANOPTICON_RADIUS_AUTH_PORT_DEFAULT;
           acct_port ← settings_u32 PANOPTICON_RADIUS_ACCT_PORT PANOPTICON_RADIUS_ACCT_PORT_DEFAULT;
           Ret (Some (auth_port mod 65536, acct_port mod 65536)%N)
       end.

(** ** The handlers *)

Context `{Htext : !Text}.
Implicit Types (jar : CookieJar) (ctx : AuthContext).

Record RadiusSettingsForm := mkRadiusSettingsForm {
  rf_csrf_token : rstr; rf_enabled : bool; rf_auth_port : N; rf_acct_port : N; rf_trusted_vlan : N; rf_guest_vlan : N;
  rf_untrusted_action : rstr; rf_unknown_action : rstr }.
Definition vlan_error (field : rstr) : AppError :=
  Validation (field ++ #" VLAN must be between 1 and 4094 (or 0 for none).").
Definition check_settings (form : RadiusSettingsForm) : result AppError () :=
  if (4094 <? rf_trusted_vlan form)%N then Err (vlan_error #"trusted")
  else if (4094 <? rf_guest_vlan form)%N then Err (vlan_error #"guest")
  else if negb (str_mem (rf_untrusted_action form) [ #"quarantine"; #"reject"]) then
    Err (Validation #"Invalid untrusted action.")
  else if negb (str_mem (rf_unknown_action form) [ #"accept"; #"guest"; #"reject"]) then
    Err (Validation #"Invalid unknown action.")
  else Ok ().
Definition radius_set_settings jar ctx (form : RadiusSettingsForm) : Prog Nac (result AppError rstr) :=
  nac_gate jar ctx (rf_csrf_token form) (
    ? Ret (check_settings form);
    let auth_port := if (rf_auth_port form =? 0)%N then PANOPTICON_RADIUS_AUTH_PORT_DEFAULT else rf_auth_port form in
    let acct_port := if (rf_acct_port form =? 0)%N then PANOPTICON_RADIUS_ACCT_PORT_DEFAULT else rf_acct_port form in
    ? n_internal (n_set_setting PANOPTICON_RADIUS_ENABLED (Bool (rf_enabled form)));
    ? n_internal (n_set_setting PANOPTICON_RADIUS_AUTH_PORT (num auth_port));
    ? n_internal (n_set_setting PANOPTICON_RADIUS_ACCT_PORT (num acct_port));
    ? n_internal (n_set_setting PANOPTICON_RADIUS_TRUSTED_VLAN (num (rf_trusted_vlan form)));
    ? n_internal (n_set_setting PANOPTICON_RADIUS_GUEST_VLAN (num (rf_guest_vlan form)));
    ? n_internal (n_set_setting PANOPTICON_RADIUS_UNTRUSTED_ACTION (Str (rf_untrusted_action form)));
    ? n_internal (n_set_setting PANOPTICON_RADIUS_UNKNOWN_ACTION (Str (rf_unknown_action form)));
    ? n_internal (n_audit (new_event ConfigurationChanged Success |> with_actor (actor_of ctx)
        |> with_resource PANOPTICON_RADIUS_ENABLED |> with_metadata (Obj [(#"enabled", Bool (rf_enabled form))])));
    Ret (Ok #"/arsenals/panopticon/radius")).

Record RadiusClientForm := mkRadiusClientForm {
  cf_csrf_token : rstr; cf_name : rstr; cf_nas_address : rstr; cf_shared_secret : rstr }.
(** [nonce] is what the cipher draws. *)
Definition radius_create_client jar ctx (id : Uuid) (nonce : N) (key : option Cipher) (form : RadiusClientForm)
    : Prog Nac (result AppError rstr) :=
  nac_gate jar ctx (cf_csrf_token form) (
    let name := trim (cf_name form) in
    let nas_address := trim (cf_nas_address form) in
    let secret := trim (cf_shared_secret form) in
    if is_empty name || is_empty nas_address || is_empty secret then
      Ret (Err (Validation #"Name, NAS address, and shared secret are all required."))
    else if negb (bool_decide (is_Some (parse_ip nas_address)) || bool_decide (is_Some (parse_cidr nas_address))) then
      Ret (Err (Validation #"NAS address must be an IP (10.0.0.2) or CIDR (10.0.0.0/24)."))
    else
      match key with
      | None => Ret (Err (Validation #"ENCRYPTION_KEY isn't configured -- a RADIUS shared secret can't be stored safely."))
      | Some key =>
          secret_encrypted ←? Ret (match encrypt key nonce secret with
                                   | Ok t => Ok t
                                   | Err e => Err (Validation (#"Failed to encrypt shared secret: " ++ e))
                                   end);
          ? n_internal (create_client id name nas_address secret_encrypted);
          Ret (Ok #"/arsenals/panopticon/radius")
      end).
Definition radius_client_set_enabled jar ctx (id : Uuid) (csrf_token : rstr) (flag : bool) : Prog Nac (result AppError rstr) :=
  nac_gate jar ctx csrf_token (? n_internal (set_client_enabled id flag); Ret (Ok #"/arsenals/panopticon/radius")).
Definition radius_client_delete jar ctx (id : Uuid) (csrf_token : rstr) : Prog Nac (result AppError rstr) :=
  nac_gate jar ctx csrf_token (? n_internal (delete_client id); Ret (Ok #"/arsenals/panopticon/radius")).
End server.
