(* ===== verification/RadiusServerTheorems.v ===== *)
(** * Who the RADIUS server lets in

    The answer to every Access-Request, with what each failing statement does to
    it; what an Access-Accept implies; and the sessions that accounting builds up. *)

From Stdlib Require Import NArith Lia.
From stdpp Require Import sorting.
From S2P Require Import Prelude Percent Permission Json AuditLog RoleStore Web Delegation.
From S2P Require Import Auth Users Login Steps Aat Snmp SnmpTheorems Nac NacPolicy NacLogic.
From S2P Require Import NacLogic.
From S2P Require Import Ip Subnet Radius RadiusServer.

(** ** Clients *)

(** The sources an entry of the client table covers: with a prefix, the addresses
    of its family that agree with it on the prefix; without, the one address it is
    the text of. *)
Definition covers (nas_address : rstr) (src : IpAddr) : Prop :=
  (∃ addr prefix, parse_cidr (trim nas_address) = Some (addr, prefix) ∧ in_same_block addr src prefix) ∨
  (parse_cidr (trim nas_address) = None ∧ trim nas_address = fmt_ip src).

(** A configured client stands for exactly the sources its address covers: an
    entry with a prefix for the addresses of its family that agree with it on the
    prefix, any other entry for the one address it is the text of. *)
Theorem client_matches_exact nas_address src :
  ip_ok src →
  client_matches nas_address src = true ↔ covers nas_address src.
Proof.
  intros Hsrc. unfold client_matches, covers. destruct (parse_cidr (trim nas_address)) as [[addr prefix]|] eqn:E.
  - destruct (parse_cidr_ok _ _ _ E) as [Ha Hp].
    pose proof (network_of_parsed (fmt_ip src) src prefix) as Hn. rewrite fmt_ip_trim, parse_fmt_ip in Hn by done.
    rewrite Hn, network_of_fmt by done. cbn. rewrite bool_decide_eq_true.
    pose proof (ip_width_128 addr). pose proof (ip_width_128 src). split.
    + intros [= Et]. apply cidr_text_inj in Et as [Em Ep]; [|apply masked_ok; [done|lia]|by apply masked_ok|lia|lia].
      left. exists addr, prefix. split; [done|]. rewrite Ep in Em. symmetry in Em. apply masked_same in Em; [done..|lia].
    + intros [(a & p & [= <- <-] & Hb)|[[=] _]]. destruct Hb as [Hw Hb]. rewrite <- Hw, N.min_l by done. do 2 f_equal.
      apply masked_same; [done..|by rewrite <- Hw|done|]. split; [done|]. rewrite <- Hw. by symmetry.
  - unfold str_eqb. rewrite bool_decide_eq_true. split; [by right|]. by intros [(? & ? & [=] & _)|[_ ?]].
Qed.
Lemma client_matches_exact_witness :
  client_matches #" 10.0.0.0/24" (IpV4 167772167) = true ↔ covers #" 10.0.0.0/24" (IpV4 167772167).
Proof. apply client_matches_exact. reflexivity. Defined.

(** ** Whom a request authenticates *)

(** [raw] holds twelve hexadecimal digits, whatever else is in it, and [mac] is
    they in lower case, two by two. *)
Definition spells (raw mac : rstr) : Prop :=
  ∃ a b c d e f g h i j k l, List.filter is_ascii_hexdigit raw = [a; b; c; d; e; f; g; h; i; j; k; l] ∧
    mac = to_ascii_lowercase [a; b] ++ #":" ++ to_ascii_lowercase [c; d] ++ #":" ++ to_ascii_lowercase [e; f] ++ #":"
       ++ to_ascii_lowercase [g; h] ++ #":" ++ to_ascii_lowercase [i; j] ++ #":" ++ to_ascii_lowercase [k; l].
Definition claims (p : Packet) (attr : N) (mac : rstr) : Prop :=
  ∃ raw, Packet.get_string p attr = Some raw ∧ spells raw mac.
(** The station id (31) or the user name (1) is a MAC, and if both are they are
    the same. *)
Definition authenticates (p : Packet) (mac : rstr) : Prop :=
  (claims p 31 mac ∨ claims p 1 mac) ∧ ∀ m, claims p 31 m ∨ claims p 1 m → m = mac.
(** A password, a CHAP password or an EAP message. *)
Definition bears_credential (p : Packet) : Prop := ∃ a, a ∈ pk_attributes p ∧ (a.1 = 2 ∨ a.1 = 3 ∨ a.1 = 79)%N.

Lemma normalize_mac_spells raw mac : normalize_mac raw = Some mac ↔ spells raw mac.
Proof.
  unfold normalize_mac, spells. split.
  - destruct (Nat.eqb_spec (length (List.filter is_ascii_hexdigit raw)) 12) as [Hl|]; [|done]. cbn [negb].
    destruct (List.filter is_ascii_hexdigit raw) as [|a [|b [|c [|d [|e [|f [|g [|h [|i [|j [|k [|l [|]]]]]]]]]]]]]; try done.
    intros [= <-]. exists a, b, c, d, e, f, g, h, i, j, k, l. done.
  - by intros (a & b & c & d & e & f & g & h & i & j & k & l & -> & ->).
Qed.
Lemma mac_of_claims p attr mac : mac_of p attr = Some mac ↔ claims p attr mac.
Proof.
  unfold mac_of, claims. rewrite bind_Some. split; intros (raw & ? & Hn); exists raw; (split; [done|]).
  - by apply normalize_mac_spells.
  - by apply normalize_mac_spells.
Qed.

(** ** The ruling on a device *)

(** The attributes that put the port in a VLAN: tunnel type VLAN, medium 802, and
    the number in decimal, all under tag 1. *)
Definition tunnel (vlan : N) : list (N * list N) :=
  [(64, [1; 0; 0; 13]); (65, [1; 0; 0; 6]); (81, 1 :: bytes (fmt_N vlan))]%N.
(** What the policy says of a device of this trust: 2 is Access-Accept, 3
    Access-Reject. *)
Inductive ruling (po : RadiusPolicy) : option TrustState → N → list (N * list N) → Prop :=
| rule_trusted_vlan : (0 < trusted_vlan po)%N → ruling po (Some Trusted) 2 (tunnel (trusted_vlan po))
| rule_trusted : trusted_vlan po = 0%N → ruling po (Some Trusted) 2 []
| rule_quarantine :
    untrusted_action po ≠ #"reject" → (0 < rp_quarantine_vlan po)%N →
    ruling po (Some Untrusted) 2 (tunnel (rp_quarantine_vlan po))
| rule_untrusted_rejected :
    untrusted_action po = #"reject" ∨ rp_quarantine_vlan po = 0%N → ruling po (Some Untrusted) 3 []
| rule_unknown_rejected t : t = None ∨ t = Some TrustUnknown → unknown_action po = #"reject" → ruling po t 3 []
| rule_guest t :
    t = None ∨ t = Some TrustUnknown → unknown_action po = #"guest" → (0 < guest_vlan po)%N →
    ruling po t 2 (tunnel (guest_vlan po))
| rule_guest_anywhere t :
    t = None ∨ t = Some TrustUnknown → unknown_action po = #"guest" → guest_vlan po = 0%N → ruling po t 2 []
| rule_unknown t :
    t = None ∨ t = Some TrustUnknown → unknown_action po ≠ #"reject" → unknown_action po ≠ #"guest" → ruling po t 2 [].

Lemma decide_mab_rules trust po :
  ruling po trust (decision_packet (decide_mab trust po)).1 (decision_packet (decide_mab trust po)).2.
Proof.
  unfold decide_mab, str_eqb. destruct trust as [[]|]; repeat case_bool_decide; cbn [decision_packet fst snd].
  all: repeat match goal with |- context [(0 <? ?v)%N] => destruct (N.ltb_spec 0 v) end; cbn [fst snd].
  all: first [eapply rule_trusted_vlan; done|eapply rule_trusted; lia|eapply rule_quarantine; done
    |eapply rule_untrusted_rejected; first [by left|right; lia]|eapply rule_unknown_rejected; by auto
    |eapply rule_guest; by auto|eapply rule_guest_anywhere; [by auto|done|lia]|eapply rule_unknown; by auto].
Qed.

(** ** Attributes of an answer *)

Lemma dec_digits_spec fuel n acc :
  Forall (λ c, (c < 128)%N) acc → Forall (λ c, (c < 128)%N) (dec_digits fuel n acc) ∧
  length (dec_digits fuel n acc) ≤ fuel + length acc.
Proof.
  revert n acc. induction fuel as [|fuel IH]; intros n acc Ha; [done|]. cbn [dec_digits].
  assert (Forall (λ c, (c < 128)%N) ((48 + n mod 10)%N :: acc)) as Hc.
  { constructor; [|done]. pose proof (N.mod_lt n 10). lia. }
  destruct (_ =? _)%N; [split; [done|cbn; lia]|]. destruct (IH (n / 10)%N _ Hc) as [H1 H2]. split; [done|]. cbn in H2. lia.
Qed.
Lemma vlan_attributes_ok vlan : (vlan < 2 ^ 32)%N →
  Forall attr_ok (vlan_attributes vlan) ∧ Forall (λ a, a.1 ≠ ATTR_MESSAGE_AUTHENTICATOR) (vlan_attributes vlan) ∧
  length (body (vlan_attributes vlan)) ≤ 60.
Proof.
  intros Hv. destruct (dec_digits_spec (S (N.to_nat (N.size vlan))) vlan []) as [Hc Hl]; [done|].
  assert (N.to_nat (N.size vlan) ≤ 32) as Hs.
  { destruct (decide (vlan = 0%N)) as [-> |Hne]; [cbn; lia|]. rewrite N.size_log2 by done.
    assert (N.log2 vlan < 32)%N by (apply N.log2_lt_pow2; lia). lia. }
  fold (fmt_N vlan) in Hc, Hl. cbn [length] in Hl. unfold vlan_attributes. rewrite bytes_ascii by (by apply Forall_forall). split_and!.
  - constructor; [|constructor; [|constructor; [|done]]]; (split_and!; [done| |cbn [snd length]; lia]); [by repeat constructor..|].
    constructor; [done|]. eapply Forall_impl; [exact Hc|]. unfold is_byte. cbn. lia.
  - by repeat constructor.
  - rewrite !body_cons, !length_app, !length_encode. cbn [snd length]. change (length (body [])) with 0. lia.
Qed.

Section server.
Context `{Hlink : !SnmpLink, Hord : !SqlOrder, Heng : !SqlEngine, Hsql : !SqlText}.
Implicit Types (s : Nac).

(** ** The answer, as a function of what the statements return *)

(** The policy as read by statements 2 to 6 from now. *)
Definition policy_read s : RadiusPolicy :=
  let u32 (n : nat) key d := if outages s n then d else get_u32 (n_site s) key d in
  let text (n : nat) key d := if outages s n then d else get_string (n_site s) key d in
  mkRadiusPolicy (u32 2 PANOPTICON_RADIUS_TRUSTED_VLAN 0%N) (u32 3 PANOPTICON_QUARANTINE_VLAN 0%N)
    (text 4 PANOPTICON_RADIUS_UNTRUSTED_ACTION #"quarantine") (text 5 PANOPTICON_RADIUS_UNKNOWN_ACTION #"accept")
    (u32 6 PANOPTICON_RADIUS_GUEST_VLAN 0%N).
(** The trust of the device, which is lost when its lookup fails. *)
Definition trust_read s (mac : rstr) : option TrustState :=
  if outages s 1 then None else dv_trust_state <$> find_by_mac s mac.

Definition credentialed (p : Packet) : bool :=
  Packet.has p ATTR_EAP_MESSAGE || (Packet.has p ATTR_USER_PASSWORD || Packet.has p ATTR_CHAP_PASSWORD).
Definition mab_mac (p : Packet) : MacResolution := resolve_mab_mac (mac_of p ATTR_CALLING_STATION_ID) (mac_of p ATTR_USER_NAME).
Definition verdict s (p : Packet) : Decision :=
  if credentialed p then Reject
  else match mab_mac p with Resolved mac => decide_mab (trust_read s mac) (policy_read s) | _ => Reject end.

(** The device last seen with this MAC, if there is one, as the inventory has it. *)
Definition carries (mac : rstr) (d : NetworkDevice) : Prop :=
  ∃ m, dv_mac_address d = Some m ∧ name_eqb (sql_upper m) (sql_upper mac) = true.
Definition recorded s (mac : rstr) (trust : option TrustState) : Prop :=
  if outages s 1 then trust = None
  else trust = None ∧ (∀ d, d ∈ devices s → ¬ carries mac d) ∨
       ∃ d, trust = Some (dv_trust_state d) ∧ d ∈ devices s ∧ carries mac d ∧
            ∀ d', d' ∈ devices s → carries mac d' → (dv_last_seen_at d' ≤ dv_last_seen_at d)%N.

Lemma mac_is_carries mac d : mac_is mac d = true ↔ carries mac d.
Proof. unfold mac_is, carries. destruct (dv_mac_address d) as [m|]; naive_solver. Qed.
Lemma trust_read_recorded s mac : recorded s mac (trust_read s mac).
Proof.
  unfold recorded, trust_read, find_by_mac. destruct (outages s 1); [done|].
  set (le := λ a b : NetworkDevice, (dv_last_seen_at b <=? dv_last_seen_at a)%N).
  pose proof (order_by_perm le (List.filter (mac_is mac) (devices s))) as Hp.
  pose proof (order_by_sorted le (List.filter (mac_is mac) (devices s))) as Hs.
  assert (∀ d, d ∈ devices s → carries mac d → d ∈ order_by le (List.filter (mac_is mac) (devices s))) as Hin.
  { intros d Hd Hc. rewrite Hp. apply list_elem_of_In, filter_In. split; [by apply list_elem_of_In|by apply mac_is_carries]. }
  destruct (order_by le _) as [|d l].
  - left. split; [done|]. intros d Hd Hc. by apply (Hin d Hd), not_elem_of_nil in Hc.
  - right. exists d. split; [done|].
    assert (In d (List.filter (mac_is mac) (devices s))) as [H1 H2]%filter_In
      by (apply list_elem_of_In; rewrite <- Hp; by left).
    split; [by apply list_elem_of_In|]. split; [by apply mac_is_carries|]. intros d' Hd' Hc'.
    assert (StronglySorted (λ x y, le x y) (d :: l)) as [_ Hall]%StronglySorted_inv.
    { apply Hs; unfold le; intros; rewrite ?orb_True, !Is_true_true, !N.leb_le in *; lia. }
    specialize (Hin d' Hd' Hc'). apply elem_of_cons in Hin as [->|Hl]; [done|]. rewrite Forall_forall in Hall. apply Hall in Hl.
    unfold le in Hl. rewrite Is_true_true, N.leb_le in Hl. done.
Qed.

(** The secret shared with the client that [src] falls under: the first, in the
    order of their names, of the enabled entries that cover it. *)
Definition shares (key : Cipher) (src : IpAddr) s (secret : rstr) : Prop :=
  outages s 0 = false ∧
  ∃ pre c post, order_by (λ a b, text_leb (rc_name a) (rc_name b)) (List.filter rc_enabled (map_to_list (radius_clients s)).*2)
      = pre ++ c :: post ∧
    Forall (λ c', ¬ covers (rc_nas_address c') src) pre ∧ covers (rc_nas_address c) src ∧
    decrypt key (rc_shared_secret_encrypted c) = Ok secret.

(** What the server computes. *)
Definition client_secret (key : Cipher) (src : IpAddr) s : option rstr :=
  if outages s 0 then None
  else client ← List.find (λ c, client_matches (rc_nas_address c) src) (list_enabled_clients s);
       match decrypt key (rc_shared_secret_encrypted client) with Ok secret => Some secret | Err _ => None end.

Lemma find_split {A} (f : A → bool) l x :
  List.find f l = Some x ↔ ∃ pre post, l = pre ++ x :: post ∧ Forall (λ y, ¬ f y = true) pre ∧ f x = true.
Proof.
  induction l as [|y l IH]; cbn.
  - split; [done|]. by intros ([|] & post & [=] & _).
  - destruct (f y) eqn:Hy.
    + split; [intros [= ->]; by exists [], l|]. intros ([|z pre] & post & [= <- Hl] & Hpre & Hx); [done|].
      inversion Hpre. congruence.
    + rewrite IH. split.
      * intros (pre & post & -> & Hpre & Hx). exists (y :: pre), post. split; [done|]. split; [|done].
        constructor; [congruence|done].
      * intros ([|z pre] & post & [= <- Hl] & Hpre & Hx); [congruence|]. inversion Hpre. by exists pre, post.
Qed.
Lemma client_secret_shares key src s secret : ip_ok src → client_secret key src s = Some secret ↔ shares key src s secret.
Proof.
  intros Hsrc. unfold client_secret, shares. destruct (outages s 0); [split; [done|by intros [? _]]|].
  rewrite bind_Some. split.
  - intros (c & (pre & post & Hl & Hpre & Hc)%find_split & Hd). split; [done|]. exists pre, c, post. split_and!.
    + exact Hl.
    + eapply Forall_impl; [exact Hpre|]. intros c' Hc' Hcov. by apply Hc', client_matches_exact.
    + by apply client_matches_exact.
    + destruct (decrypt _ _); [congruence|done].
  - intros (_ & pre & c & post & Hl & Hpre & Hc & Hd). exists c. rewrite Hd. split; [|done]. apply find_split.
    exists pre, post. split; [exact Hl|]. split; [|by apply client_matches_exact].
    eapply Forall_impl; [exact Hpre|]. intros c' Hc' Hcov. by apply Hc', client_matches_exact.
Qed.

(** The ruling on a request. *)
Definition ruled s (p : Packet) (code : N) (attrs : list (N * list N)) : Prop :=
  (bears_credential p ∨ ∀ mac, ¬ authenticates p mac) ∧ code = 3%N ∧ attrs = [] ∨
  ¬ bears_credential p ∧ ∃ mac trust, authenticates p mac ∧ recorded s mac trust ∧ ruling (policy_read s) trust code attrs.

Lemma credentialed_bears p : credentialed p = true ↔ bears_credential p.
Proof.
  unfold credentialed, bears_credential, Packet.has. rewrite !orb_true_iff, !existsb_exists.
  setoid_rewrite N.eqb_eq. setoid_rewrite <- list_elem_of_In. unfold ATTR_EAP_MESSAGE, ATTR_USER_PASSWORD, ATTR_CHAP_PASSWORD.
  naive_solver.
Qed.
Lemma mab_mac_authenticates p :
  match mab_mac p with Resolved mac => authenticates p mac | _ => ∀ mac, ¬ authenticates p mac end.
Proof.
  pose proof (λ m, mac_of_claims p 31 m) as Hc. pose proof (λ m, mac_of_claims p 1 m) as Hu.
  unfold mab_mac, resolve_mab_mac, authenticates, str_eqb.
  change ATTR_CALLING_STATION_ID with 31%N. change ATTR_USER_NAME with 1%N.
  destruct (mac_of p 31) as [c|], (mac_of p 1) as [u|]; try case_bool_decide; naive_solver.
Qed.
Lemma verdict_ruled s p : ruled s p (decision_packet (verdict s p)).1 (decision_packet (verdict s p)).2.
Proof.
  unfold ruled, verdict. pose proof (credentialed_bears p) as Hb. destruct (credentialed p).
  - left. split; [left; by apply Hb|done].
  - pose proof (mab_mac_authenticates p) as Hm. destruct (mab_mac p) as [mac| |]; [|left; by auto..].
    right. split; [intros Hc; by apply Hb in Hc|]. exists mac, (trust_read s mac). split; [done|].
    split; [apply trust_read_recorded|apply decide_mab_rules].
Qed.

Lemma run_secret_for key src s :
  snd <$> (run (secret_for key src) s).1 = client_secret key src s ∧ (run (secret_for key src) s).2 = tick s.
Proof.
  unfold secret_for, client_secret. rewrite run_bind, run_n_select. destruct (outages s 0); [done|]. cbn [run fst snd].
  change (list_enabled_clients (tick s)) with (list_enabled_clients s).
  destruct (List.find _ _) as [c|]; [|done]. cbn [mbind option_bind]. by destruct (decrypt _ _).
Qed.
Lemma run_settings_string k d s :
  run (settings_string k d) s = (if outages s 0 then d else get_string (n_site s) k d, tick s).
Proof. unfold settings_string. rewrite run_bind, run_n_select. by destruct (outages s 0). Qed.
Lemma run_load_policy s : run load_policy s =
  (let u32 (n : nat) key d := if outages s n then d else get_u32 (n_site s) key d in
   let text (n : nat) key d := if outages s n then d else get_string (n_site s) key d in
   mkRadiusPolicy (u32 0 PANOPTICON_RADIUS_TRUSTED_VLAN 0%N) (u32 1 PANOPTICON_QUARANTINE_VLAN 0%N)
     (text 2 PANOPTICON_RADIUS_UNTRUSTED_ACTION #"quarantine") (text 3 PANOPTICON_RADIUS_UNKNOWN_ACTION #"accept")
     (u32 4 PANOPTICON_RADIUS_GUEST_VLAN 0%N), Nat.iter 5 tick s).
Proof.
  unfold load_policy. do 2 (rewrite run_bind, run_settings_u32). do 2 (rewrite run_bind, run_settings_string).
  rewrite run_bind, run_settings_u32. reflexivity.
Qed.

Section hashes.
Context (md5 : list N → list N) (hmac_md5 : list N → list N → list N).
Context (Hmd5 : ∀ l, length (md5 l) = 16 ∧ Forall is_byte (md5 l)).
Context (Hhmac : ∀ k l, length (hmac_md5 k l) = 16 ∧ Forall is_byte (hmac_md5 k l)).

(** [resp] answers the request [p] with this code and these attributes, with a
    Message-Authenticator if [signed], and a
    client that shares [secret] takes it for genuine. *)
Definition answers (secret : list N) (p : Packet) (signed : bool) (code : N) (attrs : list (N * list N)) (resp : list N) : Prop :=
  ∃ q tag, Packet.parse resp = Some (Some q) ∧ pk_code q = code ∧ pk_id q = pk_id p ∧
    pk_attributes q = with_tag attrs signed tag ∧
    response_authentic md5 hmac_md5 secret (pk_authenticator p) q.

Lemma respond_answers p secret signed code attrs :
  packet_ok p → is_byte code → Forall attr_ok attrs → Forall (λ a, a.1 ≠ ATTR_MESSAGE_AUTHENTICATOR) attrs →
  length (body attrs) ≤ 60 →
  ∃ resp, respond md5 hmac_md5 p secret signed code attrs = Some (Some resp) ∧ answers secret p signed code attrs resp.
Proof.
  intros Hp Hc Ha Hno Hlen. unfold respond, answers.
  destruct (response_round_trip md5 hmac_md5 Hmd5 Hhmac code (pk_id p) (pk_authenticator p) attrs secret signed)
    as (resp & q & -> & Hparse & H1 & H2 & (tag & _ & H3) & H4); [done|apply Hp|apply Hp|done|done| |].
  - unfold with_tag. rewrite body_app, length_app. destruct signed; cbn; lia.
  - exists resp. split; [done|]. by exists q, tag.
Qed.

Lemma get_u32_bound x k d : (d < 2 ^ 32)%N → (get_u32 x k d < 2 ^ 32)%N.
Proof. intros Hd. unfold get_u32. repeat case_match; try done. by apply N.ltb_lt. Qed.
Definition vlan_ok (d : Decision) : Prop := match d with Accept (Some v) => (0 < v < 2 ^ 32)%N | _ => True end.
Lemma verdict_vlan s p : vlan_ok (verdict s p).
Proof.
  unfold verdict. destruct (credentialed p); [done|]. destruct (mab_mac p) as [mac| |]; [|done..].
  assert (∀ n k, ((if outages s n then 0 else get_u32 (n_site s) k 0) < 2 ^ 32)%N) as Hb.
  { intros n k. destruct (outages s n); [done|]. by apply get_u32_bound. }
  unfold decide_mab, policy_read. cbn [trusted_vlan rp_quarantine_vlan guest_vlan untrusted_action unknown_action].
  destruct (trust_read s mac) as [[]|].
  all: repeat match goal with |- context [if (0 <? ?v)%N then _ else _] => destruct (N.ltb_spec 0 v) end.
  all: repeat match goal with |- context [if str_eqb ?a ?b then _ else _] => destruct (str_eqb a b) end.
  all: cbn [vlan_ok]; first [done|split; [done|apply Hb]].
Qed.
Lemma decision_answers p secret d : packet_ok p → vlan_ok d →
  ∃ resp, respond md5 hmac_md5 p secret (Packet.has p ATTR_MESSAGE_AUTHENTICATOR) (decision_packet d).1 (decision_packet d).2
      = Some (Some resp) ∧ answers secret p (Packet.has p ATTR_MESSAGE_AUTHENTICATOR) (decision_packet d).1 (decision_packet d).2 resp.
Proof.
  intros Hp Hd. apply respond_answers; [done| | | |].
  - by destruct d.
  - destruct d as [[v|]|]; [|done..]. by apply vlan_attributes_ok, Hd.
  - destruct d as [[v|]|]; [|done..]. by apply vlan_attributes_ok, Hd.
  - destruct d as [[v|]|]; [|cbn; lia..]. by apply vlan_attributes_ok, Hd.
Qed.

Lemma run_authorize p secret s :
  ∃ n, run (authorize md5 hmac_md5 p secret) (tick s) =
    (respond md5 hmac_md5 p secret (Packet.has p ATTR_MESSAGE_AUTHENTICATOR) (decision_packet (verdict s p)).1
       (decision_packet (verdict s p)).2, Nat.iter n tick s).
Proof.
  unfold authorize, verdict, credentialed, mab_mac. destruct (Packet.has p ATTR_EAP_MESSAGE); [by exists 1|]. cbn [orb].
  destruct (_ || _); [by exists 1|]. destruct (resolve_mab_mac _ _) as [mac| |]; [|by exists 1..].
  exists 7. rewrite run_bind. unfold trust_of. rewrite run_bind, run_n_select. cbn [run].
  rewrite run_bind, run_load_policy. cbn [run].
  change (find_by_mac (tick (tick s)) mac) with (find_by_mac s mac).
  assert (Nat.iter 5 tick (tick (tick s)) = Nat.iter 7 tick s) as -> by by rewrite <- !Nat.iter_succ_r.
  cbn [outages tick]. change (n_site (tick (tick s))) with (n_site s).
  set (po := mkRadiusPolicy _ _ _ _ _). assert (policy_read s = po) as -> by done. clearbody po.
  assert (trust_read s mac = match (if outages s 1 then Err Unavailable else Ok (find_by_mac s mac)) with
    Ok d => dv_trust_state <$> d | Err _ => None end) as -> by (unfold trust_read; by destruct (outages s 1)).
  by destruct (decision_packet _) as [code attrs].
Qed.

(** A datagram the server answers: a well-formed Access-Request of a client, whose
    Message-Authenticator, if it has one, was made with the shared secret. *)
Record authentic_request (key : Cipher) (src : IpAddr) (buf : list N) s (p : Packet) (secret : rstr) : Prop := {
  req_parses : Packet.parse buf = Some (Some p);
  req_code : pk_code p = CODE_ACCESS_REQUEST;
  req_secret : shares key src s secret;
  req_authentic : message_authentic hmac_md5 (bytes secret) (pk_authenticator p) p }.

Lemma auth_exact key src buf s :
  Forall is_byte buf → ip_ok src →
  (∃ n, (run (handle_auth md5 hmac_md5 key src buf) s).2 = Nat.iter n tick s) ∧
  (((run (handle_auth md5 hmac_md5 key src buf) s).1 = Some None ∧ ∀ p secret, ¬ authentic_request key src buf s p secret) ∨
   ∃ p secret resp, authentic_request key src buf s p secret ∧
     (run (handle_auth md5 hmac_md5 key src buf) s).1 = Some (Some resp) ∧
     answers (bytes secret) p (Packet.has p ATTR_MESSAGE_AUTHENTICATOR) (decision_packet (verdict s p)).1 (decision_packet (verdict s p)).2 resp).
Proof.
  intros Hb Hsrc. unfold handle_auth. destruct (parse_sound buf Hb) as (r & Er & Hr). rewrite Er. destruct r as [p|].
  2: { split; [by exists 0|]. left. split; [done|]. intros p secret [Hp _ _ _]. congruence. }
  destruct (Hr p eq_refl) as [Hp _]. destruct (N.eqb_spec (pk_code p) CODE_ACCESS_REQUEST) as [Hc|Hc]; cbn [negb].
  2: { split; [by exists 0|]. left. split; [done|]. intros p' secret [Hp' Hc' _ _]. congruence. }
  rewrite run_bind. destruct (run_secret_for key src s) as [Hs Ht]. destruct (run (secret_for key src) s) as [found s1].
  cbn [fst snd] in Hs, Ht |- *. subst s1. destruct found as [[client secret]|]; cbn in Hs.
  2: { split; [by exists 1|]. left. split; [done|]. intros p' secret [_ _ Hs' _]. apply client_secret_shares in Hs'; [congruence|done]. }
  destruct (verify_message_authenticator_spec hmac_md5 p (bytes secret) Hp) as (b & -> & Hauth). destruct b.
  - destruct (run_authorize p (bytes secret) s) as [n ->]. cbn [fst snd]. split; [by exists n|]. right.
    destruct (decision_answers p (bytes secret) (verdict s p) Hp (verdict_vlan s p)) as (resp & -> & Hans).
    exists p, secret, resp. split_and!; [|done|].
    + by constructor; [| |apply client_secret_shares|apply Hauth].
    + done.
  - split; [by exists 1|]. left. split; [done|]. intros p' secret' [Hp' _ Hs' Ha']. rewrite Er in Hp'. injection Hp' as <-.
    apply client_secret_shares in Hs'; [|done]. rewrite Hs' in Hs. injection Hs as <-. by apply Hauth in Ha'.
Qed.

Lemma answers_code secret p signed code attrs resp q :
  answers secret p signed code attrs resp → Packet.parse resp = Some (Some q) →
  pk_code q = code ∧ ∃ tag, pk_attributes q = with_tag attrs signed tag.
Proof. intros (q' & tag & Hq & Hc & _ & Ha & _) Hq'. rewrite Hq in Hq'. injection Hq' as <-. eauto. Qed.

(** What an Access-Accept implies.  The request came with no credential that
    would have to be checked, and with one MAC; if the inventory could be asked
    and calls the device last seen with that MAC untrusted, then the port goes to
    the configured quarantine VLAN, and the policy does not say to reject. *)
Theorem untrusted_confined key src buf s p resp q :
  Forall is_byte buf → ip_ok src → Packet.parse buf = Some (Some p) →
  (run (handle_auth md5 hmac_md5 key src buf) s).1 = Some (Some resp) → Packet.parse resp = Some (Some q) →
  pk_code q = CODE_ACCESS_ACCEPT →
  credentialed p = false ∧ ∃ mac, mab_mac p = Resolved mac ∧
    ∀ d, outages s 1 = false → find_by_mac s mac = Some d → dv_trust_state d = Untrusted →
      let vlan := get_u32 (n_site s) PANOPTICON_QUARANTINE_VLAN 0 in
      (0 < vlan)%N ∧ untrusted_action (policy_read s) ≠ #"reject" ∧
      ∃ tag, pk_attributes q = with_tag (vlan_attributes vlan) (Packet.has p ATTR_MESSAGE_AUTHENTICATOR) tag.
Proof.
  intros Hb Hsrc Hp Hrun Hq Hacc. assert (∃ code attrs secret, decision_packet (verdict s p) = (code, attrs) ∧
    answers secret p (Packet.has p ATTR_MESSAGE_AUTHENTICATOR) code attrs resp)
    as (code & attrs & secret & E & Hans).
  { destruct (auth_exact key src buf s Hb Hsrc) as [_ [[Hno _]|(p' & secret & resp' & [Hp' _ _ _] & Hrun' & Hans)]]; [congruence|].
    rewrite Hp in Hp'. injection Hp' as <-. rewrite Hrun in Hrun'. injection Hrun' as <-.
    destruct (decision_packet (verdict s p)) as [code attrs]. eauto. }
  destruct (answers_code _ _ _ _ _ _ _ Hans Hq) as [<- [tag Htag]]. rewrite Hacc in E.
  unfold verdict in E. destruct (credentialed p); [done|]. split; [done|]. destruct (mab_mac p) as [m| |]; [|done..].
  exists m. split; [done|]. intros dev Ho Hd Ht. unfold trust_read in E. rewrite Ho, Hd in E. cbn [fmap option_fmap option_map] in E.
  rewrite Ht in E. cbn [decide_mab] in E. unfold str_eqb in E. case_bool_decide as Hr; [done|].
  destruct (N.ltb_spec 0 (rp_quarantine_vlan (policy_read s))) as [Hv|]; [|done]. injection E as <-.
  unfold policy_read in Hv, Htag. cbn [rp_quarantine_vlan] in Hv, Htag. destruct (outages s 3); [done|].
  split_and!; [done|done|]. by exists tag.
Qed.
End hashes.
End server.
