(* ===== verification/RadiusSessions.v ===== *)
(** * Accounting sessions

    Whatever order packets of different sessions arrive in, the table holds one
    row per session, with everything that was ever said about it; and only an
    authentic packet of a client is recorded. *)

From Stdlib Require Import NArith Lia.
From stdpp Require Import sorting.
From S2P Require Import Prelude Permission Json AuditLog RoleStore Web Delegation.
From S2P Require Import Auth Users Login Steps Aat Snmp SnmpTheorems Nac NacPolicy NacLogic.
From S2P Require Import NacLogic.
From S2P Require Import Ip Subnet Radius RadiusServer.
From S2P Require Import RadiusServerTheorems.

Section sessions.
Context `{Heng : !SqlEngine}.

(** ** What was said about a session *)

(** A session is named by the address of its server and the identifier this one
    gave it. *)
Definition for_key (k : rstr * rstr) (ip sid : option rstr) : bool := key_eqb ip (Some k.1) && key_eqb sid (Some k.2).
Definition row_has (k : rstr * rstr) (r : RadiusSession) : bool := for_key k (rs_nas_ip r) (rs_acct_session_id r).
Definition update_has (k : rstr * rstr) (u : SessionUpdate) : bool := for_key k (su_nas_ip u) (su_acct_session_id u).

(** One accounting packet: the id drawn for it, what it says, and when. *)
Record Packet_in := mkPacketIn { in_id : Uuid; in_update : SessionUpdate; in_at : N }.
Definition in_stopped (x : Packet_in) : option N := if su_stop (in_update x) then Some (in_at x) else None.

(** What the packets say last about a field, if they say anything. *)
Definition last_said {A} (f : Packet_in → option A) (l : list Packet_in) : option A := head (omap f (reverse l)).
(** The account of session [k]: the packets about it, the first of which opens it. *)
Definition packets_of (k : rstr * rstr) (l : list Packet_in) : list Packet_in :=
  List.filter (λ x, update_has k (in_update x)) l.
Definition account (k : rstr * rstr) (l : list Packet_in) : option RadiusSession :=
  let mine := packets_of k l in
  match mine with
  | [] => None
  | first :: _ =>
      Some (mkRadiusSession (in_id first) (last_said (su_username ∘ in_update) mine)
        (last_said (su_mac_address ∘ in_update) mine) (su_nas_ip (in_update first))
        (last_said (su_nas_port ∘ in_update) mine) (last_said (su_framed_ip ∘ in_update) mine)
        (su_acct_session_id (in_update first)) (last_said (su_auth_method ∘ in_update) mine) (in_at first)
        (default 0%N (in_at <$> last mine)) (last_said in_stopped mine) (last_said (su_terminate_cause ∘ in_update) mine))
  end.

(** The table after them. *)
Definition recorded (l : list Packet_in) : gmap Uuid RadiusSession :=
  foldl (λ m x, record_session (in_id x) (in_at x) (in_stopped x) (in_update x) m) ∅ l.

Context (name_sym : ∀ a b, name_eqb a b = name_eqb b a).
Context (name_trans : ∀ a b c, name_eqb a b = true → name_eqb b c = true → name_eqb a c = true).

Lemma key_eqb_trans a b c : key_eqb a b = true → key_eqb b c = true → key_eqb a c = true.
Proof. destruct a, b, c; try done. apply name_trans. Qed.
Lemma key_eqb_sym a b : key_eqb a b = key_eqb b a.
Proof. destruct a, b; try done. apply name_sym. Qed.
Lemma for_key_trans k ip sid ip' sid' :
  key_eqb ip ip' = true → key_eqb sid sid' = true → for_key k ip' sid' = for_key k ip sid.
Proof.
  intros H1 H2. apply eq_true_iff_eq. unfold for_key. rewrite !andb_true_iff. split; intros [H3 H4].
  - split; eapply key_eqb_trans; eauto.
  - rewrite key_eqb_sym in H1, H2. split; eapply key_eqb_trans; eauto.
Qed.
Lemma same_session_key k u r : same_session u r = true → update_has k u = row_has k r.
Proof. unfold same_session. intros [H1 H2]%andb_true_iff. by apply for_key_trans. Qed.
Lemma same_session_intro k u r : update_has k u = true → row_has k r = true → same_session u r = true.
Proof.
  unfold same_session, update_has, row_has, for_key. rewrite !andb_true_iff. intros [H1 H2] [H3 H4].
  rewrite key_eqb_sym in H1, H2. split; eapply key_eqb_trans; eauto.
Qed.
Lemma row_has_refresh k t st u r : row_has k (refresh t st u r) = row_has k r.
Proof. done. Qed.
Lemma row_has_new k id t st u : row_has k (new_session id t st u) = update_has k u.
Proof. done. Qed.

(** The rows with key [k] are the account of [k]. *)
Definition accounted (m : gmap Uuid RadiusSession) (l : list Packet_in) : Prop :=
  (∀ k id r, (m !! id = Some r ∧ row_has k r = true) ↔ (account k l = Some r ∧ rs_id r = id)) ∧
  (∀ id r, m !! id = Some r → rs_id r = id ∧ id ∈ in_id <$> l).

Definition account_step (k : rstr * rstr) (acc : option RadiusSession) (x : Packet_in) : option RadiusSession :=
  if update_has k (in_update x) then
    Some (match acc with
          | None => new_session (in_id x) (in_at x) (in_stopped x) (in_update x)
          | Some r => refresh (in_at x) (in_stopped x) (in_update x) r
          end)
  else acc.
Lemma last_said_snoc {A} (f : Packet_in → option A) l x : last_said f (l ++ [x]) = coalesce (f x) (last_said f l).
Proof. unfold last_said. rewrite reverse_snoc. cbn. by destruct (f x). Qed.
Lemma account_snoc k l x : account k (l ++ [x]) = account_step k (account k l) x.
Proof.
  unfold account, account_step, packets_of. rewrite List.filter_app. cbn [List.filter].
  destruct (update_has k (in_update x)); [|by rewrite app_nil_r].
  set (mine := List.filter _ l). destruct mine as [|y mine].
  - unfold last_said. cbn. f_equal. unfold new_session.
    by destruct (su_username _), (su_mac_address _), (su_nas_port _), (su_framed_ip _), (su_auth_method _), (su_terminate_cause _),
      (in_stopped x).
  - set (l0 := y :: mine). change (l0 ++ [x]) with (y :: mine ++ [x]) at 1. cbn iota. f_equal. unfold refresh.
    cbn [rs_id rs_username rs_mac_address rs_nas_ip rs_nas_port rs_framed_ip rs_acct_session_id rs_auth_method rs_started_at
      rs_stopped_at rs_terminate_cause].
    rewrite !last_said_snoc, last_snoc. done.
Qed.

Lemma accounted_step m l x : accounted m l → in_id x ∉ in_id <$> l →
  accounted (record_session (in_id x) (in_at x) (in_stopped x) (in_update x) m) (l ++ [x]).
Proof.
  intros [Hacc Hdom] Hfresh. set (id0 := in_id x) in *. set (u := in_update x).
  assert (m !! id0 = None) as Hnone.
  { destruct (m !! id0) as [r|] eqn:E; [|done]. by destruct (Hdom _ _ E). }
  unfold record_session, colliding. rewrite Hnone, bool_decide_eq_false_2 by (by intros [? ?]).
  destruct (List.find _ _) as [[k0 r0]|] eqn:Hf.
  - apply find_some in Hf as [Hin Hs]. apply list_elem_of_In, elem_of_map_to_list in Hin. cbn [fmap option_fmap option_map fst snd] in *.
    destruct (Hdom _ _ Hin) as [Hid0 Hk0]. split.
    + intros k id r. rewrite account_snoc. unfold account_step. fold u. rewrite (same_session_key k u r0 Hs).
      destruct (decide (id = k0)) as [-> |Hne].
      * rewrite lookup_alter_eq, Hin. cbn [fmap option_fmap option_map]. destruct (row_has k r0) eqn:Hk.
        -- destruct (proj1 (Hacc k k0 r0)) as [Ha _]; [done|]. rewrite Ha. split.
           ++ intros [[= <-] _]. done.
           ++ intros [[= <-] _]. done.
        -- split.
           ++ intros [[= <-] Hr]. rewrite row_has_refresh in Hr. congruence.
           ++ intros Hr. apply Hacc in Hr as [Hm Hr]. rewrite Hin in Hm. injection Hm as <-. congruence.
      * rewrite lookup_alter_ne by done. destruct (row_has k r0) eqn:Hk; [|by apply Hacc].
        destruct (proj1 (Hacc k k0 r0)) as [Ha _]; [done|]. rewrite Ha. split.
        -- intros Hr. apply Hacc in Hr as [Hr Hid]. rewrite Ha in Hr. injection Hr as <-. congruence.
        -- intros [[= <-] Hid]. cbn in Hid. congruence.
    + intros id r. rewrite fmap_app. destruct (decide (id = k0)) as [-> |Hne].
      * rewrite lookup_alter_eq, Hin. intros [= <-]. split; [done|]. apply elem_of_app. by left.
      * rewrite lookup_alter_ne by done. intros [Hi Hl]%Hdom. split; [done|]. apply elem_of_app. by left.
  - assert (∀ k id r, update_has k u = true → m !! id = Some r → row_has k r = false) as Hno.
    { intros k id r Hu Hm. apply not_true_iff_false. intros Hr. pose proof (find_none _ _ Hf (id, r)) as Hx. cbn in Hx.
      rewrite (same_session_intro k) in Hx; [|done|done]. discriminate Hx. by apply list_elem_of_In, elem_of_map_to_list. }
    cbn [fmap option_fmap option_map]. split.
    + intros k id r. rewrite account_snoc. unfold account_step. fold u id0.
      assert (update_has k u = true → account k l = None) as Ha.
      { intros Hu. destruct (account k l) as [r'|] eqn:E; [|done].
        destruct (proj2 (Hacc k (rs_id r') r')) as [Hm Hr]; [done|]. rewrite (Hno _ _ _ Hu Hm) in Hr. done. }
      destruct (decide (id = id0)) as [-> |Hne].
      * rewrite lookup_insert_eq. destruct (update_has k u) eqn:Hu.
        -- rewrite Ha by done. split; [by intros [[= <-] _]|by intros [[= <-] _]].
        -- split; [intros [[= <-] Hr]; rewrite row_has_new in Hr; congruence|]. intros Hr. apply Hacc in Hr as [Hm _]. congruence.
      * rewrite lookup_insert_ne by done. destruct (update_has k u) eqn:Hu; [|by apply Hacc]. rewrite Ha by done. split.
        -- intros [Hm Hr]. by rewrite (Hno _ _ _ Hu Hm) in Hr.
        -- intros [[= <-] Hid]. cbn in Hid. congruence.
    + intros id r. rewrite fmap_app. destruct (decide (id = id0)) as [-> |Hne].
      * rewrite lookup_insert_eq. intros [= <-]. split; [done|]. apply elem_of_app. right. by apply list_elem_of_here.
      * rewrite lookup_insert_ne by done. intros [Hi Hl]%Hdom. split; [done|]. apply elem_of_app. by left.
Qed.

(** C18: the session table refines the accounts of the sessions.  After any packets,
    however those of different sessions interleave, a session that was heard of
    has exactly one row and the others none, and the row says what an account kept
    for that session alone says: opened by its first packet, last seen at its
    last, each field as last reported and never blanked, stopped once a stop was
    reported. *)
Theorem sessions_refine l k id r :
  NoDup (in_id <$> l) →
  (recorded l !! id = Some r ∧ row_has k r = true) ↔ (account k l = Some r ∧ rs_id r = id).
Proof.
  intros Hnd. enough (accounted (recorded l) l) as [H _] by apply H. clear k id r.
  induction l as [|x l IH] using rev_ind.
  { split; [|done]. intros k id r. by split; [intros [? _]|intros [? _]]. }
  rewrite fmap_app in Hnd. apply NoDup_app in Hnd as (Hl & Hx & _). unfold recorded. rewrite foldl_app. cbn [foldl].
  apply accounted_step; [by apply IH|]. intros Hin. by eapply Hx, list_elem_of_here.
Qed.
End sessions.

Section accounting.
Context `{Hlink : !SnmpLink, Hord : !SqlOrder, Heng : !SqlEngine, Hsql : !SqlText}.
Context (md5 : list N → list N) (hmac_md5 : list N → list N → list N).
Context (Hmd5 : ∀ l, length (md5 l) = 16 ∧ Forall is_byte (md5 l)).
Context (Hhmac : ∀ k l, length (hmac_md5 k l) = 16 ∧ Forall is_byte (hmac_md5 k l)).
Implicit Types (s : Nac).

(** An Accounting-Request whose authenticator was made with the secret of the
    client it comes from (RFC 2866). *)
Record authentic_accounting (key : Cipher) (src : IpAddr) (buf : list N) s (p : Packet) (secret : rstr) : Prop := {
  acct_parses : Packet.parse buf = Some (Some p);
  acct_code : pk_code p = CODE_ACCOUNTING_REQUEST;
  acct_secret : client_secret key src s = Some secret;
  acct_authentic : pk_authenticator p =
    md5 (wire (pk_code p) (pk_id p) (replicate 16 0%N) (pk_attributes p) ++ bytes secret) }.

(** What accounting does with a datagram.  One that is not an authentic packet
    of a client changes nothing and is not answered; one that is gets a genuine
    Accounting-Response and is recorded once, unless the database is away, and
    no datagram makes the server panic. *)
Theorem accounting_exact id key src buf s :
  Forall is_byte buf →
  let out := run (handle_acct md5 hmac_md5 id key src buf) s in
  (out.1 = Some None ∧ (∃ n, out.2 = Nat.iter n tick s) ∧ ∀ p secret, ¬ authentic_accounting key src buf s p secret) ∨
  ∃ p secret resp, authentic_accounting key src buf s p secret ∧ out.1 = Some (Some resp) ∧
    answers md5 hmac_md5 (bytes secret) p false CODE_ACCOUNTING_RESPONSE [] resp ∧
    out.2 = (if outages s 1 then tick (tick s)
             else set_radius_sessions (record_session id (n_clock s)
                    (if su_stop (session_update p src) then Some (n_clock s) else None) (session_update p src)) (tick (tick s))).
Proof.
  intros Hb out. subst out. unfold handle_acct. destruct (parse_sound buf Hb) as (r & Er & Hr). rewrite Er. destruct r as [p|].
  2: { left. split_and!; [done|by exists 0|]. intros p secret [Hp _ _ _]. congruence. }
  destruct (Hr p eq_refl) as [Hp _]. destruct (N.eqb_spec (pk_code p) CODE_ACCOUNTING_REQUEST) as [Hc|Hc]; cbn [negb].
  2: { left. split_and!; [done|by exists 0|]. intros p' secret [Hp' Hc' _ _]. congruence. }
  rewrite run_bind. destruct (run_secret_for key src s) as [Hs Ht]. destruct (run (secret_for key src) s) as [found s1].
  cbn [fst snd] in Hs, Ht |- *. subst s1. destruct found as [[client secret]|]; cbn in Hs.
  2: { left. split_and!; [done|by exists 1|]. intros p' secret [_ _ Hs' _]. congruence. }
  rewrite verify_accounting_authenticator_spec by done. case_bool_decide as Ha.
  - right. destruct (respond_answers md5 hmac_md5 Hmd5 Hhmac p (bytes secret) false CODE_ACCOUNTING_RESPONSE [])
      as (resp & Eresp & Hans); [done|done|done|done|cbn; lia|].
    exists p, secret, resp. rewrite run_bind. unfold upsert_session. rewrite run_bind, run_now. unfold n_change. rewrite run_n_stmt.
    change (outages (tick s) 0) with (outages s 1). destruct (outages s 1); cbn [run fst snd]; by split_and!.
  - left. split_and!; [done|by exists 1|]. intros p' secret' [Hp' _ Hs' Ha']. congruence.
Qed.
End accounting.
