(* ===== verification/System.v ===== *)
(** * The administration surface as one system

    [handle] dispatches a request to its handler; [serve] resolves the caller's
    permissions from the database first, as the [CurrentUser] extractor does;
    [step] is one request by some user, and [reachable] any number of them.  The
    theorems here are the ones the role and user components exist for. *)

From S2P Require Import Prelude Permission Json AuditLog RoleStore RoleTree Web Delegation.
From S2P Require Import RoleRoutes RoleSpec RoleSafety Auth Users UserSafety.
From stdpp Require Import relations.

(** The state-changing routes of [routes/roles.rs] and [routes/users.rs], with
    what each takes from the request; a fresh id where the handler draws one. *)
Inductive Request : Type :=
| CreateRole (new_id : Uuid) (body : list (rstr * rstr))
| EditRole (id : Uuid) (form : EditRoleForm)
| DeleteRole (id : Uuid) (form : DeleteRoleForm)
| UpdatePermissions (id : Uuid) (body : list (rstr * rstr))
| ApplyPermissions (id : Uuid) (form : ApplyPermissionsForm)
| UpdateVisibility (id : Uuid) (body : list (rstr * rstr))
| CreateUser (new_id : Uuid) (form : CreateUserForm)
| EditUser (id : Uuid) (form : EditUserForm)
| ChangeRole (id : Uuid) (form : ChangeRoleForm)
| ResetUserPassword (id : Uuid) (form : ResetPasswordForm)
| EnableUser (id : Uuid) (csrf_token : rstr)
| DisableUser (id : Uuid) (form : ConfirmForm)
| RevokeSessions (id : Uuid) (form : ConfirmForm)
| DeleteUser (id : Uuid) (form : ConfirmForm).

Section system.
Context `{!SqlEngine, !Text}.
Implicit Types (db : Db) (ctx : AuthContext) (jar : CookieJar).

Definition handle (env : Env) (mods : list ModuleView) jar ctx (req : Request) : App Response :=
  match req with
  | CreateRole new_id body => create_role jar ctx new_id body
  | EditRole id form => edit_role jar ctx id form
  | DeleteRole id form => delete_role jar ctx id form
  | UpdatePermissions id body => update_permissions jar ctx id body
  | ApplyPermissions id form => apply_permissions jar ctx id form
  | UpdateVisibility id body => update_visibility mods jar ctx id body
  | CreateUser new_id form => create_user_handler env jar ctx new_id form
  | EditUser id form => edit_user env jar ctx id form
  | ChangeRole id form => change_role jar ctx id form
  | ResetUserPassword id form => reset_password env jar ctx id form
  | EnableUser id token => enable jar ctx id token
  | DisableUser id form => disable env jar ctx id form
  | RevokeSessions id form => revoke_sessions env jar ctx id form
  | DeleteUser id form => delete_user jar ctx id form
  end.

(** A request of an existing user, with freshly resolved permissions. *)
Definition serve (env : Env) (mods : list ModuleView) jar (u : User) (req : Request)
    : App Response := λ db, handle env mods jar (load db u) req db.

Definition step_by (who : Uuid) db db' : Prop :=
  ∃ env mods jar u req, db.(users) !! who = Some u ∧ (serve env mods jar u req db).2 = db'.
Definition step db db' : Prop := ∃ who, step_by who db db'.
Definition reachable (db0 : Db) db : Prop := rtc step db0 db.

(** ** Refinement *)

Lemma load_authentic db who u : wf db → db.(users) !! who = Some u → authentic db (load db u).
Proof. intros Hwf Hu. pose proof (wf_user_keyed _ Hwf _ _ Hu) as <-. by split. Qed.

Lemma update_permissions_reads db ctx jar id body r db' :
  update_permissions jar ctx id body db = (r, db') → db' = db.
Proof. intros Hrun. unfold update_permissions in Hrun. repeat (run_step; try done). Qed.

Lemma handle_refines env mods jar ctx req db r db' :
  wf db → authentic db ctx → handle env mods jar ctx req db = (r, db') →
  db' = db ∨ role_change db ctx db' ∨ user_change db ctx db'.
Proof.
  intros Hwf Ha. destruct req; cbn; intros Hrun.
  1: apply create_role_refined in Hrun; [|done..].
  2: apply edit_role_refined in Hrun; [|done..].
  3: apply delete_role_refined in Hrun; [|done..].
  4: apply update_permissions_reads in Hrun; tauto.
  4: apply apply_permissions_refined in Hrun; [|done..].
  5: apply update_visibility_refined in Hrun; [|done..].
  6: apply create_user_refined in Hrun; [|done..].
  7: apply edit_user_refined in Hrun; [|done..].
  8: apply change_role_refined in Hrun; [|done..].
  9: apply reset_password_refined in Hrun; [|done..].
  10: apply enable_refined in Hrun; [|done..].
  11: apply disable_refined in Hrun; [|done..].
  12: apply revoke_sessions_refined in Hrun; [|done..].
  13: apply delete_user_refined in Hrun; [|done..].
  all: tauto.
Qed.

(** ** Well-formedness under user changes *)

Lemma wf_same_roles db db' :
  wf db → db'.(roles) = db.(roles) → db'.(role_permissions) = db.(role_permissions) →
  (∀ u id, (u, id) ∈ db'.(user_roles) → is_Some (db'.(users) !! u) ∧ is_Some (db.(roles) !! id)) →
  (∀ u r, db'.(users) !! u = Some r → r.(uid) = u) → wf db'.
Proof.
  intros [Hk Hpar Hsys Hac Hg _ _] Hr Hp Ha Hu.
  split; unfold keyed; rewrite ?Hr, ?Hp; try done.
  intros x. destruct (Hac x) as [n Hn]. exists n. unfold depth_le. rewrite (anc_same db); [done|].
  intros a. apply parent_of_roles. by rewrite Hr.
Qed.

Lemma assigned_wf db u id :
  wf db → is_Some (db.(users) !! u) → is_Some (db.(roles) !! id) → wf (assigned u id db).
Proof.
  intros Hwf Hu Hid. apply (wf_same_roles db); [done..| |apply Hwf].
  intros v i. cbn. rewrite elem_of_union, elem_of_singleton, elem_of_filter. cbn.
  intros [[= -> ->]|[_ Hvi]]; [done|by apply (wf_assigned _ Hwf)].
Qed.

Lemma with_user_wf db id f : wf db → keeps_uid f → wf (with_user id f db).
Proof.
  intros Hwf Hf. apply (wf_same_roles db); [done..| |]; cbn.
  - intros v i Hvi. rewrite lookup_alter_is_Some. by apply (wf_assigned _ Hwf).
  - intros w r. destruct (decide (id = w)) as [->|Hn].
    + rewrite lookup_alter_eq. intros (v & Hv & ->)%fmap_Some. rewrite Hf. by apply (wf_user_keyed _ Hwf).
    + rewrite lookup_alter_ne by done. apply (wf_user_keyed _ Hwf).
Qed.

Lemma logged_wf db e : wf db → wf (logged e db).
Proof. intros Hwf. by apply (wf_same_roles db); [|..|apply Hwf|apply Hwf]. Qed.

Lemma signed_out_wf db u now : wf db → wf (signed_out u now db).
Proof. intros Hwf. by apply (wf_same_roles db); [|..|apply Hwf|apply Hwf]. Qed.

Lemma erased_role db id i r :
  (erased id db).(roles) !! i = Some r →
  ∃ r0, db.(roles) !! i = Some r0 ∧ r.(role_id) = r0.(role_id) ∧
        r.(parent_role_id) = r0.(parent_role_id) ∧ r.(is_system) = r0.(is_system).
Proof.
  cbn. rewrite lookup_fmap, fmap_Some. intros (r0 & Hr0 & ->). exists r0. split; [done|].
  unfold forget_creator. by case_bool_decide.
Qed.

Lemma erased_parent db id a : parent_of (erased id db) a = parent_of db a.
Proof.
  unfold parent_of, find_by_id. cbn. rewrite lookup_fmap. destruct (roles db !! a) as [r|]; [|done].
  cbn. unfold forget_creator. by case_bool_decide.
Qed.

Lemma erased_exists db id a : is_Some ((erased id db).(roles) !! a) ↔ is_Some (db.(roles) !! a).
Proof. cbn. rewrite lookup_fmap. by rewrite fmap_is_Some. Qed.

Lemma erased_wf db id : wf db → wf (erased id db).
Proof.
  intros [Hk Hpar Hsys Hac Hg Ha Huk]. split; unfold keyed.
  - intros i r (r0 & Hr0 & -> & _)%erased_role. by apply Hk.
  - intros i r p (r0 & Hr0 & _ & -> & _)%erased_role Hp. apply erased_exists. by eapply Hpar.
  - intros i r (r0 & Hr0 & _ & -> & ->)%erased_role. by eapply Hsys.
  - intros x. destruct (Hac x) as [n Hn]. exists n. unfold depth_le.
    rewrite (anc_same db); [done|]. apply erased_parent.
  - intros i k Hik. apply erased_exists. by eapply Hg.
  - intros v i. cbn. rewrite elem_of_filter. cbn. intros [Hne Hvi]. destruct (Ha _ _ Hvi).
    split; [by rewrite lookup_delete_ne|by apply erased_exists].
  - intros v r. cbn. rewrite lookup_delete_Some. intros [_ ?]. by apply Huk.
Qed.

Lemma inserted_user_wf db nu :
  wf db → wf (set_users (insert nu.(uid) nu) db).
Proof.
  intros Hwf. apply (wf_same_roles db); [done..| |]; cbn.
  - intros v i Hvi. destruct (wf_assigned _ Hwf _ _ Hvi). split; [|done].
    apply lookup_insert_is_Some'. by right.
  - intros v r. rewrite lookup_insert_Some.
    intros [[<- <-]|[_ ?]]; [done|by apply (wf_user_keyed _ Hwf)].
Qed.

Lemma user_change_wf db ctx db' : wf db → user_change db ctx db' → wf db'.
Proof.
  intros Hwf Hch.
  destruct Hch as [nu id e1 e2 _ _ _ Hnew Ho|id f e _ _ _ Hf|id f now e _ _ _ Hf|v id e _ _ _ Hv _ Ho|id e _ _ _ _|_].
  - apply assignable_exists in Ho; [|apply Hwf]. do 2 apply logged_wf.
    apply assigned_wf; [by apply inserted_user_wf|by eexists; apply lookup_insert_eq|done].
  - by apply logged_wf, with_user_wf.
  - by apply logged_wf, signed_out_wf, with_user_wf.
  - apply assignable_exists in Ho; [|apply Hwf]. by apply logged_wf, assigned_wf.
  - by apply logged_wf, erased_wf.
  - by apply erased_wf.
Qed.

Lemma step_wf db db' : wf db → step db db' → wf db'.
Proof.
  intros Hwf (who & env & mods & jar & u & req & Hu & Hs).
  destruct (serve env mods jar u req db) as [r db1] eqn:Hrun. cbn in Hs. subst db1.
  pose proof (load_authentic _ _ _ Hwf Hu) as Ha. apply handle_refines in Hrun as [->|[Hc|Hc]]; [done| | |done|done].
  - by eapply change_wf.
  - by eapply user_change_wf.
Qed.

(** ** What a change leaves of a user's permissions *)

Lemma eff_ext db db' x :
  (∀ a, parent_of db' a = parent_of db a) →
  db'.(role_permissions) = db.(role_permissions) →
  effective_permissions_for_role db' x = effective_permissions_for_role db x.
Proof.
  intros Hp Hg. apply set_eq. intros p. rewrite !elem_of_eff.
  assert (∀ a, own_permissions db' a = own_permissions db a) as Ho.
  { intros a. apply own_grants. by rewrite Hg. }
  setoid_rewrite Ho. by setoid_rewrite (λ n, anc_same db db' x n Hp).
Qed.

Lemma effective_ext db db' who :
  keyed db → keyed db' →
  (∀ a, parent_of db' a = parent_of db a) →
  db'.(role_permissions) = db.(role_permissions) →
  (∀ a, is_Some (db'.(roles) !! a) ↔ is_Some (db.(roles) !! a)) →
  (∀ id, (who, id) ∈ db'.(user_roles) → (who, id) ∈ db.(user_roles)) →
  effective_permissions db' who ⊆ effective_permissions db who.
Proof.
  intros Hk Hk' Hp Hg Hex Hur p. rewrite !elem_of_effective_permissions by done.
  intros (id & Hid & Hr & Hpe). exists id. split; [by apply Hur|]. split; [by apply Hex|].
  by rewrite <- (eff_ext db db').
Qed.

Lemma user_change_own_permissions db ctx db' :
  wf db → authentic db ctx → user_change db ctx db' →
  effective_permissions db' ctx.(user).(uid) ⊆ effective_permissions db ctx.(user).(uid).
Proof.
  intros Hwf [Hu _] Hch. pose proof (user_change_wf _ _ _ Hwf Hch) as Hwf'.
  destruct Hch as [nu id e1 e2 _ _ _ Hnew Ho|id f e _ _ _ Hf|id f now e _ _ _ Hf|v id e _ _ Hne Hv _ Ho|id e _ _ _ Hne|_];
    (apply effective_ext; [apply Hwf|apply Hwf'| |done| |]); try done;
    try (intros a; apply erased_parent); try (intros a; apply erased_exists); intros i; cbn.
  - rewrite elem_of_union, elem_of_singleton, elem_of_filter. cbn.
    intros [[= He _]|[_ ?]]; [|done]. rewrite <- He, Hu in Hnew. done.
  - rewrite elem_of_union, elem_of_singleton, elem_of_filter. cbn.
    intros [[= He _]|[_ ?]]; [by destruct Hne|done].
  - rewrite elem_of_filter. tauto.
  - rewrite elem_of_filter. tauto.
Qed.

Lemma effective_logged db e who :
  keyed db → effective_permissions (logged e db) who ⊆ effective_permissions db who.
Proof. intros Hk. by apply effective_ext. Qed.

(** The permissions an assignment gives are the role's. *)
Lemma effective_assigned db u id p :
  keyed db → is_Some (db.(roles) !! id) →
  p ∈ effective_permissions (assigned u id db) u ↔ p ∈ effective_permissions_for_role db id.
Proof.
  intros Hk Hid. rewrite elem_of_effective_permissions by done.
  assert (∀ i, effective_permissions_for_role (assigned u id db) i
               = effective_permissions_for_role db i) as He by (intros; by apply eff_ext).
  setoid_rewrite He. split.
  - intros (i & Hi & _ & Hp). cbn in Hi. rewrite elem_of_union, elem_of_singleton, elem_of_filter in Hi.
    by destruct Hi as [[= ->]|[? _]].
  - intros Hp. exists id. split; [by apply elem_of_union_l, elem_of_singleton|done].
Qed.

(** A delegated administrator's reach never exceeds their own permissions. *)
Lemma offered_within db ctx id :
  wf db → authentic db ctx → shallow MAX_ANCESTOR_WALK db →
  offers (assignable_roles db ctx) id = true →
  effective_permissions_for_role db id ⊆ ctx.(permissions).
Proof.
  intros Hwf [_ Hp] Hs Ho. destruct (has_no_ceiling ctx) eqn:Hc.
  { intros p _. by apply has_no_ceiling_spec. }
  destruct (assignable_scoped _ _ _ (wf_keyed _ Hwf) Hc Ho) as (own & Hown & Hd & _).
  etrans; [apply (eff_descends _ _ own.(role_id)); [apply Hs|done]|].
  rewrite Hp. intros p Hpe. apply elem_of_effective_permissions; [apply Hwf|].
  apply elem_of_roles_for_user in Hown as [? ?]; [|apply Hwf].
  exists own.(role_id). split; [done|]. split; [by eexists|done].
Qed.

(** ** One request of a user with a ceiling *)

Lemma serve_no_escalation db who u env mods jar req r db' :
  wf db → shallow 18 db → db.(users) !! who = Some u → has_no_ceiling (load db u) = false →
  serve env mods jar u req db = (r, db') →
  effective_permissions db' who ⊆ effective_permissions db who.
Proof.
  intros Hwf Hs Hu Hc Hrun. pose proof (load_authentic _ _ _ Hwf Hu) as Ha.
  pose proof (wf_user_keyed _ Hwf _ _ Hu) as <-.
  apply handle_refines in Hrun as [->|[Hch|Hch]]; [done| | |done|done].
  - destruct (change_touch _ _ _ Hwf Hch) as [id Ht].
    apply (touch_no_escalation db (load db u) db' id); [done|by eapply change_wf| |done|done].
    by apply (touch_shallow _ _ _ _ _ Hs) in Ht.
  - by apply (user_change_own_permissions db (load db u)).
Qed.

(** The requests that go to [routes/roles.rs]. *)
Definition role_request (req : Request) : bool :=
  match req with
  | CreateRole _ _ | EditRole _ _ | DeleteRole _ _ | UpdatePermissions _ _
  | ApplyPermissions _ _ | UpdateVisibility _ _ => true
  | _ => false
  end.

Lemma role_request_refines env mods jar ctx req db r db' :
  wf db → authentic db ctx → role_request req = true →
  handle env mods jar ctx req db = (r, db') →
  db' = db ∨ (∃ to, r = Ok (Redirect to)) ∧ role_change db ctx db'.
Proof.
  intros Hwf Ha. destruct req; cbn; try done; intros _ Hrun.
  - by apply create_role_refined in Hrun.
  - by apply edit_role_refined in Hrun.
  - by apply delete_role_refined in Hrun.
  - left. by eapply update_permissions_reads.
  - by apply apply_permissions_refined in Hrun.
  - by apply update_visibility_refined in Hrun.
Qed.
End system.
