(* ===== verification/Fixture.v ===== *)
(** * A small concrete deployment

    An engine with a case-sensitive collation, a textual form of ids and lists,
    and a database with a Super Admin, a delegated Network Admin and a
    technician below them: the input the witnesses evaluate the theorems on. *)

From S2P Require Import Prelude Permission Json AuditLog RoleStore RoleTree Web Delegation.
From S2P Require Import RoleRoutes RoleSpec Auth Users.

#[export] Instance fix_engine : SqlEngine.
Proof.
  refine {| order_by_name := λ l, l; name_eqb := str_eqb |}.
  - done.
  - intros s. by apply str_eqb_eq.
Defined.

#[export] Instance fix_text : Text.
Proof.
  refine {| uuid_to_string := λ u, [(u + 65536)%N];
            uuid_parse := λ s, match s with [c] => Some (c - 65536)%N | _ => None end;
            strings_to_json := λ l, [N.pos (encode l)];
            strings_of_json := λ s, match s with [N.pos p] => decode p | _ => None end |}.
  - intros u. f_equal. lia.
  - intros l. apply decode_encode.
Defined.

Definition super_id : Uuid := 1.
Definition admin_id : Uuid := 10.
Definition tech_id : Uuid := 11.
Definition trainee_id : Uuid := 12.

Definition root_user : User :=
  mkUser 99 #"root" #"root@example.org" (Some #"hash") #"local" true false.
Definition alice : User :=
  mkUser 100 #"alice" #"alice@example.org" (Some #"hash") #"local" true false.
Definition bob : User :=
  mkUser 101 #"bob" #"bob@example.org" (Some #"hash") #"local" true false.

Definition admin_grants : list Permission :=
  [RolesManage; UsersView; UsersCreate; UsersModify; NetworkView; NetworkScan].
Definition tech_grants : list Permission := [NetworkView; NetworkScan; SystemsView].

Definition grants (id : Uuid) (l : list Permission) : gset (Uuid * rstr) :=
  list_to_set ((λ p, (id, as_key p)) <$> l).

Definition fix_db : Db :=
  mkDb
    {[ super_id := mkRole super_id #"Super Admin" [] true None None;
       admin_id := mkRole admin_id #"Network Admin" [] false None (Some 99%N);
       tech_id := mkRole tech_id #"Network Tech" [] false (Some admin_id) (Some 100%N);
       trainee_id := mkRole trainee_id #"Trainee" [] false (Some tech_id) (Some 100%N) ]}
    (grants super_id ALL ∪ grants admin_id admin_grants ∪ grants tech_id tech_grants
     ∪ grants trainee_id [NetworkView])
    {[ (99%N, super_id); (100%N, admin_id); (101%N, tech_id) ]}
    ∅
    {[ 99%N := root_user; 100%N := alice; 101%N := bob ]}
    {[ 500%N := mkSession 500 #"h:alice-token" 100 2000 None;
       501%N := mkSession 501 #"h:bob-token" 101 2000 None ]}
    ∅ [].

Definition fix_hash (t : rstr) : rstr := #"h:" ++ t.

Definition fix_env : Env :=
  mkEnv 1000 (λ _, [(#"smtp", None)]) (Some #"https://arsenal.example.org/") #"http://localhost:8080"
    (λ p, Ok (#"argon2:" ++ p)) #"Generated-Passw0rd!".

Definition fix_jar : CookieJar := λ name,
  if str_eqb name CSRF_COOKIE then Some #"tok" else None.

(** A database is acyclic and shallow when every stored row has a short path. *)
Lemma shallow_check db n :
  1 ≤ n → forallb (λ id, bool_decide (anc db n id = None)) ((map_to_list db.(roles)).*1) = true →
  shallow n db.
Proof.
  intros Hn Hall x. unfold depth_le. destruct (roles db !! x) as [r|] eqn:Hx.
  - rewrite forallb_forall in Hall. specialize (Hall x). apply bool_decide_eq_true in Hall; [done|].
    apply list_elem_of_In, list_elem_of_fmap. exists (x, r). split; [done|]. by apply elem_of_map_to_list.
  - destruct n as [|n]; [lia|]. cbn. unfold parent_of, find_by_id. by rewrite Hx.
Qed.

(** [wf], decided row by row. *)
Definition wf_check (db : Db) : bool :=
  forallb (λ p, (p.2.(role_id) =? p.1)%N
                && match p.2.(parent_role_id) with
                   | Some q => bool_decide (is_Some (db.(roles) !! q)) && negb p.2.(is_system)
                   | None => true
                   end
                && bool_decide (anc db (S (size db.(roles))) p.1 = None)) (map_to_list db.(roles))
  && forallb (λ p, bool_decide (is_Some (db.(roles) !! p.1))) (elements db.(role_permissions))
  && forallb (λ p, bool_decide (is_Some (db.(users) !! p.1))
                   && bool_decide (is_Some (db.(roles) !! p.2))) (elements db.(user_roles))
  && forallb (λ p, (p.2.(uid) =? p.1)%N) (map_to_list db.(users)).

Lemma forallb_map {A} (m : gmap Uuid A) (f : Uuid * A → bool) i x :
  forallb f (map_to_list m) = true → m !! i = Some x → f (i, x) = true.
Proof.
  rewrite forallb_forall. intros Hall Hi. by apply Hall, list_elem_of_In, elem_of_map_to_list.
Qed.

Lemma forallb_set {A} `{Countable A} (s : gset A) (f : A → bool) x :
  forallb f (elements s) = true → x ∈ s → f x = true.
Proof.
  rewrite forallb_forall. intros Hall Hx. by apply Hall, list_elem_of_In, elem_of_elements.
Qed.

Lemma wf_checked db : wf_check db = true → wf db.
Proof.
  unfold wf_check. intros Hall. bool_prop. rename H into Hroles. split.
  - intros i r Hr. pose proof (forallb_map _ _ _ _ Hroles Hr) as Hc. cbn in Hc. bool_prop. done.
  - intros i r p Hr Hp. pose proof (forallb_map _ _ _ _ Hroles Hr) as Hc. cbn in Hc. bool_prop.
    rewrite Hp in *. bool_prop. done.
  - intros i r Hr Hs. pose proof (forallb_map _ _ _ _ Hroles Hr) as Hc. cbn in Hc. bool_prop.
    destruct (parent_role_id r); [|done]. bool_prop. congruence.
  - intros x. destruct (roles db !! x) as [r|] eqn:Hr.
    + pose proof (forallb_map _ _ _ _ Hroles Hr) as Hc. cbn [fst snd] in Hc. bool_prop. by eexists.
    + exists 1. unfold depth_le. cbn. unfold parent_of, find_by_id. by rewrite Hr.
  - intros i k Hik. eapply forallb_set in Hik; [|done]. cbn in Hik. by bool_prop.
  - intros u i Hui. eapply forallb_set in Hui; [|done]. cbn in Hui. by bool_prop.
  - intros u r Hu. eapply forallb_map in Hu; [|done]. cbn in Hu. by bool_prop.
Qed.

Lemma fix_wf : wf fix_db.
Proof. apply wf_checked. vm_compute. reflexivity. Qed.

Lemma fix_shallow : shallow 3 fix_db.
Proof. apply shallow_check; [lia|]. vm_compute. reflexivity. Qed.
