(* ===== verification/ExecutorTheorems.v ===== *)
(** * Claims about the executor *)

From S2P Require Import Prelude Protocol Agent OpText Guard Registry.
From S2P Require Import Permission Json AuditLog RoleStore Web Delegation RoleSpec Executor.
From S2P Require Import RoleTree RoleRoutes Auth Users Fixture.
Import Op.

Section executor.
Context (debug_str : rstr → rstr) {W : Type}.
Implicit Types (ctx : AuthContext) (db : Db) (w : W).

(** The user the request runs as is stored. *)
Definition known ctx db : Prop := is_Some (db.(users) !! ctx.(user).(uid)).

(** What is left of a record in the user's name: the entry, if the database
    answers and the user is stored, and nothing otherwise. *)
Definition kept (reachable : bool) ctx (e : AuditEvent) db db' : Prop :=
  (reachable = true → known ctx db → db' = logged e db) ∧ (reachable = false ∨ ¬ known ctx db → db' = db).

Lemma record_or_warn_kept reachable e ctx db :
  (entry_of e).(user_id) = Some ctx.(user).(uid) → kept reachable ctx e db (record_or_warn reachable e db).
Proof.
  intros He. unfold kept, record_or_warn. split.
  - intros -> Hk. by rewrite (audit_ok db e _ He Hk).
  - intros [->|Hk]; [done|]. destruct reachable; [|done]. unfold audit. rewrite He.
    assert (dangling db.(users) (Some ctx.(user).(uid)) = true) as ->; [|done]. unfold dangling.
    unfold known in Hk. by destruct (db.(users) !! ctx.(user).(uid)); [destruct Hk|].
Qed.

Lemma host_event_actor ctx label op kind elevated o ip detail :
  (entry_of (host_event debug_str ctx label op kind elevated o ip detail)).(user_id) = Some ctx.(user).(uid).
Proof. by destruct ip. Qed.
Lemma local_event_actor ctx name o ip detail :
  (entry_of (local_event ctx name o ip detail)).(user_id) = Some ctx.(user).(uid).
Proof. by destruct ip. Qed.

(** What one record of a host operation says. *)
Definition host_record ctx (label : rstr) (op : AgentOperation) (ok : bool) (e : AuditEntry) : Prop :=
  e.(user_id) = Some ctx.(user).(uid) ∧ e.(resource) = Some label ∧
  e.(outcome) = outcome_key (if ok then Success else Failure) ∧
  e.(action) = AuditAction.as_key (audit_action (host_op_kind op) (if ok then Success else Failure)).

Lemma host_record_event ctx label op kind elevated (ok : bool) ip detail :
  host_record ctx label op ok
    (entry_of (host_event debug_str ctx label op kind elevated (if ok then Success else Failure) ip detail)).
Proof. by destruct ip, ok. Qed.

(** C31: Nothing reaches a host uncontrolled: an operation is dispatched only for a user who holds its
    permission and, if it is destructive, only when it was confirmed, and then exactly once. An attempt, refused,
    failed or successful, is recorded in one audit entry naming the user, the host, the operation's action and how it
    ended: the log grows by exactly that entry when the database takes it, that is when it answers and the user's row is
    still there, and by nothing otherwise; a record that could not be written changes nothing of the answer. *)
Theorem host_operations_controlled reachable dispatch ctx host label op permission kind confirm ip elevated w db r w' db' :
  execute_on_host debug_str reachable dispatch ctx host label op permission kind confirm ip elevated (w, db) = (r, (w', db')) →
  (has ctx permission && (negb (bool_decide (kind = Destructive)) || confirm) = false →
     w' = w ∧ r = Err (if has ctx permission then ConfirmationRequired else PermissionDenied)) ∧
  (has ctx permission && (negb (bool_decide (kind = Destructive)) || confirm) = true →
     w' = (dispatch host op w).2 ∧ r = outcome_of (dispatch host op w).1) ∧
  ∃ e, host_record ctx label op (is_ok r) (entry_of e) ∧ kept reachable ctx e db db'.
Proof.
  intros Hrun. unfold execute_on_host in Hrun. destruct (has ctx permission); cbn [negb andb] in *.
  2: { injection Hrun as <- <- <-. split_and!; [done|done|]. eexists. split; [|by apply record_or_warn_kept, host_event_actor].
       apply (host_record_event _ _ _ _ _ false). }
  destruct (bool_decide (kind = Destructive)), confirm; cbn [andb negb orb] in *;
    try (injection Hrun as <- <- <-; split_and!; [done|done|]; eexists; split;
           [apply (host_record_event _ _ _ _ _ false)|by apply record_or_warn_kept, host_event_actor]).
  all: destruct (dispatch host op w) as [answer w1] eqn:Hd; injection Hrun as <- <- <-; split_and!; [done|done|];
    destruct (outcome_of answer) as [x|err]; cbn [is_ok]; eexists;
    (split; [|by apply record_or_warn_kept, host_event_actor]).
  all: first [apply (host_record_event _ _ _ _ _ true)|apply (host_record_event _ _ _ _ _ false)].
Qed.

(** The same for the operations of the control plane itself. *)
Lemma local_operations_controlled reachable ctx (op : Operation (W := W)) confirm ip race w db r w' db' :
  execute reachable ctx op confirm ip race (w, db) = (r, (w', db')) →
  (has ctx (required_permission op) && (negb (bool_decide (op_kind op = Destructive)) || confirm) = false →
     w' = w ∧ is_ok r = false) ∧
  ∃ e, (entry_of e).(user_id) = Some ctx.(user).(uid) ∧
    (entry_of e).(outcome) = outcome_key (if is_ok r then Success else Failure) ∧ kept reachable ctx e db db'.
Proof.
  intros Hrun. unfold execute in Hrun.
  assert (∀ o detail, ∃ e, (entry_of e).(user_id) = Some ctx.(user).(uid) ∧ (entry_of e).(outcome) = outcome_key o ∧
    kept reachable ctx e db (record_or_warn reachable (local_event ctx (op_name op) o ip detail) db)) as Hrec.
  { intros o detail. exists (local_event ctx (op_name op) o ip detail). pose proof (local_event_actor ctx (op_name op) o ip detail) as Ha.
    split_and!; [done|by destruct ip|by apply record_or_warn_kept]. }
  destruct (has ctx (required_permission op)); cbn [negb andb] in *.
  2: { injection Hrun as <- <- <-. split; [done|apply (Hrec Failure)]. }
  destruct (bool_decide (op_kind op = Destructive)), confirm; cbn [negb orb andb] in *;
    try (injection Hrun as <- <- <-; split; [done|apply (Hrec Failure)]).
  all: destruct (match race with Completes => op_run op w | TimesOut u => (Err TimedOut, u w) | IsCancelled u => (Err Cancelled, u w) end)
         as [[x|err] w1] eqn:Hrace; injection Hrun as <- <- <-.
  all: split; [done|]; first [apply (Hrec Success)|apply (Hrec Failure)].
Qed.

(** ** Secrets *)

(** C32: No secret an operation carries is shown: two operations that differ only in passwords and credential
    contents have the same debug text and the same label, and running either leaves the same audit trail when
    the host answers the same. *)
Theorem secrets_not_shown (op op' : AgentOperation) :
  redact op = redact op' →
  fmt_debug debug_str op = fmt_debug debug_str op' ∧ label debug_str op = label debug_str op' ∧
  ∀ reachable answer ctx host name permission kind confirm ip elevated w db,
    let run o := execute_on_host debug_str reachable (λ _ _ w, (answer, w)) ctx host name o permission kind confirm ip elevated (w, db) in
    run op = run op'.
Proof.
  intros Hr. assert (fmt_debug debug_str op = fmt_debug debug_str op') as Hd.
  { unfold fmt_debug. by rewrite <- (debug_fields_redact op), <- (debug_fields_redact op'), Hr. }
  assert (label debug_str op = label debug_str op') as Hl.
  { by rewrite <- (label_redact debug_str op), <- (label_redact debug_str op'), Hr. }
  assert (host_op_kind op = host_op_kind op') as Hk.
  { assert (∀ o, host_op_kind (redact o) = host_op_kind o) as Hred by (by intros []).
    by rewrite <- (Hred op), <- (Hred op'), Hr. }
  split_and!; [done|done|]. intros. unfold run, execute_on_host, host_event. by rewrite Hl, Hk.
Qed.
End executor.

(** An operator who may look at systems, and a dispatcher that remembers what it was given. *)
Definition demo_ctx : AuthContext := mkCtx root_user {[SystemsView]}.
Definition demo_dispatch (_ : Uuid) (op : AgentOperation) (w : list AgentOperation)
    : result DispatchError CommandOutcome * list AgentOperation := (Ok (Ok (mkOutput #"done" [] (Some 0%Z))), w ++ [op]).
Definition demo_reboot (confirm : bool) : result ExecutionError OperationOutput * (list AgentOperation * Db) :=
  execute_on_host id true demo_dispatch demo_ctx 7 #"web-1" Reboot SystemsView Destructive confirm None false ([], fix_db).

Lemma triple_eta {A B C} (x : A * (B * C)) : x = (x.1, (x.2.1, x.2.2)).
Proof. by destruct x as [? []]. Qed.
Lemma demo_known : known demo_ctx fix_db.
Proof. exists root_user. vm_compute. reflexivity. Qed.
Lemma demo_reboot_runs :
  (demo_reboot false).2.1 = [] ∧ (demo_reboot true).2.1 = [Reboot] ∧ is_ok (demo_reboot true).1 = true.
Proof. split_and!; vm_compute; reflexivity. Qed.

Lemma host_operations_controlled_witness :
  (demo_reboot false).2.1 = [] ∧ (demo_reboot true).2.1 = [Reboot] ∧
  ∃ e, host_record demo_ctx #"web-1" Reboot (is_ok (demo_reboot true).1) (entry_of e) ∧
    (demo_reboot true).2.2 = logged e fix_db.
Proof.
  split; [exact (proj1 demo_reboot_runs)|]. split; [exact (proj1 (proj2 demo_reboot_runs))|].
  destruct (proj2 (proj2 (host_operations_controlled id true demo_dispatch demo_ctx 7 #"web-1" Reboot SystemsView
    Destructive true None false [] fix_db (demo_reboot true).1 (demo_reboot true).2.1 (demo_reboot true).2.2
    (triple_eta (demo_reboot true))))) as (e & Hrec & Hkept & _).
  exists e. split; [exact Hrec|]. exact (Hkept eq_refl demo_known).
Defined.

Lemma secrets_not_shown_witness :
  redact (Elevate #"hunter2" 900) = redact (Elevate #"other" 900) ∧
  label id (Elevate #"hunter2" 900) = label id (Elevate #"other" 900).
Proof.
  split; [reflexivity|]. apply (secrets_not_shown (W := unit) id (Elevate #"hunter2" 900) (Elevate #"other" 900)). reflexivity.
Defined.

(** ** A divergence *)

(** The comment on [label] says every operation that changes something has a
    phrase of its own; these fall back to their variant's name. *)
Lemma mutating_labels_fall_back debug_str d a p t b :
  label debug_str (DirectoryDeleteObject d a p t b) = #"Directory Delete Object" ∧
  label debug_str ScourgeUpdateRules = #"Scourge Update Rules" ∧
  label debug_str (ScourgeSetMode true) = #"Scourge Set Mode".
Proof.
  cbn [label]. rewrite !variant_debug_name_eq. by split_and!.
Qed.
