(* ===== verification/AdminTheorems.v ===== *)
(** * Theorems of the administration surface

    The properties of role and user administration, over [serve]: any request,
    any form, any user of a well-formed database. *)

From S2P Require Import Prelude Permission Json AuditLog RoleStore RoleTree Web Delegation.
From S2P Require Import RoleRoutes RoleSpec RoleSafety Auth Users UserSafety System.
From S2P Require Import Fixture.
From stdpp Require Import relations.

Section theorems.
Context `{!SqlEngine, !Text}.
Implicit Types (db : Db) (ctx : AuthContext) (jar : CookieJar).

(** C2: Starting from well-formed tables, any number of role and user requests
    by any users, with any forms, keeps the tables well formed: rows keyed by
    their id, no dangling parent, grant or assignment, system roles at the
    root, and a parent relation without cycles. *)
Theorem reachable_wf db0 db : wf db0 → reachable db0 db → wf db.
Proof. intros Hwf Hr. induction Hr as [|db0 db1 db2 Hs _ IH]; [done|]. by apply IH, (step_wf db0). Qed.

(** No request of a user with a ceiling, whatever is submitted, leaves them
    with a permission they did not hold before, as long as no role is nested
    more than eighteen levels deep (the documented maximum is three). *)
Theorem no_self_escalation db who u env mods jar req r db' :
  wf db → shallow 18 db → db.(users) !! who = Some u → has_no_ceiling (load db u) = false →
  serve env mods jar u req db = (r, db') →
  effective_permissions db' who ⊆ effective_permissions db who.
Proof.
  apply serve_no_escalation.
Qed.
(** The requests one user makes in a row, each from a database whose hierarchy
    is at most eighteen levels deep. *)
Definition solo (who : Uuid) db db' : Prop := shallow 18 db ∧ step_by who db db'.

(** C1: However many requests a user with a ceiling makes in a row, they never
    end up with a permission they did not start with, provided that no role is nested more than eighteen levels
    deep when a request is served (the documented maximum is three; the walks up the hierarchy stop after
    twenty). *)
Theorem no_escalation_over_time db who u db' :
  wf db → db.(users) !! who = Some u → has_no_ceiling (load db u) = false →
  rtc (solo who) db db' → effective_permissions db' who ⊆ effective_permissions db who.
Proof.
  intros Hwf Hu Hc Hr. assert (¬ ∀ p, p ∈ effective_permissions db who) as Hceil.
  { intros Hall. rewrite <- (wf_user_keyed _ Hwf _ _ Hu) in Hall.
    apply (has_no_ceiling_spec (load db u)) in Hall. by rewrite Hc in Hall. }
  clear u Hu Hc. induction Hr as [|db db1 db2 [Hs Hstep] _ IH]; [done|].
  assert (effective_permissions db1 who ⊆ effective_permissions db who) as Hle.
  { destruct Hstep as (env & mods & jar & u & req & Hu & Hrun).
    apply (serve_no_escalation db who u env mods jar req (serve env mods jar u req db).1); try done.
    - apply not_true_iff_false. rewrite has_no_ceiling_spec. cbn.
      by rewrite (wf_user_keyed _ Hwf _ _ Hu).
    - by rewrite <- Hrun, <- surjective_pairing. }
  etrans; [apply IH|done].
  - apply (step_wf db); [done|]. by exists who.
  - intros Hall. apply Hceil. intros p. by apply Hle, Hall.
Qed.

(** ** Confinement *)

(** Within the reach of a delegated administrator: at or below a role they hold. *)
Definition within_reach db ctx (p : Uuid) : Prop := ∃ own, holds db ctx own ∧ descends db p own.
(** Everything of a role but who created it. *)
Definition role_body (r : Role) : Uuid * rstr * rstr * bool * option Uuid :=
  (r.(role_id), r.(role_name), r.(role_description), r.(is_system), r.(parent_role_id)).

Lemma placed_within db ctx parent :
  has_no_ceiling ctx = false → may_place db ctx parent → ∃ p, parent = Some p ∧ within_reach db ctx p.
Proof.
  intros Hc. destruct parent as [p|]; cbn; [|congruence]. intros (_ & _ & [?|Hr]); [congruence|]. by exists p.
Qed.
Lemma managed_within db ctx role :
  has_no_ceiling ctx = false → may_manage db ctx role →
  role.(is_system) = false ∧ ¬ holds db ctx role.(role_id) ∧ within_reach db ctx role.(role_id).
Proof. intros Hc [_ [?|(H1 & H2 & H3)]]; [congruence|done]. Qed.
Lemma cap_held db ctx parent : has_no_ceiling ctx = false → role_cap db ctx parent ⊆ ctx.(permissions).
Proof.
  intros Hc. unfold role_cap, grantable_permissions. rewrite Hc. destruct parent; set_solver.
Qed.

(** What a change to the role [id] makes of it. *)
Definition confined_change db ctx db' (id : Uuid) : Prop :=
  own_permissions db' id ⊆ own_permissions db id ∪ ctx.(permissions) ∧
  match db.(roles) !! id with
  | None => ∃ row p, db'.(roles) !! id = Some row ∧ row.(is_system) = false ∧
              row.(parent_role_id) = Some p ∧ within_reach db ctx p
  | Some role =>
      role.(is_system) = false ∧ ¬ holds db ctx id ∧ within_reach db ctx id ∧
      ∀ row, db'.(roles) !! id = Some row → row.(is_system) = false ∧
        (row.(parent_role_id) = role.(parent_role_id) ∨
         ∃ p, row.(parent_role_id) = Some p ∧ within_reach db ctx p)
  end.
Lemma change_confined db ctx db' :
  wf db → has_no_ceiling ctx = false → role_change db ctx db' →
  ∃ id, touch db ctx db' id ∧ confined_change db ctx db' id.
Proof.
  intros Hwf Hc Hch. destruct Hch as [new_id n d parent req e _ _ Hid _ _ Hp Hreq
    |id role n d parent e _ Hid Hsys Hm _ Hp|id role e _ Hid Hsys Hm Hu Hl|id role req e _ Hid Hm
    |id role keys e _ Hid Hm Hnd].
  1: exists new_id; split; [by apply create_touch|].
  2: exists id; split; [by apply edit_touch|].
  3: exists id; split; [by eapply delete_touch|].
  4,5: exists id; split; [by eapply permissions_touch || by eapply visibility_touch|].
  all: unfold confined_change; rewrite Hid;
    change (own_permissions (logged ?e ?d)) with (own_permissions d); cbn [roles logged set_audit_log].
  2-5: destruct (managed_within _ _ _ Hc Hm) as (Hs & Hh & Hr); rewrite (wf_keyed _ Hwf _ _ Hid) in Hh, Hr.
  - destruct (placed_within _ _ _ Hc Hp) as (p & -> & Hr). split; [|exists (mkRole new_id n d false (Some p) (Some ctx.(user).(uid))), p].
    + rewrite own_granted_same. pose proof (cap_held db ctx (Some p) Hc). set_solver.
    + cbn. by rewrite lookup_insert_eq.
  - split; [apply union_subseteq_l|]. split_and!; [done..|]. intros row. cbn. rewrite lookup_insert_eq. intros [= <-]. cbn.
    split; [done|]. destruct (decide (parent = role.(parent_role_id))) as [->|Hne]; [by left|]. right.
    destruct (Hp Hne) as [Hp' _]. by apply placed_within in Hp'.
  - split; [|split_and!; [done..|]; intros row; cbn; by rewrite lookup_delete_eq].
    intros p. rewrite elem_of_own. cbn. rewrite elem_of_filter. naive_solver.
  - split; [|split_and!; [done..|]; intros row; cbn; rewrite Hid; intros [= <-]; auto].
    rewrite own_granted_same. pose proof (cap_held db ctx role.(parent_role_id) Hc). set_solver.
  - split; [apply union_subseteq_l|]. split_and!; [done..|]. intros row. cbn. rewrite Hid. intros [= <-]. auto.
Qed.

Lemma user_change_roles db ctx db' :
  user_change db ctx db' →
  (∀ a, role_body <$> db'.(roles) !! a = role_body <$> db.(roles) !! a) ∧
  db'.(role_permissions) = db.(role_permissions) ∧ db'.(role_module_visibility) = db.(role_module_visibility).
Proof.
  intros Hch. destruct Hch; cbn; (split; [|done]); intros a; try done;
    rewrite lookup_fmap; destruct (roles db !! a) as [r|]; try done; cbn; f_equal; unfold forget_creator; by case_bool_decide.
Qed.
Lemma user_request_refines env mods jar ctx req db r db' :
  wf db → authentic db ctx → role_request req = false →
  handle env mods jar ctx req db = (r, db') → db' = db ∨ user_change db ctx db'.
Proof.
  intros Hwf Ha. destruct req; cbn; try done; intros _ Hrun.
  1: apply create_user_refined in Hrun; [|done..].
  2: apply edit_user_refined in Hrun; [|done..].
  3: apply change_role_refined in Hrun; [|done..].
  4: apply reset_password_refined in Hrun; [|done..].
  5: apply enable_refined in Hrun; [|done..].
  6: apply disable_refined in Hrun; [|done..].
  7: apply revoke_sessions_refined in Hrun; [|done..].
  8: apply delete_user_refined in Hrun; [|done..].
  all: tauto.
Qed.

(** C3: A request of a delegated administrator touches at most one role.  A request on users changes no role, no
    grant and no dashboard customization.  A request on roles leaves the row, the grants and the customization of
    every other role, and all assignments, users and sessions, as they were; the role it touches is either a new
    custom role placed at or below a role they hold, or a custom role strictly below a role they hold, not held
    itself and never moved out of their reach; and it gains no grant the administrator lacks. *)
Theorem delegated_confinement db ctx env mods jar req r db' :
  wf db → authentic db ctx → has_no_ceiling ctx = false →
  handle env mods jar ctx req db = (r, db') → db' ≠ db →
  if role_request req then
    ∃ id, (∀ a, a ≠ id → db'.(roles) !! a = db.(roles) !! a ∧
                         own_permissions db' a = own_permissions db a ∧
                         visibility_for_role db' a = visibility_for_role db a) ∧
          db'.(user_roles) = db.(user_roles) ∧ db'.(users) = db.(users) ∧
          db'.(sessions) = db.(sessions) ∧
          own_permissions db' id ⊆ own_permissions db id ∪ ctx.(permissions) ∧
          match db.(roles) !! id with
          | None => ∃ row p, db'.(roles) !! id = Some row ∧ row.(is_system) = false ∧
                      row.(parent_role_id) = Some p ∧ within_reach db ctx p
          | Some role =>
              role.(is_system) = false ∧ ¬ holds db ctx id ∧ within_reach db ctx id ∧
              ∀ row, db'.(roles) !! id = Some row → row.(is_system) = false ∧
                (row.(parent_role_id) = role.(parent_role_id) ∨
                 ∃ p, row.(parent_role_id) = Some p ∧ within_reach db ctx p)
          end
  else
    (∀ a, role_body <$> db'.(roles) !! a = role_body <$> db.(roles) !! a) ∧
    db'.(role_permissions) = db.(role_permissions) ∧ db'.(role_module_visibility) = db.(role_module_visibility).
Proof.
  intros Hwf Ha Hc Hrun Hne. destruct (role_request req) eqn:Hreq.
  - apply role_request_refines in Hrun as [?|[_ Hch]]; [done| |done..].
    destruct (change_confined _ _ _ Hwf Hc Hch) as (id & Ht & Hown & Hcase). exists id. split_and!; try apply Ht; try done.
    intros a Hne'. split_and!; [by apply Ht|by apply Ht|]. apply visibility_ext. intros k. by apply Ht.
  - apply user_request_refines in Hrun as [?|Hch]; [done| |done..]. by eapply user_change_roles.
Qed.

(** The permission each route asks for first, and the form token it carries. *)
Definition required_permission (req : Request) : Permission :=
  match req with
  | CreateUser _ _ => UsersCreate
  | EditUser _ _ | ChangeRole _ _ | ResetUserPassword _ _ | EnableUser _ _
  | DisableUser _ _ | RevokeSessions _ _ => UsersModify
  | DeleteUser _ _ => UsersDelete
  | _ => RolesManage
  end.
Definition token_of (req : Request) : rstr :=
  match req with
  | CreateRole _ body => (parse_create_body body).(cb_csrf_token)
  | EditRole _ form => form.(er_csrf_token)
  | DeleteRole _ form => form.(dr_csrf_token)
  | UpdatePermissions _ body | UpdateVisibility _ body => csrf_of body
  | ApplyPermissions _ form => form.(ap_csrf_token)
  | CreateUser _ form => form.(cu_csrf_token)
  | EditUser _ form => form.(eu_csrf_token)
  | ChangeRole _ form => form.(cr_csrf_token)
  | ResetUserPassword _ form => form.(rp_csrf_token)
  | EnableUser _ token => token
  | DisableUser _ form | RevokeSessions _ form | DeleteUser _ form => form.(cf_csrf_token)
  end.

(** C6: Every state-changing route fails closed: without its permission the
    answer is [Forbidden], without a form token equal to the cookie it is a
    validation error, and in both cases nothing is written. *)
Theorem requests_fail_closed env mods jar ctx req db :
  (required_permission req ∉ ctx.(permissions) →
     handle env mods jar ctx req db = (Err Forbidden, db)) ∧
  (required_permission req ∈ ctx.(permissions) → verify jar (token_of req) = false →
     ∃ msg, handle env mods jar ctx req db = (Err (Validation msg), db)).
Proof.
  split.
  - intros Hp. assert (ensure ctx (required_permission req) = Err Forbidden) as He.
    { unfold ensure. by rewrite (proj1 (not_true_iff_false _) (λ h, Hp (proj1 (has_true _ _) h))). }
    by destruct req; cbn in He |- *; unfold create_role, edit_role, delete_role, update_permissions,
      apply_permissions, update_visibility, create_user_handler, edit_user, change_role,
      reset_password, enable, disable, revoke_sessions, delete_user; rewrite App_bind_run;
      unfold lift at 1; rewrite He.
  - intros Hp Hv. assert (ensure ctx (required_permission req) = Ok ()) as He.
    { unfold ensure. by rewrite (proj2 (has_true _ _) Hp). }
    assert (∃ msg, require_csrf jar (token_of req) = Err (Validation msg)) as [msg Hc].
    { unfold require_csrf. rewrite Hv. by eexists. }
    exists msg. by destruct req; cbn in He, Hc |- *; unfold create_role, edit_role, delete_role,
      update_permissions, apply_permissions, update_visibility, create_user_handler, edit_user,
      change_role, reset_password, enable, disable, revoke_sessions, delete_user;
      rewrite App_bind_run; unfold lift at 1; rewrite He; rewrite App_bind_run; unfold lift at 1;
      rewrite Hc.
Qed.

(** An audit row without the reference the database clears when a user is
    deleted. *)
Definition anonymous (e : AuditEntry) : AuditEntry :=
  mkEntry None e.(username_snapshot) e.(action) e.(resource) e.(outcome) e.(source_ip)
    e.(auth_method) e.(metadata).
Definition entry_by ctx (e : AuditEntry) : Prop :=
  e.(user_id) = Some ctx.(user).(uid) ∧ e.(username_snapshot) = ctx.(user).(username) ∧
  e.(outcome) = #"SUCCESS".

Lemma attributed_entry ctx e : attributed ctx e → entry_by ctx (entry_of e).
Proof. intros [Ha Ho]. unfold entry_by, entry_of. rewrite Ha, Ho. by split_and!. Qed.

(** C7: The audit log only grows, and every request that changes anything is
    recorded under the name of the user who made it: the rows that were there
    stay, in order, and new ones follow.  Deleting one's own account is the one
    exception: it leaves no row at all.  Statements fail here only by violating the
    schema; a database lost between a change and its record is not covered. *)
Theorem requests_are_audited env mods jar ctx req db r db' :
  wf db → authentic db ctx → handle env mods jar ctx req db = (r, db') →
  db' = db ∨ db' = erased ctx.(user).(uid) db ∨
  ∃ old new, db'.(audit_log) = old ++ new ∧ anonymous <$> old = anonymous <$> db.(audit_log) ∧
             new ≠ [] ∧ Forall (entry_by ctx) new.
Proof.
  intros Hwf Ha Hrun. apply handle_refines in Hrun as [->|[Hch|Hch]]; [by left| | |done|done];
    right; destruct Hch; auto; right; cbn [audit_log logged set_audit_log]; unfold record.
  all: repeat match goal with H : attributed _ _ |- _ => apply attributed_entry in H end.
  all: try (eexists _, _; split; [reflexivity|]; split; [done|]; split; [done|]; by apply Forall_singleton).
  - eexists _, [_; _]. split; [by rewrite <- app_assoc|]. split; [done|]. split; [done|]. by rewrite Forall_cons, Forall_singleton.
  - eexists _, _. split; [reflexivity|]. split; [|split; [done|by apply Forall_singleton]].
    cbn. rewrite <- list_fmap_compose. apply list_fmap_ext. intros i x _. cbn.
    unfold forget_actor. by case_bool_decide.
Qed.
End theorems.

Lemma alice_ceiling : has_no_ceiling (load fix_db alice) = false.
Proof. vm_compute. reflexivity. Qed.

Definition widen_self : Request :=
  ApplyPermissions admin_id
    (mkApplyPermissionsForm #"tok" true (strings_to_json [ #"roles.manage"; #"users.delete"])).

(** Alice asks to widen her own role; the theorem applies, and the request is
    refused. *)
Lemma no_self_escalation_witness :
  (serve fix_env [] fix_jar alice widen_self fix_db).1 = Err Forbidden ∧
  effective_permissions (serve fix_env [] fix_jar alice widen_self fix_db).2 100
    ⊆ effective_permissions fix_db 100.
Proof.
  split; [vm_compute; reflexivity|].
  apply (no_self_escalation fix_db 100 alice fix_env [] fix_jar widen_self
           (serve fix_env [] fix_jar alice widen_self fix_db).1).
  - apply fix_wf.
  - apply (shallow_mono 3); [lia|apply fix_shallow].
  - reflexivity.
  - apply alice_ceiling.
  - apply surjective_pairing.
Defined.

Lemma reachable_wf_witness :
  wf (serve fix_env [] fix_jar root_user widen_self fix_db).2.
Proof.
  apply (reachable_wf fix_db); [apply fix_wf|].
  apply rtc_once. exists 99%N, fix_env, [], fix_jar, root_user, widen_self. by split.
Defined.

Definition rename_tech : Request :=
  EditRole tech_id (mkEditRoleForm #"tok" #"Field Tech" #"renamed" (uuid_to_string admin_id)).

(** Two requests of Alice in a row: she renames a role below hers, then tries
    to widen her own. *)
Definition after_rename : Db := (serve fix_env [] fix_jar alice rename_tech fix_db).2.

Lemma after_rename_alice : after_rename.(users) !! 100%N = Some alice.
Proof. vm_compute. reflexivity. Qed.
Lemma after_rename_shallow : shallow 18 after_rename.
Proof. apply shallow_check; [lia|]. vm_compute. reflexivity. Qed.
Lemma after_rename_tech : after_rename.(roles) !! tech_id ≠ fix_db.(roles) !! tech_id.
Proof. apply (bool_decide_eq_false_1 _). vm_compute. reflexivity. Qed.

Lemma no_escalation_over_time_witness :
  after_rename.(roles) !! tech_id ≠ fix_db.(roles) !! tech_id ∧
  effective_permissions (serve fix_env [] fix_jar alice widen_self after_rename).2 100
    ⊆ effective_permissions fix_db 100.
Proof.
  split; [apply after_rename_tech|].
  apply (no_escalation_over_time fix_db 100 alice); [apply fix_wf|reflexivity|apply alice_ceiling|].
  apply (rtc_l _ _ after_rename); [|apply rtc_once].
  - split; [apply (shallow_mono 3); [lia|apply fix_shallow]|].
    exists fix_env, [], fix_jar, alice, rename_tech. split; reflexivity.
  - split; [apply after_rename_shallow|].
    exists fix_env, [], fix_jar, alice, widen_self. split; [apply after_rename_alice|reflexivity].
Defined.

Lemma delegated_confinement_witness :
  ∃ id, (∀ a, a ≠ id → after_rename.(roles) !! a = fix_db.(roles) !! a).
Proof.
  destruct (delegated_confinement fix_db (load fix_db alice) fix_env [] fix_jar rename_tech
    (serve fix_env [] fix_jar alice rename_tech fix_db).1 after_rename) as (id & Hsame & _).
  - apply fix_wf.
  - split; reflexivity.
  - apply alice_ceiling.
  - apply surjective_pairing.
  - intros He. apply after_rename_tech. by rewrite He.
  - exists id. intros a Ha. by apply Hsame.
Defined.

Definition empty_jar : CookieJar := λ _, None.
Definition bob_ctx : AuthContext := load fix_db bob.

Lemma requests_fail_closed_witness :
  handle fix_env [] fix_jar bob_ctx widen_self fix_db = (Err Forbidden, fix_db) ∧
  ∃ msg, handle fix_env [] empty_jar (load fix_db alice) widen_self fix_db
         = (Err (Validation msg), fix_db).
Proof.
  split.
  - apply (proj1 (requests_fail_closed fix_env [] fix_jar bob_ctx widen_self fix_db)).
    apply (bool_decide_eq_false_1 _). vm_compute. reflexivity.
  - apply (proj2 (requests_fail_closed fix_env [] empty_jar (load fix_db alice) widen_self fix_db)).
    + apply (bool_decide_eq_true_1 _). vm_compute. reflexivity.
    + reflexivity.
Defined.

Lemma after_rename_changes : after_rename ≠ fix_db ∧ after_rename ≠ erased 100 fix_db.
Proof.
  split; [intros He; apply after_rename_tech; by rewrite He|].
  intros He. pose proof after_rename_alice as Hu. rewrite He in Hu. discriminate Hu.
Qed.

Lemma requests_are_audited_witness :
  ∃ new, new ≠ [] ∧ Forall (entry_by (load fix_db alice)) new ∧ ∃ old, after_rename.(audit_log) = old ++ new.
Proof.
  destruct (requests_are_audited fix_env [] fix_jar (load fix_db alice) rename_tech fix_db
    (serve fix_env [] fix_jar alice rename_tech fix_db).1 after_rename fix_wf
    (conj eq_refl eq_refl) (surjective_pairing _)) as [He|[He|(old & new & Hl & _ & Hn & Hf)]].
  - destruct (proj1 after_rename_changes He).
  - destruct (proj2 after_rename_changes He).
  - exists new. split; [exact Hn|]. split; [exact Hf|]. exists old. exact Hl.
Defined.
