(* ===== verification/RoleTheorems.v ===== *)
(** * What the role handlers compute

    The functional behaviour of each role handler: the grants it writes, the
    permissions that result for the role and everything below it, and the
    requests it refuses. *)

From S2P Require Import Prelude Permission Json AuditLog RoleStore RoleTree Web Delegation.
From S2P Require Import RoleRoutes RoleSpec RoleSafety Auth Users UserSafety System.
From S2P Require Import Fixture.

Section role_theorems.
Context `{!SqlEngine, !Text}.
Implicit Types (db : Db) (ctx : AuthContext) (jar : CookieJar) (id x : Uuid).

(** The keys of a set name exactly the set. *)
Lemma known_keys_of (s : gset Permission) : known_permissions (keys_of s) = s.
Proof.
  unfold known_permissions, keys_of. apply set_eq. intros p.
  rewrite elem_of_list_to_set, list_elem_of_omap. split.
  - intros (k & Hk & Hp). apply list_elem_of_fmap in Hk as (q & -> & Hq).
    rewrite from_key_as_key in Hp. injection Hp as <-. by apply elem_of_elements.
  - intros Hp. exists (as_key p). split; [|apply from_key_as_key].
    apply list_elem_of_fmap. exists p. split; [done|by apply elem_of_elements].
Qed.

(** The set [apply_permissions] writes. *)
Definition clamped db ctx (role : Role) id (requested : gset Permission) : gset Permission :=
  (requested ∩ role_cap db ctx role.(parent_role_id))
  ∪ own_permissions db id ∖ role_cap db ctx role.(parent_role_id).

(** A run of [apply_permissions] that answers. *)
Lemma apply_permissions_run db ctx jar id form r db' :
  authentic db ctx → apply_permissions jar ctx id form db = (Ok r, db') →
  ∃ role keys e, db.(roles) !! id = Some role ∧
    strings_of_json form.(ap_permissions_json) = Some keys ∧
    ensure_can_manage_role db ctx role = Ok () ∧
    db' = logged e (granted id (clamped db ctx role id (known_permissions keys)) db).
Proof.
  intros [Hu _] Hrun. unfold apply_permissions in Hrun.
  repeat (run_step; cbv beta zeta in *).
  all: try match goal with H : ensure_can_manage_role _ _ _ = Ok ?x |- _ => destruct x end.
  all: match goal with H : set_permissions _ _ _ = _ |- _ =>
    rewrite set_permissions_ok in H by by eexists end; simplify_eq.
  all: match goal with H : audit _ _ = _ |- _ =>
    erewrite audit_ok in H; [|reflexivity|cbn; rewrite Hu; by eexists] end; simplify_eq.
  match goal with H1 : find_by_id _ _ = Some ?role, H2 : strings_of_json _ = Some ?keys |- _ =>
    by exists role, keys; eexists end.
Qed.

Lemma descends_logged_granted db e id s x a :
  descends (logged e (granted id s db)) x a ↔ descends db x a.
Proof. split; intros [n Hn]; exists n; by rewrite (anc_same db) in *. Qed.

(** C4: Effective permissions are what the documentation defines them to be: a user has a permission exactly when
    some role assigned to them, and every role above it up to its root, is granted it; for users whose roles are at
    most twenty levels deep, the bound of the walk. *)
Theorem effective_permissions_spec db u p :
  keyed db → (∀ id, (u, id) ∈ db.(user_roles) → depth_le db MAX_ANCESTOR_WALK id) →
  p ∈ effective_permissions db u ↔
  ∃ id, (u, id) ∈ db.(user_roles) ∧ is_Some (db.(roles) !! id) ∧
        ∀ a, descends db id a → (a, as_key p) ∈ db.(role_permissions).
Proof.
  intros Hk Hd. rewrite elem_of_effective_permissions by done. apply exist_proper. intros id.
  split; intros (Hu & Hid & Hg); (split; [done|split; [done|]]).
  - intros a Ha. apply elem_of_own. apply eff_granted in Hg; [by apply Hg|by apply Hd].
  - apply eff_granted; [by apply Hd|]. intros a Ha. apply elem_of_own. by apply Hg.
Qed.

(** Saving a role's permissions stores exactly the requested ones the editor
    may grant there, and keeps every grant outside the editor's cap. *)
Theorem apply_permissions_exact db ctx jar id form keys role r db' :
  authentic db ctx → db.(roles) !! id = Some role →
  strings_of_json form.(ap_permissions_json) = Some keys →
  apply_permissions jar ctx id form db = (Ok r, db') →
  (∀ p, p ∈ own_permissions db' id ↔
     if decide (p ∈ role_cap db ctx role.(parent_role_id))
     then p ∈ known_permissions keys else p ∈ own_permissions db id) ∧
  ∀ a, a ≠ id → own_permissions db' a = own_permissions db a.
Proof.
  intros Ha Hid Hkeys Hrun.
  apply apply_permissions_run in Hrun as (role' & keys' & e & Hid' & Hk & _ & ->); [|done].
  simplify_eq. split.
  - intros p. change (own_permissions (logged e ?d) id) with (own_permissions d id).
    rewrite own_granted_same. unfold clamped. case_decide; set_solver.
  - intros a Hne. apply own_grants. intros k. by apply granted_other.
Qed.

(** Revoking a permission from a role takes it away from every role below at
    once: nothing that descends from the edited role has it any more. *)
Theorem revocation_cascades db ctx jar id form keys role r db' p x :
  authentic db ctx → db.(roles) !! id = Some role →
  strings_of_json form.(ap_permissions_json) = Some keys →
  p ∈ role_cap db ctx role.(parent_role_id) → p ∉ known_permissions keys →
  apply_permissions jar ctx id form db = (Ok r, db') →
  descends db x id → depth_le db MAX_ANCESTOR_WALK x →
  p ∉ effective_permissions_for_role db' x.
Proof.
  intros Ha Hid Hkeys Hcap Hp Hrun Hx Hd.
  apply apply_permissions_run in Hrun as (role' & keys' & e & Hid' & Hk & _ & ->); [|done].
  simplify_eq. rewrite eff_granted; [|unfold depth_le; by rewrite (anc_same db)].
  intros Hall. specialize (Hall id (proj2 (descends_logged_granted _ _ _ _ _ _) Hx)).
  change (own_permissions (logged e ?d) id) with (own_permissions d id) in Hall.
  rewrite own_granted_same in Hall. unfold clamped in Hall. set_solver.
Qed.

(** What the confirmation page of [update_permissions] carries. *)
Lemma update_permissions_run db ctx jar id body r db' :
  update_permissions jar ctx id body db = (Ok r, db') →
  ∃ role, db.(roles) !! id = Some role ∧ db' = db ∧
    verify jar (csrf_of body) = true ∧
    RolesManage ∈ ctx.(permissions) ∧
    ensure_can_manage_role db ctx role = Ok () ∧
    known_permissions (values_of #"permissions" body) ⊆ role_cap db ctx role.(parent_role_id) ∧
    ∃ title msg url, r = ConfirmPage title msg url
      [(#"permissions_json", strings_to_json (keys_of (known_permissions (values_of #"permissions" body)
          ∪ own_permissions db id ∖ role_cap db ctx role.(parent_role_id))))] None.
Proof.
  intros Hrun. unfold update_permissions in Hrun. repeat (run_step; cbv beta zeta in *).
  match goal with H : find_by_id _ _ = Some ?role |- _ => exists role end.
  match goal with H : ensure_can_manage_role _ _ _ = Ok ?x |- _ => destruct x end.
  bool_prop. split_and!; try done.
  - by eapply require_csrf_ok.
  - by eapply ensure_ok.
  - by do 3 eexists.
Qed.

(** Once its guards pass, [apply_permissions] goes through. *)
Lemma apply_permissions_succeeds db ctx jar id form keys role :
  authentic db ctx → RolesManage ∈ ctx.(permissions) →
  verify jar form.(ap_csrf_token) = true → form.(ap_confirm) = true →
  db.(roles) !! id = Some role → ensure_can_manage_role db ctx role = Ok () →
  strings_of_json form.(ap_permissions_json) = Some keys →
  ∃ to db', apply_permissions jar ctx id form db = (Ok (Redirect to), db').
Proof.
  intros [Hu _] Hm Hv Hc Hid Hman Hk.
  destruct (apply_permissions jar ctx id form db) as [r db'] eqn:Hrun.
  assert (ensure ctx RolesManage = Ok ()) as Hens by (unfold ensure; by rewrite (proj2 (has_true _ _) Hm)).
  assert (require_csrf jar form.(ap_csrf_token) = Ok ()) as Hcs by (unfold require_csrf; by rewrite Hv).
  unfold apply_permissions, find_by_id in Hrun.
  repeat (run_step; cbv beta zeta in *; rewrite ?Hc, ?Hid, ?Hk in *; try congruence).
  all: try match goal with H : set_permissions _ _ _ = _ |- _ =>
    rewrite set_permissions_ok in H by by eexists end; simplify_eq.
  all: match goal with H : audit _ _ = _ |- _ =>
    erewrite audit_ok in H; [|reflexivity|cbn; rewrite Hu; by eexists] end; simplify_eq.
  by do 2 eexists.
Qed.

(** What the confirmation page shows is what gets saved: submitting its
    hidden field back, with nothing changed in between, succeeds and stores
    exactly the set the page announced. *)
Theorem confirm_then_apply db ctx jar id body title msg url json db1 token :
  wf db → authentic db ctx → verify jar token = true →
  update_permissions jar ctx id body db
    = (Ok (ConfirmPage title msg url [(#"permissions_json", json)] None), db1) →
  ∃ to db', apply_permissions jar ctx id (mkApplyPermissionsForm token true json) db1
              = (Ok (Redirect to), db') ∧
    ∀ role, db.(roles) !! id = Some role →
      own_permissions db' id = known_permissions (values_of #"permissions" body)
        ∪ own_permissions db id ∖ role_cap db ctx role.(parent_role_id).
Proof.
  intros Hwf Ha Hv Hrun.
  apply update_permissions_run in Hrun as (role & Hid & -> & _ & Hm & Hman & Hsub & _ & _ & _ & [= _ _ _ ->]).
  match goal with |- context [strings_to_json ?l] =>
    destruct (apply_permissions_succeeds db ctx jar id
      (mkApplyPermissionsForm token true (strings_to_json l)) l role) as (to & db' & Hap);
      try done; [apply strings_of_to_json|] end.
  exists to, db'. split; [exact Hap|]. intros role' Hid'. simplify_eq.
  apply apply_permissions_run in Hap as (role1 & keys & e & Hid1 & Hk & _ & ->); [|done].
  cbn [ap_permissions_json] in Hk. rewrite strings_of_to_json in Hk. simplify_eq.
  change (own_permissions (logged e ?d) id) with (own_permissions d id).
  rewrite own_granted_same. unfold clamped. rewrite known_keys_of. set_solver.
Qed.

(** A run of [create_role] that stores a role. *)
Lemma create_role_run db ctx jar new_id body to db' :
  wf db → authentic db ctx → create_role jar ctx new_id body db = (Ok (Redirect to), db') →
  ∃ parent e name description,
    db.(roles) !! new_id = None ∧ may_place db ctx parent ∧
    known_permissions (parse_create_body body).(cb_permission_keys) ⊆ role_cap db ctx parent ∧
    db' = logged e (granted new_id (known_permissions (parse_create_body body).(cb_permission_keys))
            (set_roles (insert new_id (mkRole new_id name description false parent
               (Some ctx.(user).(uid)))) db)).
Proof.
  intros Hwf [Hu _] Hrun. unfold create_role, render_source_page in Hrun.
  repeat (run_step; cbv beta zeta in *; try (repeat case_match; done)).
  match type of Hrun with match ?f with Some _ => _ | None => _ end _ = _ =>
    destruct f as [parent|] eqn:Hfound end;
  repeat (run_step; cbv beta zeta in *; try (repeat case_match; done)).
  match goal with H : create _ _ _ _ _ _ _ = Ok _ |- _ => apply create_ok in H as (? & ? & ? & ?); subst end.
  match goal with H : set_permissions _ _ _ = _ |- _ =>
    rewrite set_permissions_ok in H by (cbn; by rewrite lookup_insert_eq) end.
  simplify_eq. match goal with H : audit _ _ = _ |- _ =>
    erewrite audit_ok in H; [|reflexivity|cbn; rewrite Hu; by eexists] end; simplify_eq.
  bool_prop. do 4 eexists. split_and!; [done| |done|reflexivity].
  eapply create_placement; [apply Hwf| |done|done]. intros q Hq. by eapply found_row.
Qed.

(** A role that was created is at most three levels deep, and effectively
    has exactly the permissions that were asked for: none is lost to the cap and
    none is added. *)
Theorem created_role_permissions db ctx jar new_id body to db' :
  wf db → authentic db ctx → create_role jar ctx new_id body db = (Ok (Redirect to), db') →
  depth_le db' 3 new_id ∧
  effective_permissions_for_role db' new_id
    = known_permissions (parse_create_body body).(cb_permission_keys).
Proof.
  intros Hwf Ha Hrun.
  destruct (create_role_run _ _ _ _ _ _ _ Hwf Ha Hrun) as (parent & e & n & d & Hnew & Hpl & Hsub & Hdb).
  set (req := known_permissions _) in *.
  assert (touch db ctx db' new_id) as Ht by (rewrite Hdb; by apply create_touch).
  assert (parent_of db' new_id = parent) as Hpar.
  { rewrite Hdb. by rewrite (parent_of_row _ _ _ (lookup_insert_eq _ _ _)). }
  assert (own_permissions db' new_id = req) as Hown.
  { rewrite Hdb. apply (own_granted_same (set_roles _ db)). }
  assert (∀ p, parent = Some p → ¬ descends db p new_id ∧ depth_le db 2 p) as Hp.
  { intros p ->. destruct Hpl as (Hex & Hd & _). split; [by apply not_below_absent|done]. }
  assert (depth_le db' 3 new_id) as Hd3.
  { unfold depth_le. rewrite anc_S, Hpar. destruct parent as [p|]; [|done]. cbn [mbind option_bind].
    destruct (Hp p eq_refl) as [Hb Hd].
    by rewrite (move_anc_outside db db' new_id (touch_parent _ _ _ _ Ht)). }
  split; [done|]. apply set_eq. intros p.
  rewrite eff_granted by (apply (anc_mono _ 3); [unfold MAX_ANCESTOR_WALK; lia|done]). split.
  - intros Hall. rewrite <- Hown. apply Hall, descends_refl.
  - intros Hreq a [->|(q & Hq & Hqa)]%descends_inv; [by rewrite Hown|].
    rewrite Hpar in Hq. destruct (Hp q Hq) as [Hb Hd]. rewrite Hq in Hsub.
    apply (move_descends_outside db db' new_id (touch_parent _ _ _ _ Ht)) in Hqa; [|done].
    rewrite (t_own _ _ _ _ Ht) by (intros ->; done).
    apply Hsub in Hreq. cbn [role_cap] in Hreq. apply elem_of_intersection in Hreq as [_ Heff].
    apply eff_granted in Heff; [by apply Heff|].
    apply (anc_mono _ 2); [unfold MAX_ANCESTOR_WALK; lia|done].
Qed.

(** A role is deleted only when nobody is assigned to it and no role is
    below it; its row, its grants and nothing else disappear, and every other
    role keeps its effective permissions. *)
Theorem delete_role_exact db ctx jar id form r db' :
  wf db → authentic db ctx → delete_role jar ctx id form db = (r, db') → db' ≠ db →
  (∀ u, (u, id) ∉ db.(user_roles)) ∧
  (∀ c row, db.(roles) !! c = Some row → row.(parent_role_id) ≠ Some id) ∧
  db'.(roles) = base.delete id db.(roles) ∧ db'.(user_roles) = db.(user_roles) ∧
  own_permissions db' id = ∅ ∧
  ∀ x, x ≠ id → effective_permissions_for_role db' x = effective_permissions_for_role db x.
Proof.
  intros Hwf Ha Hrun Hne. unfold delete_role in Hrun. destruct Ha as [Hu Hp].
  repeat (run_step; cbv beta zeta in *; try done).
  all: match goal with H : delete _ _ = Ok _ |- _ => apply delete_ok in H as -> end.
  all: match goal with H : audit _ _ = _ |- _ =>
    erewrite audit_ok in H; [|reflexivity|cbn; rewrite Hu; by eexists] end; simplify_eq.
  match goal with H : (0 <? _) || (0 <? _) = false |- _ =>
    apply orb_false_iff in H as [Hus%Nat.ltb_ge Hch%Nat.ltb_ge] end.
  assert (∀ u, (u, id) ∉ db.(user_roles)) as Hna by (apply user_count_zero; lia).
  assert (∀ c row, db.(roles) !! c = Some row → row.(parent_role_id) ≠ Some id) as Hleaf
    by (apply children_of_nil; lia).
  split_and!; try done.
  - by apply (unassigned_filter db).
  - apply set_eq. intros p. rewrite elem_of_own. cbn. rewrite elem_of_filter. set_solver.
  - intros y Hy. eapply (touch_eff_outside db ctx _ id); [eapply delete_touch; try done|].
    + by eapply ensure_can_manage_role_ok.
    + intros Hd. by apply Hy, (leaf_unused db id).
Qed.
End role_theorems.

(** ** On the fixture *)

Lemma alice_authentic : authentic fix_db (load fix_db alice).
Proof. split; reflexivity. Qed.

Lemma alice_shallow id : (100%N, id) ∈ fix_db.(user_roles) → depth_le fix_db MAX_ANCESTOR_WALK id.
Proof.
  intros _. apply (anc_mono fix_db 3); [unfold MAX_ANCESTOR_WALK; lia|apply fix_shallow].
Qed.
Lemma alice_scans : NetworkScan ∈ effective_permissions fix_db 100.
Proof. apply (bool_decide_eq_true_1 _). vm_compute. reflexivity. Qed.
Lemma effective_permissions_spec_witness :
  ∃ id, (100%N, id) ∈ fix_db.(user_roles) ∧ is_Some (fix_db.(roles) !! id) ∧
        ∀ a, descends fix_db id a → (a, as_key NetworkScan) ∈ fix_db.(role_permissions).
Proof.
  apply (effective_permissions_spec fix_db 100 NetworkScan).
  - apply fix_wf.
  - exact alice_shallow.
  - exact alice_scans.
Defined.

(** Alice narrows the technicians' role to one permission. *)
Definition narrow_tech : ApplyPermissionsForm :=
  mkApplyPermissionsForm #"tok" true (strings_to_json [ #"network.view"]).
Abbreviation narrow_run := (apply_permissions fix_jar (load fix_db alice) tech_id narrow_tech).
Definition tech_url : rstr := #"/admin/roles/" ++ uuid_to_string tech_id.

Lemma narrow_ok : (narrow_run fix_db).1 = Ok (Redirect tech_url).
Proof. vm_compute. reflexivity. Qed.
Lemma narrow_keys : strings_of_json narrow_tech.(ap_permissions_json) = Some [ #"network.view"].
Proof. vm_compute. reflexivity. Qed.
Definition tech_role : Role := mkRole tech_id #"Network Tech" [] false (Some admin_id) (Some 100%N).

(** The permission Alice may grant and dropped is gone, the one outside her cap
    stays. *)
Lemma apply_permissions_exact_witness :
  (NetworkScan ∉ own_permissions (snd (narrow_run fix_db)) tech_id) ∧
  SystemsView ∈ own_permissions (snd (narrow_run fix_db)) tech_id.
Proof.
  destruct (apply_permissions_exact fix_db (load fix_db alice) fix_jar tech_id narrow_tech
    [ #"network.view"] tech_role _ _ alice_authentic eq_refl narrow_keys (run_pair _ _ _ narrow_ok))
    as [Hown _].
  split; [rewrite Hown, decide_True|rewrite Hown, decide_False];
    first [apply (bool_decide_eq_false_1 _)|apply (bool_decide_eq_true_1 _)]; vm_compute; reflexivity.
Defined.

Lemma revocation_cascades_witness :
  NetworkScan ∉ effective_permissions_for_role (snd (narrow_run fix_db)) trainee_id.
Proof.
  apply (revocation_cascades fix_db (load fix_db alice) fix_jar tech_id narrow_tech
    [ #"network.view"] tech_role (Redirect tech_url)).
  - apply alice_authentic.
  - reflexivity.
  - apply narrow_keys.
  - apply (bool_decide_eq_true_1 _). vm_compute. reflexivity.
  - apply (bool_decide_eq_false_1 _). vm_compute. reflexivity.
  - exact (run_pair _ _ _ narrow_ok).
  - by exists 1.
  - reflexivity.
Defined.

(** The same edit through the confirmation page. *)
Definition narrow_body : list (rstr * rstr) :=
  [(#"csrf_token", #"tok"); (#"permissions", #"network.view")].
Abbreviation confirm_run := (update_permissions fix_jar (load fix_db alice) tech_id narrow_body).
Definition confirm_json : rstr := strings_to_json [ #"network.view"; #"systems.view"].

Lemma confirm_page : ∃ title msg url json,
  fst (confirm_run fix_db) = Ok (ConfirmPage title msg url [(#"permissions_json", json)] None).
Proof. do 4 eexists. vm_compute. reflexivity. Qed.

Lemma confirm_then_apply_witness :
  ∃ json to db', apply_permissions fix_jar (load fix_db alice) tech_id
    (mkApplyPermissionsForm #"tok" true json) fix_db = (Ok (Redirect to), db') ∧
    own_permissions db' tech_id = known_permissions (values_of #"permissions" narrow_body)
      ∪ own_permissions fix_db tech_id ∖ role_cap fix_db (load fix_db alice) (Some admin_id).
Proof.
  destruct confirm_page as (title & msg & url & json & Hpage). exists json.
  pose proof (run_pair _ _ _ Hpage) as Hrun.
  assert (snd (confirm_run fix_db) = fix_db) as Hdb by (by eapply update_permissions_reads).
  rewrite Hdb in Hrun.
  destruct (confirm_then_apply fix_db (load fix_db alice) fix_jar tech_id narrow_body
    title msg url json fix_db #"tok" fix_wf alice_authentic eq_refl Hrun) as (to & db' & Hap & Hown).
  exists to, db'. split; [exact Hap|]. exact (Hown tech_role eq_refl).
Defined.

(** Alice creates a role below the technicians. *)
Definition new_role_body : list (rstr * rstr) :=
  [(#"csrf_token", #"tok"); (#"name", #"Night Shift"); (#"parent_role_id", uuid_to_string tech_id);
   (#"permissions", #"network.view"); (#"permissions", #"no.such.key")].
Abbreviation new_role_run := (create_role fix_jar (load fix_db alice) 77 new_role_body).

Lemma new_role_ok : fst (new_role_run fix_db) = Ok (Redirect (#"/admin/roles/" ++ uuid_to_string 77)).
Proof. vm_compute. reflexivity. Qed.

Lemma created_role_permissions_witness :
  depth_le (snd (new_role_run fix_db)) 3 77%N ∧
  effective_permissions_for_role (snd (new_role_run fix_db)) 77
    = known_permissions [ #"network.view"; #"no.such.key"].
Proof.
  exact (created_role_permissions fix_db (load fix_db alice) fix_jar 77 new_role_body _ _
           fix_wf alice_authentic (run_pair _ _ _ new_role_ok)).
Defined.

(** Alice removes the trainee role, which nobody holds. *)
Definition drop_form : DeleteRoleForm := mkDeleteRoleForm #"tok" true #" Trainee ".
Abbreviation drop_run := (delete_role fix_jar (load fix_db alice) trainee_id drop_form).

Lemma drop_changes : snd (drop_run fix_db) ≠ fix_db.
Proof.
  intros He. assert ((snd (drop_run fix_db)).(roles) !! trainee_id = fix_db.(roles) !! trainee_id) as Hr
    by by rewrite He.
  revert Hr. apply (bool_decide_eq_false_1 _). vm_compute. reflexivity.
Qed.

Lemma delete_role_exact_witness :
  effective_permissions_for_role (snd (drop_run fix_db)) tech_id
    = effective_permissions_for_role fix_db tech_id.
Proof.
  apply (delete_role_exact fix_db (load fix_db alice) fix_jar trainee_id drop_form
    (fst (drop_run fix_db)) _ fix_wf alice_authentic (surjective_pairing _) drop_changes).
  discriminate.
Defined.
