(* ===== verification/UserTheorems.v ===== *)
(** * What the user handlers guarantee

    Assignments stay within the administrator's permissions, a disabled or
    signed-out account has no way in, and the extractor admits only active users
    with a valid session. *)

From S2P Require Import Prelude Permission Json AuditLog RoleStore RoleTree Web Delegation.
From S2P Require Import RoleRoutes RoleSpec RoleSafety Auth Users UserSafety System.
From S2P Require Import Fixture.

Section user_theorems.
Context `{!SqlEngine, !Text}.
Implicit Types (db : Db) (ctx : AuthContext) (jar : CookieJar) (id : Uuid).

Lemma change_role_run db ctx jar id form r db' :
  authentic db ctx → change_role jar ctx id form db = (Ok r, db') →
  id ≠ ctx.(user).(uid) ∧ offers (assignable_roles db ctx) form.(cr_role_id) = true ∧
  target_in_scope db ctx id = true ∧
  ∃ e, db' = logged e (assigned id form.(cr_role_id) db).
Proof.
  intros [Hu _] Hrun. unfold change_role in Hrun. repeat (run_step; cbv beta zeta in *).
  all: match goal with H : set_user_role _ _ _ = Ok _ |- _ => apply set_user_role_ok in H as -> end.
  all: match goal with H : audit _ _ = _ |- _ =>
    erewrite audit_ok in H; [|reflexivity|cbn; rewrite Hu; by eexists] end; simplify_eq.
  bool_prop. split_and!; [done..|]. by eexists.
Qed.

(** Re-assigning a user is never self-service and never hands out more than
    the administrator has: after [change_role] succeeds the target is someone
    else, and all of their permissions are permissions of the administrator. *)
Theorem assignment_within_ceiling db ctx jar id form r db' :
  wf db → authentic db ctx → shallow MAX_ANCESTOR_WALK db →
  change_role jar ctx id form db = (Ok r, db') →
  id ≠ ctx.(user).(uid) ∧ effective_permissions db' id ⊆ ctx.(permissions).
Proof.
  intros Hwf Ha Hs Hrun.
  destruct (change_role_run _ _ _ _ _ _ _ Ha Hrun) as (Hne & Ho & _ & e & ->). split; [done|].
  intros p Hp. apply effective_logged in Hp; [|apply Hwf].
  apply effective_assigned in Hp; [|apply Hwf|by eapply assignable_exists; [apply Hwf|]].
  by apply (offered_within db ctx form.(cr_role_id)).
Qed.

(** ** Sessions *)

(** Signing a user out leaves no valid session of theirs. *)
Lemma signed_out_invalid db u t i s now :
  (signed_out u t db).(sessions) !! i = Some s → s.(session_user) = u → is_valid s now = false.
Proof.
  cbn. rewrite lookup_fmap, fmap_Some. intros (s0 & _ & ->).
  destruct (session_user s0 =? u)%N eqn:Hu; cbn.
  - case_bool_decide as Hr; cbn; unfold is_valid; cbn; [by intros _|].
    intros _. rewrite bool_decide_false by done. done.
  - intros Hs. by rewrite Hs, N.eqb_refl in Hu.
Qed.

Lemma find_session_row db h s : find_by_token_hash db h = Some s → ∃ i, db.(sessions) !! i = Some s.
Proof.
  intros [Hin _]%find_some. apply list_elem_of_In, list_elem_of_fmap in Hin as ([i s'] & -> & Hi).
  exists i. by apply elem_of_map_to_list in Hi.
Qed.

(** What an accepted request's context is. *)
Lemma current_user_run db hash name path jar now ctx :
  current_user db hash name path jar now = Ok ctx →
  ∃ token s u, jar name = Some token ∧ find_by_token_hash db (hash token) = Some s ∧
    is_valid s now = true ∧ db.(users) !! s.(session_user) = Some u ∧ u.(is_active) = true ∧
    (u.(must_change_password) = true → path ∈ MUST_CHANGE_PASSWORD_EXEMPT_PATHS) ∧
    ctx = load db u.
Proof.
  unfold current_user. intros Hrun.
  apply result_bind_ok in Hrun as (token & Htok%ok_or_ok & Hrun).
  apply result_bind_ok in Hrun as (s & Hs%ok_or_ok & Hrun).
  apply result_bind_ok in Hrun as (u & Hu%ok_or_ok & Hrun).
  unfold validate in Hs. destruct (find_by_token_hash db (hash token)) as [s'|] eqn:Hf; [|done].
  destruct (is_valid s' now) eqn:Hv; [|done]. injection Hs as ->.
  destruct (is_active u) eqn:Ha; [|done]. cbn [negb] in Hrun.
  destruct (must_change_password u && _) eqn:Hm; [done|]. injection Hrun as <-.
  exists token, s, u. split_and!; try done. intros Hmust. rewrite Hmust in Hm. cbn in Hm.
  apply negb_false_iff in Hm. by apply str_mem_elem.
Qed.

(** C5: A request is let in only with the cookie of a session that is stored,
    not revoked and not expired, for a user who exists and is active; its
    permissions are the ones the database grants at that moment; and a user who
    must change their password reaches nothing but the page to do so. *)
Theorem extractor_sound db hash name path jar now ctx :
  wf db → current_user db hash name path jar now = Ok ctx →
  authentic db ctx ∧ ctx.(user).(is_active) = true ∧
  (∃ token i s, jar name = Some token ∧ db.(sessions) !! i = Some s ∧
     s.(token_hash) = hash token ∧ s.(session_user) = ctx.(user).(uid) ∧
     s.(revoked_at) = None ∧ (now < s.(expires_at))%N) ∧
  (ctx.(user).(must_change_password) = true → path = #"/account" ∨ path = #"/account/password").
Proof.
  intros Hwf (token & s & u & Hj & Hf & Hv & Hu & Ha & Hm & ->)%current_user_run.
  split; [by eapply load_authentic|]. split; [done|]. split.
  - destruct (find_session_row _ _ _ Hf) as [i Hi]. exists token, i, s.
    apply find_some in Hf as [_ Hh%str_eqb_eq]. unfold is_valid in Hv. bool_prop.
    split_and!; try done. symmetry. by apply (wf_user_keyed _ Hwf).
  - intros Hmust%Hm. unfold MUST_CHANGE_PASSWORD_EXEMPT_PATHS in Hmust.
    rewrite !elem_of_cons, elem_of_nil in Hmust. tauto.
Qed.

Lemma disable_run env db ctx jar id form r db' :
  authentic db ctx → disable env jar ctx id form db = (Ok r, db') →
  ∃ e f, (∀ u, (f u).(uid) = u.(uid) ∧ (f u).(is_active) = false) ∧
    db' = logged e (signed_out id env.(env_now) (with_user id f db)).
Proof.
  intros [Hu _] Hrun. unfold disable, set_active, revoke_all_for_user in Hrun.
  repeat (run_step; cbv beta zeta in *).
  all: simplify_eq; match goal with H : audit _ _ = _ |- _ =>
    erewrite audit_ok in H; [|reflexivity|cbn; rewrite lookup_alter_is_Some; rewrite Hu; by eexists] end;
    simplify_eq.
  eexists _, _. split; [|reflexivity]. done.
Qed.

(** Disabling a user locks them out at once: no session cookie is accepted
    for them, at any later time, and their password no longer signs them in. *)
Theorem disabled_user_locked_out env db ctx jar id form r db' :
  wf db → authentic db ctx → disable env jar ctx id form db = (Ok r, db') →
  (∀ hash name path jar' now ctx',
     current_user db' hash name path jar' now = Ok ctx' → ctx'.(user).(uid) ≠ id) ∧
  (∀ check name password u, authenticate check db' name password = Ok u → u.(uid) ≠ id).
Proof.
  intros Hwf Ha (e & f & Hf & ->)%disable_run; [|done].
  assert (wf (with_user id f db)) as Hwf' by (apply with_user_wf; [done|intros u; apply Hf]).
  assert (∀ u, (with_user id f db).(users) !! id = Some u → u.(is_active) = false) as Hoff.
  { intros u. cbn. rewrite lookup_alter_eq. intros (v & _ & ->)%fmap_Some. apply Hf. }
  split.
  - intros hash name path jar' now ctx' (token & s & u & _ & _ & _ & Hu & Hact & _ & ->)%current_user_run He.
    cbn in Hu. pose proof (wf_user_keyed _ Hwf' _ _ Hu) as Hk. rewrite <- Hk in Hu.
    cbn in He. rewrite He in Hu. by rewrite (Hoff u Hu) in Hact.
  - intros check name password u Hauth He. unfold authenticate in Hauth.
    apply result_bind_ok in Hauth as (v & Hv%ok_or_ok & Hauth).
    unfold find_by_username in Hv. apply find_some in Hv as [Hin _].
    apply list_elem_of_In, list_elem_of_fmap in Hin as ([i v'] & -> & Hi).
    apply elem_of_map_to_list in Hi. cbn [snd] in *. cbn in Hi.
    destruct (is_active v') eqn:Hact; [|done]. cbn [negb] in Hauth.
    apply result_bind_ok in Hauth as (h & _ & Hauth). destruct (check password h); [|done].
    injection Hauth as ->. pose proof (wf_user_keyed _ Hwf' _ _ Hi) as Hk.
    rewrite <- Hk, He in Hi. by rewrite (Hoff _ Hi) in Hact.
Qed.
End user_theorems.

(** ** On the fixture *)

(** Alice moves Bob down to the trainee role. *)
Definition demote : ChangeRoleForm := mkChangeRoleForm #"tok" trainee_id.
Abbreviation demote_run := (change_role fix_jar (load fix_db alice) 101 demote).

Lemma demote_ok : ∃ to, fst (demote_run fix_db) = Ok (Redirect to).
Proof. eexists. vm_compute. reflexivity. Qed.

Lemma assignment_within_ceiling_witness :
  101%N ≠ 100%N ∧
  effective_permissions (snd (demote_run fix_db)) 101 ⊆ (load fix_db alice).(permissions).
Proof.
  destruct demote_ok as [to Hok].
  apply (assignment_within_ceiling fix_db (load fix_db alice) fix_jar 101 demote (Redirect to)).
  - apply fix_wf.
  - split; reflexivity.
  - apply (shallow_mono 3); [unfold MAX_ANCESTOR_WALK; lia|apply fix_shallow].
  - exact (run_pair _ _ _ Hok).
Defined.

Definition session_jar (token : rstr) : CookieJar := λ name,
  if str_eqb name #"abyssal_session" then Some token else fix_jar name.

Lemma extractor_sound_witness :
  authentic fix_db (load fix_db bob) ∧ bob.(is_active) = true.
Proof.
  destruct (extractor_sound fix_db fix_hash #"abyssal_session" #"/" (session_jar #"bob-token") 1500
    (load fix_db bob) fix_wf) as (Ha & Hact & _ & _).
  - vm_compute. reflexivity.
  - split; [exact Ha|exact Hact].
Defined.

Definition disable_form : ConfirmForm := mkConfirmForm #"tok" true [].
Abbreviation disable_run_bob := (disable fix_env fix_jar (load fix_db alice) 101 disable_form).

Lemma disable_bob_ok : fst (disable_run_bob fix_db) = Ok (Redirect #"/admin/users").
Proof. vm_compute. reflexivity. Qed.

Lemma disabled_user_locked_out_witness :
  fst (disable_run_bob fix_db) = Ok (Redirect #"/admin/users") ∧
  ¬ (current_user (snd (disable_run_bob fix_db)) fix_hash #"abyssal_session" #"/"
       (session_jar #"bob-token") 1500 = Ok (load fix_db bob)).
Proof.
  split; [exact disable_bob_ok|]. intros Hin.
  refine (proj1 (disabled_user_locked_out fix_env fix_db (load fix_db alice) fix_jar 101 disable_form
    _ _ fix_wf (conj eq_refl eq_refl) (run_pair _ _ _ disable_bob_ok)) _ _ _ _ _ _ Hin _).
  reflexivity.
Defined.
