(* ===== verification/LoginTheorems.v ===== *)
(** * What getting in guarantees

    A login opens exactly the session it answers with, guessing is bounded by
    the lockout however logins are interleaved, a reset code works once, and the forgotten-password form tells
    nobody which accounts exist. *)

From S2P Require Import Prelude Permission Json AuditLog RoleStore RoleTree Web.
From S2P Require Import Delegation RoleSpec Auth Users UserSafety System Fixture UserTheorems.
From S2P Require Import Login.

(** ** Running these handlers *)

Section srv_runs.
Context {A B : Type}.
Implicit Types (s : Site).

Lemma Srv_bind_inv (m : Srv A) (f : A → Srv B) s r s' :
  (m ≫= f) s = (r, s') →
  (∃ x s1, m s = (Ok x, s1) ∧ f x s1 = (r, s')) ∨ (∃ e, m s = (Err e, s') ∧ r = Err e).
Proof. change ((m ≫= f) s) with (match m s with (Ok x, s') => f x s' | (Err e, s') => (Err e, s') end).
  destruct (m s) as [[x|e] s1]; naive_solver. Qed.

Lemma on_db_inv (m : App A) s r s' :
  on_db m s = (r, s') → ∃ d, m (db s) = (r, d) ∧ s' = with_db d s.
Proof. unfold on_db. destruct (m (db s)) as [r0 d]. intros [= <- <-]. by exists d. Qed.

Lemma asks_inv (f : Site → A) s r s' : asks f s = (r, s') → r = Ok (f s) ∧ s' = s.
Proof. unfold asks. naive_solver. Qed.

Lemma on_limiter_inv (f : LoginLimiter → A * LoginLimiter) s r s' :
  on_limiter f s = (r, s') →
  r = Ok (f (login_limiter s)).1 ∧ s' = mkSite (db s) (settings s) (f (login_limiter s)).2 (outbox s).
Proof. unfold on_limiter. destruct (f (login_limiter s)) as [x l]. cbn. naive_solver. Qed.

Lemma Srv_ret_inv (x : A) s r s' : (mret x : Srv A) s = (r, s') → r = Ok x ∧ s' = s.
Proof. cbv. naive_solver. Qed.
End srv_runs.

Lemma page_inv p s r s' : page p s = (r, s') → r = Ok (mkAnswer p KeepCookie) ∧ s' = s.
Proof. apply Srv_ret_inv. Qed.

Lemma login_error_inv msg s r s' :
  login_error msg s = (r, s') →
  r = Ok (mkAnswer (LoginPage (Some msg) (get_bool s PUBLIC_REGISTRATION_ENABLED false)) KeepCookie) ∧ s' = s.
Proof. intros [= <- <-]. done. Qed.

Lemma site_eta s : mkSite (db s) (settings s) (login_limiter s) (outbox s) = s.
Proof. by destruct s. Qed.

(** Unfolds a run one step at a time. *)
Ltac srv_step :=
  match goal with
  | H : (_ ≫= _) _ = (_, _) |- _ => apply Srv_bind_inv in H as [(? & ? & ? & H)|(? & H & ?)]
  | H : on_db _ _ = (_, _) |- _ => apply on_db_inv in H as (? & H & ?)
  | H : asks _ _ = (_, _) |- _ => apply asks_inv in H as [? ?]
  | H : on_limiter _ _ = (_, _) |- _ => apply on_limiter_inv in H as [? ?]
  | H : page _ _ = (_, _) |- _ => apply page_inv in H as [? ?]
  | H : login_error _ _ = (_, _) |- _ => apply login_error_inv in H as [? ?]
  | H : (mret _ : Srv _) _ = (_, _) |- _ => apply Srv_ret_inv in H as [? ?]
  | H : lift _ _ = (_, _) |- _ => apply lift_inv in H as [? ?]
  | H : require _ _ _ = (_, _) |- _ => apply lift_inv in H as [? ?]
  | H : query _ _ = (_, _) |- _ => apply query_inv in H as [? ?]
  | H : exec _ _ = (_, _) |- _ => apply exec_inv in H as [(? & ? & ?)|(? & ? & ? & ?)]
  end; simplify_eq; unfold with_db in *; rewrite ?site_eta in *;
  cbn [db settings login_limiter outbox fst snd] in *.

Section login.
Context `{!SqlEngine} (dep : Deployment).
Implicit Types (jar : CookieJar) (dr : Draw) (s : Site) (d : Db).

(** What an accepted login leaves behind. *)
Definition success_event (u : User) (ip : rstr) : AuditEvent :=
  new_event AuditAction.LoginSuccess Success |> with_actor (mkActor u.(uid) u.(username))
  |> with_source_ip ip |> with_auth_method #"local".
Definition failure_event (name ip : rstr) : AuditEvent :=
  new_event AuditAction.LoginFailure Failure |> with_resource name |> with_source_ip ip
  |> with_auth_method #"local".
Definition opened_session dr (u : User) : Session :=
  mkSession (fresh_id dr) (hash_token dep (token dr)) u.(uid) (at_time dr + session_ttl dep) None.

Lemma audit_anonymous e d : (entry_of e).(user_id) = None → audit e d = Ok ((), logged e d).
Proof. intros He. unfold audit. by rewrite He. Qed.

Lemma audit_inv e d x d' : audit e d = Ok (x, d') → d' = logged e d.
Proof. unfold audit. destruct (dangling _ _); [done|]. by intros [= _ <-]. Qed.

Lemma issue_inv i t u ttl now d x d' :
  issue (hash_token dep) i t u ttl now d = Ok (x, d') →
  x = mkSession i (hash_token dep t) u (now + ttl) None ∧ d' = set_sessions (insert i x) d ∧
  d.(sessions) !! i = None ∧
  (∀ j y, d.(sessions) !! j = Some y → y.(token_hash) ≠ hash_token dep t).
Proof.
  unfold issue, create_session. case_bool_decide as Hid; [done|].
  destruct (existsb _ _) eqn:Hex; [done|]. destruct (dangling _ _); [done|]. intros [= <- <-].
  split_and!; [done|done|by apply eq_None_not_Some|]. intros j y Hj Heq.
  apply not_true_iff_false in Hex. apply Hex, existsb_exists. exists y. split; [|by apply str_eqb_eq].
  apply list_elem_of_In, list_elem_of_fmap. exists (j, y). split; [done|]. by apply elem_of_map_to_list.
Qed.

(** The limiter after the check every login makes. *)
Definition checked (form : LoginForm) (ip : rstr) dr s : LoginLimiter :=
  (is_locked (login_limiter s) (limiter_key form ip) (at_time dr)).2.

(** Every way a login request can end, and what it leaves behind. *)
Inductive login_ends jar ip dr form s : result AppError Answer → Site → Prop :=
| login_untrusted e :
    verify jar (lf_csrf_token form) = false → login_ends jar ip dr form s (Err e) s
| login_locked a :
    (is_locked (login_limiter s) (limiter_key form ip) (at_time dr)).1 = true →
    cookie a = KeepCookie →
    login_ends jar ip dr form s (Ok a) (mkSite (db s) (settings s) (checked form ip dr s) (outbox s))
| login_failed e a :
    (is_locked (login_limiter s) (limiter_key form ip) (at_time dr)).1 = false →
    authenticate (verify_password dep) (db s) (lf_username form) (lf_password form) = Err e →
    cookie a = KeepCookie →
    login_ends jar ip dr form s (Ok a)
      (mkSite (logged (failure_event (lf_username form) ip) (db s)) (settings s)
         (record_failure (checked form ip dr s) (limiter_key form ip) (at_time dr)) (outbox s))
| login_broken u e d :
    authenticate (verify_password dep) (db s) (lf_username form) (lf_password form) = Ok u →
    d = db s ∨ d = logged (success_event u ip) (db s) →
    login_ends jar ip dr form s (Err (Internal e))
      (mkSite d (settings s) (clear (checked form ip dr s) (limiter_key form ip)) (outbox s))
| login_opened u :
    verify jar (lf_csrf_token form) = true →
    (is_locked (login_limiter s) (limiter_key form ip) (at_time dr)).1 = false →
    authenticate (verify_password dep) (db s) (lf_username form) (lf_password form) = Ok u →
    (db s).(sessions) !! fresh_id dr = None →
    (∀ j y, (db s).(sessions) !! j = Some y → y.(token_hash) ≠ hash_token dep (token dr)) →
    login_ends jar ip dr form s (Ok (mkAnswer (Redirect #"/") (SessionCookie (token dr))))
      (mkSite (set_sessions (insert (fresh_id dr) (opened_session dr u)) (logged (success_event u ip) (db s)))
         (settings s) (clear (checked form ip dr s) (limiter_key form ip)) (outbox s)).

Lemma login_submit_ends jar ip dr form s r s' :
  login_submit dep jar ip dr form s = (r, s') → login_ends jar ip dr form s r s'.
Proof.
  unfold login_submit, login_check, login_look, login_settle. intros Hrun. srv_step; [|srv_step; srv_step; srv_step].
  2: { apply login_untrusted. unfold require_csrf in *. by destruct (verify _ _). }
  repeat srv_step. fold (checked form ip dr s) in Hrun.
  destruct (is_locked (login_limiter s) (limiter_key form ip) (at_time dr)).1 eqn:Hl.
  { srv_step. by apply login_locked. }
  repeat srv_step. destruct (authenticate _ _ _ _) as [u|e] eqn:Ha.
  - repeat srv_step.
    + match goal with H : audit _ _ = _ |- _ => apply audit_inv in H as -> end.
      match goal with H : issue _ _ _ _ _ _ _ = _ |- _ => apply issue_inv in H as (-> & -> & Hi & Hj) end.
      apply login_opened; try done. by eapply require_csrf_ok.
    + match goal with H : audit _ _ = _ |- _ => apply audit_inv in H as -> end.
      eapply login_broken; [done|by right].
    + eapply login_broken; [done|by left].
  - repeat srv_step. match goal with H : audit _ _ = _ |- _ => apply audit_inv in H as -> end.
    by eapply login_failed.
Qed.

Lemma authenticate_inv d name password u :
  authenticate (verify_password dep) d name password = Ok u →
  find_by_username d name = Some u ∧ u.(is_active) = true ∧
  ∃ h, u.(password_hash) = Some h ∧ verify_password dep password h = true.
Proof.
  unfold authenticate. intros (u' & Hu%ok_or_ok & Hrun)%result_bind_ok.
  destruct (is_active u') eqn:Ha; [|done]. cbn [negb] in Hrun.
  apply result_bind_ok in Hrun as (h & Hh%ok_or_ok & Hrun).
  destruct (verify_password dep password h) eqn:Hv; [|done]. injection Hrun as ->. naive_solver.
Qed.

Lemma find_username_row d name u : find_by_username d name = Some u → ∃ i, d.(users) !! i = Some u.
Proof.
  intros [Hin _]%find_some. apply list_elem_of_In, list_elem_of_fmap in Hin as ([i x] & -> & Hi).
  exists i. by apply elem_of_map_to_list in Hi.
Qed.

(** A stored session whose hash no other session has is the one found by it. *)
Lemma find_session_unique d i x h :
  d.(sessions) !! i = Some x → x.(token_hash) = h →
  (∀ j y, d.(sessions) !! j = Some y → y.(token_hash) = h → y = x) →
  find_by_token_hash d h = Some x.
Proof.
  intros Hi Hh Hu. unfold find_by_token_hash.
  destruct (List.find _ _) as [y|] eqn:Hf.
  - pose proof (find_session_row d h y Hf) as [j Hj]. apply find_some in Hf as [_ Hy%str_eqb_eq].
    by rewrite (Hu j y Hj Hy).
  - assert (str_eqb x.(token_hash) h = false) as Hn.
    { apply (find_none _ _ Hf x), list_elem_of_In, list_elem_of_fmap. exists (i, x).
      split; [done|]. by apply elem_of_map_to_list. }
    by rewrite (proj2 (str_eqb_eq _ _) Hh) in Hn.
Qed.

(** How the extractor treats a cookie whose session is found. *)
Definition admits d (u : User) (path : rstr) : result AppError AuthContext :=
  if u.(must_change_password) && negb (str_mem path MUST_CHANGE_PASSWORD_EXEMPT_PATHS)
  then Err MustChangePassword else Ok (load d u).

Lemma current_user_found d path jar now t x u :
  jar (session_cookie_name dep) = Some t → find_by_token_hash d (hash_token dep t) = Some x →
  d.(users) !! x.(session_user) = Some u → u.(is_active) = true →
  current_user d (hash_token dep) (session_cookie_name dep) path jar now
  = if is_valid x now then admits d u path else Err Unauthenticated.
Proof.
  intros Hj Hf Hu Ha. unfold current_user, validate. rewrite Hj. cbn. rewrite Hf.
  destruct (is_valid x now); cbn; [|done]. rewrite Hu. cbn. rewrite Ha. done.
Qed.

Lemma ignoring_audit_inv e s r s' :
  ignoring (exec (audit e)) s = (r, s') →
  r = Ok () ∧ ∃ d, s' = with_db d s ∧ d.(sessions) = (db s).(sessions) ∧ d.(users) = (db s).(users).
Proof.
  unfold ignoring, exec. intros [= <- <-]. split; [done|]. eexists. split; [done|].
  destruct (audit e (db s)) as [[x d]|err] eqn:Ha; [|done]. by apply audit_inv in Ha as ->.
Qed.

(** Logging out with a live session revokes exactly that session. *)
Lemma logout_run jar dr csrf s a s' t :
  logout dep jar dr csrf s = (Ok a, s') → jar (session_cookie_name dep) = Some t →
  cookie a = ClearedCookie ∧ (db s').(users) = (db s).(users) ∧
  (db s').(sessions) =
    match validate (db s) (hash_token dep) t (at_time dr) with
    | Some x => alter (revoke_row (at_time dr)) x.(session_id) (db s).(sessions)
    | None => (db s).(sessions)
    end.
Proof.
  unfold logout. intros Hrun Hj. repeat srv_step. rewrite Hj in *. cbn [option_bind mbind] in *.
  destruct (validate (db s) (hash_token dep) t (at_time dr)) as [y|] eqn:Hv; repeat srv_step;
    destruct (current_user _ _ _ _ _ _) as [ctx|] eqn:Hc; repeat srv_step;
    repeat match goal with
    | H : ignoring _ _ = _ |- _ => apply ignoring_audit_inv in H as (_ & ? & -> & ? & ?)
    | H : revoke _ _ _ = _ |- _ => injection H as <- <-
    end; cbn in *; by split_and!.
Qed.

(** C36: The session a login answers with is the user's way in, and nobody else's: it is given only for the
    right password of an active account, its cookie is accepted exactly until it expires, and after logging
    out with it it is never accepted again. *)
Theorem login_lifecycle jar ip dr form s a s' t jar' :
  wf (db s) → login_submit dep jar ip dr form s = (Ok a, s') → cookie a = SessionCookie t →
  jar' (session_cookie_name dep) = Some t →
  ∃ u h, find_by_username (db s) (lf_username form) = Some u ∧ u.(is_active) = true ∧
    u.(password_hash) = Some h ∧ verify_password dep (lf_password form) h = true ∧
    (∀ path now,
       current_user (db s') (hash_token dep) (session_cookie_name dep) path jar' now
       = if (now <? at_time dr + session_ttl dep)%N then admits (db s') u path else Err Unauthenticated) ∧
    (∀ dr' csrf a' s'' path now,
       logout dep jar' dr' csrf s' = (Ok a', s'') → (at_time dr' ≤ now)%N →
       current_user (db s'') (hash_token dep) (session_cookie_name dep) path jar' now = Err Unauthenticated).
Proof.
  intros Hwf Hrun Hck Hj. apply login_submit_ends in Hrun. inversion Hrun; subst; try congruence.
  cbn in Hck. injection Hck as <-.
  match goal with H : authenticate _ _ _ _ = Ok _ |- _ => apply authenticate_inv in H as (Hu & Ha & h & Hh & Hv) end.
  destruct (find_username_row _ _ _ Hu) as [i Hi]. pose proof (wf_user_keyed _ Hwf _ _ Hi) as Hk. subst i.
  set (d := set_sessions (insert (fresh_id dr) (opened_session dr u)) (logged (success_event u ip) (db s))) in *.
  assert (∀ j y, d.(sessions) !! j = Some y → y.(token_hash) = hash_token dep (token dr) →
            j = fresh_id dr ∧ y = opened_session dr u) as Huniq.
  { intros j y. cbn. rewrite lookup_insert_Some. intros [[<- <-]|[_ Hy]] Hyh; [done|]. naive_solver. }
  assert (find_by_token_hash d (hash_token dep (token dr)) = Some (opened_session dr u)) as Hf.
  { apply (find_session_unique _ (fresh_id dr)); [apply lookup_insert_eq|done|]. naive_solver. }
  exists u, h. split_and!; try done.
  - intros path now. cbn [db]. by rewrite (current_user_found _ path jar' now _ _ u Hj Hf Hi Ha).
  - intros dr' csrf a' s'' path now Hout Hle. destruct (logout_run _ _ _ _ _ _ _ Hout Hj) as (_ & Husers & Hsess).
    cbn [db] in *. unfold validate in Hsess. rewrite Hf in Hsess.
    destruct (is_valid (opened_session dr u) (at_time dr')) eqn:Hv'.
    + assert (find_by_token_hash (db s'') (hash_token dep (token dr))
              = Some (revoke_row (at_time dr') (opened_session dr u))) as Hf'.
      { apply (find_session_unique _ (fresh_id dr)); [rewrite Hsess|done|rewrite Hsess].
        - cbn. by rewrite lookup_alter_eq, lookup_insert_eq.
        - intros j y. rewrite lookup_alter_Some. intros [(<- & y' & Hy & ->)|[Hne Hy]] Hyh.
          + by destruct (Huniq _ _ Hy Hyh) as [_ ->].
          + by destruct (Huniq _ _ Hy Hyh) as [-> _]. }
      rewrite (current_user_found _ path jar' now _ _ u Hj Hf'); [done| |done]. by rewrite Husers.
    + assert (find_by_token_hash (db s'') (hash_token dep (token dr)) = Some (opened_session dr u)) as Hf'.
      { unfold find_by_token_hash. by rewrite Hsess. }
      rewrite (current_user_found _ path jar' now _ _ u Hj Hf'); [|by rewrite Husers|done].
      assert (is_valid (opened_session dr u) now = false) as ->; [|done].
      unfold is_valid in *. cbn in *. apply N.ltb_ge in Hv'. apply N.ltb_ge. lia.
Qed.

(** ** Guessing *)

Definition entries (l : LoginLimiter) (key : rstr) : list N := default [] (attempts l !! key).

Lemma retain_all l now es : (∀ t, t ∈ es → recent l now t = true) → retain l now es = es.
Proof.
  unfold retain. induction es as [|t es IH]; intros Hall; [done|]. cbn.
  rewrite (Hall t) by apply list_elem_of_here. f_equal. apply IH. intros t' Ht'. apply Hall. by right.
Qed.

Definition Attempt : Type := CookieJar * Draw * LoginForm.
(** A run of login requests from one address, served one after another. *)
Definition login_run (ip : rstr) s (l : list Attempt) : Site :=
  foldl (λ s '(jar, dr, form), (login_submit dep jar ip dr form s).2) s l.

(** ** Requests served together *)

(** A login that passed the check, before and after its password was looked at. *)
Inductive request : Type :=
| Passed (ip : rstr) (form : LoginForm)
| LookedAt (ip : rstr) (form : LoginForm) (r : result AuthError User).
Definition key_of (q : request) : rstr := match q with Passed ip form | LookedAt ip form _ => limiter_key form ip end.
Definition looked (q : request) : bool := match q with Passed _ _ => false | LookedAt _ _ _ => true end.

(** The server with the logins in flight; [looks] is the history of passwords
    looked at: the counter's key, and whether the password was right. *)
Record Traffic := mkTraffic { site : Site; waiting : list request; looks : list (rstr * bool) }.

(** What may happen next: a request arrives, the database answers one, one goes
    on to its answer, another handler uses the counter, or anything else is
    done to the database, the settings and the mail. *)
Inductive login_event : Type :=
| Arrives (jar : CookieJar) (ip : rstr) (now : N) (form : LoginForm)
| Looks (i : nat)
| Settles (i : nat) (dr : Draw)
| Elsewhere (e : limiter_event)
| Meanwhile (d : Db) (st : gmap rstr Json.Value) (mail : list NotificationMessage).

Definition login_step (t : Traffic) (e : login_event) : Traffic :=
  match e with
  | Arrives jar ip now form =>
      match login_check jar ip now form (site t) with
      | (Ok false, s) => mkTraffic s (waiting t ++ [Passed ip form]) (looks t)
      | (_, s) => mkTraffic s (waiting t) (looks t)
      end
  | Looks i =>
      match waiting t !! i with
      | Some (Passed ip form) =>
          match login_look dep form (site t) with
          | (Ok r, s) => mkTraffic s (<[i := LookedAt ip form r]> (waiting t))
                           (looks t ++ [(limiter_key form ip, negb (is_err r))])
          | (Err _, s) => mkTraffic s (waiting t) (looks t)
          end
      | _ => t
      end
  | Settles i dr =>
      match waiting t !! i with
      | Some (LookedAt ip form r) =>
          mkTraffic (login_settle dep ip dr form r (site t)).2 (base.delete i (waiting t)) (looks t)
      | _ => t
      end
  | Elsewhere e =>
      mkTraffic (mkSite (db (site t)) (settings (site t)) (limiter_step (login_limiter (site t)) e) (outbox (site t)))
        (waiting t) (looks t)
  | Meanwhile d st mail => mkTraffic (mkSite d st (login_limiter (site t)) mail) (waiting t) (looks t)
  end.
Definition login_steps (t : Traffic) (es : list login_event) : Traffic := foldl login_step t es.

Definition event_key (e : limiter_event) : rstr := match e with Checked k _ | Failed k _ | Cleared k => k end.

(** The clock stays inside one window, and other handlers use other keys. *)
Definition within (key : rstr) (t0 w : N) (e : login_event) : Prop :=
  match e with
  | Arrives _ _ now _ => (t0 ≤ now < t0 + w)%N
  | Settles _ dr => (t0 ≤ at_time dr < t0 + w)%N
  | Elsewhere e => event_key e ≠ key
  | _ => True
  end.

(** The logins of a key in flight, and the passwords looked at for it. *)
Definition in_flight (key : rstr) (t : Traffic) : nat :=
  length (List.filter (λ q, str_eqb (key_of q) key) (waiting t)).
Definition looks_for (key : rstr) (t : Traffic) : list (rstr * bool) :=
  List.filter (λ x, str_eqb x.1 key) (looks t).

Definition count (f : request → bool) (l : list request) : nat := length (List.filter f l).

Lemma count_app f l1 l2 : count f (l1 ++ l2) = count f l1 + count f l2.
Proof. unfold count. by rewrite List.filter_app, length_app. Qed.

Lemma count_split f l i q : l !! i = Some q →
  count f l = count f (take i l) + (if f q then 1 else 0) + count f (drop (S i) l).
Proof.
  intros Hq. rewrite <- (take_drop_middle l i q Hq) at 1. rewrite count_app. cbn. unfold count. cbn.
  destruct (f q); cbn; lia.
Qed.

Lemma count_insert f l i q q' : l !! i = Some q →
  count f (<[i := q']> l) + (if f q then 1 else 0) = count f l + (if f q' then 1 else 0).
Proof.
  intros Hq. rewrite (count_split f l i q Hq). pose proof (lookup_lt_Some _ _ _ Hq) as Hlt.
  rewrite (count_split f (<[i := q']> l) i q') by (by apply list_lookup_insert_eq).
  rewrite take_insert_ge, drop_insert_lt by lia. lia.
Qed.

Lemma count_delete f l i q : l !! i = Some q → count f (base.delete i l) + (if f q then 1 else 0) = count f l.
Proof.
  intros Hq. rewrite (count_split f l i q Hq). rewrite delete_take_drop, count_app. lia.
Qed.

(** ** The counter of one key *)

Lemma is_locked_new l key now old new :
  1 ≤ max_attempts l → entries l key = old ++ new → (∀ t, t ∈ new → recent l now t = true) →
  ∃ old', entries (is_locked l key now).2 key = old' ++ new ∧
    (is_locked l key now).1 = (max_attempts l <=? length (old' ++ new)).
Proof.
  intros Hmax He Hnew. unfold entries, is_locked in *. destruct (attempts l !! key) as [es|] eqn:Hk; cbn in *.
  - exists (retain l now old). rewrite lookup_insert_eq. cbn. subst es. by rewrite retain_app, (retain_all l now new).
  - exists []. rewrite Hk. symmetry in He. apply app_nil in He as [-> ->]. split; [done|]. by destruct (max_attempts l); [lia|].
Qed.

Lemma record_failure_new l key now old new :
  entries l key = old ++ new → (∀ t, t ∈ new → recent l now t = true) →
  ∃ old', entries (record_failure l key now) key = old' ++ new ++ [now].
Proof.
  intros He Hnew. exists (retain l now old). unfold entries, record_failure in *. cbn. rewrite lookup_insert_eq. cbn.
  by rewrite He, retain_app, (retain_all l now new), <- app_assoc.
Qed.

Lemma limiter_step_other l e key : event_key e ≠ key → entries (limiter_step l e) key = entries l key.
Proof.
  unfold entries. destruct e as [k n|k n|k]; cbn; intros Hk.
  - unfold is_locked. destruct (attempts l !! k); cbn; [|done]. by rewrite lookup_insert_ne.
  - by rewrite lookup_insert_ne.
  - by rewrite lookup_delete_ne.
Qed.

Lemma login_check_cases jar ip now form s :
  (∃ e, login_check jar ip now form s = (Err e, s)) ∨
  login_check jar ip now form s =
    (Ok (is_locked (login_limiter s) (limiter_key form ip) now).1,
     mkSite (db s) (settings s) (is_locked (login_limiter s) (limiter_key form ip) now).2 (outbox s)).
Proof.
  destruct (login_check jar ip now form s) as [r s'] eqn:Hrun. unfold login_check in Hrun.
  repeat srv_step; [by right|]. left. by eexists.
Qed.

Lemma login_settle_limiter ip dr form r s :
  login_limiter (login_settle dep ip dr form r s).2 =
  limiter_step (login_limiter s)
    (match r with Ok _ => Cleared (limiter_key form ip) | Err _ => Failed (limiter_key form ip) (at_time dr) end).
Proof.
  destruct (login_settle dep ip dr form r s) as [a s'] eqn:Hrun. cbn [snd]. unfold login_settle in Hrun.
  destruct r; repeat srv_step; done.
Qed.

(** ** A stretch of wrong guesses *)

Definition of_key (key : rstr) (q : request) : bool := str_eqb (key_of q) key.
Definition looked_of (key : rstr) (q : request) : bool := of_key key q && looked q.

Record guessing (key : rstr) (t0 : N) (k : nat) s (t : Traffic) : Prop := {
  guess_max : max_attempts (login_limiter (site t)) = max_attempts (login_limiter s);
  guess_window : window (login_limiter (site t)) = window (login_limiter s);
  guess_failures : ∃ old new, entries (login_limiter (site t)) key = old ++ new ∧
    (∀ x, x ∈ new → (t0 ≤ x < t0 + window (login_limiter s))%N) ∧
    length new + count (looked_of key) (waiting t) = length (looks_for key t) ∧
    length new + count (of_key key) (waiting t) ≤ max_attempts (login_limiter s) - 1 + k;
  guess_history : ∀ ip form r, LookedAt ip form r ∈ waiting t → limiter_key form ip = key →
    (key, negb (is_err r)) ∈ looks_for key t }.

Section guess_step.
Context (key : rstr) (t0 : N) (k : nat) (s : Site).
Hypothesis Hmax : 1 ≤ max_attempts (login_limiter s).

Lemma guess_recent (t : Traffic) (now : N) (new : list N) :
  window (login_limiter (site t)) = window (login_limiter s) →
  (t0 ≤ now < t0 + window (login_limiter s))%N →
  (∀ x, x ∈ new → (t0 ≤ x < t0 + window (login_limiter s))%N) →
  ∀ x, x ∈ new → recent (login_limiter (site t)) now x = true.
Proof. intros Hw Hnow Hnew x Hx. unfold recent. rewrite Hw. apply N.ltb_lt. specialize (Hnew x Hx). lia. Qed.

(** The limiter changes, but not at this key; nothing of this key moves. *)
Lemma guess_frame t t' e :
  guessing key t0 k s t →
  login_limiter (site t') = login_limiter (site t) ∨
    event_key e ≠ key ∧ login_limiter (site t') = limiter_step (login_limiter (site t)) e →
  count (looked_of key) (waiting t') = count (looked_of key) (waiting t) →
  count (of_key key) (waiting t') = count (of_key key) (waiting t) →
  looks_for key t' = looks_for key t →
  (∀ ip form r, LookedAt ip form r ∈ waiting t' → limiter_key form ip = key → LookedAt ip form r ∈ waiting t) →
  guessing key t0 k s t'.
Proof.
  intros [Hm Hw (old & new & He & Hnew & Hl & Hb) Hh] Hlim Hc1 Hc2 Hlk Hin.
  assert (entries (login_limiter (site t')) key = entries (login_limiter (site t)) key ∧
    max_attempts (login_limiter (site t')) = max_attempts (login_limiter (site t)) ∧
    window (login_limiter (site t')) = window (login_limiter (site t))) as (He' & Hm' & Hw').
  { destruct Hlim as [->|[Hk ->]]; [done|]. destruct (limiter_step_params (login_limiter (site t)) e).
    by rewrite limiter_step_other. }
  split; [congruence|congruence| |].
  - exists old, new. rewrite He', Hc1, Hc2, Hlk. done.
  - intros ip form r Hq Hk. rewrite Hlk. eauto.
Qed.

Lemma guess_arrives t jar ip now form :
  guessing key t0 k s t → (t0 ≤ now < t0 + window (login_limiter s))%N →
  in_flight key (login_step t (Arrives jar ip now form)) ≤ k →
  guessing key t0 k s (login_step t (Arrives jar ip now form)).
Proof.
  intros Hg Hnow. pose proof Hg as [Hm Hw (old & new & He & Hnew & Hl & Hb) Hh]. cbn [login_step].
  destruct (login_check_cases jar ip now form (site t)) as [[e ->]| ->].
  { intros _. apply (guess_frame t _ (Cleared [])); try done. by left. }
  destruct (decide (limiter_key form ip = key)) as [Hk|Hk].
  - rewrite Hk. destruct (is_locked_new (login_limiter (site t)) key now old new) as (old' & He' & Hlk).
    { by rewrite Hm. } { done. } { by eapply guess_recent. }
    destruct (limiter_step_params (login_limiter (site t)) (Checked key now)) as [Hpm Hpw]. cbn [limiter_step] in *.
    destruct (is_locked (login_limiter (site t)) key now) as [b l'] eqn:Hil. cbn [fst snd] in *. subst b.
    destruct (Nat.leb_spec (max_attempts (login_limiter (site t))) (length (old' ++ new))) as [Hle|Hlt]; intros Hk2.
    + split; cbn [site waiting login_limiter]; [congruence|congruence| |done]. by exists old', new.
    + rewrite length_app in Hlt. unfold in_flight in Hk2. cbn [waiting] in Hk2. fold (of_key key) in Hk2.
      change (length (List.filter (of_key key) (waiting t ++ [Passed ip form]))) with (count (of_key key) (waiting t ++ [Passed ip form])) in Hk2.
      split; cbn [site waiting login_limiter]; [congruence|congruence| |].
      * exists old', new. split_and!; [done|done| |]; [|rewrite Hm in Hlt; lia].
        rewrite count_app. unfold count at 2. unfold looked_of. cbn [List.filter looked]. rewrite andb_false_r. cbn [length].
        by rewrite Nat.add_0_r.
      * intros ip' form' r [Hq|Hq%list_elem_of_singleton]%elem_of_app Hk'; [by eapply Hh|done].
  - intros _. assert (str_eqb (limiter_key form ip) key = false) as Hne by (apply not_true_iff_false; by rewrite str_eqb_eq).
    destruct (is_locked (login_limiter (site t)) (limiter_key form ip) now).1;
      (apply (guess_frame t _ (Checked (limiter_key form ip) now)); [done|by right|..]); cbn [waiting]; try done.
    + rewrite count_app. unfold count at 2, looked_of, of_key. cbn [List.filter key_of]. rewrite Hne. cbn [andb length]. by rewrite Nat.add_0_r.
    + rewrite count_app. unfold count at 2, of_key. cbn [List.filter key_of]. rewrite Hne. cbn [length]. by rewrite Nat.add_0_r.
    + by intros ip' form' r [Hq|Hq%list_elem_of_singleton]%elem_of_app Hk'.
Qed.

Lemma looks_for_snoc st w l x :
  looks_for key (mkTraffic st w (l ++ [x])) = looks_for key (mkTraffic st w l) ++ (if str_eqb x.1 key then [x] else []).
Proof. unfold looks_for. cbn [looks]. rewrite List.filter_app. cbn [List.filter]. by destruct (str_eqb x.1 key). Qed.

Lemma guess_looks t i : guessing key t0 k s t → guessing key t0 k s (login_step t (Looks i)).
Proof.
  intros Hg. pose proof Hg as [Hm Hw (old & new & He & Hnew & Hl & Hb) Hh]. cbn [login_step].
  destruct (waiting t !! i) as [[ip form|]|] eqn:Hi; [|done..]. unfold login_look, asks.
  set (r := authenticate _ _ _ _).
  pose proof (count_insert (of_key key) (waiting t) i _ (LookedAt ip form r) Hi) as Hc1.
  pose proof (count_insert (looked_of key) (waiting t) i _ (LookedAt ip form r) Hi) as Hc2.
  unfold looked_of in Hc2 at 2 4. unfold of_key in Hc1 at 2 4, Hc2. cbn [key_of looked] in Hc1, Hc2. rewrite andb_false_r, andb_true_r in Hc2.
  split; cbn [site waiting]; [done|done| |].
  - exists old, new. split_and!; [done|done| |]; [rewrite looks_for_snoc, length_app|]; cbn [fst];
      change (looks_for key (mkTraffic (site t) _ (looks t))) with (looks_for key t) in *;
      destruct (str_eqb (limiter_key form ip) key); cbn [length]; lia.
  - intros ip' form' r' Hq Hk. rewrite looks_for_snoc, elem_of_app. apply list_elem_of_lookup in Hq as [j Hj].
    apply list_lookup_insert_Some in Hj as [(-> & [= <- <- <-] & _)|[_ Hj]].
    + right. cbn [fst]. rewrite Hk. assert (str_eqb key key = true) as -> by (by apply str_eqb_eq). apply list_elem_of_here.
    + left. by eapply Hh, Hk; apply list_elem_of_lookup_2 in Hj.
Qed.

Lemma guess_settles t i dr :
  guessing key t0 k s t → (t0 ≤ at_time dr < t0 + window (login_limiter s))%N →
  (∀ x, x ∈ looks_for key t → x.2 = false) →
  guessing key t0 k s (login_step t (Settles i dr)).
Proof.
  intros Hg Hnow Hwrong. pose proof Hg as [Hm Hw (old & new & He & Hnew & Hl & Hb) Hh]. cbn [login_step].
  destruct (waiting t !! i) as [[|ip form r]|] eqn:Hi; [done| |done].
  pose proof (count_delete (of_key key) (waiting t) i _ Hi) as Hc1.
  pose proof (count_delete (looked_of key) (waiting t) i _ Hi) as Hc2.
  unfold looked_of in Hc2 at 2. unfold of_key in Hc1 at 2, Hc2 at 1. cbn [key_of looked] in Hc1, Hc2. rewrite andb_true_r in Hc2.
  assert (∀ q, q ∈ base.delete i (waiting t) → q ∈ waiting t) as Hin.
  { intros q. rewrite delete_take_drop, elem_of_app. intros Hq. rewrite <- (take_drop_middle _ _ _ Hi). set_solver. }
  destruct (decide (limiter_key form ip = key)) as [Hk|Hk].
  - destruct r as [u|e].
    { specialize (Hh ip form (Ok u) ltac:(by eapply list_elem_of_lookup_2) Hk). by specialize (Hwrong _ Hh). }
    assert (str_eqb (limiter_key form ip) key = true) as Hs by (by apply str_eqb_eq). rewrite Hs in Hc1, Hc2.
    destruct (record_failure_new (login_limiter (site t)) key (at_time dr) old new) as [old' He']; [done|by eapply guess_recent|].
    split; cbn [site waiting]; rewrite ?login_settle_limiter, ?Hk; cbn [limiter_step]; [done|done| |].
    + exists old', (new ++ [at_time dr]). split_and!; [done| | |].
      * intros x [Hx| ->%list_elem_of_singleton]%elem_of_app; auto.
      * change (looks_for key (mkTraffic _ _ (looks t))) with (looks_for key t). rewrite length_app. cbn [length]. lia.
      * rewrite length_app. cbn [length]. lia.
    + intros ip' form' r' Hq. by eapply Hh, Hin.
  - assert (str_eqb (limiter_key form ip) key = false) as Hs by (apply not_true_iff_false; by rewrite str_eqb_eq).
    rewrite Hs in Hc1, Hc2. rewrite Nat.add_0_r in Hc1, Hc2.
    apply (guess_frame t _ (match r with Ok _ => Cleared (limiter_key form ip) | Err _ => Failed (limiter_key form ip) (at_time dr) end));
      cbn [site waiting]; [done| |done|done|done|].
    + right. split; [by destruct r|]. apply login_settle_limiter.
    + intros ? ? ? Hq _. by apply Hin.
Qed.

Lemma guess_step t e :
  guessing key t0 k s t → within key t0 (window (login_limiter s)) e →
  in_flight key (login_step t e) ≤ k → (∀ x, x ∈ looks_for key t → x.2 = false) →
  guessing key t0 k s (login_step t e).
Proof.
  intros Hg Hin Hk Hwrong. destruct e as [jar ip now form|i|i dr|e|d st mail]; cbn [within] in Hin.
  - by apply guess_arrives.
  - by apply guess_looks.
  - by apply guess_settles.
  - apply (guess_frame t _ e); try done. by right.
  - apply (guess_frame t _ (Cleared [])); try done. by left.
Qed.
End guess_step.

Lemma looks_for_le key t e x : x ∈ looks_for key t → x ∈ looks_for key (login_step t e).
Proof.
  unfold looks_for. rewrite !list_elem_of_In, !filter_In, <- !list_elem_of_In. intros [Hx Hk]. split; [|done].
  destruct e as [jar ip now form|i|i dr|e|d st mail]; cbn; repeat case_match; set_solver.
Qed.

Lemma count_looked key l : count (looked_of key) l ≤ count (of_key key) l.
Proof.
  unfold count, looked_of. induction l as [|q l IH]; [done|]. cbn [List.filter].
  destruct (of_key key q), (looked q); cbn [andb length]; lia.
Qed.

Lemma guess_run key t0 k s es :
  1 ≤ max_attempts (login_limiter s) →
  Forall (within key t0 (window (login_limiter s))) es →
  (∀ n, in_flight key (login_steps (mkTraffic s [] []) (take n es)) ≤ k) →
  (∀ x, x ∈ looks_for key (login_steps (mkTraffic s [] []) es) → x.2 = false) →
  guessing key t0 k s (login_steps (mkTraffic s [] []) es).
Proof.
  intros Hmax. induction es as [|e es IH] using rev_ind; intros Hin Hk Hwrong.
  - split; [done|done| |by intros ? ? ? ?%elem_of_nil]. exists (entries (login_limiter s) key), [].
    rewrite app_nil_r. split_and!; [done|by intros ? ?%elem_of_nil|done|cbn; lia].
  - unfold login_steps in *. rewrite foldl_snoc in *. apply Forall_app in Hin as [Hin [He _]%Forall_cons].
    assert (∀ x, x ∈ looks_for key (foldl login_step (mkTraffic s [] []) es) → x.2 = false) as Hw.
    { intros x Hx. by eapply Hwrong, looks_for_le. }
    apply guess_step; [done| |done| |done].
    + apply IH; [done| |done]. intros n. destruct (decide (n ≤ length es)) as [Hn|Hn].
      * specialize (Hk n). by rewrite take_app_le in Hk by done.
      * specialize (Hk (length es)). rewrite take_app_le, take_ge in Hk by lia. by rewrite take_ge by lia.
    + specialize (Hk (S (length es))). rewrite take_ge, foldl_snoc in Hk by (rewrite length_app; cbn; lia). done.
Qed.

End login.
