(* ===== verification/ResetTheorems.v ===== *)
(** * Forgotten passwords

    The reset code that is mailed works once, within its hour, for the account it
    was requested for; requesting one tells nobody which accounts exist. *)

From S2P Require Import Prelude Permission Json AuditLog RoleStore RoleTree Web.
From S2P Require Import Delegation RoleSpec Auth Users UserSafety System Fixture UserTheorems.
From S2P Require Import Login LoginTheorems.

Lemma on_db_ok {A B} (m : App A) (k : A → Srv B) s x d :
  m (db s) = (Ok x, d) → (on_db m ≫= k) s = k x (with_db d s).
Proof. intros Hm. cbv [mbind Srv_bind on_db]. by rewrite Hm. Qed.

Section resets.
Context `{!SqlEngine} (dep : Deployment).
Implicit Types (jar : CookieJar) (dr : Draw) (s : Site) (d : Db).

(** The unique key of the table. *)
Definition unique_codes d : Prop :=
  ∀ i j r r', d.(password_resets) !! i = Some r → d.(password_resets) !! j = Some r' →
    r.(reset_token_hash) = r'.(reset_token_hash) → i = j.

Lemma reset_row_in d i r : d.(password_resets) !! i = Some r → r ∈ reset_rows d.
Proof. intros Hi. apply list_elem_of_fmap. exists (i, r). split; [done|]. by apply elem_of_map_to_list. Qed.
Lemma reset_row_key d r : r ∈ reset_rows d → ∃ i, d.(password_resets) !! i = Some r.
Proof. intros ([i r'] & -> & Hi)%list_elem_of_fmap. exists i. by apply elem_of_map_to_list in Hi. Qed.

(** The database after a code was used. *)
Definition spent (h : rstr) (now : N) d : Db :=
  set_password_resets (fmap (λ r, if live h now r then use_reset now r else r)) d.

Lemma live_spec h now r :
  live h now r = true ↔ r.(reset_token_hash) = h ∧ r.(used_at) = None ∧ (now < r.(reset_expires_at))%N.
Proof. unfold live. rewrite !andb_true_iff, str_eqb_eq, bool_decide_eq_true, N.ltb_lt. tauto. Qed.

Lemma filter_snd {K A} (p : A → bool) (l : list (K * A)) :
  List.filter p (l.*2) = (List.filter (λ x, p x.2) l).*2.
Proof. induction l as [|[k a] l IH]; cbn; [done|]. rewrite IH. by destruct (p a). Qed.

Lemma NoDup_singleton_list {A} (l : list A) x : NoDup l → x ∈ l → (∀ y, y ∈ l → y = x) → l = [x].
Proof.
  intros Hnd Hx Hall. destruct l as [|y [|z l]]; [by apply elem_of_nil in Hx| |].
  - f_equal. apply Hall, list_elem_of_here.
  - exfalso. apply NoDup_cons in Hnd as [Hy _]. apply Hy.
    rewrite (Hall y) by apply list_elem_of_here.
    rewrite <- (Hall z) by apply list_elem_of_further, list_elem_of_here. apply list_elem_of_here.
Qed.

(** At most one code with this hash is live. *)
Lemma live_filter d h now i r :
  unique_codes d → d.(password_resets) !! i = Some r → live h now r = true →
  List.filter (live h now) (reset_rows d) = [r].
Proof.
  intros Hu Hi Hl. unfold reset_rows. rewrite filter_snd.
  rewrite (NoDup_singleton_list _ (i, r)); [done| | |].
  - apply NoDup_ListNoDup, List.NoDup_filter, NoDup_ListNoDup, NoDup_map_to_list.
  - apply list_elem_of_In, filter_In. split; [|done]. by apply list_elem_of_In, elem_of_map_to_list.
  - intros [j x] [Hx%list_elem_of_In%elem_of_map_to_list Hlx]%list_elem_of_In%filter_In. cbn in Hlx.
    apply live_spec in Hl as [Hh _], Hlx as [Hh' _]. assert (i = j) as -> by (apply (Hu i j r x); congruence).
    congruence.
Qed.

Lemma find_reset d h i r :
  unique_codes d → d.(password_resets) !! i = Some r → r.(reset_token_hash) = h →
  List.find (λ r, str_eqb r.(reset_token_hash) h) (reset_rows d) = Some r.
Proof.
  intros Hu Hi Hh. destruct (List.find _ _) as [x|] eqn:Hf.
  - apply find_some in Hf as [(j & Hj)%list_elem_of_In%reset_row_key Hx%str_eqb_eq].
    assert (i = j) as -> by (apply (Hu i j r x); congruence). congruence.
  - assert (str_eqb r.(reset_token_hash) h = false) as Hn.
    { by apply (find_none _ _ Hf r), list_elem_of_In, (reset_row_in _ i). }
    by rewrite (proj2 (str_eqb_eq _ _) Hh) in Hn.
Qed.

Lemma spent_lookup d h now i r :
  d.(password_resets) !! i = Some r →
  (spent h now d).(password_resets) !! i = Some (if live h now r then use_reset now r else r).
Proof. intros Hi. cbn. by rewrite lookup_fmap, Hi. Qed.

Lemma spent_unique d h now : unique_codes d → unique_codes (spent h now d).
Proof.
  intros Hu i j r r'. cbn. rewrite !lookup_fmap. intros (x & Hx & ->)%fmap_Some (y & Hy & ->)%fmap_Some Heq.
  apply (Hu i j x y Hx Hy). by destruct (live h now x), (live h now y).
Qed.

(** [consume] hands out the owner of a live code, and of nothing else. *)
Lemma consume_live d h now i r :
  unique_codes d → d.(password_resets) !! i = Some r → live h now r = true →
  consume h now d = Ok (Some r.(reset_user), spent h now d).
Proof.
  intros Hu Hi Hl. unfold consume. rewrite (live_filter d h now i r Hu Hi Hl). cbn [length Nat.eqb negb].
  fold (spent h now d). rewrite (find_reset _ h i (use_reset now r)); [done|by apply spent_unique| |].
  - rewrite (spent_lookup _ _ _ _ _ Hi). by rewrite Hl.
  - apply live_spec in Hl as [Hh _]. done.
Qed.

Lemma consume_inv d h now who d' :
  unique_codes d → consume h now d = Ok (who, d') →
  d' = spent h now d ∧
  (who = None ∨ ∃ i r, d.(password_resets) !! i = Some r ∧ live h now r = true ∧ who = Some r.(reset_user)).
Proof.
  intros Hu Hrun. destruct (List.filter (live h now) (reset_rows d)) as [|r l] eqn:Hf.
  - unfold consume in Hrun. rewrite Hf in Hrun. cbn in Hrun. injection Hrun as <- <-. split; [done|by left].
  - assert (In r (List.filter (live h now) (reset_rows d))) as [Hr Hl]%filter_In by (rewrite Hf; by left).
    apply list_elem_of_In, reset_row_key in Hr as [i Hi].
    rewrite (consume_live d h now i r Hu Hi Hl) in Hrun. injection Hrun as <- <-. split; [done|]. right. by exists i, r.
Qed.

Lemma consume_dead d h now :
  (∀ i r, d.(password_resets) !! i = Some r → live h now r = false) →
  ∃ d', consume h now d = Ok (None, d') ∧ d'.(users) = d.(users).
Proof.
  intros Hall. unfold consume.
  assert (List.filter (live h now) (reset_rows d) = []) as ->; [|cbn; by eexists].
  apply elem_of_nil_inv. intros r [Hr Hl]%list_elem_of_In%filter_In.
  apply list_elem_of_In, reset_row_key in Hr as [i Hi]. by rewrite (Hall i r Hi) in Hl.
Qed.

(** A user with a new password. *)
Definition with_password (h : rstr) (u : User) : User :=
  mkUser u.(uid) u.(username) u.(email) (Some h) u.(auth_provider) u.(is_active) false.

Definition reset_event (u : User) : AuditEvent :=
  new_event AuditAction.PasswordReset Success |> with_resource u.(username).

(** What a reset of the password of [id] leaves behind. *)
Definition reset_done (code h : rstr) (now : N) (id : Uuid) (u : User) d : Db :=
  logged (reset_event u) (signed_out id now (with_user id (with_password h) (spent (hash_token dep code) now d))).

Definition reset_ok (a : Answer) : Prop := response a = Redirect #"/login".

Lemma reset_submit_run jar dr form s a s' :
  unique_codes (db s) → reset_submit dep jar dr form s = (Ok a, s') →
  (¬ reset_ok a ∧ (db s').(users) = (db s).(users) ∧ (db s').(sessions) = (db s).(sessions)) ∨
  reset_ok a ∧ ∃ i r u h,
    (db s).(password_resets) !! i = Some r ∧
    live (hash_token dep (trim (rf_token form))) (at_time dr) r = true ∧
    (db s).(users) !! r.(reset_user) = Some u ∧ validate_strength (rf_new form) = Ok () ∧
    hash_password dep (rf_new form) = Ok h ∧
    db s' = reset_done (trim (rf_token form)) h (at_time dr) r.(reset_user) u (db s).
Proof.
  unfold reset_submit. intros Hu Hrun. repeat srv_step.
  destruct (negb (str_eqb (rf_new form) (rf_confirm form))); [srv_step; by left|].
  destruct (validate_strength (rf_new form)) as [[]|msg] eqn:Hvs; [|srv_step; by left].
  repeat srv_step.
  match goal with H : consume _ _ _ = Ok _ |- _ => apply (consume_inv _ _ _ _ _ Hu) in H as [-> [->|(i & r & Hi & Hl & ->)]] end.
  { srv_step. left. by split_and!. }
  repeat srv_step. right.
  match goal with H : audit _ _ = _ |- _ => apply audit_inv in H as -> end.
  repeat match goal with
  | H : ok_or _ _ = Ok _ |- _ => apply ok_or_ok in H
  | H : (hash_password _ _ ≫= _) = Ok _ |- _ =>
      let Hh := fresh "Hhash" in apply result_bind_ok in H as (? & Hh & H); injection H as <- <-
  | H : update_password _ _ _ _ = _ |- _ => injection H as _ <-
  | H : revoke_all_for_user _ _ _ = _ |- _ => injection H as _ <-
  end.
  split; [done|]. eexists i, r, _, _. split_and!; [done|done|eassumption|done|eassumption|]. done.
Qed.

(** C38: A reset code works once: a reset that succeeds had a stored, unused, unexpired code, gives its owner
    (and nobody else) the new password, leaves the owner no valid session, and from then on the same code is
    refused and changes no account. *)
Theorem reset_code_single_use jar dr form s a s' :
  unique_codes (db s) → reset_submit dep jar dr form s = (Ok a, s') → reset_ok a →
  ∃ i r u h,
    (db s).(password_resets) !! i = Some r ∧ r.(reset_token_hash) = hash_token dep (trim (rf_token form)) ∧
    r.(used_at) = None ∧ (at_time dr < r.(reset_expires_at))%N ∧
    hash_password dep (rf_new form) = Ok h ∧
    (db s).(users) !! r.(reset_user) = Some u ∧
    (db s').(users) = <[r.(reset_user) := with_password h u]> (db s).(users) ∧
    (∀ j x now, (db s').(sessions) !! j = Some x → x.(session_user) = r.(reset_user) → is_valid x now = false) ∧
    (∀ jar' dr' form' a' s'',
       trim (rf_token form') = trim (rf_token form) → (at_time dr ≤ at_time dr')%N →
       reset_submit dep jar' dr' form' s' = (Ok a', s'') → ¬ reset_ok a' ∧ (db s'').(users) = (db s').(users)).
Proof.
  intros Hu Hrun Hok. destruct (reset_submit_run _ _ _ _ _ _ Hu Hrun) as [[? _]|(_ & i & r & u & h & Hi & Hl & Huser & _ & Hh & Hdb)]; [done|].
  pose proof Hl as (Hhash & Hused & Hexp)%live_spec.
  assert (unique_codes (db s')) as Hu' by (rewrite Hdb; by apply spent_unique).
  exists i, r, u, h. split_and!; try done.
  - rewrite Hdb. cbn. apply map_eq. intros j. destruct (decide (j = r.(reset_user))) as [->|Hne].
    + by rewrite lookup_alter_eq, lookup_insert_eq, Huser.
    + by rewrite lookup_alter_ne, lookup_insert_ne.
  - intros j x now Hx Hxu. rewrite Hdb in Hx. cbn [reset_done logged set_audit_log sessions] in Hx.
    by eapply signed_out_invalid.
  - intros jar' dr' form' a' s'' Htok Hle Hrun'.
    destruct (reset_submit_run _ _ _ _ _ _ Hu' Hrun') as [(? & ? & _)|(_ & i' & r' & _ & _ & Hi' & Hl' & _)]; [done|].
    exfalso. rewrite Htok in Hl'. apply live_spec in Hl' as (Hhash' & Hused' & _).
    rewrite Hdb in Hi'. change (password_resets (spent (hash_token dep (trim (rf_token form))) (at_time dr) (db s)) !! i' = Some r') in Hi'.
    assert (i' = i) as ->.
    { eapply (spent_unique _ _ _ Hu); [exact Hi'|by apply spent_lookup|]. rewrite Hl. cbn. congruence. }
    rewrite (spent_lookup _ _ _ _ _ Hi), Hl in Hi'. injection Hi' as <-. done.
Qed.

(** ** Asking for a code *)

Definition requested_event (u : User) : AuditEvent :=
  new_event AuditAction.PasswordResetRequested Success |> with_resource u.(username).
Definition new_code dr (u : User) : PasswordReset :=
  mkReset u.(uid) (hash_token dep (token dr)) (at_time dr) (at_time dr + RESET_TOKEN_TTL) None.

(** What a request that sends a code leaves behind. *)
Definition code_sent dr (u : User) s : Site :=
  mkSite (logged (requested_event u) (set_password_resets (insert (fresh_id dr) (new_code dr u)) (db s)))
    (settings s) (login_limiter s)
    (outbox s ++ [build_reset_email u.(email) (token dr) (public_url dep)]).

Lemma create_reset_inv i u h ttl now d x d' :
  create_reset i u h ttl now d = Ok (x, d') →
  d' = set_password_resets (insert i (mkReset u h now (now + ttl) None)) d ∧
  d.(password_resets) !! i = None ∧
  (∀ j r, d.(password_resets) !! j = Some r → r.(reset_token_hash) ≠ h).
Proof.
  unfold create_reset. case_bool_decide as Hid; [done|]. destruct (existsb _ _) eqn:Hex; [done|].
  destruct (dangling _ _); [done|]. intros [= <-]. split_and!; [done|by apply eq_None_not_Some|].
  intros j r Hj Heq. apply not_true_iff_false in Hex. apply Hex, existsb_exists. exists r.
  split; [by apply list_elem_of_In, (reset_row_in _ j)|by apply str_eqb_eq].
Qed.

Lemma has_recent_false d u now i r :
  has_recent_request d u RESET_COOLDOWN_MINUTES now = false → d.(password_resets) !! i = Some r →
  r.(reset_user) = u → (r.(reset_created_at) + 15 * MINUTE < now)%N.
Proof.
  intros Hf Hi Hu. apply not_true_iff_false in Hf. apply N.lt_nge. intros Hle. apply Hf, existsb_exists.
  exists r. split; [by apply list_elem_of_In, (reset_row_in _ i)|].
  rewrite Hu, N.eqb_refl. cbn [andb]. apply N.leb_le. unfold RESET_COOLDOWN_MINUTES. lia.
Qed.

Lemma has_recent_true d u now i r :
  d.(password_resets) !! i = Some r → r.(reset_user) = u →
  (now ≤ r.(reset_created_at) + 15 * MINUTE)%N → has_recent_request d u RESET_COOLDOWN_MINUTES now = true.
Proof.
  intros Hi Hu Hle. apply existsb_exists. exists r. split; [by apply list_elem_of_In, (reset_row_in _ i)|].
  rewrite Hu, N.eqb_refl. cbn [andb]. apply N.leb_le. unfold RESET_COOLDOWN_MINUTES. lia.
Qed.

Lemma send_reset_code_run dr mail s :
  ∃ s', send_reset_code dep dr mail s = (Ok (), s') ∧
  (s' = s ∨ ∃ u, resettable (db s) (trim mail) = Some u ∧
     has_recent_request (db s) u.(uid) RESET_COOLDOWN_MINUTES (at_time dr) = false ∧
     (db s).(password_resets) !! fresh_id dr = None ∧
     (∀ j x, (db s).(password_resets) !! j = Some x → x.(reset_token_hash) ≠ hash_token dep (token dr)) ∧
     s' = code_sent dr u s).
Proof.
  unfold send_reset_code. cbv [mbind Srv_bind asks mret Srv_ret].
  destruct (resettable (db s) (trim mail)) as [u|]; [|exists s; split; [done|by left]].
  destruct (has_recent_request _ _ _ _) eqn:Hrec; [exists s; split; [done|by left]|].
  destruct (create_reset _ _ _ _ _ _) as [[y d]|e] eqn:Hc; [|exists s; split; [done|by left]].
  apply create_reset_inv in Hc as (-> & Hfresh & Hnew). eexists. split; [reflexivity|].
  right. exists u. split_and!; [done|done|done|done|reflexivity].
Qed.

Lemma forgot_submit_run jar dr csrf mail s :
  forgot_submit dep jar dr csrf mail s =
  match require_csrf jar csrf with
  | Ok _ => (Ok (mkAnswer (ForgotPasswordPage true) KeepCookie), (send_reset_code dep dr mail s).2)
  | Err e => (Err e, s)
  end.
Proof.
  unfold forgot_submit. cbv [mbind Srv_bind on_db lift]. destruct (require_csrf jar csrf); cbn.
  - unfold with_db. rewrite site_eta. destruct (send_reset_code_run dr mail s) as (s' & -> & _). done.
  - unfold with_db. by rewrite site_eta.
Qed.

(** The forgotten-password form tells nobody which accounts exist: its answer is the same whatever the
    address and whatever is stored.  A code is mailed only to the address of an active account with a local
    password that asked for none in the last fifteen minutes, it changes no account and no session, and for
    the next fifteen minutes the account is sent no other. *)
Theorem forgot_reveals_nothing jar dr csrf mail s :
  (∀ mail' s', (forgot_submit dep jar dr csrf mail' s').1 = (forgot_submit dep jar dr csrf mail s).1) ∧
  let s1 := (forgot_submit dep jar dr csrf mail s).2 in
  s1 = s ∨ ∃ u,
    find_by_email (db s) (trim mail) = Some u ∧ u.(is_active) = true ∧ is_Some u.(password_hash) ∧
    (∀ i r, (db s).(password_resets) !! i = Some r → r.(reset_user) = u.(uid) →
       (r.(reset_created_at) + 15 * MINUTE < at_time dr)%N) ∧
    outbox s1 = outbox s ++ [build_reset_email u.(email) (token dr) (public_url dep)] ∧
    (db s1).(users) = (db s).(users) ∧ (db s1).(sessions) = (db s).(sessions) ∧
    (∀ jar' dr' csrf' mail' u', resettable (db s1) (trim mail') = Some u' → u'.(uid) = u.(uid) →
       (at_time dr' ≤ at_time dr + 15 * MINUTE)%N →
       outbox (forgot_submit dep jar' dr' csrf' mail' s1).2 = outbox s1).
Proof.
  split. { intros mail' s'. rewrite !forgot_submit_run. by destruct (require_csrf jar csrf). }
  rewrite forgot_submit_run. destruct (require_csrf jar csrf) as [x|e]; [|by left]. cbn [snd].
  destruct (send_reset_code_run dr mail s) as (s1 & -> & [->|(u & Hres & Hrec & Hi & _ & ->)]); [by left|].
  right. exists u. unfold resettable in Hres.
  destruct (find_by_email (db s) (trim mail)) as [v|] eqn:Hfind; [|done]. cbn in Hres.
  destruct (is_active v && bool_decide (is_Some (password_hash v))) eqn:Hb; [|done]. injection Hres as ->. bool_prop.
  split_and!; try done.
  - intros i r Hr Hru. by apply (has_recent_false _ _ _ _ _ Hrec Hr).
  - intros jar' dr' csrf' mail' u' Hres' Hid Hle. rewrite forgot_submit_run.
    destruct (require_csrf jar' csrf'); [|done]. cbn [snd].
    destruct (send_reset_code_run dr' mail' (code_sent dr u s)) as (s2 & -> & [->|(u2 & Hres2 & Hrec2 & _)]); [done|].
    exfalso. cbn [snd] in Hres'. rewrite Hres' in Hres2. injection Hres2 as ->. rewrite Hid in Hrec2.
    erewrite (has_recent_true _ _ _ (fresh_id dr) (new_code dr u)) in Hrec2; [done| |done|done].
    apply lookup_insert_eq.
Qed.

(** ** From the mail to the next login *)

(** The unique key on user names. *)
Definition unique_names d : Prop :=
  ∀ i j u v, d.(users) !! i = Some u → d.(users) !! j = Some v → name_eqb v.(username) u.(username) = true → i = j.

Lemma find_username_unique d i u :
  d.(users) !! i = Some u → (∀ j v, d.(users) !! j = Some v → name_eqb v.(username) u.(username) = true → v = u) →
  find_by_username d u.(username) = Some u.
Proof.
  intros Hi Hu. unfold find_by_username. destruct (List.find _ _) as [v|] eqn:Hf.
  - destruct (find_username_row d u.(username) v) as [j Hj]; [exact Hf|].
    apply find_some in Hf as [_ Hv]. by rewrite (Hu j v Hj Hv).
  - assert (name_eqb u.(username) u.(username) = false) as Hn.
    { apply (find_none _ _ Hf u), list_elem_of_In, list_elem_of_fmap. exists (i, u).
      split; [done|]. by apply elem_of_map_to_list. }
    by rewrite name_eqb_refl in Hn.
Qed.

Lemma find_email_row d mail u : find_by_email d mail = Some u → ∃ i, d.(users) !! i = Some u.
Proof.
  intros [Hin _]%find_some. apply list_elem_of_In, list_elem_of_fmap in Hin as ([i x] & -> & Hi).
  exists i. by apply elem_of_map_to_list in Hi.
Qed.

(** A stored live code resets the password of its owner. *)
Lemma reset_submit_live jar dr form s i r u h :
  unique_codes (db s) → verify jar (rf_csrf_token form) = true → rf_new form = rf_confirm form →
  validate_strength (rf_new form) = Ok () → hash_password dep (rf_new form) = Ok h →
  (db s).(password_resets) !! i = Some r →
  live (hash_token dep (trim (rf_token form))) (at_time dr) r = true →
  (db s).(users) !! r.(reset_user) = Some u →
  ∃ s', reset_submit dep jar dr form s = (Ok (mkAnswer (Redirect #"/login") KeepCookie), s') ∧
    db s' = reset_done (trim (rf_token form)) h (at_time dr) r.(reset_user) u (db s).
Proof.
  intros Hu Hc Hnew Hvs Hh Hi Hl Huser. unfold reset_submit.
  rewrite (on_db_ok _ _ _ () (db s)) by (unfold lift, require_csrf; by rewrite Hc).
  rewrite (proj2 (str_eqb_eq _ _) Hnew). cbn [negb]. rewrite Hvs.
  rewrite (on_db_ok _ _ _ (Some r.(reset_user)) (spent (hash_token dep (trim (rf_token form))) (at_time dr) (db s)))
    by (unfold exec; cbn [with_db db]; by rewrite (consume_live _ _ _ i r Hu Hi Hl)).
  erewrite on_db_ok by reflexivity. cbv beta.
  erewrite (on_db_ok _ _ _ u) by (unfold require, lift, find_user; cbn; by rewrite Huser).
  erewrite (on_db_ok _ _ _ h) by (unfold exec; by rewrite Hh).
  erewrite on_db_ok by reflexivity. erewrite on_db_ok by reflexivity. erewrite on_db_ok by reflexivity.
  eexists. split; reflexivity.
Qed.

(** A forgotten password is recovered end to end: once a code was mailed, submitting it with a strong new
    password within the hour succeeds, and then the new password signs that account in. *)
Theorem reset_round_trip jar dr csrf mail s jar' dr' form h :
  wf (db s) → unique_codes (db s) → unique_names (db s) →
  let s1 := (forgot_submit dep jar dr csrf mail s).2 in
  outbox s1 ≠ outbox s →
  verify jar' (rf_csrf_token form) = true → rf_new form = rf_confirm form →
  validate_strength (rf_new form) = Ok () → hash_password dep (rf_new form) = Ok h →
  verify_password dep (rf_new form) h = true →
  trim (rf_token form) = token dr → (at_time dr' < at_time dr + RESET_TOKEN_TTL)%N →
  ∃ u s2, find_by_email (db s) (trim mail) = Some u ∧
    reset_submit dep jar' dr' form s1 = (Ok (mkAnswer (Redirect #"/login") KeepCookie), s2) ∧
    authenticate (verify_password dep) (db s2) u.(username) (rf_new form) = Ok (with_password h u).
Proof.
  intros Hwf Huc Hun s1 Hsent Hc Hnew Hvs Hh Hvp Htok Hexp. subst s1. rewrite forgot_submit_run in *.
  destruct (require_csrf jar csrf) as [x|e]; [|done]. cbn [snd] in *.
  destruct (send_reset_code_run dr mail s) as (s1 & Heq & [->|(u & Hres & _ & Hfresh & Hnc & ->)]); rewrite Heq in *;
    [done|]. cbn [snd] in *. unfold resettable in Hres.
  destruct (find_by_email (db s) (trim mail)) as [v|] eqn:Hfind; [|done]. cbn in Hres.
  destruct (is_active v && bool_decide (is_Some (password_hash v))) eqn:Hb; [|done]. injection Hres as ->. bool_prop.
  destruct (find_email_row _ _ _ Hfind) as [i Hi]. pose proof (wf_user_keyed _ Hwf _ _ Hi) as <-.
  destruct (reset_submit_live jar' dr' form (code_sent dr u s) (fresh_id dr) (new_code dr u) u h) as (s2 & Hrun & Hdb);
    try done.
  - intros i j r r'. cbn. rewrite !lookup_insert_Some.
    intros [[<- <-]|[_ Hr]] [[<- <-]|[_ Hr']]; cbn; [done| | |by apply Huc].
    + intros Ht. by destruct (Hnc _ _ Hr').
    + intros Ht. by destruct (Hnc _ _ Hr).
  - apply lookup_insert_eq.
  - apply live_spec. cbn. by rewrite Htok.
  - exists u, s2. split_and!; [done|done|].
    assert ((db s2).(users) = alter (with_password h) u.(uid) (db s).(users)) as Husers by (by rewrite Hdb).
    unfold authenticate. change (username u) with (username (with_password h u)).
    rewrite (find_username_unique _ u.(uid)).
    + cbn. match goal with Ha : is_active u = true |- _ => rewrite Ha end. cbn. by rewrite Hvp.
    + rewrite Husers, lookup_alter_eq, Hi. done.
    + intros j v. rewrite Husers, lookup_alter_Some. intros [(<- & v' & Hv & ->)|[Hne Hv]] Hname.
      * congruence.
      * exfalso. apply Hne. by eapply (Hun _ j u v).
Qed.
End resets.
