(* ===== verification/LoginFixture.v ===== *)
(** * Logins on the concrete deployment

    The witnesses of the theorems about getting in, and the gap between the
    lockout's key and the account name. *)

From S2P Require Import Prelude Permission Json AuditLog RoleStore RoleTree Web.
From S2P Require Import Delegation RoleSpec Auth Users UserSafety System Fixture UserTheorems.
From S2P Require Import Login LoginTheorems ResetTheorems AccountTheorems.

Lemma pair_run {A B} (x : A * B) (a : A) : x.1 = a → x = (a, x.2).
Proof. destruct x. cbn. by intros ->. Qed.

Definition demo_dep : Deployment :=
  mkDeployment fix_hash (λ p h, str_eqb h (#"argon2:" ++ p)) (λ p, Ok (#"argon2:" ++ p))
    1000 (Some #"https://arsenal.example.org") #"abyssal_session".

Definition demo_password : rstr := #"Correct-Horse-Battery-9".
Definition demo_db : Db :=
  set_users (alter (λ u, with_password (#"argon2:" ++ demo_password) u) 100%N) fix_db.
Definition demo_site : Site := mkSite demo_db ∅ default_limiter [].
Definition demo_draw (t : N) : Draw := mkDraw t #"fresh-token" 900 901 #"Generated-Passw0rd!".
Definition demo_form (name password : rstr) : LoginForm := mkLoginForm #"tok" name password.
Definition demo_ip : rstr := #"10.0.0.1".

Lemma demo_wf : wf demo_db.
Proof. apply wf_checked. vm_compute. reflexivity. Qed.

(** The browser after the login, and the site. *)
Definition demo_jar : CookieJar := λ name,
  if str_eqb name CSRF_COOKIE then Some #"tok"
  else if str_eqb name #"abyssal_session" then Some #"fresh-token" else None.
Definition demo_login : result AppError Answer * Site :=
  login_submit demo_dep fix_jar demo_ip (demo_draw 1000) (demo_form #"alice" demo_password) demo_site.
Definition demo_answer : Answer := mkAnswer (Redirect #"/") (SessionCookie #"fresh-token").

Lemma demo_login_run : demo_login = (Ok demo_answer, demo_login.2).
Proof. apply pair_run. vm_compute. reflexivity. Qed.

Lemma login_lifecycle_witness :
  ∃ u h, find_by_username demo_db #"alice" = Some u ∧ u.(is_active) = true ∧
    u.(password_hash) = Some h ∧ verify_password demo_dep demo_password h = true ∧
    current_user (db demo_login.2) fix_hash #"abyssal_session" #"/" demo_jar 1500 = admits (db demo_login.2) u #"/".
Proof.
  destruct (login_lifecycle demo_dep fix_jar demo_ip (demo_draw 1000) (demo_form #"alice" demo_password) demo_site
              demo_answer demo_login.2 #"fresh-token" demo_jar demo_wf demo_login_run eq_refl eq_refl)
    as (u & h & H1 & H2 & H3 & H4 & H5 & _).
  exists u, h. split; [exact H1|]. split; [exact H2|]. split; [exact H3|]. split; [exact H4|].
  exact (H5 #"/" 1500%N).
Defined.

(** Ten wrong guesses for a name. *)
Definition demo_guess (name : rstr) (t : N) : Attempt := (fix_jar, demo_draw t, demo_form name #"wrong").
Definition demo_guesses (name : rstr) : list Attempt :=
  (λ k, demo_guess name (1000 + N.of_nat k)) <$> seq 0 10.

(** The same guesses as events: one after another, and all let in before the first is counted. *)
Definition demo_key : rstr := #"alice:10.0.0.1".
Definition arrives (k : nat) : login_event :=
  Arrives fix_jar demo_ip (1000 + N.of_nat k) (demo_form #"alice" #"wrong").
Definition in_turn : list login_event :=
  mjoin ((λ k, [arrives k; Looks 0; Settles 0 (demo_draw (1000 + N.of_nat k))]) <$> seq 0 10).
Definition all_at_once : list login_event := (arrives <$> seq 0 20) ++ (Looks <$> seq 0 20).
Local Notation "'demo_traffic'" := (login_steps demo_dep (mkTraffic demo_site [] [])).

Lemma in_turn_within : Forall (within demo_key 1000 (window default_limiter)) in_turn.
Proof. cbn. repeat (apply Forall_cons; split; [first [exact I|split; vm_compute; congruence]|]). apply Forall_nil. exact I. Qed.

Lemma in_flight_checked es k :
  forallb (λ n, in_flight demo_key (demo_traffic (take n es)) <=? k) (seq 0 (S (length es))) = true →
  ∀ n, in_flight demo_key (demo_traffic (take n es)) ≤ k.
Proof.
  intros Hall n. rewrite forallb_forall in Hall. assert (take n es = take (n `min` length es) es) as ->.
  { destruct (Nat.min_spec n (length es)) as [[_ ->]|[Hn ->]]; [done|]. by rewrite !take_ge by lia. }
  apply Nat.leb_le, Hall, in_seq. lia.
Qed.

Lemma in_turn_in_flight n : in_flight demo_key (demo_traffic (take n in_turn)) ≤ 1.
Proof. apply in_flight_checked. vm_compute. reflexivity. Qed.

Lemma in_turn_looks : looks_for demo_key (demo_traffic in_turn) = replicate 10 (demo_key, false).
Proof. vm_compute. reflexivity. Qed.

Lemma in_turn_wrong x : x ∈ looks_for demo_key (demo_traffic in_turn) → x.2 = false.
Proof. rewrite in_turn_looks. by intros [-> _]%elem_of_replicate. Qed.

Lemma in_turn_full :
  max_attempts default_limiter + in_flight demo_key (demo_traffic in_turn) ≤ length (looks_for demo_key (demo_traffic in_turn)).
Proof. rewrite in_turn_looks. apply Nat.leb_le. vm_compute. reflexivity. Qed.


(** The lockout counts failures, not attempts: logins that arrive together all pass the check before the
    first failure is recorded.  Twenty passwords are looked at where ten lock the name. *)
Theorem guesses_together_pass :
  length (looks_for demo_key (demo_traffic all_at_once)) = 20 ∧ max_attempts default_limiter = 10.
Proof. vm_compute. split; reflexivity. Qed.

Lemma unique_names_checked `{!SqlEngine} d :
  forallb (λ p, forallb (λ q, negb (name_eqb q.2.(username) p.2.(username)) || (p.1 =? q.1)%N)
                  (map_to_list d.(users))) (map_to_list d.(users)) = true →
  unique_names d.
Proof.
  intros Hall i j u v Hi Hj Hn. pose proof (forallb_map _ _ _ _ Hall Hi) as Hp. cbn [fst snd] in Hp.
  pose proof (forallb_map _ _ _ _ Hp Hj) as Hq. cbn [fst snd] in Hq. rewrite Hn in Hq. by apply N.eqb_eq in Hq.
Qed.

Lemma demo_unique_names : unique_names demo_db.
Proof. apply unique_names_checked. vm_compute. reflexivity. Qed.
Lemma demo_unique_codes : unique_codes demo_db.
Proof. intros i j r r' Hi. exfalso. revert Hi. change (password_resets demo_db) with (∅ : gmap N PasswordReset). by rewrite lookup_empty. Qed.

(** A code is mailed to alice and used ten minutes later. *)
Definition demo_forgot : Site :=
  (forgot_submit demo_dep fix_jar (demo_draw 1000) #"tok" #" alice@example.org " demo_site).2.
Definition demo_new : rstr := #"Another-Fine-Passw0rd".
Definition demo_reset_form : ResetForm := mkResetForm #"tok" #"fresh-token" demo_new demo_new.
Definition demo_reset : result AppError Answer * Site :=
  reset_submit demo_dep fix_jar (mkDraw 600001000 #"other" 950 951 []) demo_reset_form demo_forgot.

Lemma reset_round_trip_witness :
  ∃ u s2, find_by_email demo_db #"alice@example.org" = Some u ∧
    demo_reset = (Ok (mkAnswer (Redirect #"/login") KeepCookie), s2) ∧
    authenticate (verify_password demo_dep) (db s2) u.(username) demo_new
    = Ok (with_password (#"argon2:" ++ demo_new) u).
Proof.
  apply (reset_round_trip demo_dep fix_jar (demo_draw 1000) #"tok" #" alice@example.org " demo_site
           fix_jar (mkDraw 600001000 #"other" 950 951 []) demo_reset_form (#"argon2:" ++ demo_new)
           demo_wf demo_unique_codes demo_unique_names); vm_compute; try reflexivity; discriminate.
Defined.

Lemma demo_forgot_unique : unique_codes (db demo_forgot).
Proof.
  intros i j r r'. change (password_resets (db demo_forgot)) with
    (<[900%N := new_code demo_dep (demo_draw 1000) alice]> (∅ : gmap N PasswordReset)).
  rewrite !lookup_insert_Some, !lookup_empty. naive_solver.
Qed.

Lemma reset_code_single_use_witness :
  reset_ok (mkAnswer (Redirect #"/login") KeepCookie) ∧
  ∃ i r, (db demo_forgot).(password_resets) !! i = Some r ∧ r.(used_at) = None ∧
    (600001000 < r.(reset_expires_at))%N.
Proof.
  assert (demo_reset = (Ok (mkAnswer (Redirect #"/login") KeepCookie), demo_reset.2)) as Hrun.
  { apply pair_run. vm_compute. reflexivity. }
  destruct (reset_code_single_use demo_dep fix_jar (mkDraw 600001000 #"other" 950 951 []) demo_reset_form demo_forgot
              (mkAnswer (Redirect #"/login") KeepCookie) demo_reset.2 demo_forgot_unique Hrun eq_refl)
    as (i & r & _ & _ & H1 & _ & H2 & H3 & _).
  split; [reflexivity|]. exists i, r. split; [exact H1|]. split; [exact H2|exact H3].
Defined.

(** ** The key of the lockout

    The column's collation compares names without regard to case (the default of
    the character set the migrations choose). *)

#[local] Instance ci_engine : SqlEngine.
Proof.
  refine {| order_by_name := λ l, l; name_eqb := eq_ignore_ascii_case |}.
  - done.
  - intros s. unfold eq_ignore_ascii_case. by apply str_eqb_eq.
Defined.

(** The lockout can be walked around: it counts failures under the name as it was typed, while the
    account is found without regard to case.  After ten wrong guesses for alice have locked that name, the
    next guess under the name ALICE is looked at and, being right, signs alice in. *)
Theorem lockout_ignores_collation :
  let locked := @login_run ci_engine demo_dep demo_ip demo_site (demo_guesses #"alice") in
  let again name := (@login_submit ci_engine demo_dep fix_jar demo_ip (demo_draw 2000) (demo_form name demo_password) locked).1 in
  (∃ a, again #"alice" = Ok a ∧ cookie a = KeepCookie) ∧
  (∃ a, again #"ALICE" = Ok a ∧ cookie a = SessionCookie #"fresh-token").
Proof. split; eexists; (split; [vm_compute; reflexivity|reflexivity]). Qed.
