(* ===== verification/FleetFixture.v ===== *)
(** * Hosts on the concrete deployment

    A fleet of two hosts, one of them connected, and one token of every kind: the
    witnesses of the theorems about enrolment, and what the comments in the code
    do not say. *)

From S2P Require Import Prelude Protocol Permission Json AuditLog RoleStore Web Delegation Auth.
From S2P Require Import Users Login.
From S2P Require Import Fixture LoginFixture ElevationTracker Registry Executor Steps Aat.
From S2P Require Import Enrollment HostRoutes.
From S2P Require Import FleetSystem FleetInvariant EnrollmentTheorems HostLife.
Import Op.

Definition host_env : HostEnv := mkHostEnv (λ b, b) None.
Definition a_host_row (id : Uuid) (name credential : rstr) : Host :=
  mkHost id name (hash host_env credential) 0 None None None None None None false false None None None.
Definition a_token (token : rstr) (reusable control_plane : bool) : EnrollmentToken :=
  mkEnrollmentToken (hash host_env token) None 5000 None reusable 0 None control_plane.

Definition small_fleet : Fleet :=
  mkFleet (mkSite demo_db {[ SECRET_KEY := Str #"AAT1-secret"; REQUIRE_APPROVAL_KEY := Bool true ]} default_limiter [])
    {[ 200%N := a_host_row 200 #"web1" #"cred1"; 201%N := a_host_row 201 #"web2" #"cred2" ]}
    {[ 300%N := a_token #"once" false false; 301%N := a_token #"many" true false; 302%N := a_token #"own" false true ]}
    ∅ (register 200 (Some PROTOCOL_VERSION) empty_registry) ∅ 1000 true.

(** Unique values in a small table, by enumeration. *)
Lemma uniq_by_check {A} (f : A → rstr) (m : gmap N A) :
  forallb (λ p, forallb (λ q, negb (str_eqb (f p.2) (f q.2)) || (p.1 =? q.1)%N) (map_to_list m)) (map_to_list m) = true →
  uniq_by f m.
Proof.
  intros Hall i j a b Ha Hb He.
  apply elem_of_map_to_list, list_elem_of_In in Ha, Hb.
  pose proof (proj1 (forallb_forall _ _) (proj1 (forallb_forall _ _) Hall _ Ha) _ Hb) as H. cbn in H.
  rewrite He, (proj2 (str_eqb_eq _ _) eq_refl) in H. by apply N.eqb_eq.
Qed.
Lemma keys_check {A} (f : A → N) (m : gmap N A) :
  forallb (λ p, f p.2 =? p.1)%N (map_to_list m) = true → ∀ i a, m !! i = Some a → f a = i.
Proof.
  intros Hall i a Ha. apply elem_of_map_to_list, list_elem_of_In in Ha.
  by apply N.eqb_eq, (proj1 (forallb_forall _ _) Hall _ Ha).
Qed.

Lemma small_fleet_wf : fleet_wf small_fleet.
Proof.
  constructor; [apply keys_check|apply uniq_by_check|apply uniq_by_check|apply uniq_by_check
    |apply keys_check|apply uniq_by_check|apply uniq_by_check]; vm_compute; reflexivity.
Qed.

Definition no_text (e : DbError) : rstr := [].
Definition no_dispatch (h : Uuid) (op : AgentOperation) (r : Registry) : result DispatchError CommandOutcome * Registry :=
  (Err Timeout, r).
Definition after_request : N → Origin → Server → Server := answer host_env no_text (λ s, s) no_dispatch.
Definition reach : Fleet → Server → Prop := served host_env no_text (λ s, s) no_dispatch.

(** Two machines with the same deployment token. *)
Definition draw1 : EnrollDraw := mkEnrollDraw 400 #"fresh1".
Definition draw2 : EnrollDraw := mkEnrollDraw 401 #"fresh2".
Definition many1 : EnrollRequest := mkEnrollRequest #"many" #"db1".
Definition many2 : EnrollRequest := mkEnrollRequest #"many" #"db2".
Definition two_machines : Server :=
  after_request 2 (Enrolls draw2 many2) (after_request 1 (Enrolls draw1 many1) (boot small_fleet)).

Lemma two_machines_reached : reach small_fleet two_machines.
Proof. apply served_answer; [by vm_compute|]. apply served_answer; [by vm_compute|apply rtc_refl]. Qed.
Lemma two_machines_first : running two_machines !! 1%N = Some (Ret (ToAgent (Enrolled 400 #"fresh1"))).
Proof. vm_compute. reflexivity. Qed.
Lemma two_machines_second : running two_machines !! 2%N = Some (Ret (ToAgent (Enrolled 401 #"fresh2"))).
Proof. vm_compute. reflexivity. Qed.
(** Two machines with the same single-use token: the second is refused. *)
Definition once1 : EnrollRequest := mkEnrollRequest #"once" #"db1".
Definition once2 : EnrollRequest := mkEnrollRequest #"once" #"db2".
Definition one_machine : Server :=
  after_request 2 (Enrolls draw2 once2) (after_request 1 (Enrolls draw1 once1) (boot small_fleet)).

Lemma one_machine_reached : reach small_fleet one_machine.
Proof. apply served_answer; [by vm_compute|]. apply served_answer; [by vm_compute|apply rtc_refl]. Qed.
Lemma one_machine_asked : asked one_machine !! 1%N = Some (Enrolls draw1 once1).
Proof. vm_compute. reflexivity. Qed.
Lemma one_machine_first : running one_machine !! 1%N = Some (Ret (ToAgent (Enrolled 400 #"fresh1"))).
Proof. vm_compute. reflexivity. Qed.
Lemma one_machine_second :
  running one_machine !! 2%N = Some (Ret (ToAgent (Refusal 401 #"invalid, expired, or already-used enrollment token"))).
Proof. vm_compute. reflexivity. Qed.

Lemma enrollment_token_single_use_witness :
  running one_machine !! 2%N = Some (Ret (ToAgent (Refusal 401 #"invalid, expired, or already-used enrollment token"))) ∧
  ∃ id t, enrollment_tokens (fleet one_machine) !! id = Some t ∧ et_hash t = hash host_env #"once"
          ∧ (is_Some (et_used_at t) ∨ et_reusable t = true)
          ∧ (∀ t0, enrollment_tokens small_fleet !! id = Some t0 →
               et_revoked_at t0 = None ∧ (clock small_fleet < et_expires_at t0)%N
               ∧ (et_reusable t0 = true ∨ et_used_at t0 = None)).
Proof.
  split; [exact one_machine_second|].
  destruct (enrollment_token_single_use host_env no_text (λ s, s) no_dispatch small_fleet one_machine 1 1
           draw1 draw1 once1 once1 400 400 #"fresh1" #"fresh1" small_fleet_wf one_machine_reached
           one_machine_asked one_machine_first one_machine_asked one_machine_first eq_refl eq_refl)
    as (id & t & Hrow & Hh & Hu & _ & _ & Hs).
  exact (ex_intro _ id (ex_intro _ t (conj Hrow (conj Hh (conj Hu Hs))))).
Defined.

(** [fleet_stays_keyed] after the two machines. *)
Lemma fleet_stays_keyed_witness : fleet_wf (fleet two_machines) ∧ tokens_le small_fleet (fleet two_machines).
Proof.
  exact (fleet_stays_keyed host_env no_text (λ s, s) no_dispatch small_fleet two_machines small_fleet_wf
           two_machines_reached).
Defined.

(** An enrolment with the install token, stopped before its [INSERT], and after. *)
Definition aat_request : EnrollRequest := mkEnrollRequest #"AAT1-secret" #"db1".
Definition aat_program : Prog Fleet Reply := program host_env no_text (λ s, s) no_dispatch (Enrolls draw1 aat_request).
Definition at_step (n : nat) : Prog Fleet Reply * Fleet := default (aat_program, small_fleet) (peel n aat_program small_fleet).
Definition before_insert : Server :=
  mkServer (<[1%N := Enrolls draw1 aat_request]> ∅) (<[1%N := (at_step 3).1]> ∅) (at_step 3).2.

Lemma at_step_peel n :
  match peel n aat_program small_fleet with Some _ => true | None => false end = true →
  peel n aat_program small_fleet = Some ((at_step n).1, (at_step n).2).
Proof. unfold at_step. destruct (peel n aat_program small_fleet) as [[]|]; [done|discriminate]. Qed.
Lemma third_step : peel 3 aat_program small_fleet = Some ((at_step 3).1, (at_step 3).2).
Proof. apply at_step_peel. vm_compute. reflexivity. Qed.

Lemma before_insert_reached : reach small_fleet before_insert.
Proof. exact (served_peel _ _ _ _ 3 _ _ _ _ _ third_step). Qed.
Lemma insert_step : next (at_step 3).1 (at_step 3).2 = Some ((at_step 4).1, (at_step 4).2).
Proof.
  assert (peel 4 aat_program small_fleet = Some ((at_step 4).1, (at_step 4).2)) as H.
  { apply at_step_peel. vm_compute. reflexivity. }
  by rewrite peel_next, third_step in H.
Qed.
Lemma inserted : size (hosts (at_step 3).2) = 2 ∧ size (hosts (at_step 4).2) = 3.
Proof. split; vm_compute; reflexivity. Qed.
Lemma web2_before : hosts (fleet before_insert) !! 201%N = Some (a_host_row 201 #"web2" #"cred2").
Proof. vm_compute. reflexivity. Qed.

Lemma install_token_never_displaces_witness :
  ∃ h', hosts (at_step 4).2 !! 201%N = Some h' ∧ identity h' = identity (a_host_row 201 #"web2" #"cred2").
Proof.
  exact (install_token_never_displaces host_env no_text (λ s, s) no_dispatch small_fleet before_insert 1 draw1 aat_request
           (at_step 3).1 (at_step 4).1 (at_step 4).2 before_insert_reached (lookup_insert_eq _ _ _) eq_refl
           (lookup_insert_eq _ _ _) insert_step 201%N (a_host_row 201 #"web2" #"cred2") web2_before).
Defined.

(** An administrator of hosts. *)
Definition host_admin : AuthContext := mkCtx root_user {[HostsManage]}.
Definition host_draw : HostDraw := mkHostDraw 500 #"drawn" 0.
Lemma host_admin_may : HostsManage ∈ permissions host_admin.
Proof. unfold host_admin. cbn. set_solver. Qed.

Definition aat_enrolled : AgentAnswer * Fleet := run (enroll host_env draw1 aat_request) small_fleet.
Lemma aat_enrolled_run : aat_enrolled = (Enrolled 400 #"fresh1", aat_enrolled.2).
Proof. apply pair_run. vm_compute. reflexivity. Qed.

Definition after_admin : HostRequest → Fleet → Fleet :=
  after host_env no_text (λ s, s) no_dispatch fix_jar host_admin host_draw.

(** The install token asks for approval, so the new host waits, is admitted once
    approved and refused once revoked. *)
Definition aat_approved : Fleet := after_admin (Approve 400 #"tok") aat_enrolled.2.
Definition aat_revoked : Fleet := after_admin (RevokeHost 400 #"tok" true) aat_approved.
Lemma aat_waits : verdict host_env #"fresh1" aat_enrolled.2 = Err 403%N.
Proof. vm_compute. reflexivity. Qed.

Lemma credential_lifecycle_witness :
  verdict host_env #"fresh1" aat_enrolled.2 = Err 403%N
  ∧ asks_approval host_env #"AAT1-secret" true small_fleet
  ∧ verdict host_env #"fresh1" aat_approved = Ok 400%N ∧ verdict host_env #"fresh1" aat_revoked = Err 403%N.
Proof.
  destruct (credential_lifecycle host_env no_text (λ s, s) no_dispatch fix_jar host_admin host_draw #"tok"
    host_admin_may eq_refl draw1 aat_request small_fleet 400%N #"fresh1" aat_enrolled.2 #"db1"
    small_fleet_wf eq_refl aat_enrolled_run) as ((waiting & Hask & H1) & H2 & H3 & _).
  pose proof aat_waits as Hw. destruct waiting; [|rewrite Hw in H1; discriminate H1].
  exact (conj Hw (conj Hask (conj H2 H3))).
Defined.

Lemma web1_row : hosts small_fleet !! 200%N = Some (a_host_row 200 #"web1" #"cred1").
Proof. vm_compute. reflexivity. Qed.
Lemma web1_connected : dispatch_lookup 200 SystemInfo (registry small_fleet) = Ok 1%N.
Proof. vm_compute. reflexivity. Qed.

Lemma revoked_host_still_commanded_witness :
  let s' := after_admin (RevokeHost 200 #"tok" true) small_fleet in
  verdict host_env #"cred1" s' = Err 403%N ∧ dispatch_lookup 200 SystemInfo (registry s') = Ok 1%N.
Proof.
  destruct (revoked_host_still_commanded host_env no_text (λ s, s) no_dispatch fix_jar host_admin host_draw #"tok"
    host_admin_may eq_refl 200%N (a_host_row 200 #"web1" #"cred1") #"cred1" small_fleet #"web1" SystemInfo 1%N
    small_fleet_wf eq_refl web1_row eq_refl eq_refl web1_connected) as (H1 & _ & H2 & _).
  split; [exact H1|exact H2].
Defined.

(** The installer's enrolment, with the database away for its second statement. *)
Definition but_second (n : nat) : bool := negb (n =? 1).
Definition own_request : EnrollRequest := mkEnrollRequest #"own" #"arsenal".
Definition own_enrolled : AgentAnswer * (nat * Fleet) := run_under but_second 0 (enroll host_env draw1 own_request) small_fleet.
Lemma own_enrolled_answer : own_enrolled.1 = Enrolled 400 #"fresh1".
Proof. vm_compute. reflexivity. Qed.
Lemma own_enrolled_run : own_enrolled = (Enrolled 400 #"fresh1", (own_enrolled.2.1, own_enrolled.2.2)).
Proof. rewrite <- own_enrolled_answer. by destruct own_enrolled as [? []]. Qed.
Lemma own_token : enrollment_tokens small_fleet !! 302%N = Some (a_token #"own" false true).
Proof. vm_compute. reflexivity. Qed.

Lemma control_plane_guard_exact_witness :
  is_control_plane 400 (registry own_enrolled.2.2) = false
  ∧ ∃ h, hosts own_enrolled.2.2 !! 400%N = Some h ∧ h_control_plane h = false.
Proof.
  destruct (control_plane_guard_exact host_env but_second draw1 own_request small_fleet 302%N (a_token #"own" false true)
    400%N #"fresh1" own_enrolled.2.1 own_enrolled.2.2 small_fleet_wf own_token eq_refl eq_refl eq_refl eq_refl
    own_enrolled_run) as (_ & H1 & H2).
  split; [exact H1|exact H2].
Defined.

(** ** What the comments do not say *)

(** A deployment token, which many machines hold, takes the name of a host that is
    offline and ends its credential; the comment in [enroll] speaks of a
    single-use token. *)
Lemma deployment_token_takes_name :
  let r := run (enroll host_env draw1 (mkEnrollRequest #"many" #"web2")) small_fleet in
  r.1 = Enrolled 400 #"fresh1" ∧ hosts r.2 !! 201%N = None ∧ verdict host_env #"cred2" r.2 = Err 401%N.
Proof. vm_compute. done. Qed.

(** The answer for a name in use tells the administrator to remove that host and
    enrol again; the token it was tried with is used up. *)
Lemma conflict_uses_up_token :
  let r := run (enroll host_env draw1 (mkEnrollRequest #"once" #"web1")) small_fleet in
  (∃ body, r.1 = Refusal 409 body) ∧
  (run (enroll host_env draw2 (mkEnrollRequest #"once" #"web9")) r.2).1
  = Refusal 401 #"invalid, expired, or already-used enrollment token".
Proof. vm_compute. split; [by eexists|done]. Qed.
