(* ===== verification/NacFixture.v ===== *)
(** * Enforcement on a small network

    A switch that follows RFC 3416, with requests that can be lost or refused:
    the witnesses of the theorems about enforcement, and what the comments in the
    code do not say. *)

From stdpp Require Import sorting.
From S2P Require Import Prelude Permission Json AuditLog RoleStore Web Delegation Auth Users.
From S2P Require Import Login.
From S2P Require Import Fixture LoginFixture Steps Aat Snmp SnmpTheorems.
From S2P Require Import Nac NacPolicy NacLogic NacPolicyTheorems NacLife.
From S2P Require Import NacGuarantees.

(** ** The switches *)

(** What happens to a request. *)
Inductive Fate : Set := Carried | AnswerLost | Refused.
Record DemoNet := mkDemoNet { dn_mibs : gmap rstr (gmap oid Wire); dn_fates : list Fate }.

Definition fate (n : DemoNet) : Fate := default Carried (head (dn_fates n)).
Definition past (n : DemoNet) : DemoNet := mkDemoNet (dn_mibs n) (tail (dn_fates n)).
Definition demo_mib (n : DemoNet) (addr : rstr) : gmap oid Wire := default ∅ (dn_mibs n !! addr).
Definition demo_answer_pdu (n : DemoNet) (o : oid) (vb : oid * Wire) : Exchange :=
  match fate n with
  | Carried => Answered (mkPdu 0 0 [vb])
  | AnswerLost => NoAnswer
  | Refused => Answered (mkPdu 5 1 [(o, WOther [])])
  end.
Definition demo_write (addr : rstr) (vbs : list (oid * Wire)) (n : DemoNet) : DemoNet :=
  mkDemoNet (<[addr := foldl (λ m vb, <[vb.1 := vb.2]> m) (demo_mib n addr) vbs]> (dn_mibs n)) (tail (dn_fates n)).

#[export] Instance demo_link : SnmpLink := {|
  Net := DemoNet;
  Session := rstr;
  open_session addr _ n := (match fate n with Carried => Some (Ok addr) | _ => None end, past n);
  get_request addr o n := (demo_answer_pdu n o (o, default WNoSuchInstance (demo_mib n addr !! o)), past n);
  getnext_request addr o n := (demo_answer_pdu n o (successor (demo_mib n addr) o), past n);
  set_request addr vbs n :=
    match fate n with
    | Carried => (Answered (mkPdu 0 0 vbs), demo_write addr vbs n)
    | AnswerLost => (NoAnswer, demo_write addr vbs n)
    | Refused => (Answered (mkPdu 17 1 vbs), past n)
    end |}.

Lemma demo_write_mib addr o v n a :
  demo_mib (demo_write addr [(o, v)] n) a = if bool_decide (a = addr) then <[o := v]> (demo_mib n a) else demo_mib n a.
Proof.
  unfold demo_write, demo_mib at 1. cbn. case_bool_decide as E.
  - subst. by rewrite lookup_insert_eq.
  - by rewrite lookup_insert_ne.
Qed.

#[export] Instance demo_spec : SnmpSpec.
Proof.
  refine {| peer := (λ a, a) : Session → rstr; mib := demo_mib : Net → rstr → gmap oid Wire |}; cbn;
    unfold demo_answer_pdu; try done.
  - intros net net' addr l sess. destruct (fate net); by intros [= -> _].
  - intros net net' addr o p. destruct (fate net); intros [= <- _]; by intros.
  - intros net net' addr o p. destruct (fate net); intros [= <- _]; by intros.
  - intros net net' addr o p. destruct (fate net); intros [= <- _]; intros; [done|by eexists].
  - intros net net' addr o v p a. destruct (fate net); intros [= <- <-]; intros; [apply demo_write_mib|done].
  - intros net net' addr o v r. destruct (fate net); intros [= <- <-];
      [right; intros; apply demo_write_mib|right; intros; apply demo_write_mib|by left].
  - intros net net' addr o v p a. destruct (fate net); intros [= <- <-]; intros; done.
Defined.

(** ** The engine *)

#[export] Instance demo_order : SqlOrder.
Proof.
  refine {| order_by A le l := merge_sort (λ x y, Is_true (le x y)) l; inet6_leb _ _ := true |}.
  - intros. apply merge_sort_Permutation.
  - intros A le l Htot Htr. apply Sorted_StronglySorted; [done|]. apply Sorted_merge_sort.
    intros x y. specialize (Htot x y). by apply orb_prop_elim.
Defined.

(** ** A site with one switch *)

Definition demo_cipher : Cipher := mkCipher (λ _ p, Ok p) (λ c, Ok c).
Definition demo_switch : PanopticonSwitch :=
  mkSwitch 1 #"core1" #"10.0.0.2" 161 V2c (Some #"private") None None None None None None true.
Definition demo_vars : gmap oid Wire :=
  {[ admin_oid 5 := WInteger 1; DOT1D_BASE_PORT_IF_INDEX ++ [7%N] := WInteger 5; pvid_oid 7 := WInteger 10;
     egress_oid 99 := WOctetString [0%N]; untagged_oid 99 := WOctetString [0%N] ]}.
Definition demo_rule (id : Uuid) (priority : Z) (kind : EnforcementKind) : PolicyRule :=
  mkRule id priority #"contain" true OnUntrusted kind None None None None None 0.
Definition demo_device : NetworkDevice :=
  mkDevice 50 #"10.0.9.5" (Some #"10.0.9.0/24") None Iot Untrusted (Some 1%N) (Some #"Gi1/0/5") 0 0.
Definition demo_nac (mode : rstr) (vars : gmap oid Wire) (fates : list Fate) (out : nat → bool) : Nac :=
  mkNac _ (mkSite demo_db {[ PANOPTICON_ENFORCEMENT_ENABLED := Bool true; PANOPTICON_QUARANTINE_VLAN := num 99;
                             PANOPTICON_AUTO_ENFORCE_MODE := Str mode ]} default_limiter [])
    {[ 1%N := demo_switch ]} [mkSwitchPort 1 5 (Some #"Gi1/0/5")] [demo_device]
    {[ 60%N := demo_rule 60 1 Quarantine; 61%N := demo_rule 61 2 Disable ]} ∅ ∅ ∅
    (mkDemoNet {[ switch_addr demo_switch := vars ]} fates : Net) 1000 out.
Definition never : nat → bool := λ _, false.

Definition demo_request (kind : EnforcementKind) : EnforceRequest :=
  mkEnforceRequest demo_switch 5 #"Gi1/0/5" kind None 30 (Operator 100 #"alice").
Definition demo_enforce (id : Uuid) (kind : EnforcementKind) : Prog Nac (result EnforceError Uuid) :=
  apply_action id (Some demo_cipher) (demo_request kind).
Definition var_of (s : Nac) (o : oid) : option Wire := mib (net s) (switch_addr demo_switch) !! o.
Definition states_of (s : Nac) : list (Uuid * EnforcementState) := prod_map id ac_state <$> map_to_list (actions s).

(** ** Witnesses *)

Definition quarantine_done : result EnforceError Uuid * Nac :=
  run (demo_enforce 700 Quarantine) (demo_nac #"off" demo_vars [] never).
Lemma quarantine_ok : quarantine_done = (Ok 700%N, quarantine_done.2).
Proof. apply pair_run. vm_compute. reflexivity. Qed.
Definition quarantine_row : EnforcementAction :=
  mkAction 700 1 #"core1" 5 #"Gi1/0/5" Quarantine Active None (Some 10%Z) (Some 99%Z) None (Some 100%N) (Some #"alice") 1000
    (Some (1000 + 30 * MINUTE)%N) None None.
Lemma quarantine_row_ok : actions quarantine_done.2 !! 700%N = Some quarantine_row.
Proof. vm_compute. reflexivity. Qed.
Lemma quarantine_switch_ok : switches quarantine_done.2 !! sw_id demo_switch = Some demo_switch.
Proof. vm_compute. reflexivity. Qed.
Definition release_done : result EnforceError () * Nac :=
  run (release_action (Some demo_cipher) quarantine_row AutoRevert) quarantine_done.2.
Lemma release_done_ok : release_done = (Ok (), release_done.2).
Proof. apply pair_run. vm_compute. reflexivity. Qed.

Lemma enforce_release_round_trip_witness :
  given_back_quarantined 5 (mib (net (demo_nac #"off" demo_vars [] never)) (switch_addr demo_switch))
    (mib (net release_done.2) (switch_addr demo_switch)) ∧
  ∃ a, actions release_done.2 !! 700%N = Some a ∧ ac_state a = Reverted.
Proof.
  exact (enforce_release_round_trip 700 demo_cipher (demo_request Quarantine) AutoRevert
    (demo_nac #"off" demo_vars [] never) 700 quarantine_done.2 quarantine_done.2 release_done.2 quarantine_row
    quarantine_switch_ok quarantine_ok eq_refl (same_mib_refl _) quarantine_row_ok release_done_ok).
Defined.

Definition alice_ctx : AuthContext := mkCtx alice {[ NetworkNac ]}.
Definition enforce_form : EnforceApplyForm := mkEnforceApplyForm #"tok" 5 #"disable" [] 30.
Definition after_apply : Nac :=
  (run (handle_nac (λ _, []) (Some demo_cipher) (EnforceApply fix_jar alice_ctx 1 700 enforce_form))
     (demo_nac #"off" demo_vars [] never)).2.
Lemma demo_nac_one : one_per_port (demo_nac #"off" demo_vars [] never).
Proof. split; [intros i a H|intros i j a b H]; cbn in H; by rewrite lookup_empty in H. Qed.
Lemma after_apply_states : states_of after_apply = [(700%N, Active)].
Proof. vm_compute. reflexivity. Qed.
Lemma one_action_per_port_witness : states_of after_apply = [(700%N, Active)] ∧ one_per_port after_apply.
Proof.
  split; [exact after_apply_states|].
  exact (one_action_per_port (λ _, []) (Some demo_cipher) _ _ demo_nac_one
    (rtc_once _ _ (nac_request (λ _, []) (Some demo_cipher)
       (EnforceApply fix_jar alice_ctx 1 700 enforce_form) _ I))).
Defined.

(** The quarantine of above, past its time. *)
Definition later : Nac :=
  mkNac _ (n_site quarantine_done.2) (switches quarantine_done.2) (switch_ports quarantine_done.2)
    (devices quarantine_done.2) (rules quarantine_done.2) (actions quarantine_done.2)
    (radius_clients quarantine_done.2) (radius_sessions quarantine_done.2) (net quarantine_done.2)
    (1000 + 31 * MINUTE) never.
Lemma later_keyed : keyed later.
Proof.
  intros i a H. assert (actions later = {[ 700%N := quarantine_row ]}) as E by (vm_compute; reflexivity).
  rewrite E in H. by apply lookup_singleton_Some in H as [<- <-].
Qed.
Lemma later_row : actions later !! 700%N = Some quarantine_row.
Proof. vm_compute. reflexivity. Qed.
Lemma swept_states : states_of (run (revert_sweep (Some demo_cipher)) later).2 = [(700%N, Reverted)].
Proof. vm_compute. reflexivity. Qed.
Lemma revert_sweep_forgets_nothing_witness :
  states_of (run (revert_sweep (Some demo_cipher)) later).2 = [(700%N, Reverted)] ∧
  (if due (n_clock later) quarantine_row then
    ∃ a', actions (run (revert_sweep (Some demo_cipher)) later).2 !! 700%N = Some a' ∧
      (due (n_clock (run (revert_sweep (Some demo_cipher)) later).2) a' = true ∨
       (ac_state a' = Reverted ∧ ∃ n n', restored later (Some demo_cipher) quarantine_row n n'))
   else actions (run (revert_sweep (Some demo_cipher)) later).2 !! 700%N = Some quarantine_row).
Proof.
  split; [exact swept_states|].
  exact (revert_sweep_forgets_nothing (Some demo_cipher) later later_keyed 700 quarantine_row later_row).
Defined.

Lemma demo_rules_keyed : rules_keyed (demo_nac #"off" demo_vars [] never).
Proof.
  intros i r H. cbn in H. apply lookup_insert_Some in H as [[<- <-]|[_ H]]; [done|].
  by apply lookup_singleton_Some in H as [<- <-].
Qed.
Lemma demo_rules_distinct : distinct_priorities (demo_nac #"off" demo_vars [] never).
Proof. unfold distinct_priorities. apply (bool_decide_eq_true_1 _). vm_compute. reflexivity. Qed.
Lemma demo_rules_list : list_rules (demo_nac #"off" demo_vars [] never) = [] ++ demo_rule 60 1 Quarantine :: demo_rule 61 2 Disable :: [].
Proof. vm_compute. reflexivity. Qed.
Lemma reorder_swaps_neighbours_witness :
  let s := demo_nac #"off" demo_vars [] never in
  let s' := swap_priorities 61 true s in
  swap_priorities 60 false s = s' ∧ rules_keyed s' ∧ distinct_priorities s' ∧
  list_rules s' = [] ++ with_priority 1 (demo_rule 61 2 Disable) :: with_priority 2 (demo_rule 60 1 Quarantine) :: [].
Proof. exact (reorder_swaps_neighbours _ _ _ _ _ demo_rules_keyed demo_rules_distinct demo_rules_list). Defined.

(** ** What the sweep does when it is armed *)

Definition armed_sweep (mode : rstr) : Nac :=
  (run (run_policy_sweep (Some demo_cipher) (λ n, 800 + N.of_nat n)%N) (demo_nac mode demo_vars [] never)).2.
(** The device is untrusted: the first rule quarantines its port; simulated, nothing happens. *)
Example policy_acts :
  states_of (armed_sweep #"active") = [(800%N, Active)] ∧
  var_of (armed_sweep #"active") (pvid_oid 7) = Some (WInteger 99) ∧
  states_of (armed_sweep #"simulate") = [] ∧ var_of (armed_sweep #"simulate") (pvid_oid 7) = Some (WInteger 10).
Proof. vm_compute. repeat split. Qed.

(** ** Ports left behind *)

(** The port is switched off before anything is recorded: when the database fails
    at the insertion, the port stays off and no row says so, so no sweep will ever
    switch it on again. *)
Example port_stranded_by_database :
  let s := (run (demo_enforce 700 Disable) (demo_nac #"off" demo_vars [] (λ n, n =? 2))).2 in
  (run (demo_enforce 700 Disable) (demo_nac #"off" demo_vars [] (λ n, n =? 2))).1 = Err (EnforceDb Unavailable) ∧
  var_of s (admin_oid 5) = Some (WInteger IF_ADMIN_DOWN) ∧ states_of s = [].
Proof. vm_compute. repeat split. Qed.

(** The answer to the write is lost: the action is recorded as not applied and
    never reverted, though the port is off. *)
Example port_stranded_by_lost_answer :
  let s := (run (demo_enforce 700 Disable) (demo_nac #"off" demo_vars [Carried; Carried; AnswerLost] never)).2 in
  var_of s (admin_oid 5) = Some (WInteger IF_ADMIN_DOWN) ∧ states_of s = [(700%N, ApplyFailed)] ∧
  forallb (λ a, negb (due (10 ^ 18) a)) (action_rows s) = true.
Proof. vm_compute. repeat split. Qed.

(** ** Releasing a closed action *)

Definition release_of (id : Uuid) (s : Nac) : Nac :=
  (run (handle_nac (λ _, []) (Some demo_cipher) (EnforceRelease fix_jar alice_ctx (mkEnforceActionForm #"tok" id []))) s).2.
Definition enforce_of (id : Uuid) (s : Nac) : Nac :=
  (run (handle_nac (λ _, []) (Some demo_cipher) (EnforceApply fix_jar alice_ctx 1 id enforce_form)) s).2.
(** Action 700 was released; the port is then disabled again as action 701. *)
Definition enforced_twice (fates : list Fate) : Nac :=
  enforce_of 701 (release_of 700 (enforce_of 700 (demo_nac #"off" demo_vars fates never))).

(** Releasing action 700 once more lifts action 701, which is still shown as
    active. *)
Example stale_release_lifts_enforcement :
  states_of (enforced_twice []) = [(700%N, Reverted); (701%N, Active)] ∧
  var_of (enforced_twice []) (admin_oid 5) = Some (WInteger IF_ADMIN_DOWN) ∧
  states_of (release_of 700 (enforced_twice [])) = [(700%N, Reverted); (701%N, Active)] ∧
  var_of (release_of 700 (enforced_twice [])) (admin_oid 5) = Some (WInteger IF_ADMIN_UP).
Proof. vm_compute. repeat split. Qed.

(** And when the switch does not answer, the closed action is in effect again, and
    the port has two. *)
Example stale_release_reopens_action :
  states_of (release_of 700 (enforced_twice (replicate 9 Carried ++ [AnswerLost])))
  = [(700%N, RevertFailed); (701%N, Active)].
Proof. vm_compute. reflexivity. Qed.

(** ** A port that belonged to the quarantine VLAN *)

Definition member_vars : gmap oid Wire := <[egress_oid 99 := WOctetString [2%N]]> demo_vars.
(** Port 7 carried VLAN 99 before; after a quarantine and its release it does not. *)
Example release_drops_membership :
  let s := (run (_ ← demo_enforce 700 Quarantine; release_action (Some demo_cipher) quarantine_row AutoRevert)
              (demo_nac #"off" member_vars [] never)).2 in
  portlist_has [2%N] 7 = true ∧ states_of s = [(700%N, Reverted)] ∧ var_of s (egress_oid 99) = Some (WOctetString [0%N]).
Proof. vm_compute. repeat split. Qed.

(** ** Two requests at once *)

(** The first [n] actions of a program. *)
Fixpoint prefix_run {S A} (n : nat) (p : Prog S A) (s : S) : Prog S A * S :=
  match n with
  | 0 => (p, s)
  | S n => match next p s with Some (p', s') => prefix_run n p' s' | None => (p, s) end
  end.
Lemma prefix_advances {S A} n (p : Prog S A) q ts (s : S) :
  rtc advance (<[q := p]> ts, s) (<[q := (prefix_run n p s).1]> ts, (prefix_run n p s).2).
Proof.
  revert p s. induction n as [|n IH]; intros p s; cbn; [done|]. destruct (next p s) as [[p' s']|] eqn:E; [|done].
  eapply rtc_l; [|apply IH]. replace (<[q := p']> ts) with (<[q := p']> (<[q := p]> ts)) by apply insert_insert_eq.
  by apply (advance_at q p p'); [apply lookup_insert_eq|].
Qed.

Definition race_start : Nac := demo_nac #"off" demo_vars [] never.
Definition race_first : Prog Nac (result EnforceError Uuid) * Nac := prefix_run 2 (demo_enforce 700 Disable) race_start.
Definition race_second : result EnforceError Uuid * Nac := run (demo_enforce 701 Disable) race_first.2.
Definition race_end : result EnforceError Uuid * Nac := run race_first.1 race_second.2.

(** Each of two requests for a port can find it free before the other has
    written: both succeed, the port has two actions in effect, and the second has
    recorded the port as down. *)
Theorem simultaneous_requests_stack :
  rtc advance (<[0%N := demo_enforce 700 Disable]> (<[1%N := demo_enforce 701 Disable]> ∅), race_start)
    (<[0%N := Ret race_end.1]> (<[1%N := Ret race_second.1]> ∅), race_end.2) ∧
  states_of race_end.2 = [(700%N, Active); (701%N, Active)] ∧
  (actions race_end.2 !! 700%N ≫= ac_original_admin_status) = Some IF_ADMIN_DOWN.
Proof.
  split; [|vm_compute; repeat split].
  etrans; [exact (prefix_advances 2 _ 0%N (<[1%N := demo_enforce 701 Disable]> ∅) race_start)|].
  rewrite (insert_insert_ne ∅ 0%N 1%N) by done.
  etrans; [exact (run_advances (demo_enforce 701 Disable) 1%N (<[0%N := race_first.1]> ∅) race_first.2)|].
  rewrite (insert_insert_ne ∅ 1%N 0%N) by done.
  exact (run_advances race_first.1 0%N (<[1%N := Ret race_second.1]> ∅) race_second.2).
Qed.
