(* ===== verification/RadiusFixture.v ===== *)
(** * RADIUS on a small network

    The witnesses of the theorems about the codec and the server, with checksums
    for the hashes, and what the comments in the code do not say. *)

From Stdlib Require Import NArith Lia.
From stdpp Require Import sorting.
From S2P Require Import Prelude Permission Json AuditLog RoleStore Web Delegation Auth Users.
From S2P Require Import Login.
From S2P Require Import Fixture LoginFixture Steps Aat Snmp SnmpTheorems.
From S2P Require Import Nac NacPolicy NacLogic NacFixture.
From S2P Require Import Ip Subnet Radius RadiusServer.
From S2P Require Import RadiusServerTheorems RadiusSessions.

Definition demo_md5 (l : list N) : list N := replicate 16 (foldl N.add 0 l mod 256)%N.
Definition demo_hmac (k l : list N) : list N := demo_md5 (k ++ l).
Lemma demo_md5_ok l : length (demo_md5 l) = 16 ∧ Forall is_byte (demo_md5 l).
Proof. split; [done|]. apply Forall_replicate, N.mod_lt. done. Qed.
Lemma demo_hmac_ok k l : length (demo_hmac k l) = 16 ∧ Forall is_byte (demo_hmac k l).
Proof. apply demo_md5_ok. Qed.

#[export] Instance demo_sql_text : SqlText := {|
  text_leb _ _ := true; sql_upper := to_ascii_uppercase; sql_upper_ascii s _ := eq_refl |}.

(** ** A site with one client and two devices *)

Definition MAC : rstr := #"aa:bb:cc:dd:ee:01".
Definition seen (id : Uuid) (trust : TrustState) (at_ : N) : NetworkDevice :=
  mkDevice id #"10.0.9.5" None (Some #"AA:BB:CC:DD:EE:01") Iot trust None None 0 at_.
Definition radius_site (unknown : rstr) (ds : list NetworkDevice) (out : nat → bool) : Nac :=
  mkNac _ (mkSite demo_db {[ PANOPTICON_QUARANTINE_VLAN := num 99; PANOPTICON_RADIUS_UNKNOWN_ACTION := Str unknown ]}
             default_limiter [])
    ∅ [] ds ∅ ∅ {[ 80%N := mkRadiusClient 80 #"edge" #"10.0.0.0/24" #"s3cr3t" true ]} ∅ (mkDemoNet ∅ [] : Net) 1000 out.
Definition only (n : nat) : nat → bool := Nat.eqb n.
Definition nas : IpAddr := IpV4 167772162.

(** An Access-Request for the device, as the switch at 10.0.0.2 sends it. *)
Definition request_auth : list N := replicate 16 17%N.
Definition access_request (mac : rstr) : list N :=
  wire CODE_ACCESS_REQUEST 7 request_auth [(ATTR_USER_NAME, bytes mac); (ATTR_CALLING_STATION_ID, bytes mac)].
Definition answer_to (s : Nac) : option (option (list N)) :=
  (run (handle_auth demo_md5 demo_hmac demo_cipher nas (access_request MAC)) s).1.
(** The code and the attributes of an answer. *)
Definition said (r : option (option (list N))) : option (N * list (N * list N)) :=
  match r with
  | Some (Some resp) => match Packet.parse resp with Some (Some q) => Some (pk_code q, pk_attributes q) | _ => None end
  | _ => None
  end.

(** An untrusted device goes to the quarantine VLAN. *)
Example untrusted_quarantined :
  said (answer_to (radius_site #"reject" [seen 50 Untrusted 900] never)) = Some (CODE_ACCESS_ACCEPT, vlan_attributes 99).
Proof. vm_compute. reflexivity. Qed.

(** When the lookup of the device fails, it is treated as one that is not known,
    and an untrusted device is let in without a VLAN. *)
Example lookup_failure_admits :
  said (answer_to (radius_site #"accept" [seen 50 Untrusted 900] (only 1))) = Some (CODE_ACCESS_ACCEPT, []).
Proof. vm_compute. reflexivity. Qed.

(** When the policy cannot be read, a device that it says to reject is let in. *)
Example policy_failure_admits :
  said (answer_to (radius_site #"reject" [] never)) = Some (CODE_ACCESS_REJECT, []) ∧
  said (answer_to (radius_site #"reject" [] (only 5))) = Some (CODE_ACCESS_ACCEPT, []).
Proof. vm_compute. split; reflexivity. Qed.

(** A device that was marked untrusted and then turned up under another address
    has a second row, which is newer and says nothing: it is let in. *)
Example new_address_admits :
  said (answer_to (radius_site #"accept" [seen 50 Untrusted 900; seen 51 TrustUnknown 950] never)) =
    Some (CODE_ACCESS_ACCEPT, []).
Proof. vm_compute. reflexivity. Qed.

(** Twelve hexadecimal digits anywhere in a text make a MAC. *)
Example mac_from_words : normalize_mac #"Feb. 2024, dead by" = Some #"fe:b2:02:4d:ea:db".
Proof. vm_compute. reflexivity. Qed.

(** A port past 65535 is accepted by the form and truncated at start. *)
Definition port_form : RadiusSettingsForm :=
  mkRadiusSettingsForm #"tok" true 70000 0 0 0 #"quarantine" #"accept".
Example port_truncated :
  check_settings port_form = Ok () ∧
  (run (spawn_panopticon_radius (Some demo_cipher))
     (run (radius_set_settings fix_jar alice_ctx port_form) (radius_site #"accept" [] never)).2).1 = Some (4464, 1813)%N.
Proof. vm_compute. split; reflexivity. Qed.

(** ** Witnesses *)

Lemma access_request_bytes : Forall is_byte (access_request MAC).
Proof.
  assert (forallb (λ b, (b <? 256)%N) (access_request MAC) = true) as H by (vm_compute; reflexivity).
  apply Forall_forall. intros b Hb. apply N.ltb_lt. eapply forallb_forall in H; [exact H|]. by apply list_elem_of_In.
Qed.
Lemma parse_exact_witness :
  ∃ r, Packet.parse (access_request MAC) = Some r ∧
    ∀ p, r = Some p ↔ packet_ok p ∧ ∃ rest, access_request MAC = pk_raw p ++ rest.
Proof. exact (parse_exact (access_request MAC) access_request_bytes). Defined.

Lemma quarantine_attributes_size :
  (N.of_nat (HEADER_LEN + length (body (with_tag (vlan_attributes 99) true (replicate 16 0%N)))) < 65536)%N.
Proof. vm_compute. reflexivity. Qed.
Lemma response_round_trip_witness :
  ∃ resp p, build_response demo_md5 demo_hmac CODE_ACCESS_ACCEPT 7 request_auth (vlan_attributes 99) #"s3cr3t" true = Some resp ∧
    Packet.parse resp = Some (Some p) ∧ pk_code p = CODE_ACCESS_ACCEPT ∧ pk_id p = 7%N ∧
    (∃ tag, length tag = 16 ∧ pk_attributes p = with_tag (vlan_attributes 99) true tag) ∧
    response_authentic demo_md5 demo_hmac #"s3cr3t" request_auth p.
Proof.
  exact (response_round_trip demo_md5 demo_hmac demo_md5_ok demo_hmac_ok CODE_ACCESS_ACCEPT 7 request_auth (vlan_attributes 99)
    #"s3cr3t" true eq_refl eq_refl eq_refl (proj1 (vlan_attributes_ok 99 eq_refl))
    (proj1 (proj2 (vlan_attributes_ok 99 eq_refl))) quarantine_attributes_size).
Defined.

Definition untrusted_site : Nac := radius_site #"accept" [seen 50 Untrusted 900] never.
Definition the_request : Packet :=
  mkPacket CODE_ACCESS_REQUEST 7 request_auth [(ATTR_USER_NAME, bytes MAC); (ATTR_CALLING_STATION_ID, bytes MAC)] (access_request MAC).
Definition the_answer : list N := match answer_to untrusted_site with Some (Some r) => r | _ => [] end.
Definition the_reply : Packet :=
  match Packet.parse the_answer with Some (Some q) => q | _ => the_request end.
Lemma the_request_parses : Packet.parse (access_request MAC) = Some (Some the_request).
Proof. vm_compute. reflexivity. Qed.
Lemma the_answer_given :
  (run (handle_auth demo_md5 demo_hmac demo_cipher nas (access_request MAC)) untrusted_site).1 = Some (Some the_answer).
Proof. vm_compute. reflexivity. Qed.
Lemma the_reply_parses : Packet.parse the_answer = Some (Some the_reply) ∧ pk_code the_reply = CODE_ACCESS_ACCEPT.
Proof. vm_compute. split; reflexivity. Qed.
Lemma nas_ok : ip_ok nas.
Proof. reflexivity. Qed.

Lemma untrusted_confined_witness :
  credentialed the_request = false ∧ ∃ mac, mab_mac the_request = Resolved mac ∧
    ∀ d, outages untrusted_site 1 = false → find_by_mac untrusted_site mac = Some d → dv_trust_state d = Untrusted →
      let vlan := get_u32 (n_site untrusted_site) PANOPTICON_QUARANTINE_VLAN 0 in
      (0 < vlan)%N ∧ untrusted_action (policy_read untrusted_site) ≠ #"reject" ∧
      ∃ tag, pk_attributes the_reply = with_tag (vlan_attributes vlan) (Packet.has the_request ATTR_MESSAGE_AUTHENTICATOR) tag.
Proof.
  exact (untrusted_confined demo_md5 demo_hmac demo_md5_ok demo_hmac_ok demo_cipher nas (access_request MAC) untrusted_site
    the_request the_answer the_reply access_request_bytes nas_ok the_request_parses the_answer_given (proj1 the_reply_parses)
    (proj2 the_reply_parses)).
Defined.

(** Two sessions of one server, interleaved. *)
Definition says (sid : option rstr) (user ip : option rstr) (stop : bool) : SessionUpdate :=
  mkSessionUpdate user None (Some #"10.0.0.2") None ip sid (Some #"accounting") stop None.
Definition demo_packets : list Packet_in :=
  [mkPacketIn 1 (says (Some #"s1") (Some #"bob") None false) 10; mkPacketIn 2 (says (Some #"s2") (Some #"eve") None false) 11;
   mkPacketIn 3 (says (Some #"s1") None (Some #"10.0.9.5") false) 20; mkPacketIn 4 (says (Some #"s1") None None true) 30].
Definition bobs_session : RadiusSession :=
  mkRadiusSession 1 (Some #"bob") None (Some #"10.0.0.2") None (Some #"10.0.9.5") (Some #"s1") (Some #"accounting") 10 30
    (Some 30%N) None.
Lemma fix_sym a b : name_eqb a b = name_eqb b a.
Proof. cbn. unfold str_eqb. apply bool_decide_ext. by split. Qed.
Lemma fix_trans a b c : name_eqb a b = true → name_eqb b c = true → name_eqb a c = true.
Proof. cbn. rewrite !str_eqb_eq. congruence. Qed.
Lemma demo_packets_ids : NoDup (in_id <$> demo_packets).
Proof. apply (bool_decide_unpack _). vm_compute. exact I. Qed.
Lemma bobs_account : account (#"10.0.0.2", #"s1") demo_packets = Some bobs_session.
Proof. vm_compute. reflexivity. Qed.
Lemma sessions_refine_witness :
  recorded demo_packets !! 1%N = Some bobs_session ∧ row_has (#"10.0.0.2", #"s1") bobs_session = true.
Proof.
  exact (proj2 (sessions_refine fix_sym fix_trans demo_packets (#"10.0.0.2", #"s1") 1 bobs_session demo_packets_ids)
    (conj bobs_account eq_refl)).
Defined.

(** A packet without an identifier is a session of its own, every time. *)
Example anonymous_sessions_multiply :
  size (recorded [mkPacketIn 1 (says None (Some #"bob") None false) 10; mkPacketIn 2 (says None (Some #"bob") None true) 11]) = 2.
Proof. vm_compute. reflexivity. Qed.
