(* ===== verification/Gaps.v ===== *)
(** * Where the administration surface departs from its documentation

    Each theorem evaluates the handlers on a concrete deployment and exhibits a
    behaviour that a comment or the architecture document rules out. *)

From S2P Require Import Prelude Permission Json AuditLog RoleStore RoleTree Web Delegation.
From S2P Require Import RoleRoutes RoleSpec RoleSafety Auth Users UserSafety System.
From S2P Require Import Fixture.
From stdpp Require Import relations.

(** Eleven two-level trees: role [200 + 2 i] is a root and [201 + 2 i] its only
    child.  Every role but the first root grants [NetworkView]. *)
Definition tree_root (i : nat) : Uuid := (200 + 2 * N.of_nat i)%N.
Definition tree_child (i : nat) : Uuid := (201 + 2 * N.of_nat i)%N.
Definition role_label (id : Uuid) : rstr := #"role " ++ fmt_N id.

Definition trees : list Role :=
  seq 0 11 ≫= λ i,
    [mkRole (tree_root i) (role_label (tree_root i)) [] false None (Some 99%N);
     mkRole (tree_child i) (role_label (tree_child i)) [] false (Some (tree_root i)) (Some 99%N)].

Definition forest : Db :=
  mkDb (list_to_map ((λ r, (r.(role_id), r)) <$> trees) ∪ fix_db.(roles))
    (list_to_set ((λ r, (r.(role_id), as_key NetworkView)) <$> tail trees) ∪ fix_db.(role_permissions))
    fix_db.(user_roles) ∅ fix_db.(users) ∅ ∅ [].

(** The request that moves tree [i] below the child of tree [i - 1]. *)
Definition graft (i : nat) : Request :=
  EditRole (tree_root i)
    (mkEditRoleForm #"tok" (role_label (tree_root i)) [] (uuid_to_string (tree_child (i - 1)))).

Definition serve_root (req : Request) (db : Db) : result AppError Response * Db :=
  serve fix_env [] fix_jar root_user req db.

Definition one_graft : Db := snd (serve_root (graft 10) forest).
Definition grafted : Db := foldr (λ i db, snd (serve_root (graft i) db)) forest (seq 1 10).

Lemma forest_wf : wf forest.
Proof. apply wf_checked. vm_compute. reflexivity. Qed.

(** [edit_role] checks the depth of the role it moves, not of the roles below
    it: from well-formed tables of depth three, one accepted move puts a role at
    depth four, past the documented maximum of three. *)
Theorem reparenting_exceeds_max_depth :
  wf forest ∧ shallow 3 forest ∧
  (∃ to, fst (serve_root (graft 10) forest) = Ok (Redirect to)) ∧
  (MAX_ROLE_DEPTH < depth_of one_graft (tree_child 10))%N.
Proof.
  split; [apply forest_wf|]. split; [apply shallow_check; [lia|]; vm_compute; reflexivity|].
  split; [eexists|]; vm_compute; reflexivity.
Qed.

(** The moves are requests of the Super Admin, and leave the users alone. *)
Lemma grafts_reachable l :
  let db := foldr (λ i db, snd (serve_root (graft i) db)) forest l in
  reachable forest db ∧ wf db ∧ db.(users) = forest.(users).
Proof.
  induction l as [|i l (Hr & Hwf & Hu)]; cbn [foldr].
  { split; [apply rtc_refl|]. split; [apply forest_wf|done]. }
  set (db := foldr _ forest l) in *.
  assert (db.(users) !! 99%N = Some root_user) as H99 by by rewrite Hu.
  assert (step db (snd (serve_root (graft i) db))) as Hs.
  { exists 99%N, fix_env, [], fix_jar, root_user, (graft i). by split. }
  split; [by eapply rtc_r|]. split; [by eapply step_wf|].
  destruct (serve_root (graft i) db) as [r db'] eqn:Hrun. cbn.
  apply role_request_refines in Hrun as [->|[_ Hch]];
    [done| |done|by eapply (load_authentic _ 99%N)|done].
  destruct (change_touch _ _ _ Hwf Hch) as [id Ht]. by rewrite (t_users _ _ _ _ Ht).
Qed.

(** What the deep chain shows, decided in one evaluation of the moves. *)
Definition escapes (db : Db) : bool :=
  bool_decide (anc db 21 (tree_child 10) = Some (tree_root 0))
  && bool_decide (NetworkView ∈ effective_permissions_for_role db (tree_child 10))
  && negb (bool_decide (NetworkView ∈ own_permissions db (tree_root 0))).

Lemma grafted_escapes : escapes grafted = true.
Proof. vm_compute. reflexivity. Qed.

(** Repeating such moves, ten accepted requests build a chain of twenty-two
    roles, where the bounded walk stops short of the root: the leaf effectively
    has a permission its root ancestor was never granted. *)
Theorem deep_chain_escapes_ceiling :
  reachable forest grafted ∧
  descends grafted (tree_child 10) (tree_root 0) ∧
  NetworkView ∈ effective_permissions_for_role grafted (tree_child 10) ∧
  ¬ NetworkView ∈ own_permissions grafted (tree_root 0).
Proof.
  pose proof grafted_escapes as [[Ha%bool_decide_eq_true_1 He%bool_decide_eq_true_1]%andb_true_iff
    Hn%negb_true_iff%bool_decide_eq_false_1]%andb_true_iff.
  split; [apply (grafts_reachable (seq 1 10))|]. split; [by exists 21|]. by split.
Qed.

(** Resetting a password has no delegation check, unlike changing a role: a
    Network Admin who may not re-assign the Super Admin can still set the Super
    Admin's password, and sign in with it. *)
Theorem password_reset_ignores_scope :
  let ctx := load fix_db alice in
  let run := reset_password fix_env fix_jar ctx 99
               (mkResetPasswordForm #"tok" #"reset" #"Alice-Chose-This-1") fix_db in
  has_no_ceiling ctx = false ∧ target_in_scope fix_db ctx 99 = false ∧
  fst (change_role fix_jar ctx 99 (mkChangeRoleForm #"tok" trainee_id) fix_db) = Err Forbidden ∧
  (∃ to, fst run = Ok (Redirect to)) ∧
  ∃ u, authenticate (λ pw hash, str_eqb (#"argon2:" ++ pw) hash) (snd run) #"root"
         #"Alice-Chose-This-1" = Ok u ∧
       has_no_ceiling (load (snd run) u) = true.
Proof.
  cbv zeta. split; [vm_compute; reflexivity|]. split; [vm_compute; reflexivity|].
  split; [vm_compute; reflexivity|]. split; [eexists; vm_compute; reflexivity|].
  exists (mkUser 99 #"root" #"root@example.org" (Some (#"argon2:Alice-Chose-This-1")) #"local" true true).
  split; vm_compute; reflexivity.
Qed.

(** Deleting one's own account is carried out but never audited: the audit
    row names the deleted user, its foreign key fails, and the request answers
    with an internal error after the row is gone. *)
Theorem self_deletion_unaudited `{!SqlEngine, !Text} (db : Db) (ctx : AuthContext)
    (jar : CookieJar) (form : ConfirmForm) :
  authentic db ctx → UsersDelete ∈ ctx.(permissions) →
  verify jar form.(cf_csrf_token) = true → form.(cf_confirm) = true →
  trim form.(cf_confirm_text) = ctx.(user).(username) →
  delete_user jar ctx ctx.(user).(uid) form db
    = (Err (Internal ForeignKeyViolation), erased ctx.(user).(uid) db) ∧
  length (erased ctx.(user).(uid) db).(audit_log) = length db.(audit_log).
Proof.
  intros [Hu _] Hp Hv Hc Ht. split; [|cbn; by rewrite length_fmap].
  destruct (delete_user jar ctx (uid (user ctx)) form db) as [r db'] eqn:Hrun.
  assert (ensure ctx UsersDelete = Ok ()) as He by (unfold ensure; by rewrite (proj2 (has_true _ _) Hp)).
  assert (require_csrf jar form.(cf_csrf_token) = Ok ()) as Hcs by (unfold require_csrf; by rewrite Hv).
  assert (require_typed_confirmation form.(cf_confirm_text) ctx.(user).(username) = Ok ()) as Hty.
  { unfold require_typed_confirmation. by rewrite Ht, (proj2 (str_eqb_eq _ _) eq_refl). }
  assert (∀ e, (entry_of e).(user_id) = Some ctx.(user).(uid) →
    audit e (erased (uid (user ctx)) db) = Err ForeignKeyViolation) as Hfk.
  { intros e Hid. unfold audit. rewrite Hid. cbn. by rewrite lookup_delete_eq. }
  unfold delete_user, delete_user_row, find_user in Hrun.
  repeat (run_step; cbv beta zeta in *; rewrite ?Hc, ?Hu in *; simplify_eq; try congruence).
  - match goal with H : audit _ _ = Ok _ |- _ => by rewrite Hfk in H end.
  - match goal with H : audit _ _ = Err _ |- _ => rewrite Hfk in H by done end. by simplify_eq.
Qed.

(** The Super Admin of the fixture deletes their own account. *)
Lemma self_deletion_unaudited_witness :
  delete_user fix_jar (load fix_db root_user) 99 (mkConfirmForm #"tok" true #"root") fix_db
    = (Err (Internal ForeignKeyViolation), erased 99 fix_db).
Proof.
  apply (self_deletion_unaudited fix_db (load fix_db root_user) fix_jar
           (mkConfirmForm #"tok" true #"root")).
  - split; reflexivity.
  - apply (bool_decide_eq_true_1 _). vm_compute. reflexivity.
  - reflexivity.
  - reflexivity.
  - reflexivity.
Defined.
