(* ===== verification/AuditPages.v ===== *)
(** * Reading the audit log ([repo/audit.rs], [routes/audit.rs])

    The keyset pages of the viewer and the export in batches.  A row is an entry
    with its id and its time in microseconds; the table is a list of rows in no
    particular order. *)

From Stdlib Require Import NArith ZArith Lia.
From stdpp Require Import sorting.
From S2P Require Import Prelude Permission Json AuditLog RoleStore Web Delegation Agent.
From S2P Require Import TextLemmas.

Record LogRow := mkLogRow { row_id : rstr; occurred_at : Z; row_entry : AuditEntry }.

(** How the engine compares ids. *)
Class LogOrder := {
  id_leb : rstr → rstr → bool;
  id_leb_total : ∀ a b, id_leb a b || id_leb b a = true;
  id_leb_trans : ∀ a b c, id_leb a b = true → id_leb b c = true → id_leb a c = true }.

(** ** Cursors *)

Record AuditCursor := mkCursor { occurred_at_micros : Z; cursor_id : rstr }.

(** [i64::from_str]. *)
Definition parse_i64 (s : rstr) : option Z :=
  match s with
  | c :: digits =>
      if (c =? $"-")%N then
        if is_empty digits then None
        else n ← parse_digits digits 0; if (n <=? 2 ^ 63)%N then Some (- Z.of_N n)%Z else None
      else Z.of_N <$> parse_unsigned (2 ^ 63 - 1) s
  | [] => None
  end.

Definition cursor_of (r : LogRow) : AuditCursor := mkCursor (occurred_at r) (row_id r).
Definition encode_cursor (c : AuditCursor) : rstr := fmt_Z (occurred_at_micros c) ++ #"_" ++ cursor_id c.
Definition decode_cursor (s : rstr) : option AuditCursor :=
  '(micros, id) ← split_once $"_" s;
  at_ ← parse_i64 micros;
  Some (mkCursor at_ id).

Inductive CursorDirection : Set := Newer | Older.
#[export] Instance CursorDirection_eq_dec : EqDecision CursorDirection.
Proof. solve_decision. Defined.
Record KeysetPage := mkPage { items : list LogRow; newer_cursor : option rstr; older_cursor : option rstr }.
Record AuditFilter := mkFilter { f_action : option rstr; f_username : option rstr }.

Section pages.
Context `{Hord : !SqlOrder, Heng : !SqlEngine, Hlog : !LogOrder}.
(** The timestamps [chrono] can represent. *)
Context (chrono_ok : Z → bool).
(** [DateTime::to_rfc3339]. *)
Context (to_rfc3339 : Z → rstr).

(** [(occurred_at, id)] as a pair, compared as the queries compare it. *)
Abbreviation key := (Z * rstr)%type (only parsing).
Definition row_key (r : LogRow) : key := (occurred_at r, row_id r).
(** [AuditCursor::occurred_at]: what cannot be represented is the epoch. *)
Definition cursor_key (c : AuditCursor) : key :=
  (if chrono_ok (occurred_at_micros c) then occurred_at_micros c else 0%Z, cursor_id c).
Definition key_leb (a b : key) : bool := (a.1 <? b.1)%Z || (a.1 =? b.1)%Z && id_leb a.2 b.2.
Definition key_ltb (a b : key) : bool := (a.1 <? b.1)%Z || (a.1 =? b.1)%Z && negb (id_leb b.2 a.2).
Definition older_first (a b : LogRow) : bool := key_leb (row_key a) (row_key b).
Definition newest_row_first (a b : LogRow) : bool := key_leb (row_key b) (row_key a).

Definition row_matches (f : AuditFilter) (r : LogRow) : bool :=
  match f_action f with Some a => name_eqb (action (row_entry r)) a | None => true end
  && match f_username f with Some u => name_eqb (username_snapshot (row_entry r)) u | None => true end.

Definition list_keyset (log : list LogRow) (f : AuditFilter) (cursor : option AuditCursor) (direction : CursorDirection)
    (limit : nat) : KeysetPage :=
  let fetch_limit := limit + 1 in
  let paging_newer := bool_decide (is_Some cursor) && bool_decide (direction = Newer) in
  let rows :=
    match cursor with
    | None => take fetch_limit (order_by newest_row_first (List.filter (row_matches f) log))
    | Some c =>
        if negb paging_newer then
          take fetch_limit (order_by newest_row_first
            (List.filter (λ r, row_matches f r && key_ltb (row_key r) (cursor_key c)) log))
        else
          reverse (take fetch_limit (order_by older_first
            (List.filter (λ r, row_matches f r && key_ltb (cursor_key c) (row_key r)) log)))
    end in
  let has_more := limit <? length rows in
  let rows := if has_more then if paging_newer then tail rows else take limit rows else rows in
  let newer :=
    if bool_decide (rows = []) || bool_decide (cursor = None) then None
    else if paging_newer then if has_more then cursor_of <$> head rows else None
    else cursor_of <$> head rows in
  let older :=
    if bool_decide (rows = []) then None
    else if paging_newer then cursor_of <$> last rows
    else if has_more then cursor_of <$> last rows else None in
  mkPage rows (encode_cursor <$> newer) (encode_cursor <$> older).

(** [for_each_batch]: the batches handed to its callback.  The table as the n-th
    query finds it is [logs n]; [None] is running out of fuel. *)
Fixpoint for_each_batch (fuel : nat) (logs : nat → list LogRow) (f : AuditFilter) (batch_size : nat)
    (cursor : option AuditCursor) : option (list (list LogRow)) :=
  match fuel with
  | O => None
  | S fuel =>
      let batch := list_keyset (logs 0) f cursor Older batch_size in
      if bool_decide (items batch = []) then Some []
      else if bool_decide (older_cursor batch = None) then Some [items batch]
      else cons (items batch) <$> for_each_batch fuel (λ n, logs (S n)) f batch_size (cursor_of <$> last (items batch))
  end.

Lemma for_each_batch_ext fuel logs logs' f n c :
  (∀ i, logs i = logs' i) → for_each_batch fuel logs f n c = for_each_batch fuel logs' f n c.
Proof.
  revert logs logs' c. induction fuel as [|fuel IH]; intros logs logs' c H; cbn [for_each_batch]; [done|].
  rewrite H. repeat case_match; try done. f_equal. apply IH. intros i. apply H.
Qed.

(** ** [routes/audit.rs] *)

Definition PAGE_SIZE : nat := 25.
Definition EXPORT_BATCH_SIZE : nat := 500.
Definition build_filter (act : rstr) : AuditFilter := mkFilter (if is_empty (trim act) then None else Some (trim act)) None.

Record AuditQuery := mkAuditQuery { q_action : rstr; q_cursor : option rstr; q_dir : option rstr }.
(** The page a query shows; its two links carry the cursors. *)
Definition audit_list (ctx : AuthContext) (q : AuditQuery) (log : list LogRow) : result AppError KeysetPage :=
  match ensure ctx AuditView with
  | Err e => Err e
  | Ok _ =>
      let direction := match q_dir q with Some d => if str_eqb d #"newer" then Newer else Older | None => Older end in
      Ok (list_keyset log (build_filter (q_action q)) (q_cursor q ≫= decode_cursor) direction PAGE_SIZE)
  end.

(** [str::replace] of one character. *)
Definition replace_char (c : N) (new s : rstr) : rstr := concat ((λ x, if (x =? c)%N then new else [x]) <$> s).
Definition csv_escape (value : rstr) : rstr :=
  if contains value #"," || contains value [34%N] || contains value [10%N]
  then [34%N] ++ replace_char 34 [34; 34]%N value ++ [34%N]
  else value.

Definition CSV_HEADER : rstr := #"occurred_at,username,action,resource,result,source_ip,auth_method" ++ [10%N].
Definition csv_row (r : LogRow) : rstr :=
  let e := row_entry r in
  to_rfc3339 (occurred_at r) ++ #"," ++ csv_escape (username_snapshot e) ++ #"," ++ csv_escape (action e) ++ #","
  ++ csv_escape (default [] (resource e)) ++ #"," ++ csv_escape (outcome e) ++ #"," ++ csv_escape (default [] (source_ip e))
  ++ #"," ++ csv_escape (default [] (auth_method e)) ++ [10%N].

(** The file a download carries and the event it leaves in the log. *)
Definition audit_export (fuel : nat) (ctx : AuthContext) (act : rstr) (logs : nat → list LogRow) :
    option (result AppError (rstr * AuditEvent)) :=
  match ensure ctx AuditExport with
  | Err e => Some (Err e)
  | Ok _ =>
      batches ← for_each_batch fuel logs (build_filter act) EXPORT_BATCH_SIZE None;
      Some (Ok (fold_left (λ csv batch, fold_left (λ csv e, csv ++ csv_row e) batch csv) batches CSV_HEADER,
                with_resource #"audit_log_export" (with_actor (actor_of ctx) (new_event AuditAction.AuditExported Success))))
  end.

(** ** The order of the rows *)

Lemma key_leb_total a b : key_leb a b || key_leb b a.
Proof.
  unfold key_leb. destruct (Z.ltb_spec a.1 b.1) as [|H1]; [done|]. destruct (Z.ltb_spec b.1 a.1) as [|H2]; [by rewrite orb_true_r|].
  assert (a.1 = b.1) as -> by lia. rewrite Z.eqb_refl. cbn. apply Is_true_true, id_leb_total.
Qed.
Lemma key_leb_trans a b c : key_leb a b → key_leb b c → key_leb a c.
Proof.
  unfold key_leb. intros H1 H2. apply Is_true_true in H1, H2. apply Is_true_true.
  rewrite orb_true_iff, andb_true_iff, Z.ltb_lt, Z.eqb_eq in *.
  destruct H1 as [H1|[H1 H1']], H2 as [H2|[H2 H2']]; try (left; lia). right. split; [lia|]. by eapply id_leb_trans.
Qed.
Lemma key_ltb_negb a b : key_ltb a b = negb (key_leb b a).
Proof.
  unfold key_ltb, key_leb. rewrite negb_orb, negb_andb, (Z.eqb_sym b.1).
  destruct (Z.ltb_spec a.1 b.1), (Z.ltb_spec b.1 a.1), (Z.eqb_spec a.1 b.1); cbn; done || lia.
Qed.
Lemma key_ltb_leb a b : key_ltb a b → key_leb a b.
Proof.
  rewrite key_ltb_negb. intros H%negb_prop_elim. pose proof (key_leb_total a b) as [?|?]%orb_prop_elim; [done|by destruct H].
Qed.
Lemma key_leb_refl a : key_leb a a.
Proof. by destruct (orb_prop_elim _ _ (key_leb_total a a)). Qed.

(** A log in which no two rows share a place: what the primary key gives. *)
Definition apart (log : list LogRow) : Prop :=
  NoDup log ∧ ∀ x y, x ∈ log → y ∈ log → key_leb (row_key x) (row_key y) → key_leb (row_key y) (row_key x) → x = y.

(** The log as the viewer shows it: the matching rows, newest first. *)
Definition newest_first (f : AuditFilter) (log : list LogRow) : list LogRow :=
  order_by newest_row_first (List.filter (row_matches f) log).
Abbreviation descending := (StronglySorted (λ x y, Is_true (newest_row_first x y))) (only parsing).

Lemma newest_first_sorted f log : descending (newest_first f log).
Proof.
  apply order_by_sorted; intros *; unfold newest_row_first; [apply key_leb_total|].
  intros H1 H2. by eapply key_leb_trans.
Qed.
Lemma newest_first_perm f log : newest_first f log ≡ₚ List.filter (row_matches f) log.
Proof. apply order_by_perm. Qed.
Lemma elem_of_list_filter_b {A} (P : A → bool) l x : x ∈ List.filter P l ↔ x ∈ l ∧ P x.
Proof. rewrite !list_elem_of_In, filter_In, Is_true_true. done. Qed.
Lemma elem_of_newest_first f log x : x ∈ newest_first f log ↔ x ∈ log ∧ row_matches f x.
Proof. by rewrite newest_first_perm, elem_of_list_filter_b. Qed.
Lemma apart_sub log l : apart log → NoDup l → (∀ x, x ∈ l → x ∈ log) → apart l.
Proof. intros [_ H] Hl Hsub. split; [done|]. intros x y Hx Hy. eauto. Qed.
Lemma NoDup_list_filter {A} (P : A → bool) l : NoDup l → NoDup (List.filter P l).
Proof. rewrite !NoDup_ListNoDup. apply List.NoDup_filter. Qed.
Lemma apart_newest f log : apart log → apart (newest_first f log).
Proof.
  intros H. apply (apart_sub log); [done| |].
  - rewrite newest_first_perm. apply NoDup_list_filter, H.
  - by intros x [? ?]%elem_of_newest_first.
Qed.

(** A sorted arrangement of the selected rows is the one the engine returns. *)
Lemma newest_order_unique log l :
  apart l → descending l → log ≡ₚ l → order_by newest_row_first log = l.
Proof.
  intros Ha Hs Hp. apply (StronglySorted_unique_strong (λ x y, Is_true (newest_row_first x y))).
  - intros x y Hx Hy. rewrite order_by_perm, Hp in Hx. intros H1 H2. by apply Ha.
  - apply order_by_sorted; intros *; unfold newest_row_first; [apply key_leb_total|].
    intros H1 H2. by eapply key_leb_trans.
  - done.
  - by rewrite order_by_perm.
Qed.
Lemma oldest_order_unique log l :
  apart l → descending l → log ≡ₚ l → order_by older_first log = reverse l.
Proof.
  intros Ha Hs Hp. apply (StronglySorted_unique_strong (λ x y, Is_true (older_first x y))).
  - intros x y Hx Hy. rewrite order_by_perm, Hp in Hx. rewrite elem_of_reverse in Hy. intros H1 H2. by apply Ha.
  - apply order_by_sorted; intros *; unfold older_first; [apply key_leb_total|].
    intros H1 H2. by eapply key_leb_trans.
  - clear Ha Hp. induction l as [|x l IH]; [constructor|]. rewrite reverse_cons. inversion_clear Hs as [|?? Hl Hx].
    apply StronglySorted_app_2; [|by apply IH|repeat constructor].
    intros a b Ha ->%list_elem_of_singleton. rewrite elem_of_reverse in Ha. rewrite Forall_forall in Hx. by apply Hx.
  - by rewrite order_by_perm, Hp, reverse_Permutation.
Qed.

(** Around a row of a sorted log: what is older follows it, what is newer
    precedes it. *)
Lemma filter_all {A} (P : A → bool) l : (∀ x, x ∈ l → P x) → List.filter P l = l.
Proof.
  induction l as [|a l IH]; intros H; cbn; [done|]. pose proof (H a ltac:(set_solver)) as E. apply Is_true_true in E.
  rewrite E, IH; [done|]. set_solver.
Qed.
Lemma filter_none {A} (P : A → bool) l : (∀ x, x ∈ l → ¬ P x) → List.filter P l = [].
Proof.
  induction l as [|a l IH]; intros H; cbn; [done|]. pose proof (H a ltac:(set_solver)) as E.
  destruct (P a); [by destruct E|]. apply IH. set_solver.
Qed.
Lemma around_row pre r post :
  apart (pre ++ r :: post) → descending (pre ++ r :: post) →
  (∀ x, x ∈ pre → key_ltb (row_key r) (row_key x)) ∧ (∀ x, x ∈ post → key_ltb (row_key x) (row_key r)).
Proof.
  intros [Hn Ha] Hs. apply NoDup_app in Hn as (_ & Hd & Hn). apply NoDup_cons in Hn as [Hr Hn].
  apply StronglySorted_app in Hs as (Hc & _ & Hs). inversion_clear Hs as [|?? _ Hf]. rewrite Forall_forall in Hf.
  split; intros x Hx; rewrite key_ltb_negb; apply negb_prop_intro; intros Hle.
  - apply (Hd x Hx). assert (x = r) as -> by (apply Ha; [set_solver..|done|]; apply (Hc x r Hx); set_solver). set_solver.
  - apply Hr. assert (x = r) as <- by (apply Ha; [set_solver..| |done]; by apply Hf). done.
Qed.
Lemma older_rows pre r post :
  apart (pre ++ r :: post) → descending (pre ++ r :: post) →
  List.filter (λ x, key_ltb (row_key x) (row_key r)) (pre ++ r :: post) = post.
Proof.
  intros Ha Hs. destruct (around_row _ _ _ Ha Hs) as [H1 H2]. rewrite List.filter_app. cbn [List.filter].
  rewrite (filter_none _ pre), (key_ltb_negb (row_key r)), (Is_true_true_1 _ (key_leb_refl (row_key r))); [by apply filter_all|].
  intros x Hx. specialize (H1 x Hx). rewrite key_ltb_negb. intros E%negb_prop_elim. by apply E, key_ltb_leb.
Qed.
Lemma newer_rows pre r post :
  apart (pre ++ r :: post) → descending (pre ++ r :: post) →
  List.filter (λ x, key_ltb (row_key r) (row_key x)) (pre ++ r :: post) = pre.
Proof.
  intros Ha Hs. destruct (around_row _ _ _ Ha Hs) as [H1 H2]. rewrite List.filter_app. cbn [List.filter].
  rewrite (filter_none _ post), (key_ltb_negb (row_key r)), (Is_true_true_1 _ (key_leb_refl (row_key r)));
    [cbn; rewrite app_nil_r; by apply filter_all|].
  intros x Hx. specialize (H2 x Hx). rewrite key_ltb_negb. intros E%negb_prop_elim. by apply E, key_ltb_leb.
Qed.

(** ** One page *)

(** A time the database holds: [chrono] represents it and it fits an [i64]. *)
Definition timely (r : LogRow) : Prop :=
  chrono_ok (occurred_at r) = true ∧ (- 2 ^ 63 ≤ occurred_at r < 2 ^ 63)%Z.

Lemma decode_encode_cursor r : timely r → decode_cursor (encode_cursor (cursor_of r)) = Some (cursor_of r).
Proof.
  intros [_ Hr]. unfold decode_cursor, encode_cursor. cbn [occurred_at_micros cursor_id cursor_of].
  assert ($"_" ∉ fmt_Z (occurred_at r)) as Hu.
  { unfold fmt_Z. destruct (_ <? _)%Z; [|apply underscore_free_fmt_N].
    rewrite elem_of_app. intros [H|H]; [by apply list_elem_of_singleton in H|by apply underscore_free_fmt_N in H]. }
  change (#"_" ++ row_id r) with ($"_" :: row_id r). rewrite split_once_intro by done. cbn.
  assert (parse_i64 (fmt_Z (occurred_at r)) = Some (occurred_at r)) as ->; [|done].
  unfold fmt_Z. destruct (Z.ltb_spec (occurred_at r) 0) as [Hneg|Hpos].
  - change (#"-" ++ ?x) with ($"-" :: x). cbn [parse_i64]. destruct (fmt_N_cons (Z.abs_N (occurred_at r))) as (c & s & E & _).
    rewrite N.eqb_refl, parse_fmt_N, E. cbn [is_empty mbind option_bind]. rewrite (proj2 (N.leb_le _ _)) by lia. f_equal. lia.
  - destruct (fmt_N_cons (Z.abs_N (occurred_at r))) as (c & s & E & Hc). rewrite E. cbn [parse_i64].
    assert ((c =? $"-")%N = false) as -> by (by apply N.eqb_neq; intros ->). rewrite <- E, parse_unsigned_fmt_N by lia. cbn. f_equal. lia.
Qed.

Lemma cursor_key_of r : timely r → cursor_key (cursor_of r) = row_key r.
Proof. intros [H _]. unfold cursor_key, cursor_of, row_key. cbn. by rewrite H. Qed.

Lemma filter_andb {A} (P Q : A → bool) l : List.filter (λ x, P x && Q x) l = List.filter Q (List.filter P l).
Proof. induction l as [|a l IH]; cbn; [done|]. destruct (P a); cbn; [|done]. by destruct (Q a); rewrite IH. Qed.
Lemma filter_Permutation_b {A} (P : A → bool) l k : l ≡ₚ k → List.filter P l ≡ₚ List.filter P k.
Proof.
  induction 1 as [|x l k _ IH|x y l|l k m _ IH1 _ IH2]; cbn; [done|by destruct (P x); rewrite IH| |by etrans].
  destruct (P x), (P y); try done. by constructor.
Qed.

Lemma select_older f log pre r post :
  apart log → timely r → newest_first f log = pre ++ r :: post →
  order_by newest_row_first (List.filter (λ x, row_matches f x && key_ltb (row_key x) (cursor_key (cursor_of r))) log) = post.
Proof.
  intros Hap Hr HL. rewrite cursor_key_of by done. pose proof (apart_newest f _ Hap) as Ha. pose proof (newest_first_sorted f log) as Hs.
  rewrite HL in Ha, Hs. apply newest_order_unique.
  - eapply apart_sub; [done| |set_solver]. destruct Ha as [[_ [_ [_ Hn]%NoDup_cons]]%NoDup_app _]. done.
  - apply StronglySorted_app_1_r in Hs. by inversion_clear Hs.
  - rewrite filter_andb, <- (older_rows _ _ _ Ha Hs), <- HL. apply filter_Permutation_b. by rewrite newest_first_perm.
Qed.
Lemma select_newer f log pre r post :
  apart log → timely r → newest_first f log = pre ++ r :: post →
  order_by older_first (List.filter (λ x, row_matches f x && key_ltb (cursor_key (cursor_of r)) (row_key x)) log) = reverse pre.
Proof.
  intros Hap Hr HL. rewrite cursor_key_of by done. pose proof (apart_newest f _ Hap) as Ha. pose proof (newest_first_sorted f log) as Hs.
  rewrite HL in Ha, Hs. apply oldest_order_unique.
  - eapply apart_sub; [done| |set_solver]. by destruct Ha as [[Hn _]%NoDup_app _].
  - by apply StronglySorted_app_1_l in Hs.
  - rewrite filter_andb, <- (newer_rows _ _ _ Ha Hs), <- HL. apply filter_Permutation_b. by rewrite newest_first_perm.
Qed.

(** The link a page carries when there is more. *)
Definition link (more : bool) (r : option LogRow) : option rstr :=
  if more then encode_cursor ∘ cursor_of <$> r else None.

Lemma probe_more {A} (l : list A) n : (n <? length (take (n + 1) l)) = (n <? length l).
Proof. rewrite length_take. destruct (Nat.ltb_spec n (length l)); [apply Nat.ltb_lt|apply Nat.ltb_ge]; lia. Qed.
Lemma probe_trim {A} (l : list A) n : (if n <? length l then take n (take (n + 1) l) else take (n + 1) l) = take n l.
Proof.
  destruct (Nat.ltb_spec n (length l)); [rewrite take_take; f_equal; lia|]. by rewrite !take_ge by lia.
Qed.
Lemma probe_trim_newer {A} (l : list A) n :
  (if n <? length l then tail (reverse (take (n + 1) (reverse l))) else reverse (take (n + 1) (reverse l))) =
  drop (length l - n) l.
Proof.
  rewrite take_reverse, reverse_involutive. destruct (Nat.ltb_spec n (length l)).
  - change (drop 1 (drop (length l - (n + 1)) l) = drop (length l - n) l). rewrite drop_drop. f_equal. lia.
  - f_equal. lia.
Qed.
Lemma link_nil (b : bool) (l : list LogRow) :
  encode_cursor <$> (if bool_decide (l = []) then None else if b then cursor_of <$> last l else None) = link b (last l).
Proof. unfold link. destruct l as [|x l]; [by destruct b|]. cbn [bool_decide decide_rel]. case_bool_decide; [done|]. destruct b; [|done]. by destruct (last _). Qed.

Lemma first_page log f d n (L := newest_first f log) :
  list_keyset log f None d n = mkPage (take n L) None (link (n <? length L) (last (take n L))).
Proof.
  unfold list_keyset. fold (newest_first f log). fold L. rewrite (bool_decide_false (is_Some None)) by (by intros []).
  rewrite (bool_decide_true (None = None)), orb_true_r by done. cbn [andb].
  by rewrite probe_more, probe_trim, link_nil.
Qed.
Lemma older_page log f n pre r post :
  apart log → timely r → newest_first f log = pre ++ r :: post →
  list_keyset log f (Some (cursor_of r)) Older n =
  mkPage (take n post) (link true (head (take n post))) (link (n <? length post) (last (take n post))).
Proof.
  intros Ha Hr HL. unfold list_keyset. rewrite (bool_decide_false (Older = Newer)), andb_false_r by done. cbn [negb].
  rewrite (select_older _ _ _ _ _ Ha Hr HL), probe_more, probe_trim, link_nil. f_equal.
  rewrite (bool_decide_false (Some _ = None)), orb_false_r by done. by destruct (take n post).
Qed.
Lemma link_newer_nil (b : bool) (l : list LogRow) :
  encode_cursor <$> (if bool_decide (l = []) then None else if b then cursor_of <$> head l else None) = link b (head l).
Proof. unfold link. case_bool_decide as E; [rewrite E|]; destruct b, (head l); done. Qed.
Lemma newer_page log f n pre r post :
  apart log → timely r → newest_first f log = pre ++ r :: post →
  list_keyset log f (Some (cursor_of r)) Newer n =
  mkPage (drop (length pre - n) pre) (link (n <? length pre) (head (drop (length pre - n) pre)))
    (link true (last (drop (length pre - n) pre))).
Proof.
  intros Ha Hr HL. unfold list_keyset. rewrite (bool_decide_true (is_Some (Some _))), (bool_decide_true (Newer = Newer)) by (eauto || done).
  cbn [negb andb]. rewrite (select_newer _ _ _ _ _ Ha Hr HL), length_reverse, probe_more, length_reverse, probe_trim_newer.
  rewrite (bool_decide_false (Some _ = None)), orb_false_r by done. f_equal; [apply link_newer_nil|].
  unfold link. case_bool_decide as E; [by rewrite E|]. by destruct (last _).
Qed.

(** ** Browsing while the log grows *)

(** Rows written after [log] was read: all of them newer than what it holds. *)
Definition appended (log log' : list LogRow) : Prop :=
  apart log' ∧ ∃ extra, log' ≡ₚ extra ++ log ∧ ∀ x y, x ∈ extra → y ∈ log → key_ltb (row_key y) (row_key x).

Lemma appended_newest f log log' :
  apart log → appended log log' → ∃ new, newest_first f log' = new ++ newest_first f log.
Proof.
  intros Ha [Ha' (extra & Hp & Hn)]. exists (newest_first f extra). apply newest_order_unique.
  - apply (apart_sub log'); [done| |].
    + destruct Ha' as [Hnd _]. rewrite !newest_first_perm, <- List.filter_app. apply NoDup_list_filter. by rewrite <- Hp.
    + intros x. rewrite elem_of_app, !elem_of_newest_first, Hp. rewrite elem_of_app. tauto.
  - apply StronglySorted_app_2; [|apply newest_first_sorted..].
    intros x y Hx Hy. apply elem_of_newest_first in Hx as [? _], Hy as [? _]. apply key_ltb_leb. by apply Hn.
  - rewrite !newest_first_perm, <- List.filter_app. by apply filter_Permutation_b.
Qed.

(** A log that is read again and again while rows are appended to it. *)
Definition grows (logs : nat → list LogRow) : Prop :=
  apart (logs 0) ∧ (∀ j, appended (logs 0) (logs j)) ∧ ∀ r, r ∈ logs 0 → timely r.

Lemma take_last_split {A} (l : list A) n :
  0 < n → n < length l → ∃ x, last (take n l) = Some x ∧ l = take (n - 1) l ++ x :: drop n l.
Proof.
  intros H0 Hn. destruct (lookup_lt_is_Some_2 l (n - 1) ltac:(lia)) as [x Hx]. exists x.
  pose proof (take_drop_middle _ _ _ Hx) as Hm. replace (S (n - 1)) with n in Hm by lia.
  split; [|done]. replace n with (S (n - 1)) by lia. by rewrite (take_S_r _ _ _ Hx), last_snoc.
Qed.

(** What a reader further down the log sees is unchanged. *)
Lemma grown_split f logs j pre r post :
  grows logs → newest_first f (logs 0) = pre ++ r :: post →
  apart (logs j) ∧ timely r ∧ ∃ new, newest_first f (logs j) = (new ++ pre) ++ r :: post.
Proof.
  intros (Ha & Hg & Ht) HL. split; [apply Hg|]. split.
  - apply Ht. assert (r ∈ newest_first f (logs 0)) as [? _]%elem_of_newest_first; [rewrite HL; set_solver|done].
  - destruct (appended_newest f _ _ Ha (Hg j)) as [new Hn]. exists new. by rewrite Hn, HL, app_assoc.
Qed.

Lemma batches_below f logs n fuel j pre r post :
  grows logs → 0 < n → newest_first f (logs 0) = pre ++ r :: post → length post < fuel →
  ∃ bs, for_each_batch fuel (λ i, logs (j + i)) f n (Some (cursor_of r)) = Some bs ∧ concat bs = post
    ∧ Forall (λ b, 0 < length b ≤ n) bs.
Proof.
  intros Hg Hn. revert j pre r post. induction fuel as [|fuel IH]; intros j pre r post HL Hf; [lia|]. cbn [for_each_batch].
  destruct (grown_split f logs (j + 0) _ _ _ Hg HL) as (Ha & Hr & new & Hj).
  rewrite (older_page _ _ _ _ _ _ Ha Hr Hj). cbn [items older_cursor].
  case_bool_decide as Hnil.
  { exists []. split; [done|]. destruct post; [by split|]. by destruct n; [lia|]. }
  destruct (Nat.ltb_spec n (length post)) as [Hlt|Hge].
  - destruct (take_last_split post n Hn Hlt) as (x & Hx & Hsplit). rewrite Hx. cbn [link compose fmap option_fmap option_map].
    case_bool_decide; [done|].
    destruct (IH (S j) (pre ++ r :: take (n - 1) post) x (drop n post)) as (bs & E & Hc & Hb).
    { rewrite HL, Hsplit at 1. by rewrite <- app_assoc. }
    { rewrite length_drop. lia. }
    exists (take n post :: bs). split; [|split; [cbn; rewrite Hc; apply take_drop|]].
    + rewrite (for_each_batch_ext _ _ (λ i, logs (S j + i))), E; [done|]. intros i. f_equal. lia.
    + constructor; [|done]. rewrite length_take. lia.
  - cbn [link]. rewrite bool_decide_true by done. exists [take n post]. rewrite take_ge in * by done. cbn. rewrite app_nil_r.
    split; [done|]. split; [done|]. repeat constructor; [|done]. destruct post; [done|cbn; lia].
Qed.

(** Every row of the log as it was when the export began, in batches. *)
Lemma batches_exact f logs n fuel :
  grows logs → 0 < n → length (newest_first f (logs 0)) < fuel →
  ∃ bs, for_each_batch fuel logs f n None = Some bs ∧ concat bs = newest_first f (logs 0)
    ∧ Forall (λ b, 0 < length b ≤ n) bs.
Proof.
  intros Hg Hn Hf. destruct fuel as [|fuel]; [lia|]. cbn [for_each_batch]. rewrite first_page. cbn [items older_cursor].
  set (L := newest_first f (logs 0)) in *. case_bool_decide as Hnil.
  { exists []. split; [done|]. destruct L; [by split|]. by destruct n; [lia|]. }
  destruct (Nat.ltb_spec n (length L)) as [Hlt|Hge].
  - destruct (take_last_split L n Hn Hlt) as (x & Hx & Hsplit). rewrite Hx. cbn [link compose fmap option_fmap option_map].
    case_bool_decide; [done|].
    destruct (batches_below f logs n fuel 1 (take (n - 1) L) x (drop n L) Hg Hn Hsplit) as (bs & E & Hc & Hb).
    { rewrite length_drop. lia. }
    exists (take n L :: bs). rewrite (for_each_batch_ext _ _ (λ i, logs (1 + i))), E by done.
    split; [done|]. split; [cbn; rewrite Hc; apply take_drop|]. constructor; [|done]. rewrite length_take. lia.
  - cbn [link]. rewrite bool_decide_true by done. exists [take n L]. rewrite take_ge in * by done. cbn. rewrite app_nil_r.
    split; [done|]. split; [done|]. repeat constructor; [|done]. destruct L; [done|cbn; lia].
Qed.

(** ** Reading the file back *)

Inductive CsvState : Set := FieldStart | Bare | Quoted | AfterQuote.
(** A reader of quoted, comma-separated lines. *)
Fixpoint csv_read (st : CsvState) (cur : rstr) (row : list rstr) (s : rstr) : list (list rstr) :=
  match s with
  | [] => match st, row with FieldStart, [] => [] | _, _ => [row ++ [cur]] end
  | c :: s =>
      match st with
      | Quoted => if (c =? 34)%N then csv_read AfterQuote cur row s else csv_read Quoted (cur ++ [c]) row s
      | _ =>
          if (c =? 44)%N then csv_read FieldStart [] (row ++ [cur]) s
          else if (c =? 10)%N then (row ++ [cur]) :: csv_read FieldStart [] [] s
          else match st with
               | FieldStart => if (c =? 34)%N then csv_read Quoted [] row s else csv_read Bare (cur ++ [c]) row s
               | AfterQuote => if (c =? 34)%N then csv_read Quoted (cur ++ [34%N]) row s else csv_read Bare (cur ++ [c]) row s
               | _ => csv_read Bare (cur ++ [c]) row s
               end
      end
  end.
Definition read_csv : rstr → list (list rstr) := csv_read FieldStart [] [].

Definition plain (c : N) : Prop := c ≠ 44%N ∧ c ≠ 34%N ∧ c ≠ 10%N.
(** What ends a field. *)
Definition field_end (t : N) (v : rstr) (row : list rstr) (rest : rstr) : list (list rstr) :=
  if (t =? 44)%N then csv_read FieldStart [] (row ++ [v]) rest else (row ++ [v]) :: csv_read FieldStart [] [] rest.

Lemma read_end st t cur row rest :
  st ≠ Quoted → t = 44%N ∨ t = 10%N → csv_read st cur row (t :: rest) = field_end t cur row rest.
Proof. intros Hst [->| ->]; by destruct st. Qed.
Lemma read_bare st v t cur row rest :
  (st = FieldStart ∧ cur = []) ∨ st = Bare → Forall plain v → t = 44%N ∨ t = 10%N →
  csv_read st cur row (v ++ t :: rest) = field_end t (cur ++ v) row rest.
Proof.
  intros Hst Hv Ht. revert st cur Hst. induction Hv as [|c v (H1 & H2 & H3) _ IH]; intros st cur Hst.
  - rewrite app_nil_r. apply read_end; [|done]. by destruct Hst as [[-> _]| ->].
  - cbn [app csv_read]. apply N.eqb_neq in H1, H2, H3. rewrite H1, H2, H3.
    replace (cur ++ c :: v) with ((cur ++ [c]) ++ v) by by rewrite <- app_assoc.
    destruct Hst as [[-> ->]| ->]; apply IH; by right.
Qed.
Lemma read_quoted v t cur row rest :
  t = 44%N ∨ t = 10%N →
  csv_read Quoted cur row (replace_char 34 [34; 34]%N v ++ 34%N :: t :: rest) = field_end t (cur ++ v) row rest.
Proof.
  intros Ht. revert cur. induction v as [|c v IH]; intros cur.
  - rewrite app_nil_r. change (csv_read AfterQuote cur row (t :: rest) = field_end t cur row rest). by apply read_end.
  - replace (cur ++ c :: v) with ((cur ++ [c]) ++ v) by by rewrite <- app_assoc. rewrite <- IH.
    unfold replace_char. cbn [fmap list_fmap concat]. destruct (N.eqb_spec c 34) as [->|Hc]; cbn; [done|].
    apply N.eqb_neq in Hc. by rewrite Hc.
Qed.
Lemma contains_one_false s c : contains s [c] = false → c ∉ s.
Proof.
  intros H Hc. apply not_true_iff_false in H. apply H, contains_true. apply list_elem_of_split in Hc as (l & r & ->). by exists l, r.
Qed.
Lemma read_escaped v t row rest :
  t = 44%N ∨ t = 10%N → csv_read FieldStart [] row (csv_escape v ++ t :: rest) = field_end t v row rest.
Proof.
  intros Ht. unfold csv_escape. destruct (_ || _) eqn:E.
  - rewrite <- !app_assoc. change (csv_read Quoted [] row (replace_char 34 [34; 34]%N v ++ 34%N :: t :: rest) = field_end t v row rest).
    by rewrite read_quoted.
  - rewrite !orb_false_iff in E. destruct E as [[H1%contains_one_false H2%contains_one_false] H3%contains_one_false].
    rewrite read_bare; [done|by left| |done]. apply Forall_forall. intros c Hc. repeat split; intros ->; set_solver.
Qed.

(** The seven columns of a row. *)
Definition columns (r : LogRow) : list rstr :=
  let e := row_entry r in
  [to_rfc3339 (occurred_at r); username_snapshot e; action e; default [] (resource e); outcome e; default [] (source_ip e);
   default [] (auth_method e)].
Definition HEADER_COLUMNS : list rstr :=
  [ #"occurred_at"; #"username"; #"action"; #"resource"; #"result"; #"source_ip"; #"auth_method"].

Lemma read_row r rest :
  Forall plain (to_rfc3339 (occurred_at r)) → read_csv (csv_row r ++ rest) = columns r :: read_csv rest.
Proof.
  intros Hp. unfold read_csv, csv_row. rewrite <- !app_assoc. change #"," with [44%N]. cbn [app].
  rewrite read_bare by (auto || by left). unfold field_end at 1. cbn [N.eqb Pos.eqb app].
  do 5 (rewrite read_escaped by (by left); unfold field_end at 1; cbn [N.eqb Pos.eqb app]).
  rewrite read_escaped by by right. done.
Qed.
Lemma read_rows rs :
  (∀ t, Forall plain (to_rfc3339 t)) → read_csv (CSV_HEADER ++ concat (csv_row <$> rs)) = HEADER_COLUMNS :: (columns <$> rs).
Proof.
  intros Hp. transitivity (HEADER_COLUMNS :: read_csv (concat (csv_row <$> rs))); [done|]. f_equal.
  induction rs as [|r rs IH]; [done|]. cbn [fmap list_fmap concat]. by rewrite read_row, IH.
Qed.
Lemma written_batches bs csv :
  fold_left (λ csv batch, fold_left (λ csv e, csv ++ csv_row e) batch csv) bs csv = csv ++ concat (csv_row <$> concat bs).
Proof.
  revert csv. induction bs as [|b bs IH]; intros csv; cbn [fold_left concat]; [by rewrite app_nil_r|].
  rewrite IH, fmap_app, concat_app, app_assoc. f_equal. clear. revert csv.
  induction b as [|r b IH]; intros csv; cbn; [by rewrite app_nil_r|]. by rewrite IH, app_assoc.
Qed.

(** C20: The audit export returns, and reading its file back gives every matching row of the log as it was when the
    export began, newest first, each with its own seven columns whatever its texts contain, though rows are
    appended while it runs; its batches hold at most 500 rows each. *)
Theorem audit_export_complete fuel ctx act logs :
  ensure ctx AuditExport = Ok () → grows logs → (∀ t, Forall plain (to_rfc3339 t)) → length (logs 0) < fuel →
  ∃ bs csv, for_each_batch fuel logs (build_filter act) EXPORT_BATCH_SIZE None = Some bs
    ∧ Forall (λ b, 0 < length b ≤ 500) bs
    ∧ audit_export fuel ctx act logs =
        Some (Ok (csv, with_resource #"audit_log_export" (with_actor (actor_of ctx) (new_event AuditAction.AuditExported Success))))
    ∧ read_csv csv = HEADER_COLUMNS :: (columns <$> newest_first (build_filter act) (logs 0)).
Proof.
  intros Hp Hg Ht Hf. destruct (batches_exact (build_filter act) logs EXPORT_BATCH_SIZE fuel Hg) as (bs & E & Hc & Hb).
  { unfold EXPORT_BATCH_SIZE. lia. }
  { rewrite newest_first_perm. eapply Nat.le_lt_trans; [apply List.filter_length_le|done]. }
  exists bs, (CSV_HEADER ++ concat (csv_row <$> concat bs)). split; [done|]. split; [done|].
  unfold audit_export. rewrite Hp, E. cbn [mbind option_bind]. rewrite written_batches, Hc. split; [done|]. by apply read_rows.
Qed.

(** ** Following the links *)

(** The page a series of clicks leads to, the last click first; the log is read
    once per click. *)
Fixpoint visit (ctx : AuthContext) (act : rstr) (logs : nat → list LogRow) (clicks : list CursorDirection) : option KeysetPage :=
  let page q := match audit_list ctx q (logs (length clicks)) with Ok p => Some p | Err _ => None end in
  match clicks with
  | [] => page (mkAuditQuery act None None)
  | Older :: clicks =>
      p ← visit ctx act logs clicks; cursor ← older_cursor p; page (mkAuditQuery act (Some cursor) (Some #"older"))
  | Newer :: clicks =>
      p ← visit ctx act logs clicks; cursor ← newer_cursor p; page (mkAuditQuery act (Some cursor) (Some #"newer"))
  end.
(** Where the clicks lead among [total] rows in runs of 25: one run further down
    or up, never past the last row or above the first. *)
Fixpoint position (total : nat) (clicks : list CursorDirection) : option nat :=
  match clicks with
  | [] => Some 0
  | Older :: clicks => k ← position total clicks; if S k * 25 <? total then Some (S k) else None
  | Newer :: clicks => k ← position total clicks; match k with 0 => None | S k => Some k end
  end.
(** The matching rows when the first page is read. *)
Definition shown (act : rstr) (logs : nat → list LogRow) : list LogRow := newest_first (build_filter act) (logs 0).
(** The [k]-th run of 25 rows. *)
Definition slice (l : list LogRow) (k : nat) : list LogRow := take PAGE_SIZE (drop (k * PAGE_SIZE) l).

Lemma slice_split (l : list LogRow) k :
  S k * PAGE_SIZE < length l →
  ∃ pre r, last (slice l k) = Some r ∧ l = pre ++ r :: drop (S k * PAGE_SIZE) l.
Proof.
  intros Hk. destruct (take_last_split (drop (k * PAGE_SIZE) l) PAGE_SIZE) as (r & Hr & Hs).
  { unfold PAGE_SIZE. lia. }
  { rewrite length_drop. lia. }
  exists (take (k * PAGE_SIZE) l ++ take (PAGE_SIZE - 1) (drop (k * PAGE_SIZE) l)), r. split; [done|].
  rewrite <- app_assoc. replace (S k * PAGE_SIZE) with (PAGE_SIZE + k * PAGE_SIZE) by lia.
  rewrite Nat.add_comm, <- drop_drop, <- Hs. symmetry. apply take_drop.
Qed.

(** Whether the log has rows above the run the clicks lead to. *)
Definition more_above (act : rstr) (logs : nat → list LogRow) (clicks : list CursorDirection) (k : nat) : bool :=
  negb (k =? 0) ||
  bool_decide (clicks ≠ []) && (length (shown act logs) <? length (newest_first (build_filter act) (logs (length clicks)))).

Lemma slice_head (l : list LogRow) k r : l !! (k * PAGE_SIZE) = Some r → head (slice l k) = Some r.
Proof. intros Hr. unfold slice. by rewrite (drop_S _ _ _ Hr). Qed.

(** The rows before the first one of a run, [new] of them appended since. *)
Lemma above_run ctx act logs j k r (L := shown act logs) :
  ensure ctx AuditView = Ok () → grows logs → L !! (k * PAGE_SIZE) = Some r →
  timely r ∧ ∃ new, newest_first (build_filter act) (logs j) = new ++ L ∧
    audit_list ctx (mkAuditQuery act (Some (encode_cursor (cursor_of r))) (Some #"newer")) (logs j) =
    let above := new ++ take (k * PAGE_SIZE) L in let page := drop (length above - PAGE_SIZE) above in
    Ok (mkPage page (link (PAGE_SIZE <? length above) (head page)) (link true (last page))).
Proof.
  intros He Hg Hr. pose proof (take_drop_middle _ _ _ Hr) as Hm. symmetry in Hm.
  destruct (grown_split _ logs j _ _ _ Hg Hm) as (Ha & Ht & new & Hj). split; [done|]. exists new. split.
  - rewrite Hj, <- app_assoc. f_equal. symmetry. exact Hm.
  - unfold audit_list. rewrite He. cbn [q_dir q_cursor q_action mbind option_bind].
    rewrite decode_encode_cursor by done. change (str_eqb #"newer" #"newer") with true. cbn match. cbv zeta.
    by rewrite (newer_page _ _ _ _ _ _ Ha Ht Hj).
Qed.
Lemma run_above (new L : list LogRow) k :
  S k * PAGE_SIZE ≤ length L →
  drop (length (new ++ take (S k * PAGE_SIZE) L) - PAGE_SIZE) (new ++ take (S k * PAGE_SIZE) L) = slice L k.
Proof.
  intros Hk. assert (length (take (S k * PAGE_SIZE) L) = S k * PAGE_SIZE) as El by (rewrite length_take; lia).
  rewrite length_app, El. replace (length new + S k * PAGE_SIZE - PAGE_SIZE) with (length new + k * PAGE_SIZE) by lia.
  rewrite drop_app_add'; [|done]. rewrite skipn_firstn_comm. unfold slice. f_equal. lia.
Qed.

(** The page the clicks lead to, with its links. *)
Lemma visit_page ctx act logs clicks k (L := shown act logs) :
  ensure ctx AuditView = Ok () → grows logs → 0 < length L → position (length L) clicks = Some k →
  k * PAGE_SIZE < length L ∧
  visit ctx act logs clicks =
  Some (mkPage (slice L k) (link (more_above act logs clicks k) (head (slice L k)))
          (link (S k * PAGE_SIZE <? length L) (last (slice L k)))).
Proof.
  intros He Hg H0. revert k. induction clicks as [|[] clicks IH]; intros k; cbn [position visit].
  - intros [= <-]. split; [done|]. unfold audit_list. rewrite He. cbn [q_dir q_cursor q_action length].
    rewrite first_page. unfold more_above, slice. by rewrite Nat.mul_1_l.
  - intros ([|k'] & Hk & [=])%bind_Some. subst k'. destruct (IH _ Hk) as [Hlt ->]. split; [lia|].
    destruct (lookup_lt_is_Some_2 L (S k * PAGE_SIZE) Hlt) as [r Hr].
    cbn [mbind option_bind newer_cursor]. rewrite (slice_head _ _ _ Hr). cbn [more_above Nat.eqb negb orb link compose fmap option_fmap option_map mbind option_bind].
    destruct (above_run ctx act logs (length (Newer :: clicks)) (S k) r He Hg Hr) as (_ & new & Hnew & ->). fold L in Hnew |- *. cbv zeta.
    rewrite run_above by lia. assert (length (take (S k * PAGE_SIZE) L) = S k * PAGE_SIZE) as El by (rewrite length_take; lia).
    rewrite length_app, El, (proj2 (Nat.ltb_lt _ _) Hlt). do 3 f_equal. unfold more_above. fold L. rewrite Hnew, length_app.
    rewrite (bool_decide_true (_ :: _ ≠ [])) by done. apply Bool.eq_iff_eq_true.
    cbn [andb]. rewrite orb_true_iff, negb_true_iff, !Nat.ltb_lt, Nat.eqb_neq. unfold PAGE_SIZE in *. lia.
  - intros (k' & Hk & Hb)%bind_Some. destruct (Nat.ltb_spec (S k' * 25) (length L)) as [Hlt|]; [|done]. injection Hb as <-.
    destruct (IH _ Hk) as [_ ->]. split; [done|]. change (S k' * PAGE_SIZE < length L) in Hlt.
    cbn [mbind option_bind older_cursor]. destruct (slice_split L k' Hlt) as (pre & r & Hr & HL).
    destruct (grown_split _ logs (length (Older :: clicks)) _ _ _ Hg HL) as (Ha & Ht & new & Hj).
    rewrite (proj2 (Nat.ltb_lt _ _) Hlt), Hr. cbn [link compose fmap option_fmap option_map mbind option_bind].
    unfold audit_list. rewrite He. cbn [q_dir q_cursor q_action mbind option_bind].
    rewrite decode_encode_cursor by done. change (str_eqb #"older" #"newer") with false. cbn match.
    rewrite (older_page _ _ _ _ _ _ Ha Ht Hj), length_drop. do 2 f_equal.
    replace (PAGE_SIZE <? length L - S k' * PAGE_SIZE) with (S (S k') * PAGE_SIZE <? length L); [done|].
    apply Bool.eq_iff_eq_true. rewrite !Nat.ltb_lt. lia.
Qed.
Lemma slice_ends (L : list LogRow) k : k * PAGE_SIZE < length L → is_Some (head (slice L k)) ∧ is_Some (last (slice L k)).
Proof.
  intros Hk. destruct (lookup_lt_is_Some_2 L (k * PAGE_SIZE) Hk) as [r Hr]. pose proof (slice_head _ _ _ Hr) as Hh.
  destruct (slice L k) as [|x l]; [done|]. split; [by eexists|]. apply last_is_Some. done.
Qed.

(** C21: Browsing the audit log by its links is browsing the list of matching rows
    by offset, as it was when the first page was read, though rows are appended
    meanwhile.  Whatever clicks on Older and Newer led there, k runs of 25 rows
    further down, the page shows the k-th run; its Older link is there exactly when
    rows remain below it, its Newer link exactly when there are rows above it, on
    the first run those appended since; and Newer on the first run shows the last
    25 of these. *)
Theorem audit_links_are_offsets ctx act logs clicks k :
  ensure ctx AuditView = Ok () → grows logs → 0 < length (shown act logs) →
  position (length (shown act logs)) clicks = Some k →
  ∃ p, visit ctx act logs clicks = Some p ∧ items p = slice (shown act logs) k
    ∧ (older_cursor p = None ↔ length (shown act logs) ≤ S k * 25)
    ∧ (newer_cursor p = None ↔
         k = 0 ∧ (clicks = [] ∨
                  length (newest_first (build_filter act) (logs (length clicks))) = length (shown act logs)))
    ∧ ∀ s j, k = 0 → newer_cursor p = Some s →
        ∃ p' new, audit_list ctx (mkAuditQuery act (Some s) (Some #"newer")) (logs j) = Ok p'
          ∧ newest_first (build_filter act) (logs j) = new ++ shown act logs ∧ items p' = drop (length new - 25) new.
Proof.
  set (L := shown act logs). intros He Hg H0 Hpos.
  destruct (visit_page ctx act logs clicks k He Hg H0 Hpos) as [Hk Hv]. fold L in Hk, Hv.
  destruct (slice_ends L k Hk) as [[x Hx] [y Hy]]. rewrite Hx, Hy in Hv.
  eexists. split; [exact Hv|]. cbn [items older_cursor newer_cursor]. split; [done|]. split_and!.
  - unfold link. destruct (Nat.ltb_spec (S k * PAGE_SIZE) (length L)) as [Hlt|Hge]; unfold PAGE_SIZE in *; cbn; split; intros; lia || done.
  - assert (length L ≤ length (newest_first (build_filter act) (logs (length clicks)))) as Hle.
    { destruct (appended_newest (build_filter act) (logs 0) (logs (length clicks))) as [new ->]; [apply Hg|apply Hg|].
      rewrite length_app. unfold L, shown. lia. }
    unfold link, more_above. fold L. destruct (Nat.eqb_spec k 0) as [->|Hne]; cbn [negb orb]; [|split; [done|by intros [? _]]].
    case_bool_decide as Hc; cbn [andb].
    + destruct (Nat.ltb_spec (length L) (length (newest_first (build_filter act) (logs (length clicks))))) as [Hlt|Hge].
      * split; [done|]. intros [_ [->|?]]; [done|lia].
      * split; [|done]. intros _. split; [done|right; lia].
    + split; [|done]. intros _. split; [done|left]. by destruct clicks.
  - intros s j -> Hs. unfold link in Hs. destruct (more_above _ _ _ _); [|done]. injection Hs as <-.
    assert (L !! (0 * PAGE_SIZE) = Some x) as Hl.
    { destruct L as [|z l]; [done|]. cbn in Hx |- *. done. }
    destruct (above_run ctx act logs j 0 x He Hg Hl) as (_ & new & Hnew & Hp). eexists _, new. split; [exact Hp|].
    cbn [items]. split; [exact Hnew|]. by rewrite Nat.mul_0_l, take_0, app_nil_r.
Qed.
End pages.
