(* ===== verification/AuditSyslog.v ===== *)
(** * The audit trail sent to syslog ([audit_export.rs])

    The sweep tails [audit_log] from a watermark kept in the settings.  Each of
    its statements may fail; the failures of one tick are a parameter of it. *)

From Stdlib Require Import NArith ZArith Lia.
From stdpp Require Import sorting gmap.
From S2P Require Import Prelude Permission Json TextLemmas AuditLog RoleStore Web Delegation.
From S2P Require Import Users.
From S2P Require Import Agent Quarantine Fixture NacFixture AuditPages.

Definition AUDIT_SYSLOG_EXPORT_ENABLED : rstr := #"audit.syslog_export_enabled".
Definition AUDIT_SYSLOG_EXPORT_CURSOR : rstr := #"audit.syslog_export_cursor".
Definition BATCH_SIZE : nat := 500.

Inductive Severity : Set := Info | Warning | Critical.

(** The settings table, the log, and what was handed to the dispatcher. *)
Record Exporter := mkExporter {
  ex_settings : gmap rstr Value;
  ex_log : list LogRow;
  ex_sent : list (Severity * NotificationMessage) }.

(** The statements of one tick. *)
Inductive Statement : Set := GetEnabled | GetCursor | LatestCursor | ListAfter | SetCursor.

Section sweep.
Context `{Hord : !SqlOrder, Heng : !SqlEngine, Hlog : !LogOrder}.
Context (chrono_ok : Z → bool) (value_display : Value → rstr).

Definition latest_cursor (log : list LogRow) : option AuditCursor :=
  cursor_of <$> head (take 1 (order_by newest_row_first log)).
Definition list_after (log : list LogRow) (cursor : option AuditCursor) (limit : nat) : list LogRow :=
  match cursor with
  | None => take limit (order_by older_first log)
  | Some c => take limit (order_by older_first (List.filter (λ r, key_ltb (cursor_key chrono_ok c) (row_key r)) log))
  end.

Definition audit_message (r : LogRow) : Severity * NotificationMessage :=
  let e := row_entry r in
  (if str_eqb (outcome e) #"FAILURE" then Warning else Info,
   mkMessage (#"[Audit] " ++ action e)
     (#"actor=" ++ username_snapshot e ++ #" result=" ++ outcome e ++ #" resource=" ++ default #"-" (resource e)
      ++ #" source_ip=" ++ default #"-" (source_ip e)
      ++ default [] ((λ m, #" metadata=" ++ value_display m) <$> metadata e)) []).

Definition store_cursor (c : AuditCursor) (s : Exporter) : Exporter :=
  mkExporter (<[AUDIT_SYSLOG_EXPORT_CURSOR := Str (encode_cursor c)]> (ex_settings s)) (ex_log s) (ex_sent s).
Definition send_all (rows : list LogRow) (s : Exporter) : Exporter :=
  mkExporter (ex_settings s) (ex_log s) (ex_sent s ++ (audit_message <$> rows)).

Definition export_one_batch (fails : Statement → bool) (s : Exporter) : result () () * Exporter :=
  if fails GetCursor then (Err (), s)
  else
    let stored_cursor := default [] (ex_settings s !! AUDIT_SYSLOG_EXPORT_CURSOR ≫= as_str) in
    if is_empty stored_cursor then
      if fails LatestCursor then (Err (), s)
      else match latest_cursor (ex_log s) with
           | Some newest => if fails SetCursor then (Err (), s) else (Ok (), store_cursor newest s)
           | None => (Ok (), s)
           end
    else
      let cursor := decode_cursor stored_cursor in
      if fails ListAfter then (Err (), s)
      else
        let rows := list_after (ex_log s) cursor BATCH_SIZE in
        match last rows with
        | None => (Ok (), s)
        | Some last =>
            let s := send_all rows s in
            if fails SetCursor then (Err (), s) else (Ok (), store_cursor (cursor_of last) s)
        end.

(** One turn of [spawn_audit_syslog_sweep]'s loop. *)
Definition sweep_tick (fails : Statement → bool) (s : Exporter) : Exporter :=
  if fails GetEnabled then s
  else if match ex_settings s !! AUDIT_SYSLOG_EXPORT_ENABLED with Some (Bool b) => b | _ => false end
  then (export_one_batch fails s).2
  else s.

(** ** What the watermark means *)

(** The rows newer than [w], oldest first. *)
Definition newer_than (w : LogRow) (log : list LogRow) : list LogRow :=
  order_by older_first (List.filter (λ r, key_ltb (row_key w) (row_key r)) log).
Definition stored (s : Exporter) (w : LogRow) : Prop :=
  ex_settings s !! AUDIT_SYSLOG_EXPORT_CURSOR = Some (Str (encode_cursor (cursor_of w))).
Abbreviation ascending := (StronglySorted (λ x y, Is_true (key_ltb (row_key x) (row_key y)))) (only parsing).

Lemma elem_of_newer w log r : r ∈ newer_than w log ↔ r ∈ log ∧ key_ltb (row_key w) (row_key r).
Proof. unfold newer_than. by rewrite order_by_perm, elem_of_list_filter_b. Qed.
Lemma key_ltb_trans a b c : key_leb a b → key_ltb b c → key_ltb a c.
Proof.
  rewrite !key_ltb_negb. intros H1 H2%negb_prop_elim. apply negb_prop_intro. intros H3. apply H2. by eapply key_leb_trans.
Qed.
Lemma key_ltb_not a b : key_ltb a b → ¬ key_leb b a.
Proof. rewrite key_ltb_negb. apply negb_prop_elim. Qed.
Lemma key_not_ltb a b : ¬ key_leb b a → key_ltb a b.
Proof. rewrite key_ltb_negb. apply negb_prop_intro. Qed.

(** What comes before and after in a log sorted by key. *)
Lemma apart_ascending log l :
  apart log → NoDup l → (∀ x, x ∈ l → x ∈ log) → StronglySorted (λ x y, Is_true (older_first x y)) l → ascending l.
Proof.
  intros [_ Ha] Hn Hsub Hs. induction Hs as [|x l Hs IH Hx]; [constructor|]. apply NoDup_cons in Hn as [Hni Hn].
  constructor; [apply IH; [done|set_solver]|]. rewrite Forall_forall in Hx |- *. intros y Hy. apply key_not_ltb.
  intros Hle. apply Hni. assert (x = y) as -> by (apply Ha; [set_solver..|by apply Hx|done]). done.
Qed.
Lemma newer_ascending w log : apart log → ascending (newer_than w log).
Proof.
  intros Ha. apply (apart_ascending log); [done| | |].
  - unfold newer_than. rewrite order_by_perm. apply NoDup_list_filter, Ha.
  - by intros x [? _]%elem_of_newer.
  - apply order_by_sorted; intros *; unfold older_first; [apply key_leb_total|]. intros H1 H2. by eapply key_leb_trans.
Qed.
Lemma ascending_prefix (l : list LogRow) n x :
  ascending l → last (take n l) = Some x → ∀ r, r ∈ take n l ↔ r ∈ l ∧ key_leb (row_key r) (row_key x).
Proof.
  intros Hs (l' & Hl)%last_Some r. rewrite <- (take_drop n l) in Hs. rewrite Hl in Hs.
  apply StronglySorted_app in Hs as (Hc & Hs & _). apply StronglySorted_app in Hs as (Hb & _ & _).
  rewrite <- (take_drop n l) at 2. rewrite Hl, !elem_of_app, list_elem_of_singleton. split.
  - intros [Hr| ->]; (split; [by auto|]); [|apply key_leb_refl]. apply key_ltb_leb. apply (Hb r x Hr). set_solver.
  - intros [[?|Hd] Hle]; [done|]. exfalso. eapply key_ltb_not; [|exact Hle]. apply (Hc x r); [set_solver|done].
Qed.

(** The rows a tick reads are those after the mark. *)
Lemma list_after_mark log m : timely chrono_ok m → list_after log (Some (cursor_of m)) BATCH_SIZE = take BATCH_SIZE (newer_than m log).
Proof. intros Ht. unfold list_after, newer_than. by rewrite cursor_key_of. Qed.

(** ** Every run of the sweep *)

Definition append_row (r : LogRow) (s : Exporter) : Exporter := mkExporter (ex_settings s) (ex_log s ++ [r]) (ex_sent s).
Definition change_setting (k : rstr) (v : Value) (s : Exporter) : Exporter :=
  mkExporter (<[k := v]> (ex_settings s)) (ex_log s) (ex_sent s).

(** What can happen once the watermark is [w]: rows become visible, in any order,
    settings change, and ticks run, their statements failing or not.  The flag says
    that no write of the watermark failed so far, and [late] are the rows that were
    behind the watermark when they became visible. *)
Inductive exports (w : LogRow) : bool → list LogRow → Exporter → Prop :=
| exports_start st log :
    w ∈ log → apart log → (∀ r, r ∈ log → timely chrono_ok r) → stored (mkExporter st log []) w →
    exports w true [] (mkExporter st log [])
| exports_append c late s r m :
    exports w c late s → timely chrono_ok r → apart (ex_log s ++ [r]) →
    m ∈ ex_log s → stored s m → key_ltb (row_key m) (row_key r) → exports w c late (append_row r s)
| exports_late c late s r m :
    exports w c late s → timely chrono_ok r → apart (ex_log s ++ [r]) →
    m ∈ ex_log s → stored s m → key_ltb (row_key r) (row_key m) → exports w c (r :: late) (append_row r s)
| exports_setting c late s k v :
    exports w c late s → k ≠ AUDIT_SYSLOG_EXPORT_CURSOR → exports w c late (change_setting k v s)
| exports_tick c late s fails :
    exports w c late s → exports w (c && negb (fails SetCursor)) late (sweep_tick fails s).

(** With the watermark at [m] and the rows [S] sent. *)
Record sent_upto (w : LogRow) (c : bool) (late : list LogRow) (s : Exporter) (m : LogRow) (S : list LogRow) : Prop := {
  up_apart : apart (ex_log s);
  up_timely : ∀ r, r ∈ ex_log s → timely chrono_ok r;
  up_mark : m ∈ ex_log s;
  up_stored : stored s m;
  up_after : key_leb (row_key w) (row_key m);
  up_late : ∀ r, r ∈ late → key_ltb (row_key r) (row_key m);
  up_rows : ∀ r, r ∈ S ↔ r ∈ ex_log s ∧ (r ∉ late) ∧ key_ltb (row_key w) (row_key r) ∧ key_leb (row_key r) (row_key m);
  up_sorted : ascending S;
  up_sublist : (audit_message <$> S) `sublist_of` ex_sent s;
  up_origin : ∀ x, x ∈ ex_sent s →
    ∃ r, r ∈ ex_log s ∧ (r ∉ late) ∧ key_ltb (row_key w) (row_key r) ∧ x = audit_message r;
  up_exact : c = true → ex_sent s = audit_message <$> S }.

Lemma apart_append log r :
  apart log → (∀ x, x ∈ log → key_ltb (row_key x) (row_key r)) → apart (log ++ [r]).
Proof.
  intros [Hn Ha] Hr. assert (∀ x, x ∈ log → ¬ key_leb (row_key r) (row_key x)) as Hlt by (intros x Hx; by apply key_ltb_not, Hr).
  split.
  - apply NoDup_app. split; [done|]. split; [|apply NoDup_singleton]. intros x Hx ->%list_elem_of_singleton.
    apply (Hlt r Hx), key_leb_refl.
  - intros x y. rewrite !elem_of_app, !list_elem_of_singleton. intros [Hx| ->] [Hy| ->] H1 H2; [by apply Ha| | |done].
    + by destruct (Hlt x Hx).
    + by destruct (Hlt y Hy).
Qed.
Lemma encode_cursor_nonempty c : is_empty (encode_cursor c) = false.
Proof. unfold encode_cursor. destruct (Agent.fmt_Z (occurred_at_micros c)) eqn:E; [|done]. done. Qed.
(** The stored cursor determines the row. *)
Lemma stored_watermark_same s m m' :
  apart (ex_log s) → (∀ r, r ∈ ex_log s → timely chrono_ok r) → m ∈ ex_log s → m' ∈ ex_log s →
  stored s m → stored s m' → m = m'.
Proof.
  unfold stored. intros [_ Ha] Ht Hm Hm' H1 H2. rewrite H1 in H2. injection H2 as H2.
  apply (f_equal decode_cursor) in H2. rewrite !(decode_encode_cursor chrono_ok) in H2 by auto. injection H2 as Ho Hi.
  assert (row_key m = row_key m') as E by (unfold row_key; congruence).
  apply Ha; [done|done|rewrite E; apply key_leb_refl..].
Qed.

Lemma sent_start w st log :
  w ∈ log → apart log → (∀ r, r ∈ log → timely chrono_ok r) → stored (mkExporter st log []) w →
  sent_upto w true [] (mkExporter st log []) w [].
Proof.
  intros Hw Ha Ht Hs. split; try done.
  - apply key_leb_refl.
  - intros r Hr. by apply elem_of_nil in Hr.
  - intros r. split; [by intros ?%elem_of_nil|]. intros (_ & _ & H1 & H2). by destruct (key_ltb_not _ _ H1).
  - constructor.
  - intros m Hm. by apply elem_of_nil in Hm.
Qed.
Lemma sent_append w c late s m S r :
  sent_upto w c late s m S → timely chrono_ok r → apart (ex_log s ++ [r]) → key_ltb (row_key m) (row_key r) →
  sent_upto w c late (append_row r s) m S.
Proof.
  intros [] Hr Ha Hlt. split; cbn [append_row ex_log ex_sent]; try done.
  - intros x [Hx| ->%list_elem_of_singleton]%elem_of_app; auto.
  - set_solver.
  - intros x. rewrite up_rows0, elem_of_app, list_elem_of_singleton. split; [tauto|].
    intros ([?| ->] & ? & ? & Hle); [done|]. by destruct (key_ltb_not _ _ Hlt).
  - intros x Hx. destruct (up_origin0 x Hx) as (y & ? & ?). exists y. set_solver.
Qed.
Lemma sent_late w c late s m S r :
  sent_upto w c late s m S → timely chrono_ok r → apart (ex_log s ++ [r]) → key_ltb (row_key r) (row_key m) →
  sent_upto w c (r :: late) (append_row r s) m S.
Proof.
  intros [] Hr Ha Hlt. assert (r ∉ ex_log s) as Hn.
  { destruct Ha as [Hn _]. apply NoDup_app in Hn as (_ & Hd & _). intros Hin. apply (Hd r Hin). set_solver. }
  split; cbn [append_row ex_log ex_sent]; try done.
  - intros x [Hx| ->%list_elem_of_singleton]%elem_of_app; auto.
  - set_solver.
  - intros x [->|?]%elem_of_cons; auto.
  - intros x. rewrite up_rows0, elem_of_app, list_elem_of_singleton, not_elem_of_cons. split; [|tauto].
    intros (? & ? & ? & ?). split_and!; [by left|congruence|done..].
  - intros x Hx. destruct (up_origin0 x Hx) as (y & ? & ? & ?). exists y. rewrite elem_of_app, not_elem_of_cons.
    split; [by left|]. split; [|done]. split; [congruence|done].
Qed.
Lemma sent_setting w c late s m S k v :
  sent_upto w c late s m S → k ≠ AUDIT_SYSLOG_EXPORT_CURSOR → sent_upto w c late (change_setting k v s) m S.
Proof. intros [] Hk. split; try done. unfold stored. cbn. by rewrite lookup_insert_ne. Qed.

(** Sending a batch and moving the mark behind it. *)
Lemma sent_batch w c late s m S x (rows := take BATCH_SIZE (newer_than m (ex_log s))) :
  sent_upto w c late s m S → last rows = Some x →
  sent_upto w c late (store_cursor (cursor_of x) (send_all rows s)) x (S ++ rows) ∧
  sent_upto w false late (send_all rows s) m S.
Proof.
  intros [Ha Ht Hm Hst Haf Hlate Hrows Hsort Hsub Hor Hex] Hx.
  pose proof (ascending_prefix _ _ _ (newer_ascending m _ Ha) Hx) as Hpre. fold rows in Hpre.
  assert (x ∈ rows) as Hxr by (apply last_Some in Hx as [l ->]; set_solver).
  assert (∀ r, r ∈ rows → r ∈ ex_log s ∧ key_ltb (row_key m) (row_key r)) as Hnew by (intros r [? _]%Hpre; by apply elem_of_newer).
  destruct (Hnew x Hxr) as [Hxl Hmx].
  assert (∀ r, key_ltb (row_key m) (row_key r) → r ∉ late) as Hfresh.
  { intros r Hr Hl. apply (key_ltb_not _ _ (Hlate r Hl)). by apply key_ltb_leb. }
  assert (∀ y, y ∈ ex_sent s ++ (audit_message <$> rows) →
    ∃ r, r ∈ ex_log s ∧ (r ∉ late) ∧ key_ltb (row_key w) (row_key r) ∧ y = audit_message r) as Hor'.
  { intros y [?|(r & -> & Hr)%list_elem_of_fmap]%elem_of_app; [by auto|]. destruct (Hnew r Hr) as [? ?]. exists r.
    split_and!; [done|by apply Hfresh|by eapply key_ltb_trans|done]. }
  split; split; cbn [store_cursor send_all ex_log ex_sent]; try done.
  - unfold stored. cbn. by rewrite lookup_insert_eq.
  - eapply key_leb_trans; [exact Haf|by apply key_ltb_leb].
  - intros r Hr. eapply key_ltb_trans; [|exact Hmx]. by apply key_ltb_leb, Hlate.
  - intros r. rewrite elem_of_app, Hrows, Hpre, elem_of_newer. split.
    + intros [(? & ? & ? & Hle)|[[? Hmr] Hle]]; (split_and!; try done).
      * eapply key_leb_trans; [exact Hle|by apply key_ltb_leb].
      * by apply Hfresh.
      * by eapply key_ltb_trans.
    + intros (? & ? & ? & ?). destruct (key_leb (row_key r) (row_key m)) eqn:E; [by left|right].
      split; [|done]. split; [done|]. apply key_not_ltb. rewrite E. by intros [].
  - apply StronglySorted_app_2; [|done|].
    + intros a b (_ & _ & _ & Hle)%Hrows [_ Hb]%Hnew. by eapply key_ltb_trans.
    + pose proof (newer_ascending m _ Ha) as Hall. rewrite <- (take_drop BATCH_SIZE (newer_than m (ex_log s))) in Hall.
      by apply StronglySorted_app_1_l in Hall.
  - rewrite fmap_app. by apply sublist_app.
  - intros Hc. by rewrite fmap_app, Hex.
  - by apply sublist_inserts_r.
Qed.

Definition enabled (s : Exporter) : Prop := ex_settings s !! AUDIT_SYSLOG_EXPORT_ENABLED = Some (Bool true).
Definition no_failure : Statement → bool := λ _, false.

(** How far behind the mark is after a tick. *)
Lemma newer_shrinks m log x :
  apart log → last (take BATCH_SIZE (newer_than m log)) = Some x →
  length (newer_than x log) ≤ length (newer_than m log) - BATCH_SIZE.
Proof.
  intros Ha Hx. pose proof (ascending_prefix _ _ _ (newer_ascending m _ Ha) Hx) as Hpre. rewrite <- length_drop.
  apply submseteq_length, NoDup_submseteq.
  - unfold newer_than. rewrite order_by_perm. apply NoDup_list_filter, Ha.
  - intros r [Hr Hlt]%elem_of_newer.
    assert (x ∈ newer_than m log) as [_ Hmx]%elem_of_newer by (apply (Hpre x), last_Some_elem_of; done).
    assert (r ∈ newer_than m log) as Hin by (apply elem_of_newer; split; [done|]; eapply key_ltb_trans; [by apply key_ltb_leb|done]).
    rewrite <- (take_drop BATCH_SIZE) in Hin. apply elem_of_app in Hin as [[_ Hle]%Hpre|?]; [|done].
    by destruct (key_ltb_not _ _ Hlt).
Qed.

Lemma sent_tick w c late s m S fails :
  sent_upto w c late s m S →
  ∃ m' S', sent_upto w (c && negb (fails SetCursor)) late (sweep_tick fails s) m' S'
    ∧ (enabled s → fails = no_failure →
       length (newer_than m' (ex_log s)) ≤ length (newer_than m (ex_log s)) - BATCH_SIZE).
Proof.
  intros Hup. assert (sent_upto w (c && negb (fails SetCursor)) late s m S) as Hsame.
  { destruct Hup. split; try done. by intros [? _]%andb_true_iff; auto. }
  unfold sweep_tick. destruct (fails GetEnabled) eqn:Hge; [exists m, S; split; [done|by intros _ ->]|].
  destruct (match _ !! _ with Some _ => _ | None => _ end) eqn:Hen.
  2: { exists m, S. split; [done|]. intros He. unfold enabled in He. by rewrite He in Hen. }
  unfold export_one_batch. destruct (fails GetCursor) eqn:Hgc; [exists m, S; split; [done|by intros _ ->]|].
  pose proof (up_stored _ _ _ _ _ _ Hup) as Hst. unfold stored in Hst. rewrite Hst.
  change (Some (Str ?x) ≫= as_str) with (Some x). unfold default, id. rewrite encode_cursor_nonempty.
  destruct (fails ListAfter) eqn:Hla; [exists m, S; split; [done|by intros _ ->]|].
  assert (timely chrono_ok m) as Htm by apply (up_timely _ _ _ _ _ _ Hup), (up_mark _ _ _ _ _ _ Hup).
  rewrite (decode_encode_cursor chrono_ok) by done. rewrite list_after_mark by done.
  destruct (last (take BATCH_SIZE (newer_than m (ex_log s)))) as [x|] eqn:E.
  2: { exists m, S. split; [done|]. intros _ _. apply last_None in E. by destruct (newer_than m (ex_log s)). }
  destruct (sent_batch _ _ _ _ _ _ _ Hup E) as [H1 H2].
  destruct (fails SetCursor) eqn:Hsc; cbn [negb].
  - rewrite andb_false_r. exists m, S. split; [done|by intros _ ->].
  - rewrite andb_true_r. exists x, (S ++ take BATCH_SIZE (newer_than m (ex_log s))). split; [done|]. intros _ _.
    apply newer_shrinks; [apply Hup|done].
Qed.

Lemma exports_sent w c late s : exports w c late s → ∃ m S, sent_upto w c late s m S.
Proof.
  induction 1 as [st log ? ? ? ?|c late s r m _ (m' & S & IH) Hr Ha Hm Hs Hlt|c late s r m _ (m' & S & IH) Hr Ha Hm Hs Hlt
    |c late s k v _ (m' & S & IH) Hk|c late s fails _ (m' & S & IH)].
  - exists w, []. by apply sent_start.
  - assert (m = m') as -> by (destruct IH; by eapply stored_watermark_same). exists m', S. by apply sent_append.
  - assert (m = m') as -> by (destruct IH; by eapply stored_watermark_same). exists m', S. by apply sent_late.
  - exists m', S. by apply sent_setting.
  - destruct (sent_tick _ _ _ _ _ _ fails IH) as (q & S' & Hq & _). eauto.
Qed.


(** ** The sweep catches up *)

Lemma tick_enabled fails s : enabled s → enabled (sweep_tick fails s).
Proof.
  intros He. unfold sweep_tick. destruct (fails GetEnabled); [done|]. rewrite He. unfold export_one_batch. cbn zeta.
  repeat case_match; try done; unfold enabled; cbn; by rewrite lookup_insert_ne.
Qed.
Lemma tick_log fails s : ex_log (sweep_tick fails s) = ex_log s.
Proof. unfold sweep_tick, export_one_batch. cbn zeta. by repeat case_match. Qed.
Definition ticks (n : nat) : Exporter → Exporter := Nat.iter n (sweep_tick no_failure).

Lemma sent_ticks w c late s m S n :
  sent_upto w c late s m S → enabled s →
  ∃ m' S', sent_upto w c late (ticks n s) m' S' ∧ enabled (ticks n s) ∧ ex_log (ticks n s) = ex_log s
    ∧ length (newer_than m' (ex_log s)) ≤ length (newer_than m (ex_log s)) - n * BATCH_SIZE.
Proof.
  intros Hup He. induction n as [|n (m1 & S1 & IH & IHe & IHl & Hlen)].
  - exists m, S. split_and!; [done..|lia].
  - unfold ticks. rewrite Nat.iter_succ. fold (ticks n s).
    destruct (sent_tick _ _ _ _ _ _ no_failure IH) as (m2 & S2 & Hup2 & Hq). rewrite andb_true_r in Hup2.
    exists m2, S2. split_and!; [done|by apply tick_enabled|by rewrite tick_log|].
    specialize (Hq IHe eq_refl). rewrite IHl in Hq. lia.
Qed.

(** The sweep catches up: from any state it can reach, once it is enabled and its
    statements succeed, one tick for every 500 rows of the log sends a message for
    every row newer than the first watermark that is not late. *)
Theorem syslog_catches_up w c late s n :
  exports w c late s → enabled s → length (ex_log s) ≤ n * 500 →
  ∀ r, r ∈ ex_log s → r ∉ late → key_ltb (row_key w) (row_key r) → audit_message r ∈ ex_sent (ticks n s).
Proof.
  intros (m & S & Hup)%exports_sent He Hn r Hr Hl Hw.
  destruct (sent_ticks _ _ _ _ _ _ n Hup He) as (m' & S' & Hup' & _ & Hsame & Hlen).
  assert (length (newer_than m (ex_log s)) ≤ length (ex_log s)) as Hle.
  { unfold newer_than. rewrite order_by_perm. apply List.filter_length_le. }
  change BATCH_SIZE with 500 in Hlen. assert (newer_than m' (ex_log s) = []) as Hnil by (apply nil_length_inv; lia).
  destruct Hup' as [_ _ _ _ _ _ Hrows _ Hsub _ _]. rewrite Hsame in Hrows.
  eapply elem_of_submseteq; [|by apply sublist_submseteq]. apply list_elem_of_fmap_2, Hrows. split_and!; [done..|].
  destruct (key_leb (row_key r) (row_key m')) eqn:E; [done|]. exfalso.
  assert (r ∈ newer_than m' (ex_log s)) as Hin; [|rewrite Hnil in Hin; by apply elem_of_nil in Hin].
  apply elem_of_newer. split; [done|]. apply key_not_ltb. rewrite E. by intros [].
Qed.
End sweep.

(** ** A log for the witnesses *)

(** Ids compared character by character. *)
Fixpoint text_leb (a b : rstr) : bool :=
  match a, b with
  | [], _ => true
  | _ :: _, [] => false
  | x :: a, y :: b => (x <? y)%N || (x =? y)%N && text_leb a b
  end.
#[export] Instance demo_log_order : LogOrder.
Proof.
  refine {| id_leb := text_leb |}.
  - induction a as [|x a IH]; intros [|y b]; cbn; try done. specialize (IH b).
    destruct (N.ltb_spec x y) as [|H1]; [done|]. destruct (N.ltb_spec y x) as [|H2]; [by rewrite orb_true_r|].
    assert (x = y) as -> by lia. by rewrite N.eqb_refl.
  - induction a as [|x a IH]; intros [|y b] [|z c]; cbn; try done.
    rewrite !orb_true_iff, !andb_true_iff, !N.ltb_lt, !N.eqb_eq. intros [H1|[H1 H1']] [H2|[H2 H2']]; try (left; lia).
    right. split; [lia|]. by eapply IH.
Defined.

(** Row [n], written in microsecond [n]; every other one is a failure whose user name needs quoting. *)
Definition demo_row (n : nat) : LogRow :=
  mkLogRow #"3fa85f64" (Z.of_nat n)
    (if Nat.even n then mkEntry None #"system" #"LOGIN" None #"SUCCESS" None None None
     else mkEntry (Some 7%N) (#"a,b" ++ [34; 10]%N) #"LOGIN" (Some #"x") #"FAILURE" (Some #"::1") None None).
Definition demo_log (n : nat) : list LogRow := demo_row <$> seq 0 n.
Definition any_time (t : Z) : bool := true.
Definition digits_of (t : Z) : rstr := fmt_N (Z.to_N t).

Lemma demo_log_S n : demo_log (S n) = demo_log n ++ [demo_row n].
Proof. unfold demo_log. by rewrite seq_S, fmap_app. Qed.
Lemma demo_log_elem n x : x ∈ demo_log n ↔ ∃ i, i < n ∧ x = demo_row i.
Proof.
  unfold demo_log. rewrite list_elem_of_fmap. setoid_rewrite elem_of_seq.
  split; [intros (i & -> & ?)|intros (i & ? & ->)]; exists i; (split; [done || lia|done || lia]).
Qed.
Lemma demo_row_lt i j : i < j → key_ltb (row_key (demo_row i)) (row_key (demo_row j)).
Proof. intros H. unfold key_ltb. cbn. rewrite (proj2 (Z.ltb_lt _ _)) by lia. done. Qed.
Lemma demo_apart n : apart (demo_log n).
Proof.
  induction n as [|n IH]; [split; [constructor|]; intros x y Hx; by apply elem_of_nil in Hx|]. rewrite demo_log_S.
  apply apart_append; [done|]. intros x (i & Hi & ->)%demo_log_elem. by apply demo_row_lt.
Qed.
Lemma demo_timely n r : (Z.of_nat n < 2 ^ 63)%Z → r ∈ demo_log n → timely any_time r.
Proof. intros Hn (i & Hi & ->)%demo_log_elem. split; [done|]. cbn. lia. Qed.
Lemma demo_appended n k : appended (demo_log n) (demo_log (n + k)).
Proof.
  split; [apply demo_apart|]. exists (demo_row <$> seq n k). unfold demo_log. split.
  - by rewrite seq_app, fmap_app, Permutation_app_comm.
  - intros x y (i & -> & Hi)%list_elem_of_fmap (j & -> & Hj)%list_elem_of_fmap. apply elem_of_seq in Hi, Hj. apply demo_row_lt. lia.
Qed.
Lemma demo_grows n : (Z.of_nat n < 2 ^ 63)%Z → grows any_time (λ j, demo_log (n + j)).
Proof.
  intros Hn. rewrite <- (Nat.add_0_r n) in Hn. split; [apply demo_apart|]. split; [|intros r; by apply demo_timely].
  intros j. rewrite Nat.add_0_r. apply demo_appended.
Qed.
Lemma digits_plain t : Forall plain (digits_of t).
Proof. apply Forall_forall. intros c Hc. apply fmt_N_digit in Hc. by repeat split; intros ->. Qed.

Definition auditor : AuthContext := mkCtx alice {[ AuditView; AuditExport ]}.
Lemma auditor_views : ensure auditor AuditView = Ok ().
Proof. vm_compute. reflexivity. Qed.
Lemma auditor_exports : ensure auditor AuditExport = Ok ().
Proof. vm_compute. reflexivity. Qed.
Lemma demo_rows_length n : length (newest_first (build_filter []) (demo_log n)) = n.
Proof. rewrite newest_first_perm, filter_all by done. unfold demo_log. by rewrite length_fmap, length_seq. Qed.

Lemma audit_export_complete_witness :
  ∃ bs csv, for_each_batch any_time 1502 (λ j, demo_log (1500 + j)) (build_filter []) EXPORT_BATCH_SIZE None = Some bs
    ∧ Forall (λ b, 0 < length b ≤ 500) bs
    ∧ audit_export any_time digits_of 1502 auditor [] (λ j, demo_log (1500 + j)) =
        Some (Ok (csv, with_resource #"audit_log_export" (with_actor (actor_of auditor) (new_event AuditAction.AuditExported Success))))
    ∧ read_csv csv = HEADER_COLUMNS :: (columns digits_of <$> newest_first (build_filter []) (demo_log (1500 + 0))).
Proof.
  apply (audit_export_complete any_time digits_of 1502 auditor [] (λ j, demo_log (1500 + j))).
  - exact auditor_exports.
  - apply demo_grows. lia.
  - exact digits_plain.
  - unfold demo_log. rewrite length_fmap, length_seq. lia.
Defined.

(** Down two runs of a log of 60 rows and up again. *)
Definition demo_L : list LogRow := shown [] (λ j, demo_log (60 + j)).
Lemma audit_links_are_offsets_witness :
  ∃ p, visit any_time auditor [] (λ j, demo_log (60 + j)) [Newer; Older; Older] = Some p ∧ items p = slice demo_L 1
    ∧ (older_cursor p = None ↔ length demo_L ≤ 2 * 25)
    ∧ (newer_cursor p = None ↔
         1 = 0 ∧ ([Newer; Older; Older] = [] ∨
                  length (newest_first (build_filter []) (demo_log (60 + 3))) = length demo_L)).
Proof.
  destruct (audit_links_are_offsets any_time auditor [] (λ j, demo_log (60 + j)) [Newer; Older; Older] 1)
    as (p & H1 & H2 & H3 & H4 & _).
  - exact auditor_views.
  - apply demo_grows. lia.
  - unfold shown. rewrite demo_rows_length. cbn. lia.
  - unfold shown. rewrite demo_rows_length. reflexivity.
  - exact (ex_intro _ p (conj H1 (conj H2 (conj H3 H4)))).
Defined.

(** ** The sweep *)

Definition demo_display (v : Value) : rstr := #"{}".
Definition demo_settings (w : LogRow) : gmap rstr Value :=
  {[ AUDIT_SYSLOG_EXPORT_CURSOR := Str (encode_cursor (cursor_of w)); AUDIT_SYSLOG_EXPORT_ENABLED := Bool true ]}.
Lemma demo_stored w log : stored (mkExporter (demo_settings w) log []) w.
Proof. unfold stored, demo_settings. cbn. by rewrite lookup_insert_eq. Qed.
Lemma demo_enabled w log sent : enabled (mkExporter (demo_settings w) log sent).
Proof. unfold enabled, demo_settings. cbn. rewrite lookup_insert_ne by done. by rewrite lookup_singleton_eq. Qed.

(** Two rows written after the watermark. *)
Definition demo_exporter : Exporter :=
  append_row (demo_row 2) (append_row (demo_row 1) (mkExporter (demo_settings (demo_row 0)) (demo_log 1) [])).
Lemma demo_exports : exports any_time demo_display (demo_row 0) true [] demo_exporter.
Proof.
  apply (exports_append _ _ _ _ _ _ _ (demo_row 0));
    [apply (exports_append _ _ _ _ _ _ _ (demo_row 0)); [apply exports_start|..]|..].
  - apply demo_log_elem. exists 0. split; [lia|done].
  - apply demo_apart.
  - intros r. apply demo_timely. lia.
  - apply demo_stored.
  - by apply (demo_timely 2), demo_log_elem; [lia|exists 1; split; [lia|]].
  - exact (demo_apart 2).
  - apply demo_log_elem. exists 0. split; [lia|done].
  - apply demo_stored.
  - apply demo_row_lt. lia.
  - by apply (demo_timely 3), demo_log_elem; [lia|exists 2; split; [lia|]].
  - exact (demo_apart 3).
  - apply elem_of_app. left. apply demo_log_elem. exists 0. split; [lia|done].
  - apply (demo_stored _ []).
  - apply demo_row_lt. lia.
Qed.

(** A tick whose last statement fails, then one that succeeds. *)
Definition write_fails (x : Statement) : bool := match x with SetCursor => true | _ => false end.
Definition demo_after : Exporter :=
  sweep_tick any_time demo_display no_failure (sweep_tick any_time demo_display write_fails demo_exporter).

(** Then a row turns up behind the watermark. *)
Definition late_row : LogRow := mkLogRow #"3fa85f63" 2 (row_entry (demo_row 1)).
Definition demo_late : Exporter := append_row late_row demo_after.
Lemma demo_after_marked : ex_log demo_after = demo_log 3 ∧ stored demo_after (demo_row 2).
Proof. vm_compute. done. Qed.
Lemma late_apart : apart (demo_log 3 ++ [late_row]).
Proof.
  split; [|intros x y Hx Hy].
  - apply NoDup_ListNoDup. vm_compute. repeat constructor; cbn; naive_solver.
  - assert (∀ z, z ∈ demo_log 3 ++ [late_row] → z = demo_row 0 ∨ z = demo_row 1 ∨ z = demo_row 2 ∨ z = late_row) as Hz.
    { intros z. cbn. rewrite !elem_of_cons, elem_of_nil. naive_solver. }
    destruct (Hz x Hx) as [-> | [-> | [-> | ->]]], (Hz y Hy) as [-> | [-> | [-> | ->]]]; vm_compute; try done; naive_solver.
Qed.
Lemma demo_late_exports : exports any_time demo_display (demo_row 0) false [late_row] demo_late.
Proof.
  destruct demo_after_marked as [Hl Hs]. apply (exports_late _ _ _ false [] _ _ (demo_row 2)).
  - exact (exports_tick _ _ _ _ _ _ _ (exports_tick _ _ _ _ _ _ write_fails demo_exports)).
  - split; [done|]. cbn. lia.
  - rewrite Hl. exact late_apart.
  - rewrite Hl. apply demo_log_elem. exists 2. split; [lia|done].
  - exact Hs.
  - vm_compute. done.
Qed.


Lemma syslog_catches_up_witness :
  ∀ r, r ∈ ex_log demo_exporter → r ∉ [] → key_ltb (row_key (demo_row 0)) (row_key r) →
    audit_message demo_display r ∈ ex_sent (ticks any_time demo_display 1 demo_exporter).
Proof.
  apply (syslog_catches_up any_time demo_display (demo_row 0) true [] demo_exporter 1).
  - exact demo_exports.
  - apply demo_enabled.
  - cbn. lia.
Defined.

(** After a failed write of the watermark the batch is sent again. *)
Example failed_write_sends_twice :
  ex_sent demo_after = audit_message demo_display ∘ demo_row <$> [1; 2; 1; 2].
Proof. vm_compute. reflexivity. Qed.

(** ** Rows that are never sent *)

(** A row that becomes visible behind the watermark (its statement started earlier, or it shares the microsecond and
    has the smaller id) is never sent. *)
Example late_row_never_sent n :
  let s := append_row (demo_row 3) (mkExporter (demo_settings (demo_row 5)) [demo_row 5] []) in
  Nat.iter n (sweep_tick any_time demo_display no_failure) s = s.
Proof.
  cbv zeta. induction n as [|n IH]; [done|]. rewrite Nat.iter_succ, IH. unfold sweep_tick. cbn [no_failure].
  change (ex_settings (append_row ?r ?s)) with (ex_settings s). vm_compute. reflexivity.
Qed.

(** Enabled on an empty log, the sweep stores no watermark: the first row is taken for history and never sent. *)
Definition empty_start : Exporter := mkExporter {[ AUDIT_SYSLOG_EXPORT_ENABLED := Bool true ]} [] [].
Example first_row_taken_for_history :
  let tick := sweep_tick any_time demo_display no_failure in
  tick empty_start = empty_start
  ∧ ex_sent (tick (append_row (demo_row 1) (tick empty_start))) = []
  ∧ ex_settings (tick (append_row (demo_row 1) (tick empty_start))) !! AUDIT_SYSLOG_EXPORT_CURSOR
    = Some (Str (encode_cursor (cursor_of (demo_row 1)))).
Proof. vm_compute. done. Qed.
