(* ===== verification/Posture.v ===== *)
(** * Posture checks ([crates/posture])

    The verdict of a check on the facts a host reported: the helpers of [lib.rs],
    and the rules of [linux.rs] and [windows.rs] that take more than a line.  The
    catalogs are in [PostureCatalog]. *)

From Stdlib Require Import NArith ZArith Lia.
From stdpp Require Import gmap.
From S2P Require Import Prelude Agent AuditPages.

Inductive Platform : Set := Linux | Windows.
#[export] Instance Platform_eq_dec : EqDecision Platform.
Proof. solve_decision. Defined.
Definition from_report (platform : rstr) : option Platform :=
  if str_eqb platform #"linux" then Some Linux
  else if str_eqb platform #"windows" then Some Windows
  else None.

Inductive Status : Set := Failed | Passed | NotApplicable.
#[export] Instance Status_eq_dec : EqDecision Status.
Proof. solve_decision. Defined.
Definition status_str (s : Status) : rstr :=
  match s with Passed => #"passed" | Failed => #"failed" | NotApplicable => #"na" end.
Definition status_parse (s : rstr) : option Status :=
  if str_eqb s #"passed" then Some Passed
  else if str_eqb s #"failed" then Some Failed
  else if str_eqb s #"na" then Some NotApplicable
  else None.

Inductive Fix := SshHardening (setting : rstr) | SysctlBaseline | FirewallEnable.

Record Outcome := mkOutcome { status : Status; evidence : rstr }.
Definition passed (e : rstr) : Outcome := mkOutcome Passed e.
Definition failed (e : rstr) : Outcome := mkOutcome Failed e.
Definition not_applicable (e : rstr) : Outcome := mkOutcome NotApplicable e.

(** ** Facts *)

Record Facts := mkFacts { facts : gmap rstr rstr; notes : gmap rstr rstr }.
Definition fact (f : Facts) (key : rstr) : option rstr := facts f !! key.

(** The note whose group is the longest prefix of the key; two groups of the same
    length that are prefixes of it are the same group. *)
Definition applies (key group : rstr) : bool := str_eqb key group || starts_with key (group ++ #".").
Definition longer (best : option (rstr * rstr)) (n : rstr * rstr) : option (rstr * rstr) :=
  match best with
  | Some b => if (len n.1 <? len b.1)%nat then best else Some n
  | None => Some n
  end.
Definition missing (f : Facts) (key : rstr) : Outcome :=
  let reason := snd <$> foldl longer None (List.filter (λ n, applies key n.1) (map_to_list (notes f))) in
  not_applicable (match reason with
                  | Some note => #"Couldn't be read on this host: " ++ note
                  | None => #"Not reported by this host's agent."
                  end).
Definition fact_int (f : Facts) (key : rstr) : option Z := fact f key ≫= λ v, parse_i64 (trim v).

(** ** Helpers *)

Definition one_of (f : Facts) (key label : rstr) (ok : list rstr) : Outcome :=
  match fact f key with
  | None => missing f key
  | Some v =>
      if existsb (λ o, eq_ignore_ascii_case o (trim v)) ok then passed (label ++ #" = " ++ v)
      else failed (label ++ #" = " ++ v)
  end.

Definition int_where (f : Facts) (key label : rstr) (ok : Z → bool) (want : rstr) : Outcome :=
  match fact f key, fact_int f key with
  | None, _ => missing f key
  | Some v, None => failed (label ++ #" = " ++ v ++ #" (not a number; want " ++ want ++ #")")
  | Some _, Some n =>
      if ok n then passed (label ++ #" = " ++ fmt_Z n)
      else failed (label ++ #" = " ++ fmt_Z n ++ #" (want " ++ want ++ #")")
  end.

Definition list_empty (f : Facts) (key what : rstr) : Outcome :=
  match fact f key with
  | None => missing f key
  | Some v =>
      if is_empty (trim v) then passed (#"No " ++ what ++ #".")
      else failed (#"Found: " ++ replace_char 44 #", " v)
  end.

Definition list_excludes (f : Facts) (key label : rstr) (banned : list rstr) : Outcome :=
  match fact f key with
  | None => missing f key
  | Some v =>
      let found := List.filter (λ item, existsb (λ b, eq_ignore_ascii_case b item) banned) (trim <$> split_char $"," v) in
      match found with
      | [] => passed (#"No weak " ++ label ++ #" enabled.")
      | _ => failed (#"Weak " ++ label ++ #" enabled: " ++ join #", " found)
      end
  end.

(** [(lo..=hi).contains(&n)] *)
Definition between (lo hi n : Z) : bool := (lo <=? n)%Z && (n <=? hi)%Z.
Definition verdict (b : bool) (e : rstr) : Outcome := if b then passed e else failed e.

(** ** [linux.rs] *)

Definition is_fact (f : Facts) (key value : rstr) : bool := bool_decide (fact f key = Some value).

Definition ssh (f : Facts) (rule : Facts → Outcome) : Outcome :=
  match fact f #"sshd.present" with
  | None => missing f #"sshd.present"
  | Some v => if str_eqb v #"yes" then rule f else not_applicable #"No SSH server installed."
  end.

Definition sysctl_is (f : Facts) (key : rstr) (want : list rstr) : Outcome := one_of f (#"sysctl." ++ key) key want.

(** The name of a per-interface parameter, with the interface put in. *)
Definition interface_key (before after interface : rstr) : rstr := before ++ interface ++ after.
Definition sysctl_pair (f : Facts) (before after : rstr) : option (Z * option Z * rstr) :=
  let all_key := interface_key before after #"all" in
  let default_key := interface_key before after #"default" in
  all ← fact_int f (#"sysctl." ++ all_key);
  let dflt := fact_int f (#"sysctl." ++ default_key) in
  let evidence := match dflt with
                  | Some d => all_key ++ #" = " ++ fmt_Z all ++ #", " ++ default_key ++ #" = " ++ fmt_Z d
                  | None => all_key ++ #" = " ++ fmt_Z all
                  end in
  Some (all, dflt, evidence).

Definition sysctl_at_least (f : Facts) (key : rstr) (min : Z) (want : rstr) : Outcome :=
  let fact_key := #"sysctl." ++ key in
  match fact f fact_key, fact_int f fact_key with
  | None, _ => missing f fact_key
  | Some v, Some n =>
      if (min <=? n)%Z then passed (key ++ #" = " ++ fmt_Z n) else failed (key ++ #" = " ++ v ++ #" (want " ++ want ++ #")")
  | Some v, None => failed (key ++ #" = " ++ v ++ #" (want " ++ want ++ #")")
  end.

(** [u32::from_str_radix(_, 8)]: an optional sign, at least one digit, and a
    value that fits. *)
Fixpoint octal_digits (s : rstr) (acc : N) : option N :=
  match s with
  | [] => Some acc
  | c :: s => if in_range 48 55 c then octal_digits s (acc * 8 + (c - 48))%N else None
  end.
Definition from_octal (s : rstr) : option N :=
  let body := default s (strip_prefix s #"+") in
  if is_empty body then None
  else n ← octal_digits body 0; if (n <? 2 ^ 32)%N then Some n else None.

(** [{mode:0>4}] *)
Definition pad4 (s : rstr) : rstr := replicate (4 - length s) $"0" ++ s.
(** [!x] on a [u32]. *)
Definition not_u32 (x : N) : N := (2 ^ 32 - 1 - x)%N.

Definition file_mode (f : Facts) (name path : rstr) (allowed : N) : Outcome :=
  let mode_key := #"perm." ++ name ++ #".mode" in
  match fact f mode_key with
  | None => missing f mode_key
  | Some mode =>
      match from_octal mode with
      | None => failed (path ++ #": unreadable mode " ++ mode)
      | Some bits =>
          let owner := default #"?" (fact f (#"perm." ++ name ++ #".uid")) in
          let evidence := path ++ #": mode " ++ pad4 mode ++ #", owner uid " ++ owner in
          verdict ((N.land bits (not_u32 allowed) =? 0)%N && str_eqb owner #"0") evidence
      end
  end.

Definition mount_has (f : Facts) (name path : rstr) (need : list rstr) : Outcome :=
  let separate := #"mount." ++ name ++ #".separate" in
  match fact f separate with
  | None => missing f separate
  | Some v =>
      if str_eqb v #"yes" then
        let options := default [] (fact f (#"mount." ++ name ++ #".options")) in
        let have := split_char $"," options in
        match List.filter (λ o, negb (str_mem o have)) need with
        | [] => passed (path ++ #" mounted with " ++ options)
        | lacking => failed (path ++ #" mounted with " ++ options ++ #"; missing " ++ join #", " lacking)
        end
      else not_applicable (path ++ #" isn't a separate mount.")
  end.

Definition with_systemd (f : Facts) (rule : Facts → Outcome) : Outcome :=
  match fact f #"init.systemd" with
  | None => missing f #"init.systemd"
  | Some v => if str_eqb v #"yes" then rule f else not_applicable #"Checked through systemd, which this host doesn't use."
  end.

(** ** Rules of [linux.rs] *)

Definition closes_idle_sessions (f : Facts) : Outcome :=
  match fact_int f #"sshd.clientaliveinterval", fact_int f #"sshd.clientalivecountmax" with
  | Some interval, Some count =>
      verdict (between 1 900 interval && (1 <=? count)%Z)
        (#"ClientAliveInterval = " ++ fmt_Z interval ++ #", ClientAliveCountMax = " ++ fmt_Z count)
  | _, _ => missing f #"sshd.clientaliveinterval"
  end.

Definition reverse_path_filtering (f : Facts) : Outcome :=
  match sysctl_pair f #"net.ipv4.conf." #".rp_filter" with
  | None => missing f #"sysctl.net.ipv4.conf.all.rp_filter"
  | Some (all, dflt, evidence) => verdict (between 1 2 all || from_option (between 1 2) false dflt) evidence
  end.

Definition redirects_ignored (f : Facts) : Outcome :=
  match sysctl_pair f #"net.ipv4.conf." #".accept_redirects" with
  | None => missing f #"sysctl.net.ipv4.conf.all.accept_redirects"
  | Some (all, dflt, evidence) =>
      let forwarding := is_fact f #"sysctl.net.ipv4.ip_forward" #"1" in
      let off := if forwarding then (all =? 0)%Z || bool_decide (dflt = Some 0%Z)
                 else (all =? 0)%Z && from_option (Z.eqb 0) true dflt in
      verdict off evidence
  end.

Definition redirects_not_sent (f : Facts) : Outcome :=
  if is_fact f #"sysctl.net.ipv4.ip_forward" #"1"
  then not_applicable #"This host forwards packets (net.ipv4.ip_forward = 1): a router or container host."
  else sysctl_is f #"net.ipv4.conf.all.send_redirects" [ #"0"].

Definition martians_logged (f : Facts) : Outcome :=
  match sysctl_pair f #"net.ipv4.conf." #".log_martians" with
  | None => missing f #"sysctl.net.ipv4.conf.all.log_martians"
  | Some (all, dflt, evidence) => verdict ((all =? 1)%Z || bool_decide (dflt = Some 1%Z)) evidence
  end.

(** A parameter the kernel does not have, when others were read. *)
Definition unless_unsupported (f : Facts) (key reason : rstr) (rule : Facts → Outcome) : Outcome :=
  if bool_decide (fact f key = None) && bool_decide (is_Some (fact f #"sysctl.kernel.randomize_va_space"))
  then not_applicable reason
  else rule f.

Definition ipv6_redirects_ignored (f : Facts) : Outcome :=
  unless_unsupported f #"sysctl.net.ipv6.conf.all.accept_redirects" #"IPv6 is disabled on this host." (λ f,
    match sysctl_pair f #"net.ipv6.conf." #".accept_redirects" with
    | None => missing f #"sysctl.net.ipv6.conf.all.accept_redirects"
    | Some (all, dflt, evidence) => verdict ((all =? 0)%Z && from_option (Z.eqb 0) true dflt) evidence
    end).

Definition firewall_active (f : Facts) : Outcome :=
  match fact f #"firewall.tool", fact f #"firewall.active" with
  | Some tool, Some active =>
      if str_eqb active #"yes" then passed (tool ++ #" is active.")
      else if str_eqb tool #"none" then failed #"No firewall (ufw, firewalld, nftables or iptables) is configured."
      else failed (tool ++ #" is installed but not active.")
  | _, _ => missing f #"firewall.active"
  end.

Definition firewall_denies (f : Facts) : Outcome :=
  if negb (is_fact f #"firewall.active" #"yes") then
    match fact f #"firewall.active" with
    | None => missing f #"firewall.active"
    | Some _ => not_applicable #"The firewall isn't active (see AA-LNX-FW-001)."
    end
  else
    let tool := default #"firewall" (fact f #"firewall.tool") in
    one_of f #"firewall.default_input" (tool ++ #" default inbound") [ #"deny"; #"drop"; #"reject"].

Definition password_length (f : Facts) : Outcome :=
  match fact f #"pam.pwquality" with
  | None => missing f #"pam.pwquality"
  | Some v =>
      if str_eqb v #"yes" then
        match fact_int f #"pwquality.minlen" with
        | Some n =>
            if (14 <=? n)%Z then passed (#"pam_pwquality minlen = " ++ fmt_Z n)
            else failed (#"pam_pwquality minlen = " ++ fmt_Z n ++ #" (want 14 or more)")
        | None => failed #"pam_pwquality is on but minlen isn't set (its default is 8)."
        end
      else failed #"No password-quality module (pam_pwquality or pam_cracklib) in PAM."
  end.

Definition lockout_configured (f : Facts) : Outcome :=
  match fact f #"pam.lockout" with
  | None => missing f #"pam.lockout"
  | Some v =>
      if str_eqb v #"yes" then
        match fact_int f #"pam.lockout_deny" with
        | Some n =>
            if between 1 5 n then passed (#"Lockout after " ++ fmt_Z n ++ #" failures.")
            else failed (#"Lockout after " ++ fmt_Z n ++ #" failures (want 5 or fewer).")
        | None => passed #"pam_faillock is on with its default (3 failures)."
        end
      else failed #"No account lockout module (pam_faillock or pam_tally2) in PAM."
  end.

Definition umask_strict (f : Facts) : Outcome :=
  match fact f #"logindefs.UMASK" with
  | None => missing f #"logindefs.UMASK"
  | Some v =>
      match from_octal (trim v) with
      | Some bits =>
          if (N.land bits 23 =? 23)%N then passed (#"UMASK = " ++ v) else failed (#"UMASK = " ++ v ++ #" (want 027 or stricter)")
      | None => failed (#"UMASK = " ++ v ++ #" (want 027 or stricter)")
      end
  end.

Definition no_world_writable (f : Facts) : Outcome :=
  match fact_int f #"files.world_writable.count" with
  | None => missing f #"files.world_writable.count"
  | Some n =>
      if (n =? 0)%Z then passed #"None found in /etc, /usr/bin, /usr/sbin or /usr/local."
      else failed (fmt_Z n ++ #" found, including " ++ replace_char 44 #", " (default [] (fact f #"files.world_writable.sample")))
  end.

Definition mac_enforcing (f : Facts) : Outcome :=
  match fact f #"mac.system", fact f #"mac.enforcing" with
  | Some system, Some enforcing =>
      if str_eqb system #"none" then failed #"Neither SELinux nor AppArmor is installed."
      else if str_eqb enforcing #"yes" then passed (system ++ #" is enforcing.")
      else failed (system ++ #" is present but not enforcing.")
  | _, _ => missing f #"mac.system"
  end.

Definition updates_automatic (f : Facts) : Outcome :=
  match fact f #"updates.automatic" with
  | None => missing f #"updates.automatic"
  | Some v =>
      let manager := default #"package manager" (fact f #"updates.package_manager") in
      if str_eqb v #"enabled" then passed (#"Automatic updates are on (" ++ manager ++ #").")
      else if str_eqb v #"disabled" then failed (#"Automatic updates are off (" ++ manager ++ #").")
      else not_applicable #"This package manager has no standard automatic-update mechanism to check."
  end.

Definition tmp_separate (f : Facts) : Outcome :=
  match fact f #"mount.tmp.separate" with
  | None => missing f #"mount.tmp.separate"
  | Some v =>
      if str_eqb v #"yes" then passed (#"/tmp is mounted separately (" ++ default [] (fact f #"mount.tmp.options") ++ #").")
      else failed #"/tmp is part of the root filesystem."
  end.

Definition audit_rules_loaded (f : Facts) : Outcome :=
  if negb (is_fact f #"auditd.active" #"yes") then
    match fact f #"auditd.active" with
    | None => missing f #"auditd.active"
    | Some _ => not_applicable #"auditd isn't running (see AA-LNX-AUD-001)."
    end
  else int_where f #"auditd.rules" #"audit rules loaded" (Z.ltb 0) #"at least one".

Definition clock_synced (f : Facts) : Outcome :=
  match fact f #"time.sync" with
  | None => missing f #"time.sync"
  | Some service =>
      if str_eqb service #"none" then failed #"No time synchronization service is running."
      else passed (service ++ #" is running.")
  end.

(** ** [windows.rs] *)

Definition CREDENTIAL_VALIDATION : rstr := #"0CCE923F-69AE-11D9-BED3-505054503030".
Definition LOGON : rstr := #"0CCE9215-69AE-11D9-BED3-505054503030".
Definition SPECIAL_LOGON : rstr := #"0CCE921B-69AE-11D9-BED3-505054503030".
Definition ACCOUNT_LOCKOUT : rstr := #"0CCE9217-69AE-11D9-BED3-505054503030".
Definition USER_ACCOUNT_MANAGEMENT : rstr := #"0CCE9235-69AE-11D9-BED3-505054503030".
Definition SECURITY_GROUP_MANAGEMENT : rstr := #"0CCE9237-69AE-11D9-BED3-505054503030".
Definition PROCESS_CREATION : rstr := #"0CCE922B-69AE-11D9-BED3-505054503030".
Definition AUDIT_POLICY_CHANGE : rstr := #"0CCE922F-69AE-11D9-BED3-505054503030".
Definition SUCCESS : Z := 1.
Definition FAILURE : Z := 2.

Definition audit_setting_name (value : Z) : rstr :=
  match value with
  | 0%Z => #"No Auditing"
  | 1%Z => #"Success"
  | 2%Z => #"Failure"
  | 3%Z => #"Success and Failure"
  | _ => #"unknown"
  end.

Definition audit (f : Facts) (guid label : rstr) (need : Z) : Outcome :=
  let key := #"audit." ++ guid in
  match fact_int f key with
  | None =>
      match fact f key with
      | None => missing f key
      | Some v => failed (label ++ #": unreadable setting " ++ v)
      end
  | Some value =>
      let evidence := label ++ #": " ++ audit_setting_name value in
      if (Z.land value need =? need)%Z then passed evidence
      else failed (evidence ++ #" (want " ++ audit_setting_name (Z.lor need (Z.land value 3)) ++ #")")
  end.

Definition reg (f : Facts) (key : rstr) : result Outcome (option rstr) :=
  match fact f key with
  | None => Err (missing f key)
  | Some v => if str_eqb v #"absent" then Ok None else Ok (Some v)
  end.

Definition reg_is (f : Facts) (key label : rstr) (want : list rstr) (default_ok : bool) : Outcome :=
  match reg f key with
  | Err o => o
  | Ok None =>
      if default_ok then passed (label ++ #": not set (the Windows default is safe)")
      else failed (label ++ #": not set (the Windows default isn't)")
  | Ok (Some v) =>
      if existsb (λ w, eq_ignore_ascii_case w v) want then passed (label ++ #" = " ++ v) else failed (label ++ #" = " ++ v)
  end.

Definition policy (f : Facts) (name : rstr) (ok : Z → bool) (want : rstr) : Outcome :=
  int_where f (#"secedit." ++ name) name ok want.

Definition with_lockout (f : Facts) (rule : Facts → Outcome) : Outcome :=
  match fact_int f #"secedit.LockoutBadCount" with
  | None => missing f #"secedit.LockoutBadCount"
  | Some n => if (n =? 0)%Z then not_applicable #"Account lockout is off (see AA-WIN-LCK-001)." else rule f
  end.

Definition profile_on (f : Facts) (profile : rstr) : Outcome :=
  let key := #"fw." ++ profile ++ #".enabled" in
  match fact f key with
  | None => missing f key
  | Some v =>
      if eq_ignore_ascii_case v #"True" || eq_ignore_ascii_case v #"NotConfigured" then passed (profile ++ #" profile: on")
      else failed (profile ++ #" profile: Enabled = " ++ v)
  end.

Definition with_defender (f : Facts) (rule : Facts → Outcome) : Outcome :=
  if bool_decide (fact f #"defender.realtime" = None) then missing f #"defender.realtime" else rule f.

(** ** Rules of [windows.rs] *)

Definition debug_privilege (f : Facts) : Outcome :=
  if bool_decide (fact f #"secedit.MinimumPasswordLength" = None) then missing f #"secedit.SeDebugPrivilege"
  else match fact f #"secedit.SeDebugPrivilege" with
       | None => passed #"No account holds SeDebugPrivilege."
       | Some v =>
           let holders := trim <$> split_char $"," v in
           if forallb (str_eqb #"*S-1-5-32-544") holders then passed #"Held by Administrators only."
           else failed (#"Held by: " ++ join #", " holders)
       end.

Definition smb1_client (f : Facts) : Outcome :=
  match reg f #"smb.client.smb1_start" with
  | Err o => o
  | Ok None => passed #"The SMBv1 client driver (mrxsmb10) isn't installed."
  | Ok (Some v) =>
      if str_eqb v #"4" then passed #"The SMBv1 client driver is disabled (Start = 4)."
      else failed (#"The SMBv1 client driver is enabled (Start = " ++ v ++ #").")
  end.

(** The loop over the profiles: [Err] is the early return. *)
Fixpoint open_profiles (f : Facts) (profiles : list rstr) : result Outcome (list rstr) :=
  match profiles with
  | [] => Ok []
  | profile :: rest =>
      let key := #"fw." ++ profile ++ #".inbound" in
      match fact f key with
      | None => Err (missing f key)
      | Some v =>
          if eq_ignore_ascii_case v #"Block" || eq_ignore_ascii_case v #"NotConfigured" then open_profiles f rest
          else cons (profile ++ #": " ++ v) <$> open_profiles f rest
      end
  end.
Definition inbound_blocked (f : Facts) : Outcome :=
  match open_profiles f [ #"Domain"; #"Private"; #"Public"] with
  | Err o => o
  | Ok [] => passed #"Every profile blocks inbound by default."
  | Ok open => failed (#"Default inbound action: " ++ join #", " open)
  end.

Definition signatures_fresh (f : Facts) : Outcome :=
  match fact_int f #"defender.signature_age_days" with
  | None => missing f #"defender.signature_age_days"
  | Some n =>
      if (n =? 65535)%Z then failed #"Signatures have never been updated."
      else if (n <=? 3)%Z then passed (#"Signatures are " ++ fmt_Z n ++ #" day(s) old.")
      else failed (#"Signatures are " ++ fmt_Z n ++ #" days old.")
  end.

Definition netbios_off (f : Facts) : Outcome :=
  match fact f #"netbios.options" with
  | None => missing f #"netbios.options"
  | Some v =>
      if is_empty v then not_applicable #"No network adapter with IP enabled."
      else
        let on := length (List.filter (λ o, negb (str_eqb (trim o) #"2")) (split_char $"," v)) in
        if on =? 0 then passed #"Disabled on every adapter."
        else failed (#"Not disabled on " ++ fmt_N (N.of_nat on) ++ #" adapter(s) (TcpipNetbiosOptions: " ++ v ++ #"; 2 means off).")
  end.

(** A policy value where there is one, the local value where not. *)
Definition policy_or_local (f : Facts) (policy_key local_key : rstr) : result Outcome (option rstr) :=
  match reg f policy_key, reg f local_key with
  | Err o, _ => Err o
  | _, Err o => Err o
  | Ok (Some p), _ => Ok (Some p)
  | Ok None, Ok local => Ok local
  end.
Definition rdp_nla (f : Facts) : Outcome :=
  match policy_or_local f #"rdp.deny.policy" #"rdp.deny" with
  | Err o => o
  | Ok deny =>
      if bool_decide (deny = Some #"1") then not_applicable #"Remote Desktop is off."
      else match policy_or_local f #"rdp.nla.policy" #"rdp.nla" with
           | Err o => o
           | Ok None => passed #"UserAuthentication: not set (Windows requires NLA by default)"
           | Ok (Some v) =>
               if str_eqb v #"1" then passed #"UserAuthentication = 1" else failed (#"UserAuthentication = " ++ v)
           end
  end.

Definition update_service (f : Facts) : Outcome :=
  match fact f #"wu.start_type" with
  | None => missing f #"wu.start_type"
  | Some v =>
      if eq_ignore_ascii_case v #"Disabled" then failed #"wuauserv is Disabled." else passed (#"wuauserv start type: " ++ v)
  end.

Definition hotfix_fresh (f : Facts) : Outcome :=
  match fact_int f #"wu.last_hotfix_days" with
  | None => missing f #"wu.last_hotfix_days"
  | Some n =>
      let id := default #"the latest update" (fact f #"wu.last_hotfix") in
      if (n <=? 45)%Z then passed (id ++ #" installed " ++ fmt_Z n ++ #" day(s) ago.")
      else failed (id ++ #" installed " ++ fmt_Z n ++ #" days ago.")
  end.
