(* ===== verification/PostureCatalog.v ===== *)
(** * The catalogs of posture checks ([crates/posture/src/linux.rs], [windows.rs])

    One definition per check, with the texts it shows; and the evaluation of a
    report against them ([lib.rs]). *)

From Stdlib Require Import NArith ZArith Lia.
From stdpp Require Import gmap.
From S2P Require Import Prelude Agent AuditPages Posture.

Record Check := mkCheck {
  check_id : rstr; platform : Platform; category : rstr; title : rstr; rationale : rstr; remediation : rstr;
  command : option rstr; fix_with : option Fix; mitre : list rstr; rule : Facts → Outcome }.

Module LinuxCatalog.
Definition SSH_001 : Check := {|
  check_id := #"AA-LNX-SSH-001"; platform := Linux; category := #"SSH";
  title := #"SSH doesn't allow root to log in with a password";
  rationale := #"Root is the one account every attacker knows exists. Logging in as root directly also leaves no record of which administrator it was.";
  remediation := #"Set PermitRootLogin to no (or prohibit-password if root must log in with a key), then check the config and reload sshd. Make sure another administrator account can log in and use sudo first.";
  command := Some (#"echo 'PermitRootLogin no' | sudo tee /etc/ssh/sshd_config.d/50-hardening.conf" ++ [10]%N ++ #"sudo sshd -t && (sudo systemctl reload sshd || sudo systemctl reload ssh)");
  fix_with := Some (SshHardening #"disable_root_login"); mitre := [ #"T1110"; #"T1021.004"];
  rule := λ f, ssh f (λ f, one_of f #"sshd.permitrootlogin" #"PermitRootLogin" [ #"no"; #"prohibit-password"; #"without-password"; #"forced-commands-only"]) |}.
Definition SSH_002 : Check := {|
  check_id := #"AA-LNX-SSH-002"; platform := Linux; category := #"SSH";
  title := #"SSH password authentication is off";
  rationale := #"With passwords allowed, anyone on the network can guess at them. Keys can't be brute-forced.";
  remediation := #"Make sure every account that needs SSH has a key installed, then set PasswordAuthentication to no and reload sshd.";
  command := Some (#"echo 'PasswordAuthentication no' | sudo tee -a /etc/ssh/sshd_config.d/50-hardening.conf" ++ [10]%N ++ #"sudo sshd -t && (sudo systemctl reload sshd || sudo systemctl reload ssh)");
  fix_with := Some (SshHardening #"disable_password_auth"); mitre := [ #"T1110"; #"T1021.004"];
  rule := λ f, ssh f (λ f, one_of f #"sshd.passwordauthentication" #"PasswordAuthentication" [ #"no"]) |}.
Definition SSH_003 : Check := {|
  check_id := #"AA-LNX-SSH-003"; platform := Linux; category := #"SSH";
  title := #"SSH refuses accounts with empty passwords";
  rationale := #"An account with no password would be open to anyone who can reach the SSH port.";
  remediation := #"Set PermitEmptyPasswords to no and reload sshd.";
  command := Some (#"echo 'PermitEmptyPasswords no' | sudo tee -a /etc/ssh/sshd_config.d/50-hardening.conf" ++ [10]%N ++ #"sudo sshd -t && (sudo systemctl reload sshd || sudo systemctl reload ssh)");
  fix_with := Some (SshHardening #"disable_empty_passwords"); mitre := [ #"T1078"];
  rule := λ f, ssh f (λ f, one_of f #"sshd.permitemptypasswords" #"PermitEmptyPasswords" [ #"no"]) |}.
Definition SSH_004 : Check := {|
  check_id := #"AA-LNX-SSH-004"; platform := Linux; category := #"SSH";
  title := #"SSH allows at most 4 authentication attempts per connection";
  rationale := #"Fewer tries per connection slows password guessing and makes it show up sooner in the logs.";
  remediation := #"Set MaxAuthTries to 4 or less and reload sshd.";
  command := Some #"echo 'MaxAuthTries 4' | sudo tee -a /etc/ssh/sshd_config.d/50-hardening.conf";
  fix_with := None; mitre := [ #"T1110"];
  rule := λ f, ssh f (λ f, int_where f #"sshd.maxauthtries" #"MaxAuthTries" (between 1 4) #"4 or less") |}.
Definition SSH_005 : Check := {|
  check_id := #"AA-LNX-SSH-005"; platform := Linux; category := #"SSH";
  title := #"SSH X11 forwarding is off";
  rationale := #"X11 forwarding lets a compromised server reach back into the administrator's own desktop session.";
  remediation := #"Set X11Forwarding to no and reload sshd.";
  command := Some #"echo 'X11Forwarding no' | sudo tee -a /etc/ssh/sshd_config.d/50-hardening.conf";
  fix_with := Some (SshHardening #"disable_x11_forwarding"); mitre := [];
  rule := λ f, ssh f (λ f, one_of f #"sshd.x11forwarding" #"X11Forwarding" [ #"no"]) |}.
Definition SSH_006 : Check := {|
  check_id := #"AA-LNX-SSH-006"; platform := Linux; category := #"SSH";
  title := #"SSH host-based authentication is off";
  rationale := #"Host-based authentication trusts another machine's word about who a user is, so one compromised host opens this one.";
  remediation := #"Set HostbasedAuthentication to no and reload sshd.";
  command := Some #"echo 'HostbasedAuthentication no' | sudo tee -a /etc/ssh/sshd_config.d/50-hardening.conf";
  fix_with := None; mitre := [ #"T1021.004"];
  rule := λ f, ssh f (λ f, one_of f #"sshd.hostbasedauthentication" #"HostbasedAuthentication" [ #"no"]) |}.
Definition SSH_007 : Check := {|
  check_id := #"AA-LNX-SSH-007"; platform := Linux; category := #"SSH";
  title := #"SSH ignores .rhosts files";
  rationale := #".rhosts and .shosts files grant password-less access the way the old r* commands did.";
  remediation := #"Set IgnoreRhosts to yes and reload sshd.";
  command := Some #"echo 'IgnoreRhosts yes' | sudo tee -a /etc/ssh/sshd_config.d/50-hardening.conf";
  fix_with := None; mitre := [ #"T1021.004"];
  rule := λ f, ssh f (λ f, one_of f #"sshd.ignorerhosts" #"IgnoreRhosts" [ #"yes"]) |}.
Definition SSH_008 : Check := {|
  check_id := #"AA-LNX-SSH-008"; platform := Linux; category := #"SSH";
  title := #"SSH login grace time is 60 seconds or less";
  rationale := #"Unauthenticated connections held open for long tie up sshd and make connection-exhaustion attacks easier.";
  remediation := #"Set LoginGraceTime to 60 and reload sshd.";
  command := Some #"echo 'LoginGraceTime 60' | sudo tee -a /etc/ssh/sshd_config.d/50-hardening.conf";
  fix_with := None; mitre := [];
  rule := λ f, ssh f (λ f, int_where f #"sshd.logingracetime" #"LoginGraceTime" (between 1 60) #"1 to 60") |}.
Definition SSH_009 : Check := {|
  check_id := #"AA-LNX-SSH-009"; platform := Linux; category := #"SSH";
  title := #"SSH closes idle sessions";
  rationale := #"An unattended logged-in session is open to anyone at the keyboard, and dead connections otherwise linger.";
  remediation := #"Set ClientAliveInterval (seconds, up to 900) and ClientAliveCountMax (at least 1) and reload sshd.";
  command := Some #"printf 'ClientAliveInterval 300\nClientAliveCountMax 3\n' | sudo tee -a /etc/ssh/sshd_config.d/50-hardening.conf";
  fix_with := None; mitre := [];
  rule := λ f, ssh f closes_idle_sessions |}.
Definition SSH_010 : Check := {|
  check_id := #"AA-LNX-SSH-010"; platform := Linux; category := #"SSH";
  title := #"SSH doesn't let users set environment variables";
  rationale := #"PermitUserEnvironment lets a user's ~/.ssh/environment change things like LD_PRELOAD for the processes sshd starts.";
  remediation := #"Set PermitUserEnvironment to no and reload sshd.";
  command := Some #"echo 'PermitUserEnvironment no' | sudo tee -a /etc/ssh/sshd_config.d/50-hardening.conf";
  fix_with := None; mitre := [];
  rule := λ f, ssh f (λ f, one_of f #"sshd.permituserenvironment" #"PermitUserEnvironment" [ #"no"]) |}.
Definition SSH_011 : Check := {|
  check_id := #"AA-LNX-SSH-011"; platform := Linux; category := #"SSH";
  title := #"SSH logs at INFO or VERBOSE";
  rationale := #"Lower log levels drop the login records an investigation needs.";
  remediation := #"Set LogLevel to INFO (or VERBOSE to record key fingerprints) and reload sshd.";
  command := Some #"echo 'LogLevel VERBOSE' | sudo tee -a /etc/ssh/sshd_config.d/50-hardening.conf";
  fix_with := None; mitre := [ #"T1562"];
  rule := λ f, ssh f (λ f, one_of f #"sshd.loglevel" #"LogLevel" [ #"INFO"; #"VERBOSE"]) |}.
Definition SSH_012 : Check := {|
  check_id := #"AA-LNX-SSH-012"; platform := Linux; category := #"SSH";
  title := #"SSH allows at most 10 sessions per connection";
  rationale := #"Limits how much one connection can multiplex, which caps the damage from one hijacked connection.";
  remediation := #"Set MaxSessions to 10 or less and reload sshd.";
  command := Some #"echo 'MaxSessions 10' | sudo tee -a /etc/ssh/sshd_config.d/50-hardening.conf";
  fix_with := None; mitre := [];
  rule := λ f, ssh f (λ f, int_where f #"sshd.maxsessions" #"MaxSessions" (between 1 10) #"10 or less") |}.
Definition SSH_013 : Check := {|
  check_id := #"AA-LNX-SSH-013"; platform := Linux; category := #"SSH";
  title := #"SSH offers no weak ciphers";
  rationale := #"CBC-mode, RC4 (arcfour), 3DES and Blowfish ciphers have known weaknesses that let traffic be decrypted or tampered with.";
  remediation := #"List only modern ciphers in Ciphers and reload sshd.";
  command := Some #"echo 'Ciphers chacha20-poly1305@openssh.com,aes256-gcm@openssh.com,aes128-gcm@openssh.com,aes256-ctr,aes192-ctr,aes128-ctr' | sudo tee -a /etc/ssh/sshd_config.d/50-hardening.conf";
  fix_with := None; mitre := [];
  rule := λ f, ssh f (λ f, list_excludes f #"sshd.ciphers" #"ciphers" [ #"3des-cbc"; #"aes128-cbc"; #"aes192-cbc"; #"aes256-cbc"; #"arcfour"; #"arcfour128"; #"arcfour256"; #"blowfish-cbc"; #"cast128-cbc"; #"rijndael-cbc@lysator.liu.se"]) |}.
Definition SSH_014 : Check := {|
  check_id := #"AA-LNX-SSH-014"; platform := Linux; category := #"SSH";
  title := #"SSH offers no weak MACs";
  rationale := #"MD5-based and 96-bit or 64-bit truncated MACs are too weak to protect the session's integrity.";
  remediation := #"List only SHA-2 MACs in MACs and reload sshd.";
  command := Some #"echo 'MACs hmac-sha2-512-etm@openssh.com,hmac-sha2-256-etm@openssh.com,hmac-sha2-512,hmac-sha2-256' | sudo tee -a /etc/ssh/sshd_config.d/50-hardening.conf";
  fix_with := None; mitre := [];
  rule := λ f, ssh f (λ f, list_excludes f #"sshd.macs" #"MACs" [ #"hmac-md5"; #"hmac-md5-96"; #"hmac-md5-etm@openssh.com"; #"hmac-md5-96-etm@openssh.com"; #"hmac-sha1-96"; #"hmac-sha1-96-etm@openssh.com"; #"umac-64@openssh.com"; #"umac-64-etm@openssh.com"; #"hmac-ripemd160"]) |}.
Definition SSH_015 : Check := {|
  check_id := #"AA-LNX-SSH-015"; platform := Linux; category := #"SSH";
  title := #"SSH offers no weak key exchange";
  rationale := #"SHA-1 Diffie-Hellman key exchange (group1, group14-sha1, group-exchange-sha1) is considered broken for new connections.";
  remediation := #"List only modern algorithms in KexAlgorithms and reload sshd.";
  command := Some #"echo 'KexAlgorithms curve25519-sha256,curve25519-sha256@libssh.org,diffie-hellman-group16-sha512,diffie-hellman-group18-sha512,diffie-hellman-group-exchange-sha256' | sudo tee -a /etc/ssh/sshd_config.d/50-hardening.conf";
  fix_with := None; mitre := [];
  rule := λ f, ssh f (λ f, list_excludes f #"sshd.kexalgorithms" #"key exchange algorithms" [ #"diffie-hellman-group1-sha1"; #"diffie-hellman-group14-sha1"; #"diffie-hellman-group-exchange-sha1"]) |}.
Definition KRN_001 : Check := {|
  check_id := #"AA-LNX-KRN-001"; platform := Linux; category := #"Kernel";
  title := #"Address space layout randomization is full";
  rationale := #"Randomizing where code and data load makes memory-corruption exploits much harder to write reliably.";
  remediation := #"Set kernel.randomize_va_space to 2.";
  command := Some #"echo 'kernel.randomize_va_space = 2' | sudo tee -a /etc/sysctl.d/60-hardening.conf && sudo sysctl --system";
  fix_with := Some SysctlBaseline; mitre := [];
  rule := λ f, sysctl_is f #"kernel.randomize_va_space" [ #"2"] |}.
Definition KRN_002 : Check := {|
  check_id := #"AA-LNX-KRN-002"; platform := Linux; category := #"Kernel";
  title := #"Reverse-path filtering is on";
  rationale := #"Drops packets whose source address couldn't have arrived on the interface they came in on, a common spoofing technique.";
  remediation := #"Set net.ipv4.conf.all.rp_filter (or .default, which new interfaces start from) to 1 (strict) or 2 (loose, for hosts with asymmetric routing).";
  command := Some #"echo 'net.ipv4.conf.all.rp_filter = 1' | sudo tee -a /etc/sysctl.d/60-hardening.conf && sudo sysctl --system";
  fix_with := Some SysctlBaseline; mitre := [];
  rule := λ f, reverse_path_filtering f |}.
Definition KRN_003 : Check := {|
  check_id := #"AA-LNX-KRN-003"; platform := Linux; category := #"Kernel";
  title := #"ICMP redirects are ignored";
  rationale := #"An attacker on the local network can send ICMP redirects to route this host's traffic through their machine.";
  remediation := #"Set net.ipv4.conf.all.accept_redirects and net.ipv4.conf.default.accept_redirects to 0.";
  command := Some #"printf 'net.ipv4.conf.all.accept_redirects = 0\nnet.ipv4.conf.default.accept_redirects = 0\n' | sudo tee -a /etc/sysctl.d/60-hardening.conf && sudo sysctl --system";
  fix_with := Some SysctlBaseline; mitre := [ #"T1557"];
  rule := λ f, redirects_ignored f |}.
Definition KRN_004 : Check := {|
  check_id := #"AA-LNX-KRN-004"; platform := Linux; category := #"Kernel";
  title := #"Secure ICMP redirects are ignored";
  rationale := [34]%N ++ #"Secure" ++ [34]%N ++ #" redirects only come from listed gateways, but a compromised gateway can still use them to reroute traffic.";
  remediation := #"Set net.ipv4.conf.all.secure_redirects to 0.";
  command := Some #"echo 'net.ipv4.conf.all.secure_redirects = 0' | sudo tee -a /etc/sysctl.d/60-hardening.conf && sudo sysctl --system";
  fix_with := None; mitre := [ #"T1557"];
  rule := λ f, sysctl_is f #"net.ipv4.conf.all.secure_redirects" [ #"0"] |}.
Definition KRN_005 : Check := {|
  check_id := #"AA-LNX-KRN-005"; platform := Linux; category := #"Kernel";
  title := #"This host doesn't send ICMP redirects";
  rationale := #"Only routers should tell other hosts to change routes. A host that does can be used to misdirect its neighbours.";
  remediation := #"Set net.ipv4.conf.all.send_redirects to 0. (Not checked on hosts that forward packets, such as routers and container hosts.)";
  command := Some #"echo 'net.ipv4.conf.all.send_redirects = 0' | sudo tee -a /etc/sysctl.d/60-hardening.conf && sudo sysctl --system";
  fix_with := Some SysctlBaseline; mitre := [];
  rule := λ f, redirects_not_sent f |}.
Definition KRN_006 : Check := {|
  check_id := #"AA-LNX-KRN-006"; platform := Linux; category := #"Kernel";
  title := #"Source-routed packets are refused";
  rationale := #"Source routing lets the sender choose the path, which can get packets past filtering.";
  remediation := #"Set net.ipv4.conf.all.accept_source_route to 0.";
  command := Some #"echo 'net.ipv4.conf.all.accept_source_route = 0' | sudo tee -a /etc/sysctl.d/60-hardening.conf && sudo sysctl --system";
  fix_with := Some SysctlBaseline; mitre := [];
  rule := λ f, sysctl_is f #"net.ipv4.conf.all.accept_source_route" [ #"0"] |}.
Definition KRN_007 : Check := {|
  check_id := #"AA-LNX-KRN-007"; platform := Linux; category := #"Kernel";
  title := #"Martian packets are logged";
  rationale := #"Packets with impossible source addresses are a sign of spoofing or misconfiguration, worth having in the log.";
  remediation := #"Set net.ipv4.conf.all.log_martians to 1.";
  command := Some #"echo 'net.ipv4.conf.all.log_martians = 1' | sudo tee -a /etc/sysctl.d/60-hardening.conf && sudo sysctl --system";
  fix_with := Some SysctlBaseline; mitre := [];
  rule := λ f, martians_logged f |}.
Definition KRN_008 : Check := {|
  check_id := #"AA-LNX-KRN-008"; platform := Linux; category := #"Kernel";
  title := #"Broadcast pings are ignored";
  rationale := #"Answering broadcast ICMP makes this host an amplifier in smurf-style floods.";
  remediation := #"Set net.ipv4.icmp_echo_ignore_broadcasts to 1.";
  command := Some #"echo 'net.ipv4.icmp_echo_ignore_broadcasts = 1' | sudo tee -a /etc/sysctl.d/60-hardening.conf && sudo sysctl --system";
  fix_with := Some SysctlBaseline; mitre := [];
  rule := λ f, sysctl_is f #"net.ipv4.icmp_echo_ignore_broadcasts" [ #"1"] |}.
Definition KRN_009 : Check := {|
  check_id := #"AA-LNX-KRN-009"; platform := Linux; category := #"Kernel";
  title := #"Bogus ICMP error responses are ignored";
  rationale := #"Keeps malformed ICMP error replies from filling the log.";
  remediation := #"Set net.ipv4.icmp_ignore_bogus_error_responses to 1.";
  command := Some #"echo 'net.ipv4.icmp_ignore_bogus_error_responses = 1' | sudo tee -a /etc/sysctl.d/60-hardening.conf && sudo sysctl --system";
  fix_with := None; mitre := [];
  rule := λ f, sysctl_is f #"net.ipv4.icmp_ignore_bogus_error_responses" [ #"1"] |}.
Definition KRN_010 : Check := {|
  check_id := #"AA-LNX-KRN-010"; platform := Linux; category := #"Kernel";
  title := #"TCP SYN cookies are on";
  rationale := #"SYN cookies keep the host answering legitimate connections during a SYN flood.";
  remediation := #"Set net.ipv4.tcp_syncookies to 1.";
  command := Some #"echo 'net.ipv4.tcp_syncookies = 1' | sudo tee -a /etc/sysctl.d/60-hardening.conf && sudo sysctl --system";
  fix_with := Some SysctlBaseline; mitre := [ #"T1499"];
  rule := λ f, sysctl_is f #"net.ipv4.tcp_syncookies" [ #"1"] |}.
Definition KRN_011 : Check := {|
  check_id := #"AA-LNX-KRN-011"; platform := Linux; category := #"Kernel";
  title := #"IPv6 redirects are ignored";
  rationale := #"The IPv6 equivalent of ICMP redirects, with the same rerouting risk.";
  remediation := #"Set net.ipv6.conf.all.accept_redirects and net.ipv6.conf.default.accept_redirects to 0.";
  command := Some #"printf 'net.ipv6.conf.all.accept_redirects = 0\nnet.ipv6.conf.default.accept_redirects = 0\n' | sudo tee -a /etc/sysctl.d/60-hardening.conf && sudo sysctl --system";
  fix_with := Some SysctlBaseline; mitre := [ #"T1557"];
  rule := λ f, ipv6_redirects_ignored f |}.
Definition KRN_012 : Check := {|
  check_id := #"AA-LNX-KRN-012"; platform := Linux; category := #"Kernel";
  title := #"Only root can read the kernel log";
  rationale := #"The kernel log can reveal memory addresses that help an exploit get past address randomization.";
  remediation := #"Set kernel.dmesg_restrict to 1.";
  command := Some #"echo 'kernel.dmesg_restrict = 1' | sudo tee -a /etc/sysctl.d/60-hardening.conf && sudo sysctl --system";
  fix_with := Some SysctlBaseline; mitre := [];
  rule := λ f, sysctl_is f #"kernel.dmesg_restrict" [ #"1"] |}.
Definition KRN_013 : Check := {|
  check_id := #"AA-LNX-KRN-013"; platform := Linux; category := #"Kernel";
  title := #"Kernel pointers are hidden";
  rationale := #"Kernel addresses in /proc help an attacker defeat kernel address randomization.";
  remediation := #"Set kernel.kptr_restrict to 1 or 2.";
  command := Some #"echo 'kernel.kptr_restrict = 1' | sudo tee -a /etc/sysctl.d/60-hardening.conf && sudo sysctl --system";
  fix_with := Some SysctlBaseline; mitre := [];
  rule := λ f, sysctl_at_least f #"kernel.kptr_restrict" 1 #"1 or more" |}.
Definition KRN_014 : Check := {|
  check_id := #"AA-LNX-KRN-014"; platform := Linux; category := #"Kernel";
  title := #"ptrace is limited to parent processes";
  rationale := #"Unrestricted ptrace lets any process read the memory of others run by the same user, including credentials in a shell or browser.";
  remediation := #"Set kernel.yama.ptrace_scope to 1 (or higher).";
  command := Some #"echo 'kernel.yama.ptrace_scope = 1' | sudo tee -a /etc/sysctl.d/60-hardening.conf && sudo sysctl --system";
  fix_with := None; mitre := [ #"T1055.008"];
  rule := λ f, unless_unsupported f #"sysctl.kernel.yama.ptrace_scope" #"The Yama security module isn't loaded on this kernel." (λ f, sysctl_at_least f #"kernel.yama.ptrace_scope" 1 #"1 or more") |}.
Definition KRN_015 : Check := {|
  check_id := #"AA-LNX-KRN-015"; platform := Linux; category := #"Kernel";
  title := #"Hard links are protected";
  rationale := #"Stops users creating hard links to files they don't own, a classic way to trick a privileged program.";
  remediation := #"Set fs.protected_hardlinks to 1.";
  command := Some #"echo 'fs.protected_hardlinks = 1' | sudo tee -a /etc/sysctl.d/60-hardening.conf && sudo sysctl --system";
  fix_with := None; mitre := [];
  rule := λ f, sysctl_is f #"fs.protected_hardlinks" [ #"1"] |}.
Definition KRN_016 : Check := {|
  check_id := #"AA-LNX-KRN-016"; platform := Linux; category := #"Kernel";
  title := #"Symbolic links are protected";
  rationale := #"Stops symlink races in world-writable sticky directories like /tmp.";
  remediation := #"Set fs.protected_symlinks to 1.";
  command := Some #"echo 'fs.protected_symlinks = 1' | sudo tee -a /etc/sysctl.d/60-hardening.conf && sudo sysctl --system";
  fix_with := None; mitre := [];
  rule := λ f, sysctl_is f #"fs.protected_symlinks" [ #"1"] |}.
Definition KRN_017 : Check := {|
  check_id := #"AA-LNX-KRN-017"; platform := Linux; category := #"Kernel";
  title := #"Setuid programs don't dump core";
  rationale := #"A core dump from a setuid program can contain secrets it read as root, such as password hashes.";
  remediation := #"Set fs.suid_dumpable to 0.";
  command := Some #"echo 'fs.suid_dumpable = 0' | sudo tee -a /etc/sysctl.d/60-hardening.conf && sudo sysctl --system";
  fix_with := None; mitre := [];
  rule := λ f, sysctl_is f #"fs.suid_dumpable" [ #"0"] |}.
Definition KRN_018 : Check := {|
  check_id := #"AA-LNX-KRN-018"; platform := Linux; category := #"Kernel";
  title := #"Unprivileged users can't load BPF programs";
  rationale := #"Unprivileged BPF has been the way in for several kernel privilege-escalation exploits.";
  remediation := #"Set kernel.unprivileged_bpf_disabled to 1.";
  command := Some #"echo 'kernel.unprivileged_bpf_disabled = 1' | sudo tee -a /etc/sysctl.d/60-hardening.conf && sudo sysctl --system";
  fix_with := None; mitre := [ #"T1068"];
  rule := λ f, unless_unsupported f #"sysctl.kernel.unprivileged_bpf_disabled" #"This kernel has no unprivileged BPF setting." (λ f, sysctl_at_least f #"kernel.unprivileged_bpf_disabled" 1 #"1 or 2") |}.
Definition FW_001 : Check := {|
  check_id := #"AA-LNX-FW-001"; platform := Linux; category := #"Firewall";
  title := #"A host firewall is active";
  rationale := #"Without a firewall, every service listening on the host is reachable from the network, including ones started by mistake.";
  remediation := #"Enable the host's firewall (ufw, firewalld or nftables). Allow SSH before enabling it, or you'll lock yourself out.";
  command := Some (#"sudo ufw allow OpenSSH && sudo ufw enable" ++ [10]%N ++ #"# or: sudo systemctl enable --now firewalld");
  fix_with := Some FirewallEnable; mitre := [ #"T1562.004"];
  rule := λ f, firewall_active f |}.
Definition FW_002 : Check := {|
  check_id := #"AA-LNX-FW-002"; platform := Linux; category := #"Firewall";
  title := #"The firewall drops inbound traffic by default";
  rationale := #"Default-deny means a new service is unreachable until it's deliberately allowed, rather than exposed until someone notices.";
  remediation := #"Set the incoming default to deny (ufw default deny incoming) or the input chain's policy to drop, after allowing what must stay reachable.";
  command := Some #"sudo ufw default deny incoming";
  fix_with := None; mitre := [ #"T1562.004"];
  rule := λ f, firewall_denies f |}.
Definition AUTH_001 : Check := {|
  check_id := #"AA-LNX-AUTH-001"; platform := Linux; category := #"Accounts";
  title := #"Passwords expire within 365 days";
  rationale := #"A password that never expires stays useful to whoever learns it, for as long as the account exists.";
  remediation := #"Set PASS_MAX_DAYS to 365 or less in /etc/login.defs. Existing accounts keep their own setting: change them with chage --maxdays.";
  command := Some #"sudo sed -i 's/^PASS_MAX_DAYS.*/PASS_MAX_DAYS   365/' /etc/login.defs";
  fix_with := None; mitre := [ #"T1110"];
  rule := λ f, int_where f #"logindefs.PASS_MAX_DAYS" #"PASS_MAX_DAYS" (between 1 365) #"1 to 365" |}.
Definition AUTH_002 : Check := {|
  check_id := #"AA-LNX-AUTH-002"; platform := Linux; category := #"Accounts";
  title := #"Passwords can't be changed again the same day";
  rationale := #"A minimum age stops users cycling straight back to their old password.";
  remediation := #"Set PASS_MIN_DAYS to 1 or more in /etc/login.defs.";
  command := Some #"sudo sed -i 's/^PASS_MIN_DAYS.*/PASS_MIN_DAYS   1/' /etc/login.defs";
  fix_with := None; mitre := [];
  rule := λ f, int_where f #"logindefs.PASS_MIN_DAYS" #"PASS_MIN_DAYS" (Z.leb 1) #"1 or more" |}.
Definition AUTH_003 : Check := {|
  check_id := #"AA-LNX-AUTH-003"; platform := Linux; category := #"Accounts";
  title := #"Users are warned 7 days before a password expires";
  rationale := #"Without warning, expiring passwords lock people out and push them toward weak last-minute choices.";
  remediation := #"Set PASS_WARN_AGE to 7 or more in /etc/login.defs.";
  command := Some #"sudo sed -i 's/^PASS_WARN_AGE.*/PASS_WARN_AGE   7/' /etc/login.defs";
  fix_with := None; mitre := [];
  rule := λ f, int_where f #"logindefs.PASS_WARN_AGE" #"PASS_WARN_AGE" (Z.leb 7) #"7 or more" |}.
Definition AUTH_004 : Check := {|
  check_id := #"AA-LNX-AUTH-004"; platform := Linux; category := #"Accounts";
  title := #"Passwords are hashed with SHA-512 or yescrypt";
  rationale := #"Older hashes (MD5, DES) crack quickly if /etc/shadow is ever copied.";
  remediation := #"Set ENCRYPT_METHOD to YESCRYPT (or SHA512) in /etc/login.defs. Hashes change as users next set their passwords.";
  command := Some #"sudo sed -i 's/^ENCRYPT_METHOD.*/ENCRYPT_METHOD YESCRYPT/' /etc/login.defs";
  fix_with := None; mitre := [ #"T1110.002"];
  rule := λ f, one_of f #"logindefs.ENCRYPT_METHOD" #"ENCRYPT_METHOD" [ #"SHA512"; #"YESCRYPT"] |}.
Definition AUTH_005 : Check := {|
  check_id := #"AA-LNX-AUTH-005"; platform := Linux; category := #"Accounts";
  title := #"Passwords must be at least 14 characters";
  rationale := #"Length is the single biggest factor in how long a password takes to guess.";
  remediation := #"Enable pam_pwquality and set minlen = 14 in /etc/security/pwquality.conf.";
  command := Some #"echo 'minlen = 14' | sudo tee /etc/security/pwquality.conf.d/50-length.conf";
  fix_with := None; mitre := [ #"T1110"];
  rule := λ f, password_length f |}.
Definition AUTH_006 : Check := {|
  check_id := #"AA-LNX-AUTH-006"; platform := Linux; category := #"Accounts";
  title := #"Accounts lock after repeated failed logins";
  rationale := #"Locking after a handful of failures stops online password guessing.";
  remediation := #"Enable pam_faillock (authselect enable-feature with-faillock on RHEL-family hosts) with deny = 5 or less in /etc/security/faillock.conf.";
  command := Some (#"sudo authselect enable-feature with-faillock" ++ [10]%N ++ #"echo 'deny = 5' | sudo tee -a /etc/security/faillock.conf");
  fix_with := None; mitre := [ #"T1110.001"];
  rule := λ f, lockout_configured f |}.
Definition AUTH_007 : Check := {|
  check_id := #"AA-LNX-AUTH-007"; platform := Linux; category := #"Accounts";
  title := #"Only root has UID 0";
  rationale := #"Any other UID 0 account is a second root, often a backdoor.";
  remediation := #"Find out why the account exists. Remove it or give it its own UID with usermod -u.";
  command := Some #"awk -F: '$3 == 0' /etc/passwd";
  fix_with := None; mitre := [ #"T1078.003"; #"T1136.001"];
  rule := λ f, list_empty f #"accounts.uid0_extra" #"other UID 0 accounts" |}.
Definition AUTH_008 : Check := {|
  check_id := #"AA-LNX-AUTH-008"; platform := Linux; category := #"Accounts";
  title := #"No account has an empty password";
  rationale := #"An empty password means anyone can log in as that account wherever passwords are accepted.";
  remediation := #"Lock the account (passwd -l) or set a password.";
  command := Some #"sudo passwd -l <account>";
  fix_with := None; mitre := [ #"T1078"];
  rule := λ f, list_empty f #"accounts.empty_password" #"accounts with empty passwords" |}.
Definition AUTH_009 : Check := {|
  check_id := #"AA-LNX-AUTH-009"; platform := Linux; category := #"Accounts";
  title := #"New files aren't readable by everyone";
  rationale := #"With the common umask 022, every file a user creates is world-readable unless they think about it.";
  remediation := #"Set UMASK to 027 (or 077) in /etc/login.defs.";
  command := Some #"sudo sed -i 's/^UMASK.*/UMASK           027/' /etc/login.defs";
  fix_with := None; mitre := [];
  rule := λ f, umask_strict f |}.
Definition FILE_001 : Check := {|
  check_id := #"AA-LNX-FILE-001"; platform := Linux; category := #"Files";
  title := #"/etc/passwd is 644 or stricter, owned by root";
  rationale := #"A writable /etc/passwd lets anyone add an account or give themselves UID 0.";
  remediation := #"Reset the owner and mode.";
  command := Some #"sudo chown root:root /etc/passwd && sudo chmod 644 /etc/passwd";
  fix_with := None; mitre := [ #"T1222.002"];
  rule := λ f, file_mode f #"passwd" #"/etc/passwd" 420 |}.
Definition FILE_002 : Check := {|
  check_id := #"AA-LNX-FILE-002"; platform := Linux; category := #"Files";
  title := #"/etc/shadow is 640 or stricter, owned by root";
  rationale := #"/etc/shadow holds every password hash. Anyone who can read it can try to crack them offline.";
  remediation := #"Reset the owner and mode (the group is shadow on Debian-family hosts).";
  command := Some #"sudo chown root /etc/shadow && sudo chmod 640 /etc/shadow";
  fix_with := None; mitre := [ #"T1003.008"];
  rule := λ f, file_mode f #"shadow" #"/etc/shadow" 416 |}.
Definition FILE_003 : Check := {|
  check_id := #"AA-LNX-FILE-003"; platform := Linux; category := #"Files";
  title := #"/etc/group is 644 or stricter, owned by root";
  rationale := #"A writable /etc/group lets anyone add themselves to sudo or wheel.";
  remediation := #"Reset the owner and mode.";
  command := Some #"sudo chown root:root /etc/group && sudo chmod 644 /etc/group";
  fix_with := None; mitre := [ #"T1222.002"];
  rule := λ f, file_mode f #"group" #"/etc/group" 420 |}.
Definition FILE_004 : Check := {|
  check_id := #"AA-LNX-FILE-004"; platform := Linux; category := #"Files";
  title := #"/etc/gshadow is 640 or stricter, owned by root";
  rationale := #"/etc/gshadow holds group passwords and administrators.";
  remediation := #"Reset the owner and mode.";
  command := Some #"sudo chown root /etc/gshadow && sudo chmod 640 /etc/gshadow";
  fix_with := None; mitre := [ #"T1222.002"];
  rule := λ f, file_mode f #"gshadow" #"/etc/gshadow" 416 |}.
Definition FILE_005 : Check := {|
  check_id := #"AA-LNX-FILE-005"; platform := Linux; category := #"Files";
  title := #"No world-writable files in system directories";
  rationale := #"A world-writable file in /etc or a bin directory lets any user change what root runs or reads.";
  remediation := #"Remove the write bit for others from each file listed (chmod o-w), after checking what put it there.";
  command := Some #"sudo find /etc /usr/bin /usr/sbin /usr/local/bin /usr/local/sbin -xdev -type f -perm -0002";
  fix_with := None; mitre := [ #"T1222.002"];
  rule := λ f, no_world_writable f |}.
Definition MAC_001 : Check := {|
  check_id := #"AA-LNX-MAC-001"; platform := Linux; category := #"Protection";
  title := #"SELinux or AppArmor is enforcing";
  rationale := #"Mandatory access control confines services, so a compromised one can't reach beyond what its policy allows.";
  remediation := #"Put SELinux in enforcing mode (setenforce 1, and SELINUX=enforcing in /etc/selinux/config), or enable AppArmor with its profiles enforcing.";
  command := Some (#"sudo setenforce 1   # SELinux" ++ [10]%N ++ #"sudo aa-enforce /etc/apparmor.d/*   # AppArmor");
  fix_with := None; mitre := [];
  rule := λ f, mac_enforcing f |}.
Definition UPD_001 : Check := {|
  check_id := #"AA-LNX-UPD-001"; platform := Linux; category := #"Protection";
  title := #"Security updates install automatically";
  rationale := #"Most compromises use vulnerabilities that already have a fix. Automatic updates close that window without anyone having to remember.";
  remediation := #"Debian/Ubuntu: install and enable unattended-upgrades. RHEL/Fedora: install dnf-automatic and enable its timer.";
  command := Some (#"sudo dpkg-reconfigure -plow unattended-upgrades   # Debian/Ubuntu" ++ [10]%N ++ #"sudo systemctl enable --now dnf-automatic-install.timer   # RHEL/Fedora");
  fix_with := None; mitre := [];
  rule := λ f, updates_automatic f |}.
Definition MNT_001 : Check := {|
  check_id := #"AA-LNX-MNT-001"; platform := Linux; category := #"Mounts";
  title := #"/tmp is a separate mount";
  rationale := #"A separate /tmp can be mounted nosuid and nodev, and filling it can't fill the root filesystem.";
  remediation := #"Mount /tmp as tmpfs (systemctl enable tmp.mount) or give it its own partition in /etc/fstab.";
  command := Some #"sudo systemctl enable --now tmp.mount";
  fix_with := None; mitre := [];
  rule := λ f, tmp_separate f |}.
Definition MNT_002 : Check := {|
  check_id := #"AA-LNX-MNT-002"; platform := Linux; category := #"Mounts";
  title := #"/tmp is mounted nosuid and nodev";
  rationale := #"Anyone can write to /tmp, so it shouldn't honour setuid bits or device files.";
  remediation := #"Add nosuid,nodev to /tmp's options in /etc/fstab (or tmp.mount) and remount.";
  command := Some #"sudo mount -o remount,nosuid,nodev /tmp";
  fix_with := None; mitre := [];
  rule := λ f, mount_has f #"tmp" #"/tmp" [ #"nosuid"; #"nodev"] |}.
Definition MNT_003 : Check := {|
  check_id := #"AA-LNX-MNT-003"; platform := Linux; category := #"Mounts";
  title := #"/dev/shm is mounted nosuid, nodev and noexec";
  rationale := #"Shared memory is world-writable, a common place to drop and run attack tools from.";
  remediation := #"Add nosuid,nodev,noexec to /dev/shm in /etc/fstab and remount.";
  command := Some #"sudo mount -o remount,nosuid,nodev,noexec /dev/shm";
  fix_with := None; mitre := [];
  rule := λ f, mount_has f #"dev_shm" #"/dev/shm" [ #"nosuid"; #"nodev"; #"noexec"] |}.
Definition SVC_001 : Check := {|
  check_id := #"AA-LNX-SVC-001"; platform := Linux; category := #"Services";
  title := #"No legacy cleartext services are enabled";
  rationale := #"telnet, rsh, rlogin, rexec, TFTP, FTP, NIS and talk send credentials or data unencrypted.";
  remediation := #"Disable each service listed and use SSH/SFTP instead.";
  command := Some #"sudo systemctl disable --now <unit>";
  fix_with := None; mitre := [ #"T1040"];
  rule := λ f, with_systemd f (λ f, list_empty f #"services.legacy_enabled" #"legacy services enabled") |}.
Definition AUD_001 : Check := {|
  check_id := #"AA-LNX-AUD-001"; platform := Linux; category := #"Logging";
  title := #"auditd is running";
  rationale := #"The audit daemon records security events (logins, privilege use, file changes) that ordinary logs don't.";
  remediation := #"Install auditd and enable it.";
  command := Some #"sudo systemctl enable --now auditd";
  fix_with := None; mitre := [ #"T1562.012"];
  rule := λ f, with_systemd f (λ f, one_of f #"auditd.active" #"auditd running" [ #"yes"]) |}.
Definition AUD_002 : Check := {|
  check_id := #"AA-LNX-AUD-002"; platform := Linux; category := #"Logging";
  title := #"Audit rules are loaded";
  rationale := #"auditd with no rules records almost nothing.";
  remediation := #"Add rules under /etc/audit/rules.d/ (your distribution's sample rules, or a published baseline), then load them with augenrules --load.";
  command := Some #"sudo augenrules --load && sudo auditctl -l";
  fix_with := None; mitre := [ #"T1562.012"];
  rule := λ f, with_systemd f audit_rules_loaded |}.
Definition TIME_001 : Check := {|
  check_id := #"AA-LNX-TIME-001"; platform := Linux; category := #"Logging";
  title := #"The clock is kept in sync";
  rationale := #"Accurate time is what lets logs from different hosts be lined up during an investigation, and Kerberos and TLS depend on it.";
  remediation := #"Enable chrony or systemd-timesyncd.";
  command := Some #"sudo systemctl enable --now chronyd   # or systemd-timesyncd";
  fix_with := None; mitre := [];
  rule := λ f, with_systemd f clock_synced |}.
Definition CHECKS : list Check :=
  [SSH_001; SSH_002; SSH_003; SSH_004; SSH_005; SSH_006; SSH_007; SSH_008; SSH_009; SSH_010; SSH_011;
   SSH_012; SSH_013; SSH_014; SSH_015; KRN_001; KRN_002; KRN_003; KRN_004; KRN_005; KRN_006; KRN_007;
   KRN_008; KRN_009; KRN_010; KRN_011; KRN_012; KRN_013; KRN_014; KRN_015; KRN_016; KRN_017; KRN_018; FW_001;
   FW_002; AUTH_001; AUTH_002; AUTH_003; AUTH_004; AUTH_005; AUTH_006; AUTH_007; AUTH_008; AUTH_009;
   FILE_001; FILE_002; FILE_003; FILE_004; FILE_005; MAC_001; UPD_001; MNT_001; MNT_002; MNT_003; SVC_001;
   AUD_001; AUD_002; TIME_001].
End LinuxCatalog.

Module WindowsCatalog.
Definition PWD_001 : Check := {|
  check_id := #"AA-WIN-PWD-001"; platform := Windows; category := #"Passwords";
  title := #"Passwords must be at least 14 characters";
  rationale := #"Length is the single biggest factor in how long a password takes to guess.";
  remediation := #"Set Minimum password length to 14 or more.";
  command := Some (#"Computer Configuration > Windows Settings > Security Settings > Account Policies > Password Policy > Minimum password length" ++ [10]%N ++ #"net accounts /minpwlen:14");
  fix_with := None; mitre := [ #"T1110"];
  rule := λ f, policy f #"MinimumPasswordLength" (Z.leb 14) #"14 or more" |}.
Definition PWD_002 : Check := {|
  check_id := #"AA-WIN-PWD-002"; platform := Windows; category := #"Passwords";
  title := #"Password complexity is required";
  rationale := #"Complexity rules rule out the dictionary words and names attackers try first.";
  remediation := #"Enable Password must meet complexity requirements.";
  command := Some #"Computer Configuration > Windows Settings > Security Settings > Account Policies > Password Policy > Password must meet complexity requirements";
  fix_with := None; mitre := [ #"T1110"];
  rule := λ f, one_of f #"secedit.PasswordComplexity" #"PasswordComplexity" [ #"1"] |}.
Definition PWD_003 : Check := {|
  check_id := #"AA-WIN-PWD-003"; platform := Windows; category := #"Passwords";
  title := #"Passwords expire within 365 days";
  rationale := #"A password that never expires stays useful to whoever learns it.";
  remediation := #"Set Maximum password age to between 1 and 365 days.";
  command := Some #"net accounts /maxpwage:365";
  fix_with := None; mitre := [ #"T1110"];
  rule := λ f, policy f #"MaximumPasswordAge" (between 1 365) #"1 to 365 days" |}.
Definition PWD_004 : Check := {|
  check_id := #"AA-WIN-PWD-004"; platform := Windows; category := #"Passwords";
  title := #"Passwords can't be changed again the same day";
  rationale := #"A minimum age stops users cycling through the history straight back to their old password.";
  remediation := #"Set Minimum password age to 1 day or more.";
  command := Some #"net accounts /minpwage:1";
  fix_with := None; mitre := [];
  rule := λ f, policy f #"MinimumPasswordAge" (Z.leb 1) #"1 or more" |}.
Definition PWD_005 : Check := {|
  check_id := #"AA-WIN-PWD-005"; platform := Windows; category := #"Passwords";
  title := #"The last 24 passwords can't be reused";
  rationale := #"Without a history, users just set the same password again when it expires.";
  remediation := #"Set Enforce password history to 24.";
  command := Some #"net accounts /uniquepw:24";
  fix_with := None; mitre := [];
  rule := λ f, policy f #"PasswordHistorySize" (Z.leb 24) #"24 or more" |}.
Definition PWD_006 : Check := {|
  check_id := #"AA-WIN-PWD-006"; platform := Windows; category := #"Passwords";
  title := #"Passwords aren't stored with reversible encryption";
  rationale := #"Reversible encryption is effectively plain text to anyone who gets the account database.";
  remediation := #"Disable Store passwords using reversible encryption.";
  command := Some #"Computer Configuration > Windows Settings > Security Settings > Account Policies > Password Policy > Store passwords using reversible encryption: Disabled";
  fix_with := None; mitre := [ #"T1003"];
  rule := λ f, one_of f #"secedit.ClearTextPassword" #"ClearTextPassword" [ #"0"] |}.
Definition LCK_001 : Check := {|
  check_id := #"AA-WIN-LCK-001"; platform := Windows; category := #"Lockout";
  title := #"Accounts lock after at most 10 failed logins";
  rationale := #"Without lockout, passwords can be guessed online for as long as an attacker likes.";
  remediation := #"Set Account lockout threshold to between 1 and 10 (5 is common).";
  command := Some #"net accounts /lockoutthreshold:5";
  fix_with := None; mitre := [ #"T1110.001"];
  rule := λ f, policy f #"LockoutBadCount" (between 1 10) #"1 to 10 (0 means never)" |}.
Definition LCK_002 : Check := {|
  check_id := #"AA-WIN-LCK-002"; platform := Windows; category := #"Lockout";
  title := #"Locked accounts stay locked for 15 minutes or more";
  rationale := #"A short lockout just slows guessing down a little.";
  remediation := #"Set Account lockout duration to 15 minutes or more.";
  command := Some #"net accounts /lockoutduration:15";
  fix_with := None; mitre := [ #"T1110.001"];
  rule := λ f, with_lockout f (λ f, policy f #"LockoutDuration" (λ n, (15 <=? n) || (n =? -1))%Z #"15 or more") |}.
Definition LCK_003 : Check := {|
  check_id := #"AA-WIN-LCK-003"; platform := Windows; category := #"Lockout";
  title := #"The failed-login counter resets after 15 minutes or more";
  rationale := #"A quick reset lets an attacker pace guesses just under the threshold.";
  remediation := #"Set Reset account lockout counter after to 15 minutes or more.";
  command := Some #"net accounts /lockoutwindow:15";
  fix_with := None; mitre := [ #"T1110.001"];
  rule := λ f, with_lockout f (λ f, policy f #"ResetLockoutCount" (Z.leb 15) #"15 or more") |}.
Definition ACC_001 : Check := {|
  check_id := #"AA-WIN-ACC-001"; platform := Windows; category := #"Accounts";
  title := #"The Guest account is disabled";
  rationale := #"Guest is a well-known account that needs no password.";
  remediation := #"Disable the Guest account.";
  command := Some #"Disable-LocalUser -Name Guest";
  fix_with := None; mitre := [ #"T1078.001"];
  rule := λ f, one_of f #"secedit.EnableGuestAccount" #"EnableGuestAccount" [ #"0"] |}.
Definition ACC_002 : Check := {|
  check_id := #"AA-WIN-ACC-002"; platform := Windows; category := #"Accounts";
  title := #"Anonymous users can't translate names and SIDs";
  rationale := #"Anonymous SID/name translation lets an unauthenticated caller list accounts, including a renamed Administrator.";
  remediation := #"Disable Network access: Allow anonymous SID/Name translation.";
  command := Some #"Computer Configuration > Windows Settings > Security Settings > Local Policies > Security Options > Network access: Allow anonymous SID/Name translation: Disabled";
  fix_with := None; mitre := [ #"T1087"];
  rule := λ f, one_of f #"secedit.LSAAnonymousNameLookup" #"LSAAnonymousNameLookup" [ #"0"] |}.
Definition ACC_003 : Check := {|
  check_id := #"AA-WIN-ACC-003"; platform := Windows; category := #"Accounts";
  title := #"Only Administrators can debug programs";
  rationale := #"SeDebugPrivilege lets a process read any other process's memory, which is how credentials are dumped from LSASS.";
  remediation := #"Grant Debug programs to Administrators only.";
  command := Some #"Computer Configuration > Windows Settings > Security Settings > Local Policies > User Rights Assignment > Debug programs";
  fix_with := None; mitre := [ #"T1003.001"];
  rule := λ f, debug_privilege f |}.
Definition AUD_001 : Check := {|
  check_id := #"AA-WIN-AUD-001"; platform := Windows; category := #"Audit";
  title := #"Credential validation is audited (success and failure)";
  rationale := #"Records every attempt to check an account's credentials, the first sign of password spraying.";
  remediation := #"Audit Credential Validation: Success and Failure.";
  command := Some #"auditpol /set /subcategory:{0CCE923F-69AE-11D9-BED3-505054503030} /success:enable /failure:enable";
  fix_with := None; mitre := [ #"T1562.002"; #"T1110"];
  rule := λ f, audit f CREDENTIAL_VALIDATION #"Credential Validation" (Z.lor SUCCESS FAILURE) |}.
Definition AUD_002 : Check := {|
  check_id := #"AA-WIN-AUD-002"; platform := Windows; category := #"Audit";
  title := #"Logons are audited (success and failure)";
  rationale := #"Logon events (4624, 4625) are the backbone of any investigation.";
  remediation := #"Audit Logon: Success and Failure.";
  command := Some #"auditpol /set /subcategory:{0CCE9215-69AE-11D9-BED3-505054503030} /success:enable /failure:enable";
  fix_with := None; mitre := [ #"T1562.002"];
  rule := λ f, audit f LOGON #"Logon" (Z.lor SUCCESS FAILURE) |}.
Definition AUD_003 : Check := {|
  check_id := #"AA-WIN-AUD-003"; platform := Windows; category := #"Audit";
  title := #"Special logons are audited";
  rationale := #"Records logons with administrator-equivalent privileges (event 4672).";
  remediation := #"Audit Special Logon: Success.";
  command := Some #"auditpol /set /subcategory:{0CCE921B-69AE-11D9-BED3-505054503030} /success:enable";
  fix_with := None; mitre := [ #"T1562.002"];
  rule := λ f, audit f SPECIAL_LOGON #"Special Logon" SUCCESS |}.
Definition AUD_004 : Check := {|
  check_id := #"AA-WIN-AUD-004"; platform := Windows; category := #"Audit";
  title := #"Account lockouts are audited";
  rationale := #"Lockouts (event 4625 with lockout status) show guessing in progress.";
  remediation := #"Audit Account Lockout: Failure.";
  command := Some #"auditpol /set /subcategory:{0CCE9217-69AE-11D9-BED3-505054503030} /failure:enable";
  fix_with := None; mitre := [ #"T1562.002"; #"T1110"];
  rule := λ f, audit f ACCOUNT_LOCKOUT #"Account Lockout" FAILURE |}.
Definition AUD_005 : Check := {|
  check_id := #"AA-WIN-AUD-005"; platform := Windows; category := #"Audit";
  title := #"User account changes are audited (success and failure)";
  rationale := #"Records accounts being created, enabled, reset or changed, a common persistence step.";
  remediation := #"Audit User Account Management: Success and Failure.";
  command := Some #"auditpol /set /subcategory:{0CCE9235-69AE-11D9-BED3-505054503030} /success:enable /failure:enable";
  fix_with := None; mitre := [ #"T1562.002"; #"T1136"];
  rule := λ f, audit f USER_ACCOUNT_MANAGEMENT #"User Account Management" (Z.lor SUCCESS FAILURE) |}.
Definition AUD_006 : Check := {|
  check_id := #"AA-WIN-AUD-006"; platform := Windows; category := #"Audit";
  title := #"Security group changes are audited";
  rationale := #"Records accounts being added to groups such as Administrators.";
  remediation := #"Audit Security Group Management: Success.";
  command := Some #"auditpol /set /subcategory:{0CCE9237-69AE-11D9-BED3-505054503030} /success:enable";
  fix_with := None; mitre := [ #"T1562.002"; #"T1098"];
  rule := λ f, audit f SECURITY_GROUP_MANAGEMENT #"Security Group Management" SUCCESS |}.
Definition AUD_007 : Check := {|
  check_id := #"AA-WIN-AUD-007"; platform := Windows; category := #"Audit";
  title := #"Process creation is audited";
  rationale := #"Event 4688 for every new process is how malware execution is traced.";
  remediation := #"Audit Process Creation: Success.";
  command := Some #"auditpol /set /subcategory:{0CCE922B-69AE-11D9-BED3-505054503030} /success:enable";
  fix_with := None; mitre := [ #"T1562.002"];
  rule := λ f, audit f PROCESS_CREATION #"Process Creation" SUCCESS |}.
Definition AUD_008 : Check := {|
  check_id := #"AA-WIN-AUD-008"; platform := Windows; category := #"Audit";
  title := #"Audit policy changes are audited";
  rationale := #"An attacker turning auditing off should itself leave a record.";
  remediation := #"Audit Audit Policy Change: Success.";
  command := Some #"auditpol /set /subcategory:{0CCE922F-69AE-11D9-BED3-505054503030} /success:enable";
  fix_with := None; mitre := [ #"T1562.002"];
  rule := λ f, audit f AUDIT_POLICY_CHANGE #"Audit Policy Change" SUCCESS |}.
Definition AUD_009 : Check := {|
  check_id := #"AA-WIN-AUD-009"; platform := Windows; category := #"Audit";
  title := #"Process creation events include the command line";
  rationale := #"Without the command line, event 4688 shows that powershell.exe ran but not what it ran.";
  remediation := #"Enable Include command line in process creation events.";
  command := Some #"Computer Configuration > Administrative Templates > System > Audit Process Creation > Include command line in process creation events: Enabled";
  fix_with := None; mitre := [ #"T1059"];
  rule := λ f, reg_is f #"audit.cmdline" #"ProcessCreationIncludeCmdLine_Enabled" [ #"1"] false |}.
Definition AUD_010 : Check := {|
  check_id := #"AA-WIN-AUD-010"; platform := Windows; category := #"Audit";
  title := #"The Security log holds at least 192 MB";
  rationale := #"The default 20 MB Security log can roll over in hours on a busy server, losing the events an investigation needs.";
  remediation := #"Set the Security log's maximum size to 196,608 KB or more.";
  command := Some #"wevtutil sl Security /ms:201326592";
  fix_with := None; mitre := [ #"T1070.001"];
  rule := λ f, int_where f #"eventlog.security.max_kb" #"Security log maximum (KB)" (Z.leb 196608) #"196608 or more" |}.
Definition AUD_011 : Check := {|
  check_id := #"AA-WIN-AUD-011"; platform := Windows; category := #"Audit";
  title := #"PowerShell script block logging is on";
  rationale := #"Records the PowerShell code that actually runs, including deobfuscated scripts, in event 4104.";
  remediation := #"Enable Turn on PowerShell Script Block Logging.";
  command := Some #"Computer Configuration > Administrative Templates > Windows Components > Windows PowerShell > Turn on PowerShell Script Block Logging: Enabled";
  fix_with := None; mitre := [ #"T1059.001"];
  rule := λ f, reg_is f #"ps.ScriptBlockLogging" #"EnableScriptBlockLogging" [ #"1"] false |}.
Definition SMB_001 : Check := {|
  check_id := #"AA-WIN-SMB-001"; platform := Windows; category := #"SMB";
  title := #"The SMBv1 server is off";
  rationale := #"SMBv1 is what EternalBlue (WannaCry, NotPetya) exploited, and nothing current needs it.";
  remediation := #"Disable SMBv1 on the server.";
  command := Some #"Set-SmbServerConfiguration -EnableSMB1Protocol $false -Force";
  fix_with := None; mitre := [ #"T1210"];
  rule := λ f, one_of f #"smb.server.smb1" #"EnableSMB1Protocol" [ #"False"] |}.
Definition SMB_002 : Check := {|
  check_id := #"AA-WIN-SMB-002"; platform := Windows; category := #"SMB";
  title := #"The SMBv1 client is off";
  rationale := #"The SMBv1 client driver carries the same protocol weaknesses as the server.";
  remediation := #"Remove the SMB 1.0/CIFS Client feature.";
  command := Some #"Disable-WindowsOptionalFeature -Online -FeatureName SMB1Protocol-Client -NoRestart";
  fix_with := None; mitre := [ #"T1210"];
  rule := λ f, smb1_client f |}.
Definition SMB_003 : Check := {|
  check_id := #"AA-WIN-SMB-003"; platform := Windows; category := #"SMB";
  title := #"The SMB server requires signing";
  rationale := #"Unsigned SMB can be relayed: an attacker passes a captured authentication on to another server.";
  remediation := #"Enable Microsoft network server: Digitally sign communications (always).";
  command := Some #"Set-SmbServerConfiguration -RequireSecuritySignature $true -Force";
  fix_with := None; mitre := [ #"T1557"];
  rule := λ f, one_of f #"smb.server.signing_required" #"RequireSecuritySignature" [ #"True"] |}.
Definition SMB_004 : Check := {|
  check_id := #"AA-WIN-SMB-004"; platform := Windows; category := #"SMB";
  title := #"The SMB client requires signing";
  rationale := #"Client-side signing stops this machine's own connections being relayed or tampered with.";
  remediation := #"Enable Microsoft network client: Digitally sign communications (always).";
  command := Some #"Set-SmbClientConfiguration -RequireSecuritySignature $true -Force";
  fix_with := None; mitre := [ #"T1557"];
  rule := λ f, reg_is f #"smb.client.signing_required" #"Client RequireSecuritySignature" [ #"1"] false |}.
Definition FW_001 : Check := {|
  check_id := #"AA-WIN-FW-001"; platform := Windows; category := #"Firewall";
  title := #"The firewall's Domain profile is on";
  rationale := #"With a profile off, every listening service is reachable on networks of that type.";
  remediation := #"Turn the Domain profile on.";
  command := Some #"Set-NetFirewallProfile -Profile Domain -Enabled True";
  fix_with := None; mitre := [ #"T1562.004"];
  rule := λ f, profile_on f #"Domain" |}.
Definition FW_002 : Check := {|
  check_id := #"AA-WIN-FW-002"; platform := Windows; category := #"Firewall";
  title := #"The firewall's Private profile is on";
  rationale := #"With a profile off, every listening service is reachable on networks of that type.";
  remediation := #"Turn the Private profile on.";
  command := Some #"Set-NetFirewallProfile -Profile Private -Enabled True";
  fix_with := None; mitre := [ #"T1562.004"];
  rule := λ f, profile_on f #"Private" |}.
Definition FW_003 : Check := {|
  check_id := #"AA-WIN-FW-003"; platform := Windows; category := #"Firewall";
  title := #"The firewall's Public profile is on";
  rationale := #"The Public profile covers untrusted networks such as hotel and caf" ++ [233]%N ++ #" Wi-Fi.";
  remediation := #"Turn the Public profile on.";
  command := Some #"Set-NetFirewallProfile -Profile Public -Enabled True";
  fix_with := None; mitre := [ #"T1562.004"];
  rule := λ f, profile_on f #"Public" |}.
Definition FW_004 : Check := {|
  check_id := #"AA-WIN-FW-004"; platform := Windows; category := #"Firewall";
  title := #"Inbound connections are blocked by default";
  rationale := #"Default-block means a new service is unreachable until a rule allows it.";
  remediation := #"Set every profile's default inbound action to Block.";
  command := Some #"Set-NetFirewallProfile -All -DefaultInboundAction Block";
  fix_with := None; mitre := [ #"T1562.004"];
  rule := λ f, inbound_blocked f |}.
Definition DEF_001 : Check := {|
  check_id := #"AA-WIN-DEF-001"; platform := Windows; category := #"Antivirus";
  title := #"Defender real-time protection is on";
  rationale := #"Without real-time protection, malware is only found by a later scan, if at all.";
  remediation := #"Turn real-time protection on (and find out what turned it off).";
  command := Some #"Set-MpPreference -DisableRealtimeMonitoring $false";
  fix_with := None; mitre := [ #"T1562.001"];
  rule := λ f, with_defender f (λ f, one_of f #"defender.realtime" #"RealTimeProtectionEnabled" [ #"True"]) |}.
Definition DEF_002 : Check := {|
  check_id := #"AA-WIN-DEF-002"; platform := Windows; category := #"Antivirus";
  title := #"Defender signatures are no more than 3 days old";
  rationale := #"Old signatures miss whatever was published since.";
  remediation := #"Update the signatures, and check the machine can reach Windows Update or your WSUS server.";
  command := Some #"Update-MpSignature";
  fix_with := None; mitre := [ #"T1562.001"];
  rule := λ f, with_defender f signatures_fresh |}.
Definition DEF_003 : Check := {|
  check_id := #"AA-WIN-DEF-003"; platform := Windows; category := #"Antivirus";
  title := #"Defender tamper protection is on";
  rationale := #"Tamper protection stops malware (or an attacker with admin rights) simply switching Defender off.";
  remediation := #"Turn tamper protection on in Windows Security, or centrally through Intune or Defender for Endpoint.";
  command := Some #"Windows Security > Virus & threat protection > Manage settings > Tamper Protection: On";
  fix_with := None; mitre := [ #"T1562.001"];
  rule := λ f, with_defender f (λ f, one_of f #"defender.tamper" #"IsTamperProtected" [ #"True"]) |}.
Definition ENC_001 : Check := {|
  check_id := #"AA-WIN-ENC-001"; platform := Windows; category := #"Encryption";
  title := #"BitLocker protects the system drive";
  rationale := #"An unencrypted disk gives anyone who removes it every file and every cached credential.";
  remediation := #"Turn on BitLocker for the system drive, and store its recovery key somewhere safe (Active Directory or Entra ID).";
  command := Some #"Enable-BitLocker -MountPoint $env:SystemDrive -TpmProtector -UsedSpaceOnly";
  fix_with := None; mitre := [];
  rule := λ f, one_of f #"bitlocker.system" #"System drive protection" [ #"On"] |}.
Definition SYS_001 : Check := {|
  check_id := #"AA-WIN-SYS-001"; platform := Windows; category := #"System";
  title := #"User Account Control is on";
  rationale := #"With UAC off, every administrator process runs with full rights, including anything a malicious document starts.";
  remediation := #"Enable User Account Control: Run all administrators in Admin Approval Mode, then restart.";
  command := Some #"Set-ItemProperty 'HKLM:\SOFTWARE\Microsoft\Windows\CurrentVersion\Policies\System' -Name EnableLUA -Value 1";
  fix_with := None; mitre := [ #"T1548.002"];
  rule := λ f, reg_is f #"uac.EnableLUA" #"EnableLUA" [ #"1"] true |}.
Definition SYS_002 : Check := {|
  check_id := #"AA-WIN-SYS-002"; platform := Windows; category := #"System";
  title := #"AutoPlay is off for all drives";
  rationale := #"AutoPlay runs content from inserted media, the classic USB infection route.";
  remediation := #"Enable Turn off AutoPlay for All drives.";
  command := Some #"Computer Configuration > Administrative Templates > Windows Components > AutoPlay Policies > Turn off AutoPlay: Enabled, All drives";
  fix_with := None; mitre := [ #"T1091"];
  rule := λ f, reg_is f #"autorun.NoDriveTypeAutoRun" #"NoDriveTypeAutoRun" [ #"255"] false |}.
Definition CRD_001 : Check := {|
  check_id := #"AA-WIN-CRD-001"; platform := Windows; category := #"Credentials";
  title := #"LSA protection is on";
  rationale := #"Running LSASS as a protected process blocks the usual tools for dumping credentials from memory.";
  remediation := #"Set RunAsPPL to 1 and restart. Test first: some security software loads into LSASS.";
  command := Some #"Set-ItemProperty 'HKLM:\SYSTEM\CurrentControlSet\Control\Lsa' -Name RunAsPPL -Value 1 -Type DWord";
  fix_with := None; mitre := [ #"T1003.001"];
  rule := λ f, reg_is f #"lsa.RunAsPPL" #"RunAsPPL" [ #"1"; #"2"] false |}.
Definition CRD_002 : Check := {|
  check_id := #"AA-WIN-CRD-002"; platform := Windows; category := #"Credentials";
  title := #"WDigest doesn't keep passwords in memory";
  rationale := #"With WDigest caching on, plain-text passwords of logged-on users sit in LSASS memory.";
  remediation := #"Set UseLogonCredential to 0 (or delete it).";
  command := Some #"Set-ItemProperty 'HKLM:\SYSTEM\CurrentControlSet\Control\SecurityProviders\WDigest' -Name UseLogonCredential -Value 0 -Type DWord";
  fix_with := None; mitre := [ #"T1003.001"];
  rule := λ f, reg_is f #"wdigest.UseLogonCredential" #"UseLogonCredential" [ #"0"] true |}.
Definition CRD_003 : Check := {|
  check_id := #"AA-WIN-CRD-003"; platform := Windows; category := #"Credentials";
  title := #"Only NTLMv2 is accepted (LM and NTLM refused)";
  rationale := #"LM and NTLMv1 responses can be cracked quickly once captured.";
  remediation := #"Set Network security: LAN Manager authentication level to Send NTLMv2 response only. Refuse LM & NTLM (5). Check for old devices first.";
  command := Some #"Set-ItemProperty 'HKLM:\SYSTEM\CurrentControlSet\Control\Lsa' -Name LmCompatibilityLevel -Value 5 -Type DWord";
  fix_with := None; mitre := [ #"T1557"];
  rule := λ f, reg_is f #"lsa.LmCompatibilityLevel" #"LmCompatibilityLevel" [ #"5"] false |}.
Definition CRD_004 : Check := {|
  check_id := #"AA-WIN-CRD-004"; platform := Windows; category := #"Credentials";
  title := #"LM hashes aren't stored";
  rationale := #"LM hashes crack in seconds.";
  remediation := #"Set NoLMHash to 1 (the default since Windows Vista).";
  command := Some #"Set-ItemProperty 'HKLM:\SYSTEM\CurrentControlSet\Control\Lsa' -Name NoLMHash -Value 1 -Type DWord";
  fix_with := None; mitre := [ #"T1003.002"];
  rule := λ f, reg_is f #"lsa.NoLMHash" #"NoLMHash" [ #"1"] true |}.
Definition NET_001 : Check := {|
  check_id := #"AA-WIN-NET-001"; platform := Windows; category := #"Network";
  title := #"Anonymous users can't list accounts and shares";
  rationale := #"Anonymous enumeration hands an attacker the account and share names to target.";
  remediation := #"Enable Network access: Do not allow anonymous enumeration of SAM accounts and shares (RestrictAnonymous = 1).";
  command := Some #"Set-ItemProperty 'HKLM:\SYSTEM\CurrentControlSet\Control\Lsa' -Name RestrictAnonymous -Value 1 -Type DWord";
  fix_with := None; mitre := [ #"T1087"; #"T1135"];
  rule := λ f, reg_is f #"lsa.RestrictAnonymous" #"RestrictAnonymous" [ #"1"; #"2"] false |}.
Definition NET_002 : Check := {|
  check_id := #"AA-WIN-NET-002"; platform := Windows; category := #"Network";
  title := #"LLMNR is off";
  rationale := #"Any machine on the network can answer an LLMNR query and collect the asker's NTLM hash (Responder).";
  remediation := #"Enable Turn off multicast name resolution.";
  command := Some #"Computer Configuration > Administrative Templates > Network > DNS Client > Turn off multicast name resolution: Enabled";
  fix_with := None; mitre := [ #"T1557.001"];
  rule := λ f, reg_is f #"llmnr.EnableMulticast" #"EnableMulticast" [ #"0"] false |}.
Definition NET_003 : Check := {|
  check_id := #"AA-WIN-NET-003"; platform := Windows; category := #"Network";
  title := #"NetBIOS over TCP/IP is off";
  rationale := #"NetBIOS name queries can be answered by any machine on the segment, the same poisoning risk as LLMNR.";
  remediation := #"Disable NetBIOS over TCP/IP on each adapter (or through DHCP option 001). Check nothing still needs it first.";
  command := Some #"Get-CimInstance Win32_NetworkAdapterConfiguration -Filter 'IPEnabled=True' | Invoke-CimMethod -MethodName SetTcpipNetbios -Arguments @{TcpipNetbiosOptions=2}";
  fix_with := None; mitre := [ #"T1557.001"];
  rule := λ f, netbios_off f |}.
Definition RDP_001 : Check := {|
  check_id := #"AA-WIN-RDP-001"; platform := Windows; category := #"Network";
  title := #"Remote Desktop requires Network Level Authentication";
  rationale := #"NLA authenticates before a session is created, so the logon screen (and its pre-authentication bugs, such as BlueKeep) isn't exposed.";
  remediation := #"Enable Require user authentication for remote connections by using Network Level Authentication.";
  command := Some #"Set-ItemProperty 'HKLM:\SYSTEM\CurrentControlSet\Control\Terminal Server\WinStations\RDP-Tcp' -Name UserAuthentication -Value 1";
  fix_with := None; mitre := [ #"T1021.001"];
  rule := λ f, rdp_nla f |}.
Definition UPD_001 : Check := {|
  check_id := #"AA-WIN-UPD-001"; platform := Windows; category := #"Updates";
  title := #"The Windows Update service isn't disabled";
  rationale := #"With the service disabled, the machine gets no security updates at all.";
  remediation := #"Set the Windows Update service (wuauserv) back to Manual.";
  command := Some #"Set-Service -Name wuauserv -StartupType Manual";
  fix_with := None; mitre := [];
  rule := λ f, update_service f |}.
Definition UPD_002 : Check := {|
  check_id := #"AA-WIN-UPD-002"; platform := Windows; category := #"Updates";
  title := #"An update was installed in the last 45 days";
  rationale := #"Microsoft ships security fixes monthly. A machine past 45 days has missed at least one round.";
  remediation := #"Install pending updates, and check the machine's update source (Windows Update, WSUS or Intune) is reachable.";
  command := Some #"Get-HotFix | Sort-Object InstalledOn -Descending | Select-Object -First 5";
  fix_with := None; mitre := [];
  rule := λ f, hotfix_fresh f |}.
Definition CHECKS : list Check :=
  [PWD_001; PWD_002; PWD_003; PWD_004; PWD_005; PWD_006; LCK_001; LCK_002; LCK_003; ACC_001; ACC_002;
   ACC_003; AUD_001; AUD_002; AUD_003; AUD_004; AUD_005; AUD_006; AUD_007; AUD_008; AUD_009; AUD_010;
   AUD_011; SMB_001; SMB_002; SMB_003; SMB_004; FW_001; FW_002; FW_003; FW_004; DEF_001; DEF_002; DEF_003;
   ENC_001; SYS_001; SYS_002; CRD_001; CRD_002; CRD_003; CRD_004; NET_001; NET_002; NET_003; RDP_001;
   UPD_001; UPD_002].
End WindowsCatalog.

(** ** Evaluation *)

Definition catalog (p : Platform) : list Check :=
  match p with Linux => LinuxCatalog.CHECKS | Windows => WindowsCatalog.CHECKS end.
Definition find_check (id : rstr) : option Check :=
  List.find (λ c, str_eqb (check_id c) id) (LinuxCatalog.CHECKS ++ WindowsCatalog.CHECKS).

Record PostureFactsReport := mkReport { rep_platform : rstr; rep_facts : gmap rstr rstr; rep_notes : gmap rstr rstr }.
Record CheckResult := mkResult { res_check : Check; res_outcome : Outcome }.

Definition evaluate_report (report : PostureFactsReport) : option (list CheckResult) :=
  p ← from_report (rep_platform report);
  let fs := mkFacts (rep_facts report) (rep_notes report) in
  Some ((λ c, mkResult c (rule c fs)) <$> catalog p).

Record Tally := mkTally { t_passed : nat; t_failed : nat; t_not_applicable : nat }.
Definition tally_add (t : Tally) (s : Status) : Tally :=
  match s with
  | Passed => mkTally (S (t_passed t)) (t_failed t) (t_not_applicable t)
  | Failed => mkTally (t_passed t) (S (t_failed t)) (t_not_applicable t)
  | NotApplicable => mkTally (t_passed t) (t_failed t) (S (t_not_applicable t))
  end.
Definition tally_of (statuses : list Status) : Tally := fold_left tally_add statuses (mkTally 0 0 0).

(** [as u8] keeps the low eight bits. *)
Definition score (t : Tally) : option N :=
  let applied := t_passed t + t_failed t in
  if (0 <? applied)%nat then Some (N.of_nat ((t_passed t * 100 + applied / 2) / applied) mod 256)%N else None.

(** ** What a verdict rests on

    The facts without which a check gives no verdict: that the table has exactly
    these is [needed_exact] below. *)

Definition needs : list (rstr * list rstr) :=
  [ (#"AA-LNX-SSH-001", [ #"sshd.present"; #"sshd.permitrootlogin"]);
    (#"AA-LNX-SSH-002", [ #"sshd.present"; #"sshd.passwordauthentication"]);
    (#"AA-LNX-SSH-003", [ #"sshd.present"; #"sshd.permitemptypasswords"]);
    (#"AA-LNX-SSH-004", [ #"sshd.present"; #"sshd.maxauthtries"]);
    (#"AA-LNX-SSH-005", [ #"sshd.present"; #"sshd.x11forwarding"]);
    (#"AA-LNX-SSH-006", [ #"sshd.present"; #"sshd.hostbasedauthentication"]);
    (#"AA-LNX-SSH-007", [ #"sshd.present"; #"sshd.ignorerhosts"]);
    (#"AA-LNX-SSH-008", [ #"sshd.present"; #"sshd.logingracetime"]);
    (#"AA-LNX-SSH-009", [ #"sshd.present"; #"sshd.clientaliveinterval"; #"sshd.clientalivecountmax"]);
    (#"AA-LNX-SSH-010", [ #"sshd.present"; #"sshd.permituserenvironment"]);
    (#"AA-LNX-SSH-011", [ #"sshd.present"; #"sshd.loglevel"]);
    (#"AA-LNX-SSH-012", [ #"sshd.present"; #"sshd.maxsessions"]);
    (#"AA-LNX-SSH-013", [ #"sshd.present"; #"sshd.ciphers"]);
    (#"AA-LNX-SSH-014", [ #"sshd.present"; #"sshd.macs"]);
    (#"AA-LNX-SSH-015", [ #"sshd.present"; #"sshd.kexalgorithms"]);
    (#"AA-LNX-KRN-001", [ #"sysctl.kernel.randomize_va_space"]);
    (#"AA-LNX-KRN-002", [ #"sysctl.net.ipv4.conf.all.rp_filter"]);
    (#"AA-LNX-KRN-003", [ #"sysctl.net.ipv4.conf.all.accept_redirects"]);
    (#"AA-LNX-KRN-004", [ #"sysctl.net.ipv4.conf.all.secure_redirects"]);
    (#"AA-LNX-KRN-005", [ #"sysctl.net.ipv4.conf.all.send_redirects"]);
    (#"AA-LNX-KRN-006", [ #"sysctl.net.ipv4.conf.all.accept_source_route"]);
    (#"AA-LNX-KRN-007", [ #"sysctl.net.ipv4.conf.all.log_martians"]);
    (#"AA-LNX-KRN-008", [ #"sysctl.net.ipv4.icmp_echo_ignore_broadcasts"]);
    (#"AA-LNX-KRN-009", [ #"sysctl.net.ipv4.icmp_ignore_bogus_error_responses"]);
    (#"AA-LNX-KRN-010", [ #"sysctl.net.ipv4.tcp_syncookies"]);
    (#"AA-LNX-KRN-011", [ #"sysctl.net.ipv6.conf.all.accept_redirects"]);
    (#"AA-LNX-KRN-012", [ #"sysctl.kernel.dmesg_restrict"]);
    (#"AA-LNX-KRN-013", [ #"sysctl.kernel.kptr_restrict"]);
    (#"AA-LNX-KRN-014", [ #"sysctl.kernel.yama.ptrace_scope"]);
    (#"AA-LNX-KRN-015", [ #"sysctl.fs.protected_hardlinks"]);
    (#"AA-LNX-KRN-016", [ #"sysctl.fs.protected_symlinks"]);
    (#"AA-LNX-KRN-017", [ #"sysctl.fs.suid_dumpable"]);
    (#"AA-LNX-KRN-018", [ #"sysctl.kernel.unprivileged_bpf_disabled"]);
    (#"AA-LNX-FW-001", [ #"firewall.tool"; #"firewall.active"]);
    (#"AA-LNX-FW-002", [ #"firewall.active"; #"firewall.default_input"]);
    (#"AA-LNX-AUTH-001", [ #"logindefs.PASS_MAX_DAYS"]);
    (#"AA-LNX-AUTH-002", [ #"logindefs.PASS_MIN_DAYS"]);
    (#"AA-LNX-AUTH-003", [ #"logindefs.PASS_WARN_AGE"]);
    (#"AA-LNX-AUTH-004", [ #"logindefs.ENCRYPT_METHOD"]);
    (#"AA-LNX-AUTH-005", [ #"pam.pwquality"]);
    (#"AA-LNX-AUTH-006", [ #"pam.lockout"]);
    (#"AA-LNX-AUTH-007", [ #"accounts.uid0_extra"]);
    (#"AA-LNX-AUTH-008", [ #"accounts.empty_password"]);
    (#"AA-LNX-AUTH-009", [ #"logindefs.UMASK"]);
    (#"AA-LNX-FILE-001", [ #"perm.passwd.mode"]);
    (#"AA-LNX-FILE-002", [ #"perm.shadow.mode"]);
    (#"AA-LNX-FILE-003", [ #"perm.group.mode"]);
    (#"AA-LNX-FILE-004", [ #"perm.gshadow.mode"]);
    (#"AA-LNX-FILE-005", [ #"files.world_writable.count"]);
    (#"AA-LNX-MAC-001", [ #"mac.system"; #"mac.enforcing"]);
    (#"AA-LNX-UPD-001", [ #"updates.automatic"]);
    (#"AA-LNX-MNT-001", [ #"mount.tmp.separate"]);
    (#"AA-LNX-MNT-002", [ #"mount.tmp.separate"]);
    (#"AA-LNX-MNT-003", [ #"mount.dev_shm.separate"]);
    (#"AA-LNX-SVC-001", [ #"init.systemd"; #"services.legacy_enabled"]);
    (#"AA-LNX-AUD-001", [ #"init.systemd"; #"auditd.active"]);
    (#"AA-LNX-AUD-002", [ #"init.systemd"; #"auditd.active"; #"auditd.rules"]);
    (#"AA-LNX-TIME-001", [ #"init.systemd"; #"time.sync"]);
    (#"AA-WIN-PWD-001", [ #"secedit.MinimumPasswordLength"]);
    (#"AA-WIN-PWD-002", [ #"secedit.PasswordComplexity"]);
    (#"AA-WIN-PWD-003", [ #"secedit.MaximumPasswordAge"]);
    (#"AA-WIN-PWD-004", [ #"secedit.MinimumPasswordAge"]);
    (#"AA-WIN-PWD-005", [ #"secedit.PasswordHistorySize"]);
    (#"AA-WIN-PWD-006", [ #"secedit.ClearTextPassword"]);
    (#"AA-WIN-LCK-001", [ #"secedit.LockoutBadCount"]);
    (#"AA-WIN-LCK-002", [ #"secedit.LockoutBadCount"; #"secedit.LockoutDuration"]);
    (#"AA-WIN-LCK-003", [ #"secedit.LockoutBadCount"; #"secedit.ResetLockoutCount"]);
    (#"AA-WIN-ACC-001", [ #"secedit.EnableGuestAccount"]);
    (#"AA-WIN-ACC-002", [ #"secedit.LSAAnonymousNameLookup"]);
    (#"AA-WIN-ACC-003", [ #"secedit.MinimumPasswordLength"]);
    (#"AA-WIN-AUD-001", [ #"audit.0CCE923F-69AE-11D9-BED3-505054503030"]);
    (#"AA-WIN-AUD-002", [ #"audit.0CCE9215-69AE-11D9-BED3-505054503030"]);
    (#"AA-WIN-AUD-003", [ #"audit.0CCE921B-69AE-11D9-BED3-505054503030"]);
    (#"AA-WIN-AUD-004", [ #"audit.0CCE9217-69AE-11D9-BED3-505054503030"]);
    (#"AA-WIN-AUD-005", [ #"audit.0CCE9235-69AE-11D9-BED3-505054503030"]);
    (#"AA-WIN-AUD-006", [ #"audit.0CCE9237-69AE-11D9-BED3-505054503030"]);
    (#"AA-WIN-AUD-007", [ #"audit.0CCE922B-69AE-11D9-BED3-505054503030"]);
    (#"AA-WIN-AUD-008", [ #"audit.0CCE922F-69AE-11D9-BED3-505054503030"]);
    (#"AA-WIN-AUD-009", [ #"audit.cmdline"]);
    (#"AA-WIN-AUD-010", [ #"eventlog.security.max_kb"]);
    (#"AA-WIN-AUD-011", [ #"ps.ScriptBlockLogging"]);
    (#"AA-WIN-SMB-001", [ #"smb.server.smb1"]);
    (#"AA-WIN-SMB-002", [ #"smb.client.smb1_start"]);
    (#"AA-WIN-SMB-003", [ #"smb.server.signing_required"]);
    (#"AA-WIN-SMB-004", [ #"smb.client.signing_required"]);
    (#"AA-WIN-FW-001", [ #"fw.Domain.enabled"]);
    (#"AA-WIN-FW-002", [ #"fw.Private.enabled"]);
    (#"AA-WIN-FW-003", [ #"fw.Public.enabled"]);
    (#"AA-WIN-FW-004", [ #"fw.Domain.inbound"; #"fw.Private.inbound"; #"fw.Public.inbound"]);
    (#"AA-WIN-DEF-001", [ #"defender.realtime"]);
    (#"AA-WIN-DEF-002", [ #"defender.realtime"; #"defender.signature_age_days"]);
    (#"AA-WIN-DEF-003", [ #"defender.realtime"; #"defender.tamper"]);
    (#"AA-WIN-ENC-001", [ #"bitlocker.system"]);
    (#"AA-WIN-SYS-001", [ #"uac.EnableLUA"]);
    (#"AA-WIN-SYS-002", [ #"autorun.NoDriveTypeAutoRun"]);
    (#"AA-WIN-CRD-001", [ #"lsa.RunAsPPL"]);
    (#"AA-WIN-CRD-002", [ #"wdigest.UseLogonCredential"]);
    (#"AA-WIN-CRD-003", [ #"lsa.LmCompatibilityLevel"]);
    (#"AA-WIN-CRD-004", [ #"lsa.NoLMHash"]);
    (#"AA-WIN-NET-001", [ #"lsa.RestrictAnonymous"]);
    (#"AA-WIN-NET-002", [ #"llmnr.EnableMulticast"]);
    (#"AA-WIN-NET-003", [ #"netbios.options"]);
    (#"AA-WIN-UPD-001", [ #"wu.start_type"]);
    (#"AA-WIN-UPD-002", [ #"wu.last_hotfix_days"]);
    (#"AA-WIN-RDP-001", [ #"rdp.deny.policy"; #"rdp.deny"; #"rdp.nla.policy"; #"rdp.nla"])].
Definition needed (c : Check) : list rstr := default [] (snd <$> List.find (λ p, str_eqb p.1 (check_id c)) needs).

(** A verdict of [o] rests on the fact [k]. *)
Definition rests_on (f : Facts) (o : Outcome) (k : rstr) : Prop := status o ≠ NotApplicable → is_Some (fact f k).
Definition grounded (c : Check) : Prop := ∀ f, Forall (rests_on f (rule c f)) (needed c).

Section rests.
Context (f : Facts).
Implicit Types (k : rstr) (r : Facts → Outcome).

Lemma fact_int_fact k n : fact_int f k = Some n → is_Some (fact f k).
Proof. unfold fact_int. by destruct (fact f k). Qed.
Lemma missing_rests k k' : rests_on f (missing f k) k'.
Proof. by intros H. Qed.
Lemma na_rests e k : rests_on f (not_applicable e) k.
Proof. by intros H. Qed.
Lemma one_of_rests k l ok : rests_on f (one_of f k l ok) k.
Proof. unfold rests_on, one_of. by destruct (fact f k). Qed.
Lemma int_where_rests k l ok w : rests_on f (int_where f k l ok w) k.
Proof. unfold rests_on, int_where. by destruct (fact f k). Qed.
Lemma list_empty_rests k w : rests_on f (list_empty f k w) k.
Proof. unfold rests_on, list_empty. by destruct (fact f k). Qed.
Lemma list_excludes_rests k l b : rests_on f (list_excludes f k l b) k.
Proof. unfold rests_on, list_excludes. by destruct (fact f k). Qed.
Lemma sysctl_at_least_rests k m w : rests_on f (sysctl_at_least f k m w) (#"sysctl." ++ k).
Proof. unfold rests_on, sysctl_at_least. by destruct (fact f (#"sysctl." ++ k)). Qed.
Lemma file_mode_rests name p a : rests_on f (file_mode f name p a) (#"perm." ++ name ++ #".mode").
Proof. unfold rests_on, file_mode. cbv zeta. by destruct (fact f (#"perm." ++ name ++ #".mode")). Qed.
Lemma mount_has_rests name p n : rests_on f (mount_has f name p n) (#"mount." ++ name ++ #".separate").
Proof. unfold rests_on, mount_has. cbv zeta. by destruct (fact f (#"mount." ++ name ++ #".separate")). Qed.
Lemma profile_on_rests p : rests_on f (profile_on f p) (#"fw." ++ p ++ #".enabled").
Proof. unfold rests_on, profile_on. cbv zeta. by destruct (fact f (#"fw." ++ p ++ #".enabled")). Qed.
Lemma audit_rests g l n : rests_on f (audit f g l n) (#"audit." ++ g).
Proof. unfold rests_on, audit. cbv zeta. unfold fact_int. by destruct (fact f (#"audit." ++ g)). Qed.
Lemma reg_is_rests k l w d : rests_on f (reg_is f k l w d) k.
Proof. unfold rests_on, reg_is, reg. by destruct (fact f k). Qed.
Lemma ssh_rests r : rests_on f (ssh f r) #"sshd.present".
Proof. unfold rests_on, ssh. by destruct (fact f #"sshd.present"). Qed.
Lemma ssh_in r k : rests_on f (r f) k → rests_on f (ssh f r) k.
Proof. unfold rests_on, ssh. intros H. repeat case_match; done || auto. Qed.
Lemma with_systemd_rests r : rests_on f (with_systemd f r) #"init.systemd".
Proof. unfold rests_on, with_systemd. by destruct (fact f #"init.systemd"). Qed.
Lemma with_systemd_in r k : rests_on f (r f) k → rests_on f (with_systemd f r) k.
Proof. unfold rests_on, with_systemd. intros H. repeat case_match; done || auto. Qed.
Lemma with_lockout_rests r : rests_on f (with_lockout f r) #"secedit.LockoutBadCount".
Proof. unfold rests_on, with_lockout. case_match eqn:E; [intros _; by eapply fact_int_fact|done]. Qed.
Lemma with_lockout_in r k : rests_on f (r f) k → rests_on f (with_lockout f r) k.
Proof. unfold rests_on, with_lockout. intros H. repeat case_match; done || auto. Qed.
Lemma with_defender_rests r : rests_on f (with_defender f r) #"defender.realtime".
Proof. unfold rests_on, with_defender. case_bool_decide as E; [done|]. intros _. by apply not_eq_None_Some. Qed.
Lemma with_defender_in r k : rests_on f (r f) k → rests_on f (with_defender f r) k.
Proof. unfold rests_on, with_defender. intros H. repeat case_match; done || auto. Qed.
Lemma unless_unsupported_in k' w r k : rests_on f (r f) k → rests_on f (unless_unsupported f k' w r) k.
Proof. unfold rests_on, unless_unsupported. intros H. repeat case_match; done || auto. Qed.
End rests.
Create HintDb posture.
#[export] Hint Resolve one_of_rests int_where_rests list_empty_rests list_excludes_rests sysctl_at_least_rests
  file_mode_rests mount_has_rests profile_on_rests audit_rests reg_is_rests ssh_rests ssh_in with_systemd_rests
  with_systemd_in with_lockout_rests with_lockout_in with_defender_rests with_defender_in unless_unsupported_in : posture.

(** A rule that is written out: without the fact it ends in no verdict. *)
Ltac no_verdict R :=
  let Hs := fresh in let E := fresh in intros Hs; match goal with |- is_Some (fact ?f ?k) => destruct (fact f k) eqn:E; [by eexists|] end;
  destruct Hs; unfold R, sysctl_pair, sysctl_is, unless_unsupported, one_of, int_where, policy_or_local, reg, is_fact, fact_int; cbv zeta;
  rewrite ?E; cbn [mbind option_bind];
  repeat case_match; simplify_eq; done.

Section written_out.
Context (f : Facts).
Lemma closes_idle_sessions_interval : rests_on f (closes_idle_sessions f) #"sshd.clientaliveinterval".
Proof. no_verdict closes_idle_sessions. Qed.
Lemma closes_idle_sessions_count : rests_on f (closes_idle_sessions f) #"sshd.clientalivecountmax".
Proof. no_verdict closes_idle_sessions. Qed.
Lemma reverse_path_filtering_rests : rests_on f (reverse_path_filtering f) (#"sysctl." ++ interface_key #"net.ipv4.conf." #".rp_filter" #"all").
Proof. no_verdict reverse_path_filtering. Qed.
Lemma redirects_ignored_rests : rests_on f (redirects_ignored f) (#"sysctl." ++ interface_key #"net.ipv4.conf." #".accept_redirects" #"all").
Proof. no_verdict redirects_ignored. Qed.
Lemma redirects_not_sent_rests : rests_on f (redirects_not_sent f) (#"sysctl." ++ #"net.ipv4.conf.all.send_redirects").
Proof. no_verdict redirects_not_sent. Qed.
Lemma martians_logged_rests : rests_on f (martians_logged f) (#"sysctl." ++ interface_key #"net.ipv4.conf." #".log_martians" #"all").
Proof. no_verdict martians_logged. Qed.
Lemma ipv6_redirects_ignored_rests : rests_on f (ipv6_redirects_ignored f) (#"sysctl." ++ interface_key #"net.ipv6.conf." #".accept_redirects" #"all").
Proof. no_verdict ipv6_redirects_ignored. Qed.
Lemma firewall_active_tool : rests_on f (firewall_active f) #"firewall.tool".
Proof. no_verdict firewall_active. Qed.
Lemma firewall_active_rests : rests_on f (firewall_active f) #"firewall.active".
Proof. no_verdict firewall_active. Qed.
Lemma firewall_denies_rests : rests_on f (firewall_denies f) #"firewall.active".
Proof. no_verdict firewall_denies. Qed.
Lemma firewall_denies_input : rests_on f (firewall_denies f) #"firewall.default_input".
Proof. no_verdict firewall_denies. Qed.
Lemma password_length_rests : rests_on f (password_length f) #"pam.pwquality".
Proof. no_verdict password_length. Qed.
Lemma lockout_configured_rests : rests_on f (lockout_configured f) #"pam.lockout".
Proof. no_verdict lockout_configured. Qed.
Lemma umask_strict_rests : rests_on f (umask_strict f) #"logindefs.UMASK".
Proof. no_verdict umask_strict. Qed.
Lemma no_world_writable_rests : rests_on f (no_world_writable f) #"files.world_writable.count".
Proof. no_verdict no_world_writable. Qed.
Lemma mac_enforcing_system : rests_on f (mac_enforcing f) #"mac.system".
Proof. no_verdict mac_enforcing. Qed.
Lemma mac_enforcing_rests : rests_on f (mac_enforcing f) #"mac.enforcing".
Proof. no_verdict mac_enforcing. Qed.
Lemma updates_automatic_rests : rests_on f (updates_automatic f) #"updates.automatic".
Proof. no_verdict updates_automatic. Qed.
Lemma tmp_separate_rests : rests_on f (tmp_separate f) #"mount.tmp.separate".
Proof. no_verdict tmp_separate. Qed.
Lemma audit_rules_loaded_active : rests_on f (audit_rules_loaded f) #"auditd.active".
Proof. no_verdict audit_rules_loaded. Qed.
Lemma audit_rules_loaded_rests : rests_on f (audit_rules_loaded f) #"auditd.rules".
Proof. no_verdict audit_rules_loaded. Qed.
Lemma clock_synced_rests : rests_on f (clock_synced f) #"time.sync".
Proof. no_verdict clock_synced. Qed.
Lemma debug_privilege_rests : rests_on f (debug_privilege f) #"secedit.MinimumPasswordLength".
Proof. no_verdict debug_privilege. Qed.
Lemma smb1_client_rests : rests_on f (smb1_client f) #"smb.client.smb1_start".
Proof. no_verdict smb1_client. Qed.
Lemma open_profiles_rests ps open p :
  open_profiles f ps = Ok open → p ∈ ps → is_Some (fact f (#"fw." ++ p ++ #".inbound")).
Proof.
  revert open. induction ps as [|q ps IH]; intros open E Hp; [by apply elem_of_nil in Hp|]. cbn [open_profiles] in E.
  cbv zeta in E. destruct (fact f (#"fw." ++ q ++ #".inbound")) eqn:Eq; [|done].
  assert (∃ o, open_profiles f ps = Ok o) as [o Ho] by (destruct (open_profiles f ps); [by eexists|by destruct (_ || _)]).
  apply elem_of_cons in Hp as [->|Hp]; [by rewrite Eq|by eapply IH].
Qed.
Lemma open_profiles_err ps o : open_profiles f ps = Err o → status o = NotApplicable.
Proof.
  induction ps as [|q ps IH]; cbn [open_profiles]; cbv zeta; [done|].
  destruct (fact f _); [|by intros [= <-]]. destruct (_ || _); [done|]. by destruct (open_profiles f ps).
Qed.
Lemma inbound_blocked_rests p :
  p ∈ [ #"Domain"; #"Private"; #"Public"] → rests_on f (inbound_blocked f) (#"fw." ++ p ++ #".inbound").
Proof.
  intros Hp Hs. unfold inbound_blocked in Hs. destruct (open_profiles _ _) as [open|o] eqn:E.
  - by eapply open_profiles_rests.
  - by apply open_profiles_err in E.
Qed.
Lemma inbound_blocked_domain : rests_on f (inbound_blocked f) (#"fw." ++ #"Domain" ++ #".inbound").
Proof. apply inbound_blocked_rests. by left. Qed.
Lemma inbound_blocked_private : rests_on f (inbound_blocked f) (#"fw." ++ #"Private" ++ #".inbound").
Proof. apply inbound_blocked_rests. by right; left. Qed.
Lemma inbound_blocked_public : rests_on f (inbound_blocked f) (#"fw." ++ #"Public" ++ #".inbound").
Proof. apply inbound_blocked_rests. by right; right; left. Qed.
Lemma signatures_fresh_rests : rests_on f (signatures_fresh f) #"defender.signature_age_days".
Proof. no_verdict signatures_fresh. Qed.
Lemma netbios_off_rests : rests_on f (netbios_off f) #"netbios.options".
Proof. no_verdict netbios_off. Qed.
Lemma rdp_nla_policy : rests_on f (rdp_nla f) #"rdp.deny.policy".
Proof. no_verdict rdp_nla. Qed.
Lemma rdp_nla_rests : rests_on f (rdp_nla f) #"rdp.deny".
Proof. no_verdict rdp_nla. Qed.
Lemma rdp_nla_policy_level : rests_on f (rdp_nla f) #"rdp.nla.policy".
Proof. no_verdict rdp_nla. Qed.
Lemma rdp_nla_level : rests_on f (rdp_nla f) #"rdp.nla".
Proof. no_verdict rdp_nla. Qed.
Lemma update_service_rests : rests_on f (update_service f) #"wu.start_type".
Proof. no_verdict update_service. Qed.
Lemma hotfix_fresh_rests : rests_on f (hotfix_fresh f) #"wu.last_hotfix_days".
Proof. no_verdict hotfix_fresh. Qed.
End written_out.
#[export] Hint Resolve closes_idle_sessions_interval closes_idle_sessions_count reverse_path_filtering_rests redirects_ignored_rests redirects_not_sent_rests martians_logged_rests ipv6_redirects_ignored_rests firewall_active_tool firewall_active_rests firewall_denies_rests firewall_denies_input password_length_rests lockout_configured_rests umask_strict_rests no_world_writable_rests mac_enforcing_system mac_enforcing_rests updates_automatic_rests tmp_separate_rests audit_rules_loaded_active audit_rules_loaded_rests clock_synced_rests debug_privilege_rests smb1_client_rests inbound_blocked_domain inbound_blocked_private inbound_blocked_public signatures_fresh_rests netbios_off_rests rdp_nla_policy rdp_nla_rests rdp_nla_policy_level rdp_nla_level update_service_rests hotfix_fresh_rests : posture.

Ltac ground :=
  intros f;
  match goal with |- Forall _ (needed ?c) => let n := eval vm_compute in (needed c) in change (needed c) with n; unfold c end;
  cbn [rule]; repeat (apply Forall_cons; split); [..|apply Forall_nil; exact I];
  unfold sysctl_is, policy; auto with posture.

Lemma linux_grounded : Forall grounded LinuxCatalog.CHECKS.
Proof. repeat (apply Forall_cons; split); [..|apply Forall_nil; exact I]; ground. Qed.
Lemma windows_grounded : Forall grounded WindowsCatalog.CHECKS.
Proof. repeat (apply Forall_cons; split); [..|apply Forall_nil; exact I]; ground. Qed.

Definition all_checks : list Check := LinuxCatalog.CHECKS ++ WindowsCatalog.CHECKS.
Lemma catalog_in p c : c ∈ catalog p → c ∈ all_checks.
Proof. intros Hc. apply elem_of_app. destruct p; [by left|by right]. Qed.
Lemma all_grounded c : c ∈ all_checks → grounded c.
Proof.
  intros [Hc|Hc]%elem_of_app; [pose proof linux_grounded as H|pose proof windows_grounded as H];
    rewrite Forall_forall in H; by apply H.
Qed.
Lemma ids_unique : NoDup (check_id <$> all_checks).
Proof. apply (bool_decide_eq_true_1 _). vm_compute. reflexivity. Qed.

(** Nothing else is indispensable: each check gives some verdict on a host that
    reports the listed facts and no others. *)
Definition SAMPLES : list rstr := [ #"yes"; #"1"; #"enabled"].
Fixpoint assignments (ks : list rstr) : list (list (rstr * rstr)) :=
  match ks with [] => [[]] | k :: ks => concat ((λ v, cons (k, v) <$> assignments ks) <$> SAMPLES) end.
Definition only (kvs : list (rstr * rstr)) : Facts := mkFacts (list_to_map kvs) ∅.
Definition decides (c : Check) (kvs : list (rstr * rstr)) : bool := negb (bool_decide (status (rule c (only kvs)) = NotApplicable)).

Lemma assignments_keys ks kvs : kvs ∈ assignments ks → kvs.*1 = ks.
Proof.
  revert kvs. induction ks as [|k ks IH]; intros kvs; cbn [assignments]; [by intros ->%list_elem_of_singleton|].
  rewrite list_elem_of_In, in_concat. intros (l & Hl & Hk). apply list_elem_of_In, list_elem_of_fmap in Hl as (v & -> & _).
  apply list_elem_of_In, list_elem_of_fmap in Hk as (kvs' & -> & Hk). cbn. by rewrite IH.
Qed.
Lemma only_listed kvs k : is_Some (fact (only kvs) k) → k ∈ kvs.*1.
Proof.
  intros [v Hv]. unfold fact, only in Hv. cbn in Hv. apply elem_of_list_to_map_2 in Hv.
  apply list_elem_of_fmap. by exists (k, v).
Qed.
Lemma all_decide : forallb (λ c, negb (bool_decide (needed c = [])) && existsb (decides c) (assignments (needed c))) all_checks = true.
Proof. vm_compute. reflexivity. Qed.
Lemma needed_exact c :
  c ∈ all_checks → needed c ≠ [] ∧ ∀ k, k ∈ needed c ↔ ∀ f, status (rule c f) ≠ NotApplicable → is_Some (fact f k).
Proof.
  intros Hc. pose proof (proj1 (forallb_forall _ _) all_decide c (proj1 (list_elem_of_In _ _) Hc)) as Hd.
  cbn beta in Hd. rewrite andb_true_iff, negb_true_iff, bool_decide_eq_false, existsb_exists in Hd.
  destruct Hd as [Hn (kvs & Hin & Hd)]. split; [done|]. intros k. split.
  - intros Hk f. pose proof (all_grounded c Hc f) as Hg. rewrite Forall_forall in Hg. exact (Hg k Hk).
  - intros Hall. apply list_elem_of_In, assignments_keys in Hin. rewrite <- Hin. apply only_listed, Hall.
    unfold decides in Hd. rewrite negb_true_iff, bool_decide_eq_false in Hd. done.
Qed.
Lemma platforms_right p : Forall (λ c, platform c = p) (catalog p).
Proof. destruct p; apply (bool_decide_eq_true_1 _); vm_compute; reflexivity. Qed.

Lemma find_nodup {A} (g : A → rstr) (l : list A) x :
  NoDup (g <$> l) → x ∈ l → List.find (λ y, str_eqb (g y) (g x)) l = Some x.
Proof.
  induction l as [|y l IH]; intros Hn Hx; [by apply elem_of_nil in Hx|]. cbn [fmap list_fmap] in Hn. apply NoDup_cons in Hn as [Hy Hn].
  cbn [List.find]. apply elem_of_cons in Hx as [->|Hx].
  - unfold str_eqb. by rewrite bool_decide_true.
  - unfold str_eqb. rewrite bool_decide_false; [by apply IH|]. intros E. apply Hy. rewrite E. by apply list_elem_of_fmap_2.
Qed.

(** C23: Evaluating a report runs every check of its platform once, in catalog
    order, under an id that leads back to it.  Every check has facts it cannot do
    without, [needed] lists exactly those, whatever else it may look at, and the
    check passes or fails only if the host reported all of them. *)
Theorem posture_verdicts_grounded report rs :
  evaluate_report report = Some rs →
  ∃ p, from_report (rep_platform report) = Some p ∧ res_check <$> rs = catalog p
    ∧ NoDup (check_id ∘ res_check <$> rs)
    ∧ ∀ r, r ∈ rs → platform (res_check r) = p ∧ find_check (check_id (res_check r)) = Some (res_check r)
        ∧ needed (res_check r) ≠ []
        ∧ (∀ k, k ∈ needed (res_check r) ↔ ∀ f, status (rule (res_check r) f) ≠ NotApplicable → is_Some (fact f k))
        ∧ (status (res_outcome r) ≠ NotApplicable → ∀ k, k ∈ needed (res_check r) → is_Some (rep_facts report !! k)).
Proof.
  unfold evaluate_report. destruct (from_report _) as [p|]; [|done]. cbn. intros [= <-]. exists p. split; [done|].
  assert (res_check <$> ((λ c, mkResult c (rule c (mkFacts (rep_facts report) (rep_notes report)))) <$> catalog p) = catalog p) as Ec.
  { rewrite <- list_fmap_compose. by apply list_fmap_id. }
  split; [done|]. split.
  { rewrite list_fmap_compose, Ec. pose proof ids_unique as Hn. unfold all_checks in Hn. rewrite fmap_app in Hn.
    apply NoDup_app in Hn as (H1 & _ & H2). by destruct p. }
  intros r (c & -> & Hc)%list_elem_of_fmap. cbn [res_check res_outcome]. pose proof (catalog_in _ _ Hc) as Ha.
  split; [by eapply Forall_forall in Hc; [|apply platforms_right]|]. split; [exact (find_nodup check_id all_checks c ids_unique Ha)|].
  destruct (needed_exact c Ha) as [Hn Hex]. split; [done|]. split; [done|]. intros Hs k Hk.
  exact (proj1 (Hex k) Hk (mkFacts (rep_facts report) (rep_notes report)) Hs).
Qed.

(** ** The score *)

Lemma tally_counts l t :
  let t' := fold_left tally_add l t in
  t_passed t' = t_passed t + length (List.filter (λ s, bool_decide (s = Passed)) l)
  ∧ t_failed t' = t_failed t + length (List.filter (λ s, bool_decide (s = Failed)) l)
  ∧ t_not_applicable t' = t_not_applicable t + length (List.filter (λ s, bool_decide (s = NotApplicable)) l).
Proof.
  revert t. induction l as [|s l IH]; intros t; cbn zeta; cbn [fold_left List.filter length]; [repeat split; lia|].
  destruct (IH (tally_add t s)) as (-> & -> & ->).
  destruct s; repeat case_bool_decide; try done; cbn; repeat split; lia.
Qed.
Lemma tally_total l :
  t_passed (tally_of l) + t_failed (tally_of l) + t_not_applicable (tally_of l) = length l.
Proof.
  unfold tally_of. destruct (tally_counts l (mkTally 0 0 0)) as (-> & -> & ->). cbn.
  induction l as [|s l IH]; [done|]. cbn [List.filter length]. destruct s; repeat case_bool_decide; try done; cbn; lia.
Qed.

(** The nearest percentage, halves up. *)
Lemma score_nearest p f (a := p + f) :
  0 < a → let s := (p * 100 + a / 2) / a in s ≤ 100 ∧ 2 * s * a ≤ 200 * p + a ∧ 200 * p < 2 * s * a + a ∧ (a < 200 → (s = 100 ↔ f = 0) ∧ (s = 0 ↔ p = 0)).
Proof.
  intros Ha s. pose proof (Nat.div_mod (p * 100 + a / 2) a ltac:(lia)) as H1. fold s in H1.
  pose proof (Nat.mod_upper_bound (p * 100 + a / 2) a ltac:(lia)) as H2.
  pose proof (Nat.div_mod a 2 ltac:(lia)) as H3. pose proof (Nat.mod_upper_bound a 2 ltac:(lia)) as H4.
  set (m := (p * 100 + a / 2) mod a) in *. set (h := a / 2) in *. set (b := a mod 2) in *.
  clearbody s m h b. assert (s ≤ 100) as Hs by (subst a; nia).
  repeat split; try (subst a; nia).
Qed.

Definition statuses (rs : list CheckResult) : list Status := status ∘ res_outcome <$> rs.
Lemma catalogs_small p : length (catalog p) < 200.
Proof. destruct p; vm_compute; lia. Qed.
Lemma evaluated_length report rs : evaluate_report report = Some rs → length rs < 200.
Proof.
  unfold evaluate_report. destruct (from_report _) as [p|]; [|done]. cbn [mbind option_bind]. intros [= <-].
  rewrite length_fmap. apply catalogs_small.
Qed.

(** The counts of a run add up to its checks, and its score is the percentage of passed checks among those that
    applied, rounded to the nearest with halves up and without truncation: it is missing exactly when none
    applied, 100 exactly when none failed and 0 exactly when none passed. *)
Theorem posture_score_exact report rs :
  evaluate_report report = Some rs →
  t_passed (tally_of (statuses rs)) + t_failed (tally_of (statuses rs)) + t_not_applicable (tally_of (statuses rs)) = length rs
  ∧ match score (tally_of (statuses rs)) with
    | None => t_passed (tally_of (statuses rs)) + t_failed (tally_of (statuses rs)) = 0
    | Some s =>
        ∃ n, s = N.of_nat n ∧ n ≤ 100
          ∧ 2 * n * (t_passed (tally_of (statuses rs)) + t_failed (tally_of (statuses rs)))
              ≤ 200 * t_passed (tally_of (statuses rs)) + (t_passed (tally_of (statuses rs)) + t_failed (tally_of (statuses rs)))
          ∧ 200 * t_passed (tally_of (statuses rs))
              < 2 * n * (t_passed (tally_of (statuses rs)) + t_failed (tally_of (statuses rs)))
                + (t_passed (tally_of (statuses rs)) + t_failed (tally_of (statuses rs)))
          ∧ (n = 100 ↔ t_failed (tally_of (statuses rs)) = 0) ∧ (n = 0 ↔ t_passed (tally_of (statuses rs)) = 0)
    end.
Proof.
  intros Hl%evaluated_length. pose proof (tally_total (statuses rs)) as Ht.
  assert (length (statuses rs) = length rs) as El by apply length_fmap. rewrite El in Ht. split; [done|].
  unfold score. set (t := tally_of (statuses rs)) in *. clearbody t. destruct t as [p f na]. cbn [t_passed t_failed t_not_applicable] in *.
  destruct (Nat.ltb_spec 0 (p + f)) as [Ha|Ha]; [|lia].
  destruct (score_nearest p f Ha) as (H1 & H2 & H3 & H4). destruct (H4 ltac:(lia)) as [H5 H6].
  exists ((p * 100 + (p + f) / 2) / (p + f)). rewrite N.mod_small by lia. done.
Qed.

(** ** File modes *)

Lemma log2_u32 x : (x < 2 ^ 32)%N → (N.log2 x < 32)%N.
Proof. intros Hx. destruct (N.eq_dec x 0%N) as [->|Hne]; [done|]. apply N.log2_lt_pow2; lia. Qed.
Lemma no_bits_beyond bits allowed :
  (bits < 2 ^ 32)%N → (allowed < 2 ^ 32)%N →
  (N.land bits (not_u32 allowed) =? 0)%N = true ↔ ∀ i, N.testbit bits i = true → N.testbit allowed i = true.
Proof.
  intros Hb Ha. rewrite N.eqb_eq. unfold not_u32. change (2 ^ 32 - 1)%N with (N.ones 32).
  rewrite <- N.lnot_sub_low, <- N.ldiff_land_low by by apply log2_u32. split.
  - intros E i Hi. apply (f_equal (λ n, N.testbit n i)) in E. rewrite N.ldiff_spec, N.bits_0, Hi in E. by destruct (N.testbit allowed i).
  - intros H. apply N.bits_inj_0. intros i. rewrite N.ldiff_spec. destruct (N.testbit bits i) eqn:Ei; [|done]. by rewrite (H i Ei).
Qed.

(** A file check passes exactly when the reported mode is an octal number with no permission bit beyond the allowed
    ones and the owner is root. *)
Lemma file_mode_exact f name path allowed :
  (allowed < 2 ^ 32)%N →
  status (file_mode f name path allowed) = Passed ↔
  ∃ mode bits, fact f (#"perm." ++ name ++ #".mode") = Some mode ∧ from_octal mode = Some bits
    ∧ fact f (#"perm." ++ name ++ #".uid") = Some #"0"
    ∧ ∀ i, N.testbit bits i = true → N.testbit allowed i = true.
Proof.
  intros Hall. unfold file_mode. cbv zeta. destruct (fact f (#"perm." ++ name ++ #".mode")) as [mode|]; [|split; [done|by intros (?&?&?&_)]].
  destruct (from_octal mode) as [bits|] eqn:Eb; [|split; [done|intros (?&?&[= <-]&?&_); congruence]].
  assert (bits < 2 ^ 32)%N as Hb.
  { unfold from_octal in Eb. destruct (is_empty _); [done|]. destruct (octal_digits _ _) as [n|]; [|done]. cbn in Eb.
    destruct (N.ltb_spec n (2 ^ 32)); [|done]. by simplify_eq. }
  pose proof (no_bits_beyond bits allowed Hb Hall) as Hbits. unfold verdict, str_eqb.
  destruct (N.land bits (not_u32 allowed) =? 0)%N; cbn [andb].
  - case_bool_decide as Eo.
    + split; [|done]. intros _. exists mode, bits. split; [done|]. split; [done|]. split; [|by apply Hbits].
      destruct (fact f (#"perm." ++ name ++ #".uid")) as [o|]; cbn in Eo; [by rewrite Eo|done].
    + split; [done|]. intros (? & ? & _ & _ & E & _). by rewrite E in Eo.
  - split; [done|]. intros (? & bits' & [= <-] & Eb' & _ & H). rewrite Eb in Eb'. simplify_eq. by apply Hbits in H.
Qed.

(** ** A report *)

Module SampleReport.
Definition report : PostureFactsReport :=
  mkReport #"linux"
    {[ #"sshd.present" := #"yes"; #"sshd.permitrootlogin" := #"no"; #"sshd.passwordauthentication" := #"yes";
       #"kernel.yama.ptrace_scope" := #"1" ]} ∅.
Definition results : list CheckResult := default [] (evaluate_report report).
Lemma evaluates : evaluate_report report = Some results.
Proof. reflexivity. Qed.
Lemma half_passed : score (tally_of (statuses results)) = Some 50%N ∧ length results = 58.
Proof. vm_compute. done. Qed.

Lemma posture_verdicts_grounded_witness :
  ∃ p, from_report #"linux" = Some p ∧ res_check <$> results = catalog p ∧ NoDup (check_id ∘ res_check <$> results).
Proof.
  destruct (posture_verdicts_grounded report results evaluates) as (p & H1 & H2 & H3 & _).
  exists p. split; [exact H1|]. split; [exact H2|exact H3].
Defined.
Lemma posture_score_exact_witness :
  score (tally_of (statuses results)) = Some 50%N
  ∧ t_passed (tally_of (statuses results)) + t_failed (tally_of (statuses results)) + t_not_applicable (tally_of (statuses results))
    = length results.
Proof.
  pose proof half_passed as H50. pose proof (posture_score_exact report results evaluates) as H.
  destruct H50 as [H50 _]. destruct H as [H _]. split; [exact H50|exact H].
Defined.
End SampleReport.
