(* ===== verification/PostureAgent.v ===== *)
(** * Collecting the posture facts ([crates/agent/src/posture.rs])

    The parsers of command output, and the collection on Linux in the monad of
    [Agent], over the interfaces [Os] (processes) and [HostFs] (files); with the two
    detections it shares with Cadavault ([cadavault.rs], [apothecary.rs],
    [init_system.rs]). *)

From Stdlib Require Import NArith ZArith Lia.
From stdpp Require Import gmap.
From S2P Require Import Prelude TextLemmas Agent Quarantine AuditPages Posture PostureCatalog.

(** What the agent reads of the file system; an error is [None]. *)
Class HostFs (World : Type) := {
  read_to_string : rstr → World → option rstr;
  (** The paths of a directory, up to the first error. *)
  read_dir : rstr → World → option (list rstr);
  (** Mode and owner. *)
  metadata : rstr → World → option (N * N) }.

Section parsers.
(** [str::to_lowercase]. *)
Context (to_lowercase : rstr → rstr).

Definition parse_sshd_line (fs : gmap rstr rstr) (line : rstr) : gmap rstr rstr :=
  match split_whitespace line with
  | [] => fs
  | key :: values => <[#"sshd." ++ to_lowercase key := join #" " values]> fs
  end.
Definition parse_sshd_t (dump : rstr) (fs : gmap rstr rstr) : gmap rstr rstr := fold_left parse_sshd_line (lines dump) fs.

Definition LOGIN_KEYS : list rstr := [ #"PASS_MAX_DAYS"; #"PASS_MIN_DAYS"; #"PASS_WARN_AGE"; #"ENCRYPT_METHOD"; #"UMASK"].
Definition parse_login_line (fs : gmap rstr rstr) (line : rstr) : gmap rstr rstr :=
  let line := trim line in
  if starts_with line #"#" then fs
  else match split_whitespace line with
       | key :: value :: _ => if str_mem key LOGIN_KEYS then <[#"logindefs." ++ key := value]> fs else fs
       | _ => fs
       end.
Definition parse_login_defs (text : rstr) (fs : gmap rstr rstr) : gmap rstr rstr := fold_left parse_login_line (lines text) fs.

Definition uncommented (l : rstr) : bool := negb (starts_with l #"#").
Definition conf_value (text key : rstr) : option rstr :=
  let settings := omap (split_once $"=") (List.filter uncommented (trim <$> lines text)) in
  last ((λ kv, trim kv.2) <$> List.filter (λ kv, str_eqb (trim kv.1) key) settings).

Definition pam_arg (pam_text module key : rstr) : option rstr :=
  let module_lines := List.filter (λ l, uncommented l && contains l module) (trim <$> lines pam_text) in
  let arguments := omap (split_once $"=") (concat (split_whitespace <$> module_lines)) in
  last (snd <$> List.filter (λ kv, str_eqb kv.1 key) arguments).

Definition extra_uid0 (passwd : rstr) : list rstr :=
  omap (λ l, match split_char $":" l with
             | name :: _ :: uid :: _ => if str_eqb uid #"0" && negb (str_eqb name #"root") then Some name else None
             | _ => None
             end) (lines passwd).

Definition empty_password_accounts (shadow : rstr) : list rstr :=
  omap (λ l, match split_char $":" l with
             | name :: hash :: _ => if negb (is_empty name) && is_empty hash then Some name else None
             | _ => None
             end) (lines shadow).

Fixpoint find_map {A B} (g : A → option B) (l : list A) : option B :=
  match l with [] => None | x :: l => match g x with Some y => Some y | None => find_map g l end end.

Definition parse_ufw (text : rstr) : bool * option rstr :=
  let active := existsb (λ l, eq_ignore_ascii_case (trim l) #"Status: active") (lines text) in
  let dflt :=
    rest ← find_map (λ l, strip_prefix (trim l) #"Default:") (lines text);
    part ← List.find (λ p, contains p #"(incoming)") (split_char $"," rest);
    to_lowercase <$> head (split_whitespace part) in
  (active, dflt).

(** [split(p).nth(1)]. *)
Definition second_piece (p s : rstr) : option rstr :=
  '(_, after) ← split_once_str p s;
  Some (match split_once_str p after with Some (piece, _) => piece | None => after end).
Definition nft_input_policy (ruleset : rstr) : option rstr :=
  let policy_of l :=
    piece ← second_piece #"policy" l;
    to_lowercase <$> List.find (λ w, negb (is_empty w)) (split_on (λ c, (c =? $";")%N || is_whitespace c) piece) in
  let policies := omap policy_of (List.filter (λ l, contains l #"hook input") (lines ruleset)) in
  match policies with
  | [] => None
  | p :: _ => if str_mem #"drop" policies then Some #"drop" else Some p
  end.

Definition iptables_input_policy (rules : rstr) : option rstr :=
  (λ p, to_lowercase (trim p)) <$> find_map (λ l, strip_prefix (trim l) #"-P INPUT ") (lines rules).
Definition iptables_has_rules (rules : rstr) : bool := existsb (λ l, starts_with (trim l) #"-A INPUT") (lines rules).

Definition mount_options (mounts target : rstr) : option rstr :=
  last (omap (λ l, match split_whitespace l with
                   | _ :: at_ :: _ :: options :: _ => if str_eqb at_ target then Some options else None
                   | _ => None
                   end) (lines mounts)).
End parsers.

(** ** The collection *)

Definition SYSCTLS : list rstr :=
  [ #"kernel.randomize_va_space"; #"kernel.dmesg_restrict"; #"kernel.kptr_restrict"; #"kernel.yama.ptrace_scope";
    #"kernel.unprivileged_bpf_disabled"; #"fs.protected_hardlinks"; #"fs.protected_symlinks"; #"fs.suid_dumpable";
    #"net.ipv4.conf.all.rp_filter"; #"net.ipv4.conf.default.rp_filter"; #"net.ipv4.conf.all.accept_redirects";
    #"net.ipv4.conf.default.accept_redirects"; #"net.ipv4.conf.all.secure_redirects"; #"net.ipv4.conf.all.send_redirects";
    #"net.ipv4.conf.all.accept_source_route"; #"net.ipv4.conf.all.log_martians"; #"net.ipv4.conf.default.log_martians";
    #"net.ipv4.icmp_echo_ignore_broadcasts"; #"net.ipv4.icmp_ignore_bogus_error_responses"; #"net.ipv4.tcp_syncookies";
    #"net.ipv4.ip_forward"; #"net.ipv6.conf.all.accept_redirects"; #"net.ipv6.conf.default.accept_redirects"].
Definition LEGACY_UNITS : list rstr :=
  [ #"telnet.socket"; #"telnetd.service"; #"rsh.socket"; #"rlogin.socket"; #"rexec.socket"; #"tftp.socket"; #"tftp.service";
    #"xinetd.service"; #"vsftpd.service"; #"ypbind.service"; #"talk.socket"].
Definition TIME_SYNC_UNITS : list rstr :=
  [ #"chronyd.service"; #"chrony.service"; #"systemd-timesyncd.service"; #"ntpd.service"; #"ntp.service"; #"ntpsec.service";
    #"openntpd.service"].
Definition PERMISSION_FILES : list (rstr * rstr) :=
  [(#"passwd", #"/etc/passwd"); (#"shadow", #"/etc/shadow"); (#"group", #"/etc/group"); (#"gshadow", #"/etc/gshadow")].
Definition WRITABLE_SCAN_DIRS : list rstr :=
  [ #"/etc"; #"/usr/bin"; #"/usr/sbin"; #"/usr/local/bin"; #"/usr/local/sbin"].

(** [{:o}] *)
Fixpoint oct_digits (fuel : nat) (n : N) (acc : rstr) : rstr :=
  match fuel with
  | O => acc
  | S k => let acc' := (48 + n mod 8)%N :: acc in if (n / 8 =? 0)%N then acc' else oct_digits k (n / 8) acc'
  end.
Definition fmt_octal (n : N) : rstr := oct_digits (S (N.to_nat (N.size n))) n [].

(** [trim_end_matches] of a text. *)
Fixpoint trim_end_text (fuel : nat) (p s : rstr) : rstr :=
  match fuel with
  | O => s
  | S k => match strip_suffix s p with Some s' => trim_end_text k p s' | None => s end
  end.

Definition yes_no (b : bool) : rstr := if b then #"yes" else #"no".
Definition NL : rstr := [10%N].

(** The facts and the notes so far. *)
Record Findings := mkFindings { fnd_facts : gmap rstr rstr; fnd_notes : gmap rstr rstr }.
Definition add_fact (k v : rstr) (r : Findings) : Findings := mkFindings (<[k := v]> (fnd_facts r)) (fnd_notes r).
Definition add_note (k v : rstr) (r : Findings) : Findings := mkFindings (fnd_facts r) (<[k := v]> (fnd_notes r)).

Section collect.
Context {World : Type} `{Hos : !Os World, Hfs : !HostFs World} (to_lowercase : rstr → rstr).
Abbreviation agent := (agent World) (only parsing).

(** A call whose error is looked at instead of returned. *)
Definition attempt {A} (m : agent A) : agent (result rstr A) := λ st, let '(r, st') := m st in (Ok r, st').
Definition read_file (path : rstr) : agent (option rstr) := gets (λ st, read_to_string path (world st)).
Definition stat (path : rstr) : agent (option (N * N)) := gets (λ st, metadata path (world st)).

Definition command_exists (program : rstr) : agent bool :=
  r ← attempt (exec_process #"which" [program] None);
  mret (match r with Ok o => success o | Err _ => false end).
Definition systemctl (args : list rstr) : agent (option rstr) :=
  r ← attempt (run_command_allow_failure #"systemctl" args);
  mret (match r with Ok o => Some (trim (stdout o)) | Err _ => None end).
Definition exited_well (o : OperationOutput) : bool := bool_decide (exit_code o = Some 0%Z).

(** The texts of the files of a directory, each ended by a newline. *)
Fixpoint read_all (paths : list rstr) : agent rstr :=
  match paths with
  | [] => mret []
  | p :: paths =>
      t ← read_file p;
      rest ← read_all paths;
      mret (match t with Some text => text ++ NL ++ rest | None => rest end)
  end.
Definition read_directory (path : rstr) : agent rstr :=
  entries ← gets (λ st, read_dir path (world st));
  read_all (default [] entries).

Definition collect_sshd (r : Findings) : agent Findings :=
  on_path ← command_exists #"sshd";
  in_sbin ← stat #"/usr/sbin/sshd";
  if on_path || bool_decide (is_Some in_sbin) then
    let r := add_fact #"sshd.present" #"yes" r in
    out ← attempt (run_allow_failure #"sshd" [ #"-T"]);
    mret (match out with
          | Ok o =>
              if exited_well o then mkFindings (parse_sshd_t to_lowercase (stdout o) (fnd_facts r)) (fnd_notes r)
              else add_note #"sshd" (#"`sshd -T` failed (needs root): " ++ trim (stderr o)) r
          | Err e => add_note #"sshd" e r
          end)
  else mret (add_fact #"sshd.present" #"no" r).

Fixpoint collect_sysctls (keys : list rstr) (r : Findings) : agent Findings :=
  match keys with
  | [] => mret r
  | key :: keys =>
      t ← read_file (#"/proc/sys/" ++ replace_char $"." #"/" key);
      collect_sysctls keys (match t with Some value => add_fact (#"sysctl." ++ key) (trim value) r | None => r end)
  end.

Definition collect_login_defs (r : Findings) : agent Findings :=
  t ← read_file #"/etc/login.defs";
  mret (match t with Some text => mkFindings (parse_login_defs text (fnd_facts r)) (fnd_notes r) | None => r end).

Definition or_else {A} (a b : option A) : option A := match a with Some x => Some x | None => b end.
Definition add_fact_if (k : rstr) (v : option rstr) (r : Findings) : Findings :=
  match v with Some v => add_fact k v r | None => r end.

Definition collect_pam (r : Findings) : agent Findings :=
  pam ← read_directory #"/etc/pam.d";
  let pwquality_in_pam := contains pam #"pam_pwquality" || contains pam #"pam_cracklib" in
  let r := add_fact #"pam.pwquality" (yes_no pwquality_in_pam) r in
  conf ← read_file #"/etc/security/pwquality.conf";
  drop_ins ← read_directory #"/etc/security/pwquality.conf.d";
  let pwquality := default [] conf ++ drop_ins in
  let minlen := or_else (pam_arg pam #"pam_pwquality" #"minlen")
                  (or_else (pam_arg pam #"pam_cracklib" #"minlen") (conf_value pwquality #"minlen")) in
  let r := add_fact_if #"pwquality.minlen" minlen r in
  let lockout := contains pam #"pam_faillock" || contains pam #"pam_tally2" in
  let r := add_fact #"pam.lockout" (yes_no lockout) r in
  faillock ← read_file #"/etc/security/faillock.conf";
  let deny := or_else (pam_arg pam #"pam_faillock" #"deny")
                (or_else (pam_arg pam #"pam_tally2" #"deny") (conf_value (default [] faillock) #"deny")) in
  mret (add_fact_if #"pam.lockout_deny" deny r).

Definition collect_accounts (r : Findings) : agent Findings :=
  passwd ← read_file #"/etc/passwd";
  let r := add_fact_if #"accounts.uid0_extra" ((λ t, join #"," (extra_uid0 t)) <$> passwd) r in
  shadow ← attempt (run_allow_failure #"cat" [ #"/etc/shadow"]);
  mret (match shadow with
        | Ok o => if exited_well o then add_fact #"accounts.empty_password" (join #"," (empty_password_accounts (stdout o))) r
                  else add_note #"accounts.empty_password" #"/etc/shadow isn't readable (needs root)" r
        | Err _ => add_note #"accounts.empty_password" #"/etc/shadow isn't readable (needs root)" r
        end).

Fixpoint collect_permissions (files : list (rstr * rstr)) (r : Findings) : agent Findings :=
  match files with
  | [] => mret r
  | (name, path) :: files =>
      meta ← stat path;
      collect_permissions files
        (match meta with
         | Some (mode, owner) =>
             add_fact (#"perm." ++ name ++ #".uid") (fmt_N owner)
               (add_fact (#"perm." ++ name ++ #".mode") (fmt_octal (N.land mode 4095)) r)
         | None => r
         end)
  end.

Fixpoint existing (dirs : list rstr) : agent (list rstr) :=
  match dirs with
  | [] => mret []
  | d :: dirs => m ← stat d; rest ← existing dirs; mret (if bool_decide (is_Some m) then d :: rest else rest)
  end.
Definition collect_writable (r : Findings) : agent Findings :=
  dirs ← existing WRITABLE_SCAN_DIRS;
  out ← attempt (run_allow_failure #"find" (dirs ++ [ #"-xdev"; #"-type"; #"f"; #"-perm"; #"-0002"]));
  mret (match out with
        | Ok o =>
            let files := List.filter (λ l, negb (is_empty l)) (lines (stdout o)) in
            add_fact #"files.world_writable.sample" (join #"," (take 5 files))
              (add_fact #"files.world_writable.count" (fmt_N (N.of_nat (length files))) r)
        | Err e => add_note #"files.world_writable" e r
        end).

Definition set_firewall (tool : rstr) (active : bool) (dflt : option rstr) (r : Findings) : Findings :=
  add_fact_if #"firewall.default_input" dflt (add_fact #"firewall.active" (yes_no active) (add_fact #"firewall.tool" tool r)).
Definition collect_firewall (r : Findings) : agent Findings :=
  has_ufw ← command_exists #"ufw";
  ufw ← (if has_ufw : bool then attempt (run_allow_failure #"ufw" [ #"status"; #"verbose"]) else mret (Err []));
  match (match ufw with
         | Ok o => if exited_well o then let '(active, dflt) := parse_ufw to_lowercase (stdout o) in if active : bool then Some dflt else None
                   else None
         | Err _ => None
         end) with
  | Some dflt => mret (set_firewall #"ufw" true dflt r)
  | None =>
  has_firewalld ← command_exists #"firewall-cmd";
  firewalld ← (if has_firewalld : bool then systemctl [ #"is-active"; #"firewalld"] else mret None);
  if bool_decide (firewalld = Some #"active") then mret (set_firewall #"firewalld" true (Some #"reject") r)
  else
  has_nft ← command_exists #"nft";
  nft ← (if has_nft : bool then attempt (run_allow_failure #"nft" [ #"list"; #"ruleset"]) else mret (Err []));
  match (match nft with Ok o => if exited_well o then nft_input_policy to_lowercase (stdout o) else None | Err _ => None end) with
  | Some policy => mret (set_firewall #"nftables" true (Some policy) r)
  | None =>
  has_iptables ← command_exists #"iptables";
  if has_iptables : bool then
    out ← attempt (run_allow_failure #"iptables" [ #"-S"; #"INPUT"]);
    mret (match out with
          | Ok o =>
              if exited_well o then
                let policy := iptables_input_policy to_lowercase (stdout o) in
                let active := iptables_has_rules (stdout o) || from_option (λ p, negb (str_eqb p #"accept")) false policy in
                set_firewall #"iptables" active policy r
              else add_note #"firewall" #"reading the firewall needs root" r
          | Err _ => add_note #"firewall" #"reading the firewall needs root" r
          end)
  else mret (set_firewall #"none" false None r)
  end
  end.

(** ** Shared detections *)

Definition trim_end (s : rstr) : rstr := trim_end_matches is_whitespace s.
Definition ok_output (text : rstr) : OperationOutput := mkOutput text [] (Some 0%Z).

Definition mac_status : agent OperationOutput :=
  selinux ← command_exists #"getenforce";
  if selinux : bool then
    o ← run_allow_failure #"getenforce" [];
    let mode := trim (stdout o) in
    let enforcing := eq_ignore_ascii_case mode #"Enforcing" in
    let out := #"MAC system: SELinux" ++ NL ++ #"MAC enforcing: " ++ yes_no enforcing ++ NL ++ #"getenforce: " ++ mode ++ NL in
    has_sestatus ← command_exists #"sestatus";
    sestatus ← (if has_sestatus : bool then attempt (run_allow_failure #"sestatus" []) else mret (Err []));
    let out := match sestatus with Ok o => out ++ NL ++ trim_end (stdout o) | Err _ => out end in
    mret (ok_output (trim_end out))
  else
    aa_status ← command_exists #"aa-status";
    apparmor_status ← (if aa_status : bool then mret false else command_exists #"apparmor_status");
    match (if aa_status : bool then Some #"aa-status" else if apparmor_status : bool then Some #"apparmor_status" else None) with
    | Some cmd =>
        o ← run_allow_failure cmd [];
        let text := stdout o in
        let enforce_count :=
          default 0%N (l ← List.find (λ l, contains l #"profiles are in enforce mode") (lines text);
                       n ← head (split_whitespace l);
                       parse_unsigned (2 ^ 64 - 1) n) in
        mret (ok_output (#"MAC system: AppArmor" ++ NL ++ #"MAC enforcing: " ++ yes_no (0 <? enforce_count)%N ++ NL ++ NL ++ trim_end text))
    | None =>
        mret (ok_output (#"MAC system: none" ++ NL ++ #"MAC enforcing: no" ++ NL ++ NL
          ++ #"No SELinux (getenforce) or AppArmor (aa-status) tooling detected on this host."))
    end.

Inductive Backend : Set := Apt | Dnf | Yum | Pacman | Zypper.
Definition backend_label (b : Backend) : rstr :=
  match b with Apt => #"apt" | Dnf => #"dnf" | Yum => #"yum" | Pacman => #"pacman" | Zypper => #"zypper" end.
Fixpoint first_present (candidates : list (rstr * Backend)) : agent (option Backend) :=
  match candidates with
  | [] => mret None
  | (program, b) :: rest => there ← command_exists program; if there : bool then mret (Some b) else first_present rest
  end.
Definition detect_backend : agent (option Backend) :=
  first_present [(#"apt-get", Apt); (#"dnf", Dnf); (#"yum", Yum); (#"pacman", Pacman); (#"zypper", Zypper)].

(** The state and how it was found. *)
Definition updates_state (b : Backend) : agent (rstr * rstr) :=
  match b with
  | Apt =>
      cfg ← attempt (run_allow_failure #"cat" [ #"/etc/apt/apt.conf.d/20auto-upgrades"]);
      mret (match cfg with
            | Ok o =>
                if exited_well o then
                  (if contains (stdout o) (#"Unattended-Upgrade " ++ [34%N] ++ #"1" ++ [34%N]) then #"enabled" else #"disabled",
                   #"checked /etc/apt/apt.conf.d/20auto-upgrades")
                else (#"disabled", #"no /etc/apt/apt.conf.d/20auto-upgrades (unattended-upgrades not configured)")
            | Err _ => (#"disabled", #"no /etc/apt/apt.conf.d/20auto-upgrades (unattended-upgrades not configured)")
            end)
  | Dnf | Yum =>
      timer ← attempt (run_allow_failure #"systemctl" [ #"is-enabled"; #"dnf-automatic.timer"]);
      mret (match timer with
            | Ok o => (if str_eqb (trim (stdout o)) #"enabled" then #"enabled" else #"disabled",
                       #"dnf-automatic.timer is-enabled: " ++ trim (stdout o))
            | Err e => (#"unknown", #"could not query dnf-automatic.timer: " ++ e)
            end)
  | Zypper =>
      timer ← attempt (run_allow_failure #"systemctl" [ #"is-enabled"; #"zypper-automatic.timer"]);
      mret (match timer with
            | Ok o => if str_eqb (trim (stdout o)) #"enabled" then (#"enabled", #"zypper-automatic.timer is enabled")
                      else (#"unknown", #"no standard unattended-update timer detected for zypper")
            | Err _ => (#"unknown", #"no standard unattended-update timer detected for zypper")
            end)
  | Pacman => mret (#"unknown", #"Arch/pacman has no standard unattended-upgrade mechanism")
  end.

Definition automatic_updates_status : agent OperationOutput :=
  backend ← detect_backend;
  match backend with
  | None => refuse #"no known package manager found on this host (checked apt/dnf/yum/pacman/zypper)"
  | Some b =>
      x ← updates_state b;
      let '(state, detail) := x in
      mret (ok_output (#"Package manager: " ++ backend_label b ++ NL ++ #"Automatic updates: " ++ state ++ NL ++ #"(" ++ detail ++ #")"))
  end.

(** A fact from every line with this prefix. *)
Definition from_prefix (prefix key : rstr) (f : rstr → rstr) (line : rstr) (r : Findings) : Findings :=
  match strip_prefix line prefix with Some v => add_fact key (f (trim v)) r | None => r end.

Definition collect_mac (r : Findings) : agent Findings :=
  out ← attempt mac_status;
  mret (match out with
        | Ok o =>
            fold_left (λ r line,
              from_prefix #"MAC enforcing:" #"mac.enforcing" to_lowercase line
                (from_prefix #"MAC system:" #"mac.system" to_lowercase line r)) (lines (stdout o)) r
        | Err _ => r
        end).
Definition collect_updates (r : Findings) : agent Findings :=
  out ← attempt automatic_updates_status;
  mret (match out with
        | Ok o =>
            fold_left (λ r line,
              from_prefix #"Package manager:" #"updates.package_manager" id line
                (from_prefix #"Automatic updates:" #"updates.automatic" to_lowercase line r)) (lines (stdout o)) r
        | Err e => add_note #"updates" e r
        end).

Definition collect_mount (mounts name target : rstr) (r : Findings) : Findings :=
  match mount_options mounts target with
  | Some options => add_fact (#"mount." ++ name ++ #".options") options (add_fact (#"mount." ++ name ++ #".separate") #"yes" r)
  | None => add_fact (#"mount." ++ name ++ #".separate") #"no" r
  end.
Definition collect_mounts (r : Findings) : agent Findings :=
  t ← read_file #"/proc/mounts";
  mret (match t with
        | Some mounts => collect_mount mounts #"dev_shm" #"/dev/shm" (collect_mount mounts #"tmp" #"/tmp" r)
        | None => r
        end).

Fixpoint enabled_units (units : list rstr) : agent (list rstr) :=
  match units with
  | [] => mret []
  | u :: units =>
      s ← systemctl [ #"is-enabled"; u];
      rest ← enabled_units units;
      mret (if bool_decide (s = Some #"enabled") then u :: rest else rest)
  end.
Fixpoint first_active (units : list rstr) : agent (option rstr) :=
  match units with
  | [] => mret None
  | u :: units =>
      s ← systemctl [ #"is-active"; u];
      if bool_decide (s = Some #"active") then mret (Some u) else first_active units
  end.
Definition count_rules (text : rstr) : nat :=
  length (List.filter (λ l, negb (is_empty (trim l)) && negb (contains l #"No rules")) (lines text)).
Definition collect_systemd (r : Findings) : agent Findings :=
  booted ← stat #"/run/systemd/system";
  if bool_decide (is_Some booted) then
    let r := add_fact #"init.systemd" #"yes" r in
    legacy ← enabled_units LEGACY_UNITS;
    let r := add_fact #"services.legacy_enabled" (join #"," legacy) r in
    auditd ← systemctl [ #"is-active"; #"auditd"];
    let running := bool_decide (auditd = Some #"active") in
    let r := add_fact #"auditd.active" (yes_no running) r in
    rules ← (if running then attempt (run_allow_failure #"auditctl" [ #"-l"]) else mret (Err []));
    let r := if running then
               match rules with
               | Ok o => if exited_well o then add_fact #"auditd.rules" (fmt_N (N.of_nat (count_rules (stdout o)))) r
                         else add_note #"auditd.rules" #"`auditctl -l` needs root" r
               | Err _ => add_note #"auditd.rules" #"`auditctl -l` needs root" r
               end
             else r in
    time_sync ← first_active TIME_SYNC_UNITS;
    let unit_ := default #"none" time_sync in
    mret (add_fact #"time.sync" (trim_end_text (length unit_) #".service" unit_) r)
  else mret (add_fact #"init.systemd" #"no" r).

Definition collect : agent PostureFactsReport :=
  r ← collect_sshd (mkFindings ∅ ∅);
  r ← collect_sysctls SYSCTLS r;
  r ← collect_login_defs r;
  r ← collect_pam r;
  r ← collect_accounts r;
  r ← collect_permissions PERMISSION_FILES r;
  r ← collect_writable r;
  r ← collect_firewall r;
  r ← collect_mac r;
  r ← collect_updates r;
  r ← collect_mounts r;
  r ← collect_systemd r;
  mret (mkReport #"linux" (fnd_facts r) (fnd_notes r)).
End collect.

(** ** The collection returns *)

Section collected.
Context {World : Type} `{Hos : !Os World, Hfs : !HostFs World} (to_lowercase : rstr → rstr).

(** A call that always returns, a value in [Q]. *)
Definition gives {A} (m : agent World A) (Q : A → Prop) : Prop := ∀ st, ∃ x, (m st).1 = Ok x ∧ Q x.

Lemma gives_ret {A} (x : A) (Q : A → Prop) : Q x → gives (mret x) Q.
Proof. intros Hx st. by exists x. Qed.
Lemma gives_bind {A B} (m : agent World A) (f : A → agent World B) (P : A → Prop) Q :
  gives m P → (∀ x, P x → gives (f x) Q) → gives (m ≫= f) Q.
Proof.
  intros Hm Hf st. destruct (Hm st) as (x & E & Hx). unfold mbind, agent_bind.
  destruct (m st) as [r st1]. cbn in E. subst r. by apply Hf.
Qed.
Lemma gives_weaken {A} (m : agent World A) (P Q : A → Prop) : gives m P → (∀ x, P x → Q x) → gives m Q.
Proof. intros Hm H st. destruct (Hm st) as (x & ? & ?). exists x. auto. Qed.
Lemma gives_attempt {A} (m : agent World A) : gives (attempt m) (λ _, True).
Proof. intros st. unfold attempt. destruct (m st) as [r st1]. by exists r. Qed.
Lemma gives_stat p : gives (stat p) (λ _, True).
Proof. intros st. by eexists. Qed.
Lemma gives_read p : gives (read_file p) (λ _, True).
Proof. intros st. by eexists. Qed.
Lemma gives_exists p : gives (command_exists p) (λ _, True).
Proof. eapply gives_bind; [apply gives_attempt|]. intros x _. by apply gives_ret. Qed.
Lemma gives_systemctl args : gives (systemctl args) (λ _, True).
Proof. eapply gives_bind; [apply gives_attempt|]. intros x _. by apply gives_ret. Qed.
Lemma gives_directory p : gives (read_directory p) (λ _, True).
Proof.
  unfold read_directory. eapply (gives_bind _ _ (λ _, True)); [intros st; by eexists|]. intros entries _.
  induction (default [] entries) as [|q l IH]; cbn [read_all]; [by apply gives_ret|].
  eapply gives_bind; [apply gives_read|]. intros t _. eapply gives_bind; [apply IH|]. intros rest _. by apply gives_ret.
Qed.

(** ** Each section returns, and later ones keep the permissions *)

Definition perm_key (k : rstr) : bool := starts_with k #"perm.".
Definition keeps (r r' : Findings) : Prop := ∀ k, perm_key k = true → fnd_facts r' !! k = fnd_facts r !! k.
Lemma keeps_refl r : keeps r r.
Proof. by intros k. Qed.
Lemma keeps_trans r1 r2 r3 : keeps r1 r2 → keeps r2 r3 → keeps r1 r3.
Proof. intros H1 H2 k Hk. by rewrite H2, H1. Qed.
Lemma keeps_fact r r' k v : perm_key k = false → keeps r r' → keeps r (add_fact k v r').
Proof. intros Hk H x Hx. cbn. rewrite lookup_insert_ne; [by apply H|]. intros ->. congruence. Qed.
Lemma keeps_fact_if r r' k v : perm_key k = false → keeps r r' → keeps r (add_fact_if k v r').
Proof. intros Hk H. destruct v; [by apply keeps_fact|done]. Qed.
Lemma keeps_note r r' k v : keeps r r' → keeps r (add_note k v r').
Proof. by intros H x Hx; apply H. Qed.
Lemma keeps_prefix r r' p k g l : perm_key k = false → keeps r r' → keeps r (from_prefix p k g l r').
Proof. intros Hk H. unfold from_prefix. destruct (strip_prefix l p); [by apply keeps_fact|done]. Qed.

(** One step through a section: a call, a branch, or what is returned. *)
Ltac section_step :=
  match goal with
  | |- gives (mret _) _ => apply gives_ret
  | |- gives (if ?b then _ else _) _ => destruct b
  | |- gives (match ?x with _ => _ end) _ => destruct x
  | |- gives (_ ≫= _) _ =>
      eapply gives_bind;
      [first [apply gives_attempt | apply gives_exists | apply gives_systemctl | apply gives_stat | apply gives_read
             | apply gives_directory
             | match goal with |- gives (if ?b then _ else mret _) _ =>
                 instantiate (1 := λ _, True); destruct b;
                 [first [apply gives_attempt | apply gives_systemctl | apply gives_exists]|by apply gives_ret] end]
      | intros ? ?]
  end.
Ltac keep_step :=
  match goal with
  | |- keeps ?r ?r => apply keeps_refl
  | |- keeps _ (add_fact _ _ _) => apply keeps_fact; [reflexivity|]
  | |- keeps _ (add_fact_if _ _ _) => apply keeps_fact_if; [reflexivity|]
  | |- keeps _ (add_note _ _ _) => apply keeps_note
  | |- keeps _ (from_prefix _ _ _ _ _) => apply keeps_prefix; [reflexivity|]
  | |- keeps _ (if ?b then _ else _) => destruct b
  | |- keeps _ (match ?x with _ => _ end) => destruct x
  end.

Lemma firewall_keeps r : gives (collect_firewall to_lowercase r) (keeps r).
Proof. unfold collect_firewall. repeat section_step; unfold set_firewall; repeat keep_step. Qed.
Lemma existing_gives dirs : gives (existing dirs) (λ _, True).
Proof.
  induction dirs as [|d dirs IH]; cbn [existing]; [by apply gives_ret|].
  eapply gives_bind; [apply gives_stat|]. intros m _. eapply gives_bind; [apply IH|]. intros l _. by apply gives_ret.
Qed.
Lemma writable_keeps r : gives (collect_writable r) (keeps r).
Proof.
  unfold collect_writable. eapply gives_bind; [apply existing_gives|]. intros dirs _. repeat section_step; repeat keep_step.
Qed.

Lemma fold_keeps {A} (g : Findings → A → Findings) l r r' :
  (∀ r0 x, keeps r r0 → keeps r (g r0 x)) → keeps r r' → keeps r (fold_left g l r').
Proof. intros Hg. revert r'. induction l as [|x l IH]; intros r' H; cbn; auto. Qed.
Lemma mac_keeps r : gives (collect_mac to_lowercase r) (keeps r).
Proof.
  unfold collect_mac. eapply gives_bind; [apply gives_attempt|]. intros [o|e] _; apply gives_ret; [|apply keeps_refl].
  apply fold_keeps; [|apply keeps_refl]. intros r0 x H. by repeat keep_step.
Qed.
Lemma updates_keeps r : gives (collect_updates to_lowercase r) (keeps r).
Proof.
  unfold collect_updates. eapply gives_bind; [apply gives_attempt|].
  intros [o|e] _; apply gives_ret; [|repeat keep_step]. apply fold_keeps; [|apply keeps_refl]. intros r0 x H. by repeat keep_step.
Qed.
Lemma mounts_keeps r : gives (collect_mounts r) (keeps r).
Proof. unfold collect_mounts. repeat section_step; unfold collect_mount; repeat keep_step. Qed.
Lemma enabled_units_gives l : gives (enabled_units l) (λ _, True).
Proof.
  induction l as [|u l IH]; cbn [enabled_units]; [by apply gives_ret|]. eapply gives_bind; [apply gives_systemctl|]. intros s _.
  eapply gives_bind; [apply IH|]. intros rest _. by apply gives_ret.
Qed.
Lemma first_active_gives l : gives (first_active l) (λ _, True).
Proof.
  induction l as [|u l IH]; cbn [first_active]; [by apply gives_ret|]. eapply gives_bind; [apply gives_systemctl|]. intros s _.
  destruct (bool_decide _); [by apply gives_ret|done].
Qed.
Lemma systemd_keeps r : gives (collect_systemd r) (keeps r).
Proof.
  unfold collect_systemd. section_step. destruct (bool_decide (is_Some _)); [|apply gives_ret; repeat keep_step].
  eapply gives_bind; [apply enabled_units_gives|]. intros legacy _. repeat section_step.
  all: eapply gives_bind; [apply first_active_gives|]; intros ts _; apply gives_ret; repeat keep_step.
Qed.

Lemma fold_facts_keeps (g : gmap rstr rstr → rstr → gmap rstr rstr) l r n :
  (∀ fs x k, perm_key k = true → g fs x !! k = fs !! k) → keeps r (mkFindings (fold_left g l (fnd_facts r)) n).
Proof.
  intros Hg k Hk. cbn. generalize (fnd_facts r). induction l as [|x l IH]; intros fs; cbn; [done|]. by rewrite IH, Hg.
Qed.
Lemma sshd_line_keeps fs x k : perm_key k = true → parse_sshd_line to_lowercase fs x !! k = fs !! k.
Proof.
  intros Hk. unfold parse_sshd_line. destruct (split_whitespace x) as [|key values]; [done|]. rewrite lookup_insert_ne; [done|].
  by intros <-.
Qed.
Lemma login_line_keeps fs x k : perm_key k = true → parse_login_line fs x !! k = fs !! k.
Proof.
  intros Hk. unfold parse_login_line. cbv zeta. destruct (starts_with _ _); [done|].
  destruct (split_whitespace _) as [|key [|value rest]]; [done..|]. destruct (str_mem _ _); [|done]. rewrite lookup_insert_ne; [done|].
  by intros <-.
Qed.
Lemma sshd_keeps r : gives (collect_sshd to_lowercase r) (keeps r).
Proof.
  unfold collect_sshd. repeat section_step; repeat keep_step.
  eapply keeps_trans; [|apply fold_facts_keeps, sshd_line_keeps]. repeat keep_step.
Qed.
Lemma sysctls_keeps keys r : gives (collect_sysctls keys r) (keeps r).
Proof.
  revert r. induction keys as [|k keys IH]; intros r; cbn [collect_sysctls]; [apply gives_ret, keeps_refl|].
  eapply gives_bind; [apply gives_read|]. intros t _. eapply gives_weaken; [apply IH|]. intros r' H.
  eapply keeps_trans; [|exact H]. repeat keep_step.
Qed.
Lemma login_defs_keeps r : gives (collect_login_defs r) (keeps r).
Proof. unfold collect_login_defs. repeat section_step; repeat keep_step. apply fold_facts_keeps, login_line_keeps. Qed.
Lemma pam_keeps r : gives (collect_pam r) (keeps r).
Proof. unfold collect_pam. repeat section_step. repeat keep_step. Qed.
Lemma accounts_keeps r : gives (collect_accounts r) (keeps r).
Proof. unfold collect_accounts. repeat section_step; repeat keep_step. Qed.

(** ** The permissions *)

(** What the files' metadata [M] adds. *)
Definition with_permissions (M : rstr → option (N * N)) (r : Findings) (file : rstr * rstr) : Findings :=
  match M file.2 with
  | Some (mode, owner) =>
      add_fact (#"perm." ++ file.1 ++ #".uid") (fmt_N owner) (add_fact (#"perm." ++ file.1 ++ #".mode") (fmt_octal (N.land mode 4095)) r)
  | None => r
  end.
Lemma permissions_exact files r st :
  collect_permissions files r st = (Ok (fold_left (with_permissions (λ p, metadata p (world st))) files r), st).
Proof.
  revert r. induction files as [|[name path] files IH]; intros r; cbn [collect_permissions fold_left]; [done|]. apply IH.
Qed.

(** The collection up to the permissions, and from there on. *)
Definition before_permissions : agent World Findings :=
  r ← collect_sshd to_lowercase (mkFindings ∅ ∅);
  r ← collect_sysctls SYSCTLS r;
  r ← collect_login_defs r;
  r ← collect_pam r;
  collect_accounts r.
Definition after_permissions (r : Findings) : agent World PostureFactsReport :=
  r ← collect_writable r;
  r ← collect_firewall to_lowercase r;
  r ← collect_mac to_lowercase r;
  r ← collect_updates to_lowercase r;
  r ← collect_mounts r;
  r ← collect_systemd r;
  mret (mkReport #"linux" (fnd_facts r) (fnd_notes r)).
(** The metadata the collection finds. *)
Definition found (st : AgentState World) (path : rstr) : option (N * N) := metadata path (world (before_permissions st).2).

Lemma collect_split st r :
  (before_permissions st).1 = Ok r →
  collect to_lowercase st = after_permissions (fold_left (with_permissions (found st)) PERMISSION_FILES r) (before_permissions st).2.
Proof.
  unfold found, collect, before_permissions, mbind, agent_bind.
  do 4 (match goal with |- context [match ?m with pair _ _ => _ end] => destruct m as [[?|?] ?]; [|done] end).
  destruct (collect_accounts _ _) as [[r5|] st5]; [|done]. intros [= ->]. cbn [fst snd]. by rewrite permissions_exact.
Qed.
Lemma before_gives : gives before_permissions (keeps (mkFindings ∅ ∅)).
Proof.
  unfold before_permissions. eapply gives_bind; [apply sshd_keeps|]. intros r1 H1.
  eapply gives_bind; [apply sysctls_keeps|]. intros r2 H2. eapply gives_bind; [apply login_defs_keeps|]. intros r3 H3.
  eapply gives_bind; [apply pam_keeps|]. intros r4 H4. eapply gives_weaken; [apply accounts_keeps|]. intros r5 H5.
  by repeat (eapply keeps_trans; [eassumption|]).
Qed.
Lemma after_gives r :
  gives (after_permissions r) (λ rep, rep_platform rep = #"linux" ∧ ∀ k, perm_key k = true → rep_facts rep !! k = fnd_facts r !! k).
Proof.
  unfold after_permissions.
  eapply gives_bind; [apply writable_keeps|]. intros r7 H7. eapply gives_bind; [apply firewall_keeps|]. intros r8 H8.
  eapply gives_bind; [apply mac_keeps|]. intros r9 H9. eapply gives_bind; [apply updates_keeps|]. intros r10 H10.
  eapply gives_bind; [apply mounts_keeps|]. intros r11 H11. eapply gives_bind; [apply systemd_keeps|]. intros r12 H12.
  apply gives_ret. split; [done|]. intros k Hk. cbn [rep_facts]. by rewrite H12, H11, H10, H9, H8, H7.
Qed.
Lemma collect_returns st :
  ∃ rep, (collect to_lowercase st).1 = Ok rep ∧ rep_platform rep = #"linux" ∧ ∃ r, keeps (mkFindings ∅ ∅) r
    ∧ ∀ k, perm_key k = true → rep_facts rep !! k = fnd_facts (fold_left (with_permissions (found st)) PERMISSION_FILES r) !! k.
Proof.
  destruct (before_gives st) as (r & Hr & Hk). rewrite (collect_split st r Hr).
  destruct (after_gives (fold_left (with_permissions (found st)) PERMISSION_FILES r) (before_permissions st).2) as (rep & E & Hp & Hf).
  exists rep. split; [done|]. split; [done|]. by exists r.
Qed.

Definition mode_key (name : rstr) : rstr := #"perm." ++ name ++ #".mode".
Definition uid_key (name : rstr) : rstr := #"perm." ++ name ++ #".uid".
Lemma mode_key_inj a b : mode_key a = mode_key b → a = b.
Proof. unfold mode_key. intros E%app_inv_head. by apply app_inv_tail in E. Qed.
Lemma uid_key_inj a b : uid_key a = uid_key b → a = b.
Proof. unfold uid_key. intros E%app_inv_head. by apply app_inv_tail in E. Qed.
Lemma mode_uid_key a b : mode_key a ≠ uid_key b.
Proof.
  unfold mode_key, uid_key. intros E%app_inv_head. apply (f_equal last) in E. rewrite !last_app in E. by cbn in E.
Qed.
Ltac keys_differ E :=
  first [apply mode_key_inj in E; congruence | apply uid_key_inj in E; congruence | by apply mode_uid_key in E
        | symmetry in E; by apply mode_uid_key in E].
Lemma with_permissions_other M r file k :
  k ≠ mode_key file.1 → k ≠ uid_key file.1 → fnd_facts (with_permissions M r file) !! k = fnd_facts r !! k.
Proof.
  intros H1 H2. unfold with_permissions. destruct (M file.2) as [[mode owner]|]; [|done]. cbn.
  by rewrite !lookup_insert_ne by (by apply not_eq_sym).
Qed.
Lemma fold_other M files r k :
  (∀ file, file ∈ files → k ≠ mode_key file.1 ∧ k ≠ uid_key file.1) →
  fnd_facts (fold_left (with_permissions M) files r) !! k = fnd_facts r !! k.
Proof.
  revert r. induction files as [|file files IH]; intros r H; cbn; [done|].
  destruct (H file ltac:(by left)). rewrite IH; [by apply with_permissions_other|]. intros f' ?. apply H. by right.
Qed.
Lemma permission_facts M files r name path :
  keeps (mkFindings ∅ ∅) r → NoDup (fst <$> files) → (name, path) ∈ files →
  fnd_facts (fold_left (with_permissions M) files r) !! mode_key name = (λ mo, fmt_octal (N.land mo.1 4095)) <$> M path
  ∧ fnd_facts (fold_left (with_permissions M) files r) !! uid_key name = (λ mo, fmt_N mo.2) <$> M path.
Proof.
  intros Hr. assert (fnd_facts r !! mode_key name = None ∧ fnd_facts r !! uid_key name = None) as [Hm Hu] by by rewrite !Hr.
  clear Hr. revert r Hm Hu. induction files as [|[n p] files IH]; intros r Hm Hu Hn Hin; [by apply elem_of_nil in Hin|].
  cbn [fmap list_fmap] in Hn. apply NoDup_cons in Hn as [Hnin Hn]. cbn [fold_left]. apply elem_of_cons in Hin as [E|Hin].
  - injection E as <- <-.
    assert (∀ file : rstr * rstr, file ∈ files → name ≠ file.1) as Hne.
    { intros file Hf ->. exact (Hnin (list_elem_of_fmap_2 fst files file Hf)). }
    rewrite !fold_other by (intros file Hf; specialize (Hne file Hf); split; intros E;
      keys_differ E).
    unfold with_permissions. cbn [fst snd]. destruct (M path) as [[mode owner]|]; cbn; [|done].
    split; [|by rewrite lookup_insert_eq]. rewrite lookup_insert_ne; [by rewrite lookup_insert_eq|].
    intros E. by apply (mode_uid_key name name).
  - assert (name ≠ n) as Hne by (intros ->; exact (Hnin (list_elem_of_fmap_2 fst files (n, path) Hin))).
    apply IH; [| |done..]; rewrite with_permissions_other; try done; cbn [fst];
      intros E; keys_differ E.
Qed.

Lemma octal_small : forallb (λ n, bool_decide (from_octal (fmt_octal (N.of_nat n)) = Some (N.of_nat n))) (seq 0 4096) = true.
Proof. vm_compute. reflexivity. Qed.
Lemma from_fmt_octal n : (n < 4096)%N → from_octal (fmt_octal n) = Some n.
Proof.
  intros Hn. pose proof octal_small as H. rewrite forallb_forall in H. specialize (H (N.to_nat n)).
  rewrite N2Nat.id in H. apply bool_decide_eq_true in H; [done|]. apply in_seq. lia.
Qed.
Lemma fmt_N_zero n : fmt_N n = #"0" ↔ n = 0%N.
Proof. split; [|by intros ->]. intros E. pose proof (parse_fmt_N n) as H. rewrite E in H. by injection H as <-. Qed.
Lemma permission_bits mode allowed :
  (∀ i, N.testbit (N.land mode 4095) i = true → N.testbit allowed i = true)
  ↔ ∀ i, (i < 12)%N → N.testbit mode i = true → N.testbit allowed i = true.
Proof.
  change 4095%N with (N.ones 12). split; intros H i.
  - intros Hi Hm. apply H. by rewrite N.land_spec, Hm, N.ones_spec_low.
  - rewrite N.land_spec, andb_true_iff. intros [Hm Hi]. apply H; [|done].
    destruct (N.lt_ge_cases i 12) as [|Hge]; [done|]. by rewrite N.ones_spec_high in Hi.
Qed.

(** The four checks, their files, and the mode each allows. *)
Definition file_checks : list (Check * (rstr * rstr) * N) :=
  [(LinuxCatalog.FILE_001, (#"passwd", #"/etc/passwd"), 420%N); (LinuxCatalog.FILE_002, (#"shadow", #"/etc/shadow"), 416%N);
   (LinuxCatalog.FILE_003, (#"group", #"/etc/group"), 420%N); (LinuxCatalog.FILE_004, (#"gshadow", #"/etc/gshadow"), 416%N)].
Lemma file_check_rule c name path allowed f :
  (c, (name, path), allowed) ∈ file_checks →
  rule c f = file_mode f name path allowed ∧ (name, path) ∈ PERMISSION_FILES ∧ (allowed < 2 ^ 32)%N ∧ c ∈ LinuxCatalog.CHECKS.
Proof.
  unfold file_checks. rewrite !elem_of_cons, elem_of_nil. intros [E|[E|[E|[E|[]]]]]; injection E as -> -> -> ->;
    (split; [done|]; split; [repeat (by left) || right|]; split; [done|]; apply list_elem_of_In; cbn; tauto).
Qed.

Lemma file_mode_reported f name path allowed :
  status (file_mode f name path allowed) = NotApplicable ↔ fact f (mode_key name) = None.
Proof.
  unfold file_mode, mode_key, verdict. cbv zeta. destruct (fact f _); [|done]. destruct (from_octal _); [|done].
  by destruct (_ && _).
Qed.
Lemma file_verdict f name path allowed (m : option (N * N)) :
  (allowed < 2 ^ 32)%N →
  fact f (mode_key name) = (λ mo, fmt_octal (N.land mo.1 4095)) <$> m → fact f (uid_key name) = (λ mo, fmt_N mo.2) <$> m →
  match m with
  | None => status (file_mode f name path allowed) = NotApplicable
  | Some (mode, owner) =>
      status (file_mode f name path allowed) ≠ NotApplicable
      ∧ (status (file_mode f name path allowed) = Passed
         ↔ owner = 0%N ∧ ∀ i, (i < 12)%N → N.testbit mode i = true → N.testbit allowed i = true)
  end.
Proof.
  intros Hall Hm Hu. destruct m as [[mode owner]|]; cbn [fmap option_fmap option_map fst snd] in Hm, Hu; [|by apply file_mode_reported].
  split; [rewrite file_mode_reported; by rewrite Hm|]. rewrite file_mode_exact by done.
  fold (mode_key name) (uid_key name). rewrite Hm, Hu, <- permission_bits.
  assert (N.land mode 4095 < 4096)%N as Hlt by (change 4095%N with (N.ones 12); rewrite N.land_ones; by apply N.mod_lt).
  split.
  - intros (? & bits & [= <-] & E & [= Ho] & H). rewrite from_fmt_octal in E by done. injection E as <-. by apply fmt_N_zero in Ho.
  - intros [-> H]. exists (fmt_octal (N.land mode 4095)), (N.land mode 4095). split; [done|]. split; [by apply from_fmt_octal|]. done.
Qed.
End collected.

(** C24: From the host to the verdict.  Whatever the commands answer and whatever
    they change, collecting the facts returns, and the check of each of the four
    account files says not applicable exactly when the file's metadata cannot be
    read at the moment the collection reads it, after its first five sections, and
    otherwise passes exactly when root owns the file and none of its twelve mode
    bits is beyond the allowed ones. *)
Theorem file_permissions_end_to_end {World : Type} `{Hos : !Os World, Hfs : !HostFs World} (to_lowercase : rstr → rstr)
    (st : AgentState World) c name path allowed :
  (c, (name, path), allowed) ∈ file_checks →
  ∃ report rs r, (collect to_lowercase st).1 = Ok report ∧ evaluate_report report = Some rs ∧ r ∈ rs ∧ res_check r = c
    ∧ match metadata path (world (before_permissions to_lowercase st).2) with
      | None => status (res_outcome r) = NotApplicable
      | Some (mode, owner) =>
          status (res_outcome r) ≠ NotApplicable
          ∧ (status (res_outcome r) = Passed
             ↔ owner = 0%N ∧ ∀ i, (i < 12)%N → N.testbit mode i = true → N.testbit allowed i = true)
      end.
Proof.
  intros Hc. destruct (collect_returns to_lowercase st) as (rep & E & Hp & r & Hk & Hf).
  set (f := mkFacts (rep_facts rep) (rep_notes rep)).
  destruct (file_check_rule c name path allowed f Hc) as (Er & Hin & Hall & Hcat).
  exists rep, ((λ c, mkResult c (rule c f)) <$> LinuxCatalog.CHECKS), (mkResult c (rule c f)).
  split; [done|]. split; [unfold evaluate_report; by rewrite Hp|]. split; [by apply (list_elem_of_fmap_2 (λ c, mkResult c (rule c f)))|].
  split; [done|]. cbn [res_outcome]. rewrite Er.
  destruct (permission_facts (found to_lowercase st) PERMISSION_FILES r name path Hk) as [H1 H2]; [by apply (bool_decide_unpack _)|done|].
  apply (file_verdict f name path allowed (found to_lowercase st path) Hall); unfold fact, f; cbn [facts]; by rewrite Hf.
Qed.

(** ** A host *)

Module SampleHost.
(** Every command is missing or fails without output; [/etc/shadow] is readable by its group; the
    only mention of [pam_faillock] is commented out. *)
#[local] Instance sample_os : Os () := {|
  execute _ _ _ w := (Ok (mkProcess [] #"sudo: a password is required" (Some 1%Z)), w); now _ := 0%N; unix_time _ := 0%N |}.
#[local] Instance sample_fs : HostFs () := {|
  read_to_string p _ := if str_eqb p #"/etc/pam.d/common-auth" then Some #"# auth required pam_faillock.so" else None;
  read_dir p _ := if str_eqb p #"/etc/pam.d" then Some [ #"/etc/pam.d/common-auth"] else None;
  metadata p _ := if str_eqb p #"/etc/shadow" then Some (33184%N, 0%N) else if str_eqb p #"/etc/passwd" then Some (33206%N, 0%N) else None |}.
Definition sample_state : AgentState () := mkAgent () None.
Definition sample_verdict (c : Check) : option Status :=
  match (collect (λ s, s) sample_state).1 with
  | Ok report => Some (status (rule c (mkFacts (rep_facts report) (rep_notes report))))
  | Err _ => None
  end.

Lemma file_permissions_end_to_end_witness :
  ∃ report rs r, (collect (λ s, s) sample_state).1 = Ok report ∧ evaluate_report report = Some rs ∧ r ∈ rs
    ∧ res_check r = LinuxCatalog.FILE_001 ∧ status (res_outcome r) ≠ Passed.
Proof.
  destruct (file_permissions_end_to_end (λ s, s) sample_state LinuxCatalog.FILE_001 #"passwd" #"/etc/passwd" 420) as (rep & rs & r & H1 & H2 & H3 & H4 & H5 & H6).
  - apply list_elem_of_here.
  - exists rep, rs, r. split; [exact H1|]. split; [exact H2|]. split; [exact H3|]. split; [exact H4|].
    intros H%H6. destruct H as [_ H]. specialize (H 1%N eq_refl eq_refl). discriminate H.
Defined.

(** A commented line counts as a configured lockout, and a search that could not run as one that found nothing. *)
Lemma unchecked_evidence_passes :
  sample_verdict LinuxCatalog.AUTH_006 = Some Passed ∧ sample_verdict LinuxCatalog.FILE_005 = Some Passed
  ∧ sample_verdict LinuxCatalog.FILE_002 = Some Passed ∧ sample_verdict LinuxCatalog.FILE_001 = Some Failed.
Proof. vm_compute. repeat split. Qed.

(** The last setting of [pwquality.conf] and the first line of a drop-in become one line when the file does
    not end in a newline. *)
Lemma drop_in_glued : conf_value (#"minlen = 14" ++ #"minlen = 15" ++ NL) #"minlen" = Some #"14minlen = 15".
Proof. reflexivity. Qed.
End SampleHost.
