(* ===== verification/PostureRun.v ===== *)
(** * Running the posture checks ([posture_ops.rs], [repo/posture.rs])

    A run: the report the agent answered is evaluated, stored with its results, and
    its failures are handed to the dispatcher.  Each statement of the store may
    fail; [fails n] is the text of the error of the n-th one of a call. *)

From Stdlib Require Import NArith ZArith Lia.
From stdpp Require Import gmap sorting.
From S2P Require Import Prelude TextLemmas Permission Json AuditLog RoleStore Web Delegation.
From S2P Require Import Users Agent Protocol Guard Registry.
From S2P Require Import Aat Steps Enrollment AuditPages AuditSyslog Posture PostureCatalog.
From S2P Require Import PostureAgent Fixture NacFixture.

(** ** [repo/posture.rs] *)

Definition KEEP_RUNS_PER_HOST : nat := 60.
Record PostureRun := mkRun {
  run_id : Uuid; run_host : Uuid; run_platform : rstr; run_started_by : rstr; run_created_at : N;
  run_passed : Z; run_failed : Z; run_not_applicable : Z; run_score : option N }.
Record NewResult := mkNewResult { nr_check : rstr; nr_status : rstr; nr_evidence : rstr }.
(** The two tables; results are keyed by run and check. *)
Record PostureStore := mkStore { posture_runs : gmap Uuid PostureRun; posture_results : gmap (Uuid * rstr) (rstr * rstr) }.

Section store.
(** [duplicate_key]: the text of a key violation. *)
Context `{Hord : !SqlOrder} (duplicate_key : rstr).

(** The inserts of the transaction; [None] is a duplicate key. *)
Fixpoint insert_results (id : Uuid) (rows : list NewResult) (t : gmap (Uuid * rstr) (rstr * rstr)) :
    option (gmap (Uuid * rstr) (rstr * rstr)) :=
  match rows with
  | [] => Some t
  | r :: rows =>
      if bool_decide (is_Some (t !! (id, nr_check r))) then None
      else insert_results id rows (<[(id, nr_check r) := (nr_status r, nr_evidence r)]> t)
  end.
Definition insert_all (run : PostureRun) (rows : list NewResult) (s : PostureStore) : option PostureStore :=
  if bool_decide (is_Some (posture_runs s !! run_id run)) then None
  else t ← insert_results (run_id run) rows (posture_results s);
       Some (mkStore (<[run_id run := run]> (posture_runs s)) t).

Definition run_rows (s : PostureStore) : list PostureRun := snd <$> map_to_list (posture_runs s).
Definition newer_run (a b : PostureRun) : bool := (run_created_at b <=? run_created_at a)%N.
Definition host_runs (host : Uuid) (s : PostureStore) : list PostureRun :=
  order_by newer_run (List.filter (λ r, (run_host r =? host)%N) (run_rows s)).
Definition old_runs (host : Uuid) (s : PostureStore) : list Uuid :=
  run_id <$> take 1000 (drop KEEP_RUNS_PER_HOST (host_runs host s)).

Definition delete_results (id : Uuid) (s : PostureStore) : PostureStore :=
  mkStore (posture_runs s) (base.filter (λ kv, kv.1.1 ≠ id) (posture_results s)).
Definition delete_run (id : Uuid) (s : PostureStore) : PostureStore :=
  mkStore (base.delete id (posture_runs s)) (posture_results s).
Fixpoint delete_old (fails : nat → option rstr) (n : nat) (old : list Uuid) (s : PostureStore) : result rstr () * PostureStore :=
  match old with
  | [] => (Ok (), s)
  | id :: old =>
      match fails n, fails (S n) with
      | Some e, _ => (Err e, s)
      | None, Some e => (Err e, delete_results id s)
      | None, None => delete_old fails (S (S n)) old (delete_run id (delete_results id s))
      end
  end.

Definition insert_run (fails : nat → option rstr) (run : PostureRun) (rows : list NewResult) (s : PostureStore) :
    result rstr Uuid * PostureStore :=
  match fails 0, insert_all run rows s with
  | Some e, _ => (Err e, s)
  | None, None => (Err duplicate_key, s)
  | None, Some s =>
      match fails 1 with
      | Some e => (Err e, s)
      | None =>
          match delete_old fails 2 (old_runs (run_host run) s) s with
          | (Ok _, s) => (Ok (run_id run), s)
          | (Err e, s) => (Err e, s)
          end
      end
  end.
Definition runs_for_host (host : Uuid) (limit : nat) (s : PostureStore) : list PostureRun := take limit (host_runs host s).
Definition results_of (id : Uuid) (s : PostureStore) : list NewResult :=
  (λ kv, mkNewResult kv.1.2 kv.2.1 kv.2.2) <$> List.filter (λ kv, (kv.1.1 =? id)%N) (map_to_list (posture_results s)).
End store.

(** ** [posture_ops.rs] *)

Definition as_i32 (n : nat) : Z := ((Z.of_nat n + 2 ^ 31) mod 2 ^ 32 - 2 ^ 31)%Z.

Section ops.
Context `{Hord : !SqlOrder, Htext : !Text}.
(** [serde_json::from_str] of the report, with the text of its error. *)
Context (duplicate_key : rstr) (parse_report : rstr → result rstr PostureFactsReport).

Definition quote (s : rstr) : rstr := [34%N] ++ replace_char 34 [92; 34]%N (replace_char 92 [92; 92]%N s) ++ [34%N].
Definition siem_line (host : Host) (run : Uuid) (r : CheckResult) : rstr :=
  #"scope=posture host=" ++ quote (h_name host) ++ #" host_id=" ++ uuid_to_string (h_id host) ++ #" check="
  ++ check_id (res_check r) ++ #" status=failed category=" ++ quote (category (res_check r)) ++ #" title="
  ++ quote (title (res_check r)) ++ #" evidence=" ++ quote (evidence (res_outcome r)) ++ #" run=" ++ uuid_to_string run.

Definition posture_message (host : Host) (run : Uuid) (r : CheckResult) : Severity * NotificationMessage :=
  (Warning, mkMessage (#"[Posture] " ++ check_id (res_check r) ++ #" failed on " ++ h_name host) (siem_line host run r) []).
Definition is_failed (r : CheckResult) : bool := bool_decide (status (res_outcome r) = Failed).
(** [enabled] is the setting, [None] when it cannot be read. *)
Definition export_failed (enabled : option bool) (host : Host) (run : Uuid) (results : list CheckResult) :
    list (Severity * NotificationMessage) :=
  if default false enabled then posture_message host run <$> List.filter is_failed results else [].

Definition new_results (results : list CheckResult) : list NewResult :=
  (λ r, mkNewResult (check_id (res_check r)) (status_str (status (res_outcome r))) (evidence (res_outcome r))) <$> results.
Definition posture_run (id host_id : Uuid) (by_ : rstr) (now : N) (platform : rstr) (results : list CheckResult) : PostureRun :=
  let tally := tally_of (statuses results) in
  mkRun id host_id platform by_ now (as_i32 (t_passed tally)) (as_i32 (t_failed tally)) (as_i32 (t_not_applicable tally)) (score tally).

(** The text the page shows, the messages dispatched, and the store; [answer] is what the agent
    answered, by way of the executor or of the registry. *)
Definition run_checks (fails : nat → option rstr) (enabled : option bool) (id : Uuid) (now : N) (host : Host) (by_ : rstr)
    (answer : result rstr rstr) (s : PostureStore) : result rstr Uuid * list (Severity * NotificationMessage) * PostureStore :=
  match answer with
  | Err e => (Err e, [], s)
  | Ok stdout =>
      match parse_report (trim stdout) with
      | Err e => (Err (#"the agent's posture facts couldn't be read: " ++ e), [], s)
      | Ok report =>
          match evaluate_report report with
          | None => (Err (#"no posture checks for this host's platform (" ++ rep_platform report ++ #")"), [], s)
          | Some results =>
              match insert_run duplicate_key fails (posture_run id (h_id host) by_ now (rep_platform report) results) (new_results results) s with
              | (Err e, s) => (Err (#"couldn't store the run: " ++ e), [], s)
              | (Ok run, s) => (Ok run, export_failed enabled host run results, s)
              end
          end
      end
  end.

(** [run_due]: the hosts the schedule asks; [ask] is what the host's agent answers, [fresh] the
    id its run gets, and [fails] the failures of that run's statements. *)
Definition HOURS_23 : N := 23 * 60 * 60 * 1000000.
Definition last_run_times (s : PostureStore) (host : Uuid) : option N :=
  match run_created_at <$> List.filter (λ r, (run_host r =? host)%N) (run_rows s) with
  | [] => None
  | t :: ts => Some (fold_left N.max ts t)
  end.
Definition is_due (reg : Registry) (now : N) (s : PostureStore) (host : Host) : bool :=
  host_is_active host && negb (h_pending_approval host) && is_connected (h_id host) reg
  && supports (h_id host) Op.PostureFacts reg
  && match last_run_times s (h_id host) with Some at_ => (at_ <? now - HOURS_23)%N | None => true end.
Fixpoint run_each (fails : Uuid → nat → option rstr) (enabled : option bool) (fresh : Uuid → Uuid) (now : N)
    (ask : Uuid → result rstr rstr) (hosts : list Host) (s : PostureStore) : list (Severity * NotificationMessage) * PostureStore :=
  match hosts with
  | [] => ([], s)
  | host :: hosts =>
      let '(_, sent, s) := run_checks (fails (h_id host)) enabled (fresh (h_id host)) now host #"schedule" (ask (h_id host)) s in
      let '(more, s) := run_each fails enabled fresh now ask hosts s in (sent ++ more, s)
  end.
Definition run_due (reg : Registry) (fails : Uuid → nat → option rstr) (enabled : option bool) (fresh : Uuid → Uuid) (now : N)
    (ask : Uuid → result rstr rstr) (hosts : list Host) (s : PostureStore) : list (Severity * NotificationMessage) * PostureStore :=
  run_each fails enabled fresh now ask (List.filter (is_due reg now s) hosts) s.
End ops.

(** ** Lines read back *)

(** What a reader of [key=value] pairs sees: a quoted value ends at the first quote that is not
    escaped, a bare one at the next space. *)
Fixpoint unquote (s : rstr) : option (rstr * rstr) :=
  match s with
  | [] => None
  | c :: s =>
      if (c =? 34)%N then Some ([], s)
      else if (c =? 92)%N then match s with [] => None | d :: s => p ← unquote s; Some (d :: p.1, p.2) end
      else p ← unquote s; Some (c :: p.1, p.2)
  end.
Fixpoint until (c : N) (s : rstr) : rstr * rstr :=
  match s with
  | [] => ([], [])
  | x :: s => if (x =? c)%N then ([], s) else (x :: (until c s).1, (until c s).2)
  end.
Definition read_value (s : rstr) : option (rstr * rstr) :=
  match s with
  | [] => Some ([], [])
  | c :: q =>
      if (c =? 34)%N then
        p ← unquote q;
        match p.2 with
        | [] => Some (p.1, [])
        | d :: rest => if (d =? 32)%N then Some (p.1, rest) else None
        end
      else Some (until 32 s)
  end.
Fixpoint read_pairs (n : nat) (s : rstr) : option (list (rstr * rstr)) :=
  match n, s with
  | _, [] => Some []
  | 0, _ => None
  | S n, _ => p ← read_value (until 61 s).2; l ← read_pairs n p.2; Some (((until 61 s).1, p.1) :: l)
  end.
(** Text that needs no quotes. *)
Definition bare (s : rstr) : bool := negb (contains_char s 32) && negb (contains_char s 34).

Lemma replace_char_app c new s t : replace_char c new (s ++ t) = replace_char c new s ++ replace_char c new t.
Proof. unfold replace_char. by rewrite fmap_app, concat_app. Qed.
Lemma replace_char_cons c new x s :
  replace_char c new (x :: s) = (if (x =? c)%N then new else [x]) ++ replace_char c new s.
Proof. done. Qed.
Lemma unquote_quoted s rest :
  unquote (replace_char 34 [92; 34]%N (replace_char 92 [92; 92]%N s) ++ 34%N :: rest) = Some (s, rest).
Proof.
  induction s as [|c s IH]; [done|]. rewrite (replace_char_cons 92), replace_char_app, <- app_assoc.
  destruct (N.eqb_spec c 92) as [->|H92]; [cbn; by rewrite IH|]. rewrite (replace_char_cons 34).
  destruct (N.eqb_spec c 34) as [->|H34]; [cbn; by rewrite IH|].
  cbn [app unquote replace_char fmap list_fmap concat].
  apply N.eqb_neq in H34 as ->, H92 as ->. by rewrite IH.
Qed.
Lemma until_app c s rest : contains_char s c = false → until c (s ++ c :: rest) = (s, rest).
Proof.
  unfold contains_char. induction s as [|x s IH]; cbn [app until existsb]; [by rewrite N.eqb_refl|].
  intros [Hx Hs]%orb_false_iff. rewrite N.eqb_sym, Hx, IH; done.
Qed.
Lemma until_end c s : contains_char s c = false → until c s = (s, []).
Proof.
  unfold contains_char. induction s as [|x s IH]; cbn [until existsb]; [done|].
  intros [Hx Hs]%orb_false_iff. rewrite N.eqb_sym, Hx, IH; done.
Qed.

Lemma quoted_value s rest : read_value (quote s ++ 32%N :: rest) = Some (s, rest).
Proof. unfold quote, read_value. cbn [app]. rewrite <- app_assoc. cbn [app N.eqb Pos.eqb]. by rewrite unquote_quoted. Qed.
Lemma bare_inv s : bare s = true → contains_char s 32 = false ∧ contains_char s 34 = false.
Proof. unfold bare. by intros [H1%negb_true_iff H2%negb_true_iff]%andb_true_iff. Qed.
Lemma bare_head s t : bare s = true → t = [] ∨ (∃ rest, t = 32%N :: rest) → read_value (s ++ t) = Some (until 32 (s ++ t)).
Proof.
  intros [_ H]%bare_inv Ht. destruct s as [|c s].
  - destruct Ht as [->|[rest ->]]; done.
  - unfold contains_char in H. cbn [existsb] in H. apply orb_false_iff in H as [Hc _].
    cbn [app read_value]. by rewrite (N.eqb_sym c), Hc.
Qed.
Lemma bare_value s rest : bare s = true → read_value (s ++ 32%N :: rest) = Some (s, rest).
Proof. intros H. rewrite bare_head by eauto. by rewrite until_app by apply (bare_inv _ H). Qed.
Lemma last_value s : bare s = true → read_value s = Some (s, []).
Proof.
  intros H. rewrite <- (app_nil_r s) at 1. rewrite bare_head by eauto. rewrite app_nil_r, until_end; [done|apply (bare_inv _ H)].
Qed.
Lemma read_pairs_step n key t v rest :
  contains_char key 61 = false → read_value t = Some (v, rest) →
  read_pairs (S n) (key ++ 61%N :: t) = l ← read_pairs n rest; Some ((key, v) :: l).
Proof.
  intros Hk Ht. cbn [read_pairs]. rewrite until_app by done. cbn [fst snd]. rewrite Ht. by destruct key.
Qed.

Lemma ids_bare : forallb (bare ∘ check_id) all_checks = true.
Proof. vm_compute. reflexivity. Qed.
Lemma evaluated_check report rs r : evaluate_report report = Some rs → r ∈ rs → res_check r ∈ all_checks.
Proof.
  unfold evaluate_report. destruct (from_report _) as [p|]; [|done]. cbn [mbind option_bind]. intros [= <-].
  intros (c & -> & Hc)%list_elem_of_fmap. by eapply catalog_in.
Qed.

Lemma siem_line_pairs `{Htext : !Text} host run r :
  siem_line host run r =
    #"scope" ++ 61%N :: #"posture" ++ 32%N :: #"host" ++ 61%N :: quote (h_name host) ++ 32%N ::
    #"host_id" ++ 61%N :: uuid_to_string (h_id host) ++ 32%N :: #"check" ++ 61%N :: check_id (res_check r) ++ 32%N ::
    #"status" ++ 61%N :: #"failed" ++ 32%N :: #"category" ++ 61%N :: quote (category (res_check r)) ++ 32%N ::
    #"title" ++ 61%N :: quote (title (res_check r)) ++ 32%N :: #"evidence" ++ 61%N :: quote (evidence (res_outcome r)) ++ 32%N ::
    #"run" ++ 61%N :: uuid_to_string run.
Proof. done. Qed.

(** The line sent for a failed check reads back, by a reader of [key=value] pairs, as exactly the nine fields it was
    made of, whatever the host is called and whatever text the agent sent as evidence: neither can add a field,
    end one early or change another's value. *)
Theorem siem_line_reads_back `{Htext : !Text} host run report rs r :
  (∀ u, bare (uuid_to_string u) = true) →
  evaluate_report report = Some rs → r ∈ rs →
  read_pairs 9 (siem_line host run r) =
    Some [(#"scope", #"posture"); (#"host", h_name host); (#"host_id", uuid_to_string (h_id host));
          (#"check", check_id (res_check r)); (#"status", #"failed"); (#"category", category (res_check r));
          (#"title", title (res_check r)); (#"evidence", evidence (res_outcome r)); (#"run", uuid_to_string run)].
Proof.
  intros Hu He Hr. pose proof ids_bare as Hb. rewrite forallb_forall in Hb.
  pose proof (Hb _ (proj1 (list_elem_of_In _ _) (evaluated_check _ _ _ He Hr))) as Hid. cbn in Hid.
  rewrite siem_line_pairs.
  erewrite read_pairs_step; [|reflexivity|exact (bare_value #"posture" _ eq_refl)].
  erewrite read_pairs_step; [|reflexivity|exact (quoted_value _ _)].
  erewrite read_pairs_step; [|reflexivity|exact (bare_value _ _ (Hu _))].
  erewrite read_pairs_step; [|reflexivity|exact (bare_value _ _ Hid)].
  erewrite read_pairs_step; [|reflexivity|exact (bare_value #"failed" _ eq_refl)].
  do 3 (erewrite read_pairs_step; [|reflexivity|exact (quoted_value _ _)]).
  erewrite read_pairs_step; [|reflexivity|exact (last_value _ (Hu _))]. done.
Qed.

(** ** The store *)

(** Rows are kept under their id, and no result outlives its run. *)
Definition store_ok (s : PostureStore) : Prop :=
  (∀ i r, posture_runs s !! i = Some r → run_id r = i)
  ∧ ∀ i k v, posture_results s !! (i, k) = Some v → is_Some (posture_runs s !! i).
Definition results_map (rows : list NewResult) : gmap rstr (rstr * rstr) :=
  list_to_map ((λ r, (nr_check r, (nr_status r, nr_evidence r))) <$> rows).
(** What the two tables hold of one run. *)
Definition stored_under (i : Uuid) (run : option PostureRun) (m : gmap rstr (rstr * rstr)) (s : PostureStore) : Prop :=
  posture_runs s !! i = run ∧ ∀ k, posture_results s !! (i, k) = m !! k.
Definition same_under (i : Uuid) (s s' : PostureStore) : Prop :=
  posture_runs s' !! i = posture_runs s !! i ∧ ∀ k, posture_results s' !! (i, k) = posture_results s !! (i, k).

Lemma same_under_trans i s1 s2 s3 : same_under i s1 s2 → same_under i s2 s3 → same_under i s1 s3.
Proof. intros [H1 H2] [H3 H4]. split; [by rewrite H3|]. intros k. by rewrite H4. Qed.
Lemma stored_same i run m s s' : stored_under i run m s → same_under i s s' → stored_under i run m s'.
Proof. intros [H1 H2] [H3 H4]. split; [by rewrite H3|]. intros k. by rewrite H4. Qed.

Lemma insert_results_spec id rows t :
  NoDup (nr_check <$> rows) → (∀ r, r ∈ rows → t !! (id, nr_check r) = None) →
  ∃ t', insert_results id rows t = Some t'
    ∧ ∀ i k, t' !! (i, k) = if decide (i = id ∧ k ∈ nr_check <$> rows) then results_map rows !! k else t !! (i, k).
Proof.
  revert t. induction rows as [|r rows IH]; intros t Hn Hf.
  - exists t. split; [done|]. intros i k. rewrite decide_False; [done|]. by intros [_ ?%elem_of_nil].
  - cbn [fmap list_fmap] in Hn. apply NoDup_cons in Hn as [Hr Hn]. cbn [insert_results].
    rewrite bool_decide_false by (rewrite Hf by apply list_elem_of_here; apply is_Some_None).
    destruct (IH (<[(id, nr_check r):=(nr_status r, nr_evidence r)]> t) Hn) as (t' & -> & Ht').
    { intros q Hq. rewrite lookup_insert_ne; [apply Hf; by right|]. intros [= E]. apply Hr. rewrite E. by apply list_elem_of_fmap_2. }
    exists t'. split; [done|]. intros i k. rewrite Ht'. unfold results_map. cbn [fmap list_fmap]. rewrite list_to_map_cons.
    destruct (decide (i = id)) as [->|Hi]; [|rewrite !decide_False by naive_solver; rewrite lookup_insert_ne; naive_solver].
    destruct (decide (k = nr_check r)) as [->|Hk].
    + rewrite decide_False by naive_solver. rewrite decide_True by (split; [done|apply list_elem_of_here]). by rewrite !lookup_insert_eq.
    + rewrite (lookup_insert_ne _ _ _ _ (λ E, Hk (eq_sym E))). rewrite lookup_insert_ne by naive_solver.
      apply decide_ext. rewrite elem_of_cons. naive_solver.
Qed.

Lemma insert_all_spec run rows s :
  store_ok s → posture_runs s !! run_id run = None → NoDup (nr_check <$> rows) →
  ∃ s', insert_all run rows s = Some s' ∧ stored_under (run_id run) (Some run) (results_map rows) s'
    ∧ (∀ i, i ≠ run_id run → same_under i s s') ∧ store_ok s'.
Proof.
  intros [Hk Ho] Hf Hn. unfold insert_all. rewrite bool_decide_false by (rewrite Hf; apply is_Some_None).
  assert (∀ k, posture_results s !! (run_id run, k) = None) as Hfree.
  { intros k. destruct (posture_results s !! (run_id run, k)) as [v|] eqn:E; [|done]. apply Ho in E as [? E]. congruence. }
  destruct (insert_results_spec (run_id run) rows (posture_results s) Hn (λ r _, Hfree (nr_check r))) as (t & -> & Ht). cbn [mbind option_bind].
  eexists. split; [done|]. unfold stored_under, same_under, store_ok. cbn [posture_runs posture_results]. split_and!.
  - by rewrite lookup_insert_eq.
  - intros k. rewrite Ht. case_decide as D; [done|]. rewrite Hfree. symmetry. apply not_elem_of_list_to_map_1.
    rewrite <- list_fmap_compose. intros Hin. apply D. split; [done|]. exact Hin.
  - intros i Hi. rewrite lookup_insert_ne by done. split; [done|]. intros k. by rewrite Ht, decide_False by naive_solver.
  - intros i r. destruct (decide (i = run_id run)) as [->|Hi]; [rewrite lookup_insert_eq; by intros [= ->]|].
    rewrite lookup_insert_ne by done. apply Hk.
  - intros i k v. rewrite Ht. destruct (decide (i = run_id run)) as [->|Hi]; [intros _; rewrite lookup_insert_eq; eauto|].
    rewrite decide_False by naive_solver. rewrite lookup_insert_ne by done. apply Ho.
Qed.

Lemma delete_results_lookup id s i k :
  posture_results (delete_results id s) !! (i, k) = if decide (i = id) then None else posture_results s !! (i, k).
Proof.
  cbn. case_decide as D; [apply map_lookup_filter_None; right; subst; cbn; naive_solver|].
  destruct (posture_results s !! (i, k)) as [v|] eqn:E; [by apply map_lookup_filter_Some|apply map_lookup_filter_None; by left].
Qed.
Lemma delete_both_ok id s : store_ok s → store_ok (delete_results id s) ∧ store_ok (delete_run id (delete_results id s)).
Proof.
  intros [Hk Ho]. split; split.
  - exact Hk.
  - intros i k v. rewrite delete_results_lookup. case_decide; [done|]. apply Ho.
  - intros i r. cbn. rewrite lookup_delete_Some. intros [_ H]. by apply Hk.
  - intros i k v. cbn [delete_run posture_results]. rewrite delete_results_lookup. case_decide as D; [done|]. intros H%Ho.
    cbn. by rewrite lookup_delete_ne.
Qed.
Lemma delete_old_spec fails n old s o s' :
  delete_old fails n old s = (o, s') → store_ok s →
  store_ok s' ∧ (∀ i, i ∉ old → same_under i s s') ∧ (o = Ok () → ∀ i, i ∈ old → posture_runs s' !! i = None)
  ∧ ∀ i, posture_runs s' !! i = None ∨ posture_runs s' !! i = posture_runs s !! i.
Proof.
  revert n s. induction old as [|id old IH]; intros n s; cbn [delete_old].
  - intros [= <- <-] Hs. split_and!; [done|by split|by intros _ i ?%elem_of_nil|by right].
  - intros H Hs. destruct (delete_both_ok id s Hs) as [H1 H2].
    destruct (fails n) as [e|]; [simplify_eq; split_and!; [done|by split|done|by right]|].
    destruct (fails (S n)) as [e|].
    + simplify_eq. split_and!; [done| |done|by right]. intros i Hi. split; [done|]. intros k. rewrite delete_results_lookup.
      rewrite decide_False; [done|]. intros ->. apply Hi, list_elem_of_here.
    + destruct (IH _ _ H H2) as (Hok & Hsame & Hgone & Hsub). split_and!; [done| | |].
      * intros i [Hi Hi']%not_elem_of_cons. eapply same_under_trans; [|by apply Hsame]. split; [cbn; by rewrite lookup_delete_ne|].
        intros k. cbn [delete_run posture_results]. by rewrite delete_results_lookup, decide_False.
      * intros -> i [->|Hi]%elem_of_cons; [|by apply Hgone]. destruct (Hsub id) as [E|E]; rewrite E; [done|]. cbn. apply lookup_delete_eq.
      * intros i. destruct (Hsub i) as [E|E]; [by left|]. rewrite E. cbn. destruct (decide (i = id)) as [->|]; [left; apply lookup_delete_eq|].
        right. by rewrite lookup_delete_ne.
Qed.

Section store_facts.
Context `{Hord : !SqlOrder} (duplicate_key : rstr).

Lemma run_rows_elem s r : store_ok s → r ∈ run_rows s ↔ posture_runs s !! run_id r = Some r.
Proof.
  intros [Hk _]. unfold run_rows. rewrite list_elem_of_fmap. split.
  - intros ([i r'] & -> & H%elem_of_map_to_list). cbn. by rewrite (Hk _ _ H).
  - intros H. exists (run_id r, r). by rewrite elem_of_map_to_list.
Qed.
Lemma host_runs_elem host s r : store_ok s → r ∈ host_runs host s ↔ posture_runs s !! run_id r = Some r ∧ run_host r = host.
Proof.
  intros Hs. unfold host_runs. rewrite order_by_perm, list_elem_of_In, filter_In, <- list_elem_of_In, run_rows_elem by done.
  by rewrite N.eqb_eq.
Qed.
Lemma host_runs_nodup host s : store_ok s → NoDup (host_runs host s).
Proof.
  intros [Hk _]. unfold host_runs. rewrite order_by_perm. apply NoDup_ListNoDup, List.NoDup_filter, NoDup_ListNoDup.
  apply (NoDup_fmap_1 run_id). unfold run_rows. rewrite <- list_fmap_compose.
  rewrite (list_fmap_ext _ fst); [apply NoDup_fst_map_to_list|].
  intros n [i r] H%list_elem_of_lookup_2%elem_of_map_to_list. cbn. by apply Hk.
Qed.
Lemma host_runs_sorted host s : StronglySorted (λ x y, newer_run x y) (host_runs host s).
Proof. apply order_by_sorted; intros *; unfold newer_run; rewrite ?orb_True, ?Is_true_true, ?N.leb_le; lia. Qed.

Lemma old_runs_host host s i : store_ok s → i ∈ old_runs host s → ∃ r, posture_runs s !! i = Some r ∧ run_host r = host.
Proof.
  intros Hs (r & -> & Hr)%list_elem_of_fmap. exists r. apply host_runs_elem; [done|].
  rewrite <- (take_drop KEEP_RUNS_PER_HOST (host_runs host s)). apply elem_of_app. right.
  rewrite <- (take_drop 1000 (drop _ _)). apply elem_of_app. by left.
Qed.
Definition newest (run : PostureRun) (s : PostureStore) : Prop :=
  ∀ i r, posture_runs s !! i = Some r → run_host r = run_host run → i ≠ run_id run → (run_created_at r < run_created_at run)%N.
Lemma newest_kept run s :
  store_ok s → posture_runs s !! run_id run = Some run → newest run s → run_id run ∉ old_runs (run_host run) s.
Proof.
  intros Hs Hrun Hnew (r & Er & Hr)%list_elem_of_fmap.
  pose proof (host_runs_nodup (run_host run) s Hs) as Hn. pose proof (host_runs_sorted (run_host run) s) as Hsort.
  pose proof (host_runs_elem (run_host run) s) as He.
  destruct (host_runs (run_host run) s) as [|x l]; [by apply elem_of_nil in Hr|].
  assert (r ∈ l) as Hl.
  { change (drop KEEP_RUNS_PER_HOST (x :: l)) with (drop 59 l) in Hr. rewrite <- (take_drop 59 l). apply elem_of_app. right.
    rewrite <- (take_drop 1000 (drop _ _)). apply elem_of_app. by left. }
  apply NoDup_cons in Hn as [Hx _]. apply StronglySorted_inv in Hsort as [_ Hsort].
  rewrite Forall_forall in Hsort. apply Hsort in Hl as Hle. unfold newer_run in Hle. apply Is_true_true, N.leb_le in Hle.
  destruct (proj1 (He r Hs) (list_elem_of_further _ _ _ Hl)) as [Hr1 _]. rewrite <- Er, Hrun in Hr1. simplify_eq.
  destruct (proj1 (He x Hs) (list_elem_of_here _ _)) as [Hx1 Hx2].
  destruct (decide (run_id x = run_id r)) as [E|E]; [rewrite E, Hrun in Hx1; by simplify_eq|].
  pose proof (Hnew _ _ Hx1 Hx2 E). lia.
Qed.

Lemma nodup_shorter {A} (l k : list A) : NoDup l → (∀ x, x ∈ l → x ∈ k) → length l ≤ length k.
Proof. intros Hn Hi. by apply submseteq_length, NoDup_submseteq. Qed.
Lemma take_bound {A} n (l : list A) : length (take n l) ≤ n.
Proof. rewrite length_take. lia. Qed.
Lemma nodup_same_length {A} (l k : list A) : NoDup l → NoDup k → (∀ x, x ∈ l ↔ x ∈ k) → length l = length k.
Proof. intros Hl Hk Hi. apply Nat.le_antisymm; apply nodup_shorter; try done; intros x; apply Hi. Qed.
Lemma inserted_length s s1 run :
  store_ok s → store_ok s1 → posture_runs s !! run_id run = None → posture_runs s1 !! run_id run = Some run →
  (∀ i, i ≠ run_id run → same_under i s s1) →
  length (host_runs (run_host run) s1) = S (length (host_runs (run_host run) s)).
Proof.
  intros Hs Hs1 Hnew Hin Hsame. change (S (length (host_runs (run_host run) s))) with (length (run :: host_runs (run_host run) s)).
  apply nodup_same_length; [by apply host_runs_nodup| |].
  - apply NoDup_cons. split; [|by apply host_runs_nodup]. intros [H _]%host_runs_elem; [congruence|done].
  - intros r. rewrite elem_of_cons, !host_runs_elem by done. destruct (decide (run_id r = run_id run)) as [E|Hne].
    + rewrite E, Hin, Hnew. split; [intros [[= ->] _]; by left|intros [->|[[=] _]]; done].
    + destruct (Hsame _ Hne) as [-> _]. split; [by right|]. by intros [->|?].
Qed.
(** What is left is the sixty newest. *)
Lemma trimmed host s1 s2 :
  store_ok s1 → store_ok s2 → length (host_runs host s1) ≤ 1060 →
  (∀ i, i ∈ old_runs host s1 → posture_runs s2 !! i = None) → (∀ i, i ∉ old_runs host s1 → same_under i s1 s2) →
  ∀ r, r ∈ host_runs host s2 ↔ r ∈ take KEEP_RUNS_PER_HOST (host_runs host s1).
Proof.
  intros Hs1 Hs2 Hlen Hgone Hkeep r.
  assert (old_runs host s1 = run_id <$> drop KEEP_RUNS_PER_HOST (host_runs host s1)) as Eold.
  { unfold old_runs. rewrite (take_ge (drop _ _)); [done|]. rewrite length_drop. unfold KEEP_RUNS_PER_HOST. lia. }
  pose proof (host_runs_nodup host s1 Hs1) as Hn. pose proof (host_runs_elem host s1) as He.
  rewrite <- (take_drop KEEP_RUNS_PER_HOST (host_runs host s1)) in Hn, He. apply NoDup_app in Hn as (_ & Hd & _).
  rewrite host_runs_elem by done. split.
  - intros [H1 H2]. assert (run_id r ∉ old_runs host s1) as Hi by (intros Hi; rewrite Hgone in H1; done).
    destruct (Hkeep _ Hi) as [E _]. rewrite E in H1. pose proof (proj2 (He r Hs1) (conj H1 H2)) as [?|Hr]%elem_of_app; [done|].
    destruct Hi. rewrite Eold. by apply list_elem_of_fmap_2.
  - intros Hr. destruct (proj1 (He r Hs1)) as [H1 H2]; [apply elem_of_app; by left|]. split; [|done].
    destruct (Hkeep (run_id r)) as [E _]; [|by rewrite E]. rewrite Eold. intros (r' & Er & Hr')%list_elem_of_fmap.
    destruct (proj1 (He r' Hs1)) as [H1' _]; [apply elem_of_app; by right|]. rewrite <- Er, H1 in H1'. injection H1' as <-. by apply (Hd r).
Qed.
(** The host's history from [s] to [s']: as long as it fits, and the newest. *)
Definition history_kept (host : Uuid) (s s' : PostureStore) : Prop :=
  length (host_runs host s') = Nat.min 60 (S (length (host_runs host s)))
  ∧ ∀ i r, posture_runs s !! i = Some r → run_host r = host →
      same_under i s s'
      ∨ posture_runs s' !! i = None ∧ ∀ r', r' ∈ host_runs host s' → (run_created_at r ≤ run_created_at r')%N.
Lemma history_trimmed run s s1 s2 :
  store_ok s → store_ok s1 → store_ok s2 → posture_runs s !! run_id run = None → posture_runs s1 !! run_id run = Some run →
  (∀ i, i ≠ run_id run → same_under i s s1) → length (host_runs (run_host run) s) < 1060 →
  (∀ i, i ∈ old_runs (run_host run) s1 → posture_runs s2 !! i = None) →
  (∀ i, i ∉ old_runs (run_host run) s1 → same_under i s1 s2) → history_kept (run_host run) s s2.
Proof.
  intros Hs Hs1 Hs2 Hnew Hin Hsame Hlen Hgone Hkeep. pose proof (inserted_length s s1 run Hs Hs1 Hnew Hin Hsame) as Hl.
  pose proof (trimmed (run_host run) s1 s2 Hs1 Hs2 ltac:(lia) Hgone Hkeep) as Htrim. split.
  - rewrite <- Hl. transitivity (length (take KEEP_RUNS_PER_HOST (host_runs (run_host run) s1))); [|apply length_take].
    apply nodup_same_length; [by apply host_runs_nodup| |done].
    pose proof (host_runs_nodup (run_host run) s1 Hs1) as Hn. rewrite <- (take_drop KEEP_RUNS_PER_HOST (host_runs (run_host run) s1)) in Hn.
    by apply NoDup_app in Hn as (? & _).
  - intros i r Hi Hh. assert (i ≠ run_id run) as Hne by congruence. pose proof (Hsame i Hne) as Hi1.
    destruct (decide (i ∈ old_runs (run_host run) s1)) as [Hold|Hnot]; [right|left; eapply same_under_trans; [done|by apply Hkeep]].
    split; [by apply Hgone|]. intros r' Hr'%Htrim. apply list_elem_of_fmap in Hold as (x & -> & Hx%elem_of_take).
    destruct Hx as (n & Hx & _). apply list_elem_of_lookup_2 in Hx.
    pose proof (host_runs_sorted (run_host run) s1) as Hsort.
    rewrite <- (take_drop KEEP_RUNS_PER_HOST (host_runs (run_host run) s1)) in Hsort. apply StronglySorted_app in Hsort as (Hc & _).
    specialize (Hc r' x Hr' Hx). unfold newer_run in Hc. apply Is_true_true, N.leb_le in Hc.
    assert (x ∈ host_runs (run_host run) s1) as Hxin.
    { rewrite <- (take_drop KEEP_RUNS_PER_HOST (host_runs (run_host run) s1)). apply elem_of_app. by right. }
    apply host_runs_elem in Hxin as [Hx1 _]; [|done]. destruct Hi1 as [E _]. rewrite E, Hi in Hx1. injection Hx1 as <-. done.
Qed.

(** Any answer of [insert_run], under a fresh id: nothing is stored, or the whole run is, other hosts' rows as they
    were; with [Ok] the host keeps its sixty newest runs. *)
Lemma insert_run_spec fails run rows s o s' :
  store_ok s → posture_runs s !! run_id run = None → NoDup (nr_check <$> rows) → newest run s →
  insert_run duplicate_key fails run rows s = (o, s') →
  store_ok s'
  ∧ (∀ i r, posture_runs s !! i = Some r → run_host r ≠ run_host run → same_under i s s')
  ∧ (∀ i, i ≠ run_id run → posture_runs s' !! i = None ∨ posture_runs s' !! i = posture_runs s !! i)
  ∧ match o with
    | Ok id => id = run_id run ∧ stored_under (run_id run) (Some run) (results_map rows) s'
               ∧ (length (host_runs (run_host run) s) < 1060 → history_kept (run_host run) s s')
    | Err _ => s' = s ∨ stored_under (run_id run) (Some run) (results_map rows) s'
    end.
Proof.
  intros Hs Hf Hn Hnew. unfold insert_run. destruct (fails 0); [intros [= <- <-]; split_and!; [done|by split|by right|by left]|].
  destruct (insert_all_spec run rows s Hs Hf Hn) as (s1 & -> & Hin & Hsame & Hs1).
  assert (∀ i r, posture_runs s !! i = Some r → run_host r ≠ run_host run → same_under i s s1) as Hother.
  { intros i r Hi _. apply Hsame. intros ->. congruence. }
  assert (∀ i, i ≠ run_id run → posture_runs s1 !! i = posture_runs s !! i) as Hrows by (intros i Hi; by destruct (Hsame i Hi)).
  destruct (fails 1); [intros [= <- <-]; split_and!; [done|done|intros i Hi; right; by apply Hrows|by right]|].
  destruct (delete_old fails 2 _ s1) as [o' s2] eqn:Ed. destruct (delete_old_spec _ _ _ _ _ _ Ed Hs1) as (Hs2 & Hkeep & Hgone & Hsub).
  assert (newest run s1) as Hnew1.
  { intros i r Hi Hh Hne. destruct (Hsame i Hne) as [E _]. rewrite E in Hi. by eapply Hnew. }
  assert (stored_under (run_id run) (Some run) (results_map rows) s2) as Hst.
  { eapply stored_same; [done|]. apply Hkeep, newest_kept; [done|by destruct Hin|done]. }
  assert (∀ i r, posture_runs s !! i = Some r → run_host r ≠ run_host run → same_under i s s2) as Hother2.
  { intros i r Hi Hh. eapply same_under_trans; [by eapply Hother|]. apply Hkeep. intros (r' & E & Hh')%old_runs_host; [|done].
    destruct (Hother _ _ Hi Hh) as [E' _]. congruence. }
  assert (∀ i, i ≠ run_id run → posture_runs s2 !! i = None ∨ posture_runs s2 !! i = posture_runs s !! i) as Hsub2.
  { intros i Hi. rewrite <- (Hrows i Hi). apply Hsub. }
  destruct o' as [[]|e]; intros [= <- <-]; split_and!; try done; [|by right].
  intros Hlen. apply (history_trimmed run s s1 s2); try done; [by destruct Hin|by apply Hgone].
Qed.
End store_facts.

(** ** Runs *)

Definition count_status (st : Status) (rs : list CheckResult) : nat :=
  length (List.filter (λ r, bool_decide (status (res_outcome r) = st)) rs).
Lemma count_statuses st rs : length (List.filter (λ s, bool_decide (s = st)) (statuses rs)) = count_status st rs.
Proof. unfold statuses, count_status. induction rs as [|r rs IH]; cbn; [done|]. case_bool_decide; cbn; by rewrite IH. Qed.
Lemma as_i32_small n : n < 2 ^ 31 → as_i32 n = Z.of_nat n.
Proof. intros H. unfold as_i32. rewrite Z.mod_small; [lia|]. apply inj_lt in H. rewrite Nat2Z.inj_pow in H. lia. Qed.
Lemma count_small st rs : length rs < 200 → as_i32 (count_status st rs) = Z.of_nat (count_status st rs).
Proof.
  intros H. apply as_i32_small. eapply Nat.le_lt_trans; [apply List.filter_length_le|]. etrans; [exact H|].
  change 200 with (25 * 2 ^ 3). change 31 with (28 + 3). rewrite Nat.pow_add_r. apply Nat.mul_lt_mono_pos_r; [cbn; lia|].
  etrans; [|apply (Nat.pow_lt_mono_r 2 5 28); lia]. cbn. lia.
Qed.
Lemma posture_run_counts id host_id by_ now platform rs :
  length rs < 200 →
  posture_run id host_id by_ now platform rs =
    mkRun id host_id platform by_ now (Z.of_nat (count_status Passed rs)) (Z.of_nat (count_status Failed rs))
      (Z.of_nat (count_status NotApplicable rs)) (score (tally_of (statuses rs))).
Proof.
  intros Hl. unfold posture_run, tally_of. cbv zeta. destruct (tally_counts (statuses rs) (mkTally 0 0 0)) as (-> & -> & ->).
  cbn [t_passed t_failed t_not_applicable]. rewrite !Nat.add_0_l, !count_statuses, !count_small by done. done.
Qed.
(** The share of [passed] among the checks that applied, in percent and rounded to
    the nearest, halves up; none when none applied. *)
Definition percentage (passed failed : nat) (sc : option N) : Prop :=
  match sc with
  | None => passed + failed = 0
  | Some n => 0 < passed + failed
      ∧ 2 * N.to_nat n * (passed + failed) ≤ 200 * passed + (passed + failed)
      ∧ 200 * passed < 2 * N.to_nat n * (passed + failed) + (passed + failed)
  end.
Lemma score_percentage rs :
  length rs < 200 → percentage (count_status Passed rs) (count_status Failed rs) (score (tally_of (statuses rs))).
Proof.
  intros Hl. unfold tally_of, score. destruct (tally_counts (statuses rs) (mkTally 0 0 0)) as (-> & -> & _).
  cbn [t_passed t_failed]. rewrite !Nat.add_0_l, !count_statuses. cbv zeta.
  set (p := count_status Passed rs). set (f := count_status Failed rs). clearbody p f.
  destruct (Nat.ltb_spec 0 (p + f)) as [Ha|Ha]; cbn [percentage]; [|lia].
  destruct (score_nearest p f Ha) as (H1 & H2 & H3 & _). rewrite N.mod_small, Nat2N.id by lia. done.
Qed.
Lemma evaluated_unique report rs : evaluate_report report = Some rs → NoDup (check_id ∘ res_check <$> rs).
Proof.
  unfold evaluate_report. destruct (from_report _) as [p|]; [|done]. cbn [mbind option_bind]. intros [= <-].
  rewrite <- list_fmap_compose. pose proof ids_unique as Hn. unfold all_checks in Hn. rewrite fmap_app in Hn.
  apply NoDup_app in Hn as (H1 & _ & H2). by destruct p.
Qed.
Lemma new_results_checks rs : nr_check <$> new_results rs = check_id ∘ res_check <$> rs.
Proof. unfold new_results. by rewrite <- list_fmap_compose. Qed.
Lemma results_map_lookup rs k v :
  NoDup (check_id ∘ res_check <$> rs) →
  results_map (new_results rs) !! k = Some v ↔
  ∃ r, r ∈ rs ∧ k = check_id (res_check r) ∧ v = (status_str (status (res_outcome r)), evidence (res_outcome r)).
Proof.
  intros Hn. unfold results_map, new_results. rewrite <- list_fmap_compose, <- elem_of_list_to_map by by rewrite <- list_fmap_compose.
  rewrite list_elem_of_fmap. split; [intros (r & [= -> ->] & Hr)|intros (r & Hr & -> & ->)]; by exists r.
Qed.

Section run_facts.
Context `{Hord : !SqlOrder, Htext : !Text}.
Context (duplicate_key : rstr) (parse_report : rstr → result rstr PostureFactsReport).
(** The tables [s], a fresh id, and a clock ahead of the host's earlier runs. *)
Context (s : PostureStore) (id : Uuid) (now : N) (host : Host).
Context (Hs : store_ok s) (Hfresh : posture_runs s !! id = None).
Context (Hnow : ∀ i r, posture_runs s !! i = Some r → run_host r = h_id host → (run_created_at r < now)%N).

(** The rows of a run of [rs]. *)
Definition recorded (by_ : rstr) (report : PostureFactsReport) (rs : list CheckResult) (s' : PostureStore) : Prop :=
  ∃ sc, percentage (count_status Passed rs) (count_status Failed rs) sc
  ∧ posture_runs s' !! id =
    Some (mkRun id (h_id host) (rep_platform report) by_ now (Z.of_nat (count_status Passed rs))
            (Z.of_nat (count_status Failed rs)) (Z.of_nat (count_status NotApplicable rs)) sc)
  ∧ ∀ k v, posture_results s' !! (id, k) = Some v ↔
      ∃ r, r ∈ rs ∧ k = check_id (res_check r) ∧ v = (status_str (status (res_outcome r)), evidence (res_outcome r)).

Lemma stored_recorded by_ report rs s' :
  evaluate_report report = Some rs →
  stored_under id (Some (posture_run id (h_id host) by_ now (rep_platform report) rs)) (results_map (new_results rs)) s' →
  recorded by_ report rs s'.
Proof.
  intros He [H1 H2]. rewrite posture_run_counts in H1 by by eapply evaluated_length.
  eexists. split; [apply score_percentage; by eapply evaluated_length|]. split; [done|]. intros k v. rewrite H2.
  apply results_map_lookup. by eapply evaluated_unique.
Qed.
Lemma run_checks_spec fails enabled by_ answer o sent s' :
  run_checks duplicate_key parse_report fails enabled id now host by_ answer s = (o, sent, s') →
  store_ok s'
  ∧ (∀ i r, posture_runs s !! i = Some r → run_host r ≠ h_id host → same_under i s s')
  ∧ (∀ i, i ≠ id → posture_runs s' !! i = None ∨ posture_runs s' !! i = posture_runs s !! i)
  ∧ match o with
    | Ok run =>
        run = id ∧ (length (host_runs (h_id host) s) < 1060 → history_kept (h_id host) s s')
        ∧ ∃ stdout report rs,
            answer = Ok stdout ∧ parse_report (trim stdout) = Ok report ∧ evaluate_report report = Some rs
            ∧ recorded by_ report rs s' ∧ sent = export_failed enabled host id rs
    | Err e =>
        sent = []
        ∧ (s' = s ∨ ∃ stdout report rs why,
             answer = Ok stdout ∧ parse_report (trim stdout) = Ok report ∧ evaluate_report report = Some rs
             ∧ recorded by_ report rs s' ∧ e = #"couldn't store the run: " ++ why)
    end.
Proof.
  assert (∀ i r, posture_runs s !! i = Some r → run_host r ≠ h_id host → same_under i s s) as Hsame by done.
  unfold run_checks. destruct answer as [stdout|e]; [|intros [= <- <- <-]; split_and!; [done|done|by right|done|by left]].
  destruct (parse_report _) as [report|e] eqn:Ep; [|intros [= <- <- <-]; split_and!; [done|done|by right|done|by left]].
  destruct (evaluate_report report) as [rs|] eqn:Ee; [|intros [= <- <- <-]; split_and!; [done|done|by right|done|by left]].
  destruct (insert_run _ _ _ _ s) as [o' s1] eqn:Ei.
  apply (insert_run_spec _ _ (posture_run id (h_id host) by_ now (rep_platform report) rs)) in Ei as (H1 & H2 & H3' & H3);
    [|done|done|rewrite new_results_checks; by eapply evaluated_unique|intros i r Hi Hh _; by eapply Hnow].
  destruct o' as [run|e]; intros [= <- <- <-]; (split; [done|]; split; [done|]; split; [done|]).
  - destruct H3 as (-> & H3 & H4). split; [done|]. split; [done|]. exists stdout, report, rs. split_and!; try done.
    by apply stored_recorded.
  - split; [done|]. destruct H3 as [->|H3]; [by left|]. right. exists stdout, report, rs, e. split_and!; try done. by apply stored_recorded.
Qed.

(** C25: A run that reports success is stored under its id with the counts of its
    checks, the percentage of passed ones among those that applied, rounded to the
    nearest, and one result per check, exactly the evaluation of what the agent
    answered.  The messages sent are those of the checks that failed, and none when
    the export is off.  Of the host's runs the sixty newest are kept as they are and
    the others go, as long as there were fewer than 1060; no other host's rows
    change. *)
Theorem posture_run_recorded fails enabled by_ answer run sent s' :
  run_checks duplicate_key parse_report fails enabled id now host by_ answer s = (Ok run, sent, s') →
  run = id ∧ store_ok s'
  ∧ (∃ stdout report rs,
       answer = Ok stdout ∧ parse_report (trim stdout) = Ok report ∧ evaluate_report report = Some rs
       ∧ recorded by_ report rs s'
       ∧ sent = (if default false enabled
                 then posture_message host id <$> List.filter (λ r, bool_decide (status (res_outcome r) = Failed)) rs else []))
  ∧ (length (host_runs (h_id host) s) < 1060 →
       length (host_runs (h_id host) s') = Nat.min 60 (S (length (host_runs (h_id host) s)))
       ∧ ∀ i r, posture_runs s !! i = Some r → run_host r = h_id host →
           same_under i s s'
           ∨ posture_runs s' !! i = None ∧ ∀ r', r' ∈ host_runs (h_id host) s' → (run_created_at r ≤ run_created_at r')%N)
  ∧ (∀ i r, posture_runs s !! i = Some r → run_host r ≠ h_id host → same_under i s s').
Proof. by intros (H1 & H2 & _ & -> & H3 & H4)%run_checks_spec. Qed.

(** A run that reports an error sends nothing, and either leaves both tables as they were or has stored the whole
    run and says that it could not: the new run never has only some of its results. *)
Theorem posture_run_error fails enabled by_ answer e sent s' :
  run_checks duplicate_key parse_report fails enabled id now host by_ answer s = (Err e, sent, s') →
  sent = [] ∧ store_ok s'
  ∧ (s' = s
     ∨ ∃ stdout report rs why,
         answer = Ok stdout ∧ parse_report (trim stdout) = Ok report ∧ evaluate_report report = Some rs
         ∧ recorded by_ report rs s' ∧ e = #"couldn't store the run: " ++ why)
  ∧ (∀ i r, posture_runs s !! i = Some r → run_host r ≠ h_id host → same_under i s s').
Proof. by intros (H1 & H2 & _ & -> & H3)%run_checks_spec. Qed.
End run_facts.

(** ** The schedule *)

Lemma nodup_fmap_filter {A B} (g : A → B) (p : A → bool) l : NoDup (g <$> l) → NoDup (g <$> List.filter p l).
Proof.
  induction l as [|x l IH]; [done|]. cbn [fmap list_fmap List.filter]. intros [Hx Hn]%NoDup_cons.
  destruct (p x); [|by apply IH]. cbn [fmap list_fmap]. apply NoDup_cons. split; [|by apply IH].
  intros (y & E & [Hy _]%list_elem_of_In%filter_In)%list_elem_of_fmap. apply Hx. rewrite E. by apply list_elem_of_fmap_2, list_elem_of_In.
Qed.
Lemma nodup_fmap_inj {A B} (g : A → B) l x y : NoDup (g <$> l) → x ∈ l → y ∈ l → g x = g y → x = y.
Proof.
  induction l as [|z l IH]; [by intros _ ?%elem_of_nil|]. cbn [fmap list_fmap]. rewrite !elem_of_cons. intros [Hz Hn]%NoDup_cons.
  intros [->|Hx] [->|Hy] E; [done| | |by apply IH]; exfalso; apply Hz; [rewrite E|rewrite <- E]; by apply list_elem_of_fmap_2.
Qed.

Section schedule.
Context `{Hord : !SqlOrder, Htext : !Text}.
Context (duplicate_key : rstr) (parse_report : rstr → result rstr PostureFactsReport).
Context (fails : Uuid → nat → option rstr) (enabled : option bool) (fresh : Uuid → Uuid) (now : N) (ask : Uuid → result rstr rstr).
(** Every host's run has an id of its own. *)
Context (Hinj : ∀ a b, fresh a = fresh b → a = b).

Lemma delete_old_ok f n old s : (∀ n, f n = None) → (delete_old f n old s).1 = Ok ().
Proof. intros Hf. revert n s. induction old as [|id old IH]; intros n s; cbn [delete_old]; [done|]. by rewrite !Hf. Qed.
Lemma insert_run_ok f run rows s :
  (∀ n, f n = None) → store_ok s → posture_runs s !! run_id run = None → NoDup (nr_check <$> rows) →
  (insert_run duplicate_key f run rows s).1 = Ok (run_id run).
Proof.
  intros Hf Hs Hid Hn. unfold insert_run. rewrite !Hf. destruct (insert_all_spec run rows s Hs Hid Hn) as (s1 & -> & _).
  pose proof (delete_old_ok f 2 (old_runs (run_host run) s1) s1 Hf) as H. destruct (delete_old _ _ _ _) as [o s2]. cbn in H. by subst o.
Qed.

(** What the runs still to come rely on. *)
Definition ready (hosts : list Host) (s : PostureStore) : Prop :=
  store_ok s
  ∧ ∀ h, h ∈ hosts → posture_runs s !! fresh (h_id h) = None
      ∧ ∀ i r, posture_runs s !! i = Some r → run_host r = h_id h → (run_created_at r < now)%N.
Definition run_one (host : Host) (s : PostureStore) : result rstr Uuid * list (Severity * NotificationMessage) * PostureStore :=
  run_checks duplicate_key parse_report (fails (h_id host)) enabled (fresh (h_id host)) now host #"schedule" (ask (h_id host)) s.
Lemma run_each_cons host hosts s :
  (run_each duplicate_key parse_report fails enabled fresh now ask (host :: hosts) s).2 =
  (run_each duplicate_key parse_report fails enabled fresh now ask hosts (run_one host s).2).2.
Proof.
  cbn [run_each]. fold (run_one host s). destruct (run_one host s) as [[o sent] s1]. cbn [snd].
  by destruct (run_each _ _ _ _ _ _ _ hosts s1).
Qed.
Lemma run_one_spec host hosts s :
  ready (host :: hosts) s →
  store_ok (run_one host s).2
  ∧ (∀ i r, posture_runs s !! i = Some r → run_host r ≠ h_id host → same_under i s (run_one host s).2)
  ∧ (∀ i, i ≠ fresh (h_id host) → posture_runs (run_one host s).2 !! i = None ∨ posture_runs (run_one host s).2 !! i = posture_runs s !! i)
  ∧ ∀ r, posture_runs (run_one host s).2 !! fresh (h_id host) = Some r → run_host r = h_id host.
Proof.
  intros [Hs Hr]. destruct (Hr host ltac:(by left)) as [H1 H2]. destruct (run_one host s) as [[o sent] s'] eqn:E. cbn [snd].
  destruct (run_checks_spec _ _ _ _ _ _ Hs H1 H2 _ _ _ _ _ _ _ E) as (H3 & H4 & H5 & H6). split_and!; try done. intros r Hin.
  destruct o as [run|e].
  - destruct H6 as (_ & _ & ? & ? & ? & _ & _ & _ & (? & _ & H6 & _) & _). rewrite H6 in Hin. by injection Hin as <-.
  - destruct H6 as (_ & [->|(? & ? & ? & ? & _ & _ & _ & (? & _ & H6 & _) & _)]); [congruence|]. rewrite H6 in Hin. by injection Hin as <-.
Qed.
Lemma run_one_recorded host hosts s stdout report rs :
  ready (host :: hosts) s → (∀ n, fails (h_id host) n = None) →
  ask (h_id host) = Ok stdout → parse_report (trim stdout) = Ok report → evaluate_report report = Some rs →
  recorded (fresh (h_id host)) now host #"schedule" report rs (run_one host s).2.
Proof.
  intros [Hs Hr] Hf Ha Hp He. destruct (Hr host ltac:(by left)) as [H1 H2]. destruct (run_one host s) as [[o sent] s'] eqn:E. cbn [snd].
  assert (o = Ok (fresh (h_id host))) as ->.
  { unfold run_one, run_checks in E. rewrite Ha, Hp, He in E.
    pose proof (insert_run_ok (fails (h_id host)) (posture_run (fresh (h_id host)) (h_id host) #"schedule" now (rep_platform report) rs)
                  (new_results rs) s Hf Hs H1 ltac:(rewrite new_results_checks; by eapply evaluated_unique)) as Ho.
    destruct (insert_run _ _ _ _ s) as [o' s1]. cbn in Ho. subst o'. by injection E as <- _ _. }
  destruct (run_checks_spec _ _ _ _ _ _ Hs H1 H2 _ _ _ _ _ _ _ E) as (_ & _ & _ & _ & _ & so & rep & rs' & E1 & E2 & E3 & H6 & _).
  rewrite Ha in E1. injection E1 as <-. rewrite Hp in E2. injection E2 as <-. rewrite He in E3. by injection E3 as <-.
Qed.
Lemma ready_after host hosts s : NoDup (h_id <$> host :: hosts) → ready (host :: hosts) s → ready hosts (run_one host s).2.
Proof.
  intros Hn Hready. destruct (run_one_spec host hosts s Hready) as (Hs' & _ & Hsub & Hown). destruct Hready as [Hs Hr].
  split; [done|]. cbn [fmap list_fmap] in Hn. apply NoDup_cons in Hn as [Hh _]. intros h Hin. destruct (Hr h ltac:(by right)) as [H3 H4].
  assert (h_id h ≠ h_id host) as Hne by (intros Eh; apply Hh; rewrite <- Eh; by apply list_elem_of_fmap_2). split.
  - destruct (Hsub (fresh (h_id h))) as [E'|E']; [by intros ?%Hinj|done|by rewrite E'].
  - intros i r Hi Hh'. destruct (decide (i = fresh (h_id host))) as [->|Hi']; [apply Hown in Hi; congruence|].
    destruct (Hsub i Hi') as [E'|E']; [congruence|]. rewrite E' in Hi. by eapply H4.
Qed.
Lemma run_each_other hosts s i r :
  NoDup (h_id <$> hosts) → ready hosts s → posture_runs s !! i = Some r → run_host r ∉ h_id <$> hosts →
  same_under i s (run_each duplicate_key parse_report fails enabled fresh now ask hosts s).2.
Proof.
  revert s. induction hosts as [|host hosts IH]; intros s Hn Hready Hi Hout; [done|]. rewrite run_each_cons.
  destruct (run_one_spec host hosts s Hready) as (_ & Hother & _). apply not_elem_of_cons in Hout as [H1 H2].
  pose proof (Hother i r Hi H1) as Hsame. eapply same_under_trans; [done|]. apply IH; [|by apply ready_after| |done].
  - cbn [fmap list_fmap] in Hn. by apply NoDup_cons in Hn as [_ ?].
  - destruct Hsame as [E _]. by rewrite E.
Qed.
Lemma run_each_recorded hosts s h stdout report rs :
  NoDup (h_id <$> hosts) → ready hosts s → h ∈ hosts → (∀ n, fails (h_id h) n = None) →
  ask (h_id h) = Ok stdout → parse_report (trim stdout) = Ok report → evaluate_report report = Some rs →
  recorded (fresh (h_id h)) now h #"schedule" report rs (run_each duplicate_key parse_report fails enabled fresh now ask hosts s).2.
Proof.
  intros Hn Hready Hin Hf Ha Hp He. revert s Hn Hready Hin.
  induction hosts as [|host hosts IH]; intros s Hn Hready Hin; [by apply elem_of_nil in Hin|]. rewrite run_each_cons.
  pose proof (ready_after _ _ _ Hn Hready) as Hready'. cbn [fmap list_fmap] in Hn. apply NoDup_cons in Hn as [Hh Hn].
  apply elem_of_cons in Hin as [->|Hin]; [|by apply IH].
  pose proof (run_one_recorded _ _ _ _ _ _ Hready Hf Ha Hp He) as (sc & Hsc & H1 & H2).
  destruct (run_each_other hosts _ _ _ Hn Hready' H1 Hh) as [H3 H4]. exists sc. split; [done|]. split; [by rewrite H3|].
  intros k v. by rewrite H4.
Qed.
End schedule.

(** A host the schedule asks: neither revoked nor awaiting approval, connected
    with an agent of protocol 46 or later, and every run it has is more than 23
    hours old. *)
Definition falls_due (reg : Registry) (now : N) (s : PostureStore) (h : Host) : Prop :=
  h_revoked_at h = None ∧ h_pending_approval h = false
  ∧ (∃ c v, connections reg !! h_id h = Some c ∧ protocol_version c = Some v ∧ (46 ≤ v)%N)
  ∧ ∀ i r, posture_runs s !! i = Some r → run_host r = h_id h → (run_created_at r + 23 * 3600000000 < now)%N.

Lemma fold_max_lt ts t bound : (fold_left N.max ts t < bound ↔ t < bound ∧ ∀ x, x ∈ ts → x < bound)%N.
Proof.
  revert t. induction ts as [|x ts IH]; intros t; cbn [fold_left].
  - split; [intros H; split; [done|by intros x ?%elem_of_nil]|by intros [? _]].
  - rewrite IH. setoid_rewrite elem_of_cons. split.
    + intros [H1 H2]. split; [lia|]. intros y [->|Hy]; [lia|by apply H2].
    + intros [H1 H2]. split; [pose proof (H2 x (or_introl eq_refl)); lia|]. intros y Hy. apply H2. by right.
Qed.
Lemma last_run_old s host now :
  store_ok s →
  match last_run_times s host with Some at_ => (at_ <? now - HOURS_23)%N | None => true end = true ↔
  ∀ i r, posture_runs s !! i = Some r → run_host r = host → (run_created_at r + 23 * 3600000000 < now)%N.
Proof.
  intros Hs. unfold last_run_times.
  assert (∀ t, t ∈ run_created_at <$> List.filter (λ r, (run_host r =? host)%N) (run_rows s) ↔
            ∃ i r, posture_runs s !! i = Some r ∧ run_host r = host ∧ t = run_created_at r) as Hin.
  { intros t. rewrite list_elem_of_fmap. setoid_rewrite list_elem_of_In. setoid_rewrite filter_In. setoid_rewrite <- list_elem_of_In.
    setoid_rewrite run_rows_elem; [|done]. setoid_rewrite N.eqb_eq. split.
    - intros (r & -> & H1 & H2). by exists (run_id r), r.
    - intros (i & r & H1 & H2 & ->). exists r. split; [done|]. split; [|done]. destruct Hs as [Hk _]. by rewrite (Hk i r H1). }
  change (23 * 3600000000)%N with HOURS_23.
  destruct (run_created_at <$> _) as [|t ts].
  - split; [|done]. intros _ i r Hi Hh. assert (run_created_at r ∈ []) as []%elem_of_nil. apply Hin. eauto.
  - rewrite N.ltb_lt, fold_max_lt. split.
    + intros [H1 H2] i r Hi Hh. assert (run_created_at r ∈ t :: ts) as [->|Hts]%elem_of_cons; [apply Hin; eauto|lia|].
      specialize (H2 _ Hts). lia.
    + intros H. assert (∀ x, x ∈ t :: ts → (x < now - HOURS_23)%N) as Hall.
      { intros x (i & r & Hi & Hh & ->)%Hin. specialize (H i r Hi Hh). lia. }
      split; [apply Hall; by left|]. intros x Hx. apply Hall. by right.
Qed.
Lemma is_due_iff reg now s h : store_ok s → is_due reg now s h = true ↔ falls_due reg now s h.
Proof.
  intros Hs. unfold is_due, falls_due, host_is_active, is_connected, supports, agent_supports, agent_protocol_status.
  rewrite !andb_true_iff, negb_true_iff, last_run_old, !bool_decide_eq_true by done.
  change (min_protocol Op.PostureFacts) with 46%N.
  destruct (connections reg !! h_id h) as [c|]; [|rewrite is_Some_alt; naive_solver].
  destruct (protocol_version c) as [v|] eqn:Ev; [rewrite N.leb_le|]; rewrite is_Some_alt; naive_solver.
Qed.


(** ** A fleet of one *)

Module SampleRun.
Definition duplicate : rstr := #"Duplicate entry".
Definition parse (text : rstr) : result rstr PostureFactsReport :=
  if str_eqb text #"{}" then Ok SampleReport.report else Err #"EOF while parsing".
Definition no_failure (n : nat) : option rstr := None.
(** The trim of the history fails after the commit. *)
Definition trim_fails (n : nat) : option rstr := match n with 1 => Some #"pool timed out" | _ => None end.
Definition host : Host := mkHost 5 #"web 01" [] 0 None None None None None None false false None None None.
Definition empty : PostureStore := mkStore ∅ ∅.
Definition answer : result rstr rstr := Ok #"{} ".
Definition run (fails : nat → option rstr) : result rstr Uuid * list (Severity * NotificationMessage) * PostureStore :=
  run_checks duplicate parse fails (Some true) 7 1000000 host #"alice" answer empty.
Definition reg : Registry := mkRegistry {[ 5%N := mkConnection (Some PROTOCOL_VERSION) 1 ]} ∅ ∅ 2 (Guard.mkProtection [] None).

Lemma empty_ok : store_ok empty.
Proof. split; [intros i r H|intros i k v H]; cbn in H; by rewrite lookup_empty in H. Qed.
Lemma uuids_bare u : bare (uuid_to_string u) = true.
Proof. cbn. unfold bare, contains_char. cbn [existsb]. destruct (N.eqb_spec 32 (u + 65536)), (N.eqb_spec 34 (u + 65536)); [lia..|done]. Qed.
Lemma run_succeeds : (run no_failure).1.1 = Ok 7%N ∧ length (run no_failure).1.2 = 1.
Proof. vm_compute. done. Qed.
Lemma run_fails : (run trim_fails).1.1 = Err #"couldn't store the run: pool timed out" ∧ is_Some (posture_runs (run trim_fails).2 !! 7%N).
Proof. vm_compute. eauto. Qed.
Lemma run_shape fails o : (run fails).1.1 = o → run fails = (o, (run fails).1.2, (run fails).2).
Proof. intros <-. by destruct (run fails) as [[? ?] ?]. Qed.
Lemma none_earlier i r : posture_runs empty !! i = Some r → (run_created_at r < 1000000)%N.
Proof. intros H. cbn in H. by rewrite lookup_empty in H. Qed.
Lemma host_due : falls_due reg 1000000 empty host.
Proof.
  split; [done|]. split; [done|]. split; [by exists (mkConnection (Some PROTOCOL_VERSION) 1), PROTOCOL_VERSION|].
  intros i r H. cbn in H. by rewrite lookup_empty in H.
Qed.
Lemma first_result : ∃ r, r ∈ SampleReport.results.
Proof. destruct SampleReport.half_passed as [_ H]. destruct SampleReport.results as [|r l]; [done|]. exists r. by left. Qed.

Lemma posture_run_recorded_witness :
  (run no_failure).1.1 = Ok 7%N ∧ length (run no_failure).1.2 = 1 ∧ store_ok (run no_failure).2 ∧ length (host_runs 5 (run no_failure).2) = 1.
Proof.
  pose proof run_succeeds as [H1 H2].
  destruct (posture_run_recorded duplicate parse empty 7 1000000 host empty_ok eq_refl (λ i r H _, none_earlier i r H)
              no_failure (Some true) #"alice" answer 7 (run no_failure).1.2 (run no_failure).2 (run_shape _ _ H1)) as (_ & H3 & _ & H4 & _).
  split; [exact H1|]. split; [exact H2|]. split; [exact H3|].
  destruct (H4 ltac:(vm_compute; lia)) as [H5 _]. exact H5.
Defined.
(** The store that says it could not store the run has it. *)
Lemma posture_run_error_witness :
  (run trim_fails).1.1 = Err #"couldn't store the run: pool timed out" ∧ is_Some (posture_runs (run trim_fails).2 !! 7%N)
  ∧ (run trim_fails).1.2 = [].
Proof.
  pose proof run_fails as [H1 H2].
  destruct (posture_run_error duplicate parse empty 7 1000000 host empty_ok eq_refl (λ i r H _, none_earlier i r H)
              trim_fails (Some true) #"alice" answer _ (run trim_fails).1.2 (run trim_fails).2 (run_shape _ _ H1)) as (H3 & _).
  split; [exact H1|]. split; [exact H2|exact H3].
Defined.
Lemma siem_line_reads_back_witness :
  ∃ r, r ∈ SampleReport.results ∧ length <$> read_pairs 9 (siem_line host 7 r) = Some 9.
Proof.
  destruct first_result as [r Hr]. exists r. split; [exact Hr|].
  rewrite (siem_line_reads_back host 7 SampleReport.report SampleReport.results r uuids_bare SampleReport.evaluates Hr). reflexivity.
Defined.
End SampleRun.
