(* ===== verification/Pagination.v ===== *)
(** * Numbered pages ([pagination.rs]) and the group dashboards

    Offsets, page counts and the strip of page links with their machine widths, the
    query a group dashboard keeps in its address, and the dashboards of Inquest and
    Postmortem ([routes/inquest.rs], [routes/postmortem.rs]) that show the connected
    hosts through them.  [form_urlencoded] is the interface [UrlForm]. *)

From Stdlib Require Import NArith ZArith Lia.
From stdpp Require Import sorting.
From S2P Require Import Prelude TextLemmas GuardTheorems Permission RoleStore Web Delegation.
From S2P Require Import Guard Registry Enrollment Quarantine Fixture.

Definition U32_MAX : N := 2 ^ 32 - 1.
Definition I64_MAX : N := 2 ^ 63 - 1.

(** What the serializer wrote, the parser reads back. *)
Class UrlForm := {
  form_serialize : list (rstr * rstr) → rstr;
  form_parse : rstr → list (rstr * rstr);
  form_parse_serialize : ∀ l, form_parse (form_serialize l) = l }.

(** [None] is a panic: [clamp] with an upper bound below the lower one. *)
Definition normalize (page per_page : option N) (default_per_page max_per_page : N) : option (N * N) :=
  if (max_per_page <? 1)%N then None
  else Some (N.max (default 1%N page) 1, N.min (N.max (default default_per_page per_page) 1) max_per_page).
Definition offset (page per_page : N) : N := N.min ((page - 1) * per_page) I64_MAX.
(** [as u32] keeps the low 32 bits. *)
Definition total_pages (total per_page : N) : N :=
  if (total =? 0)%N || (per_page =? 0)%N then 1 else ((total + per_page - 1) / per_page) mod 2 ^ 32.

(** [Page<()>]: every caller keeps the rows apart, so [items] is left out. *)
Record Page := mkPage { pg_page : N; pg_per_page : N; pg_total : N; pg_total_pages : N }.
Definition page_new (page per_page total : N) : Page := mkPage page per_page total (total_pages total per_page).
Definition has_prev (p : Page) : bool := (1 <? pg_page p)%N.
Definition has_next (p : Page) : bool := (pg_page p <? pg_total_pages p)%N.
Definition start_index (p : Page) : N := if (pg_total p =? 0)%N then 0 else (pg_page p - 1) * pg_per_page p + 1.
Definition end_index (p : Page) : N := N.min (pg_page p * pg_per_page p) (pg_total p).
Definition page_out_of_range (page per_page total : N) : bool := (total_pages total per_page <? page)%N && (0 <? total)%N.

(** [Vec::dedup]: of equal neighbours the first stays. *)
Fixpoint dedup (l : list N) : list N :=
  match l with
  | x :: (y :: _) as l' => if (x =? y)%N then dedup l' else x :: dedup l'
  | _ => l
  end.
Fixpoint with_gaps (prev : option N) (pages : list N) : list (option N) :=
  match pages with
  | [] => []
  | p :: pages =>
      (if from_option (λ q, (q + 1 <? p)%N) false prev then [None] else []) ++ Some p :: with_gaps (Some p) pages
  end.
(** [current.saturating_sub(1)..=current.saturating_add(1)] *)
Definition neighbours (current : N) : list N :=
  (λ i, (current - 1 + N.of_nat i)%N) <$> seq 0 (N.to_nat (N.min (current + 1) U32_MAX + 1 - (current - 1))).
Definition page_window (current total_pages : N) : list (option N) :=
  if (total_pages <=? 1)%N then [Some 1%N]
  else with_gaps None (dedup (merge_sort N.le
         ([1%N; total_pages] ++ List.filter (λ p, (1 <=? p)%N && (p <=? total_pages)%N) (neighbours current)))).

Record NumberedPageInfo := mkInfo {
  current_page : N; info_total_pages : N; range_start : N; range_end : N; info_total : N;
  first_href : option rstr; prev_href : option rstr; next_href : option rstr; last_href : option rstr;
  numbered : list (rstr * option rstr * bool) }.
Definition numbered_page_info (page : Page) (link_for : N → rstr) : NumberedPageInfo :=
  {| current_page := pg_page page; info_total_pages := pg_total_pages page;
     range_start := start_index page; range_end := end_index page; info_total := pg_total page;
     first_href := if has_prev page then Some (link_for 1%N) else None;
     prev_href := if has_prev page then Some (link_for (pg_page page - 1)%N) else None;
     next_href := if has_next page then Some (link_for (pg_page page + 1)%N) else None;
     last_href := if has_next page then Some (link_for (pg_total_pages page)) else None;
     numbered := (λ entry, match entry with
                           | Some p => (fmt_N p, Some (link_for p), (p =? pg_page page)%N)
                           | None => ([8230%N], None, false)
                           end) <$> page_window (pg_page page) (pg_total_pages page) |}.

Record GroupListQuery := mkQuery { open : list rstr; group_page : option N }.
Definition with_open (key : rstr) (q : GroupListQuery) : GroupListQuery :=
  if str_mem key (open q) then q else mkQuery (open q ++ [key]) (group_page q).
Definition with_group_page (page : N) (q : GroupListQuery) : GroupListQuery :=
  mkQuery (open q) (if (1 <? page)%N then Some page else None).

Section queries.
Context `{Hform : !UrlForm}.

Definition page_link (base_path : rstr) (params : list (rstr * rstr)) (page : N) : rstr :=
  base_path ++ #"?" ++ form_serialize (params ++ [(#"page", fmt_N page)]).
Definition pairs_of (q : GroupListQuery) : list (rstr * rstr) :=
  (pair #"open" <$> open q) ++ match group_page q with Some p => [(#"group_page", fmt_N p)] | None => [] end.
Definition href (base_path : rstr) (q : GroupListQuery) : rstr :=
  if bool_decide (open q = []) && bool_decide (group_page q = None) then base_path
  else base_path ++ #"?" ++ form_serialize (pairs_of q).

Definition parse_pair (q : GroupListQuery) (kv : rstr * rstr) : GroupListQuery :=
  if str_eqb kv.1 #"open" then
    let v := trim kv.2 in
    if negb (is_empty v) && negb (str_mem v (open q)) then mkQuery (open q ++ [v]) (group_page q) else q
  else if str_eqb kv.1 #"group_page" then mkQuery (open q) (parse_unsigned U32_MAX (trim kv.2))
  else q.
Definition parse_group_list_query (raw : option rstr) : GroupListQuery :=
  match raw with
  | None => mkQuery [] None
  | Some raw => fold_left parse_pair (form_parse raw) (mkQuery [] None)
  end.

(** ** The dashboards *)

Definition GROUPS_PER_PAGE : N := 25.
(** Without the label of its system, which only Inquest shows. *)
Record HostGroup := mkGroup { hg_host_id : rstr; hg_host_name : rstr; hg_is_open : bool; hg_open_href : option rstr }.
Inductive Dashboard := RedirectTo (path : rstr) | GroupPage (groups : list HostGroup) (pager : NumberedPageInfo).

Definition connected_hosts (reg : Registry) (hosts : list Host) : list Host :=
  List.filter (λ h, host_is_active h && is_connected (h_id h) reg) hosts.
Definition group_page_num (q : GroupListQuery) (total : N) : N :=
  let requested := N.max (default 1%N (group_page q)) 1 in
  if page_out_of_range requested GROUPS_PER_PAGE total then total_pages total GROUPS_PER_PAGE else requested.
Definition shown_hosts (q : GroupListQuery) (connected : list Host) : list Host :=
  let total := N.of_nat (length connected) in
  take (N.to_nat GROUPS_PER_PAGE) (drop (N.to_nat (offset (group_page_num q total) GROUPS_PER_PAGE)) connected).
Definition host_group `{Htext : !Text} (base : rstr) (q : GroupListQuery) (h : Host) : HostGroup :=
  let id := uuid_to_string (h_id h) in
  let is_open := str_mem id (open q) in
  mkGroup id (h_name h) is_open (if is_open then None else Some (href base (with_open id q))).
Definition group_dashboard `{Htext : !Text} (perm : Permission) (base : rstr) (ctx : AuthContext) (selected : option Uuid) (raw : option rstr)
    (reg : Registry) (hosts : list Host) : result AppError Dashboard :=
  _ ← ensure ctx perm;
  match id ← selected; if is_connected id reg then Some id else None with
  | Some id => Ok (RedirectTo (base ++ #"/" ++ uuid_to_string id))
  | None =>
      let q := parse_group_list_query raw in
      let connected := connected_hosts reg hosts in
      let total := N.of_nat (length connected) in
      Ok (GroupPage (host_group base q <$> shown_hosts q connected)
            (numbered_page_info (page_new (group_page_num q total) GROUPS_PER_PAGE total)
               (λ p, href base (with_group_page p q))))
  end.
Definition inquest_show `{Htext : !Text} := group_dashboard IncidentsView #"/arsenals/inquest".
Definition postmortem_show `{Htext : !Text} := group_dashboard SecurityView #"/arsenals/postmortem".
End queries.

(** ** Page arithmetic *)

Lemma total_pages_exact n : (n ≤ 25 * U32_MAX)%N →
  (1 ≤ total_pages n 25 ≤ U32_MAX ∧ n ≤ 25 * total_pages n 25 ∧ (0 < n → 25 * (total_pages n 25 - 1) < n))%N.
Proof.
  unfold total_pages, U32_MAX. intros Hn. destruct (N.eqb_spec n 0) as [->|Hz]; cbn [orb]; [done|].
  change (25 =? 0)%N with false. change (2 ^ 32)%N with 4294967296%N in *. pose proof (N.div_mod (n + 25 - 1) 25 ltac:(lia)) as H1.
  pose proof (N.mod_lt (n + 25 - 1) 25 ltac:(lia)) as H2. cbv iota.
  set (t := ((n + 25 - 1) / 25)%N) in *. set (m := ((n + 25 - 1) mod 25)%N) in *.
  clearbody t m. rewrite (N.mod_small t) by lia. lia.
Qed.
Lemma group_page_num_range q n : (n ≤ 25 * U32_MAX)%N → (0 < n)%N → (1 ≤ group_page_num q n ≤ total_pages n 25)%N.
Proof.
  intros Hn Hz. pose proof (total_pages_exact n Hn) as (H1 & _ & _). unfold group_page_num, page_out_of_range. fold GROUPS_PER_PAGE in H1 |- *.
  cbv zeta. destruct (N.ltb_spec (total_pages n GROUPS_PER_PAGE) (N.max (default 1%N (group_page q)) 1)), (N.ltb_spec 0 n); cbn [andb]; lia.
Qed.
Lemma group_page_num_exact q n p :
  (n ≤ 25 * U32_MAX)%N → (1 ≤ p ≤ total_pages n 25)%N → group_page_num (with_group_page p q) n = p.
Proof.
  intros Hn Hp. unfold group_page_num, with_group_page, page_out_of_range. cbv zeta. fold GROUPS_PER_PAGE in Hp. cbn [group_page].
  assert (N.max (default 1%N (if (1 <? p)%N then Some p else None)) 1 = p) as -> by (destruct (N.ltb_spec 1 p); cbn; lia).
  destruct (N.ltb_spec (total_pages n GROUPS_PER_PAGE) p); [lia|done].
Qed.
Lemma offset_exact p : (1 ≤ p ≤ U32_MAX)%N → offset p GROUPS_PER_PAGE = (25 * (p - 1))%N.
Proof.
  unfold offset, U32_MAX, I64_MAX, GROUPS_PER_PAGE. change (2 ^ 32)%N with 4294967296%N. change (2 ^ 63)%N with 9223372036854775808%N. lia.
Qed.

Lemma pages_concat {A} (l : list A) k n :
  concat ((λ i, take k (drop (k * (i - 1)) l)) <$> seq 1 n) = take (k * n) l.
Proof.
  induction n as [|n IH]; [by rewrite Nat.mul_0_r, take_0|]. rewrite seq_S, fmap_app, concat_app, IH. cbn [fmap list_fmap concat].
  rewrite app_nil_r. replace (1 + n - 1) with n by lia. rewrite take_take_drop. f_equal. lia.
Qed.

(** ** The query in the address *)

Definition clean (q : GroupListQuery) : Prop :=
  (∀ v, v ∈ open q → trim v = v ∧ v ≠ []) ∧ NoDup (open q) ∧ ∀ p, group_page q = Some p → (p ≤ U32_MAX)%N.
Lemma parse_unsigned_bound max s n : parse_unsigned max s = Some n → (n ≤ max)%N.
Proof.
  unfold parse_unsigned. cbv zeta. destruct (is_empty _); [done|]. destruct (parse_digits _ _) as [m|]; [|done].
  destruct (N.leb_spec m max); [|done]. by intros [= <-].
Qed.
Lemma parse_pair_clean q kv : clean q → clean (parse_pair q kv).
Proof.
  intros (H1 & H2 & H3). unfold parse_pair. destruct (str_eqb kv.1 #"open"); cbv zeta.
  - destruct (is_empty (trim kv.2)) eqn:Ee, (str_mem (trim kv.2) (open q)) eqn:Em; try done. cbn [negb andb]. split_and!; cbn [open group_page]; [|
      apply NoDup_app; split_and!; [done| |apply NoDup_singleton]; intros v Hv ->%list_elem_of_singleton;
      apply (proj2 (str_mem_elem _ _)) in Hv; congruence|done].
    intros v [Hv| ->%list_elem_of_singleton]%elem_of_app; [by apply H1|]. split; [apply trim_trim|]. intros E. by rewrite E in Ee.
  - destruct (str_eqb kv.1 #"group_page"); [|done]. split_and!; cbn [open group_page]; [done|done|]. intros p. apply parse_unsigned_bound.
Qed.
Lemma trim_fmt_N n : trim (fmt_N n) = fmt_N n.
Proof.
  apply trim_no_whitespace, not_true_iff_false. rewrite existsb_exists. intros (c & Hc%list_elem_of_In & Hw).
  apply fmt_N_digit in Hc. unfold is_ascii_digit, in_range in Hc. apply andb_true_iff in Hc as [H1%N.leb_le H2%N.leb_le].
  assert (c ∈ [48; 49; 50; 51; 52; 53; 54; 55; 56; 57]%N) as Hin by (rewrite !elem_of_cons; lia).
  rewrite !elem_of_cons, elem_of_nil in Hin. by repeat destruct Hin as [->|Hin].
Qed.

Section links.
Context `{Hform : !UrlForm}.

Lemma parse_clean raw : clean (parse_group_list_query raw).
Proof.
  assert (clean (mkQuery [] None)) as H0 by (split_and!; [by intros v ?%elem_of_nil|apply NoDup_nil_2|done]).
  destruct raw as [raw|]; cbn; [|done]. generalize (form_parse raw) as l. revert H0. generalize (mkQuery [] None) as q.
  intros q H0 l. revert q H0. induction l as [|kv l IH]; intros q H0; cbn; [done|]. by apply IH, parse_pair_clean.
Qed.
Lemma parse_opens q l :
  (∀ v, v ∈ l → trim v = v ∧ v ≠ []) → NoDup (open q ++ l) →
  fold_left parse_pair (pair #"open" <$> l) q = mkQuery (open q ++ l) (group_page q).
Proof.
  revert q. induction l as [|v l IH]; intros q Hl Hn; cbn [fmap list_fmap fold_left]; [by destruct q; rewrite app_nil_r|].
  destruct (Hl v ltac:(by left)) as [Ht Hv].
  assert (parse_pair q (#"open", v) = mkQuery (open q ++ [v]) (group_page q)) as ->.
  { unfold parse_pair. cbn [fst snd]. change (str_eqb #"open" #"open") with true. cbv iota zeta. rewrite Ht.
    assert (is_empty v = false) as -> by by destruct v. destruct (str_mem v (open q)) eqn:E; [|done].
    apply str_mem_elem in E. apply NoDup_app in Hn as (_ & H & _). destruct (H v E). by left. }
  rewrite IH; cbn [open group_page]; [by rewrite <- app_assoc|intros w Hw; apply Hl; by right|by rewrite <- app_assoc].
Qed.

(** What a browser sends for a link of the page at [base]. *)
Definition query_of (base link : rstr) : option rstr := strip_prefix link (base ++ #"?").
Lemma strip_self (base t : rstr) : strip_prefix (base ++ t) base = Some t.
Proof. by apply strip_prefix_Some. Qed.
Lemma query_of_base base : query_of base base = None.
Proof.
  unfold query_of. destruct (strip_prefix base (base ++ #"?")) as [r|] eqn:E; [|done]. apply strip_prefix_Some in E.
  apply (f_equal length) in E. rewrite !length_app in E. change (length #"?") with 1 in E. lia.
Qed.
Lemma parse_href base q : clean q → parse_group_list_query (query_of base (href base q)) = q.
Proof.
  intros (H1 & H2 & H3). destruct q as [l p]. unfold href. cbn [open group_page] in *. case_bool_decide as El; [case_bool_decide as Ep|];
    cbn [andb].
  1: subst; rewrite query_of_base; done.
  all: unfold query_of; rewrite app_assoc, strip_self; cbn [parse_group_list_query]; rewrite form_parse_serialize; unfold pairs_of;
    cbn [open group_page]; rewrite fold_left_app, parse_opens by done; cbn [open group_page]; rewrite app_nil_l;
    destruct p as [p|]; try done; cbn [fold_left]; unfold parse_pair; cbn [fst snd];
    change (str_eqb #"group_page" #"open") with false; change (str_eqb #"group_page" #"group_page") with true; cbv iota;
    rewrite trim_fmt_N, parse_unsigned_fmt_N by (by apply H3); done.
Qed.
End links.

(** ** The strip of page numbers *)

Lemma dedup_cons x y l : dedup (x :: y :: l) = if (x =? y)%N then dedup (y :: l) else x :: dedup (y :: l).
Proof. done. Qed.
Lemma dedup_elem p l : p ∈ dedup l ↔ p ∈ l.
Proof.
  induction l as [|x l IH]; [done|]. destruct l as [|y l]; [done|]. rewrite dedup_cons. destruct (N.eqb_spec x y) as [->|].
  - rewrite IH, !elem_of_cons. tauto.
  - by rewrite !(elem_of_cons _ _ x), IH.
Qed.
Lemma dedup_sorted l : StronglySorted N.le l → StronglySorted N.lt (dedup l).
Proof.
  induction l as [|x l IH]; [constructor|]. intros [Hl Hx]%StronglySorted_inv. destruct l as [|y l]; [repeat constructor|].
  rewrite dedup_cons. destruct (N.eqb_spec x y) as [->|Hne]; [by apply IH|]. constructor; [by apply IH|].
  apply Forall_forall. intros p. rewrite dedup_elem. intros Hp. rewrite Forall_forall in Hx.
  pose proof (Hx y ltac:(by left)). apply StronglySorted_inv in Hl as [_ Hy]. rewrite Forall_forall in Hy.
  apply elem_of_cons in Hp as [->|Hp]; [lia|]. specialize (Hy p Hp). lia.
Qed.
Lemma with_gaps_pages prev l : omap id (with_gaps prev l) = l.
Proof.
  revert prev. induction l as [|p l IH]; intros prev; cbn [with_gaps]; [done|]. rewrite omap_app.
  destruct (from_option _ _ prev); cbn; by rewrite IH.
Qed.
(** The strip has, in order and once each, the first page, the last one, the current one and its neighbours. *)
Lemma page_window_pages c t :
  (1 ≤ c)%N → (c ≤ t)%N → (t ≤ U32_MAX)%N →
  StronglySorted N.lt (omap id (page_window c t))
  ∧ ∀ p, p ∈ omap id (page_window c t) ↔ (1 ≤ p ≤ t ∧ (p = 1 ∨ p = t ∨ c ≤ p + 1 ∧ p ≤ c + 1))%N.
Proof.
  intros H1 Hc Ht. unfold page_window. destruct (N.leb_spec t 1) as [Hone|Hmany].
  - split; [repeat constructor|]. intros p. cbn. rewrite list_elem_of_singleton. lia.
  - rewrite with_gaps_pages. split.
    + apply dedup_sorted, Sorted_StronglySorted; [intros a b d; lia|]. apply Sorted_merge_sort. intros a b. lia.
    + intros p. rewrite dedup_elem, merge_sort_Permutation, elem_of_app, !elem_of_cons, elem_of_nil.
      rewrite list_elem_of_In, filter_In, <- list_elem_of_In, andb_true_iff, !N.leb_le. unfold neighbours, U32_MAX in *.
      change (2 ^ 32)%N with 4294967296%N in *. rewrite list_elem_of_fmap. split.
      * intros [H|[(i & -> & Hi%list_elem_of_In%in_seq) H]]; lia.
      * intros [Hr H]. destruct (decide (c ≤ p + 1 ∧ p ≤ c + 1)%N) as [D|D]; [|left; lia]. right. split; [|lia].
        exists (N.to_nat (p - (c - 1))). split; [lia|]. apply list_elem_of_In, in_seq. lia.
Qed.

(** Neighbouring numbers follow on each other, and an ellipsis stands exactly where
    some are left out. *)
Fixpoint well_spaced (l : list (option N)) : Prop :=
  match l with
  | [Some _] => True
  | Some a :: ((Some b :: _) as l') => b = (a + 1)%N ∧ well_spaced l'
  | Some a :: None :: ((Some b :: _) as l') => (a + 1 < b)%N ∧ well_spaced l'
  | _ => False
  end.
Lemma with_gaps_spaced p l : StronglySorted N.lt (p :: l) → well_spaced (Some p :: with_gaps (Some p) l).
Proof.
  revert p. induction l as [|q l IH]; intros p [Hl Hp]%StronglySorted_inv; [done|]. cbn [with_gaps from_option].
  rewrite Forall_forall in Hp. pose proof (Hp q ltac:(by left)) as Hpq. specialize (IH q Hl).
  destruct (N.ltb_spec (p + 1) q) as [Hgap|Hno]; cbn [app].
  - by split.
  - split; [lia|done].
Qed.
(** The strip of page [c] among [t]. *)
Definition strip_of (c t : N) (strip : list (option N)) : Prop :=
  StronglySorted N.lt (omap id strip) ∧ well_spaced strip
  ∧ ∀ p, Some p ∈ strip ↔ (1 ≤ p ≤ t ∧ (p = 1 ∨ p = t ∨ c ≤ p + 1 ∧ p ≤ c + 1))%N.
Lemma page_window_strip c t : (1 ≤ c)%N → (c ≤ t)%N → (t ≤ U32_MAX)%N → strip_of c t (page_window c t).
Proof.
  intros H1 Hc Ht. destruct (page_window_pages c t H1 Hc Ht) as [Hs Hp]. split; [done|]. split.
  - unfold page_window in *. destruct (t <=? 1)%N; [done|]. rewrite with_gaps_pages in Hs, Hp.
    destruct (dedup _) as [|p l]; [|by apply with_gaps_spaced]. specialize (Hp 1%N). pose proof (proj2 Hp ltac:(lia)) as Hin. by apply elem_of_nil in Hin.
  - intros p. rewrite <- Hp, list_elem_of_omap. split; [by exists (Some p)|]. intros (y & Hy & E). change (y = Some p) in E. by subst y.
Qed.

(** ** Browsing *)

Section browse.
Context `{Hform : !UrlForm, Htext : !Text}.

Definition group_ids (r : result AppError Dashboard) : list rstr :=
  match r with Ok (GroupPage groups _) => hg_host_id <$> groups | _ => [] end.
Definition host_ids (hosts : list Host) : list rstr := (λ h, uuid_to_string (h_id h)) <$> hosts.
Definition page_numbers (pager : NumberedPageInfo) : list N := N.of_nat <$> seq 1 (N.to_nat (info_total_pages pager)).

Lemma group_ids_shown base q l : hg_host_id <$> (host_group base q <$> l) = host_ids l.
Proof. by rewrite <- list_fmap_compose. Qed.
Lemma host_ids_app l k : host_ids (l ++ k) = host_ids l ++ host_ids k.
Proof. apply fmap_app. Qed.
Lemma dashboard_page perm base ctx selected raw reg hosts groups pager :
  group_dashboard perm base ctx selected raw reg hosts = Ok (GroupPage groups pager) →
  groups = host_group base (parse_group_list_query raw) <$> shown_hosts (parse_group_list_query raw) (connected_hosts reg hosts)
  ∧ pager = numbered_page_info
      (page_new (group_page_num (parse_group_list_query raw) (N.of_nat (length (connected_hosts reg hosts)))) GROUPS_PER_PAGE
         (N.of_nat (length (connected_hosts reg hosts))))
      (λ p, href base (with_group_page p (parse_group_list_query raw)))
  ∧ ∀ raw', group_ids (group_dashboard perm base ctx selected raw' reg hosts) =
      host_ids (shown_hosts (parse_group_list_query raw') (connected_hosts reg hosts)).
Proof.
  unfold group_dashboard. destruct (ensure ctx perm) as [[]|e]; cbn [mbind result_bind]; [|done].
  destruct (selected ≫= _); [done|]. cbv zeta. intros [= <- <-]. split; [done|]. split; [done|]. intros raw'. apply group_ids_shown.
Qed.

Lemma with_page_clean p q : (p ≤ U32_MAX)%N → clean q → clean (with_group_page p q).
Proof.
  intros Hp (H1 & H2 & H3). split_and!; [done|done|]. intros p'. cbn. destruct (1 <? p)%N; [by intros [= <-]|done].
Qed.
Lemma shown_page q l p :
  (N.of_nat (length l) ≤ 25 * U32_MAX)%N → (1 ≤ p ≤ total_pages (N.of_nat (length l)) 25)%N →
  shown_hosts (with_group_page p q) l = take 25 (drop (25 * (N.to_nat p - 1)) l).
Proof.
  intros Hn Hp. pose proof (total_pages_exact _ Hn) as ((_ & Ht) & _). unfold shown_hosts. cbv zeta.
  rewrite group_page_num_exact by done. rewrite offset_exact by lia. f_equal. f_equal. lia.
Qed.
Lemma pages_cover q base l :
  (N.of_nat (length l) ≤ 25 * U32_MAX)%N → clean q →
  concat ((λ p, host_ids (shown_hosts (parse_group_list_query (query_of base (href base (with_group_page p q)))) l))
            <$> (N.of_nat <$> seq 1 (N.to_nat (total_pages (N.of_nat (length l)) 25)))) = host_ids l.
Proof.
  intros Hn Hq. pose proof (total_pages_exact _ Hn) as ((H1 & H2) & H3 & _).
  set (t := total_pages (N.of_nat (length l)) 25) in *. rewrite <- list_fmap_compose.
  assert (∀ i, i ∈ seq 1 (N.to_nat t) →
    host_ids (shown_hosts (parse_group_list_query (query_of base (href base (with_group_page (N.of_nat i) q)))) l)
    = host_ids (take 25 (drop (25 * (i - 1)) l))) as Hi.
  { intros i [Hi1 Hi2]%list_elem_of_In%in_seq. rewrite parse_href by (apply with_page_clean; [lia|done]).
    rewrite shown_page by (subst t; lia). by rewrite Nat2N.id. }
  assert (∀ js, (∀ i, i ∈ js → i ∈ seq 1 (N.to_nat t)) →
    concat (((λ p, host_ids (shown_hosts (parse_group_list_query (query_of base (href base (with_group_page p q)))) l)) ∘ N.of_nat) <$> js)
    = host_ids (concat ((λ i, take 25 (drop (25 * (i - 1)) l)) <$> js))) as Hall.
  { induction js as [|i js IH]; intros His; [done|]. cbn [fmap list_fmap concat]. rewrite host_ids_app.
    f_equal; [apply Hi, His; by left|apply IH; intros j Hj; apply His; by right]. }
  rewrite Hall by done. rewrite pages_concat, take_ge by lia. done.
Qed.

(** The hosts shown are those of the range the pager states. *)
Lemma shown_range q l :
  (N.of_nat (length l) ≤ 25 * U32_MAX)%N → l ≠ [] →
  shown_hosts q l = take (N.to_nat (N.min (group_page_num q (N.of_nat (length l)) * 25) (N.of_nat (length l)) - (group_page_num q (N.of_nat (length l)) - 1) * 25))
                      (drop (N.to_nat ((group_page_num q (N.of_nat (length l)) - 1) * 25)) l)
  ∧ shown_hosts q l ≠ []
  ∧ ((group_page_num q (N.of_nat (length l)) <? total_pages (N.of_nat (length l)) 25)%N = true
     ↔ (N.min (group_page_num q (N.of_nat (length l)) * 25) (N.of_nat (length l)) < N.of_nat (length l))%N).
Proof.
  intros Hn Hl. assert (0 < length l) as Hpos by (destruct l; [done|cbn; lia]).
  pose proof (total_pages_exact _ Hn) as ((H1 & H2) & H3 & H4). pose proof (group_page_num_range q _ Hn ltac:(lia)) as Hg.
  unfold shown_hosts. cbv zeta. set (g := group_page_num q (N.of_nat (length l))) in *. rewrite offset_exact by lia.
  change (N.to_nat GROUPS_PER_PAGE) with 25. set (t := total_pages (N.of_nat (length l)) 25) in *. clearbody g t. split_and!.
  - replace (N.to_nat ((g - 1) * 25)) with (N.to_nat (25 * (g - 1))) by lia.
    destruct (decide (N.to_nat (25 * g) ≤ length l)) as [D|D]; [f_equal; lia|].
    rewrite !take_ge; [done| |]; rewrite length_drop; lia.
  - intros E. apply (f_equal length) in E. rewrite length_take, length_drop in E. cbn [length] in E. lia.
  - rewrite N.ltb_lt. lia.
Qed.

(** Where a link of the page at [base] leads. *)
Definition leads (base : rstr) (link : option rstr) : option GroupListQuery :=
  (λ l, parse_group_list_query (query_of base l)) <$> link.
(** An entry of the strip: a number that links to its page, or an ellipsis. *)
Definition entry_for (base : rstr) (q : GroupListQuery) (current : N) (e : option N) (entry : rstr * option rstr * bool) : Prop :=
  match e with
  | Some p => ∃ link, entry = (fmt_N p, Some link, bool_decide (p = current)) ∧ leads base (Some link) = Some (with_group_page p q)
  | None => entry = ([8230%N], None, false)
  end.

(** C27: Browsing a dashboard by its page links.  Whatever the address said, the
    pages behind the links show, one after another, every connected host exactly
    once and in order; a page is never empty while a host is connected; and the
    stated range is what is shown.  First and Previous are there exactly from the
    second page on and lead to page 1 and to the page before, Next and Last exactly
    while hosts follow and lead to the next page and to the last.  The strip shows,
    in order, the first page, the last one, the current one and its neighbours, each
    linked to its page with the opened groups kept, with an ellipsis exactly where
    pages are left out. *)
Theorem dashboards_cover_hosts perm base ctx selected raw reg hosts groups pager :
  group_dashboard perm base ctx selected raw reg hosts = Ok (GroupPage groups pager) →
  (N.of_nat (length (connected_hosts reg hosts)) ≤ 25 * U32_MAX)%N →
  concat ((λ p, group_ids (group_dashboard perm base ctx selected
                   (query_of base (href base (with_group_page p (parse_group_list_query raw)))) reg hosts)) <$> page_numbers pager)
    = host_ids (connected_hosts reg hosts)
  ∧ (connected_hosts reg hosts ≠ [] →
       groups ≠ []
       ∧ hg_host_id <$> groups =
           host_ids (take (N.to_nat (range_end pager + 1 - range_start pager))
                       (drop (N.to_nat (range_start pager - 1)) (connected_hosts reg hosts)))
       ∧ range_start pager = ((current_page pager - 1) * 25 + 1)%N
       ∧ info_total pager = N.of_nat (length (connected_hosts reg hosts))
       ∧ ((current_page pager < info_total_pages pager)%N ↔ (range_end pager < info_total pager)%N)
       ∧ leads base (first_href pager) =
           (if decide (1 < current_page pager)%N then Some (with_group_page 1 (parse_group_list_query raw)) else None)
       ∧ leads base (prev_href pager) =
           (if decide (1 < current_page pager)%N
            then Some (with_group_page (current_page pager - 1) (parse_group_list_query raw)) else None)
       ∧ leads base (next_href pager) =
           (if decide (current_page pager < info_total_pages pager)%N
            then Some (with_group_page (current_page pager + 1) (parse_group_list_query raw)) else None)
       ∧ leads base (last_href pager) =
           (if decide (current_page pager < info_total_pages pager)%N
            then Some (with_group_page (info_total_pages pager) (parse_group_list_query raw)) else None)
       ∧ ∃ strip, strip_of (current_page pager) (info_total_pages pager) strip
           ∧ Forall2 (entry_for base (parse_group_list_query raw) (current_page pager)) strip (numbered pager)).
Proof.
  intros (-> & -> & Hpages)%dashboard_page Hn. set (l := connected_hosts reg hosts) in *.
  pose proof (parse_clean raw) as Hq. set (q := parse_group_list_query raw) in *. split.
  { etrans; [|apply (pages_cover q base l Hn Hq)]. f_equal. apply list_fmap_ext. intros i p _. apply Hpages. }
  intros Hl. assert (0 < length l) as Hpos by (destruct l; [done|cbn; lia]).
  destruct (shown_range q l Hn Hl) as (E1 & E2 & E3).
  pose proof (group_page_num_range q _ Hn ltac:(lia)) as Hg. pose proof (total_pages_exact _ Hn) as ((H1 & H2) & _).
  assert (∀ p, (p ≤ U32_MAX)%N → leads base (Some (href base (with_group_page p q))) = Some (with_group_page p q)) as Hlead.
  { intros p Hp. cbn. f_equal. by apply parse_href, with_page_clean. }
  split; [by intros ?%fmap_nil_inv|]. rewrite group_ids_shown, E1.
  cbn [numbered_page_info current_page info_total_pages range_start range_end info_total first_href prev_href next_href last_href numbered].
  unfold start_index, end_index, has_prev, has_next, page_new. cbn [pg_page pg_per_page pg_total pg_total_pages].
  unfold GROUPS_PER_PAGE in *. set (c := group_page_num q (N.of_nat (length l))) in *.
  set (t := total_pages (N.of_nat (length l)) 25) in *. clearbody c t.
  destruct (N.eqb_spec (N.of_nat (length l)) 0) as [E|_]; [lia|]. split_and!.
  - f_equal. f_equal; [lia|]. f_equal. lia.
  - lia.
  - done.
  - by rewrite <- N.ltb_lt.
  - destruct (N.ltb_spec 1 c); [rewrite decide_True by done; apply Hlead; lia|by rewrite decide_False by lia].
  - destruct (N.ltb_spec 1 c); [rewrite decide_True by done; apply Hlead; lia|by rewrite decide_False by lia].
  - destruct (N.ltb_spec c t); [rewrite decide_True by done; apply Hlead; lia|by rewrite decide_False by lia].
  - destruct (N.ltb_spec c t); [rewrite decide_True by done; apply Hlead; lia|by rewrite decide_False by lia].
  - exists (page_window c t). destruct (page_window_strip c t) as (S1 & S2 & S3); [lia..|]. split; [done|].
    apply Forall2_fmap_r, Forall2_same_length_lookup_2; [done|]. intros i x y Hx Hy. rewrite Hx in Hy. injection Hy as <-.
    destruct x as [p|]; [|done]. exists (href base (with_group_page p q)). split.
    + do 2 f_equal. apply Bool.eq_iff_eq_true. by rewrite N.eqb_eq, bool_decide_eq_true.
    + apply Hlead. apply list_elem_of_lookup_2, S3 in Hx. lia.
Qed.
End browse.

(** ** A fleet of thirty *)

Module SampleFleet.
Fixpoint pairs_up (l : list rstr) : list (rstr * rstr) :=
  match l with k :: v :: l => (k, v) :: pairs_up l | _ => [] end.
#[local] Instance sample_form : UrlForm.
Proof.
  refine {| form_serialize l := strings_to_json (concat ((λ kv : rstr * rstr, [kv.1; kv.2]) <$> l));
            form_parse s := pairs_up (default [] (strings_of_json s)) |}.
  intros l. rewrite strings_of_to_json. unfold default, id. cbn [from_option].
  induction l as [|[k v] l IH]; [done|]. cbn [fmap list_fmap concat app pairs_up fst snd]. by f_equal.
Defined.

Definition base : rstr := #"/arsenals/inquest".
Definition host (i : nat) : Host :=
  mkHost (N.of_nat i) #"web" [] 0 None None None None None None false false None None None.
Definition fleet : list Host := host <$> seq 1 30.
Definition reg : Registry :=
  mkRegistry (list_to_map ((λ i, (N.of_nat i, mkConnection None 1)) <$> seq 1 30)) ∅ ∅ 2 (mkProtection [] None).
Definition ctx : AuthContext := mkCtx root_user {[ IncidentsView ]}.
Definition page_at (n : N) : option rstr := Some (form_serialize [(#"group_page", fmt_N n)]).
Definition pager_of (r : result AppError Dashboard) : option NumberedPageInfo :=
  match r with Ok (GroupPage _ pager) => Some pager | _ => None end.

Lemma second_page : ∃ groups pager, inquest_show ctx None (page_at 2) reg fleet = Ok (GroupPage groups pager).
Proof. by eexists _, _. Qed.
Lemma all_connected : length (connected_hosts reg fleet) = 30.
Proof. vm_compute. reflexivity. Qed.
Lemma small_fleet : (N.of_nat (length (connected_hosts reg fleet)) ≤ 25 * U32_MAX)%N.
Proof. by rewrite all_connected. Qed.
Lemma some_connected : connected_hosts reg fleet ≠ [].
Proof. intros E. pose proof all_connected as H. by rewrite E in H. Qed.

Lemma dashboards_cover_hosts_witness :
  ∃ groups pager, inquest_show ctx None (page_at 2) reg fleet = Ok (GroupPage groups pager) ∧ groups ≠ []
    ∧ ∃ strip, strip_of (current_page pager) (info_total_pages pager) strip.
Proof.
  destruct second_page as (groups & pager & E). exists groups, pager. split; [exact E|].
  destruct (dashboards_cover_hosts IncidentsView base ctx None (page_at 2) reg fleet groups pager E small_fleet) as [_ H].
  destruct (H some_connected) as (Hg & _ & _ & _ & _ & _ & _ & _ & _ & strip & Hs & _). exact (conj Hg (ex_intro _ strip Hs)).
Defined.

(** With no host connected the page asked for is kept, and the pager leads back to pages that do not exist. *)
Lemma empty_pager_leads_back :
  (λ pager, (current_page pager, info_total_pages pager, bool_decide (is_Some (prev_href pager))))
    <$> pager_of (inquest_show ctx None (page_at 5) reg []) = Some (5%N, 1%N, true).
Proof. vm_compute. reflexivity. Qed.
(** The count of pages is cut to 32 bits. *)
Lemma page_count_wraps : total_pages (25 * 2 ^ 32) 25 = 0%N.
Proof. reflexivity. Qed.
End SampleFleet.
